(* ===== verification/_CoqProject ===== *)
-Q . S2P
Prelude.v
GoStrings.v
Text.v
Sha256.v
Json.v
Domain.v
PathPattern.v
Encode.v
Analysis.v
Evidence.v
Authority.v
Policy.v
Reassessment.v
Review.v
Canonical.v
Topo.v
Reach.v
Item.v
WorkGraph.v
Projection.v
Handoff.v
Decision.v
Message.v
GoTime.v
Product.v
Knowledge.v
ProductContext.v
Batch.v
Database.v
ProductStore.v
ProductStoreFacts.v
ProductStoreExample.v
Plan.v
Events.v
Invocation.v
InvocationFacts.v
PlanPayload.v
PlanJournal.v
PlanJournalFacts.v
PlanStore.v
PlanStoreFacts.v
PlanStoreLaws.v
PlanStoreExample.v
PlanGraph.v
PlanTemplate.v
PlanValidate.v
PlanCompiler.v
PlanCompilerFacts.v
PlanObligations.v
Agents.v
Context.v
Resolver.v
ResolverFacts.v
Frames.v
UnitContext.v
Operation.v
Permit.v
Scheduler.v
OperationStore.v
OperationStoreFacts.v
OperationTable.v
SchedulerFacts.v
SchedulerWorld.v
SchedulerLaws.v
SchedulerBudget.v
SchedulerRun.v
SchedulerExample.v
