(* ===== verification/Prelude.v ===== *)
(** * The Zenchron Engineering core, formalised

    Zenchron Engineering governs changes that agents make to a repository.
    A policy is compiled against facts about a change into a work contract;
    evidence is bound to that contract; an action is authorized only when the
    contract permits it and the evidence discharges it; a change observed to
    be wider than predicted is reassessed into the next contract revision.
    Around that kernel the orchestration layer runs several units of work:
    a graph of units, the projection of each unit's state from durable facts,
    handoffs, messages between units, and the operator's decisions.  The
    planning layer turns a contract into a plan, a graph of stages, and
    resolves each stage to a worker the operator configured.  The product
    layer keeps what is known about a product, decides which of it a unit of
    work is told, and pins what it was told; the prompt layer puts text of
    other authors inside frames they cannot close.  The journal layer keeps
    the history of every plan as a hash-chained stream of events, and replays
    the plan's approvals, stages and budget from it.  The scheduler leases the
    operations of the runs to drivers of several processes, under ceilings they
    share.  Most of this is pure Go code called by a shell that does the I/O;
    the development models the pure code, and of the shell the scheduler with
    its stores, run concurrently, the product store and the plan store, as
    steps on a database of tables, and the delivery of contexts to units, and
    proves what the rest of the shell relies on.

    ** Files

    Foundations.
    - [Prelude] (this file): boolean tests written as Go conditions, the error
      monad [result] with [let? x := m in k] for [if err != nil] returns and
      [m ;? k] for checks, loops with early return ([check_all], [for_each]),
      sorting, unique lists, iteration over maps, the tactics of the
      development and the hint database [go].
    - [GoStrings]: the functions of [strings], [path], [utf8] and [strconv] the
      source calls, on byte strings.
    - [Text]: [strings.ReplaceAll] and what remains of a text after it.
    - [GoTime]: the instants and time texts of [time] the records carry.
    - [Json]: JSON values and the decoding of [encoding/json] into the fields
      of a struct, lenient and strict.
    - [Sha256]: an executable SHA-256.
    - [Canonical]: [domain/canonical.go], the I-JSON walk behind [Digest].

    Governance kernel.
    - [Domain]: the documents of [domain/types.go] and [domain/plan.go].
    - [PathPattern]: [internal/pathpattern] and [domain/boundary_patterns.go].
    - [Encode]: [domain.Encode] as the admission check the kernel uses.
    - [Analysis]: [analysis/analysis.go]; [analyze] is the body of [Predict] and
      [Observe], [Detect] the critical boundary detector.
    - [Evidence]: [evidence/evidence.go].
    - [Authority]: [authority/authority.go], [Evaluate].
    - [Policy]: [policy/compiler.go], [Compile].
    - [Reassessment]: [reassessment/reassessment.go], [Reassess]; it calls
      [analyze], [compile] and [MarkStaleForBindingChange].
    - [Review]: [review/decision.go].

    Orchestration.
    - [Item]: [orchestration/item.go], [ProjectItem].
    - [WorkGraph]: [orchestration/workgraph.go].
    - [Projection]: [orchestration/workgraph_projection.go] and
      [orchestration/remediation.go]; it calls [ProjectItem] and
      [topologicalOrder].
    - [Handoff]: [orchestration/handoff.go].
    - [Decision]: [orchestration/decision_resolution.go] and
      [orchestration/workgraph_hold.go].
    - [Message]: [orchestration/communication.go] and
      [orchestration/communication_admission.go].
    - [Batch]: [orchestration/batch.go]; a batch carries the pin of
      [ProductContext].

    Products.
    - [Product]: [product/product.go], [scope.go], [configuration.go] and
      [association.go].
    - [Knowledge]: [product/knowledge.go], entries and [Promote].
    - [ProductContext]: [product/context.go] over the class of operations
      [Store] with its laws [StoreLaws], and [product/pin.go].
    - [Database]: the tables of [runtime/product_schema.go], of work graphs,
      activations and batches; [ProductStore]: the writes and reads of
      [runtime/product_store.go], [product_knowledge_store.go],
      [product_association_store.go], [workgraph_store.go] and
      [orchestration_store.go], each write a function of the database.
      [ProductStoreFacts] makes them the steps of a transition system, shows
      what every reachable database satisfies and that such a database is a
      [Store]; [ProductStoreExample] runs a product through its life.
    - [UnitContext]: [runtime/product_context.go] and
      [runtime/work_unit_context.go], from the pin of an admitted unit to what
      its executor is handed.
    - [Frames]: the prompt frames of [runtime/feedback_observe.go],
      [product_context_prompt.go], [review_contract.go] and the objective of
      [operations.go].

    Plan journal.
    - [Events]: the event of [runtime/runtime.go], its digest, the payload
      checks every schema of [runtime/event_payload.go] is made of, and the
      walk of [runtime/journal.go] that refuses a transcript.
    - [Invocation]: [domain/invocation.go] and the checks of
      [runtime/attempt_provenance.go]; [InvocationFacts] holds its theorem.
    - [PlanPayload]: the payload of each plan event, its decoder and its check.
    - [PlanJournal]: [runtime/plan_projection.go]; [apply_plan_event] is
      [apply], one function per case, [ReducePlan] the fold with its chain
      checks.  [PlanJournalFacts]: the cases as an inductive relation, the
      chain, and what a budget counts.
    - [PlanStore]: [runtime/plan_store.go], the append of
      [runtime/journal.go] over a record [journalStream] of operations, and
      [runtime/remediation_epoch_charge_store.go].  [PlanStoreFacts] makes the
      writes steps of a transition system and shows what each extends;
      [PlanStoreLaws] holds the theorems, [PlanStoreExample] a plan's life.

    Scheduling.
    - [Operation]: the durable operation of [runtime/runtime.go], its document,
      its budgets and eligibility, [runtime/capacity.go], and what each method
      of the scheduler makes of a row.
    - [Permit]: the permits and review claims of
      [runtime/verification_permit.go] and [review_verification_claim.go], and
      [runtime/verification_wait.go].
    - [Scheduler]: [runtime/scheduler.go], [driver_leases.go],
      [capacity_wait.go] and the methods of the permits and claims, each a
      program of atomic calls.
    - [OperationStore]: the class of stores such programs run on, with its
      laws; the statements of [runtime/sqlite_store.go],
      [verification_permit_sqlite.go] and [pause.go] as one instance, the
      in-process store of [scheduler.go] as another.  [OperationStoreFacts]
      discharges the laws for both, and says when a row of the durable one can
      be rewritten.
    - [OperationTable]: the specification, a table changed by atomic steps, and
      the invariants of every table it reaches.
    - [SchedulerFacts]: every method only makes calls that what it has read
      justifies.  [SchedulerWorld]: processes, threads, crashes, and the
      refinement of the table by every world.  [SchedulerLaws] holds the
      theorems on every world, [SchedulerBudget] what an attempt is charged,
      [SchedulerRun] what one process does on the durable store when no
      statement fails; [SchedulerExample] runs two processes on that store.

    Planning.
    - [Topo]: Kahn's algorithm over a class of graph nodes, as
      [planning/graph.go] and [planning/compiler.go] both run it; [Reach]: the
      two walks over dependencies, breadth first and depth first, and what they
      find.
    - [Plan]: the plan records of [domain/plan.go] and their content identity.
    - [PlanGraph]: [planning/graph.go], [validateStageGraph].
    - [PlanTemplate]: [planning/template.go].
    - [PlanValidate]: [planning/validate.go], [planning/roles.go],
      [planning/publication_gates.go], [planning/human_substitution.go];
      [validate_plan] is [Validate].
    - [PlanCompiler]: [planning/compiler.go], [planning/acceptance_feature.go],
      [planning/profile_preference.go]; [compile_plan] is [Compile].
      [PlanCompilerFacts] and [PlanObligations] hold its theorems.
    - [Agents]: the profiles, packs, policies and workers of [domain/plan.go],
      [planning/escalation.go] and [planning/registry.go]; the four artifact
      kinds are instances of one class, so sealing is proved once.
    - [Context]: [planning/context.go], [CompileContext].
    - [Resolver]: [planning/resolver.go], [Resolve]; it calls [RefuseEscalation],
      [Binding] and [CompileContext].  [ResolverFacts] holds its theorems.

    ** How the model reads the code

    A Go function is a Coq function of the same name; a method takes its
    receiver first.  [(T, error)] is [result E T], where [E] has one
    constructor per error message and carries the values the message prints,
    so that two refusals are equal exactly when the code says the same thing.
    A struct is a record, a named string type a [string] with its constants
    named, a slice a list (nil and empty are one value where the code does not
    tell them apart), a pointer an [option], a map a [gmap], a time a [Z]:
    nanoseconds since the year 1, in UTC, with 0 for the zero time.  An [int] is a [Z]; the additions on numbers
    a caller supplies, the next revision of a graph and the counters of a
    budget, wrap at 64 bits ([wrap64]); the others count lists the code has
    bounded.

    Go iterates over a map in an order it does not promise.  Each loop over a
    map asks the class [MapRange] for the order, any permutation of the
    entries, and the determinism theorems compare two instances of it.  Code
    outside the repository is a class as well: [SchemaValidator] for JSON
    Schema validation, [Canonicalizer] for RFC 8785 text, [GoUnicode] for the
    Unicode tables outside ASCII; [PlanSchema], [ArtifactSchemas] and
    [AssignmentSchema] are the JSON Schemas of the planning documents.  None of
    them comes with laws: the theorems hold for every instance, and the
    witnesses use concrete ones.

    A table is a list of rows in order of insertion, each row the document it
    stores, with its keys and foreign keys checked by the writes that SQLite
    checks them in.  A transaction is one function of the database that
    returns it unchanged when it refuses; a read is a function of it, with the
    order and the limit of its query.  The payload of an event is a JSON value:
    the text it is stored as denotes the same value, whose numbers keep the
    digits they were written with; the marshalling of a Go value gives the
    value, not its spelling.  The git objects a diff is read from are
    the class [CandidateStore], an operation without laws.

    A method of the scheduler is a tree of calls ([prog]): of the store, the
    clock, the liveness probe, the random source and its process's record of
    grants.  A call is atomic, a method is not: between two calls of one driver
    any other may act, the runtime may append events and rewrite runs, a
    process may die.  A call of the store may fail, after its effect as well as
    before.  The probe may take a dead owner for alive but not a live one for
    dead, and an owner that died stays dead; the class [URLParser] stands for
    [net/url].  Whether the journal takes the event of a permit is for the
    journal to say: a transition of a permit is a relation.  The class [Rounds]
    bounds a loop the code does not bound, of [ReleaseVerification]; the
    theorems hold for every bound.

    Loops are structural recursions over the lists they range over.  Those
    that are not take fuel: [drain], the worklist of [topologicalOrder], gets
    one step more than there are units, and [topologicalOrder_spec] shows that
    it answers on every input; [digits] prints a number with as much fuel as
    it has bits, which [itoa_inj] shows is enough; [blocks] cuts a padded text
    into as many SHA-256 blocks as its length holds.  The planning layer's
    [drain] has the same fuel as the other and the same guarantee; [walk]
    takes one step per edge and one more, [descend] nests once per name and
    once more, and both are shown to answer and to find exactly what is
    reachable; [next_suffix] tries one candidate more than there are stages ([uniqueStageID_fresh]); [rune_cut] moves at most three
    bytes, as the loop it models.

    ** What is proved

    - Authority: [Evaluate] authorizes exactly when permission, capability and
      every required claim are there; the severity of any other status; no
      influence of evidence bound elsewhere; independence of map order.
    - Policy: a compiled contract holds what its applicable rules state and
      nothing else, is consistent, stays under the permission ceiling of its
      predecessor, never weakens a plan requirement, does not depend on map
      order, and, with [Evaluate], cannot authorize anything while an
      acceptance criterion is undischarged.
    - Reassessment and evidence: the next revision gains no privilege, reports
      every one the observed facts alone would have given, and leaves no
      applicable evidence behind; what a reassessment that reports
      nothing does and does not guarantee.
    - Analysis: what the detector reports, what a fact set keeps, normal forms
      of observed paths.
    - Review: which decisions are valid, and that their identity determines
      subject and reviewer.
    - Work graph: [topologicalOrder] decides acyclicity and orders the units;
      admission of a revision and of a mutation; digests ignore order.
    - Projection: the loop refines a rule table that mentions no order; the
      frontier, the only refusals, what a completed unit stands on.
    - Handoffs, messages, decisions, batches: which records are admitted, that
      a worker's text never becomes provenance, that histories are appended and
      corrected once, that a worker closes no decision request, what an inbox
      shows, that a request has one answer, that an identity is that of a set.

    - Plan graphs: [validateStageGraph] admits exactly the well-formed graphs.
    - Plans: what passes [validate_plan] meets every obligation of its
      contract and stays inside its budget, a chain of revisions never weakens
      a stage, putting a person in place of a worker is such a revision.
    - Plan compiler: [compile_plan] is sound, policy only strengthens the
      stages it is applied to, the canonical order is one order, shares are
      positive and inside the envelope.  An independent role
      is bound to the producers the plan has when the role is applied, not to
      those a later role adds.  The examples of [PlanCompilerFacts] run the
      compiler on the inputs the findings are about.
    - Agents: a registry that loads is closed and genuine, sealing is stable.
    - Contexts: a worker is always told its governance envelope and sees
      nothing its role and policy do not open, whatever the map order.
    - Resolution: a stage that brings an assignment with it keeps it, unchecked;
      for the others, assigned workers are eligible and provably separated, a
      stage with an eligible worker is assigned to a best one unless it names
      something that is not installed, and budgets are only narrowed; reasons
      are short valid text.

    - Products: what a unit was told is part of what it may see, can always be
      pinned, and an execution that is given a context is given that one however
      the product is written afterwards; that it is never refused one needs the
      later entries to be younger, which the store does not enforce (the
      hypothesis [appended], see the finding on [product/pin.go]); a promotion in
      the store traces back, step by step and with an authorizer each, to a
      discovery stated in the same words; units admitted under a graph name
      its product; a unit reads nothing nobody promoted.
    - Frames: whatever the text put inside them, the product, feedback,
      upstream and review blocks have one opening and one closing marker of
      their own; the objective of a source, whose marker the code does not
      list among those it neutralizes, does not.

    - Plan journal: a history that was appended always replays, to the state
      its last event recorded, and cannot be rewritten under its cursor
      without a second event for the digest of one of its own; the revision that governs is the highest
      ever approved; budgets are the exact sum of their charges and never go
      down; a run is charged for an epoch once and
      under the ceiling; stored revisions
      are immutable and genuine; an invocation can always be recorded at
      least in part.

    - Scheduler: every interleaving of drivers refines the table of atomic
      steps; so capacity is kept, a live owner's lease is not handed on, no
      work is leased in a paused or terminal run, dependencies come first,
      attempts are bounded under fresh identities, settled rows stay settled.
      An attempt is charged exactly the time in which no tool of it waited for
      capacity that none of them held, as its journal tells it; on the durable
      store, where no statement fails and nothing is to be taken back, [Next]
      leases the first operation of the queue that is due and has room, or
      nothing when all are passed over.

    ** Not modelled

    The text of JSON and so the decoders from text ([domain.Decode],
    [DecodeHandoffReport], [DecodeMessageReport]); [short12], a prefix used in
    messages only.  The shell: [runtime] but for the files named above,
    [agentkernel], [execution], [integration], [cmd], [controlplane],
    [frontend] do file, database, process and network I/O around these
    functions.  Of [planning], reading the registry's directory and the writer
    [planning/write.go].  Of the product store, listings by page and the
    handoff table.  Of the journal, the streams of runs with their payloads
    and their reducer, and [followRemediationEpochs], by which [ReplayPlan]
    moves a remediated stage to its current run: [replay_plan] is the state
    before it.  Of the scheduler, the retry classes of a failure, and the
    driver loop that calls its methods: a world lets any driver call any of
    them at any time.  Candidates to extend it with: the reducer of runs, the
    revision proposals of [domain/plan.go], the admission of handoffs, and the
    pure files of [runtime] (projections, dispositions). *)

From stdpp Require Export base gmap sets list strings sorting.
From stdpp Require Import options.

(* ------------------------------------------------------------------ *)
(** * Boolean tests

    Go conditions are boolean expressions.  [a ≟ b] is Go's [a == b] at any
    type with decidable equality, [a ≠? b] is [a != b]. *)

Declare Scope go_scope.
Delimit Scope go_scope with go.

Notation "a ≟ b" := (bool_decide (a = b)) (at level 70, no associativity) : go_scope.
Notation "a ≠? b" := (negb (bool_decide (a = b))) (at level 70, no associativity) : go_scope.
Notation "l ∋? x" := (bool_decide (x ∈ l)) (at level 70, no associativity) : go_scope.

Global Open Scope go_scope.
Global Open Scope stdpp_scope.

(** Turn boolean tests in hypotheses and goal into the propositions they
    decide. *)
Ltac reflect_bools :=
  repeat match goal with
  | H : context [bool_decide _ = true] |- _ => setoid_rewrite bool_decide_eq_true in H
  | H : context [bool_decide _ = false] |- _ => setoid_rewrite bool_decide_eq_false in H
  | H : context [negb _ = true] |- _ => setoid_rewrite negb_true_iff in H
  | H : context [negb _ = false] |- _ => setoid_rewrite negb_false_iff in H
  | H : context [(_ || _)%bool = false] |- _ => setoid_rewrite orb_false_iff in H
  | H : context [(_ || _)%bool = true] |- _ => setoid_rewrite orb_true_iff in H
  | H : context [(_ && _)%bool = true] |- _ => setoid_rewrite andb_true_iff in H
  | H : context [(_ && _)%bool = false] |- _ => setoid_rewrite andb_false_iff in H
  | |- context [bool_decide _ = true] => setoid_rewrite bool_decide_eq_true
  | |- context [bool_decide _ = false] => setoid_rewrite bool_decide_eq_false
  | |- context [negb _ = true] => setoid_rewrite negb_true_iff
  | |- context [negb _ = false] => setoid_rewrite negb_false_iff
  | |- context [(_ || _)%bool = false] => setoid_rewrite orb_false_iff
  | |- context [(_ || _)%bool = true] => setoid_rewrite orb_true_iff
  | |- context [(_ && _)%bool = true] => setoid_rewrite andb_true_iff
  | |- context [(_ && _)%bool = false] => setoid_rewrite andb_false_iff
  end.

(* ------------------------------------------------------------------ *)
(** * Results

    A Go function returning [(T, error)] is a function into [result E T]:
    the value on a nil error, the refusal otherwise.  The error type of each
    component is an inductive type with one constructor per [fmt.Errorf]. *)

Inductive result (E A : Type) : Type :=
  | Ok (a : A)
  | Err (e : E).
Global Arguments Ok {E A} _.
Global Arguments Err {E A} _.

Definition rbind {E A B} (c : result E A) (k : A → result E B) : result E B :=
  match c with Ok a => k a | Err e => Err e end.

(** [fmt.Errorf("...: %w", err)]: a refusal reported inside another one. *)
Definition wrap {E F A} (f : E → F) (c : result E A) : result F A :=
  match c with Ok a => Ok a | Err e => Err (f e) end.

(** [if cond { return err }]. *)
Definition refuse_if {E} (b : bool) (e : E) : result E () :=
  if b then Err e else Ok tt.

Definition of_option {E A} (e : E) (o : option A) : result E A :=
  match o with Some a => Ok a | None => Err e end.

Definition is_ok {E A} (c : result E A) : bool :=
  match c with Ok _ => true | Err _ => false end.

Notation "'let?' x := c 'in' k" := (rbind c (λ x, k))
  (at level 10, x pattern, c at level 100, k at level 200,
   format "'[v' 'let?'  x  :=  c  'in'  '/' k ']'") : go_scope.
Notation "c ;? k" := (rbind c (λ _, k))
  (at level 101, k at level 200, right associativity) : go_scope.

(** [if p != nil { ... *p ... }] around a loop that updates a state. *)
Definition when_some {E S A} (o : option A) (f : A → S → result E S) (s : S) : result E S :=
  match o with Some a => f a s | None => Ok s end.

Lemma rbind_ok {E A B} (c : result E A) (k : A → result E B) b :
  rbind c k = Ok b ↔ ∃ a, c = Ok a ∧ k a = Ok b.
Proof. destruct c; simpl; naive_solver. Qed.

Lemma wrap_ok {E F A} (f : E → F) (c : result E A) a :
  wrap f c = Ok a ↔ c = Ok a.
Proof. destruct c; simpl; naive_solver. Qed.

Lemma refuse_if_ok {E} b (e : E) u : refuse_if b e = Ok u ↔ b = false.
Proof. destruct b, u; simpl; naive_solver. Qed.

Lemma of_option_ok {E A} (e : E) (o : option A) a : of_option e o = Ok a ↔ o = Some a.
Proof. destruct o; simpl; naive_solver. Qed.

Lemma is_ok_true {E A} (c : result E A) : is_ok c = true ↔ ∃ a, c = Ok a.
Proof. destruct c; simpl; naive_solver. Qed.

(** The value of a computation known to succeed. *)
Definition ok_or {E A} (d : A) (c : result E A) : A :=
  match c with Ok a => a | Err _ => d end.

Lemma ok_or_eq {E A} (d : A) (c : result E A) : is_ok c = true → c = Ok (ok_or d c).
Proof. by destruct c. Qed.

(** Two computations that succeed alike, step by step. *)
Lemma rbind_ok_ext {E A B} (c1 c2 : result E A) (k1 k2 : A → result E B) b :
  (∀ a, c1 = Ok a ↔ c2 = Ok a) → (∀ a, c1 = Ok a → k1 a = Ok b ↔ k2 a = Ok b) →
  rbind c1 k1 = Ok b ↔ rbind c2 k2 = Ok b.
Proof. intros Hc Hk. rewrite !rbind_ok. naive_solver. Qed.

Lemma wrap_ok_ext {E F A} (f : E → F) (c1 c2 : result E A) a :
  (c1 = Ok a ↔ c2 = Ok a) → wrap f c1 = Ok a ↔ wrap f c2 = Ok a.
Proof. intros Hc. by rewrite !wrap_ok. Qed.

(** Invert every successful bind among the hypotheses. *)
Ltac invert_ok :=
  repeat match goal with
  | H : rbind _ _ = Ok _ |- _ =>
      apply rbind_ok in H; destruct H as (? & ? & H); simpl in H
  | H : wrap _ _ = Ok _ |- _ => apply wrap_ok in H
  | H : refuse_if _ _ = Ok _ |- _ => apply refuse_if_ok in H
  | H : of_option _ _ = Ok _ |- _ => apply of_option_ok in H
  | H : Ok _ = Ok _ |- _ => injection H as H; subst
  | H : Err _ = Ok _ |- _ => discriminate H
  | u : () |- _ => destruct u
  end.

(** Go's [int] and [int64] wrap around at 64 bits. *)
Definition wrap64 (z : Z) : Z := ((z + 2 ^ 63) mod 2 ^ 64 - 2 ^ 63)%Z.

(* ------------------------------------------------------------------ *)
(** * Loops

    [for _, x := range l { if err := f(x); err != nil { return err } }] and
    the variant that also threads a state. *)

Fixpoint check_all {E A} (f : A → result E ()) (l : list A) : result E () :=
  match l with
  | [] => Ok tt
  | x :: l => f x ;? check_all f l
  end.

Fixpoint for_each {E S A} (f : S → A → result E S) (l : list A) (s : S) : result E S :=
  match l with
  | [] => Ok s
  | x :: l => let? s' := f s x in for_each f l s'
  end.

Lemma check_all_ok {E A} (f : A → result E ()) l u :
  check_all f l = Ok u ↔ ∀ x, x ∈ l → f x = Ok tt.
Proof.
  destruct u. induction l as [|x l IH]; simpl.
  - split; [intros _ x Hx; by apply not_elem_of_nil in Hx | done].
  - rewrite rbind_ok. setoid_rewrite IH. setoid_rewrite elem_of_cons.
    split; [intros ([] & Hx & Hl) y [->|Hy]; auto|].
    intros Hall. exists tt. auto.
Qed.

Lemma check_all_perm {E A} (f : A → result E ()) l1 l2 u :
  l1 ≡ₚ l2 → check_all f l1 = Ok u → check_all f l2 = Ok u.
Proof. intros Hp. rewrite !check_all_ok. by setoid_rewrite Hp. Qed.

Lemma for_each_app {E S A} (f : S → A → result E S) l1 l2 s :
  for_each f (l1 ++ l2) s = (let? s' := for_each f l1 s in for_each f l2 s').
Proof. revert s; induction l1 as [|x l1 IH]; intros s; simpl; [done|]. destruct (f s x); simpl; auto. Qed.

(** Rule induction for a successful loop: an invariant of the state indexed
    by the elements already consumed. *)
Lemma for_each_ind {E S A} (f : S → A → result E S) (P : list A → S → Prop) l s s' :
  P [] s →
  (∀ done x rest s1 s2, l = done ++ x :: rest → P done s1 → f s1 x = Ok s2 → P (done ++ [x]) s2) →
  for_each f l s = Ok s' → P l s'.
Proof.
  intros H0 Hstep.
  enough (∀ rest done s1, l = done ++ rest → P done s1 → for_each f rest s1 = Ok s' → P l s') as HH
    by (apply (HH l []); done).
  induction rest as [|x rest IH]; intros done s1 -> HP; simpl; intros H; invert_ok.
  - by rewrite app_nil_r.
  - eapply (IH (done ++ [x])); [by rewrite <- app_assoc| |done]. eauto.
Qed.

(** The same rule for a loop that may be refused: the refusal comes from an
    element reached with the invariant. *)
Lemma for_each_outcome {E S A} (f : S → A → result E S) (P : list A → S → Prop) l s :
  P [] s →
  (∀ done x rest s1 s2, l = done ++ x :: rest → P done s1 → f s1 x = Ok s2 → P (done ++ [x]) s2) →
  match for_each f l s with
  | Ok s' => P l s'
  | Err e => ∃ done x rest s1, l = done ++ x :: rest ∧ P done s1 ∧ f s1 x = Err e
  end.
Proof.
  intros H0 Hstep.
  enough (∀ rest done s1, l = done ++ rest → P done s1 →
    match for_each f rest s1 with
    | Ok s' => P l s'
    | Err e => ∃ done x rest s1, l = done ++ x :: rest ∧ P done s1 ∧ f s1 x = Err e
    end) as HH by (apply (HH l []); done).
  induction rest as [|x rest IH]; intros done s1 -> HP; simpl; [by rewrite app_nil_r|].
  destruct (f s1 x) as [s2|e] eqn:Hf; simpl; [|by eauto 10].
  apply (IH (done ++ [x])); [by rewrite <- app_assoc|eauto].
Qed.

(** The common case: an invariant that does not look at the elements. *)
Lemma for_each_inv {E S A} (f : S → A → result E S) (I : S → Prop) l s s' :
  I s → (∀ x s1 s2, x ∈ l → I s1 → f s1 x = Ok s2 → I s2) →
  for_each f l s = Ok s' → I s'.
Proof.
  intros H0 Hstep. apply (for_each_ind f (λ _ s, I s)); [done|].
  intros done x rest s1 s2 -> HI Hf. eapply Hstep; [|done..]. set_solver.
Qed.

(** Once an element has established a fact that later steps keep, it holds at
    the end. *)
Lemma for_each_establish {E S A} (f : S → A → result E S) (Q : S → Prop) l s s' x :
  x ∈ l →
  (∀ s1 s2, f s1 x = Ok s2 → Q s2) →
  (∀ y s1 s2, y ∈ l → Q s1 → f s1 y = Ok s2 → Q s2) →
  for_each f l s = Ok s' → Q s'.
Proof.
  intros (l1 & l2 & ->)%list_elem_of_split Hx Hkeep. rewrite for_each_app. simpl.
  intros H. invert_ok.
  match goal with H1 : f _ x = Ok ?s2, H2 : for_each f l2 ?s2 = Ok s' |- _ =>
    eapply (for_each_inv f Q l2 s2 s'); [by eapply Hx| |done] end.
  intros y s1 s2 Hy. apply Hkeep. set_solver.
Qed.

(** A loop whose steps commute for elements with distinct keys gives the same
    successful result in every order. *)
Lemma for_each_perm {E S A K} (f : S → A → result E S) (key : A → K) l1 l2 s s' :
  (∀ s x y s1 s2, key x ≠ key y → f s x = Ok s1 → f s1 y = Ok s2 →
     ∃ s1', f s y = Ok s1' ∧ f s1' x = Ok s2) →
  NoDup (key <$> l1) → l1 ≡ₚ l2 → for_each f l1 s = Ok s' → for_each f l2 s = Ok s'.
Proof.
  intros Hcomm Hnd Hp. revert s. induction Hp as [|x l1 l2 Hp IH|x y l|l1 l2 l3 Hp1 IH1 Hp2 IH2]; intros s Hf.
  - done.
  - simpl in *. apply NoDup_cons in Hnd as [_ Hnd]. invert_ok.
    match goal with H : f s x = Ok _ |- _ => rewrite H end. simpl. auto.
  - simpl in *. invert_ok. apply NoDup_cons in Hnd as [Hx _].
    match goal with H1 : f s y = Ok ?s1, H2 : f ?s1 x = Ok ?s2 |- _ =>
      destruct (Hcomm s y x s1 s2) as (s1' & Ha & Hb); [|done..|] end.
    { intros Heq. apply Hx. rewrite Heq. constructor. }
    rewrite Ha. simpl. rewrite Hb. done.
  - apply IH2; [|auto]. by rewrite <- Hp1.
Qed.

(** A flag that a loop only ever raises: it is up at the end when it was up
    at the start or some element raised it. *)
Lemma fold_left_flag {S A} (f : S → A → S) (flag : S → bool) (P : A → Prop) :
  (∀ s x, flag (f s x) = true ↔ flag s = true ∨ P x) →
  ∀ l s, flag (fold_left f l s) = true ↔ flag s = true ∨ ∃ x, x ∈ l ∧ P x.
Proof.
  intros Hf. induction l as [|x l IH]; intros s; simpl.
  - split; [by left|]. intros [?|(x & Hx & _)]; [done|by apply not_elem_of_nil in Hx].
  - rewrite IH, Hf. setoid_rewrite elem_of_cons. naive_solver.
Qed.

Lemma forall_some {A} (x : A) (P : A → Prop) : (∀ y, Some x = Some y → P y) ↔ P x.
Proof. split; [by intros Hx; apply Hx|by intros ? ? [= <-]]. Qed.

Lemma NoDup_fmap_inj {A B} (f : A → B) l x y :
  NoDup (f <$> l) → x ∈ l → y ∈ l → f x = f y → x = y.
Proof.
  intros Hnd [i Hi]%list_elem_of_lookup [j Hj]%list_elem_of_lookup He.
  assert (i = j) as ->; [|congruence].
  eapply (NoDup_lookup (f <$> l)); [done|..]; rewrite list_lookup_fmap; [by rewrite Hi|by rewrite Hj, He].
Qed.

Lemma list_filter_all {A} (P : A → Prop) `{!∀ x, Decision (P x)} (l : list A) :
  (∀ x, x ∈ l → P x) → filter P l = l.
Proof.
  induction l as [|x l IH]; intros Hp; [done|]. rewrite filter_cons, decide_True by (apply Hp; constructor).
  f_equal. apply IH. intros y Hy. apply Hp. by constructor.
Qed.

Lemma list_filter_none {A} (P : A → Prop) `{!∀ x, Decision (P x)} (l : list A) :
  (∀ x, x ∈ l → ¬ P x) → filter P l = [].
Proof.
  induction l as [|x l IH]; intros Hp; [done|]. rewrite filter_cons, decide_False by (apply Hp; constructor).
  apply IH. intros y Hy. apply Hp. by constructor.
Qed.

Lemma fold_left_ext {S A} (f g : S → A → S) (l : list A) s :
  (∀ s x, f s x = g s x) → fold_left f l s = fold_left g l s.
Proof. intros Hf. revert s; induction l as [|x l IH]; intros s; simpl; [done|]. by rewrite Hf, IH. Qed.

Lemma existsb_elem {A} (f : A → bool) (l : list A) :
  existsb f l = true ↔ ∃ x, x ∈ l ∧ f x = true.
Proof. rewrite existsb_exists. by setoid_rewrite list_elem_of_In. Qed.

Lemma elem_of_concat {A} (x : A) (ls : list (list A)) : x ∈ concat ls ↔ ∃ l, l ∈ ls ∧ x ∈ l.
Proof. rewrite list_elem_of_In, in_concat. by setoid_rewrite list_elem_of_In. Qed.

Lemma elem_of_if {A} (P : Prop) `{!Decision P} (x c : A) :
  c ∈ (if bool_decide P then [x] else []) ↔ P ∧ c = x.
Proof.
  case_bool_decide; [rewrite list_elem_of_singleton; naive_solver|].
  split; [by intros ?%not_elem_of_nil|naive_solver].
Qed.

Lemma forallb_elem {A} (f : A → bool) (l : list A) :
  forallb f l = true ↔ ∀ x, x ∈ l → f x = true.
Proof. rewrite forallb_forall. by setoid_rewrite list_elem_of_In. Qed.

(* ------------------------------------------------------------------ *)
(** * Sorting

    [sort.Strings] orders byte strings by Go's [<], which is the
    lexicographic order on bytes; [String.le] is the same order.
    [sort.Slice] with a string key orders by that key.  Go leaves the order
    of elements with equal keys open; the model keeps merge sort's, and no
    theorem depends on it. *)

Definition sort_strings (l : list string) : list string := merge_sort String.le l.

Definition key_le {A} (key : A → string) : relation A := λ x y, String.le (key x) (key y).
Global Instance key_le_dec {A} (key : A → string) x y : Decision (key_le key x y).
Proof. unfold key_le. apply _. Defined.
Global Instance key_le_trans {A} (key : A → string) : Transitive (key_le key).
Proof. intros x y z. unfold key_le. apply transitivity. Qed.
Global Instance key_le_total {A} (key : A → string) : Total (key_le key).
Proof. intros x y. unfold key_le. apply (total String.le). Qed.

Definition sort_by {A} (key : A → string) (l : list A) : list A := merge_sort (key_le key) l.

(** The in-place compaction loop
    [for _, v := range values { if len(result)==0 || v != result[len(result)-1] {...} }]:
    [prev] is the last element of [result]. *)
Fixpoint uniq_from `{EqDecision A} (prev : option A) (l : list A) : list A :=
  match l with
  | [] => []
  | v :: l => if prev ≟ Some v then uniq_from prev l else v :: uniq_from (Some v) l
  end.

Definition uniq `{EqDecision A} (l : list A) : list A := uniq_from None l.

(** [sortedUnique], the canonical form of a set of strings. *)
Definition sorted_unique (l : list string) : list string := uniq (sort_strings l).

Lemma sort_strings_perm l : sort_strings l ≡ₚ l.
Proof. apply merge_sort_Permutation. Qed.

Lemma sort_strings_sorted l : StronglySorted String.le (sort_strings l).
Proof. apply (StronglySorted_merge_sort String.le). Qed.

Lemma elem_of_sort_strings x l : x ∈ sort_strings l ↔ x ∈ l.
Proof. by rewrite sort_strings_perm. Qed.

Global Instance sort_strings_proper : Proper ((≡ₚ) ==> (=)) sort_strings.
Proof.
  intros l1 l2 Hl. apply (StronglySorted_unique String.le); try apply sort_strings_sorted.
  by rewrite !sort_strings_perm.
Qed.

Lemma sort_by_perm {A} (key : A → string) l : sort_by key l ≡ₚ l.
Proof. apply merge_sort_Permutation. Qed.

Lemma sort_by_sorted {A} (key : A → string) l : StronglySorted (key_le key) (sort_by key l).
Proof. apply (StronglySorted_merge_sort (key_le key)). Qed.

Lemma elem_of_sort_by {A} (key : A → string) x l : x ∈ sort_by key l ↔ x ∈ l.
Proof. by rewrite sort_by_perm. Qed.

(** Where the key separates the elements, the sorted list is the only one:
    it does not depend on the order the elements arrived in. *)
Lemma sort_by_unique {A} (key : A → string) l1 l2 :
  (∀ x y, x ∈ l1 → y ∈ l1 → key x = key y → x = y) →
  l1 ≡ₚ l2 → sort_by key l1 = sort_by key l2.
Proof.
  intros Hinj Hp. apply (StronglySorted_unique_strong (key_le key)); try apply sort_by_sorted.
  - intros x y Hx Hy Hxy Hyx. rewrite elem_of_sort_by in Hx, Hy.
    apply Hinj; [done|by rewrite Hp|]. by apply (anti_symm String.le).
  - by rewrite !sort_by_perm.
Qed.

Section uniq.
Context `{EqDecision A}.
Implicit Types l : list A.

Lemma elem_of_uniq_from prev x l :
  x ∈ uniq_from prev l → x ∈ l.
Proof.
  revert prev; induction l as [|v l IH]; intros prev; simpl; [done|].
  case_bool_decide; rewrite !elem_of_cons; [by eauto|]. intros [->|?]; eauto.
Qed.

Lemma elem_of_uniq_from_2 prev x l :
  x ∈ l → x ∈ uniq_from prev l ∨ prev = Some x.
Proof.
  revert prev; induction l as [|v l IH]; intros prev; simpl.
  { by intros ?%not_elem_of_nil. }
  rewrite elem_of_cons. case_bool_decide as Hp; subst.
  - intros [->|?%(IH (Some v))]; naive_solver.
  - rewrite elem_of_cons. intros [->|Hx%(IH (Some v))]; naive_solver.
Qed.

Lemma elem_of_uniq x l : x ∈ uniq l ↔ x ∈ l.
Proof.
  split; [apply elem_of_uniq_from|].
  intros Hx. destruct (elem_of_uniq_from_2 None x l Hx); done.
Qed.

Lemma uniq_sublist prev l : sublist (uniq_from prev l) l.
Proof.
  revert prev; induction l as [|v l IH]; intros prev; simpl; [constructor|].
  case_bool_decide; constructor; auto.
Qed.

Lemma uniq_sorted (R : relation A) l : StronglySorted R l → StronglySorted R (uniq l).
Proof.
  unfold uniq. generalize (@None A) as prev.
  intros prev Hs. revert prev.
  induction Hs as [|v l Hs IH Hall]; intros prev; simpl; [constructor|].
  case_bool_decide; [by auto|]. constructor; [by auto|].
  apply Forall_forall. intros x Hx%elem_of_uniq_from. rewrite Forall_forall in Hall. auto.
Qed.

Lemma uniq_from_NoDup (R : relation A) `{!AntiSymm (=) R} prev l :
  StronglySorted R l → (∀ p, prev = Some p → Forall (R p) l) →
  NoDup (uniq_from prev l) ∧ (∀ p, prev = Some p → p ∉ uniq_from prev l).
Proof.
  intros Hs. revert prev. induction Hs as [|v l Hs IH Hall]; intros prev Hp; simpl.
  { split; [constructor|]. intros p _ Hx. by apply not_elem_of_nil in Hx. }
  case_bool_decide as Hv; subst.
  - apply IH. naive_solver.
  - destruct (IH (Some v)) as [Hnd Hni]; [naive_solver|]. split.
    + constructor; eauto.
    + intros p -> [->|Hin]%elem_of_cons; [done|].
      apply Hv. f_equal. apply (anti_symm R).
      * specialize (Hp p eq_refl). inversion Hp; done.
      * rewrite Forall_forall in Hall. apply Hall. by eapply elem_of_uniq_from.
Qed.

Lemma uniq_NoDup (R : relation A) `{!AntiSymm (=) R} l :
  StronglySorted R l → NoDup (uniq l).
Proof. intros Hs. apply (uniq_from_NoDup R None l Hs). naive_solver. Qed.

Lemma uniq_from_id prev l :
  NoDup l → (∀ p, prev = Some p → p ∉ l) → uniq_from prev l = l.
Proof.
  intros Hnd. revert prev. induction Hnd as [|v l Hv Hnd IH]; intros prev Hp; simpl; [done|].
  case_bool_decide as He; subst.
  - destruct (Hp v eq_refl). constructor.
  - f_equal. apply IH. naive_solver.
Qed.
End uniq.

Lemma elem_of_sorted_unique x l : x ∈ sorted_unique l ↔ x ∈ l.
Proof. unfold sorted_unique. by rewrite elem_of_uniq, elem_of_sort_strings. Qed.

Lemma sorted_unique_NoDup l : NoDup (sorted_unique l).
Proof. apply (uniq_NoDup String.le), sort_strings_sorted. Qed.

Lemma sorted_unique_sorted l : StronglySorted String.le (sorted_unique l).
Proof. apply uniq_sorted, sort_strings_sorted. Qed.

(** Two lists with the same members have the same canonical form. *)
Lemma sorted_unique_ext l1 l2 :
  (∀ x, x ∈ l1 ↔ x ∈ l2) → sorted_unique l1 = sorted_unique l2.
Proof.
  intros Hl. apply (StronglySorted_unique String.le); try apply sorted_unique_sorted.
  apply NoDup_Permutation; try apply sorted_unique_NoDup.
  intros x. rewrite !elem_of_sorted_unique. apply Hl.
Qed.

Global Instance sorted_unique_proper : Proper ((≡ₚ) ==> (=)) sorted_unique.
Proof. intros l1 l2 Hl. apply sorted_unique_ext. intros x. by rewrite Hl. Qed.

Lemma sorted_unique_idemp l : sorted_unique (sorted_unique l) = sorted_unique l.
Proof. apply sorted_unique_ext. intros x. apply elem_of_sorted_unique. Qed.

Lemma sorted_unique_nil_inv l : sorted_unique l = [] ↔ l = [].
Proof.
  split; [|by intros ->]. intros Hl. destruct l as [|x l]; [done|].
  assert (x ∈ sorted_unique (x :: l)) as Hx by (apply elem_of_sorted_unique; constructor).
  rewrite Hl in Hx. by apply not_elem_of_nil in Hx.
Qed.

(** A list that is already sorted and duplicate-free is its own canonical
    form. *)
Lemma sorted_unique_canonical l :
  StronglySorted String.le l → NoDup l → sorted_unique l = l.
Proof.
  intros Hs Hnd. apply (StronglySorted_unique String.le); [apply sorted_unique_sorted|done|].
  apply NoDup_Permutation; [apply sorted_unique_NoDup|done|].
  intros x. apply elem_of_sorted_unique.
Qed.

(* ------------------------------------------------------------------ *)
(** * Map iteration

    Go iterates a map in an order it leaves open.  [MapRange] is that order:
    any enumeration of the bindings.  Every [for k, v := range m] of the
    source is a loop over [range m], so what a theorem states of a function
    it states for every order, and determinism is a theorem that compares
    two orders. *)

Class MapRange := {
  range : ∀ {K A} `{Countable K}, gmap K A → list (K * A);
  range_perm : ∀ {K A} `{Countable K} (m : gmap K A), range m ≡ₚ map_to_list m
}.

Definition range_forward : MapRange :=
  {| range K A _ _ m := map_to_list m; range_perm K A _ _ m := Permutation_refl _ |}.

Program Definition range_backward : MapRange :=
  {| range K A _ _ m := reverse (map_to_list m) |}.
Next Obligation. intros. by rewrite reverse_Permutation. Qed.

Section range.
Context `{!MapRange} `{Countable K} {A : Type}.
Implicit Types m : gmap K A.

Lemma elem_of_range m k x : (k, x) ∈ range m ↔ m !! k = Some x.
Proof. by rewrite range_perm, elem_of_map_to_list. Qed.

Lemma range_keys_NoDup m : NoDup (range m).*1.
Proof. rewrite range_perm. apply NoDup_fst_map_to_list. Qed.

Definition range_keys m : list K := (range m).*1.
Definition range_values m : list A := (range m).*2.

Lemma elem_of_range_keys m k : k ∈ range_keys m ↔ is_Some (m !! k).
Proof.
  unfold range_keys. rewrite list_elem_of_fmap. split.
  - intros ([k' x] & -> & Hx%elem_of_range). by exists x.
  - intros [x Hx]. exists (k, x). by rewrite elem_of_range.
Qed.
Lemma elem_of_range_values m x : x ∈ range_values m ↔ ∃ k, m !! k = Some x.
Proof.
  unfold range_values. rewrite list_elem_of_fmap. split.
  - intros ([k x'] & -> & Hx%elem_of_range). by exists k.
  - intros [k Hx]. exists (k, x). by rewrite elem_of_range.
Qed.
End range.

(** Sorting the keys forgets the iteration order. *)
Definition sorted_keys `{!MapRange} {A} (m : gmap string A) : list string :=
  sort_strings (range_keys m).

Lemma elem_of_sorted_keys `{!MapRange} {A} (m : gmap string A) k :
  k ∈ sorted_keys m ↔ is_Some (m !! k).
Proof. unfold sorted_keys. by rewrite elem_of_sort_strings, elem_of_range_keys. Qed.

Lemma sorted_keys_NoDup `{!MapRange} {A} (m : gmap string A) : NoDup (sorted_keys m).
Proof. unfold sorted_keys. rewrite sort_strings_perm. apply range_keys_NoDup. Qed.

Lemma sorted_keys_order (R1 R2 : MapRange) {A} (m : gmap string A) :
  @sorted_keys R1 A m = @sorted_keys R2 A m.
Proof.
  apply sort_strings_proper. unfold range_keys. apply fmap_Permutation.
  by rewrite (@range_perm R1), (@range_perm R2).
Qed.

(** [out := make(map); for k, v := range m { out[k] = f(v) }]. *)
Definition copy_map `{!MapRange} `{Countable K} {A B} (f : A → B) (m : gmap K A) : gmap K B :=
  fold_left (λ out kv, <[kv.1 := f kv.2]> out) (range m) ∅.

Lemma fold_insert_lookup `{Countable K} {A B} (f : A → B) (l : list (K * A)) (out : gmap K B) k :
  NoDup l.*1 →
  fold_left (λ out kv, <[kv.1 := f kv.2]> out) l out !! k
  = match (list_to_map l : gmap K A) !! k with Some x => Some (f x) | None => out !! k end.
Proof.
  revert out; induction l as [|[k' x] l IH]; intros out; simpl.
  { intros _. by rewrite lookup_empty. }
  intros [Hk' Hnd]%NoDup_cons. rewrite IH by done.
  destruct (decide (k' = k)) as [->|Hne].
  - rewrite lookup_insert_eq. by rewrite not_elem_of_list_to_map_1, lookup_insert_eq.
  - by rewrite !lookup_insert_ne.
Qed.

(** Copying a map entry by entry is [fmap], whatever the order. *)
Lemma copy_map_fmap `{!MapRange} `{Countable K} {A B} (f : A → B) (m : gmap K A) :
  copy_map f m = f <$> m.
Proof.
  apply map_eq. intros k. unfold copy_map.
  rewrite fold_insert_lookup by apply range_keys_NoDup.
  rewrite (list_to_map_proper (range m) (map_to_list m)); [|apply range_keys_NoDup|apply range_perm].
  rewrite list_to_map_to_list, lookup_fmap, lookup_empty. by destruct (m !! k).
Qed.

(* ------------------------------------------------------------------ *)
(** * Mapping with refusals

    [out[i], err = f(in[i])] for every element, stopping at the first error. *)

Fixpoint try_map {E A B} (f : A → result E B) (l : list A) : result E (list B) :=
  match l with
  | [] => Ok []
  | x :: l => let? y := f x in let? ys := try_map f l in Ok (y :: ys)
  end.

Lemma try_map_ok {E A B} (f : A → result E B) l l' :
  try_map f l = Ok l' ↔ Forall2 (λ x y, f x = Ok y) l l'.
Proof.
  revert l'; induction l as [|x l IH]; intros l'; simpl.
  - split; [intros [= <-]; constructor|by intros ->%Forall2_nil_inv_l].
  - rewrite rbind_ok. setoid_rewrite rbind_ok. setoid_rewrite IH. split.
    + intros (y & Hy & ys & Hys & [= <-]). by constructor.
    + intros (y & ys & Hy & Hys & ->)%Forall2_cons_inv_l. eauto.
Qed.

Lemma try_map_identity {E A} (f : A → result E A) l : (∀ x, x ∈ l → f x = Ok x) → try_map f l = Ok l.
Proof. intros Hf. apply try_map_ok, Forall_Forall2_diag. by apply Forall_forall. Qed.

(** A loop that refuses what it has seen already, and the loop that indexes
    values under distinct keys. *)
Lemma for_each_distinct `{Countable A} {E} (f : gset A → A → result E (gset A)) (P : A → Prop) l s :
  (∀ s x s', f s x = Ok s' ↔ P x ∧ x ∉ s ∧ s' = {[x]} ∪ s) →
  (∃ s', for_each f l s = Ok s') ↔ NoDup l ∧ ∀ x, x ∈ l → P x ∧ x ∉ s.
Proof.
  intros Hf. revert s; induction l as [|x l IH]; intros s; simpl.
  { split; [intros _; split; [constructor|by intros x ?%not_elem_of_nil]|eauto]. }
  setoid_rewrite rbind_ok. setoid_rewrite Hf. setoid_rewrite elem_of_cons. rewrite NoDup_cons. split.
  - intros (s' & s1 & (Hp & Hx & ->) & Hl). destruct (proj1 (IH _) (ex_intro _ _ Hl)) as [Hnd Hall].
    split; [split; [|done]|intros y [->|Hy]; [done|]]; [intros Hin|]; [destruct (Hall x Hin)|destruct (Hall y Hy)]; set_solver.
  - intros [[Hx Hnd] Hall]. destruct (proj2 (IH ({[x]} ∪ s))) as [s' Hs'].
    + split; [done|]. intros y Hy. destruct (Hall y (or_intror Hy)). split; [done|].
      rewrite not_elem_of_union, not_elem_of_singleton. split; [|done]. by intros ->.
    + exists s', ({[x]} ∪ s). split; [|done]. destruct (Hall x (or_introl eq_refl)). done.
Qed.

Definition by_key `{Countable K} {A} (key : A → K) (l : list A) : gmap K A :=
  list_to_map ((λ x, (key x, x)) <$> l).

Lemma lookup_by_key `{Countable K} {A} (key : A → K) l k x :
  NoDup (key <$> l) → by_key key l !! k = Some x ↔ x ∈ l ∧ key x = k.
Proof.
  intros Hnd. unfold by_key. rewrite <- elem_of_list_to_map by (by rewrite <- list_fmap_compose).
  rewrite list_elem_of_fmap. split; [intros (y & [= -> ->] & ?); done|intros [? <-]; eauto].
Qed.

Lemma for_each_index `{Countable K} {E A} (f : gmap K A → A → result E (gmap K A)) (key : A → K) (P : A → Prop) l m' :
  (∀ m x m', f m x = Ok m' ↔ P x ∧ m !! key x = None ∧ m' = <[key x := x]> m) →
  for_each f l ∅ = Ok m' ↔ NoDup (key <$> l) ∧ (∀ x, x ∈ l → P x) ∧ m' = by_key key l.
Proof.
  intros Hf.
  enough (∀ m, for_each f l m = Ok m' ↔ NoDup (key <$> l) ∧ (∀ x, x ∈ l → P x ∧ m !! key x = None)
    ∧ m' = by_key key l ∪ m) as ->.
  { rewrite (right_id_L ∅ (∪)). setoid_rewrite lookup_empty. naive_solver. }
  induction l as [|x l IH]; intros m; simpl.
  { unfold by_key. simpl. rewrite (left_id_L ∅ (∪)). split; [intros [= <-]|by intros (_ & _ & ->)].
    split_and!; [constructor|by intros x ?%not_elem_of_nil|done]. }
  rewrite rbind_ok. setoid_rewrite Hf. setoid_rewrite IH. setoid_rewrite elem_of_cons. rewrite NoDup_cons.
  assert (∀ m, key x ∉ key <$> l → by_key key (x :: l) ∪ m = by_key key l ∪ <[key x := x]> m) as Hu.
  { intros m0 Hx. unfold by_key. simpl. rewrite <- insert_union_l, <- insert_union_r; [done|].
    apply not_elem_of_list_to_map_1. by rewrite <- list_fmap_compose. }
  split.
  - intros (m1 & (Hp & Hm & ->) & Hnd & Hall & ->).
    assert (key x ∉ key <$> l) as Hx.
    { intros (y & Hk & Hy)%list_elem_of_fmap. destruct (Hall y Hy) as [_ Hn]. rewrite <- Hk, lookup_insert_eq in Hn. done. }
    split_and!; [done|done| |by rewrite Hu]. intros y [->|Hy]; [done|]. destruct (Hall y Hy) as [? Hn].
    by apply lookup_insert_None in Hn as [? _].
  - intros ([Hx Hnd] & Hall & ->). destruct (Hall x (or_introl eq_refl)). exists (<[key x := x]> m).
    split; [done|]. split_and!; [done| |by apply Hu]. intros y Hy. destruct (Hall y (or_intror Hy)). split; [done|].
    rewrite lookup_insert_ne; [done|]. intros He. apply Hx. rewrite He. by apply list_elem_of_fmap_2.
Qed.

(* ------------------------------------------------------------------ *)
(** * Checking every entry of a map

    [for k, v := range m { if err := f(k, v); err != nil { return err } }].
    A map literal with constant keys is the [list_to_map] of its entries. *)

Definition check_map `{!MapRange} `{Countable K} {E A} (f : K → A → result E ()) (m : gmap K A) : result E () :=
  check_all (λ '(k, v), f k v) (range m).

Lemma check_map_ok `{!MapRange} `{Countable K} {E A} (f : K → A → result E ()) (m : gmap K A) u :
  check_map f m = Ok u ↔ map_Forall (λ k v, f k v = Ok tt) m.
Proof.
  unfold check_map. rewrite check_all_ok. split.
  - intros Hall k v Hl. apply (Hall (k, v)). by apply elem_of_range.
  - intros Hall [k v] Hin. apply Hall. by apply elem_of_range.
Qed.

Lemma check_map_literal `{!MapRange} `{Countable K} {E A} (f : K → A → result E ()) (l : list (K * A)) u :
  NoDup l.*1 → check_map f (list_to_map l) = Ok u ↔ Forall (λ kv, f kv.1 kv.2 = Ok tt) l.
Proof.
  intros Hnd. rewrite check_map_ok, Forall_forall. split.
  - intros Hall [k v] Hin. apply Hall. by apply elem_of_list_to_map_1.
  - intros Hall k v Hl. apply (Hall (k, v)). by apply elem_of_list_to_map_2.
Qed.

(* ------------------------------------------------------------------ *)
(** * Automation

    [go_rewrite] turns successful steps into what they say. *)

Create HintDb go.
#[export] Hint Rewrite @rbind_ok @wrap_ok @refuse_if_ok @of_option_ok @check_all_ok : go.
#[export] Hint Rewrite elem_of_sort_strings @elem_of_sort_by elem_of_sorted_unique @elem_of_uniq : go.
#[export] Hint Rewrite bool_decide_eq_true bool_decide_eq_false negb_true_iff negb_false_iff
  andb_true_iff orb_false_iff : go.
#[export] Hint Resolve sort_strings_sorted sorted_unique_NoDup sorted_unique_sorted : go.
#[export] Hint Resolve range_keys_NoDup sorted_keys_NoDup : go.

(** A refusal chain without bound values: each check passes and the rest is
    accepted. *)
Lemma refuse_if_then {E A} b (e : E) (k : result E A) a :
  (refuse_if b e ;? k) = Ok a ↔ b = false ∧ k = Ok a.
Proof. destruct b; simpl; naive_solver. Qed.

Lemma check_then {E A} (c : result E ()) (k : result E A) a : (c ;? k) = Ok a ↔ c = Ok tt ∧ k = Ok a.
Proof. destruct c as [[]|e]; simpl; naive_solver. Qed.

#[export] Hint Rewrite @refuse_if_then @check_then : go.
