(* ===== verification/GoStrings.v ===== *)
(** The Go string functions the source uses, on byte strings: [strings.*],
    [path.Clean], [path.IsAbs], [utf8.ValidString], [strconv.Quote].  A Go
    string is a sequence of bytes, [string] is the same thing.  The Unicode
    category tables outside ASCII are the class [GoUnicode]. *)

From S2P Require Import Prelude.
From Stdlib Require Import NArith Ascii.
From stdpp Require Import options.

Definition bytes (s : string) : list N := N_of_ascii <$> String.list_ascii_of_string s.
Definition of_bytes (l : list N) : string := String.string_of_list_ascii (ascii_of_N <$> l).
Definition one_byte (n : N) : string := String (ascii_of_N n) EmptyString.

(** [len(s)]. *)
Notation len := String.length.

(** The NUL byte that separates the halves of composite keys. *)
Definition NUL : string := one_byte 0.

(* ------------------------------------------------------------------ *)
(** * Prefixes, suffixes, searching *)

Definition HasPrefix (s p : string) : bool := String.prefix p s.

Definition drop_bytes (n : nat) (s : string) : string := String.substring n (len s - n) s.
Definition take_bytes (n : nat) (s : string) : string := String.substring 0 n s.

Definition TrimPrefix (s p : string) : string :=
  if HasPrefix s p then drop_bytes (len p) s else s.

Definition HasSuffix (s p : string) : bool :=
  (len p <=? len s) && (drop_bytes (len s - len p) s ≟ p).

Definition TrimSuffix (s p : string) : string :=
  if HasSuffix s p then take_bytes (len s - len p) s else s.

(** [strings.ContainsAny] for a set of single-byte characters. *)
Definition ContainsAny (s : string) (chars : list N) : bool :=
  existsb (λ b, chars ∋? b) (bytes s).

(** [strings.Split(s, "/")]: one more piece than there are slashes. *)
Fixpoint split_on (sep : ascii) (s : string) : list string :=
  match s with
  | EmptyString => [""]
  | String c s =>
      if c ≟ sep then "" :: split_on sep s
      else match split_on sep s with
           | [] => [String c ""]
           | w :: ws => String c w :: ws
           end
  end.

Definition Split (s : string) : list string := split_on "/"%char s.

(** [strings.Join(elems, sep)]. *)
Fixpoint Join (elems : list string) (sep : string) : string :=
  match elems with
  | [] => ""
  | [e] => e
  | e :: elems => e +:+ sep +:+ Join elems sep
  end.

(* ------------------------------------------------------------------ *)
(** * Paths *)

Definition IsAbs (s : string) : bool := HasPrefix s "/".

(** [path.Clean] on the segments of the path.  [out] is the reversed output;
    a ".." that cannot be undone stays in a relative path and disappears in
    a rooted one. *)
Fixpoint clean_segments (rooted : bool) (out : list string) (segs : list string) : list string :=
  match segs with
  | [] => reverse out
  | seg :: segs =>
      if (seg ≟ "") || (seg ≟ ".") then clean_segments rooted out segs
      else if seg ≟ ".." then
        match out with
        | top :: rest =>
            if top ≟ ".." then clean_segments rooted (".." :: out) segs
            else clean_segments rooted rest segs
        | [] => clean_segments rooted (if rooted then [] else [".."]) segs
        end
      else clean_segments rooted (seg :: out) segs
  end.

Definition Clean (s : string) : string :=
  if s ≟ "" then "."
  else
    let body := Join (clean_segments (IsAbs s) [] (Split s)) "/" in
    let out := if IsAbs s then "/" +:+ body else body in
    if out ≟ "" then "." else out.

(* ------------------------------------------------------------------ *)
(** * UTF-8 *)

Definition in_range (lo hi b : N) : bool := ((lo <=? b) && (b <=? hi))%N.
Definition cont (b : N) : bool := in_range 0x80 0xBF b.

(** The two-, three- and four-byte forms [unicode/utf8] accepts. *)
Definition utf8_2 (b0 b1 : N) : bool := in_range 0xC2 0xDF b0 && cont b1.
Definition utf8_3 (b0 b1 b2 : N) : bool :=
  (((b0 =? 0xE0)%N && in_range 0xA0 0xBF b1)
   || ((in_range 0xE1 0xEC b0 || in_range 0xEE 0xEF b0) && cont b1)
   || ((b0 =? 0xED)%N && in_range 0x80 0x9F b1)) && cont b2.
Definition utf8_4 (b0 b1 b2 b3 : N) : bool :=
  (((b0 =? 0xF0)%N && in_range 0x90 0xBF b1)
   || (in_range 0xF1 0xF3 b0 && cont b1)
   || ((b0 =? 0xF4)%N && in_range 0x80 0x8F b1)) && cont b2 && cont b3.

Fixpoint valid_utf8 (l : list N) : bool :=
  match l with
  | [] => true
  | b0 :: l0 =>
      if (b0 <? 0x80)%N then valid_utf8 l0 else
      match l0 with
      | [] => false
      | b1 :: l1 =>
          if utf8_2 b0 b1 then valid_utf8 l1 else
          match l1 with
          | [] => false
          | b2 :: l2 =>
              if utf8_3 b0 b1 b2 then valid_utf8 l2 else
              match l2 with
              | [] => false
              | b3 :: l3 => utf8_4 b0 b1 b2 b3 && valid_utf8 l3
              end
          end
      end
  end.

Definition ValidString (s : string) : bool := valid_utf8 (bytes s).

(** Each byte no rune starts at becomes [r]. *)
Fixpoint replace_invalid (r : list N) (l : list N) : list N :=
  match l with
  | [] => []
  | b0 :: l0 =>
      if (b0 <? 0x80)%N then b0 :: replace_invalid r l0
      else
        match l0 with
        | b1 :: l1 =>
            if utf8_2 b0 b1 then b0 :: b1 :: replace_invalid r l1
            else
              match l1 with
              | b2 :: l2 =>
                  if utf8_3 b0 b1 b2 then b0 :: b1 :: b2 :: replace_invalid r l2
                  else
                    match l2 with
                    | b3 :: l3 =>
                        if utf8_4 b0 b1 b2 b3 then b0 :: b1 :: b2 :: b3 :: replace_invalid r l3 else r ++ replace_invalid r l0
                    | [] => r ++ replace_invalid r l0
                    end
              | [] => r ++ replace_invalid r l0
              end
        | [] => r ++ replace_invalid r l0
        end
  end.

(** [unicode.IsSpace], on the UTF-8 forms of the white-space runes. *)
Definition space_1 (b0 : N) : bool := in_range 0x09 0x0D b0 || (b0 =? 0x20)%N.
Definition space_2 (b0 b1 : N) : bool := ((b0 =? 0xC2) && ((b1 =? 0x85) || (b1 =? 0xA0)))%N.
Definition space_3 (b0 b1 b2 : N) : bool :=
  (((b0 =? 0xE1) && (b1 =? 0x9A) && (b2 =? 0x80))
   || ((b0 =? 0xE2) && (b1 =? 0x80)
       && (in_range 0x80 0x8A b2 || (b2 =? 0xA8) || (b2 =? 0xA9) || (b2 =? 0xAF)))
   || ((b0 =? 0xE2) && (b1 =? 0x81) && (b2 =? 0x9F))
   || ((b0 =? 0xE3) && (b1 =? 0x80) && (b2 =? 0x80)))%N.

(** Drop the leading runes [sp1], [sp2], [sp3] recognise. *)
Fixpoint trim_left (sp2 : N → N → bool) (sp3 : N → N → N → bool) (l : list N) : list N :=
  match l with
  | [] => []
  | b0 :: l0 =>
      if space_1 b0 then trim_left sp2 sp3 l0 else
      match l0 with
      | [] => l
      | b1 :: l1 =>
          if sp2 b0 b1 then trim_left sp2 sp3 l1 else
          match l1 with
          | [] => l
          | b2 :: l2 => if sp3 b0 b1 b2 then trim_left sp2 sp3 l2 else l
          end
      end
  end.

(** [strings.TrimSpace]: the right end is trimmed on the reversed bytes, where
    the bytes of a rune come last first. *)
Definition trim_bytes (l : list N) : list N :=
  let l := trim_left space_2 space_3 l in
  reverse (trim_left (λ b1 b0, space_2 b0 b1) (λ b2 b1 b0, space_3 b0 b1 b2) (reverse l)).

Definition TrimSpace (s : string) : string := of_bytes (trim_bytes (bytes s)).

(** [strings.TrimSpace(s) == ""]. *)
Definition blank (s : string) : bool := TrimSpace s ≟ "".

(* ------------------------------------------------------------------ *)
(** * Unicode tables

    [uni_print] is [unicode.IsPrint] and [uni_lower] is [strings.ToLower] on
    strings that are not pure ASCII. *)

Class GoUnicode := {
  uni_print : N → bool;
  uni_lower : string → string
}.

Definition ascii_unicode : GoUnicode := {| uni_print _ := true; uni_lower s := s |}.

Definition lower_byte (b : N) : N := if in_range 0x41 0x5A b then (b + 32)%N else b.

Definition ToLower `{!GoUnicode} (s : string) : string :=
  if forallb (λ b, b <? 0x80)%N (bytes s) then of_bytes (lower_byte <$> bytes s)
  else uni_lower s.

(* ------------------------------------------------------------------ *)
(** * Decimal and hexadecimal text *)

Definition hex_digit (n : N) : N := if (n <? 10)%N then (48 + n)%N else (87 + n)%N.

Definition hex_byte (b : N) : list N := [hex_digit (b / 16); hex_digit (b mod 16)]%N.

(** [hex.EncodeToString]. *)
Definition hex (l : list N) : string := of_bytes (mjoin (hex_byte <$> l)).

Fixpoint digits (fuel : nat) (n : N) (acc : list N) : list N :=
  match fuel with
  | O => acc
  | S fuel =>
      let acc := (48 + n mod 10)%N :: acc in
      if (n <? 10)%N then acc else digits fuel (n / 10)%N acc
  end.

(** [strconv.Itoa]/[%d].  A positive number has at most as many decimal digits
    as binary ones, so [N.size_nat n] steps reach the last digit. *)
Definition itoa (z : Z) : string :=
  let n := Z.to_N (Z.abs z) in
  (if (z <? 0)%Z then "-" else "") +:+ of_bytes (digits (S (N.size_nat n)) n []).

(** [fmt.Sprintf("%q", s)], which is [strconv.Quote].  Printable runes stay as
    they are; an invalid byte is written as an escaped byte. *)
Definition hex4 (n : N) : list N :=
  hex_byte (n / 256) ++ hex_byte (n mod 256).

Definition esc (l : list N) : list N := 92%N :: l.

Definition quote_1 (b : N) : list N :=
  if (b =? 34)%N || (b =? 92)%N then esc [b]
  else if in_range 32 126 b then [b]
  else if (b =? 7)%N then esc [97%N] else if (b =? 8)%N then esc [98%N]
  else if (b =? 12)%N then esc [102%N] else if (b =? 10)%N then esc [110%N]
  else if (b =? 13)%N then esc [114%N] else if (b =? 9)%N then esc [116%N]
  else if (b =? 11)%N then esc [118%N]
  else esc (120%N :: hex_byte b).

Definition quote_rune `{!GoUnicode} (r : N) (enc : list N) : list N :=
  if uni_print r then enc
  else if (r <? 0x10000)%N then esc (117%N :: hex4 r)
  else esc (85%N :: hex4 (r / 65536) ++ hex4 (r mod 65536)).

Fixpoint quote_bytes `{!GoUnicode} (l : list N) : list N :=
  match l with
  | [] => []
  | b0 :: l0 =>
      if (b0 <? 0x80)%N then quote_1 b0 ++ quote_bytes l0 else
      match l0 with
      | [] => esc (120%N :: hex_byte b0)
      | b1 :: l1 =>
          if utf8_2 b0 b1
          then quote_rune ((b0 mod 32) * 64 + b1 mod 64)%N [b0; b1] ++ quote_bytes l1
          else match l1 with
          | b2 :: l2 =>
              if utf8_3 b0 b1 b2
              then quote_rune ((b0 mod 16) * 4096 + (b1 mod 64) * 64 + b2 mod 64)%N [b0; b1; b2]
                     ++ quote_bytes l2
              else match l2 with
              | b3 :: l3 =>
                  if utf8_4 b0 b1 b2 b3
                  then quote_rune ((b0 mod 8) * 262144 + (b1 mod 64) * 4096 + (b2 mod 64) * 64
                                   + b3 mod 64)%N [b0; b1; b2; b3] ++ quote_bytes l3
                  else esc (120%N :: hex_byte b0) ++ quote_bytes l0
              | [] => esc (120%N :: hex_byte b0) ++ quote_bytes l0
              end
          | [] => esc (120%N :: hex_byte b0) ++ quote_bytes l0
          end
      end
  end.

Definition Quote `{!GoUnicode} (s : string) : string :=
  of_bytes (34%N :: quote_bytes (bytes s) ++ [34%N]).

(* ------------------------------------------------------------------ *)
(** * Laws *)

Local Arguments String.append !_ _ /.

Lemma string_app_assoc (a b c : string) : (a +:+ b) +:+ c = a +:+ (b +:+ c).
Proof. induction a as [|x a IH]; simpl; [done|by rewrite ?IH]. Qed.

Lemma string_app_nil_r (a : string) : a +:+ "" = a.
Proof. induction a as [|x a IH]; simpl; [done|by rewrite ?IH]. Qed.

Lemma string_app_inj_l (a b c : string) : a +:+ b = a +:+ c → b = c.
Proof. induction a as [|x a IH]; simpl; [done|]. intros [= H]. auto. Qed.

Lemma string_app_len (a b : string) : len (a +:+ b) = (len a + len b)%nat.
Proof. induction a as [|x a IH]; simpl; [done|by rewrite ?IH]. Qed.

Lemma substring_all (s : string) n : len s <= n → String.substring 0 n s = s.
Proof. revert n. induction s as [|x s IH]; intros [|n] Hn; simpl in *; [done..|lia|]. f_equal. apply IH. lia. Qed.

Lemma drop_bytes_app (p r : string) : drop_bytes (len p) (p +:+ r) = r.
Proof.
  unfold drop_bytes. rewrite string_app_len.
  replace (len p + len r - len p) with (len r) by lia.
  induction p as [|x p IH]; simpl; [by apply substring_all|done].
Qed.

Lemma take_bytes_app (p r : string) : take_bytes (len p) (p +:+ r) = p.
Proof. unfold take_bytes. induction p as [|x p IH]; simpl; [by destruct r|]. f_equal. exact IH. Qed.

Lemma take_drop_bytes n (s : string) : n <= len s → take_bytes n s +:+ drop_bytes n s = s.
Proof.
  unfold take_bytes, drop_bytes. revert n. induction s as [|x s IH]; intros [|n] Hn; simpl in *; [done|lia| |].
  - f_equal. by apply substring_all.
  - f_equal. apply IH. lia.
Qed.

Lemma HasPrefix_spec (s p : string) : HasPrefix s p = true ↔ ∃ r, s = p +:+ r.
Proof.
  unfold HasPrefix. revert s. induction p as [|x p IH]; intros s; simpl.
  { split; [by exists s|by destruct s]. }
  destruct s as [|y s]; simpl.
  { split; [done|]. intros (r & Hr). done. }
  destruct (ascii_dec x y) as [->|Hne].
  - rewrite IH. split; intros [r Hr]; exists r; [by rewrite Hr|by injection Hr].
  - split; [done|]. intros (r & Hr). by injection Hr as ->.
Qed.

Lemma HasPrefix_app (p r : string) : HasPrefix (p +:+ r) p = true.
Proof. apply HasPrefix_spec. eauto. Qed.

Lemma HasSuffix_spec (s p : string) : HasSuffix s p = true ↔ ∃ r, s = r +:+ p.
Proof.
  unfold HasSuffix. rewrite andb_true_iff, Nat.leb_le, bool_decide_eq_true. split.
  - intros [Hl Hd]. exists (take_bytes (len s - len p) s). rewrite <- Hd at 2.
    symmetry. apply take_drop_bytes. lia.
  - intros [r ->]. rewrite string_app_len. split; [lia|].
    replace (len r + len p - len p) with (len r) by lia. apply drop_bytes_app.
Qed.

Lemma HasSuffix_app (r p : string) : HasSuffix (r +:+ p) p = true.
Proof. apply HasSuffix_spec. eauto. Qed.

Lemma TrimSuffix_app (r p : string) : TrimSuffix (r +:+ p) p = r.
Proof.
  unfold TrimSuffix. rewrite HasSuffix_app, string_app_len.
  replace (len r + len p - len p) with (len r) by lia. apply take_bytes_app.
Qed.

Lemma TrimPrefix_app (p r : string) : TrimPrefix (p +:+ r) p = r.
Proof. unfold TrimPrefix. rewrite HasPrefix_app. apply drop_bytes_app. Qed.

(** A slash is exactly a boundary between segments. *)
Lemma split_on_cons sep s : ∃ w ws, split_on sep s = w :: ws.
Proof.
  induction s as [|c s (w & ws & IH)]; simpl; [eauto|].
  case_bool_decide; [eauto|]. rewrite IH. eauto.
Qed.

Lemma split_on_app sep (a b : string) :
  split_on sep (a +:+ String sep b) = split_on sep a ++ split_on sep b.
Proof.
  induction a as [|c a IH]; simpl; [by rewrite bool_decide_eq_true_2|].
  case_bool_decide; [by rewrite IH|].
  rewrite IH. by destruct (split_on_cons sep a) as (w & ws & ->).
Qed.

Lemma Split_app (a b : string) : Split (a +:+ "/" +:+ b) = Split a ++ Split b.
Proof. apply split_on_app. Qed.

(** A string with no separator is its own only piece. *)
Definition sep_free (sep : ascii) (s : string) : Prop := split_on sep s = [s].

Lemma split_on_sep_free sep s w : w ∈ split_on sep s → sep_free sep w.
Proof.
  unfold sep_free. revert w. induction s as [|c s IH]; intros w; simpl.
  { by intros ->%list_elem_of_singleton. }
  case_bool_decide as Hc.
  - intros [->|?]%elem_of_cons; auto.
  - destruct (split_on_cons sep s) as (v & vs & Hs). rewrite Hs in *.
    intros [->|Hw]%elem_of_cons; [|apply IH; set_solver].
    simpl. rewrite bool_decide_eq_false_2 by done. by rewrite (IH v) by set_solver.
Qed.

Lemma split_join sep ws :
  ws ≠ [] → Forall (sep_free sep) ws →
  split_on sep (Join ws (String sep "")) = ws.
Proof.
  intros Hne Hws. induction Hws as [|w ws Hw Hws IH]; [done|].
  destruct ws as [|v ws]; [done|].
  change (Join (w :: v :: ws) (String sep "")) with (w +:+ String sep (Join (v :: ws) (String sep ""))).
  rewrite split_on_app, Hw, IH; done.
Qed.

(** [path.Clean] produces segments that are neither empty nor dots, with the
    unresolved ".." of a relative path in front. *)
Definition plain_segment (w : string) : Prop := w ≠ "" ∧ w ≠ "." ∧ sep_free "/" w.

Definition clean_form (rooted : bool) (out : list string) : Prop :=
  ∃ n plain, out = replicate n ".." ++ plain ∧ (rooted = true → n = 0)
    ∧ Forall (λ w, plain_segment w ∧ w ≠ "..") plain.

Lemma clean_segments_form rooted out segs :
  clean_form rooted (reverse out) → Forall (sep_free "/") segs →
  clean_form rooted (clean_segments rooted out segs).
Proof.
  intros Ho Hs. revert out Ho. induction Hs as [|seg segs Hseg Hs IH]; intros out Ho; simpl; [done|].
  repeat case_bool_decide; simpl; auto.
  - destruct out as [|top rest].
    + apply IH. destruct rooted; [exists 0, []; simpl; auto|]. exists 1, []. simpl. auto with congruence.
    + destruct Ho as (n & plain & Heq & Hn & Hp). rewrite reverse_cons in Heq.
      destruct plain as [|z plain _] using rev_ind.
      * rewrite app_nil_r in Heq. destruct n as [|n]; [by destruct (reverse rest)|].
        rewrite replicate_S_end in Heq. apply app_inj_tail in Heq as [Hr ->].
        rewrite bool_decide_eq_true_2 by done. apply IH. exists (S (S n)), [].
        rewrite !reverse_cons, Hr, app_nil_r, !replicate_S_end. split; [done|].
        split; [|done]. intros Hr'. specialize (Hn Hr'). lia.
      * rewrite app_assoc in Heq. apply app_inj_tail in Heq as [Hr ->].
        apply Forall_app in Hp as [Hp Hz]. inversion_clear Hz as [|? ? [_ Hz'] _].
        rewrite bool_decide_eq_false_2 by done. apply IH. exists n, plain. done.
  - apply IH. destruct Ho as (n & plain & Heq & Hn & Hp). exists n, (plain ++ [seg]).
    rewrite reverse_cons, Heq, app_assoc. split; [done|]. split; [done|].
    apply Forall_app. split; [done|]. constructor; [|done]. split; [|done]. by repeat split.
Qed.

Lemma Split_Forall s : Forall (sep_free "/") (Split s).
Proof. apply Forall_forall. intros w. apply split_on_sep_free. Qed.

Lemma Split_ne s : Split s ≠ [].
Proof. unfold Split. by destruct (split_on_cons "/" s) as (w & ws & ->). Qed.

Lemma clean_form_nil rooted : clean_form rooted [].
Proof. by exists 0, []. Qed.

Lemma clean_form_sep rooted out : clean_form rooted out → Forall (λ w, sep_free "/" w ∧ w ≠ "" ∧ w ≠ ".") out.
Proof.
  intros (n & plain & -> & _ & Hp). apply Forall_app. split.
  - apply Forall_replicate. done.
  - eapply Forall_impl; [exact Hp|]. intros w [(? & ? & ?) _]. done.
Qed.

Lemma clean_segments_id_aux rooted n done plain :
  (rooted = true → n = 0) →
  Forall (λ w, plain_segment w ∧ w ≠ "..") done →
  Forall (λ w, plain_segment w ∧ w ≠ "..") plain →
  clean_segments rooted (reverse (replicate n ".." ++ done)) plain = replicate n ".." ++ done ++ plain.
Proof.
  intros Hn Hd Hp. revert done Hd. induction Hp as [|w plain [(He & Hdot & Hs) Hdd] Hp IH]; intros done Hd; simpl.
  { by rewrite reverse_involutive, app_nil_r. }
  rewrite !bool_decide_eq_false_2 by done. simpl.
  replace (w :: reverse (replicate n ".." ++ done)) with (reverse (replicate n ".." ++ (done ++ [w])))
    by (by rewrite app_assoc, reverse_snoc).
  rewrite IH; [by rewrite <- !app_assoc|]. apply Forall_app. split; [done|]. by repeat constructor.
Qed.

Lemma clean_segments_dots n m segs :
  clean_segments false (replicate n "..") (replicate m ".." ++ segs)
  = clean_segments false (replicate (m + n) "..") segs.
Proof.
  revert n. induction m as [|m IH]; intros n; [done|].
  replace (S m + n) with (m + S n) by lia. rewrite <- IH. by destruct n.
Qed.

(** Segments in clean form are left alone. *)
Lemma clean_segments_id rooted out :
  clean_form rooted out → clean_segments rooted [] out = out.
Proof.
  intros (n & plain & -> & Hn & Hp). destruct rooted.
  - rewrite Hn by done. simpl.
    apply (clean_segments_id_aux true 0 [] plain); [done|constructor|done].
  - change (@nil string) with (replicate 0 ".."). rewrite clean_segments_dots, Nat.add_0_r.
    pose proof (clean_segments_id_aux false n [] plain) as Hid.
    rewrite app_nil_r, reverse_replicate in Hid. apply Hid; done || constructor.
Qed.

Lemma clean_segments_no_dots rooted out segs :
  ".." ∉ segs → Forall (sep_free "/") segs →
  Forall (λ w, plain_segment w ∧ w ≠ "..") out →
  Forall (λ w, plain_segment w ∧ w ≠ "..") (clean_segments rooted out segs).
Proof.
  intros Hni Hs. revert out. induction Hs as [|w segs Hw Hs IH]; intros out Ho; simpl.
  { by apply Forall_reverse. }
  apply not_elem_of_cons in Hni as [Hw' Hni].
  repeat case_bool_decide; simpl; auto; [done|].
  apply IH; [done|]. constructor; [|done]. split; [|done]. by repeat split.
Qed.

(** The string a list of clean segments denotes. *)
Lemma sep_free_not_abs w : sep_free "/" w → IsAbs w = false.
Proof.
  intros Hw. apply not_true_iff_false. intros (r & ->)%HasPrefix_spec.
  change (split_on "/" ("" +:+ String "/" r) = ["/" +:+ r]) in Hw.
  by rewrite split_on_app in Hw.
Qed.

Lemma IsAbs_app_ne w r : w ≠ "" → IsAbs (w +:+ r) = IsAbs w.
Proof.
  destruct w as [|c w]; [done|]. intros _. apply eq_iff_eq_true. unfold IsAbs.
  rewrite !HasPrefix_spec. simpl. split; intros (r' & [= -> Hr]); eauto.
Qed.

Lemma Join_cons w ws sep : ws ≠ [] → Join (w :: ws) sep = w +:+ sep +:+ Join ws sep.
Proof. by destruct ws. Qed.

Lemma Join_rel ws :
  ws ≠ [] → Forall (λ w, sep_free "/" w ∧ w ≠ "" ∧ w ≠ ".") ws →
  Join ws "/" ≠ "" ∧ IsAbs (Join ws "/") = false ∧ Split (Join ws "/") = ws.
Proof.
  intros Hne Hws.
  assert (Forall (sep_free "/") ws) as Hsep by (eapply Forall_impl; [exact Hws|]; naive_solver).
  split; [|split; [|by apply split_join]].
  - destruct Hws as [|w ws (_ & Hw & _) _]; [done|].
    destruct ws; [done|]. rewrite Join_cons by done. by destruct w.
  - destruct Hws as [|w ws (Hw & Hw0 & _) _]; [done|].
    destruct ws; [by apply sep_free_not_abs|]. rewrite Join_cons by done.
    rewrite IsAbs_app_ne by done. by apply sep_free_not_abs.
Qed.

Lemma Clean_relative s :
  IsAbs s = false → s ≠ "" →
  ∃ C, clean_form false C ∧ C = clean_segments false [] (Split s)
       ∧ Clean s = if decide (C = []) then "." else Join C "/".
Proof.
  intros Ha Hs. exists (clean_segments false [] (Split s)).
  assert (clean_form false (clean_segments false [] (Split s))) as Hf
    by (apply clean_segments_form; [apply clean_form_nil|apply Split_Forall]).
  split; [done|]. split; [done|]. unfold Clean. rewrite Ha, bool_decide_eq_false_2 by done. simpl.
  case_decide as Hn; [by rewrite Hn|].
  destruct (Join_rel _ Hn (clean_form_sep _ _ Hf)) as (H1 & _ & _). by rewrite bool_decide_eq_false_2.
Qed.

(** [path.Clean] is idempotent. *)
Lemma Clean_idemp s : Clean (Clean s) = Clean s.
Proof.
  destruct (decide (s = "")) as [->|Hs]; [done|].
  destruct (IsAbs s) eqn:Ha.
  - assert (clean_form true (clean_segments true [] (Split s))) as Hf
      by (apply clean_segments_form; [apply clean_form_nil|apply Split_Forall]).
    set (C := clean_segments true [] (Split s)) in *.
    assert (Clean s = "/" +:+ Join C "/") as ->
      by (unfold Clean; rewrite Ha, bool_decide_eq_false_2 by done; done).
    assert (IsAbs ("/" +:+ Join C "/") = true) as Ha' by (apply HasPrefix_app).
    unfold Clean at 1. rewrite Ha', !bool_decide_eq_false_2 by done.
    do 2 f_equal. change ("/" +:+ Join C "/") with ("" +:+ "/" +:+ Join C "/").
    rewrite Split_app. change (Split "") with [""]. simpl.
    destruct (decide (C = [])) as [->|Hne]; [done|].
    assert (Split (Join C "/") = C) as -> by (by apply Join_rel, clean_form_sep with true).
    by apply clean_segments_id.
  - destruct (Clean_relative s Ha Hs) as (C & Hf & _ & ->). case_decide as Hn; [done|].
    destruct (Join_rel C Hn (clean_form_sep _ _ Hf)) as (H1 & H2 & H3).
    destruct (Clean_relative _ H2 H1) as (C' & _ & -> & ->).
    rewrite H3, clean_segments_id by done. by rewrite decide_False.
Qed.

(** Bytes: joining segments of [s] introduces nothing but slashes. *)
Lemma bytes_app a b : bytes (a +:+ b) = bytes a ++ bytes b.
Proof.
  induction a as [|c a IH]; [done|].
  change (bytes (String c a +:+ b)) with (N_of_ascii c :: bytes (a +:+ b)). by rewrite IH.
Qed.

Lemma bytes_split sep s w b : w ∈ split_on sep s → b ∈ bytes w → b ∈ bytes s.
Proof.
  revert w. induction s as [|c s IH]; intros w; simpl; [by intros ->%list_elem_of_singleton|].
  case_bool_decide.
  - intros [->|Hw]%elem_of_cons; [by intros ?%not_elem_of_nil|]. right. eauto.
  - destruct (split_on_cons sep s) as (v & vs & Hs). rewrite Hs in *.
    intros [->|Hw]%elem_of_cons.
    + intros [->|Hb]%elem_of_cons; [left|right]. eapply IH; [left|done].
    + intros Hb. right. eapply IH; [by right|done].
Qed.

Lemma bytes_join ws b : b ∈ bytes (Join ws "/") → b = 47%N ∨ ∃ w, w ∈ ws ∧ b ∈ bytes w.
Proof.
  induction ws as [|w ws IH]; [by intros ?%not_elem_of_nil|].
  destruct ws as [|v ws]; [intros Hb; right; exists w; split; [left|done]|].
  rewrite Join_cons, !bytes_app, !elem_of_app by done.
  intros [Hb|[Hb|Hb]].
  - right. exists w. split; [left|done].
  - left. by apply list_elem_of_singleton in Hb.
  - destruct (IH Hb) as [?|(x & Hx & Hxb)]; [by left|]. right. exists x. split; [by right|done].
Qed.

Lemma clean_segments_incl rooted out segs w :
  w ∈ clean_segments rooted out segs → w ∈ out ∨ w ∈ segs ∨ w = "..".
Proof.
  revert out. induction segs as [|seg segs IH]; intros out; simpl; [rewrite elem_of_reverse; auto|].
  repeat case_bool_decide; simpl; subst.
  all: try (intros Hw%IH; set_solver).
  destruct out as [|top out]; [|case_bool_decide; intros Hw%IH; set_solver].
  destruct rooted; intros Hw%IH; set_solver.
Qed.

(* ------------------------------------------------------------------ *)
(** * Checks on concrete strings *)

Example TrimSpace_ex : TrimSpace "  a b	" = "a b".
Proof. reflexivity. Qed.
Example TrimSpace_nbsp : TrimSpace (of_bytes [0xC2; 0xA0; 0x61; 0xE3; 0x80; 0x80]%N) = "a".
Proof. reflexivity. Qed.
Example Clean_ex : Clean "./a//b/../c/." = "a/c".
Proof. reflexivity. Qed.
Example Clean_up : Clean "../a/../../b" = "../../b".
Proof. reflexivity. Qed.
Example Clean_root : Clean "/../a/.." = "/".
Proof. reflexivity. Qed.
Example itoa_ex : itoa 1203 = "1203" ∧ itoa (-7) = "-7" ∧ itoa 0 = "0".
Proof. done. Qed.
Example HasSuffix_ex : HasSuffix "docs/**" "/**" = true ∧ TrimSuffix "docs/**" "/**" = "docs".
Proof. done. Qed.
Example ValidString_ex : ValidString (of_bytes [0xE2; 0x82; 0xAC]%N) = true ∧ ValidString (of_bytes [0xC0; 0x80]%N) = false.
Proof. done. Qed.

(* ------------------------------------------------------------------ *)
(** * Decimal text is injective *)

Lemma bytes_of_bytes l : Forall (λ b, (b < 256)%N) l → bytes (of_bytes l) = l.
Proof.
  unfold bytes, of_bytes. intros Hl. rewrite String.list_ascii_of_string_of_list_ascii, <- list_fmap_compose.
  induction Hl as [|b l Hb Hl IH]; simpl; [done|]. f_equal; [by apply N_ascii_embedding|done].
Qed.

Lemma of_bytes_bytes s : of_bytes (bytes s) = s.
Proof.
  unfold of_bytes, bytes. rewrite <- list_fmap_compose. rewrite <- (String.string_of_list_ascii_of_string s) at 2. f_equal.
  induction (String.list_ascii_of_string s) as [|c l IH]; simpl; [done|]. f_equal; [apply ascii_N_embedding|done].
Qed.

Lemma sep_free_bytes (c : ascii) s : N_of_ascii c ∉ bytes s → sep_free c s.
Proof.
  unfold sep_free. induction s as [|d s IH]; [done|]. unfold bytes. simpl. intros [Hd Hs]%not_elem_of_cons.
  rewrite bool_decide_eq_false_2 by (intros ->; done). by rewrite IH.
Qed.

(** The number a digit string stands for, reading on from [v]. *)
Definition digits_value (v : N) (l : list N) : N := fold_left (λ v b, (v * 10 + (b - 48))%N) l v.

Lemma digits_value_cons v b l : digits_value v (b :: l) = digits_value (v * 10 + (b - 48))%N l.
Proof. done. Qed.

Lemma digits_decode fuel n acc :
  (n < 10 ^ N.of_nat fuel)%N → (0 < fuel)%nat → digits_value 0 (digits fuel n acc) = digits_value n acc.
Proof.
  revert n acc; induction fuel as [|fuel IH]; intros n acc Hn Hf; [lia|]. simpl.
  destruct (n <? 10)%N eqn:Hlt.
  - apply N.ltb_lt in Hlt. rewrite digits_value_cons. f_equal. rewrite N.mod_small by done. lia.
  - apply N.ltb_ge in Hlt.
    assert (n / 10 < 10 ^ N.of_nat fuel)%N as Hd.
    { apply N.Div0.div_lt_upper_bound. by rewrite <- N.pow_succ_r', <- Nat2N.inj_succ. }
    destruct fuel as [|fuel]; [simpl in Hd; assert (1 <= n / 10)%N by (apply N.div_le_lower_bound; lia); lia|].
    rewrite IH by (done || lia). rewrite digits_value_cons. f_equal.
    pose proof (N.div_mod n 10 ltac:(done)). generalize dependent (n mod 10)%N. generalize dependent (n / 10)%N. lia.
Qed.

Lemma digits_range fuel n acc :
  Forall (λ b, (48 <= b < 58)%N) acc → Forall (λ b, (48 <= b < 58)%N) (digits fuel n acc).
Proof.
  revert n acc; induction fuel as [|fuel IH]; intros n acc Ha; simpl; [done|].
  assert (Forall (λ b, (48 <= b < 58)%N) ((48 + n mod 10)%N :: acc)) as Hc.
  { constructor; [|done]. pose proof (N.mod_lt n 10 ltac:(done)). generalize dependent (n mod 10)%N. lia. }
  destruct (n <? 10)%N; [done|]. by apply IH.
Qed.

Lemma size_nat_pos p : N.of_nat (Pos.size_nat p) = N.pos (Pos.size p).
Proof.
  induction p as [p IH|p IH|]; [| |done]; cbn [Pos.size_nat Pos.size]; rewrite Nat2N.inj_succ, IH; reflexivity.
Qed.

Lemma size_fuel n : (n < 10 ^ N.of_nat (S (N.size_nat n)))%N.
Proof.
  assert (n < 2 ^ N.size n)%N as Hs by apply N.size_gt.
  assert (N.of_nat (N.size_nat n) = N.size n) as Hz by (destruct n; [done|]; apply size_nat_pos).
  rewrite Nat2N.inj_succ, Hz, N.pow_succ_r'.
  assert (2 ^ N.size n <= 10 ^ N.size n)%N by (apply N.pow_le_mono_l; lia). lia.
Qed.

Lemma itoa_nonneg z : (0 <= z)%Z → itoa z = of_bytes (digits (S (N.size_nat (Z.to_N z))) (Z.to_N z) []).
Proof.
  intros Hz. unfold itoa. rewrite (proj2 (Z.ltb_ge z 0)) by done. by rewrite Z.abs_eq.
Qed.

Lemma itoa_bytes z : (0 <= z)%Z → Forall (λ b, (48 <= b < 58)%N) (bytes (itoa z)).
Proof.
  intros Hz. rewrite itoa_nonneg by done.
  pose proof (digits_range (S (N.size_nat (Z.to_N z))) (Z.to_N z) [] ltac:(constructor)) as Hd.
  rewrite bytes_of_bytes; [done|]. eapply Forall_impl; [done|]. simpl. lia.
Qed.

Lemma itoa_inj a b : (0 <= a)%Z → (0 <= b)%Z → itoa a = itoa b → a = b.
Proof.
  intros Ha Hb He.
  assert (∀ z, (0 <= z)%Z → digits_value 0 (bytes (itoa z)) = Z.to_N z) as Hv.
  { intros z Hz. rewrite itoa_nonneg by done.
    pose proof (digits_range (S (N.size_nat (Z.to_N z))) (Z.to_N z) [] ltac:(constructor)) as Hd.
    rewrite bytes_of_bytes by (eapply Forall_impl; [done|]; simpl; lia).
    rewrite digits_decode; [done|apply size_fuel|lia]. }
  apply Z2N.inj; [done|done|]. by rewrite <- (Hv a Ha), <- (Hv b Hb), He.
Qed.

(* ------------------------------------------------------------------ *)
(** * Text that is not blank *)

(** A byte no white-space rune contains survives the trim. *)
Lemma trim_left_keeps sp2 sp3 x l :
  space_1 x = false → (∀ a b, sp2 a b = true → a ≠ x ∧ b ≠ x) →
  (∀ a b c, sp3 a b c = true → a ≠ x ∧ b ≠ x ∧ c ≠ x) →
  x ∈ l → x ∈ trim_left sp2 sp3 l.
Proof.
  intros H1 H2 H3. induction l as [l IH] using (induction_ltof1 _ length). unfold ltof in IH.
  destruct l as [|b0 l0]; [done|]. simpl. intros Hx.
  destruct (space_1 b0) eqn:H0.
  { apply elem_of_cons in Hx as [->|Hx]; [congruence|]. apply IH; [simpl; lia|done]. }
  destruct l0 as [|b1 l1]; [done|]. destruct (sp2 b0 b1) eqn:Hb.
  { destruct (H2 _ _ Hb). rewrite !elem_of_cons in Hx. destruct Hx as [?|[?|Hx]]; [congruence..|]. apply IH; [simpl; lia|done]. }
  destruct l1 as [|b2 l2]; [done|]. destruct (sp3 b0 b1 b2) eqn:Hc; [|done].
  destruct (H3 _ _ _ Hc) as (? & ? & ?). rewrite !elem_of_cons in Hx. destruct Hx as [?|[?|[?|Hx]]]; [congruence..|].
  apply IH; [simpl; lia|done].
Qed.

(** An ASCII byte other than white space. *)
Definition ink (x : N) : bool := in_range 0x21 0x7F x.

Lemma ink_space x a b c : ink x = true →
  space_1 x = false ∧ (space_2 a b = true → a ≠ x ∧ b ≠ x) ∧ (space_3 a b c = true → a ≠ x ∧ b ≠ x ∧ c ≠ x).
Proof.
  unfold ink, space_1, space_2, space_3, in_range. intros Hx%andb_true_iff. rewrite !N.leb_le in Hx. split_and!.
  - rewrite orb_false_iff, andb_false_iff, !N.leb_gt, N.eqb_neq. lia.
  - rewrite andb_true_iff, orb_true_iff, !N.eqb_eq. lia.
  - rewrite !orb_true_iff, !andb_true_iff, !orb_true_iff, !andb_true_iff, !N.leb_le, !N.eqb_eq. lia.
Qed.

Lemma not_blank x s : ink x = true → x ∈ bytes s → blank s = false.
Proof.
  intros Hi Hx. apply bool_decide_eq_false. unfold TrimSpace. intros He.
  assert (x ∈ trim_bytes (bytes s)) as Ht.
  { unfold trim_bytes. apply elem_of_reverse, trim_left_keeps.
    - by apply (ink_space x 0 0 0).
    - intros a b. destruct (ink_space x b a 0 Hi) as (_ & H2 & _). intros [? ?]%H2. done.
    - intros a b c. destruct (ink_space x c b a Hi) as (_ & _ & H3). intros (? & ? & ?)%H3. done.
    - apply elem_of_reverse, trim_left_keeps; [by apply (ink_space x 0 0 0)| | |done].
      + intros a b. by apply ink_space.
      + intros a b c. by apply ink_space. }
  destruct (trim_bytes (bytes s)); [by apply not_elem_of_nil in Ht|done].
Qed.

Lemma replace_invalid_id r l : valid_utf8 l = true → replace_invalid r l = l.
Proof.
  induction l as [l IH] using (induction_ltof1 _ length). unfold ltof in IH.
  destruct l as [|b0 l0]; [done|]. simpl. destruct (b0 <? 0x80)%N; [intros; f_equal; apply IH; [simpl; lia|done]|].
  destruct l0 as [|b1 l1]; [done|]. destruct (utf8_2 b0 b1); [intros; do 2 f_equal; apply IH; [simpl; lia|done]|].
  destruct l1 as [|b2 l2]; [done|]. destruct (utf8_3 b0 b1 b2); [intros; do 3 f_equal; apply IH; [simpl; lia|done]|].
  destruct l2 as [|b3 l3]; [done|]. destruct (utf8_4 b0 b1 b2 b3); [|done]. intros. do 4 f_equal. apply IH; [simpl; lia|done].
Qed.
