(* ===== verification/Text.v ===== *)
(** [strings.ReplaceAll] and what it leaves: occurrences of a word in a text,
    texts cut at a character the word does not contain, and replacements that
    cannot make up a new occurrence. *)

From S2P Require Import Prelude GoStrings.
From Stdlib Require Import Ascii.
From stdpp Require Import options.

Definition LF : ascii := ascii_of_N 10.
Definition CR : ascii := ascii_of_N 13.
Definition char (c : ascii) : string := String c "".

(** Text after an occurrence that has been replaced: [skip] characters of it
    remain to be passed over. *)
Fixpoint replace_from (old new : string) (skip : nat) (s : string) : string :=
  match s with
  | "" => ""
  | String c rest =>
      match skip with
      | S skip => replace_from old new skip rest
      | O => if String.prefix old s then new +:+ replace_from old new (len old - 1) rest
             else String c (replace_from old new 0 rest)
      end
  end.

(** [strings.ReplaceAll(s, old, new)] for an [old] that is not empty. *)
Definition ReplaceAll (s old new : string) : string := replace_from old new 0 s.

Example replace_ex : ReplaceAll "a--b---c" "--" "+" = "a+b+-c".
Proof. reflexivity. Qed.

(* ------------------------------------------------------------------ *)
(** * Occurrences *)

Definition occurs (m s : string) : Prop := ∃ a b, s = a +:+ m +:+ b.

Fixpoint has_char (c : ascii) (s : string) : bool :=
  match s with "" => false | String d s => (c ≟ d) || has_char c s end.

Lemma has_char_app c s t : has_char c (s +:+ t) = has_char c s || has_char c t.
Proof. induction s as [|d s IH]; [done|]. simpl. by rewrite IH, orb_assoc. Qed.

Lemma occurs_empty m : m ≠ "" → ¬ occurs m "".
Proof. intros Hm (a & b & He). destruct a; [|done]. by destruct m. Qed.

Lemma occurs_cons m c s : occurs m s → occurs m (String c s).
Proof. intros (a & b & ->). by exists (String c a), b. Qed.

(** An occurrence is at the front or further on. *)
Lemma occurs_cons_inv m c s : occurs m (String c s) → (∃ b, String c s = m +:+ b) ∨ occurs m s.
Proof.
  intros (a & b & He). destruct a as [|d a]; [left; by exists b|]. right. injection He as _ ->. by exists a, b.
Qed.

(** Words do not reach across a character they do not contain. *)
Lemma front_cut m c x y b : has_char c m = false → x +:+ String c y = m +:+ b → ∃ b', x = m +:+ b'.
Proof.
  revert x. induction m as [|d m IH]; intros x Hc He; [by exists x|]. simpl in Hc. apply orb_false_iff in Hc as [Hd Hc].
  destruct x as [|e x]; injection He as <- He.
  - exfalso. by apply bool_decide_eq_false in Hd.
  - destruct (IH x Hc He) as [b' ->]. by exists b'.
Qed.

Lemma occurs_cut m c x y :
  m ≠ "" → has_char c m = false → occurs m (x +:+ String c y) → occurs m x ∨ occurs m y.
Proof.
  intros Hm Hc. induction x as [|d x IH]; simpl; intros Ho.
  - apply occurs_cons_inv in Ho as [[b He]|Ho]; [|by right]. destruct m as [|e m]; [done|].
    injection He as -> _. simpl in Hc. by rewrite bool_decide_true in Hc.
  - apply occurs_cons_inv in Ho as [[b He]|Ho].
    + left. destruct (front_cut m c (String d x) y b Hc He) as [b' ->]. by exists "", b'.
    + destruct (IH Ho) as [?|?]; [left; by apply occurs_cons|by right].
Qed.

Lemma occurs_cut_iff m c x y : m ≠ "" → has_char c m = false → occurs m (x +:+ String c y) ↔ occurs m x ∨ occurs m y.
Proof.
  intros Hm Hc. split; [by apply occurs_cut|]. intros [(a & b & ->)|(a & b & ->)].
  - exists a, (b +:+ String c y). by rewrite !string_app_assoc.
  - exists (x +:+ String c a), b. by rewrite string_app_assoc.
Qed.

(* ------------------------------------------------------------------ *)
(** * Replacement *)

(** A replacement that neither holds a word nor can be part of one. *)
Definition opaque (m new : string) : Prop :=
  (∃ c t, new = String c t ∧ has_char c m = false) ∧ ∀ r, occurs m (new +:+ r) → occurs m r.

(** A text between two foreign characters, or one alone. *)
Lemma opaque_bracketed m a mid z :
  m ≠ "" → has_char a m = false → has_char z m = false → ¬ occurs m mid → opaque m (String a mid +:+ char z).
Proof.
  intros Hm Ha Hz Hmid. split; [by eexists _, _|]. intros r Ho. simpl in Ho. rewrite string_app_assoc in Ho. simpl in Ho.
  destruct (occurs_cut m a "" _ Hm Ha Ho) as [Hi|Hi]; [by apply occurs_empty in Hi|].
  by destruct (occurs_cut m z _ _ Hm Hz Hi).
Qed.

Lemma opaque_char m c : m ≠ "" → has_char c m = false → opaque m (char c).
Proof.
  intros Hm Hc. split; [by eexists _, _|]. intros r Ho. destruct (occurs_cut m c "" r Hm Hc Ho) as [Hi|Hi]; [|done].
  by apply occurs_empty in Hi.
Qed.

Lemma prefix_app old s : String.prefix old s = true ↔ ∃ r, s = old +:+ r.
Proof.
  revert s. induction old as [|c old IH]; intros s.
  { split; [intros _; by exists s|by destruct s]. }
  destruct s as [|d s]; simpl.
  - split; [done|]. by intros [r ?].
  - destruct (ascii_dec c d) as [->|Hne].
    + rewrite IH. split; intros [r Hr]; exists r; [by subst|by injection Hr].
    + split; [done|]. by intros [r [= -> _]].
Qed.

#[local] Arguments String.prefix : simpl never.

Section replace.
Context (old new : string).

(** What starts with a word after the replacement started with it before. *)
Lemma replace_front m s b :
  (∃ c t, new = String c t ∧ has_char c m = false) → replace_from old new 0 s = m +:+ b → ∃ b', s = m +:+ b'.
Proof.
  intros (c & t & -> & Hc). revert s b. induction m as [|d m IH]; intros s b He; [by exists s|].
  simpl in Hc. apply orb_false_iff in Hc as [Hd Hc]. apply bool_decide_eq_false in Hd.
  destruct s as [|e s]; [done|]. simpl in He. destruct (String.prefix old _).
  - by injection He as -> _.
  - injection He as -> He. destruct (IH Hc s b He) as [b' ->]. by exists b'.
Qed.

(** No new occurrence is made, and none of what was replaced is left. *)
Lemma replace_occurs m s : m ≠ "" → opaque m new → occurs m (ReplaceAll s old new) → occurs m s ∧ m ≠ old.
Proof.
  intros Hm [Hhead Hop]. assert (∀ skip, occurs m (replace_from old new skip s) → occurs m s ∧ m ≠ old) as Hall; [|apply Hall].
  induction s as [|c s IH]; intros skip Ho; [by destruct skip; apply occurs_empty in Ho|]. simpl in Ho.
  assert (∀ skip, occurs m (replace_from old new skip s) → occurs m (String c s) ∧ m ≠ old) as Hrest.
  { intros k [? ?]%IH. split; [by apply occurs_cons|done]. }
  destruct skip as [|skip]; [|by eapply Hrest]. destruct (String.prefix old (String c s)) eqn:Hp; [by eapply Hrest, Hop|].
  destruct (occurs_cons_inv _ _ _ Ho) as [[b Hb]|Hr]; [|by eapply Hrest].
  destruct (replace_front m (String c s) b Hhead) as [b' Hs]; [simpl; by rewrite Hp|].
  split; [exists "", b'; done|]. intros ->. apply not_true_iff_false in Hp. apply Hp, prefix_app. by exists b'.
Qed.

(** Text is replaced piece by piece between characters the word lacks. *)
Lemma prefix_cut c x y : has_char c old = false → String.prefix old (x +:+ String c y) = String.prefix old x.
Proof.
  intros Hc. apply Bool.eq_iff_eq_true. rewrite !prefix_app. split; [intros [r Hr]; by eapply front_cut|].
  intros [r ->]. exists (r +:+ String c y). by rewrite string_app_assoc.
Qed.

Lemma replace_cut c x y :
  old ≠ "" → has_char c old = false → ReplaceAll (x +:+ String c y) old new = ReplaceAll x old new +:+ String c (ReplaceAll y old new).
Proof.
  intros Hold Hc. unfold ReplaceAll.
  assert (∀ skip, (skip <= len x)%nat →
    replace_from old new skip (x +:+ String c y) = replace_from old new skip x +:+ String c (replace_from old new 0 y)) as Hall.
  { induction x as [|d x IH]; intros skip Hle.
    - assert (skip = 0%nat) as -> by (simpl in Hle; lia). simpl.
      pose proof (prefix_cut c "" y Hc : String.prefix old (String c y) = _) as Hp. rewrite Hp. by destruct old.
    - destruct skip as [|skip]; simpl; [|apply IH; simpl in Hle; lia].
      pose proof (prefix_cut c (String d x) y Hc : String.prefix old (String d (x +:+ String c y)) = _) as Hp. rewrite Hp.
      destruct (String.prefix old (String d x)) eqn:Hd; simpl.
      + rewrite IH; [by rewrite string_app_assoc|]. apply prefix_app in Hd as [r Hr].
        apply (f_equal len) in Hr. rewrite string_app_len in Hr. simpl in Hr. lia.
      + by rewrite IH by lia. }
  apply Hall. lia.
Qed.

Lemma replace_none s : old ≠ "" → ¬ occurs old s → ReplaceAll s old new = s.
Proof.
  intros Hold. unfold ReplaceAll. induction s as [|c s IH]; [done|]. intros Hno. simpl.
  destruct (String.prefix old (String c s)) eqn:Hp.
  - apply prefix_app in Hp as [r Hr]. destruct Hno. by exists "", r.
  - rewrite IH; [done|]. intros Ho. by apply Hno, occurs_cons.
Qed.
End replace.

(** Replacing a character is done character by character. *)
Lemma replace_char c d e s :
  ReplaceAll (String e s) (char c) (char d) = String (if c ≟ e then d else e) (ReplaceAll s (char c) (char d)).
Proof.
  assert (String.prefix (char c) (String e s) = (c ≟ e)) as Hp.
  { apply Bool.eq_iff_eq_true. rewrite prefix_app, bool_decide_eq_true. split; [by intros [r [= -> _]]|intros ->; by exists s]. }
  unfold ReplaceAll at 1. cbn [replace_from]. rewrite Hp. by destruct (c ≟ e).
Qed.

Lemma replace_char_gone c d s : c ≠ d → has_char c (ReplaceAll s (char c) (char d)) = false.
Proof.
  intros Hne. induction s as [|e s IH]; [done|]. rewrite replace_char. cbn [has_char]. rewrite IH, orb_false_r.
  destruct (bool_decide_reflect (c = e)); by apply bool_decide_eq_false.
Qed.

Lemma replace_char_keeps c d e s : e ≠ d → has_char e s = false → has_char e (ReplaceAll s (char c) (char d)) = false.
Proof.
  intros Hd. induction s as [|a s IH]; [done|]. rewrite replace_char. cbn [has_char]. intros [Ha Hs]%orb_false_iff.
  rewrite (IH Hs), orb_false_r. destruct (c ≟ a); [by apply bool_decide_eq_false|done].
Qed.

(** [strings.Contains], which decides occurrence. *)
Fixpoint Contains (s m : string) : bool :=
  String.prefix m s || match s with "" => false | String _ s => Contains s m end.

Lemma Contains_occurs s m : Contains s m = true ↔ occurs m s.
Proof.
  induction s as [|c s IH]; cbn [Contains]; rewrite orb_true_iff, prefix_app.
  - split; [intros [[b ->]|]; [by exists "", b|done]|]. intros (a & b & He). left. destruct a; [by exists b|done].
  - rewrite IH. split.
    + intros [[b Hb]|?]; [exists "", b; done|by apply occurs_cons].
    + intros [?|?]%occurs_cons_inv; auto.
Qed.

Lemma not_Contains s m : Contains s m = false → ¬ occurs m s.
Proof. rewrite <- Contains_occurs. by destruct (Contains s m). Qed.

Lemma occurs_char c m s : has_char c m = true → occurs m s → has_char c s = true.
Proof. intros Hc (a & b & ->). rewrite !has_char_app, Hc. by rewrite orb_true_r. Qed.
