(* ===== verification/Sha256.v ===== *)
(** [crypto/sha256.Sum256] on byte strings, executable, with its output
    length.  The round constants are computed from their definition, the
    leading fractional bits of the square and cube roots of the primes. *)

From S2P Require Import Prelude GoStrings.
From Stdlib Require Import NArith Lia.
From stdpp Require Import options.

Local Open Scope N_scope.

(* ------------------------------------------------------------------ *)
(** * Constants *)

Definition primes : list N :=
  [2; 3; 5; 7; 11; 13; 17; 19; 23; 29; 31; 37; 41; 43; 47; 53;
   59; 61; 67; 71; 73; 79; 83; 89; 97; 101; 103; 107; 109; 113; 127; 131;
   137; 139; 149; 151; 157; 163; 167; 173; 179; 181; 191; 193; 197; 199; 211; 223;
   227; 229; 233; 239; 241; 251; 257; 263; 269; 271; 277; 281; 283; 293; 307; 311].

(** Largest [r] below [2^k] with [r^3 <= n], bit by bit. *)
Fixpoint cube_root (k : nat) (n r : N) : N :=
  match k with
  | O => r
  | S k =>
      let r' := r + 2 ^ N.of_nat k in
      cube_root k n (if r' * r' * r' <=? n then r' else r)
  end.

Definition round_constants : list N :=
  Eval vm_compute in (λ p, cube_root 40 (p * 2 ^ 96) 0 mod 2 ^ 32) <$> primes.

Definition initial_state : list N :=
  Eval vm_compute in (λ p, N.sqrt (p * 2 ^ 64) mod 2 ^ 32) <$> take 8 primes.

(* ------------------------------------------------------------------ *)
(** * 32-bit words *)

Definition mask32 : N := 0xFFFFFFFF.

Definition add32 (a b : N) : N := N.land (a + b) mask32.
Definition rotr (n a : N) : N := N.lor (N.shiftr a n) (N.land (N.shiftl a (32 - n)) mask32).
Definition not32 (a : N) : N := N.lxor a mask32.

Definition big0 a := N.lxor (rotr 2 a) (N.lxor (rotr 13 a) (rotr 22 a)).
Definition big1 a := N.lxor (rotr 6 a) (N.lxor (rotr 11 a) (rotr 25 a)).
Definition small0 a := N.lxor (rotr 7 a) (N.lxor (rotr 18 a) (N.shiftr a 3)).
Definition small1 a := N.lxor (rotr 17 a) (N.lxor (rotr 19 a) (N.shiftr a 10)).
Definition choose e f g := N.lxor (N.land e f) (N.land (not32 e) g).
Definition majority a b c := N.lxor (N.land a b) (N.lxor (N.land a c) (N.land b c)).

(* ------------------------------------------------------------------ *)
(** * Compression *)

Record regs := Regs { ra : N; rb : N; rc : N; rd : N; re : N; rf : N; rg : N; rh : N }.

Definition round (s : regs) (kw : N * N) : regs :=
  let t1 := add32 (rh s) (add32 (big1 (re s))
              (add32 (choose (re s) (rf s) (rg s)) (add32 kw.1 kw.2))) in
  let t2 := add32 (big0 (ra s)) (majority (ra s) (rb s) (rc s)) in
  Regs (add32 t1 t2) (ra s) (rb s) (rc s) (add32 (rd s) t1) (re s) (rf s) (rg s).

(** The schedule is kept newest word first, so the words 2, 7, 15 and 16 steps
    back are at fixed positions. *)
Fixpoint extend (n : nat) (w : list N) : list N :=
  match n with
  | O => w
  | S n =>
      let at_ i := nth i w 0 in
      extend n (add32 (add32 (small1 (at_ 1%nat)) (at_ 6%nat))
                      (add32 (small0 (at_ 14%nat)) (at_ 15%nat)) :: w)
  end.

Definition schedule (block : list N) : list N := reverse (extend 48 (reverse block)).

Definition add_regs (s t : regs) : regs :=
  Regs (add32 (ra s) (ra t)) (add32 (rb s) (rb t)) (add32 (rc s) (rc t)) (add32 (rd s) (rd t))
       (add32 (re s) (re t)) (add32 (rf s) (rf t)) (add32 (rg s) (rg t)) (add32 (rh s) (rh t)).

Definition compress (s : regs) (block : list N) : regs :=
  add_regs s (fold_left round (combine round_constants (schedule block)) s).

(* ------------------------------------------------------------------ *)
(** * Padding and output *)

Fixpoint words (l : list N) : list N :=
  match l with
  | b0 :: b1 :: b2 :: b3 :: l => (b0 * 2 ^ 24 + b1 * 2 ^ 16 + b2 * 2 ^ 8 + b3) :: words l
  | _ => []
  end.

(** The 0x80 byte, the zeros and the eight length bytes that fill the last
    64-byte block. *)
Definition pad (l : list N) : list N :=
  let n := length l in
  let zeros := ((119 - n mod 64) mod 64)%nat in
  let bits := N.of_nat n * 8 in
  l ++ 0x80 :: replicate zeros 0
    ++ ((λ i, N.shiftr bits (8 * i) mod 256) <$> [7; 6; 5; 4; 3; 2; 1; 0]).

Fixpoint blocks (fuel : nat) (l : list N) : list (list N) :=
  match fuel with
  | O => []
  | S fuel => take 16 l :: blocks fuel (drop 16 l)
  end.

Definition word_bytes (w : N) : list N :=
  [N.shiftr w 24 mod 256; N.shiftr w 16 mod 256; N.shiftr w 8 mod 256; w mod 256].

Definition init_regs : regs :=
  match initial_state with
  | [a; b; c; d; e; f; g; h] => Regs a b c d e f g h
  | _ => Regs 0 0 0 0 0 0 0 0
  end.

Definition Sum256 (l : list N) : list N :=
  let ws := words (pad l) in
  let s := fold_left compress (blocks (length ws / 16)%nat ws) init_regs in
  mjoin (word_bytes <$> [ra s; rb s; rc s; rd s; re s; rf s; rg s; rh s]).

(** [hex.EncodeToString(sha256.Sum256([]byte(s))[:])]. *)
Definition sha256_hex (s : string) : string := hex (Sum256 (bytes s)).

Lemma Sum256_length l : length (Sum256 l) = 32%nat.
Proof. reflexivity. Qed.

Lemma of_bytes_length l : len (of_bytes l) = length l.
Proof. unfold of_bytes. induction l; simpl in *; auto. Qed.

Lemma length_hex (l : list N) : length (mjoin (hex_byte <$> l)) = (2 * length l)%nat.
Proof. 
  induction l as [|b l IH]; [done|].
  change (mjoin (hex_byte <$> b :: l)) with (hex_byte b ++ mjoin (hex_byte <$> l)).
  rewrite length_app, IH. simpl. lia.
Qed.

(** A digest is 64 characters, so slicing its first 32 (or 24, or 16) never
    runs past its end. *)
Lemma sha256_hex_length s : len (sha256_hex s) = 64%nat.
Proof.
  unfold sha256_hex, hex. rewrite of_bytes_length.
  by rewrite length_hex, Sum256_length.
Qed.

Example sha256_abc :
  sha256_hex "abc" = "ba7816bf8f01cfea414140de5dae2223b00361a396177a9cb410ff61f20015ad".
Proof. vm_compute. reflexivity. Qed.

(** Two blocks. *)
Example sha256_two_blocks :
  sha256_hex "abcdbcdecdefdefgefghfghighijhijkijkljklmklmnlmnomnopnopq"
  = "248d6a61d20638b8e5c026930c3e6039a33ce45964ff2167f6ecedd419db06c1".
Proof. vm_compute. reflexivity. Qed.
