(* ===== verification/Json.v ===== *)
(** JSON values and the part of [encoding/json] the source decodes with: a
    struct is read member by member, a name matches up to case, [null] leaves a
    value as it is, and any mismatch is an error that ends the decoding. *)

From S2P Require Import Prelude GoStrings.
From stdpp Require Import options.

(** A number keeps its text, an object the order of its members. *)
Inductive Json :=
  | JNull
  | JBool (b : bool)
  | JNumber (literal : string)
  | JString (s : string)
  | JArray (l : list Json)
  | JObject (members : list (string * Json)).

Section json_ind.
Variable P : Json → Prop.
Hypothesis Hnull : P JNull.
Hypothesis Hbool : ∀ b, P (JBool b).
Hypothesis Hnumber : ∀ n, P (JNumber n).
Hypothesis Hstring : ∀ s, P (JString s).
Hypothesis Harray : ∀ l, Forall P l → P (JArray l).
Hypothesis Hobject : ∀ ms, Forall (λ m, P m.2) ms → P (JObject ms).

Fixpoint Json_rect' (v : Json) : P v :=
  match v with
  | JNull => Hnull
  | JBool b => Hbool b
  | JNumber n => Hnumber n
  | JString s => Hstring s
  | JArray l => Harray l ((fix go l : Forall P l := match l with [] => List.Forall_nil _ | v :: l => List.Forall_cons _ _ _ (Json_rect' v) (go l) end) l)
  | JObject ms => Hobject ms ((fix go ms : Forall (λ m, P m.2) ms :=
      match ms with [] => List.Forall_nil _ | m :: ms => List.Forall_cons _ _ _ (Json_rect' m.2) (go ms) end) ms)
  end.
End json_ind.

#[global] Instance Json_eq_dec : EqDecision Json.
Proof.
  refine (fix go (v w : Json) {struct v} : Decision (v = w) :=
    match v, w with
    | JNull, JNull => left eq_refl
    | JBool b, JBool c => cast_if (decide (b = c))
    | JNumber n, JNumber m => cast_if (decide (n = m))
    | JString s, JString t => cast_if (decide (s = t))
    | JArray l, JArray k => cast_if (@list_eq_dec _ go l k)
    | JObject ms, JObject ns => cast_if (@list_eq_dec _ (@prod_eq_dec _ _ _ go) ms ns)
    | _, _ => right _
    end); clear go; congruence.
Defined.

(** No object names a member twice, at any depth. *)
Fixpoint unique_names (v : Json) : bool :=
  match v with
  | JArray l => forallb unique_names l
  | JObject ms => bool_decide (NoDup ms.*1) && forallb (λ m, unique_names m.2) ms
  | _ => true
  end.

(** ** Numbers *)

Definition digit_value (b : N) : option N := if in_range 0x30 0x39 b then Some (b - 48)%N else None.

Fixpoint digits_number (l : list N) (acc : N) : option N :=
  match l with
  | [] => Some acc
  | b :: l => match digit_value b with Some d => digits_number l (acc * 10 + d)%N | None => None end
  end.

(** [strconv.ParseInt(s, 10, 64)] of a JSON number. *)
Definition signed_number (sign : Z) (l : list N) : option Z :=
  match l with
  | [] => None
  | _ => match digits_number l 0 with
         | Some n => let z := (sign * Z.of_N n)%Z in if ((- 2 ^ 63 <=? z) && (z <? 2 ^ 63))%Z then Some z else None
         | None => None
         end
  end.
Definition ParseInt64 (s : string) : option Z :=
  match bytes s with
  | b :: l => if (b =? 45)%N then signed_number (-1) l else signed_number 1 (b :: l)
  | [] => None
  end.

(** ** Decoding

    A decoder takes the value a variable has and gives the one it has
    afterwards, with whether something did not fit.  [strict] is
    [DisallowUnknownFields]. *)

Definition Decoder (A : Type) : Type := bool → Json → A → A * bool.

Definition decode_string : Decoder string := λ _ v old,
  match v with JString s => (s, false) | JNull => (old, false) | _ => (old, true) end.
Definition decode_bool : Decoder bool := λ _ v old,
  match v with JBool b => (b, false) | JNull => (old, false) | _ => (old, true) end.
Definition decode_int : Decoder Z := λ _ v old,
  match v with
  | JNumber literal => match ParseInt64 literal with Some n => (n, false) | None => (old, true) end
  | JNull => (old, false)
  | _ => (old, true)
  end.
Definition decode_list {A} (zero : A) (d : Decoder A) : Decoder (list A) := λ strict v old,
  match v with
  | JArray l => let rs := (λ v, d strict v zero) <$> l in (rs.*1, existsb snd rs)
  | JNull => ([], false)
  | _ => (old, true)
  end.
Definition decode_pointer {A} (zero : A) (d : Decoder A) : Decoder (option A) := λ strict v old,
  match v with
  | JNull => (None, false)
  | _ => let r := d strict v (default zero old) in (Some r.1, r.2)
  end.
Definition decode_map {A} (zero : A) (d : Decoder A) : Decoder (gmap string A) := λ strict v old,
  match v with
  | JObject ms => fold_left (λ s m, let r := d strict m.2 zero in (<[m.1 := r.1]> s.1, s.2 || r.2)) ms (old, false)
  | JNull => (∅, false)
  | _ => (old, true)
  end.

(** [foldName]: letters without case; the long s and the Kelvin sign are the
    two runes outside ASCII whose fold is an ASCII letter. *)
Fixpoint fold_bytes (l : list N) : list N :=
  match l with
  | 0xC5 :: 0xBF :: l => 115 :: fold_bytes l
  | 0xE2 :: 0x84 :: 0xAA :: l => 107 :: fold_bytes l
  | b :: l => lower_byte b :: fold_bytes l
  | [] => []
  end%N.
Definition foldName (name : string) : string := of_bytes (fold_bytes (bytes name)).

(** The fields of a struct under their JSON names.  A member named twice
    counts the last time. *)
Record Fields (A : Type) := MkFields {
  field_names : list string;
  read_fields : bool → list (string * Json) → A * bool
}.
Arguments MkFields {A} _ _.
Arguments field_names {A} _.
Arguments read_fields {A} _ _ _.

Definition field {A} (zero : A) (d : Decoder A) (name : string) : Fields A :=
  MkFields [name] (λ strict ms,
    fold_left (λ s m, if foldName m.1 ≟ name then let r := d strict m.2 s.1 in (r.1, s.2 || r.2) else s) ms (zero, false)).
Definition no_fields {A} (a : A) : Fields A := MkFields [] (λ _ _, (a, false)).
Definition and_field {A B} (f : Fields (A → B)) (x : Fields A) : Fields B :=
  MkFields (f.(field_names) ++ x.(field_names)) (λ strict ms,
    let r := f.(read_fields) strict ms in
    let s := x.(read_fields) strict ms in
    (r.1 s.1, r.2 || s.2)).

Definition struct {A} (f : Fields A) : Decoder A := λ strict v old,
  match v with
  | JObject ms =>
      let r := f.(read_fields) strict ms in
      (r.1, r.2 || (strict && negb (forallb (λ m, f.(field_names) ∋? foldName m.1) ms)))
  | JNull => (old, false)
  | _ => (old, true)
  end.

Notation "'record' c" := (no_fields c) (at level 10, c at level 9, only parsing).
Notation "f '<&>' x" := (and_field f x) (at level 61, left associativity).

Definition text_field : string → Fields string := field "" decode_string.
Definition int_field : string → Fields Z := field 0%Z decode_int.
Definition flag_field : string → Fields bool := field false decode_bool.
Definition texts_field : string → Fields (list string) := field [] (decode_list "" decode_string).
Definition some_field {A} (zero : A) (d : Decoder A) : string → Fields (option A) := field None (decode_pointer zero d).

(** [json.Unmarshal(raw, &v)] into a zero [v], and the strict decoding. *)
Definition Unmarshal {A} (d : Decoder A) (zero : A) (v : Json) : option A :=
  let r := d false v zero in if r.2 then None else Some r.1.
Definition strict_decode {A} (d : Decoder A) (zero : A) (v : Json) : option A :=
  let r := d true v zero in if r.2 then None else Some r.1.

(** What passes the strict decoding is what the lenient one reads. *)
Class Lenient {A} (d : Decoder A) := lenient : ∀ v old, (d true v old).2 = false → d false v old = d true v old.
Class LenientFields {A} (f : Fields A) := lenient_fields : ∀ ms, (f.(read_fields) true ms).2 = false →
  f.(read_fields) false ms = f.(read_fields) true ms.

#[export] Instance lenient_string : Lenient decode_string. Proof. by intros []. Qed.
#[export] Instance lenient_bool : Lenient decode_bool. Proof. by intros []. Qed.
#[export] Instance lenient_int : Lenient decode_int. Proof. by intros []. Qed.

#[export] Instance lenient_list {A} (zero : A) (d : Decoder A) : Lenient d → Lenient (decode_list zero d).
Proof.
  intros Hd [| | | |l|] old; try done. simpl. intros He.
  assert (((λ v, d false v zero) <$> l) = ((λ v, d true v zero) <$> l)) as ->; [|done].
  induction l as [|v l IH]; [done|]. simpl in *. apply orb_false_iff in He as [Hv He].
  rewrite (Hd _ _ Hv). f_equal. by apply IH.
Qed.
#[export] Instance lenient_pointer {A} (zero : A) (d : Decoder A) : Lenient d → Lenient (decode_pointer zero d).
Proof. intros Hd v old. destruct v; simpl; intros He; try done; by rewrite (Hd _ _ He). Qed.

(** A fold of decodings is as lenient as each of them. *)
Lemma lenient_fold {A S} (f g : S * bool → A → S * bool) l s :
  (∀ x a, (g x a).2 = false → x.2 = false ∧ f x a = g x a) →
  (fold_left g l s).2 = false → fold_left f l s = fold_left g l s.
Proof.
  intros Hfg. assert (∀ l s, (fold_left g l s).2 = false → s.2 = false) as Hback.
  { clear l s. intros l. induction l as [|a l IH]; intros s; simpl; [done|]. intros He. by apply IH, Hfg in He as [? _]. }
  revert s. induction l as [|a l IH]; intros s He; simpl in *; [done|].
  pose proof (Hback _ _ He) as Ha. apply Hfg in Ha as [_ ->]. by apply IH.
Qed.

#[export] Instance lenient_map {A} (zero : A) (d : Decoder A) : Lenient d → Lenient (decode_map zero d).
Proof.
  intros Hd [| | | | |ms] old; try done. unfold decode_map. apply lenient_fold. intros [s e] m. simpl.
  intros [-> He]%orb_false_iff. split; [done|]. by rewrite (Hd _ _ He).
Qed.

#[export] Instance lenient_field {A} (zero : A) (d : Decoder A) name : Lenient d → LenientFields (field zero d name).
Proof.
  intros Hd ms. unfold field. simpl. apply lenient_fold. intros [s e] m. simpl. destruct (foldName m.1 ≟ name); [|done]. simpl.
  intros [-> He]%orb_false_iff. split; [done|]. by rewrite (Hd _ _ He).
Qed.
#[export] Instance lenient_record {A} (a : A) : LenientFields (no_fields a). Proof. by intros ms. Qed.
#[export] Instance lenient_and {A B} (f : Fields (A → B)) (x : Fields A) : LenientFields f → LenientFields x → LenientFields (f <&> x).
Proof. intros Hf Hx ms. simpl. intros [Ha Hb]%orb_false_iff. by rewrite (Hf _ Ha), (Hx _ Hb). Qed.
#[export] Instance lenient_struct {A} (f : Fields A) : LenientFields f → Lenient (struct f).
Proof. intros Hf [| | | | |ms] old; try done. simpl. intros [Ha He]%orb_false_iff. by rewrite (Hf _ Ha), Ha, He. Qed.

Lemma strict_Unmarshal {A} (d : Decoder A) `{!Lenient d} zero v a : strict_decode d zero v = Some a → Unmarshal d zero v = Some a.
Proof.
  unfold strict_decode, Unmarshal. destruct (d true v zero).2 eqn:He; [done|]. intros [= <-].
  rewrite (lenient _ _ He). by rewrite He.
Qed.

Example decode_example :
  let shape := struct (record (pair (A := string) (B := list Z)) <&> text_field "name" <&> field [] (decode_list 0%Z decode_int) "sizes") in
  strict_decode shape ("", []) (JObject [("Name", JString "a"); ("sizes", JArray [JNumber "12"; JNumber "-3"; JNull])]) = Some ("a", [12; -3; 0]%Z)
  ∧ strict_decode shape ("", []) (JObject [("extra", JNull)]) = None
  ∧ Unmarshal shape ("", []) (JObject [("extra", JNull)]) = Some ("", [])
  ∧ Unmarshal shape ("", []) (JObject [("sizes", JArray [JNumber "1.0"])]) = None.
Proof. vm_compute. done. Qed.

(** A decoded integer fits in 64 bits. *)
Definition int64_range (z : Z) : Prop := (- 2 ^ 63 <= z < 2 ^ 63)%Z.

Lemma ParseInt64_range s z : ParseInt64 s = Some z → int64_range z.
Proof.
  assert (∀ sign l y, signed_number sign l = Some y → int64_range y) as Hp.
  { intros sign l y. unfold signed_number, int64_range. destruct l as [|b l]; [done|]. destruct (digits_number (b :: l) 0); [|done].
    cbv zeta. destruct (_ && _) eqn:Hr; [|done]. intros [= <-]. apply andb_true_iff in Hr as [?%Z.leb_le ?%Z.ltb_lt]. done. }
  unfold ParseInt64. destruct (bytes s) as [|b l]; [done|]. destruct (b =? 45)%N; apply Hp.
Qed.

Lemma read_int_range name strict ms : int64_range ((int_field name).(read_fields) strict ms).1.
Proof.
  unfold int_field, field. simpl. assert (int64_range (0%Z, false).1) as H0 by done. revert H0. generalize (0%Z, false).
  induction ms as [|[k v] ms IH]; intros [z e] Hz; simpl; [done|]. apply IH. destruct (foldName k ≟ name); [|done]. simpl.
  destruct v; simpl; try done. destruct (ParseInt64 literal) eqn:Hp; simpl; [by eapply ParseInt64_range|done].
Qed.
