(* ===== verification/Domain.v ===== *)
(** The durable documents of the governance kernel: the structs of
    [domain/types.go], the planning vocabulary of [domain/plan.go] they
    mention, [domain/fact_value.go], and [domain.Encode].

    A Go string type with constants ([Stage], [AuthorityStatus], ...) is any
    string, and the source tests membership where it needs it, so the model
    keeps the string and names the constants.  A nil slice and an empty one
    are the same list; a pointer is an option; a map is a [gmap]. *)

From S2P Require Import Prelude GoStrings Sha256.
From stdpp Require Import options.

(* ------------------------------------------------------------------ *)
(** * Enumerations of [domain/types.go] *)

Definition SchemaVersion : string := "0.1".

Definition StagePredicted : string := "predicted".
Definition StageObserved : string := "observed".
Definition StageVerified : string := "verified".

Definition ConfidenceLow : string := "low".
Definition ConfidenceMedium : string := "medium".
Definition ConfidenceHigh : string := "high".

Definition FactTrue : string := "true".
Definition FactFalse : string := "false".
Definition FactUnknown : string := "unknown".

Definition ProducerExecutionProvider : string := "execution_provider".
Definition ProducerAssuranceProvider : string := "assurance_provider".
Definition ProducerDeterministicTool : string := "deterministic_tool".
Definition ProducerHuman : string := "human".

Definition EvidencePassed : string := "pass".
Definition EvidenceFailed : string := "fail".
Definition EvidenceInconclusive : string := "inconclusive".

Definition EvidenceValid : string := "valid".
Definition EvidenceStale : string := "stale".
Definition EvidenceInvalid : string := "invalid".
Definition EvidenceIncomplete : string := "incomplete".

Definition CapabilityAvailable : string := "available".
Definition CapabilityUnavailable : string := "unavailable".
Definition CapabilityUnknown : string := "unknown".

Definition PermissionGranted : string := "granted".
Definition PermissionDenied : string := "denied".

Definition AuthorityIncomplete : string := "incomplete".
Definition AuthorityBlocked : string := "blocked".
Definition AuthorityStale : string := "stale".
Definition AuthorityAwaitingAuthority : string := "awaiting_authority".
Definition AuthorityAuthorized : string := "authorized".

(** The evidence class the source singles out. *)
Definition human_approval : string := "human_approval".

(* ------------------------------------------------------------------ *)
(** * The planning vocabulary *)

Definition RoleProductArchitect : string := "product_architect".
Definition RoleSystemArchitect : string := "system_architect".
Definition RolePlanner : string := "planner".
Definition RoleImplementer : string := "implementer".
Definition RoleTester : string := "tester".
Definition RoleSecurityReviewer : string := "security_reviewer".
Definition RoleReviewer : string := "reviewer".
Definition RoleIntegrator : string := "integrator".
Definition RoleReleaseReviewer : string := "release_reviewer".

Definition EngineeringRoles : list string :=
  [RoleProductArchitect; RoleSystemArchitect; RolePlanner; RoleImplementer;
   RoleTester; RoleSecurityReviewer; RoleReviewer; RoleIntegrator; RoleReleaseReviewer].

Definition KnownRole (role : string) : bool := existsb (λ known, known ≟ role) EngineeringRoles.

Definition ProducesReviewVerdict (role : string) : bool :=
  (role ≟ RoleSecurityReviewer) || (role ≟ RoleReviewer) || (role ≟ RoleReleaseReviewer).

Definition CapabilityRequirementsAnalysis : string := "requirements_analysis".
Definition CapabilityArchitectureReasoning : string := "architecture_reasoning".
Definition CapabilityRepositoryAnalysis : string := "repository_analysis".
Definition CapabilityCodeChange : string := "code_change".
Definition CapabilityVerification : string := "verification".
Definition CapabilitySecurityReview : string := "security_review".

Definition EngineeringCapabilities : list string :=
  [CapabilityRequirementsAnalysis; CapabilityArchitectureReasoning; CapabilityRepositoryAnalysis;
   CapabilityCodeChange; CapabilityVerification; CapabilitySecurityReview].

Definition KnownCapability (capability : string) : bool :=
  existsb (λ known, known ≟ capability) EngineeringCapabilities.

Definition TrustRequirementOperatorTrusted : string := "operator_trusted".
Definition TrustRequirementProtected : string := "protected".

Definition IndependenceAgentProfile : string := "agent_profile".
Definition IndependenceExecutionAgent : string := "execution_agent".
Definition IndependenceProviderKind : string := "provider_kind".
Definition IndependenceVendorFamily : string := "vendor_family".
Definition IndependenceHuman : string := "human".

Definition IndependenceDimensions : list string :=
  [IndependenceAgentProfile; IndependenceExecutionAgent;
   IndependenceProviderKind; IndependenceVendorFamily; IndependenceHuman].

Definition StageAgent : string := "agent".
Definition StageAssuranceGate : string := "assurance_gate".
Definition StageHumanDecisionGate : string := "human_decision_gate".

Definition StageKinds : list string := [StageAgent; StageAssuranceGate; StageHumanDecisionGate].

(* ------------------------------------------------------------------ *)
(** * Identities and actions *)

Record Subject := MkSubject {
  Subject_Repository : string;
  Subject_Revision : string
}.

Record ObjectRevision := MkObjectRevision {
  ObjectRevision_ID : string;
  ObjectRevision_Revision : string
}.

Record RevisionReference := MkRevisionReference { RevisionReference_Revision : string }.

Record Action := MkAction {
  Action_Type : string;
  Action_Target : string
}.

#[export] Instance Subject_eq : EqDecision Subject.
Proof. solve_decision. Defined.
#[export] Instance ObjectRevision_eq : EqDecision ObjectRevision.
Proof. solve_decision. Defined.
#[export] Instance RevisionReference_eq : EqDecision RevisionReference.
Proof. solve_decision. Defined.
#[export] Instance Action_eq : EqDecision Action.
Proof. solve_decision. Defined.
#[export] Program Instance Action_countable : Countable Action :=
  inj_countable' (λ a, (Action_Type a, Action_Target a)) (λ p, MkAction p.1 p.2) _.
Next Obligation. by intros []. Qed.

(* ------------------------------------------------------------------ *)
(** * The project model and facts *)

Record CriticalBoundary := MkCriticalBoundary {
  CriticalBoundary_Type : string;
  CriticalBoundary_Paths : list string
}.

Record TestCapability := MkTestCapability { TestCapability_Type : string }.

Record ProjectModel := MkProjectModel {
  Model_SchemaVersion : string;
  Model_ID : string;
  Model_Revision : string;
  Model_Subject : Subject;
  Model_CriticalBoundaries : option (gmap string CriticalBoundary);
  Model_TestCapabilities : option (gmap string TestCapability);
  Model_PolicyProfiles : option (list string)
}.

Record FactProvenance := MkFactProvenance {
  FactProvenance_Type : string;
  FactProvenance_Producer : string
}.

Record EngineeringFact := MkFact {
  Fact_SchemaVersion : string;
  Fact_ID : string;
  Fact_Key : string;
  Fact_Value : string;
  Fact_Stage : string;
  Fact_Confidence : string;
  Fact_Subject : Subject;
  Fact_Provenance : FactProvenance
}.

#[export] Instance FactProvenance_eq : EqDecision FactProvenance.
Proof. solve_decision. Defined.
#[export] Instance EngineeringFact_eq : EqDecision EngineeringFact.
Proof. solve_decision. Defined.

(* ------------------------------------------------------------------ *)
(** * Requirements and policy *)

Record RequiredClaim := MkRequiredClaim {
  RequiredClaim_EvidenceClass : string;
  RequiredClaim_Independent : bool
}.

Record Requirement := MkRequirement {
  Requirement_Statement : string;
  Requirement_RequiredClaims : list string;
  Requirement_Material : bool
}.

Record AuthorityCondition := MkAuthorityCondition {
  Condition_Action : Action;
  Condition_RequiredClaims : list string
}.

Record IndependenceRequirement := MkIndependence {
  Independence_Dimension : string;
  Independence_DifferentFrom : list string;
  Independence_HumanSubstitutionPermitted : bool
}.

Record RoleRequirement := MkRoleRequirement {
  Role_Role : string;
  Role_Capabilities : list string;
  Role_Independence : option IndependenceRequirement;
  Role_TrustRequirement : string;
  Role_Statement : string
}.

Record GateRequirement := MkGateRequirement {
  Gate_Kind : string;
  Gate_RequiredClaims : list string;
  Gate_Action : option Action;
  Gate_Statement : string
}.

Record PlanRequirements := MkPlanRequirements {
  PlanRequirements_Roles : list RoleRequirement;
  PlanRequirements_Capabilities : list string;
  PlanRequirements_Gates : list GateRequirement
}.

#[export] Instance RequiredClaim_eq : EqDecision RequiredClaim.
Proof. solve_decision. Defined.
#[export] Instance Requirement_eq : EqDecision Requirement.
Proof. solve_decision. Defined.
#[export] Instance AuthorityCondition_eq : EqDecision AuthorityCondition.
Proof. solve_decision. Defined.
#[export] Instance IndependenceRequirement_eq : EqDecision IndependenceRequirement.
Proof. solve_decision. Defined.
#[export] Instance RoleRequirement_eq : EqDecision RoleRequirement.
Proof. solve_decision. Defined.
#[export] Instance GateRequirement_eq : EqDecision GateRequirement.
Proof. solve_decision. Defined.
#[export] Instance PlanRequirements_eq : EqDecision PlanRequirements.
Proof. solve_decision. Defined.

Record ProvenanceMatch := MkProvenanceMatch {
  ProvenanceMatch_Type : option string;
  ProvenanceMatch_Producer : option string
}.

Record PolicyCondition := MkPolicyCondition {
  When_Fact : string;
  When_Equals : string;
  When_Stage : option string;
  When_Confidence : option string;
  When_Provenance : option ProvenanceMatch
}.

Record PolicyRequirement := MkPolicyRequirement {
  PolicyRequirement_Statement : string;
  PolicyRequirement_RequiredClaims : option (list string);
  PolicyRequirement_Material : bool
}.

Record PolicyEffect := MkPolicyEffect {
  Effect_AcceptanceDischargeClaims : option (list string);
  Effect_Obligations : option (gmap string PolicyRequirement);
  Effect_Invariants : option (gmap string PolicyRequirement);
  Effect_RequiredClaims : option (gmap string RequiredClaim);
  Effect_Permissions : option (list Action);
  Effect_Prohibitions : option (list Action);
  Effect_AuthorityConditions : option (list AuthorityCondition);
  Effect_EngineeringRequirements : option PlanRequirements
}.

Record PolicyRule := MkPolicyRule {
  Rule_When : PolicyCondition;
  Rule_Effect : PolicyEffect
}.

Record EngineeringPolicy := MkPolicy {
  Policy_SchemaVersion : string;
  Policy_ID : string;
  Policy_Revision : string;
  Policy_Rules : gmap string PolicyRule
}.

(* ------------------------------------------------------------------ *)
(** * The work contract *)

Record ContractScope := MkContractScope {
  Scope_Stage : string;
  Scope_AllowedPaths : list string;
  Scope_ProhibitedPaths : list string
}.

Record ContractProvenance := MkContractProvenance {
  Provenance_ProjectModel : ObjectRevision;
  Provenance_Policy : ObjectRevision;
  Provenance_CompilerVersion : string;
  Provenance_PreviousContractRevision : option string
}.

Record EngineeringWorkContract := MkContract {
  Contract_SchemaVersion : string;
  Contract_ID : string;
  Contract_Revision : string;
  Contract_Objective : string;
  Contract_AcceptanceIntent : list string;
  Contract_Subject : Subject;
  Contract_Scope : ContractScope;
  Contract_Facts : list string;
  Contract_Invariants : gmap string Requirement;
  Contract_Obligations : gmap string Requirement;
  Contract_RequiredClaims : gmap string RequiredClaim;
  Contract_Permissions : list Action;
  Contract_Prohibitions : list Action;
  Contract_AuthorityConditions : list AuthorityCondition;
  Contract_PlanRequirements : option PlanRequirements;
  Contract_Provenance : ContractProvenance
}.

Definition contract_revision (c : EngineeringWorkContract) : ObjectRevision :=
  MkObjectRevision c.(Contract_ID) c.(Contract_Revision).

(* ------------------------------------------------------------------ *)
(** * Evidence *)

Record EvidenceProducer := MkProducer {
  Producer_ID : string;
  Producer_Type : string
}.

Record EvidenceEnvironment := MkEnvironment {
  Environment_Type : string;
  Environment_Identifier : string;
  Environment_Toolchain : option (list string)
}.

Record EvidenceResult := MkEvidenceResult {
  Result_Status : string;
  Result_Summary : option string
}.

Record EvidenceLifecycle := MkLifecycle {
  Lifecycle_Status : string;
  Lifecycle_Reason : option string
}.

Record EvidenceIntegrity := MkIntegrity {
  Integrity_Method : string;
  Integrity_Value : string
}.

Record EvidenceProvenance := MkEvidenceProvenance {
  EvidenceProvenance_Source : string;
  EvidenceProvenance_RecordedAt : string;
  EvidenceProvenance_Integrity : option EvidenceIntegrity
}.

Record EvidenceItem := MkItem {
  Item_ClaimID : string;
  Item_EvidenceClass : string;
  Item_Producer : EvidenceProducer;
  Item_Environment : EvidenceEnvironment;
  Item_Result : EvidenceResult;
  Item_Lifecycle : EvidenceLifecycle;
  Item_Provenance : EvidenceProvenance
}.

Record EvidenceBundle := MkBundle {
  Bundle_SchemaVersion : string;
  Bundle_ID : string;
  Bundle_Revision : string;
  Bundle_Subject : Subject;
  Bundle_Contract : ObjectRevision;
  Bundle_Policy : ObjectRevision;
  Bundle_Evidence : gmap string EvidenceItem
}.

(* ------------------------------------------------------------------ *)
(** * Authority decisions *)

Record DecisionBasis := MkBasis {
  Basis_EvidenceBundles : gmap string RevisionReference;
  Basis_ChangeProducer : EvidenceProducer
}.

(** [Capability] and [Permission] are structs of one status each. *)
Record Capability := MkCapability { Capability_Status : string }.
Record Permission := MkPermission { Permission_Status : string }.

Record AuthorityDecision := MkDecision {
  Decision_SchemaVersion : string;
  Decision_ID : string;
  Decision_Revision : string;
  Decision_Subject : Subject;
  Decision_Contract : ObjectRevision;
  Decision_Basis : DecisionBasis;
  Decision_Action : Action;
  Decision_Capability : Capability;
  Decision_Permission : Permission;
  Decision_Status : string;
  Decision_Satisfied : list string;
  Decision_Missing : list string;
  Decision_Stale : list string;
  Decision_Blocking : list string
}.

(* ------------------------------------------------------------------ *)
(** * Functions of the package *)

(** [AcceptanceObligationID]. *)
Definition AcceptanceObligationID (criterion : string) : string :=
  "acceptance-" +:+ take_bytes 16 (sha256_hex (TrimSpace criterion)).

(** [FactValue.MarshalJSON]: only the three values have a JSON form. *)
Definition MarshalFactValue (v : string) : option string :=
  if v ≟ FactTrue then Some "true"
  else if v ≟ FactFalse then Some "false"
  else if v ≟ FactUnknown then Some (one_byte 34 +:+ "unknown" +:+ one_byte 34)
  else None.
