(* ===== verification/PathPattern.v ===== *)
(** [internal/pathpattern]: exact and directory-recursive repository
    patterns, and the validation of critical boundaries built on them
    ([domain/boundary_patterns.go]). *)

From S2P Require Import Prelude GoStrings Domain.
From Stdlib Require Import Ascii.
From stdpp Require Import options.

(** [*UnsupportedPatternError]. *)
Inductive UnsupportedPatternError := UnsupportedPattern (pattern : string).

Definition RecursiveSuffix : string := "/**".

(** The characters [Validate] refuses: backslash, NUL and [*?[]{}:]. *)
Definition pattern_meta : list N := [92; 0; 42; 63; 91; 93; 123; 125; 58]%N.

Definition pattern_base (pattern : string) : string :=
  TrimSuffix (TrimPrefix pattern "./") RecursiveSuffix.

Definition Validate (pattern : string) : result UnsupportedPatternError () :=
  let base := pattern_base pattern in
  refuse_if ((base ≟ "") || (base ≟ ".") || IsAbs base || (Clean base ≠? base)
             || ContainsAny base pattern_meta)
    (UnsupportedPattern pattern) ;?
  check_all (λ segment, refuse_if (segment ≟ "..") (UnsupportedPattern pattern)) (Split base).

Definition IsAmbiguousLiteral (repositoryPath : string) : bool :=
  HasSuffix repositoryPath RecursiveSuffix || (repositoryPath ≟ "**").

(** One iteration of the loop of [MatchesAny]. *)
Definition matches_one (candidate raw : string) : bool :=
  let pattern := TrimPrefix raw "./" in
  (candidate ≟ pattern)
  || (HasSuffix pattern RecursiveSuffix && is_ok (Validate raw)
      && (let directory := TrimSuffix pattern RecursiveSuffix in
          (candidate ≟ directory) || HasPrefix candidate (directory +:+ "/"))).

Definition MatchesAny (candidate : string) (patterns : list string) : bool :=
  let candidate := TrimPrefix candidate "./" in
  if (candidate ≟ "") || (candidate ≟ ".") then false
  else existsb (matches_one candidate) patterns.

(** [domain.ValidateBoundaryPatterns]. *)
Definition ValidateBoundaryPatterns `{!MapRange} (model : ProjectModel)
  : result (string * UnsupportedPatternError) () :=
  match model.(Model_CriticalBoundaries) with
  | None => Ok tt
  | Some boundaries =>
      check_all (λ '(id, boundary),
        check_all (λ pattern, wrap (pair id) (Validate pattern)) boundary.(CriticalBoundary_Paths))
        (range boundaries)
  end.

(* ------------------------------------------------------------------ *)
(** * What a pattern covers

    The specification is on path segments: a literal entry covers the path it
    spells, and [dir/**] covers [dir] and everything below it. *)

(** A canonical repository-relative path. *)
Definition canonical_path (p : string) : Prop :=
  Split p ≠ [] ∧ Forall (λ w, plain_segment w ∧ w ≠ "..") (Split p).

Inductive covers (path : string) (raw : string) : Prop :=
  | covers_literal : path = TrimPrefix raw "./" → covers path raw
  | covers_below dir below :
      TrimPrefix raw "./" = dir +:+ RecursiveSuffix →
      is_ok (Validate raw) = true →
      Split path = Split dir ++ below →
      covers path raw.

Lemma Join_Split s : Join (Split s) "/" = s.
Proof.
  unfold Split. induction s as [|c s IH]; [done|]. cbn [split_on].
  destruct (split_on_cons "/"%char s) as (w & ws & Hs). rewrite Hs in *.
  case_bool_decide as Hc.
  - rewrite Join_cons, IH by done. by subst c.
  - destruct ws as [|v ws]; [by rewrite <- IH|].
    rewrite Join_cons in * by done. by rewrite <- IH.
Qed.

Lemma Split_inj a b : Split a = Split b → a = b.
Proof. intros H. by rewrite <- (Join_Split a), <- (Join_Split b), H. Qed.

Lemma Join_app ws vs : ws ≠ [] → vs ≠ [] → Join (ws ++ vs) "/" = Join ws "/" +:+ "/" +:+ Join vs "/".
Proof.
  intros Hw Hv. induction ws as [|w ws IH]; [done|]. destruct ws as [|w' ws].
  - by rewrite <- Join_cons.
  - rewrite (Join_cons w (w' :: ws)) by done.
    change ((w :: w' :: ws) ++ vs) with (w :: ((w' :: ws) ++ vs)).
    rewrite Join_cons by done. rewrite IH by done. by rewrite !string_app_assoc.
Qed.

(** The prefix test of the source is the prefix relation on segments. *)
Lemma under_directory path dir :
  (path = dir ∨ HasPrefix path (dir +:+ "/") = true) ↔ ∃ below, Split path = Split dir ++ below.
Proof.
  rewrite HasPrefix_spec. split.
  - intros [->|[r ->]].
    + exists []. by rewrite app_nil_r.
    + exists (Split r). by rewrite string_app_assoc, Split_app.
  - intros [below Hb]. destruct below as [|b below].
    { left. apply Split_inj. by rewrite Hb, app_nil_r. }
    right. exists (Join (b :: below) "/").
    rewrite <- (Join_Split path), Hb, Join_app, Join_Split by (apply Split_ne || done).
    by rewrite string_app_assoc.
Qed.

Lemma matches_one_covers path raw : matches_one path raw = true ↔ covers path raw.
Proof.
  unfold matches_one. rewrite orb_true_iff, !andb_true_iff, !bool_decide_eq_true. split.
  - intros [->|[[[dir Hd]%HasSuffix_spec Hv] Hu]]; [by constructor 1|].
    rewrite Hd, TrimSuffix_app in Hu. rewrite orb_true_iff, bool_decide_eq_true in Hu.
    apply under_directory in Hu as [below Hb]. by econstructor 2.
  - intros [->|dir below Hd Hv Hb]; [by left|right].
    rewrite Hd, TrimSuffix_app, HasSuffix_app. split; [done|].
    rewrite orb_true_iff, bool_decide_eq_true. apply under_directory. eauto.
Qed.

(** The matcher is exactly the segment specification. *)
Lemma MatchesAny_covers candidate patterns :
  let path := TrimPrefix candidate "./" in
  MatchesAny candidate patterns = true ↔
    path ≠ "" ∧ path ≠ "." ∧ ∃ raw, raw ∈ patterns ∧ covers path raw.
Proof.
  intros path. unfold MatchesAny. fold path.
  destruct ((path ≟ "") || (path ≟ ".")) eqn:He; reflect_bools.
  - split; [done|]. naive_solver.
  - rewrite existsb_exists. setoid_rewrite matches_one_covers.
    setoid_rewrite <- list_elem_of_In. naive_solver.
Qed.

Global Hint Resolve Split_ne : core.
