(* ===== verification/Encode.v ===== *)
(** [domain.Encode] ([domain/json.go]) as the source uses it: a validity
    check on a document.  The JSON Schema validator is third-party code and a
    parameter; what the repository adds in front of it (boundary patterns,
    the three fact values) is modelled. *)

From S2P Require Import Prelude GoStrings Domain PathPattern.
From stdpp Require Import options.

(** [schemas.Validate] on the JSON of each document type. *)
Class SchemaValidator := {
  schema_ProjectModel : ProjectModel → bool;
  schema_EngineeringFact : EngineeringFact → bool;
  schema_EngineeringPolicy : EngineeringPolicy → bool;
  schema_EngineeringWorkContract : EngineeringWorkContract → bool;
  schema_EvidenceBundle : EvidenceBundle → bool;
  schema_AuthorityDecision : AuthorityDecision → bool
}.

(** A validator that accepts everything, for concrete runs. *)
Definition accept_all : SchemaValidator :=
  {| schema_ProjectModel _ := true; schema_EngineeringFact _ := true;
     schema_EngineeringPolicy _ := true; schema_EngineeringWorkContract _ := true;
     schema_EvidenceBundle _ := true; schema_AuthorityDecision _ := true |}.

Inductive EncodeError :=
  | BoundaryPatterns (e : string * UnsupportedPatternError)
  | InvalidFactValue (v : string)
  | SchemaRefused.

Section Encode.
Context `{!MapRange, !SchemaValidator}.

Definition schema_check (ok : bool) : result EncodeError () := refuse_if (negb ok) SchemaRefused.

Definition marshal_fact_value (v : string) : result EncodeError () :=
  of_option (InvalidFactValue v) (MarshalFactValue v) ;? Ok tt.

Definition Encode_ProjectModel (m : ProjectModel) : result EncodeError () :=
  wrap BoundaryPatterns (ValidateBoundaryPatterns m) ;?
  schema_check (schema_ProjectModel m).

Definition Encode_EngineeringFact (f : EngineeringFact) : result EncodeError () :=
  marshal_fact_value f.(Fact_Value) ;?
  schema_check (schema_EngineeringFact f).

Definition Encode_EngineeringPolicy (p : EngineeringPolicy) : result EncodeError () :=
  check_all (λ '(_, rule), marshal_fact_value rule.(Rule_When).(When_Equals))
    (range p.(Policy_Rules)) ;?
  schema_check (schema_EngineeringPolicy p).

Definition Encode_EngineeringWorkContract (c : EngineeringWorkContract) : result EncodeError () :=
  schema_check (schema_EngineeringWorkContract c).

Definition Encode_EvidenceBundle (b : EvidenceBundle) : result EncodeError () :=
  schema_check (schema_EvidenceBundle b).

Definition Encode_AuthorityDecision (d : AuthorityDecision) : result EncodeError () :=
  schema_check (schema_AuthorityDecision d).
End Encode.

(** Whether a document is accepted does not depend on the iteration order. *)
Lemma check_range_order {E K A} `{Countable K} (R1 R2 : MapRange)
  (f : K * A → result E ()) (m : gmap K A) u :
  check_all f (@range R1 K A _ _ m) = Ok u ↔ check_all f (@range R2 K A _ _ m) = Ok u.
Proof.
  rewrite !check_all_ok. by setoid_rewrite (@range_perm R1); setoid_rewrite (@range_perm R2).
Qed.

Lemma ValidateBoundaryPatterns_order (R1 R2 : MapRange) m u :
  @ValidateBoundaryPatterns R1 m = Ok u ↔ @ValidateBoundaryPatterns R2 m = Ok u.
Proof.
  unfold ValidateBoundaryPatterns. destruct (Model_CriticalBoundaries m); [|done].
  apply check_range_order.
Qed.

Lemma Encode_ProjectModel_order (R1 R2 : MapRange) S m u :
  @Encode_ProjectModel R1 S m = Ok u ↔ @Encode_ProjectModel R2 S m = Ok u.
Proof.
  unfold Encode_ProjectModel. rewrite !rbind_ok. setoid_rewrite wrap_ok.
  by setoid_rewrite (ValidateBoundaryPatterns_order R1 R2).
Qed.

Lemma Encode_EngineeringPolicy_order (R1 R2 : MapRange) S p u :
  @Encode_EngineeringPolicy R1 S p = Ok u ↔ @Encode_EngineeringPolicy R2 S p = Ok u.
Proof.
  unfold Encode_EngineeringPolicy. rewrite !rbind_ok.
  by setoid_rewrite (check_range_order R1 R2).
Qed.
