(* ===== verification/Analysis.v ===== *)
(** [analysis/analysis.go]: path normalisation, the fact set, the analyzer and
    the critical-boundary detector. *)

From S2P Require Import Prelude GoStrings Domain PathPattern Encode.
From Stdlib Require Import Ascii.
From stdpp Require Import options.

Definition boundaryDetectorProducer : string := "critical-boundary-detector-v1".

Record Intent := MkIntent {
  Intent_Objective : string;
  Intent_AcceptanceIntent : list string;
  Intent_AffectedPaths : list string;
  Intent_PathsKnown : bool
}.

Record ObservedChange := MkObservedChange {
  Change_Paths : list string;
  Change_PathsKnown : bool
}.

(** [analysis.Input]. *)
Record DetectorInput := MkDetectorInput {
  Input_Subject : Subject;
  Input_Stage : string;
  Input_Paths : list string;
  Input_PathsKnown : bool
}.

Inductive AnalysisError :=
  | NotARepositoryFile (path : string)
  | ContainsNUL (path : string)
  | UsesBackslash (path : string)
  | NotRelative (path : string)
  | ContainsTraversal (path : string)
  | AmbiguousRecursive (path : string)
  | SubjectMismatch (subject model : Subject)
  | PredictedPaths (e : AnalysisError)
  | SubjectIncomplete
  | RepositoryMismatch (subject model : string)
  | UnboundFact (id : string)
  | InvalidFact (id : string) (e : EncodeError)
  | DuplicateFact (id : string)
  | UnsupportedStage (stage : string)
  | UnsupportedBoundary (e : string * UnsupportedPatternError)
  | DetectorFailed (what : string).

(* ------------------------------------------------------------------ *)
(** * Paths *)

Definition is_letter (b : N) : bool := in_range 65 90 b || in_range 97 122 b.

Definition hasWindowsVolume (raw : string) : bool :=
  let firstSegment := default "" (head (Split raw)) in
  match bytes firstSegment with
  | [b0; b1] => (b1 =? 58)%N && is_letter b0
  | _ => false
  end.

Definition normalize_path (raw : string) : result AnalysisError string :=
  refuse_if ((raw ≟ "") || (raw ≟ ".")) (NotARepositoryFile raw) ;?
  refuse_if (ContainsAny raw [0%N]) (ContainsNUL raw) ;?
  refuse_if (ContainsAny raw [92%N]) (UsesBackslash raw) ;?
  refuse_if (IsAbs raw || hasWindowsVolume raw) (NotRelative raw) ;?
  check_all (λ segment, refuse_if (segment ≟ "..") (ContainsTraversal raw)) (Split raw) ;?
  let cleaned := Clean raw in
  refuse_if ((cleaned ≟ ".") || (cleaned ≟ "")) (NotARepositoryFile raw) ;?
  refuse_if (IsAmbiguousLiteral cleaned) (AmbiguousRecursive raw) ;?
  Ok cleaned.

Definition NormalizeObservedChange (change : ObservedChange) : result AnalysisError ObservedChange :=
  let? paths := try_map normalize_path change.(Change_Paths) in
  Ok (MkObservedChange paths change.(Change_PathsKnown)).

(* ------------------------------------------------------------------ *)
(** * Facts *)

(** [FactSet.Sorted]. *)
Definition Sorted_facts `{!MapRange} (s : gmap string EngineeringFact) : list EngineeringFact :=
  omap (λ id, s !! id) (sorted_keys s).

(** The [strings.NewReplacer] of [factID]: dot, underscore and slash become a
    dash. *)
Definition dashed (key : string) : string :=
  of_bytes ((λ b, if [46; 95; 47]%N ∋? b then 45%N else b) <$> bytes key).

Definition factID (stage key : string) : string :=
  "fact-" +:+ dashed key +:+ "-" +:+ stage.

Definition intersects (changedPaths patterns : list string) : bool :=
  existsb (λ changed, MatchesAny changed patterns) changedPaths.

(* ------------------------------------------------------------------ *)
(** * The critical-boundary detector *)

(** One iteration of the loop that fills [pathsByType]. *)
Definition add_boundary (acc : gmap string (list string)) (kv : string * CriticalBoundary)
  : gmap string (list string) :=
  let boundary := kv.2 in
  <[ boundary.(CriticalBoundary_Type) :=
     default [] (acc !! boundary.(CriticalBoundary_Type)) ++ boundary.(CriticalBoundary_Paths) ]> acc.

(** [pathsByType], in the order the boundaries are iterated. *)
Definition paths_by_type `{!MapRange} (model : ProjectModel) : gmap string (list string) :=
  match model.(Model_CriticalBoundaries) with
  | None => ∅
  | Some boundaries =>
      fold_left add_boundary (range boundaries) ∅
  end.

Definition boundary_fact (input : DetectorInput) (boundaryType : string) (patterns : list string)
  : EngineeringFact :=
  let '(value, confidence) :=
    if negb input.(Input_PathsKnown) then (FactUnknown, ConfidenceLow)
    else if intersects input.(Input_Paths) patterns then (FactTrue, ConfidenceHigh)
    else (FactFalse, ConfidenceHigh) in
  let key := boundaryType +:+ ".boundary_modified" in
  {| Fact_SchemaVersion := SchemaVersion;
     Fact_ID := factID input.(Input_Stage) key;
     Fact_Key := key;
     Fact_Value := value;
     Fact_Stage := input.(Input_Stage);
     Fact_Confidence := confidence;
     Fact_Subject := input.(Input_Subject);
     Fact_Provenance := MkFactProvenance
       (if input.(Input_Stage) ≟ StagePredicted then "intent_analysis" else "path_analysis")
       boundaryDetectorProducer |}.

Definition Detect `{!MapRange} (model : ProjectModel) (input : DetectorInput)
  : result AnalysisError (list EngineeringFact) :=
  refuse_if ((input.(Input_Stage) ≠? StagePredicted) && (input.(Input_Stage) ≠? StageObserved))
    (UnsupportedStage input.(Input_Stage)) ;?
  wrap UnsupportedBoundary (ValidateBoundaryPatterns model) ;?
  let pathsByType := paths_by_type model in
  Ok ((λ boundaryType, boundary_fact input boundaryType (default [] (pathsByType !! boundaryType)))
        <$> sorted_keys pathsByType).

(* ------------------------------------------------------------------ *)
(** * The analyzer *)

(** The [Detector] interface. *)
Definition Detector : Type := ProjectModel → DetectorInput → result AnalysisError (list EngineeringFact).

Record Analyzer := MkAnalyzer { Analyzer_detectors : list Detector }.

Definition IsZero (a : Analyzer) : bool := length a.(Analyzer_detectors) =? 0.
Definition NewAnalyzer `{!MapRange} : Analyzer := MkAnalyzer [Detect].
Definition NewAnalyzerWithDetectors (detectors : list Detector) : Analyzer := MkAnalyzer detectors.

Section Analyzer.
Context `{!MapRange, !SchemaValidator}.

Definition add_fact (input : DetectorInput) (set : gmap string EngineeringFact) (fact : EngineeringFact)
  : result AnalysisError (gmap string EngineeringFact) :=
  refuse_if ((fact.(Fact_Stage) ≠? input.(Input_Stage)) || (fact.(Fact_Subject) ≠? input.(Input_Subject)))
    (UnboundFact fact.(Fact_ID)) ;?
  wrap (InvalidFact fact.(Fact_ID)) (Encode_EngineeringFact fact) ;?
  match set !! fact.(Fact_ID) with
  | Some _ => Err (DuplicateFact fact.(Fact_ID))
  | None => Ok (<[fact.(Fact_ID) := fact]> set)
  end.

Definition analyze (a : Analyzer) (model : ProjectModel) (input : DetectorInput)
  : result AnalysisError (gmap string EngineeringFact) :=
  refuse_if ((input.(Input_Subject).(Subject_Repository) ≟ "")
             || (input.(Input_Subject).(Subject_Revision) ≟ "")) SubjectIncomplete ;?
  refuse_if (model.(Model_Subject).(Subject_Repository) ≠? input.(Input_Subject).(Subject_Repository))
    (RepositoryMismatch input.(Input_Subject).(Subject_Repository) model.(Model_Subject).(Subject_Repository)) ;?
  for_each (λ set detector,
    let? facts := detector model input in for_each (add_fact input) facts set)
    a.(Analyzer_detectors) ∅.

Definition Predict (a : Analyzer) (model : ProjectModel) (subject : Subject) (intent : Intent)
  : result AnalysisError (gmap string EngineeringFact) :=
  refuse_if (subject ≠? model.(Model_Subject)) (SubjectMismatch subject model.(Model_Subject)) ;?
  let? normalized := wrap PredictedPaths
    (NormalizeObservedChange (MkObservedChange intent.(Intent_AffectedPaths) intent.(Intent_PathsKnown))) in
  analyze a model
    (MkDetectorInput subject StagePredicted normalized.(Change_Paths) normalized.(Change_PathsKnown)).

Definition Observe (a : Analyzer) (model : ProjectModel) (subject : Subject) (change : ObservedChange)
  : result AnalysisError (gmap string EngineeringFact) :=
  let? normalized := NormalizeObservedChange change in
  analyze a model
    (MkDetectorInput subject StageObserved normalized.(Change_Paths) normalized.(Change_PathsKnown)).
End Analyzer.

(* ------------------------------------------------------------------ *)
(** * Path normalisation *)

Lemma ContainsAny_false s chars : ContainsAny s chars = false ↔ ∀ b, b ∈ bytes s → b ∉ chars.
Proof.
  unfold ContainsAny. rewrite <- not_true_iff_false, existsb_exists.
  setoid_rewrite <- list_elem_of_In. setoid_rewrite bool_decide_eq_true. naive_solver.
Qed.

Lemma no_dotdot raw u e :
  check_all (λ segment, refuse_if (segment ≟ "..") (e : AnalysisError)) (Split raw) = Ok u → ".." ∉ Split raw.
Proof. rewrite check_all_ok. intros Hall Hin. specialize (Hall _ Hin). done. Qed.

Lemma Clean_plain raw :
  IsAbs raw = false → raw ≠ "" → ".." ∉ Split raw → Clean raw ≠ "." →
  canonical_path (Clean raw) ∧ IsAbs (Clean raw) = false ∧ Clean raw ≠ ""
  ∧ ∀ b, b ∈ bytes (Clean raw) → b = 47%N ∨ b ∈ bytes raw ∨ b = 46%N.
Proof.
  intros Ha He Hdd Hdot. destruct (Clean_relative raw Ha He) as (C & Hf & HC & Hc).
  rewrite Hc in *. case_decide as Hn; [done|].
  destruct (Join_rel C Hn (clean_form_sep _ _ Hf)) as (H1 & H2 & H3).
  split; [|split; [done|split; [done|]]].
  - split; rewrite H3; [done|]. rewrite HC.
    apply clean_segments_no_dots; [done|apply Split_Forall|constructor].
  - intros b [->|(w & Hw & Hb)]%bytes_join; [by left|right]. rewrite HC in Hw.
    apply clean_segments_incl in Hw as [Hw|[Hw| ->]].
    + by apply not_elem_of_nil in Hw.
    + left. eapply bytes_split; done.
    + right. apply elem_of_cons in Hb as [->|Hb]; [done|]. apply list_elem_of_singleton in Hb. done.
Qed.

(** What a normalised path is: canonical, relative, with no NUL, no backslash
    and no final recursive segment. *)
Record normalized_path (p : string) : Prop := {
  normalized_canonical : canonical_path p;
  normalized_relative : IsAbs p = false;
  normalized_nonempty : p ≠ "" ∧ p ≠ ".";
  normalized_nul : ContainsAny p [0%N] = false;
  normalized_backslash : ContainsAny p [92%N] = false;
  normalized_literal : IsAmbiguousLiteral p = false;
  normalized_clean : Clean p = p
}.

Lemma normalize_path_ok raw p : normalize_path raw = Ok p → normalized_path p.
Proof.
  unfold normalize_path. intros H. invert_ok. reflect_bools.
  repeat match goal with H : _ ∧ _ |- _ => destruct H end.
  match goal with H : check_all _ _ = _ |- _ => apply no_dotdot in H end.
  destruct (Clean_plain raw) as (Hc & Ha & Hne & Hb); [done..|].
  split; try done; [| |by rewrite Clean_idemp].
  - apply ContainsAny_false. intros b [->|[Hin| ->]]%Hb; [set_solver| |set_solver].
    match goal with H : ContainsAny raw [0%N] = false |- _ => rewrite ContainsAny_false in H; auto end.
  - apply ContainsAny_false. intros b [->|[Hin| ->]]%Hb; [set_solver| |set_solver].
    match goal with H : ContainsAny raw [92%N] = false |- _ => rewrite ContainsAny_false in H; auto end.
Qed.

Lemma canonical_no_dotdot p : canonical_path p → ".." ∉ Split p.
Proof. intros [_ Hall] Hin. rewrite Forall_forall in Hall. by destruct (Hall _ Hin). Qed.

Lemma normalize_path_fixed p :
  normalized_path p → hasWindowsVolume p = false → normalize_path p = Ok p.
Proof.
  intros [Hc Ha [Hne Hdot] Hn Hb Hl Hcl] Hw. unfold normalize_path.
  rewrite Hcl, Ha, Hw, Hn, Hb, Hl, !bool_decide_eq_false_2 by done. simpl.
  assert (check_all (λ segment, refuse_if (segment ≟ "..") (ContainsTraversal p)) (Split p) = Ok tt) as ->; [|done].
  apply check_all_ok. intros w Hin. unfold refuse_if. rewrite bool_decide_eq_false_2; [done|].
  intros ->. by apply (canonical_no_dotdot p).
Qed.

(** [NormalizeObservedChange] returns canonical repository-relative paths
    and is idempotent on its own results, except for a path whose first
    segment has become a Windows volume. *)
Theorem NormalizeObservedChange_idempotent change normalized :
  NormalizeObservedChange change = Ok normalized →
  Forall normalized_path normalized.(Change_Paths)
  ∧ ((∀ p, p ∈ normalized.(Change_Paths) → hasWindowsVolume p = false) →
     NormalizeObservedChange normalized = Ok normalized).
Proof.
  unfold NormalizeObservedChange. intros H. invert_ok. simpl.
  match goal with H : try_map _ _ = Ok ?l |- _ => rename l into paths; apply try_map_ok in H; rename H into Hmap end.
  assert (Forall normalized_path paths) as Hall.
  { induction Hmap as [|raw p raws ps Hp _ IH]; constructor; eauto using normalize_path_ok. }
  split; [done|]. intros Hw.
  assert (try_map normalize_path paths = Ok paths) as ->; [|done].
  apply try_map_ok. clear Hmap. induction Hall as [|p ps Hp _ IH]; constructor.
  - apply normalize_path_fixed; [done|]. apply Hw. left.
  - apply IH. intros q Hq. apply Hw. by right.
Qed.

Lemma NormalizeObservedChange_idempotent_witness :
  NormalizeObservedChange (MkObservedChange ["./src//main.go"; "docs/../a/[id].tsx"] true) = Err (ContainsTraversal "docs/../a/[id].tsx")
  ∧ NormalizeObservedChange (MkObservedChange ["src/main.go"; "a/[id].tsx"] true)
    = Ok (MkObservedChange ["src/main.go"; "a/[id].tsx"] true).
Proof.
  split; [vm_compute; reflexivity|].
  apply (NormalizeObservedChange_idempotent (MkObservedChange ["./src//main.go"; "a/./[id].tsx"] true)).
  - vm_compute. reflexivity.
  - intros p [->|[->|Hp]%elem_of_cons]%elem_of_cons; [reflexivity..|]. by apply not_elem_of_nil in Hp.
Defined.

(** The exception is real: the volume test reads the raw first segment, so
    "./C:/x" is accepted and normalised to the very path the function refuses. *)
Theorem NormalizeObservedChange_volume_after_clean :
  NormalizeObservedChange (MkObservedChange ["./C:/x"] true) = Ok (MkObservedChange ["C:/x"] true)
  ∧ NormalizeObservedChange (MkObservedChange ["C:/x"] true) = Err (NotRelative "C:/x").
Proof. split; vm_compute; reflexivity. Qed.

(* ------------------------------------------------------------------ *)
(** * The detector *)

(** The patterns of a boundary type, over all boundaries of that type. *)
Definition has_boundary (model : ProjectModel) (boundaryType : string) : Prop :=
  ∃ bs id b, model.(Model_CriticalBoundaries) = Some bs ∧ bs !! id = Some b
             ∧ b.(CriticalBoundary_Type) = boundaryType.

Definition boundary_pattern (model : ProjectModel) (boundaryType pattern : string) : Prop :=
  ∃ bs id b, model.(Model_CriticalBoundaries) = Some bs ∧ bs !! id = Some b
             ∧ b.(CriticalBoundary_Type) = boundaryType ∧ pattern ∈ b.(CriticalBoundary_Paths).

Lemma paths_by_type_fold (l : list (string * CriticalBoundary)) acc t :
  let out := fold_left add_boundary l acc in
  (is_Some (out !! t) ↔ is_Some (acc !! t) ∨ ∃ id b, (id, b) ∈ l ∧ b.(CriticalBoundary_Type) = t)
  ∧ (∀ p, p ∈ default [] (out !! t) ↔
        p ∈ default [] (acc !! t)
        ∨ ∃ id b, (id, b) ∈ l ∧ b.(CriticalBoundary_Type) = t ∧ p ∈ b.(CriticalBoundary_Paths)).
Proof.
  simpl. revert acc. induction l as [|[id b] l IH]; intros acc; simpl.
  { split; [|intros p]; split; auto; intros [?|(? & ? & Hx & ?)]; auto; by apply not_elem_of_nil in Hx. }
  destruct (IH (add_boundary acc (id, b))) as [IH1 IH2].
  split; [rewrite IH1|intros p; rewrite IH2]; clear IH IH1 IH2; setoid_rewrite elem_of_cons;
    unfold add_boundary; simpl;
    (destruct (decide (CriticalBoundary_Type b = t)) as [<-|Hne];
     [rewrite lookup_insert_eq|rewrite lookup_insert_ne by done]); simpl; rewrite ?elem_of_app.
  - split; [intros _; right; exists id, b; auto|by eauto].
  - split; [intros [?|(id' & b' & ? & ?)]; eauto 7|].
    intros [?|(id' & b' & [[= -> ->]|?] & ?)]; [by left|done|right; eauto].
  - split; [intros [[?|?]|(id' & b' & ? & ? & ?)]; [by left|right; exists id, b; auto|right; eauto 7]|].
    intros [?|(id' & b' & [[= -> ->]|?] & ? & ?)]; [auto|auto|right; eauto].
  - split; [intros [?|(id' & b' & ? & ? & ?)]; eauto 8|].
    intros [?|(id' & b' & [[= -> ->]|?] & ? & ?)]; [by left|done|right; eauto].
Qed.

Lemma paths_by_type_spec `{!MapRange} model t :
  (is_Some (paths_by_type model !! t) ↔ has_boundary model t)
  ∧ (∀ p, p ∈ default [] (paths_by_type model !! t) ↔ boundary_pattern model t p).
Proof.
  unfold paths_by_type, has_boundary, boundary_pattern.
  destruct (Model_CriticalBoundaries model) as [bs|].
  - destruct (paths_by_type_fold (range bs) ∅ t) as [H1 H2]. simpl in H1, H2.
    split; [rewrite H1|intros p; rewrite H2]; rewrite lookup_empty; setoid_rewrite elem_of_range; simpl.
    + split; [intros [[? ?]|?]; [done|naive_solver]|]. intros (? & ? & ? & [= ->] & ? & ?). eauto.
    + split; [intros [Hx|?]; [by apply not_elem_of_nil in Hx|naive_solver]|].
      intros (? & ? & ? & [= ->] & ? & ? & ?). eauto 6.
  - rewrite lookup_empty. simpl. split; [|intros p]; split.
    + by intros [? ?].
    + by intros (? & ? & ? & ? & _).
    + by intros ?%not_elem_of_nil.
    + by intros (? & ? & ? & ? & _).
Qed.

Lemma intersects_ext paths p1 p2 :
  (∀ p, p ∈ p1 ↔ p ∈ p2) → intersects paths p1 = intersects paths p2.
Proof.
  intros Hp. apply eq_iff_eq_true. unfold intersects. rewrite !existsb_exists.
  setoid_rewrite MatchesAny_covers. by setoid_rewrite Hp.
Qed.

Lemma boundary_fact_ext input t p1 p2 :
  (∀ p, p ∈ p1 ↔ p ∈ p2) → boundary_fact input t p1 = boundary_fact input t p2.
Proof. intros Hp. unfold boundary_fact. by rewrite (intersects_ext _ p1 p2 Hp). Qed.

(** The value the detector must report for one boundary type. *)
Definition boundary_value (model : ProjectModel) (input : DetectorInput) (t : string) (f : EngineeringFact) : Prop :=
  if input.(Input_PathsKnown)
  then f.(Fact_Confidence) = ConfidenceHigh
       ∧ (f.(Fact_Value) = FactTrue ∨ f.(Fact_Value) = FactFalse)
       ∧ (f.(Fact_Value) = FactTrue ↔
            ∃ p pattern, p ∈ input.(Input_Paths) ∧ boundary_pattern model t pattern
              ∧ MatchesAny p [pattern] = true)
  else f.(Fact_Value) = FactUnknown ∧ f.(Fact_Confidence) = ConfidenceLow.

Lemma MatchesAny_one p patterns : MatchesAny p patterns = true ↔ ∃ q, q ∈ patterns ∧ MatchesAny p [q] = true.
Proof. setoid_rewrite MatchesAny_covers. set_solver. Qed.

Lemma intersects_spec paths patterns :
  intersects paths patterns = true ↔
    ∃ p pattern, p ∈ paths ∧ pattern ∈ patterns ∧ MatchesAny p [pattern] = true.
Proof.
  unfold intersects. rewrite existsb_exists. setoid_rewrite <- list_elem_of_In. split.
  - intros (p & Hp & (q & Hq & Hm)%MatchesAny_one). eauto.
  - intros (p & q & Hp & Hq & Hm). exists p. split; [done|]. apply MatchesAny_one. eauto.
Qed.

(** The detector reports one fact per configured boundary type, unknown
    with low confidence when the paths are not known, and otherwise true
    exactly when a changed path falls under a pattern of that type. *)
Theorem Detect_spec `{!MapRange} model input facts :
  Detect model input = Ok facts →
  NoDup (Fact_Key <$> facts)
  ∧ (∀ t, has_boundary model t ↔ t +:+ ".boundary_modified" ∈ Fact_Key <$> facts)
  ∧ ∀ f, f ∈ facts → ∃ t, has_boundary model t ∧ f.(Fact_Key) = t +:+ ".boundary_modified"
         ∧ f.(Fact_Stage) = input.(Input_Stage) ∧ f.(Fact_Subject) = input.(Input_Subject)
         ∧ boundary_value model input t f.
Proof.
  unfold Detect. intros Hd. invert_ok. set (M := paths_by_type model).
  assert (∀ t ps, Fact_Key (boundary_fact input t ps) = t +:+ ".boundary_modified") as Hkey.
  { intros t ps. unfold boundary_fact. by destruct (Input_PathsKnown input), (intersects _ _). }
  assert (∀ a b s, a +:+ s = b +:+ s → a = b) as Hinj.
  { intros a b s Hs. rewrite <- (TrimSuffix_app a s), <- (TrimSuffix_app b s). by rewrite Hs. }
  rewrite <- list_fmap_compose.
  assert ((Fact_Key ∘ λ t, boundary_fact input t (default [] (M !! t))) <$> sorted_keys M
          = (λ t, t +:+ ".boundary_modified") <$> sorted_keys M) as ->.
  { apply list_fmap_ext. intros i t _. apply Hkey. }
  split; [|split].
  - apply NoDup_fmap_2; [intros a b; apply Hinj|apply sorted_keys_NoDup].
  - intros t. rewrite <- (proj1 (paths_by_type_spec model t)), <- elem_of_sorted_keys. split.
    + intros Ht. apply list_elem_of_fmap. eauto.
    + intros (t' & Ht & Hin)%list_elem_of_fmap. by apply Hinj in Ht as ->.
  - intros f (t & -> & Ht)%list_elem_of_fmap. exists t.
    destruct (paths_by_type_spec model t) as [Hs Hp]. fold M in Hs, Hp. rewrite elem_of_sorted_keys in Ht.
    split; [by apply Hs|]. split; [apply Hkey|].
    assert (intersects (Input_Paths input) (default [] (M !! t)) = true ↔
        ∃ p pattern, p ∈ input.(Input_Paths) ∧ boundary_pattern model t pattern ∧ MatchesAny p [pattern] = true) as Hint.
    { rewrite intersects_spec. by setoid_rewrite Hp. }
    unfold boundary_fact, boundary_value. destruct (Input_PathsKnown input); simpl; [|done].
    destruct (intersects _ _) eqn:Hi; simpl; (split; [done|split; [done|split; [done|]]]).
    + split; [by auto|]. split; [|done]. intros _. by apply Hint.
    + split; [by auto|]. split; [done|]. intros Hx. by apply Hint in Hx.
Qed.

Definition example_model : ProjectModel :=
  MkProjectModel SchemaVersion "model" "1" (MkSubject "repo" "r1")
    (Some (<["auth" := MkCriticalBoundary "auth" ["auth/**"]]>
          (<["keys" := MkCriticalBoundary "auth" ["keys.go"]]>
          (<["db" := MkCriticalBoundary "database" ["db/**"]]> ∅)))) None None.

Definition example_input : DetectorInput :=
  MkDetectorInput (MkSubject "repo" "r2") StageObserved ["auth/login.go"; "README.md"] true.

Definition example_facts : list EngineeringFact :=
  [boundary_fact example_input "auth" ["auth/**"; "keys.go"]; boundary_fact example_input "database" ["db/**"]].

Lemma Detect_spec_witness :
  @Detect range_forward example_model example_input = Ok example_facts
  ∧ Fact_Value <$> example_facts = [FactTrue; FactFalse]
  ∧ ∀ f, f ∈ example_facts → ∃ t, has_boundary example_model t ∧ f.(Fact_Key) = t +:+ ".boundary_modified"
         ∧ f.(Fact_Stage) = StageObserved ∧ f.(Fact_Subject) = MkSubject "repo" "r2"
         ∧ boundary_value example_model example_input t f.
Proof.
  assert (@Detect range_forward example_model example_input = Ok example_facts) as Hd
    by (vm_compute; reflexivity).
  split; [exact Hd|]. split; [vm_compute; reflexivity|].
  exact (proj2 (proj2 (@Detect_spec range_forward _ _ _ Hd))).
Defined.

Lemma paths_by_type_order (R1 R2 : MapRange) model t p :
  p ∈ default [] (@paths_by_type R1 model !! t) ↔ p ∈ default [] (@paths_by_type R2 model !! t).
Proof.
  by rewrite (proj2 (@paths_by_type_spec R1 model t)), (proj2 (@paths_by_type_spec R2 model t)).
Qed.

Lemma paths_by_type_keys (R1 R2 : MapRange) model :
  @sorted_keys R1 _ (@paths_by_type R1 model) = @sorted_keys R2 _ (@paths_by_type R2 model).
Proof.
  apply sort_strings_proper, NoDup_Permutation; try apply range_keys_NoDup.
  intros t. rewrite (@elem_of_range_keys R1), (@elem_of_range_keys R2).
  by rewrite (proj1 (@paths_by_type_spec R1 model t)), (proj1 (@paths_by_type_spec R2 model t)).
Qed.

(** The detector's answer does not depend on the iteration order of the
    boundaries. *)
Lemma Detect_order (R1 R2 : MapRange) model input facts :
  @Detect R1 model input = Ok facts ↔ @Detect R2 model input = Ok facts.
Proof.
  assert (∀ ts : list string,
    ((λ t, boundary_fact input t (default [] (@paths_by_type R1 model !! t))) <$> ts)
    = ((λ t, boundary_fact input t (default [] (@paths_by_type R2 model !! t))) <$> ts)) as Hfacts.
  { intros ts. apply list_fmap_ext. intros i t _. apply boundary_fact_ext.
    intros p. apply paths_by_type_order. }
  unfold Detect. rewrite (paths_by_type_keys R1 R2), Hfacts.
  destruct (refuse_if _ _); simpl; [|done]. rewrite !rbind_ok. setoid_rewrite wrap_ok.
  by setoid_rewrite (ValidateBoundaryPatterns_order R1 R2).
Qed.

(* ------------------------------------------------------------------ *)
(** * The analyzer *)

(** What every fact of a fact set satisfies. *)
Definition bound_fact `{!SchemaValidator} (input : DetectorInput) (id : string) (f : EngineeringFact) : Prop :=
  f.(Fact_ID) = id ∧ f.(Fact_Stage) = input.(Input_Stage) ∧ f.(Fact_Subject) = input.(Input_Subject)
  ∧ Encode_EngineeringFact f = Ok tt.

Lemma add_fact_bound `{!SchemaValidator} input set fact set' :
  (∀ id f, set !! id = Some f → bound_fact input id f) →
  add_fact input set fact = Ok set' →
  set !! fact.(Fact_ID) = None ∧ set' = <[fact.(Fact_ID) := fact]> set
  ∧ ∀ id f, set' !! id = Some f → bound_fact input id f.
Proof.
  unfold add_fact. intros Hset Hadd. invert_ok. reflect_bools.
  destruct (set !! Fact_ID fact) eqn:Hid; [done|]. invert_ok.
  split; [done|]. split; [done|]. intros id f. rewrite lookup_insert_Some.
  intros [[<- <-]|[_ Hf]]; [|by apply Hset]. unfold bound_fact. naive_solver.
Qed.

(** A fact set binds every fact to the analysed stage and subject, keyed
    by its own identity, and no detector's fact is dropped or overwritten. *)
Theorem analyze_facts `{!SchemaValidator} a model input set :
  analyze a model input = Ok set →
  (∀ id f, set !! id = Some f → bound_fact input id f)
  ∧ ∀ detector, detector ∈ a.(Analyzer_detectors) →
      ∃ facts, detector model input = Ok facts ∧ ∀ f, f ∈ facts → set !! f.(Fact_ID) = Some f.
Proof.
  unfold analyze. intros Ha. invert_ok.
  match goal with H : for_each ?g _ _ = Ok _ |- _ => set (step := g) in H; rename H into Hrun end.
  set (Inv := λ s : gmap string EngineeringFact, ∀ id f, s !! id = Some f → bound_fact input id f).
  assert (∀ facts s s', Inv s → for_each (add_fact input) facts s = Ok s' →
            Inv s' ∧ s ⊆ s' ∧ ∀ f, f ∈ facts → s' !! Fact_ID f = Some f) as Hinner.
  { induction facts as [|f facts IH]; simpl; intros s s' Hs Hf; invert_ok.
    { split; [done|]. split; [done|]. intros f Hf. by apply not_elem_of_nil in Hf. }
    match goal with H : add_fact _ _ _ = Ok _ |- _ => apply add_fact_bound in H as (Hn & -> & Hi); [|done] end.
    destruct (IH _ _ Hi Hf) as (Hi' & Hsub & Hin). split; [done|].
    split; [etransitivity; [|done]; by apply insert_subseteq|].
    intros g [->|Hg]%elem_of_cons; [|auto]. eapply lookup_weaken; [|done]. apply lookup_insert_eq. }
  assert (∀ d s s', Inv s → step s d = Ok s' →
    Inv s' ∧ s ⊆ s' ∧ ∃ facts, d model input = Ok facts ∧ ∀ f, f ∈ facts → s' !! Fact_ID f = Some f) as Hstep.
  { intros d s s' Hs Hd. unfold step in Hd. invert_ok.
    match goal with H : d model input = Ok ?x |- _ => rename x into facts end.
    destruct (Hinner facts s s' Hs Hd) as (? & ? & ?). eauto. }
  set (Good := λ (done : list Detector) s, Inv s ∧ ∀ d, d ∈ done →
    ∃ facts, d model input = Ok facts ∧ ∀ f, f ∈ facts → s !! Fact_ID f = Some f).
  eapply (for_each_ind step Good) in Hrun; [exact Hrun| |].
  - split; [intros id f Hf; by rewrite lookup_empty in Hf|]. intros d Hd. by apply not_elem_of_nil in Hd.
  - intros done d rest s1 s2 _ [Hi Hd] Hs. destruct (Hstep _ _ _ Hi Hs) as (Hi' & Hsub & Hnew).
    split; [done|]. intros d' [Hd'| ->%list_elem_of_singleton]%elem_of_app; [|done].
    destruct (Hd _ Hd') as (facts & Hf & Hin). exists facts. split; [done|].
    intros f Hff. eapply lookup_weaken; [|done]. by apply Hin.
Qed.

Definition example_set : gmap string EngineeringFact :=
  ok_or ∅ (@analyze accept_all (@NewAnalyzer range_forward) example_model example_input).

Lemma analyze_facts_witness :
  @analyze accept_all (@NewAnalyzer range_forward) example_model example_input = Ok example_set
  ∧ example_set !! "fact-database-boundary-modified-observed"
    = Some (boundary_fact example_input "database" ["db/**"])
  ∧ ∀ id f, example_set !! id = Some f → @bound_fact accept_all example_input id f.
Proof.
  assert (@analyze accept_all (@NewAnalyzer range_forward) example_model example_input = Ok example_set)
    as Hset
    by (apply ok_or_eq; vm_compute; reflexivity).
  split; [exact Hset|]. split; [vm_compute; reflexivity|].
  exact (proj1 (@analyze_facts accept_all _ _ _ _ Hset)).
Defined.

Lemma Sorted_facts_order (R1 R2 : MapRange) s : @Sorted_facts R1 s = @Sorted_facts R2 s.
Proof. unfold Sorted_facts. by rewrite (sorted_keys_order R1 R2). Qed.

Lemma elem_of_Sorted_facts `{!MapRange} s f : f ∈ Sorted_facts s ↔ ∃ id, s !! id = Some f.
Proof.
  unfold Sorted_facts. rewrite list_elem_of_omap. split.
  - intros (id & _ & Hf). eauto.
  - intros [id Hf]. exists id. by rewrite elem_of_sorted_keys.
Qed.
