(* ===== verification/Evidence.v ===== *)
(** Evidence applicability: the package [evidence] ([evidence/evidence.go]).
    A bundle is bound to one subject, contract and policy revision; evidence
    is applicable only under exactly that binding, and a binding change makes
    it stale without rebinding it. *)

From S2P Require Import Prelude GoStrings Domain PathPattern Encode.
From stdpp Require Import options.

Record Binding := MkBinding {
  Binding_Subject : Subject;
  Binding_Contract : ObjectRevision;
  Binding_Policy : ObjectRevision
}.

#[export] Instance Binding_eq : EqDecision Binding.
Proof. solve_decision. Defined.

Inductive EvidenceError :=
  | InvalidBundle (e : EncodeError)
  | IncompleteBinding
  | EmptyEvidenceClass
  | BindingUnchanged
  | RevisionNotNext
  | InvalidStaleBundle (e : EncodeError).

Definition BindingOf (bundle : EvidenceBundle) : Binding :=
  MkBinding bundle.(Bundle_Subject) bundle.(Bundle_Contract) bundle.(Bundle_Policy).

Definition Matches (bundle : EvidenceBundle) (target : Binding) : bool := BindingOf bundle ≟ target.

(** [fmt.Sprintf("%q@%q", ...)], the building block of the reason. *)
Definition quote_at `{!GoUnicode} (a b : string) : string := Quote a +:+ "@" +:+ Quote b.

Definition binding_text `{!GoUnicode} (b : Binding) : string :=
  "subject " +:+ quote_at b.(Binding_Subject).(Subject_Repository) b.(Binding_Subject).(Subject_Revision)
  +:+ ", contract " +:+ quote_at b.(Binding_Contract).(ObjectRevision_ID) b.(Binding_Contract).(ObjectRevision_Revision)
  +:+ ", policy " +:+ quote_at b.(Binding_Policy).(ObjectRevision_ID) b.(Binding_Policy).(ObjectRevision_Revision).

Definition bindingChangeReason `{!GoUnicode} (before after : Binding) : string :=
  "Evidence binding changed from " +:+ binding_text before +:+ " to " +:+ binding_text after +:+ ".".

(** The test of the loop body of [HasApplicablePassingEvidence]. *)
Definition applicable_item (claimID expectedEvidenceClass : string) (item : EvidenceItem) : bool :=
  (item.(Item_ClaimID) ≟ claimID) && (item.(Item_EvidenceClass) ≟ expectedEvidenceClass)
  && (item.(Item_Result).(Result_Status) ≟ EvidencePassed)
  && (item.(Item_Lifecycle).(Lifecycle_Status) ≟ EvidenceValid).

(** The loop body of [MarkStaleForBindingChange]. *)
Definition mark_stale (reason : string) (item : EvidenceItem) : EvidenceItem :=
  if item.(Item_Lifecycle).(Lifecycle_Status) ≟ EvidenceValid then
    {| Item_ClaimID := item.(Item_ClaimID);
       Item_EvidenceClass := item.(Item_EvidenceClass);
       Item_Producer := item.(Item_Producer);
       Item_Environment := item.(Item_Environment);
       Item_Result := item.(Item_Result);
       Item_Lifecycle := MkLifecycle EvidenceStale (Some reason);
       Item_Provenance := item.(Item_Provenance) |}
  else item.

Section Evidence.
Context `{!MapRange, !SchemaValidator, !GoUnicode}.

Definition validateBundleAndBinding (bundle : EvidenceBundle) (target : Binding)
  : result EvidenceError () :=
  wrap InvalidBundle (Encode_EvidenceBundle bundle) ;?
  refuse_if ((target.(Binding_Subject).(Subject_Repository) ≟ "")
             || (target.(Binding_Subject).(Subject_Revision) ≟ "")
             || (target.(Binding_Contract).(ObjectRevision_ID) ≟ "")
             || (target.(Binding_Contract).(ObjectRevision_Revision) ≟ "")
             || (target.(Binding_Policy).(ObjectRevision_ID) ≟ "")
             || (target.(Binding_Policy).(ObjectRevision_Revision) ≟ "")) IncompleteBinding.

Definition HasApplicablePassingEvidence (bundle : EvidenceBundle) (target : Binding)
  (claimID expectedEvidenceClass : string) : result EvidenceError bool :=
  validateBundleAndBinding bundle target ;?
  refuse_if (expectedEvidenceClass ≟ "") EmptyEvidenceClass ;?
  if negb (Matches bundle target) then Ok false
  else Ok (existsb (λ '(_, item), applicable_item claimID expectedEvidenceClass item)
             (range bundle.(Bundle_Evidence))).

Definition MarkStaleForBindingChange (bundle : EvidenceBundle) (target : Binding) (nextRevision : string)
  : result EvidenceError EvidenceBundle :=
  validateBundleAndBinding bundle target ;?
  refuse_if (Matches bundle target) BindingUnchanged ;?
  refuse_if ((nextRevision ≟ "") || (nextRevision ≟ bundle.(Bundle_Revision))) RevisionNotNext ;?
  let reason := bindingChangeReason (BindingOf bundle) target in
  let updated :=
    {| Bundle_SchemaVersion := bundle.(Bundle_SchemaVersion);
       Bundle_ID := bundle.(Bundle_ID);
       Bundle_Revision := nextRevision;
       Bundle_Subject := bundle.(Bundle_Subject);
       Bundle_Contract := bundle.(Bundle_Contract);
       Bundle_Policy := bundle.(Bundle_Policy);
       Bundle_Evidence := copy_map (mark_stale reason) bundle.(Bundle_Evidence) |} in
  wrap InvalidStaleBundle (Encode_EvidenceBundle updated) ;?
  Ok updated.

(** The bundle a binding change leaves behind: same identity, same binding,
    no valid item. *)
Record stale_successor (bundle updated : EvidenceBundle) (target : Binding) (nextRevision : string)
  : Prop := {
  stale_identity : updated.(Bundle_ID) = bundle.(Bundle_ID);
  stale_binding : BindingOf updated = BindingOf bundle;
  stale_revision : updated.(Bundle_Revision) = nextRevision ∧ nextRevision ≠ bundle.(Bundle_Revision);
  stale_changed : target ≠ BindingOf bundle;
  stale_items : updated.(Bundle_Evidence)
    = mark_stale (bindingChangeReason (BindingOf bundle) target) <$> bundle.(Bundle_Evidence)
}.

Lemma mark_stale_not_valid reason item :
  (mark_stale reason item).(Item_Lifecycle).(Lifecycle_Status) ≠ EvidenceValid.
Proof. unfold mark_stale. case_bool_decide; [done|done]. Qed.

Lemma MarkStale_successor bundle target nextRevision updated :
  MarkStaleForBindingChange bundle target nextRevision = Ok updated →
  stale_successor bundle updated target nextRevision.
Proof.
  unfold MarkStaleForBindingChange, Matches. intros Hm. invert_ok. reflect_bools.
  split; simpl; [done|done|naive_solver|naive_solver|]. apply copy_map_fmap.
Qed.

Lemma HasApplicable_ok bundle target claimID cls b :
  HasApplicablePassingEvidence bundle target claimID cls = Ok b →
  (b = true ↔ BindingOf bundle = target
    ∧ ∃ id item, bundle.(Bundle_Evidence) !! id = Some item ∧ applicable_item claimID cls item = true).
Proof.
  unfold HasApplicablePassingEvidence, Matches. intros Hh. invert_ok.
  case_bool_decide as Hb; simpl in Hh; invert_ok.
  - rewrite existsb_exists. split.
    + intros ([id item] & Hin & Hap). split; [done|]. exists id, item. split; [|done].
      by apply elem_of_range, list_elem_of_In.
    + intros (_ & id & item & Hl & Hap). exists (id, item). split; [|done].
      by apply list_elem_of_In, elem_of_range.
  - naive_solver.
Qed.
End Evidence.

(** A binding change never lets old evidence apply again: the next
    revision of the bundle keeps its identity and its original binding, no
    binding, claim or class finds applicable passing evidence in it, and an
    item that was not valid is unchanged. *)
Theorem MarkStale_retires_evidence `{!MapRange, !SchemaValidator, !GoUnicode}
  bundle target nextRevision updated :
  MarkStaleForBindingChange bundle target nextRevision = Ok updated →
  updated.(Bundle_ID) = bundle.(Bundle_ID)
  ∧ BindingOf updated = BindingOf bundle
  ∧ updated.(Bundle_Revision) ≠ bundle.(Bundle_Revision)
  ∧ (∀ anyTarget claimID cls, HasApplicablePassingEvidence updated anyTarget claimID cls ≠ Ok true)
  ∧ dom updated.(Bundle_Evidence) = dom bundle.(Bundle_Evidence)
  ∧ ∀ id item, bundle.(Bundle_Evidence) !! id = Some item →
      item.(Item_Lifecycle).(Lifecycle_Status) ≠ EvidenceValid →
      updated.(Bundle_Evidence) !! id = Some item.
Proof.
  intros [Hid Hbind [Hrev Hne] Hch Hitems]%MarkStale_successor.
  split_and!; [done|done|congruence| | |].
  - intros anyTarget claimID cls Hh. apply HasApplicable_ok in Hh.
    destruct (proj1 Hh eq_refl) as (_ & id & item & Hl & Hap).
    rewrite Hitems, lookup_fmap in Hl. apply fmap_Some in Hl as (item0 & _ & ->).
    unfold applicable_item in Hap. reflect_bools. destruct Hap as [_ Hv].
    by apply mark_stale_not_valid in Hv.
  - by rewrite Hitems, dom_fmap_L.
  - intros id item Hl Hs. rewrite Hitems, lookup_fmap, Hl. simpl. unfold mark_stale.
    by rewrite bool_decide_eq_false_2.
Qed.

(** Applicable passing evidence is found exactly when the bundle has the
    target's subject, contract and policy and holds a valid, passing item of
    the claim and class asked for, in whatever order the items are visited. *)
Theorem HasApplicablePassingEvidence_iff `{!MapRange, !SchemaValidator} bundle target claimID cls :
  validateBundleAndBinding bundle target = Ok tt → cls ≠ "" →
  ∃ b, HasApplicablePassingEvidence bundle target claimID cls = Ok b
  ∧ (b = true ↔ BindingOf bundle = target
      ∧ ∃ id item, bundle.(Bundle_Evidence) !! id = Some item
        ∧ item.(Item_ClaimID) = claimID ∧ item.(Item_EvidenceClass) = cls
        ∧ item.(Item_Result).(Result_Status) = EvidencePassed
        ∧ item.(Item_Lifecycle).(Lifecycle_Status) = EvidenceValid).
Proof.
  intros Hv Hc.
  assert (∃ b, HasApplicablePassingEvidence bundle target claimID cls = Ok b) as [b Hb].
  { unfold HasApplicablePassingEvidence. rewrite Hv. simpl. rewrite bool_decide_eq_false_2 by done. simpl.
    destruct (negb _); eauto. }
  exists b. split; [done|]. rewrite (HasApplicable_ok _ _ _ _ _ Hb).
  unfold applicable_item. reflect_bools. naive_solver.
Qed.

Definition example_item : EvidenceItem :=
  {| Item_ClaimID := "tests"; Item_EvidenceClass := "unit_test";
     Item_Producer := MkProducer "ci" ProducerDeterministicTool;
     Item_Environment := MkEnvironment "ci" "linux" None;
     Item_Result := MkEvidenceResult EvidencePassed None;
     Item_Lifecycle := MkLifecycle EvidenceValid None;
     Item_Provenance := MkEvidenceProvenance "ci" "2026-01-01T00:00:00Z" None |}.

Definition example_binding : Binding :=
  MkBinding (MkSubject "repo" "r1") (MkObjectRevision "contract" "1") (MkObjectRevision "policy" "1").

Definition example_bundle : EvidenceBundle :=
  {| Bundle_SchemaVersion := SchemaVersion; Bundle_ID := "bundle"; Bundle_Revision := "1";
     Bundle_Subject := example_binding.(Binding_Subject);
     Bundle_Contract := example_binding.(Binding_Contract);
     Bundle_Policy := example_binding.(Binding_Policy);
     Bundle_Evidence := <["item" := example_item]> ∅ |}.

Definition example_target : Binding :=
  MkBinding (MkSubject "repo" "r2") (MkObjectRevision "contract" "1") (MkObjectRevision "policy" "1").

Definition example_stale : EvidenceBundle :=
  ok_or example_bundle
    (@MarkStaleForBindingChange range_forward accept_all ascii_unicode example_bundle example_target "2").

Lemma MarkStale_retires_evidence_witness :
  (Lifecycle_Status ∘ Item_Lifecycle) <$> (example_stale.(Bundle_Evidence) !! "item") = Some EvidenceStale
  ∧ ∀ target claimID cls,
      @HasApplicablePassingEvidence range_forward accept_all example_stale target claimID cls ≠ Ok true.
Proof.
  assert (@MarkStaleForBindingChange range_forward accept_all ascii_unicode example_bundle example_target "2"
          = Ok example_stale) as Hs by (apply ok_or_eq; vm_compute; reflexivity).
  split; [vm_compute; reflexivity|].
  exact (proj1 (proj2 (proj2 (proj2 (@MarkStale_retires_evidence range_forward accept_all ascii_unicode _ _ _ _ Hs))))).
Defined.

Lemma HasApplicablePassingEvidence_iff_witness :
  @HasApplicablePassingEvidence range_backward accept_all example_bundle example_binding "tests" "unit_test" = Ok true
  ∧ ∃ b, @HasApplicablePassingEvidence range_backward accept_all example_bundle example_target "tests" "unit_test" = Ok b
    ∧ b ≠ true.
Proof.
  split; [vm_compute; reflexivity|].
  destruct (@HasApplicablePassingEvidence_iff range_backward accept_all example_bundle example_target "tests" "unit_test")
    as (b & Hb & Hiff); [vm_compute; reflexivity|done|].
  exists b. split; [exact Hb|]. intros Ht. destruct (proj1 Hiff Ht) as [He _]. discriminate He.
Defined.
