(* ===== verification/Authority.v ===== *)
(** Action authority: the package [authority] ([authority/authority.go]).
    [Evaluate] decides whether one protected action is authorized by a work
    contract and the evidence bundles at hand. *)

From S2P Require Import Prelude GoStrings Domain PathPattern Encode.
From stdpp Require Import options.

Record AuthorityInput := MkAuthorityInput {
  Input_DecisionID : string;
  Input_DecisionRevision : string;
  Input_Contract : EngineeringWorkContract;
  Input_Action : Action;
  Input_Capability : string;
  Input_ChangeProducer : EvidenceProducer;
  Input_EvidenceBundles : gmap string EvidenceBundle
}.

Inductive AuthorityError :=
  | DecisionIdentityRequired
  | ActionRequired
  | UnsupportedCapability (status : string)
  | InvalidContract (e : EncodeError)
  | NoDischargeClaim (obligation : string)
  | ObligationUndefinedClaim (obligation claim : string)
  | ConflictingConditions (action : Action)
  | ConditionUndefinedClaim (action : Action) (claim : string)
  | ChangeProducerRequired
  | BundleKeyMismatch (key bundleID : string)
  | InvalidEvidenceBundle (key : string) (e : EncodeError)
  | InvalidDecision (e : EncodeError).

Definition knownProducerType (kind : string) : bool :=
  (kind ≟ ProducerExecutionProvider) || (kind ≟ ProducerAssuranceProvider)
  || (kind ≟ ProducerDeterministicTool) || (kind ≟ ProducerHuman).

Definition permissionFor (contract : EngineeringWorkContract) (action : Action) : string :=
  if existsb (λ prohibited, prohibited ≟ action) contract.(Contract_Prohibitions) then PermissionDenied
  else if existsb (λ permitted, permitted ≟ action) contract.(Contract_Permissions) then PermissionGranted
  else PermissionDenied.

Definition permissionRequirement (action : Action) : string :=
  "permission:" +:+ action.(Action_Type) +:+ ":" +:+ action.(Action_Target).

Definition capabilityRequirement (action : Action) : string :=
  "capability:" +:+ action.(Action_Type) +:+ ":" +:+ action.(Action_Target).

Definition matchesContractBinding (bundle : EvidenceBundle) (contract : EngineeringWorkContract) : bool :=
  (bundle.(Bundle_Subject) ≟ contract.(Contract_Subject))
  && (bundle.(Bundle_Contract) ≟ MkObjectRevision contract.(Contract_ID) contract.(Contract_Revision))
  && (bundle.(Bundle_Policy) ≟ contract.(Contract_Provenance).(Provenance_Policy)).

(* ------------------------------------------------------------------ *)
(** * Claim states *)

Inductive evidenceClaimState := claimMissing | claimSatisfied | claimBlocked | claimStale.

#[export] Instance evidenceClaimState_eq : EqDecision evidenceClaimState.
Proof. solve_decision. Defined.

(** The three flags of [claimState]. *)
Record claim_flags := MkFlags { hasStale : bool; hasPassing : bool; hasFailed : bool }.

(** The body of the inner loop of [claimState], [continue]s included. *)
Definition scan_item (changeProducer claimID : string) (claim : RequiredClaim)
  (flags : claim_flags) (item : EvidenceItem) : claim_flags :=
  if (item.(Item_ClaimID) ≠? claimID) || (item.(Item_EvidenceClass) ≠? claim.(RequiredClaim_EvidenceClass))
  then flags
  else if (claim.(RequiredClaim_EvidenceClass) ≟ human_approval)
          && (item.(Item_Producer).(Producer_Type) ≠? ProducerHuman)
  then flags
  else if item.(Item_Lifecycle).(Lifecycle_Status) ≟ EvidenceStale
  then MkFlags true flags.(hasPassing) flags.(hasFailed)
  else if item.(Item_Lifecycle).(Lifecycle_Status) ≠? EvidenceValid
  then flags
  else
    MkFlags flags.(hasStale)
      (flags.(hasPassing)
       || (item.(Item_Result).(Result_Status) ≟ EvidencePassed)
          && (negb claim.(RequiredClaim_Independent) || (item.(Item_Producer).(Producer_ID) ≠? changeProducer)))
      (flags.(hasFailed) || (item.(Item_Result).(Result_Status) ≟ EvidenceFailed)).

Section Authority.
Context `{!MapRange, !SchemaValidator}.

(** The body of the outer loop of [claimState]. *)
Definition scan_bundle (input : AuthorityInput) (claimID : string) (claim : RequiredClaim)
  (flags : claim_flags) (bundle : EvidenceBundle) : claim_flags :=
  if negb (matchesContractBinding bundle input.(Input_Contract)) then flags
  else fold_left (scan_item input.(Input_ChangeProducer).(Producer_ID) claimID claim)
         (range_values bundle.(Bundle_Evidence)) flags.

Definition claimState (input : AuthorityInput) (claimID : string) (claim : RequiredClaim) : evidenceClaimState :=
  let flags := fold_left (scan_bundle input claimID claim)
                 (range_values input.(Input_EvidenceBundles)) (MkFlags false false false) in
  if flags.(hasFailed) then claimBlocked
  else if flags.(hasPassing) then claimSatisfied
  else if flags.(hasStale) then claimStale
  else claimMissing.

(** [input.Contract.RequiredClaims[claimID]]: the zero claim for a missing
    key. *)
Definition claim_or_zero (claims : gmap string RequiredClaim) (claimID : string) : RequiredClaim :=
  default (MkRequiredClaim "" false) (claims !! claimID).

Record claimClassification := MkClassification {
  satisfied : list string;
  missing : list string;
  stale : list string;
  blocking : list string
}.

Definition classify_one (input : AuthorityInput) (result : claimClassification) (claimID : string)
  : claimClassification :=
  match claimState input claimID (claim_or_zero input.(Input_Contract).(Contract_RequiredClaims) claimID) with
  | claimSatisfied =>
      MkClassification (result.(satisfied) ++ [claimID]) result.(missing) result.(stale) result.(blocking)
  | claimBlocked =>
      MkClassification result.(satisfied) result.(missing) result.(stale) (result.(blocking) ++ [claimID])
  | claimStale =>
      MkClassification result.(satisfied) result.(missing) (result.(stale) ++ [claimID]) result.(blocking)
  | claimMissing =>
      MkClassification result.(satisfied) (result.(missing) ++ [claimID]) result.(stale) result.(blocking)
  end.

Definition classifyClaims (input : AuthorityInput) (claimIDs : list string) : claimClassification :=
  fold_left (classify_one input) claimIDs (MkClassification [] [] [] []).

(* ---------------------------------------------------------------- *)
(** ** Validation *)

Definition obligation_references (contract : EngineeringWorkContract) (kv : string * Requirement)
  : result AuthorityError () :=
  let '(id, obligation) := kv in
  if negb obligation.(Requirement_Material) then Ok tt
  else
    refuse_if (length obligation.(Requirement_RequiredClaims) =? 0) (NoDischargeClaim id) ;?
    check_all (λ claimID,
      refuse_if (bool_decide (contract.(Contract_RequiredClaims) !! claimID = None))
        (ObligationUndefinedClaim id claimID)) obligation.(Requirement_RequiredClaims).

(** One iteration of the conditions loop; the state is the [conditions]
    set. *)
Definition condition_references (contract : EngineeringWorkContract) (conditions : gset Action)
  (condition : AuthorityCondition) : result AuthorityError (gset Action) :=
  refuse_if (conditions ∋? condition.(Condition_Action)) (ConflictingConditions condition.(Condition_Action)) ;?
  check_all (λ claimID,
    refuse_if (bool_decide (contract.(Contract_RequiredClaims) !! claimID = None))
      (ConditionUndefinedClaim condition.(Condition_Action) claimID)) condition.(Condition_RequiredClaims) ;?
  Ok ({[condition.(Condition_Action)]} ∪ conditions).

Definition validateContractReferences (contract : EngineeringWorkContract) : result AuthorityError () :=
  check_all (obligation_references contract) (range contract.(Contract_Obligations)) ;?
  for_each (condition_references contract) contract.(Contract_AuthorityConditions) ∅ ;?
  Ok tt.

Definition validate_bundle (kv : string * EvidenceBundle) : result AuthorityError () :=
  let '(id, bundle) := kv in
  refuse_if ((id ≟ "") || (id ≠? bundle.(Bundle_ID))) (BundleKeyMismatch id bundle.(Bundle_ID)) ;?
  wrap (InvalidEvidenceBundle id) (Encode_EvidenceBundle bundle).

Definition validateInput (input : AuthorityInput) : result AuthorityError () :=
  refuse_if ((input.(Input_DecisionID) ≟ "") || (input.(Input_DecisionRevision) ≟ "")) DecisionIdentityRequired ;?
  refuse_if ((input.(Input_Action).(Action_Type) ≟ "") || (input.(Input_Action).(Action_Target) ≟ "")) ActionRequired ;?
  refuse_if ((input.(Input_Capability) ≠? CapabilityAvailable) && (input.(Input_Capability) ≠? CapabilityUnavailable)
             && (input.(Input_Capability) ≠? CapabilityUnknown)) (UnsupportedCapability input.(Input_Capability)) ;?
  wrap InvalidContract (Encode_EngineeringWorkContract input.(Input_Contract)) ;?
  validateContractReferences input.(Input_Contract) ;?
  refuse_if ((input.(Input_ChangeProducer).(Producer_ID) ≟ "")
             || negb (knownProducerType input.(Input_ChangeProducer).(Producer_Type))) ChangeProducerRequired ;?
  check_all validate_bundle (range input.(Input_EvidenceBundles)).

(* ---------------------------------------------------------------- *)
(** ** The decision *)

Definition decisionBasis (bundles : gmap string EvidenceBundle) : gmap string RevisionReference :=
  copy_map (λ bundle, MkRevisionReference bundle.(Bundle_Revision)) bundles.

Definition requiredClaimsFor (contract : EngineeringWorkContract) (action : Action) : list string :=
  sorted_unique
    (concat (Condition_RequiredClaims <$>
               filter (λ condition, condition.(Condition_Action) = action) contract.(Contract_AuthorityConditions))
     ++ concat (Requirement_RequiredClaims <$>
               filter (λ obligation, obligation.(Requirement_Material) = true)
                 (range_values contract.(Contract_Obligations)))).

(** [!isClaim || claim.EvidenceClass != "human_approval"]. *)
Definition not_human_claim (claims : gmap string RequiredClaim) (requirement : string) : bool :=
  match claims !! requirement with
  | None => true
  | Some claim => claim.(RequiredClaim_EvidenceClass) ≠? human_approval
  end.

Definition statusFor (blocking stale missing : list string) (claims : gmap string RequiredClaim) : string :=
  if 0 <? length blocking then AuthorityBlocked
  else if 0 <? length stale then AuthorityStale
  else if length missing =? 0 then AuthorityAuthorized
  else if existsb (not_human_claim claims) missing then AuthorityIncomplete
  else AuthorityAwaitingAuthority.

Definition Evaluate (input : AuthorityInput) : result AuthorityError AuthorityDecision :=
  validateInput input ;?
  let contract := input.(Input_Contract) in
  let action := input.(Input_Action) in
  let permission := permissionFor contract action in
  let requiredClaims := requiredClaimsFor contract action in
  let classification := classifyClaims input requiredClaims in
  let blocking := classification.(blocking)
    ++ (if permission ≟ PermissionDenied then [permissionRequirement action] else [])
    ++ (if input.(Input_Capability) ≟ CapabilityUnavailable then [capabilityRequirement action] else []) in
  let missing := classification.(missing)
    ++ (if input.(Input_Capability) ≟ CapabilityUnknown then [capabilityRequirement action] else []) in
  let decision :=
    {| Decision_SchemaVersion := SchemaVersion;
       Decision_ID := input.(Input_DecisionID);
       Decision_Revision := input.(Input_DecisionRevision);
       Decision_Subject := contract.(Contract_Subject);
       Decision_Contract := MkObjectRevision contract.(Contract_ID) contract.(Contract_Revision);
       Decision_Basis := MkBasis (decisionBasis input.(Input_EvidenceBundles)) input.(Input_ChangeProducer);
       Decision_Action := action;
       Decision_Capability := MkCapability input.(Input_Capability);
       Decision_Permission := MkPermission permission;
       Decision_Status := statusFor (sorted_unique blocking) (sorted_unique classification.(stale))
                            (sorted_unique missing) contract.(Contract_RequiredClaims);
       Decision_Satisfied := sorted_unique classification.(satisfied);
       Decision_Missing := sorted_unique missing;
       Decision_Stale := sorted_unique classification.(stale);
       Decision_Blocking := sorted_unique blocking |} in
  wrap InvalidDecision (Encode_AuthorityDecision decision) ;?
  Ok decision.
End Authority.

(* ------------------------------------------------------------------ *)
(** * What the claim states mean *)

(** The items that bear on a claim: those of a bundle bound exactly to the
    contract, of the claim's class, human where the class says so. *)
Definition eligible_item (input : AuthorityInput) (claimID : string) (claim : RequiredClaim)
  (item : EvidenceItem) : Prop :=
  (∃ key bundle id, input.(Input_EvidenceBundles) !! key = Some bundle
     ∧ bundle.(Bundle_Subject) = input.(Input_Contract).(Contract_Subject)
     ∧ bundle.(Bundle_Contract) = contract_revision input.(Input_Contract)
     ∧ bundle.(Bundle_Policy) = input.(Input_Contract).(Contract_Provenance).(Provenance_Policy)
     ∧ bundle.(Bundle_Evidence) !! id = Some item)
  ∧ item.(Item_ClaimID) = claimID
  ∧ item.(Item_EvidenceClass) = claim.(RequiredClaim_EvidenceClass)
  ∧ (claim.(RequiredClaim_EvidenceClass) = human_approval → item.(Item_Producer).(Producer_Type) = ProducerHuman).

Definition stale_item (item : EvidenceItem) : Prop := item.(Item_Lifecycle).(Lifecycle_Status) = EvidenceStale.

Definition failing_item (item : EvidenceItem) : Prop :=
  item.(Item_Lifecycle).(Lifecycle_Status) = EvidenceValid ∧ item.(Item_Result).(Result_Status) = EvidenceFailed.

Definition passing_item (input : AuthorityInput) (claim : RequiredClaim) (item : EvidenceItem) : Prop :=
  item.(Item_Lifecycle).(Lifecycle_Status) = EvidenceValid ∧ item.(Item_Result).(Result_Status) = EvidencePassed
  ∧ (claim.(RequiredClaim_Independent) = true →
     item.(Item_Producer).(Producer_ID) ≠ input.(Input_ChangeProducer).(Producer_ID)).

Definition some_item input claimID claim (P : EvidenceItem → Prop) : Prop :=
  ∃ item, eligible_item input claimID claim item ∧ P item.

(** What [claimState] returns, without loops or flags. *)
Definition claim_state_spec input claimID claim (state : evidenceClaimState) : Prop :=
  let failing := some_item input claimID claim failing_item in
  let passing := some_item input claimID claim (passing_item input claim) in
  let stale := some_item input claimID claim stale_item in
  match state with
  | claimBlocked => failing
  | claimSatisfied => ¬ failing ∧ passing
  | claimStale => ¬ failing ∧ ¬ passing ∧ stale
  | claimMissing => ¬ failing ∧ ¬ passing ∧ ¬ stale
  end.

Section claim_states.
Context `{!MapRange}.
Variables (input : AuthorityInput) (claimID : string) (claim : RequiredClaim).

Definition scan_relevant (item : EvidenceItem) : Prop :=
  item.(Item_ClaimID) = claimID
  ∧ item.(Item_EvidenceClass) = claim.(RequiredClaim_EvidenceClass)
  ∧ (claim.(RequiredClaim_EvidenceClass) = human_approval → item.(Item_Producer).(Producer_Type) = ProducerHuman).

Definition scan_flags_spec (flag : claim_flags → bool) (P : EvidenceItem → Prop) : Prop :=
  ∀ flags item,
    flag (scan_item input.(Input_ChangeProducer).(Producer_ID) claimID claim flags item) = true
    ↔ flag flags = true ∨ (scan_relevant item ∧ P item).

#[local] Instance scan_relevant_dec item : Decision (scan_relevant item).
Proof. unfold scan_relevant. apply _. Defined.

Lemma scan_item_irrelevant flags item :
  ¬ scan_relevant item → scan_item input.(Input_ChangeProducer).(Producer_ID) claimID claim flags item = flags.
Proof.
  intros Hr. unfold scan_item.
  destruct (_ || _)%bool eqn:H1; [done|]. destruct (_ && _)%bool eqn:H2; [done|].
  destruct Hr. unfold scan_relevant. apply orb_false_iff in H1 as [H11 H12].
  apply negb_false_iff, bool_decide_eq_true in H11, H12.
  split_and!; [done|done|]. intros Hh. rewrite Hh, bool_decide_eq_true_2 in H2 by done.
  by apply negb_false_iff, bool_decide_eq_true in H2.
Qed.

Lemma scan_item_relevant flags item :
  scan_relevant item →
  scan_item input.(Input_ChangeProducer).(Producer_ID) claimID claim flags item
  = MkFlags (hasStale flags || bool_decide (stale_item item))
      (hasPassing flags || bool_decide (passing_item input claim item))
      (hasFailed flags || bool_decide (failing_item item)).
Proof.
  intros (Hc & He & Hh). unfold scan_item. rewrite Hc, He.
  rewrite !bool_decide_eq_true_2 by done. simpl.
  assert ((claim.(RequiredClaim_EvidenceClass) ≟ human_approval)
     && (item.(Item_Producer).(Producer_Type) ≠? ProducerHuman) = false) as ->.
  { case_bool_decide; [|done]. by rewrite bool_decide_eq_true_2 by auto. }
  unfold stale_item, passing_item, failing_item.
  destruct flags as [s p f]; simpl.
  destruct (decide (Lifecycle_Status (Item_Lifecycle item) = EvidenceStale)) as [Hs|Hs].
  { rewrite Hs, bool_decide_eq_true_2, orb_true_r by done.
    rewrite !bool_decide_eq_false_2 by (intros [? _]; done). by rewrite !orb_false_r. }
  rewrite bool_decide_eq_false_2, orb_false_r by done.
  destruct (decide (Lifecycle_Status (Item_Lifecycle item) = EvidenceValid)) as [Hv|Hv].
  - rewrite bool_decide_eq_true_2 by done. simpl. f_equal; [|f_equal; apply bool_decide_ext; tauto].
    f_equal. destruct (RequiredClaim_Independent claim); simpl; repeat case_bool_decide; simpl; naive_solver.
  - rewrite bool_decide_eq_false_2 by done. simpl.
    rewrite !bool_decide_eq_false_2 by (intros [? _]; done). by rewrite !orb_false_r.
Qed.

Lemma scan_flag (flag : claim_flags → bool) (P : EvidenceItem → Prop) `{!∀ item, Decision (P item)} :
  (∀ item flags, scan_relevant item →
     flag (scan_item input.(Input_ChangeProducer).(Producer_ID) claimID claim flags item)
     = flag flags || bool_decide (P item)) →
  scan_flags_spec flag P.
Proof.
  intros Hf flags item. destruct (decide (scan_relevant item)) as [Hr|Hr].
  - rewrite Hf by done. reflect_bools. tauto.
  - rewrite scan_item_irrelevant by done. tauto.
Qed.

(** The flags accumulate over every bundle that is bound to the contract. *)
Lemma claim_flags_spec (flag : claim_flags → bool) (P : EvidenceItem → Prop) :
  scan_flags_spec flag P → flag (MkFlags false false false) = false →
  flag (fold_left (scan_bundle input claimID claim) (range_values input.(Input_EvidenceBundles))
          (MkFlags false false false)) = true
  ↔ some_item input claimID claim P.
Proof.
  intros Hf H0.
  rewrite (fold_left_flag (scan_bundle input claimID claim) flag
    (λ bundle, matchesContractBinding bundle input.(Input_Contract) = true
       ∧ ∃ item, item ∈ range_values bundle.(Bundle_Evidence) ∧ scan_relevant item ∧ P item)).
  - rewrite H0. setoid_rewrite elem_of_range_values.
    unfold some_item, eligible_item, matchesContractBinding, contract_revision, scan_relevant.
    reflect_bools. naive_solver.
  - intros s bundle. unfold scan_bundle. destruct (matchesContractBinding _ _); simpl; [|naive_solver].
    rewrite (fold_left_flag _ flag (λ item, scan_relevant item ∧ P item)) by apply Hf. naive_solver.
Qed.
End claim_states.

Section decision.
Context `{!MapRange}.

Lemma claimState_ok input claimID claim :
  claim_state_spec input claimID claim (claimState input claimID claim).
Proof.
  pose proof (claim_flags_spec input claimID claim hasStale stale_item) as Hs.
  pose proof (claim_flags_spec input claimID claim hasPassing (passing_item input claim)) as Hp.
  pose proof (claim_flags_spec input claimID claim hasFailed failing_item) as Hf.
  specialize (Hs (scan_flag input claimID claim hasStale stale_item ltac:(intros; by rewrite scan_item_relevant)) eq_refl).
  specialize (Hp (scan_flag input claimID claim hasPassing (passing_item input claim) ltac:(intros; by rewrite scan_item_relevant)) eq_refl).
  specialize (Hf (scan_flag input claimID claim hasFailed failing_item ltac:(intros; by rewrite scan_item_relevant)) eq_refl).
  unfold claimState.
  destruct (fold_left _ _ _) as [s p f]. simpl in *.
  destruct f, p, s; simpl; naive_solver.
Qed.

(** The four states exclude each other, so the specification determines
    the state. *)
Lemma claim_state_spec_fun input claimID claim s1 s2 :
  claim_state_spec input claimID claim s1 → claim_state_spec input claimID claim s2 → s1 = s2.
Proof. destruct s1, s2; simpl; naive_solver. Qed.

Lemma claimState_iff input claimID claim s :
  claimState input claimID claim = s ↔ claim_state_spec input claimID claim s.
Proof.
  split; [intros <-; apply claimState_ok|]. intros Hs.
  eapply claim_state_spec_fun; [apply claimState_ok|done].
Qed.

Definition state_of (input : AuthorityInput) (claimID : string) : evidenceClaimState :=
  claimState input claimID (claim_or_zero input.(Input_Contract).(Contract_RequiredClaims) claimID).

Lemma classifyClaims_filter input claimIDs :
  classifyClaims input claimIDs =
  MkClassification (filter (λ c, state_of input c = claimSatisfied) claimIDs)
    (filter (λ c, state_of input c = claimMissing) claimIDs)
    (filter (λ c, state_of input c = claimStale) claimIDs)
    (filter (λ c, state_of input c = claimBlocked) claimIDs).
Proof.
  unfold classifyClaims.
  assert (∀ acc, fold_left (classify_one input) claimIDs acc =
    MkClassification (acc.(satisfied) ++ filter (λ c, state_of input c = claimSatisfied) claimIDs)
      (acc.(missing) ++ filter (λ c, state_of input c = claimMissing) claimIDs)
      (acc.(stale) ++ filter (λ c, state_of input c = claimStale) claimIDs)
      (acc.(blocking) ++ filter (λ c, state_of input c = claimBlocked) claimIDs)) as Hacc; [|apply Hacc].
  induction claimIDs as [|c l IH]; intros acc; simpl.
  { rewrite !app_nil_r. by destruct acc. }
  rewrite IH, !filter_cons. unfold classify_one. fold (state_of input c).
  destruct (state_of input c); simpl; repeat (case_decide; [|done] || case_decide; [done|]); simpl;
    by rewrite <- ?app_assoc.
Qed.

(** The claims an action depends on. *)
Definition required_for (contract : EngineeringWorkContract) (action : Action) (claimID : string) : Prop :=
  (∃ condition, condition ∈ contract.(Contract_AuthorityConditions)
     ∧ condition.(Condition_Action) = action ∧ claimID ∈ condition.(Condition_RequiredClaims))
  ∨ (∃ id obligation, contract.(Contract_Obligations) !! id = Some obligation
     ∧ obligation.(Requirement_Material) = true ∧ claimID ∈ obligation.(Requirement_RequiredClaims)).

Lemma elem_of_requiredClaimsFor contract action claimID :
  claimID ∈ requiredClaimsFor contract action ↔ required_for contract action claimID.
Proof.
  unfold requiredClaimsFor, required_for. rewrite elem_of_sorted_unique, elem_of_app, !elem_of_concat.
  setoid_rewrite list_elem_of_fmap.
  setoid_rewrite list_elem_of_filter. setoid_rewrite elem_of_range_values. naive_solver.
Qed.

Lemma permissionFor_granted contract action :
  permissionFor contract action = PermissionGranted
  ↔ action ∈ contract.(Contract_Permissions) ∧ action ∉ contract.(Contract_Prohibitions).
Proof.
  unfold permissionFor.
  destruct (existsb _ (Contract_Prohibitions _)) eqn:Hp;
    [|destruct (existsb _ (Contract_Permissions _)) eqn:Hq].
  - apply existsb_elem in Hp as (a & Ha & ->%bool_decide_eq_true). split; [done|]. naive_solver.
  - apply existsb_elem in Hq as (a & Ha & ->%bool_decide_eq_true). split; [|done]. intros _. split; [done|].
    intros Hin. apply not_true_iff_false in Hp. apply Hp, existsb_elem. exists action.
    by rewrite bool_decide_eq_true_2.
  - split; [done|]. intros [Hin _]. apply not_true_iff_false in Hq. destruct Hq. apply existsb_elem.
    exists action. by rewrite bool_decide_eq_true_2.
Qed.
End decision.

(* ------------------------------------------------------------------ *)
(** * Decisions *)

Section evaluate.
Context `{!MapRange, !SchemaValidator}.

(** Every claim an action requires is one the contract defines. *)
Lemma validateContractReferences_defined contract action claimID :
  validateContractReferences contract = Ok tt → required_for contract action claimID →
  is_Some (contract.(Contract_RequiredClaims) !! claimID).
Proof.
  unfold validateContractReferences. intros Hv. invert_ok.
  match goal with H : check_all _ _ = Ok _ |- _ => rename H into Hobl end.
  match goal with H : for_each _ _ _ = Ok _ |- _ => rename H into Hcond end.
  rewrite <- not_eq_None_Some. intros [(condition & Hin & <- & Hc)|(id & obligation & Hl & Hm & Hc)] Hnone.
  - eapply (for_each_establish _ (λ _, False)); [exact Hin| |done|exact Hcond].
    intros s1 s2 Hs. unfold condition_references in Hs. invert_ok.
    match goal with H : check_all _ _ = Ok _ |- _ => rewrite check_all_ok in H; specialize (H _ Hc) end.
    invert_ok. by rewrite bool_decide_eq_true_2 in *.
  - rewrite check_all_ok in Hobl. specialize (Hobl (id, obligation)).
    rewrite elem_of_range in Hobl. specialize (Hobl Hl). simpl in Hobl. rewrite Hm in Hobl. simpl in Hobl.
    invert_ok. rewrite check_all_ok in Hobl. specialize (Hobl _ Hc). invert_ok.
    by rewrite bool_decide_eq_true_2 in Hobl.
Qed.

(** A material obligation with nothing to discharge it is refused. *)
Lemma validateContractReferences_discharged contract id obligation :
  validateContractReferences contract = Ok tt → contract.(Contract_Obligations) !! id = Some obligation →
  obligation.(Requirement_Material) = true → obligation.(Requirement_RequiredClaims) ≠ [].
Proof.
  unfold validateContractReferences. intros Hv Hl Hm. invert_ok.
  match goal with H : check_all _ _ = Ok _ |- _ =>
    rewrite check_all_ok in H; specialize (H (id, obligation)); rewrite elem_of_range in H; specialize (H Hl) end.
  simpl in *. rewrite Hm in *. simpl in *. invert_ok. by destruct (Requirement_RequiredClaims obligation).
Qed.

(** Conversely, well-formed references are accepted. *)
Lemma validateContractReferences_intro contract :
  (∀ id obligation, contract.(Contract_Obligations) !! id = Some obligation →
     obligation.(Requirement_Material) = true →
     obligation.(Requirement_RequiredClaims) ≠ []
     ∧ ∀ c, c ∈ obligation.(Requirement_RequiredClaims) → is_Some (contract.(Contract_RequiredClaims) !! c)) →
  NoDup (Condition_Action <$> contract.(Contract_AuthorityConditions)) →
  (∀ condition c, condition ∈ contract.(Contract_AuthorityConditions) →
     c ∈ condition.(Condition_RequiredClaims) → is_Some (contract.(Contract_RequiredClaims) !! c)) →
  validateContractReferences contract = Ok tt.
Proof.
  intros Hobl Hnd Hcond. unfold validateContractReferences. apply rbind_ok. exists tt. split.
  - apply check_all_ok. intros [id obligation] Hl%elem_of_range. simpl.
    destruct (Requirement_Material obligation) eqn:Hm; [|done]. simpl.
    destruct (Hobl _ _ Hl Hm) as [Hne Hd]. apply rbind_ok. exists tt.
    split; [by apply refuse_if_ok; destruct (Requirement_RequiredClaims obligation)|].
    apply check_all_ok. intros c Hc. apply refuse_if_ok, bool_decide_eq_false_2, not_eq_None_Some. auto.
  - cut (∀ conditions seen, NoDup (Condition_Action <$> conditions) →
      (∀ condition, condition ∈ conditions → condition.(Condition_Action) ∉ seen) →
      (∀ condition c, condition ∈ conditions →
         c ∈ condition.(Condition_RequiredClaims) → is_Some (contract.(Contract_RequiredClaims) !! c)) →
      ∃ s, for_each (condition_references contract) conditions seen = Ok s).
    { intros HH. destruct (HH (Contract_AuthorityConditions contract) ∅) as [s ->]; [done|set_solver|done|done]. }
    clear. induction conditions as [|x l IH]; intros seen Hnd Hseen Hd; simpl; [by eauto|].
    apply NoDup_cons in Hnd as [Hx Hnd]. unfold condition_references at 1.
    rewrite bool_decide_eq_false_2 by (apply Hseen; constructor). simpl.
    assert (check_all (λ claimID, refuse_if (bool_decide (contract.(Contract_RequiredClaims) !! claimID = None))
        (ConditionUndefinedClaim x.(Condition_Action) claimID)) x.(Condition_RequiredClaims) = Ok tt) as ->.
    { apply check_all_ok. intros c Hc. apply refuse_if_ok, bool_decide_eq_false_2, not_eq_None_Some.
      eapply Hd; [constructor|done]. }
    simpl. apply IH; [done| |intros; eapply Hd; [by constructor|done]].
    intros y Hy. rewrite elem_of_union, elem_of_singleton. intros [He|He].
    + apply Hx. rewrite <- He. by apply list_elem_of_fmap_2.
    + eapply Hseen; [|done]. by constructor.
Qed.

Lemma Evaluate_inv input d :
  Evaluate input = Ok d →
  validateInput input = Ok tt
  ∧ d.(Decision_Permission).(Permission_Status) = permissionFor input.(Input_Contract) input.(Input_Action)
  ∧ (∀ c, c ∈ d.(Decision_Satisfied)
       ↔ required_for input.(Input_Contract) input.(Input_Action) c ∧ state_of input c = claimSatisfied)
  ∧ (∀ c, c ∈ d.(Decision_Stale)
       ↔ required_for input.(Input_Contract) input.(Input_Action) c ∧ state_of input c = claimStale)
  ∧ (∀ c, c ∈ d.(Decision_Missing)
       ↔ (required_for input.(Input_Contract) input.(Input_Action) c ∧ state_of input c = claimMissing)
         ∨ (input.(Input_Capability) = CapabilityUnknown ∧ c = capabilityRequirement input.(Input_Action)))
  ∧ (∀ c, c ∈ d.(Decision_Blocking)
       ↔ (required_for input.(Input_Contract) input.(Input_Action) c ∧ state_of input c = claimBlocked)
         ∨ (permissionFor input.(Input_Contract) input.(Input_Action) = PermissionDenied
            ∧ c = permissionRequirement input.(Input_Action))
         ∨ (input.(Input_Capability) = CapabilityUnavailable ∧ c = capabilityRequirement input.(Input_Action)))
  ∧ d.(Decision_Status) = statusFor d.(Decision_Blocking) d.(Decision_Stale) d.(Decision_Missing)
       input.(Input_Contract).(Contract_RequiredClaims).
Proof.
  unfold Evaluate. intros He. invert_ok. rewrite classifyClaims_filter. simpl.
  split_and!; [done|done|intros c..|done];
    rewrite elem_of_sorted_unique, ?elem_of_app, list_elem_of_filter, elem_of_requiredClaimsFor, ?elem_of_if; tauto.
Qed.

Lemma length_pos_ne {A} (l : list A) : (0 <? length l) = true ↔ l ≠ [].
Proof. destruct l; simpl; split; done. Qed.

Lemma empty_iff (l : list string) (P : string → Prop) : (∀ c, c ∈ l ↔ P c) → (l = [] ↔ ∀ c, ¬ P c).
Proof.
  intros Hl. split.
  - intros -> c Hc%Hl. by apply not_elem_of_nil in Hc.
  - intros Hc. destruct l as [|c l]; [done|]. destruct (Hc c). apply Hl. constructor.
Qed.

Lemma statusFor_authorized blocking stale missing claims :
  statusFor blocking stale missing claims = AuthorityAuthorized ↔ blocking = [] ∧ stale = [] ∧ missing = [].
Proof.
  unfold statusFor. destruct blocking, stale, missing as [|m l]; simpl; try naive_solver.
  destruct (_ || _)%bool; naive_solver.
Qed.

(** What an authorization rests on. *)
Lemma authorized_satisfied input d c :
  Evaluate input = Ok d → d.(Decision_Status) = AuthorityAuthorized →
  required_for input.(Input_Contract) input.(Input_Action) c → state_of input c = claimSatisfied.
Proof.
  intros (_ & _ & _ & Hstale & Hmiss & Hblock & ->)%Evaluate_inv.
  rewrite statusFor_authorized, (empty_iff _ _ Hstale), (empty_iff _ _ Hmiss), (empty_iff _ _ Hblock).
  intros (Hb & Hs & Hm) Hc. destruct (state_of input c) eqn:Hst; [|done|..]; exfalso;
    [apply (Hm c)|apply (Hb c)|apply (Hs c)]; auto.
Qed.

Lemma authorized_granted input d :
  Evaluate input = Ok d → d.(Decision_Status) = AuthorityAuthorized →
  input.(Input_Action) ∈ input.(Input_Contract).(Contract_Permissions).
Proof.
  intros (_ & _ & _ & Hstale & Hmiss & Hblock & ->)%Evaluate_inv.
  rewrite statusFor_authorized, (empty_iff _ _ Hblock). intros (Hb & _ & _).
  assert (permissionFor (Input_Contract input) (Input_Action input) ≠ PermissionDenied) as Hp.
  { intros Hp. apply (Hb (permissionRequirement (Input_Action input))). auto. }
  apply permissionFor_granted. unfold permissionFor in *.
  destruct (existsb _ _); [done|]. by destruct (existsb _ _).
Qed.
End evaluate.

Section theorems.
Context `{!MapRange, !SchemaValidator}.

(** C11: an action is authorized exactly when the contract permits it and
    does not prohibit it, the capability is available, and every claim its
    condition or a material obligation requires is defined, has valid
    passing evidence bound exactly to the contract (human where the class
    demands it, independent of the change producer where the claim demands
    it), and has no valid failing evidence. *)
Theorem Evaluate_authorized_iff input d :
  Evaluate input = Ok d →
  d.(Decision_Status) = AuthorityAuthorized
  ↔ input.(Input_Action) ∈ input.(Input_Contract).(Contract_Permissions)
    ∧ input.(Input_Action) ∉ input.(Input_Contract).(Contract_Prohibitions)
    ∧ input.(Input_Capability) = CapabilityAvailable
    ∧ ∀ c, required_for input.(Input_Contract) input.(Input_Action) c →
        ∃ claim, input.(Input_Contract).(Contract_RequiredClaims) !! c = Some claim
          ∧ some_item input c claim (passing_item input claim)
          ∧ ¬ some_item input c claim failing_item.
Proof.
  intros (Hv & _ & _ & Hstale & Hmiss & Hblock & ->)%Evaluate_inv.
  rewrite statusFor_authorized, (empty_iff _ _ Hstale), (empty_iff _ _ Hmiss), (empty_iff _ _ Hblock).
  assert (∀ c, required_for (Input_Contract input) (Input_Action input) c →
            is_Some (input.(Input_Contract).(Contract_RequiredClaims) !! c)) as Hdef.
  { intros c. apply validateContractReferences_defined. unfold validateInput in Hv. by invert_ok. }
  assert (permissionFor (Input_Contract input) (Input_Action input) = PermissionDenied
          ↔ ¬ (input.(Input_Action) ∈ input.(Input_Contract).(Contract_Permissions)
               ∧ input.(Input_Action) ∉ input.(Input_Contract).(Contract_Prohibitions))) as Hperm.
  { rewrite <- permissionFor_granted. unfold permissionFor.
    destruct (existsb _ _); [split; done|]. destruct (existsb _ _); split; try done. }
  assert (input.(Input_Capability) = CapabilityAvailable
          ↔ input.(Input_Capability) ≠ CapabilityUnavailable ∧ input.(Input_Capability) ≠ CapabilityUnknown) as Hcap.
  { unfold validateInput in Hv. invert_ok. reflect_bools.
    split; [by intros ->|]. intros [? ?].
    destruct (decide (Input_Capability input = CapabilityAvailable)); [done|]. exfalso. tauto. }
  assert (∀ c, required_for (Input_Contract input) (Input_Action input) c →
    (state_of input c = claimSatisfied ↔
     ∃ claim, input.(Input_Contract).(Contract_RequiredClaims) !! c = Some claim
          ∧ some_item input c claim (passing_item input claim)
          ∧ ¬ some_item input c claim failing_item)) as Hsat.
  { intros c Hc. destruct (Hdef c Hc) as [claim Hl]. unfold state_of, claim_or_zero. rewrite Hl. simpl.
    rewrite claimState_iff. simpl. split; [naive_solver|]. intros (claim' & [= <-] & ?). tauto. }
  rewrite Hcap. split.
  - intros (Hb & Hs & Hm). split_and!.
    + destruct (decide (input.(Input_Action) ∈ input.(Input_Contract).(Contract_Permissions))); [done|].
      destruct (Hb (permissionRequirement (Input_Action input))). right; left. rewrite Hperm. naive_solver.
    + intros Hin. destruct (Hb (permissionRequirement (Input_Action input))). right; left. rewrite Hperm. naive_solver.
    + intros Hc. destruct (Hb (capabilityRequirement (Input_Action input))). tauto.
    + intros Hc. destruct (Hm (capabilityRequirement (Input_Action input))). tauto.
    + intros c Hc. apply Hsat; [done|]. destruct (state_of input c) eqn:Hst; [|done|..];
        exfalso; [destruct (Hm c)|destruct (Hb c)|destruct (Hs c)]; tauto.
  - intros (Hp & Hnp & [Hc1 Hc2] & Hall).
    assert (∀ c, required_for (Input_Contract input) (Input_Action input) c →
      state_of input c = claimSatisfied) as Hst by (intros c Hc; apply Hsat; auto).
    split_and!; intros c Hc; rewrite ?Hperm in Hc;
      pose proof (Hst c) as Hstc; destruct (state_of input c); naive_solver.
Qed.

(** The status is decided by severity: blocked when a required claim
    fails, permission is denied or the capability is unavailable; otherwise
    stale when a required claim only has stale evidence; otherwise awaiting
    authority when all that is missing is human approval. *)
Theorem Evaluate_status input d :
  Evaluate input = Ok d →
  let required := required_for input.(Input_Contract) input.(Input_Action) in
  let blocked := (∃ c, required c ∧ state_of input c = claimBlocked)
    ∨ permissionFor input.(Input_Contract) input.(Input_Action) = PermissionDenied
    ∨ input.(Input_Capability) = CapabilityUnavailable in
  let some_stale := ∃ c, required c ∧ state_of input c = claimStale in
  (d.(Decision_Status) = AuthorityBlocked ↔ blocked)
  ∧ (d.(Decision_Status) = AuthorityStale ↔ ¬ blocked ∧ some_stale)
  ∧ (d.(Decision_Status) = AuthorityAwaitingAuthority →
       ¬ blocked ∧ ¬ some_stale
       ∧ ∀ c, required c → state_of input c ≠ claimSatisfied →
           RequiredClaim_EvidenceClass <$> (input.(Input_Contract).(Contract_RequiredClaims) !! c)
           = Some human_approval).
Proof.
  intros (_ & _ & _ & Hstale & Hmiss & Hblock & ->)%Evaluate_inv. simpl.
  match goal with |- (_ ↔ ?B) ∧ (_ ↔ _ ∧ ?S) ∧ _ => set (blocked := B); set (some_stale := S) end.
  assert (Decision_Blocking d ≠ [] ↔ blocked) as Hb.
  { unfold blocked. rewrite (empty_iff _ _ Hblock). split.
    - intros Hn. destruct (Decision_Blocking d) as [|c l] eqn:Hd.
      + destruct Hn. intros c. rewrite <- Hblock. by intros ?%not_elem_of_nil.
      + destruct (proj1 (Hblock c)) as [?|[?|?]]; [constructor|naive_solver..].
    - intros [(c & ?)|[?|?]] Hn; eapply Hn; eauto. }
  assert (Decision_Stale d ≠ [] ↔ some_stale) as Hs.
  { unfold some_stale. rewrite (empty_iff _ _ Hstale). split; [|naive_solver].
    intros Hn. destruct (Decision_Stale d) as [|c l] eqn:Hd.
    + destruct Hn. intros c. rewrite <- Hstale. by intros ?%not_elem_of_nil.
    + destruct (proj1 (Hstale c)); [constructor|eauto]. }
  unfold statusFor. rewrite <- Hb, <- Hs.
  destruct (Decision_Blocking d) as [|b lb] eqn:Eb; [|simpl; naive_solver].
  destruct (Decision_Stale d) as [|s ls] eqn:Es; [|simpl; naive_solver].
  simpl. destruct (Decision_Missing d) as [|m lm] eqn:Em; [simpl; naive_solver|].
  destruct (existsb _ _) eqn:Eh; [simpl; naive_solver|]. simpl. split_and!; [naive_solver..|].
  intros _. split_and!; [naive_solver..|]. intros c Hc Hst.
  assert (c ∈ m :: lm) as Hin.
  { apply Hmiss. destruct (state_of input c) eqn:Hsc; [by left|done|..]; exfalso.
    - apply (not_elem_of_nil c), Hblock. by left.
    - apply (not_elem_of_nil c), Hstale. done. }
  apply not_true_iff_false in Eh. rewrite existsb_elem in Eh.
  destruct (not_human_claim (Contract_RequiredClaims (Input_Contract input)) c) eqn:Hh; [naive_solver|].
  unfold not_human_claim in Hh. destruct (_ !! c); [|done]. simpl.
  apply negb_false_iff, bool_decide_eq_true in Hh. by rewrite Hh.
Qed.
End theorems.

(* ------------------------------------------------------------------ *)
(** * Determinism *)

Section order.
Variables (R1 R2 : MapRange) (S : SchemaValidator).

Lemma claimState_order input claimID claim :
  @claimState R1 input claimID claim = @claimState R2 input claimID claim.
Proof. apply (@claimState_iff R1), (@claimState_ok R2). Qed.

Lemma requiredClaimsFor_order contract action :
  @requiredClaimsFor R1 contract action = @requiredClaimsFor R2 contract action.
Proof.
  unfold requiredClaimsFor. apply sorted_unique_ext. intros c.
  rewrite <- (@elem_of_sorted_unique _ (_ ++ concat (_ <$> filter _ (@range_values R1 _ _ _ _ _)))).
  rewrite <- (@elem_of_sorted_unique _ (_ ++ concat (_ <$> filter _ (@range_values R2 _ _ _ _ _)))).
  fold (@requiredClaimsFor R1 contract action) (@requiredClaimsFor R2 contract action).
  by rewrite (@elem_of_requiredClaimsFor R1), (@elem_of_requiredClaimsFor R2).
Qed.

Lemma classifyClaims_order input claimIDs :
  @classifyClaims R1 input claimIDs = @classifyClaims R2 input claimIDs.
Proof.
  unfold classifyClaims. apply (fold_left_ext _ _ claimIDs).
  intros acc c. unfold classify_one. by rewrite claimState_order.
Qed.

Lemma validateContractReferences_order contract :
  @validateContractReferences R1 contract = Ok tt ↔ @validateContractReferences R2 contract = Ok tt.
Proof.
  unfold validateContractReferences. apply rbind_ok_ext; [|done].
  intros []. apply (check_range_order R1 R2).
Qed.

Lemma validateInput_order input :
  @validateInput R1 S input = Ok tt ↔ @validateInput R2 S input = Ok tt.
Proof.
  unfold validateInput. do 4 (apply rbind_ok_ext; [done|intros _ _]).
  apply rbind_ok_ext; [intros []; apply validateContractReferences_order|intros _ _].
  apply rbind_ok_ext; [done|intros _ _]. apply (check_range_order R1 R2).
Qed.
End order.

(** The decision does not depend on the order in which Go iterates the
    maps of evidence, obligations or bundles: two evaluations of one input
    accept the same inputs and return the same decision. *)
Theorem Evaluate_order (R1 R2 : MapRange) (S : SchemaValidator) input d :
  @Evaluate R1 S input = Ok d ↔ @Evaluate R2 S input = Ok d.
Proof.
  unfold Evaluate. rewrite (requiredClaimsFor_order R1 R2), (classifyClaims_order R1 R2).
  unfold decisionBasis. rewrite (@copy_map_fmap R1), (@copy_map_fmap R2).
  apply rbind_ok_ext; [|done]. intros []. apply (validateInput_order R1 R2).
Qed.

Definition without_bundle (input : AuthorityInput) (key : string) : AuthorityInput :=
  {| Input_DecisionID := input.(Input_DecisionID);
     Input_DecisionRevision := input.(Input_DecisionRevision);
     Input_Contract := input.(Input_Contract);
     Input_Action := input.(Input_Action);
     Input_Capability := input.(Input_Capability);
     Input_ChangeProducer := input.(Input_ChangeProducer);
     Input_EvidenceBundles := delete key input.(Input_EvidenceBundles) |}.

Lemma foreign_bundle_state `{!MapRange} input key bundle :
  input.(Input_EvidenceBundles) !! key = Some bundle →
  matchesContractBinding bundle input.(Input_Contract) = false →
  ∀ c claim, claimState (without_bundle input key) c claim = claimState input c claim.
Proof.
  intros Hl Hm c claim. apply claimState_iff.
  assert (∀ P, some_item (without_bundle input key) c claim P ↔ some_item input c claim P) as Hsome.
  { intros P. unfold some_item, eligible_item. simpl. split.
    - intros (item & ((k & b & id & Hk & ?) & ?) & ?). rewrite lookup_delete_Some in Hk. naive_solver.
    - intros (item & ((k & b & id & Hk & Hs & Hc & Hp & ?) & ?) & ?). exists item. split; [|done]. split; [|done].
      exists k, b, id. rewrite lookup_delete_Some. split_and!; try done. intros ->.
      rewrite Hl in Hk. injection Hk as ->.
      unfold matchesContractBinding in Hm. fold (contract_revision (Input_Contract input)) in Hm.
      by rewrite !bool_decide_eq_true_2 in Hm by done. }
  pose proof (claimState_ok input c claim) as Hok.
  destruct (claimState input c claim); simpl in *; rewrite !Hsome; exact Hok.
Qed.

(** Evidence bound to another subject, contract or policy is absent:
    removing such a bundle changes nothing of the decision but its recorded
    basis. *)
Theorem Evaluate_foreign_evidence `{!MapRange, !SchemaValidator} input key bundle d d' :
  input.(Input_EvidenceBundles) !! key = Some bundle →
  matchesContractBinding bundle input.(Input_Contract) = false →
  Evaluate input = Ok d → Evaluate (without_bundle input key) = Ok d' →
  d'.(Decision_Status) = d.(Decision_Status) ∧ d'.(Decision_Satisfied) = d.(Decision_Satisfied)
  ∧ d'.(Decision_Missing) = d.(Decision_Missing) ∧ d'.(Decision_Stale) = d.(Decision_Stale)
  ∧ d'.(Decision_Blocking) = d.(Decision_Blocking).
Proof.
  intros Hl Hm. unfold Evaluate. intros Hd Hd'. invert_ok. simpl.
  assert (∀ cs, classifyClaims (without_bundle input key) cs = classifyClaims input cs) as ->; [|done].
  intros cs. unfold classifyClaims. apply (fold_left_ext _ _ cs). intros acc c. unfold classify_one. simpl.
  by rewrite (foreign_bundle_state _ _ _ Hl Hm).
Qed.

(* ------------------------------------------------------------------ *)
(** * Concrete decisions *)

Definition publish : Action := MkAction "publish" "main".

Definition example_contract : EngineeringWorkContract :=
  {| Contract_SchemaVersion := SchemaVersion; Contract_ID := "contract"; Contract_Revision := "1";
     Contract_Objective := "change"; Contract_AcceptanceIntent := [];
     Contract_Subject := MkSubject "repo" "r1";
     Contract_Scope := MkContractScope StagePredicted [] [];
     Contract_Facts := []; Contract_Invariants := ∅;
     Contract_Obligations := <["acceptance" := MkRequirement "works" ["tests"] true]> ∅;
     Contract_RequiredClaims :=
       <["tests" := MkRequiredClaim "unit_test" true]> (<["approval" := MkRequiredClaim human_approval false]> ∅);
     Contract_Permissions := [publish]; Contract_Prohibitions := [];
     Contract_AuthorityConditions := [MkAuthorityCondition publish ["approval"]];
     Contract_PlanRequirements := None;
     Contract_Provenance := MkContractProvenance (MkObjectRevision "model" "1") (MkObjectRevision "policy" "1") "v" None |}.

Definition evidence_item (claim cls producer kind : string) : EvidenceItem :=
  {| Item_ClaimID := claim; Item_EvidenceClass := cls; Item_Producer := MkProducer producer kind;
     Item_Environment := MkEnvironment "ci" "linux" None;
     Item_Result := MkEvidenceResult EvidencePassed None;
     Item_Lifecycle := MkLifecycle EvidenceValid None;
     Item_Provenance := MkEvidenceProvenance "ci" "2026-01-01T00:00:00Z" None |}.

Definition bundle_of (key policy : string) (evidence : gmap string EvidenceItem) : EvidenceBundle :=
  {| Bundle_SchemaVersion := SchemaVersion; Bundle_ID := key; Bundle_Revision := "1";
     Bundle_Subject := MkSubject "repo" "r1"; Bundle_Contract := MkObjectRevision "contract" "1";
     Bundle_Policy := MkObjectRevision "policy" policy; Bundle_Evidence := evidence |}.

Definition test_evidence : gmap string EvidenceItem :=
  <["t" := evidence_item "tests" "unit_test" "ci" ProducerDeterministicTool]> ∅.

Definition approval_evidence (kind : string) : gmap string EvidenceItem :=
  <["a" := evidence_item "approval" human_approval "alice" kind]> ∅.

Definition input_with (bundles : gmap string EvidenceBundle) : AuthorityInput :=
  {| Input_DecisionID := "decision"; Input_DecisionRevision := "1"; Input_Contract := example_contract;
     Input_Action := publish; Input_Capability := CapabilityAvailable;
     Input_ChangeProducer := MkProducer "agent" ProducerExecutionProvider;
     Input_EvidenceBundles := bundles |}.

Definition approved_input : AuthorityInput :=
  input_with (<["b1" := bundle_of "b1" "1" test_evidence]>
             (<["b2" := bundle_of "b2" "1" (approval_evidence ProducerHuman)]> ∅)).

(** The same run, approved by a tool that used the human class. *)
Definition unapproved_input : AuthorityInput :=
  input_with (<["b1" := bundle_of "b1" "1" test_evidence]>
             (<["b2" := bundle_of "b2" "1" (approval_evidence ProducerDeterministicTool)]> ∅)).

(** An approval given under another policy revision. *)
Definition foreign_input : AuthorityInput :=
  input_with (<["b1" := bundle_of "b1" "1" test_evidence]>
             (<["b2" := bundle_of "b2" "2" (approval_evidence ProducerHuman)]> ∅)).

Definition decision_zero : AuthorityDecision :=
  {| Decision_SchemaVersion := ""; Decision_ID := ""; Decision_Revision := ""; Decision_Subject := MkSubject "" "";
     Decision_Contract := MkObjectRevision "" ""; Decision_Basis := MkBasis ∅ (MkProducer "" "");
     Decision_Action := MkAction "" ""; Decision_Capability := MkCapability "";
     Decision_Permission := MkPermission ""; Decision_Status := ""; Decision_Satisfied := [];
     Decision_Missing := []; Decision_Stale := []; Decision_Blocking := [] |}.

Definition decide_example (input : AuthorityInput) : AuthorityDecision :=
  ok_or decision_zero (@Evaluate range_forward accept_all input).

Lemma Evaluate_authorized_iff_witness :
  publish ∈ example_contract.(Contract_Permissions)
  ∧ ∀ c, required_for example_contract publish c →
      ∃ claim, example_contract.(Contract_RequiredClaims) !! c = Some claim
        ∧ some_item approved_input c claim (passing_item approved_input claim)
        ∧ ¬ some_item approved_input c claim failing_item.
Proof.
  assert (@Evaluate range_forward accept_all approved_input = Ok (decide_example approved_input)) as He
    by (apply ok_or_eq; vm_compute; reflexivity).
  assert ((decide_example approved_input).(Decision_Status) = AuthorityAuthorized) as Hs
    by (vm_compute; reflexivity).
  destruct (proj1 (@Evaluate_authorized_iff range_forward accept_all _ _ He) Hs) as (Hp & _ & _ & Hall).
  split; [exact Hp|exact Hall].
Defined.

Lemma Evaluate_status_witness :
  (decide_example unapproved_input).(Decision_Status) = AuthorityAwaitingAuthority
  ∧ ¬ (∃ c, required_for example_contract publish c ∧ @state_of range_forward unapproved_input c = claimStale).
Proof.
  assert (@Evaluate range_forward accept_all unapproved_input = Ok (decide_example unapproved_input)) as He
    by (apply ok_or_eq; vm_compute; reflexivity).
  assert ((decide_example unapproved_input).(Decision_Status) = AuthorityAwaitingAuthority) as Hs
    by (vm_compute; reflexivity).
  split; [exact Hs|].
  destruct (@Evaluate_status range_forward accept_all _ _ He) as (_ & _ & Haw).
  exact (proj1 (proj2 (Haw Hs))).
Defined.

Lemma Evaluate_foreign_evidence_witness :
  (decide_example foreign_input).(Decision_Status) = AuthorityAwaitingAuthority
  ∧ (decide_example (without_bundle foreign_input "b2")).(Decision_Status)
    = (decide_example foreign_input).(Decision_Status).
Proof.
  assert (∀ i, is_ok (@Evaluate range_forward accept_all i) = true →
    @Evaluate range_forward accept_all i = Ok (decide_example i)) as Hi by (intros i; apply ok_or_eq).
  split; [vm_compute; reflexivity|].
  refine (proj1 (@Evaluate_foreign_evidence range_forward accept_all foreign_input "b2"
    (bundle_of "b2" "2" (approval_evidence ProducerHuman)) _ _ _ _ (Hi _ _) (Hi _ _)));
    vm_compute; reflexivity.
Defined.
