(* ===== verification/Policy.v ===== *)
(** The policy compiler: the package [policy] ([policy/compiler.go]).
    [Compile] resolves the rules that match the facts into one work contract,
    refusing conflicting outcomes. *)

From Stdlib Require Import Ascii.
From S2P Require Import Prelude GoStrings Sha256 Domain PathPattern Encode Authority.
From stdpp Require Import options.

Definition CompilerVersion : string := "compiler-v0.1".

Record CompileInput := MkCompileInput {
  Compile_ContractID : string;
  Compile_ContractRevision : string;
  Compile_Objective : string;
  Compile_AcceptanceIntent : list string;
  Compile_Subject : Subject;
  Compile_Scope : ContractScope;
  Compile_ProjectModel : ProjectModel;
  Compile_Policy : EngineeringPolicy;
  Compile_Facts : list EngineeringFact;
  Compile_PreviousContract : option EngineeringWorkContract
}.

(** One constructor per diagnostic; [CompilationError] wraps them all. *)
Inductive CompileError :=
  | ContractIdentityRequired
  | SubjectRequired
  | IntentAndScopeRequired
  | InvalidScopeStage (stage : string)
  | ModelRepositoryMismatch
  | PredictedSubjectMismatch
  | PreviousRepositoryMismatch
  | PreviousIDMismatch
  | InvalidProjectModel (e : EncodeError)
  | InvalidPolicy (e : EncodeError)
  | FactSubjectMismatch (id : string)
  | InvalidCompileFact (id : string) (e : EncodeError)
  | DuplicateFactIdentity (id : string)
  | ConflictingClaim (id rule : string)
  | ConflictingRequirement (id source : string)
  | ConflictingAuthorityConditions (action : Action) (rule1 rule2 : string)
  | PermissionAndProhibition (action : Action) (permissionRule prohibitionRule : string)
  | UndefinedClaim (rule claim : string)
  | UndischargedObligation (id : string)
  | PermissionExpansion (action : Action)
  | UnknownRole (rule role : string)
  | UnknownRoleCapability (rule capability role : string)
  | UnknownDimension (rule dimension : string)
  | UnknownTrust (rule trust : string)
  | UnknownCapability (rule capability : string)
  | NotAGate (rule kind : string)
  | InvalidCompiledContract (e : EncodeError).

Inductive CompilationError := MkCompilationError (e : CompileError).

(* ------------------------------------------------------------------ *)
(** * The resolution state *)

Record conditionEntry := MkConditionEntry {
  conditionEntry_claims : list string;
  conditionEntry_rule : string
}.

Record policyRequirement := MkDefinition {
  definition_statement : string;
  definition_requiredClaims : list string;
  definition_material : bool
}.

#[export] Instance policyRequirement_eq : EqDecision policyRequirement.
Proof. solve_decision. Defined.

(** The maps [addRequirement] updates together. *)
Record requirement_maps := MkRequirementMaps {
  maps_target : gmap string Requirement;
  maps_definitions : gmap string policyRequirement;
  maps_references : gmap string string
}.

(** [resolution]; the values of the [capabilities] map are always [true], so
    it is a set. *)
Record resolution := MkResolution {
  invariants : gmap string Requirement;
  invariantDefinitions : gmap string policyRequirement;
  obligations : gmap string Requirement;
  obligationDefinitions : gmap string policyRequirement;
  claims : gmap string RequiredClaim;
  permissions : gmap Action string;
  prohibitions : gmap Action string;
  conditions : gmap Action conditionEntry;
  references : gmap string string;
  acceptanceDischarge : list string;
  roles : gmap string RoleRequirement;
  capabilities : gset string;
  gates : gmap string GateRequirement
}.

Definition newResolution : resolution := MkResolution ∅ ∅ ∅ ∅ ∅ ∅ ∅ ∅ ∅ [] ∅ ∅ ∅.

(** Field updates, [r.f = v]. *)
Definition set_invariants (r : resolution) (m : requirement_maps) : resolution :=
  MkResolution m.(maps_target) m.(maps_definitions) r.(obligations) r.(obligationDefinitions) r.(claims)
    r.(permissions) r.(prohibitions) r.(conditions) m.(maps_references) r.(acceptanceDischarge) r.(roles)
    r.(capabilities) r.(gates).
Definition set_obligations (r : resolution) (m : requirement_maps) : resolution :=
  MkResolution r.(invariants) r.(invariantDefinitions) m.(maps_target) m.(maps_definitions) r.(claims)
    r.(permissions) r.(prohibitions) r.(conditions) m.(maps_references) r.(acceptanceDischarge) r.(roles)
    r.(capabilities) r.(gates).
Definition set_claims (r : resolution) (v : gmap string RequiredClaim) : resolution :=
  MkResolution r.(invariants) r.(invariantDefinitions) r.(obligations) r.(obligationDefinitions) v
    r.(permissions) r.(prohibitions) r.(conditions) r.(references) r.(acceptanceDischarge) r.(roles)
    r.(capabilities) r.(gates).
Definition set_permissions (r : resolution) (v : gmap Action string) : resolution :=
  MkResolution r.(invariants) r.(invariantDefinitions) r.(obligations) r.(obligationDefinitions) r.(claims)
    v r.(prohibitions) r.(conditions) r.(references) r.(acceptanceDischarge) r.(roles)
    r.(capabilities) r.(gates).
Definition set_prohibitions (r : resolution) (v : gmap Action string) : resolution :=
  MkResolution r.(invariants) r.(invariantDefinitions) r.(obligations) r.(obligationDefinitions) r.(claims)
    r.(permissions) v r.(conditions) r.(references) r.(acceptanceDischarge) r.(roles)
    r.(capabilities) r.(gates).
Definition set_conditions (r : resolution) (v : gmap Action conditionEntry) : resolution :=
  MkResolution r.(invariants) r.(invariantDefinitions) r.(obligations) r.(obligationDefinitions) r.(claims)
    r.(permissions) r.(prohibitions) v r.(references) r.(acceptanceDischarge) r.(roles)
    r.(capabilities) r.(gates).
Definition set_discharge (r : resolution) (v : list string) : resolution :=
  MkResolution r.(invariants) r.(invariantDefinitions) r.(obligations) r.(obligationDefinitions) r.(claims)
    r.(permissions) r.(prohibitions) r.(conditions) r.(references) v r.(roles)
    r.(capabilities) r.(gates).
Definition set_references (r : resolution) (v : gmap string string) : resolution :=
  MkResolution r.(invariants) r.(invariantDefinitions) r.(obligations) r.(obligationDefinitions) r.(claims)
    r.(permissions) r.(prohibitions) r.(conditions) v r.(acceptanceDischarge) r.(roles)
    r.(capabilities) r.(gates).
Definition set_roles (r : resolution) (v : gmap string RoleRequirement) : resolution :=
  MkResolution r.(invariants) r.(invariantDefinitions) r.(obligations) r.(obligationDefinitions) r.(claims)
    r.(permissions) r.(prohibitions) r.(conditions) r.(references) r.(acceptanceDischarge) v
    r.(capabilities) r.(gates).
Definition set_capabilities (r : resolution) (v : gset string) : resolution :=
  MkResolution r.(invariants) r.(invariantDefinitions) r.(obligations) r.(obligationDefinitions) r.(claims)
    r.(permissions) r.(prohibitions) r.(conditions) r.(references) r.(acceptanceDischarge) r.(roles)
    v r.(gates).
Definition set_gates (r : resolution) (v : gmap string GateRequirement) : resolution :=
  MkResolution r.(invariants) r.(invariantDefinitions) r.(obligations) r.(obligationDefinitions) r.(claims)
    r.(permissions) r.(prohibitions) r.(conditions) r.(references) r.(acceptanceDischarge) r.(roles)
    r.(capabilities) v.

Definition invariant_maps (r : resolution) : requirement_maps :=
  MkRequirementMaps r.(invariants) r.(invariantDefinitions) r.(references).
Definition obligation_maps (r : resolution) : requirement_maps :=
  MkRequirementMaps r.(obligations) r.(obligationDefinitions) r.(references).

(* ------------------------------------------------------------------ *)
(** * Requirements *)

Definition normalizePolicyRequirement (requirement : PolicyRequirement) : policyRequirement :=
  MkDefinition requirement.(PolicyRequirement_Statement)
    (match requirement.(PolicyRequirement_RequiredClaims) with
     | Some claims => sorted_unique claims
     | None => []
     end)
    requirement.(PolicyRequirement_Material).

Definition samePolicyRequirement (left right : policyRequirement) : bool :=
  (left.(definition_statement) ≟ right.(definition_statement))
  && (left.(definition_material) ≟ right.(definition_material))
  && (left.(definition_requiredClaims) ≟ right.(definition_requiredClaims)).

(** The requirement a definition is emitted as. *)
Definition emit (definition : policyRequirement) : Requirement :=
  MkRequirement definition.(definition_statement) definition.(definition_requiredClaims)
    definition.(definition_material).

(** [for _, claim := range claims { references[claim] = source }]. *)
Definition add_references (source : string) (claims : list string) (references : gmap string string)
  : gmap string string :=
  fold_left (λ references claim, <[claim := source]> references) claims references.

Definition addRequirement (maps : requirement_maps) (id : string) (requirement : PolicyRequirement)
  (source : string) : result CompileError requirement_maps :=
  let definition := normalizePolicyRequirement requirement in
  refuse_if (match maps.(maps_definitions) !! id with
             | Some existing => negb (samePolicyRequirement existing definition)
             | None => false
             end) (ConflictingRequirement id source) ;?
  Ok (MkRequirementMaps (<[id := emit definition]> maps.(maps_target))
        (<[id := definition]> maps.(maps_definitions))
        (add_references source definition.(definition_requiredClaims) maps.(maps_references))).

Definition addUnknownResolution (r : resolution) (fact : EngineeringFact) : result CompileError resolution :=
  let? maps := addRequirement (obligation_maps r) ("resolve-uncertain-" +:+ fact.(Fact_ID))
    (MkPolicyRequirement ("Resolve uncertainty for engineering fact " +:+ fact.(Fact_Key) +:+ ".") None false)
    ("unknown fact " +:+ fact.(Fact_ID)) in
  Ok (set_obligations r maps).

(* ------------------------------------------------------------------ *)
(** * Plan-shaped obligations *)

Definition actionKey (action : Action) : string := action.(Action_Type) +:+ NUL +:+ action.(Action_Target).

(** The index of a known dimension, or -1. *)
Fixpoint strength_from (dimensions : list string) (i : Z) (dimension : string) : Z :=
  match dimensions with
  | [] => -1
  | known :: dimensions => if known ≟ dimension then i else strength_from dimensions (i + 1) dimension
  end.

Definition dimensionStrength (dimension : string) : Z := strength_from IndependenceDimensions 0 dimension.

Definition knownDimension (dimension : string) : bool := (0 <=? dimensionStrength dimension)%Z.

Definition trustStrength (trust : string) : Z :=
  if trust ≟ TrustRequirementProtected then 2
  else if trust ≟ TrustRequirementOperatorTrusted then 1
  else 0.

Definition sortedUniqueCapabilities (values : list string) : list string :=
  if length values =? 0 then []
  else let seen : gset string := list_to_set values in
       filter (λ capability, capability ∈ seen) EngineeringCapabilities.

Definition normalizeRoleRequirement (role : RoleRequirement) : RoleRequirement :=
  MkRoleRequirement role.(Role_Role) (sortedUniqueCapabilities role.(Role_Capabilities))
    ((λ independence, MkIndependence independence.(Independence_Dimension)
        (sorted_unique independence.(Independence_DifferentFrom))
        independence.(Independence_HumanSubstitutionPermitted)) <$> role.(Role_Independence))
    role.(Role_TrustRequirement) role.(Role_Statement).

Definition mergeIndependence (left right : option IndependenceRequirement) : option IndependenceRequirement :=
  match right, left with
  | None, _ => left
  | Some _, None => right
  | Some r, Some l =>
      let strongest := if (dimensionStrength l.(Independence_Dimension) <? dimensionStrength r.(Independence_Dimension))%Z
                       then r else l in
      Some (MkIndependence strongest.(Independence_Dimension)
              (sorted_unique (l.(Independence_DifferentFrom) ++ r.(Independence_DifferentFrom)))
              (l.(Independence_HumanSubstitutionPermitted) && r.(Independence_HumanSubstitutionPermitted)))
  end.

(** The source's error result is always nil. *)
Definition mergeRoleRequirements (left right : RoleRequirement) : RoleRequirement :=
  MkRoleRequirement left.(Role_Role)
    (sortedUniqueCapabilities (left.(Role_Capabilities) ++ right.(Role_Capabilities)))
    (mergeIndependence left.(Role_Independence) right.(Role_Independence))
    (if (trustStrength left.(Role_TrustRequirement) <? trustStrength right.(Role_TrustRequirement))%Z
     then right.(Role_TrustRequirement) else left.(Role_TrustRequirement))
    (if left.(Role_Statement) ≠? right.(Role_Statement)
     then left.(Role_Statement) +:+ " " +:+ right.(Role_Statement) else left.(Role_Statement)).

Definition gateKey (gate : GateRequirement) : string :=
  match gate.(Gate_Action) with
  | None => gate.(Gate_Kind)
  | Some action => gate.(Gate_Kind) +:+ NUL +:+ actionKey action
  end.

Definition with_gate_claims (gate : GateRequirement) (claims : list string) : GateRequirement :=
  MkGateRequirement gate.(Gate_Kind) claims gate.(Gate_Action) gate.(Gate_Statement).

Definition normalizeGateRequirement (gate : GateRequirement) : GateRequirement :=
  with_gate_claims gate (sorted_unique gate.(Gate_RequiredClaims)).

(** One iteration of the roles loop of [addEngineeringRequirements]. *)
Definition add_role (ruleID : string) (roles : gmap string RoleRequirement) (role : RoleRequirement)
  : result CompileError (gmap string RoleRequirement) :=
  refuse_if (negb (KnownRole role.(Role_Role))) (UnknownRole ruleID role.(Role_Role)) ;?
  check_all (λ capability,
    refuse_if (negb (KnownCapability capability)) (UnknownRoleCapability ruleID capability role.(Role_Role)))
    role.(Role_Capabilities) ;?
  (match role.(Role_Independence) with
   | Some independence =>
       refuse_if (negb (knownDimension independence.(Independence_Dimension)))
         (UnknownDimension ruleID independence.(Independence_Dimension))
   | None => Ok tt
   end) ;?
  refuse_if ((role.(Role_TrustRequirement) ≠? "")
             && (role.(Role_TrustRequirement) ≠? TrustRequirementOperatorTrusted)
             && (role.(Role_TrustRequirement) ≠? TrustRequirementProtected))
    (UnknownTrust ruleID role.(Role_TrustRequirement)) ;?
  Ok (<[role.(Role_Role) :=
         match roles !! role.(Role_Role) with
         | None => normalizeRoleRequirement role
         | Some existing => mergeRoleRequirements existing (normalizeRoleRequirement role)
         end]> roles).

Definition add_capability (ruleID : string) (capabilities : gset string) (capability : string)
  : result CompileError (gset string) :=
  refuse_if (negb (KnownCapability capability)) (UnknownCapability ruleID capability) ;?
  Ok ({[capability]} ∪ capabilities).

Definition add_gate (ruleID : string) (gates : gmap string GateRequirement) (gate : GateRequirement)
  : result CompileError (gmap string GateRequirement) :=
  refuse_if ((gate.(Gate_Kind) ≠? StageAssuranceGate) && (gate.(Gate_Kind) ≠? StageHumanDecisionGate))
    (NotAGate ruleID gate.(Gate_Kind)) ;?
  Ok (<[gateKey gate :=
         match gates !! gateKey gate with
         | None => normalizeGateRequirement gate
         | Some existing =>
             with_gate_claims existing (sorted_unique (existing.(Gate_RequiredClaims) ++ gate.(Gate_RequiredClaims)))
         end]> gates).

Definition addEngineeringRequirements (ruleID : string) (requirements : PlanRequirements) (r : resolution)
  : result CompileError resolution :=
  let? roles := for_each (add_role ruleID) requirements.(PlanRequirements_Roles) r.(roles) in
  let? capabilities := for_each (add_capability ruleID) requirements.(PlanRequirements_Capabilities) r.(capabilities) in
  let? gates := for_each (add_gate ruleID) requirements.(PlanRequirements_Gates) r.(gates) in
  let r := set_gates (set_capabilities (set_roles r roles) capabilities) gates in
  Ok (set_references r
        (fold_left (λ references gate, add_references ruleID gate.(Gate_RequiredClaims) references)
           requirements.(PlanRequirements_Gates) r.(references))).

(** [planRequirements]. *)
Definition planRequirements `{!MapRange} (r : resolution) : option PlanRequirements :=
  if bool_decide (r.(roles) = ∅) && bool_decide (r.(capabilities) = ∅) && bool_decide (r.(gates) = ∅) then None
  else Some (MkPlanRequirements
    (omap (λ role, r.(roles) !! role) EngineeringRoles)
    (filter (λ capability, capability ∈ r.(capabilities)) EngineeringCapabilities)
    (omap (λ key, r.(gates) !! key) (sorted_keys r.(gates)))).

(* ------------------------------------------------------------------ *)
(** * Rule effects *)

Section Policy.
Context `{!MapRange, !SchemaValidator}.

Definition add_claim (ruleID : string) (claims : gmap string RequiredClaim) (kv : string * RequiredClaim)
  : result CompileError (gmap string RequiredClaim) :=
  let '(id, claim) := kv in
  refuse_if (match claims !! id with Some existing => existing ≠? claim | None => false end)
    (ConflictingClaim id ruleID) ;?
  Ok (<[id := claim]> claims).

Definition add_condition (ruleID : string) (conditions : gmap Action conditionEntry) (condition : AuthorityCondition)
  : result CompileError (gmap Action conditionEntry) :=
  let claims := sorted_unique condition.(Condition_RequiredClaims) in
  match conditions !! condition.(Condition_Action) with
  | Some existing =>
      refuse_if (existing.(conditionEntry_claims) ≠? claims)
        (ConflictingAuthorityConditions condition.(Condition_Action) existing.(conditionEntry_rule) ruleID)
  | None => Ok tt
  end ;?
  Ok (<[condition.(Condition_Action) := MkConditionEntry claims ruleID]> conditions).

Definition add_requirements (ruleID : string) (requirements : gmap string PolicyRequirement)
  (maps : requirement_maps) : result CompileError requirement_maps :=
  for_each (λ maps '(id, requirement), addRequirement maps id requirement ruleID) (range requirements) maps.

(** [for _, action := range actions { m[action] = ruleID }]. *)
Definition add_actions (ruleID : string) (actions : list Action) (m : gmap Action string) : gmap Action string :=
  fold_left (λ m action, <[action := ruleID]> m) actions m.

Definition addEffect (ruleID : string) (effect : PolicyEffect) (r : resolution)
  : result CompileError resolution :=
  let r := match effect.(Effect_AcceptanceDischargeClaims) with
           | Some claims => set_discharge r (r.(acceptanceDischarge) ++ claims)
           | None => r
           end in
  let? r := when_some effect.(Effect_Invariants) (λ requirements r,
    let? maps := add_requirements ruleID requirements (invariant_maps r) in Ok (set_invariants r maps)) r in
  let? r := when_some effect.(Effect_Obligations) (λ requirements r,
    let? maps := add_requirements ruleID requirements (obligation_maps r) in Ok (set_obligations r maps)) r in
  let? r := when_some effect.(Effect_RequiredClaims) (λ required r,
    let? claims := for_each (add_claim ruleID) (range required) r.(claims) in Ok (set_claims r claims)) r in
  let r := match effect.(Effect_Permissions) with
           | Some actions => set_permissions r (add_actions ruleID actions r.(permissions))
           | None => r
           end in
  let r := match effect.(Effect_Prohibitions) with
           | Some actions => set_prohibitions r (add_actions ruleID actions r.(prohibitions))
           | None => r
           end in
  let? r := when_some effect.(Effect_EngineeringRequirements) (addEngineeringRequirements ruleID) r in
  when_some effect.(Effect_AuthorityConditions) (λ added r,
    let? conditions := for_each (add_condition ruleID) added r.(conditions) in Ok (set_conditions r conditions)) r.

Definition addAcceptanceObligations (criteria : list string) (r : resolution) : result CompileError resolution :=
  let discharge := sorted_unique r.(acceptanceDischarge) in
  for_each (λ r criterion,
    if blank criterion then Ok r
    else
      let requirement := MkPolicyRequirement criterion
        (if 0 <? length discharge then Some discharge else None) true in
      let? maps := addRequirement (obligation_maps r) (AcceptanceObligationID criterion) requirement
        "source acceptance criterion" in
      Ok (set_obligations r maps)) (sorted_unique criteria) r.

(* ---------------------------------------------------------------- *)
(** ** Validation of the resolution *)

(** [for _, condition := range r.conditions { ... }]. *)
Definition condition_references (r : resolution) : gmap string string :=
  fold_left (λ references kv, add_references (conditionEntry_rule kv.2) (conditionEntry_claims kv.2) references)
    (range r.(conditions)) r.(references).

Definition validateReferences (r : resolution) : result CompileError resolution :=
  check_all (λ action,
    match r.(prohibitions) !! action with
    | Some prohibitionRule =>
        Err (PermissionAndProhibition action (default "" (r.(permissions) !! action)) prohibitionRule)
    | None => Ok tt
    end) (sort_by actionKey (range_keys r.(permissions))) ;?
  let references := condition_references r in
  check_all (λ claim,
    match r.(claims) !! claim with
    | Some _ => Ok tt
    | None => Err (UndefinedClaim (default "" (references !! claim)) claim)
    end) (sorted_keys references) ;?
  Ok (set_references r references).

Definition validateMaterialDischarge (r : resolution) : result CompileError () :=
  if bool_decide (r.(permissions) = ∅) && bool_decide (r.(conditions) = ∅) then Ok tt
  else check_all (λ id,
    match r.(obligations) !! id with
    | Some obligation =>
        refuse_if (obligation.(Requirement_Material) && (length obligation.(Requirement_RequiredClaims) =? 0))
          (UndischargedObligation id)
    | None => Ok tt
    end) (sorted_keys r.(obligations)).

Definition rejectPermissionExpansion (previous : option EngineeringWorkContract) (permissions : gmap Action string)
  : result CompileError () :=
  match previous with
  | None => Ok tt
  | Some previous =>
      let allowed : gset Action := list_to_set previous.(Contract_Permissions) in
      check_all (λ action, refuse_if (negb (bool_decide (action ∈ allowed))) (PermissionExpansion action))
        (range_keys permissions)
  end.

(* ---------------------------------------------------------------- *)
(** ** Facts *)

Definition normalize_fact (subject : Subject) (byID : gmap string EngineeringFact) (fact : EngineeringFact)
  : result CompileError (gmap string EngineeringFact) :=
  refuse_if (fact.(Fact_Subject) ≠? subject) (FactSubjectMismatch fact.(Fact_ID)) ;?
  wrap (InvalidCompileFact fact.(Fact_ID)) (Encode_EngineeringFact fact) ;?
  match byID !! fact.(Fact_ID) with
  | Some _ => Err (DuplicateFactIdentity fact.(Fact_ID))
  | None => Ok (<[fact.(Fact_ID) := fact]> byID)
  end.

Definition normalizedFacts (facts : list EngineeringFact) (subject : Subject)
  : result CompileError (list EngineeringFact) :=
  let? byID := for_each (normalize_fact subject) facts ∅ in
  Ok (omap (λ id, byID !! id) (sorted_keys byID)).

(** [pointer != nil && value != *pointer]. *)
Definition differs (pointer : option string) (value : string) : bool :=
  match pointer with Some v => value ≠? v | None => false end.

Definition matches_condition (condition : PolicyCondition) (fact : EngineeringFact) : bool :=
  (fact.(Fact_Key) ≟ condition.(When_Fact)) && (fact.(Fact_Value) ≟ condition.(When_Equals))
  && negb (differs condition.(When_Stage) fact.(Fact_Stage)
           || differs condition.(When_Confidence) fact.(Fact_Confidence))
  && negb (match condition.(When_Provenance) with
           | Some provenance =>
               differs provenance.(ProvenanceMatch_Type) fact.(Fact_Provenance).(FactProvenance_Type)
               || differs provenance.(ProvenanceMatch_Producer) fact.(Fact_Provenance).(FactProvenance_Producer)
           | None => false
           end).

Definition matchesAny (condition : PolicyCondition) (facts : list EngineeringFact) : bool :=
  existsb (matches_condition condition) facts.

Definition factIDs (facts : list EngineeringFact) : list string := Fact_ID <$> facts.

Definition previousRevision (contract : option EngineeringWorkContract) : option string :=
  Contract_Revision <$> contract.

Definition sortedActions (actions : gmap Action string) : list Action :=
  sort_by actionKey (range_keys actions).

Definition sortedConditions (conditions : gmap Action conditionEntry) : list AuthorityCondition :=
  (λ action, MkAuthorityCondition action
     (match conditions !! action with Some entry => entry.(conditionEntry_claims) | None => [] end))
  <$> sort_by actionKey (range_keys conditions).
End Policy.

(* ------------------------------------------------------------------ *)
(** * The compiler *)

Section Compile.
Context `{!MapRange, !SchemaValidator}.

Definition validateInput (input : CompileInput) : result CompileError () :=
  let scope := input.(Compile_Scope) in
  let subject := input.(Compile_Subject) in
  refuse_if ((input.(Compile_ContractID) ≟ "") || (input.(Compile_ContractRevision) ≟ "")
             || (input.(Compile_Objective) ≟ "")) ContractIdentityRequired ;?
  refuse_if ((subject.(Subject_Repository) ≟ "") || (subject.(Subject_Revision) ≟ "")) SubjectRequired ;?
  refuse_if ((length input.(Compile_AcceptanceIntent) =? 0) || (length scope.(Scope_AllowedPaths) =? 0))
    IntentAndScopeRequired ;?
  refuse_if ((scope.(Scope_Stage) ≠? StagePredicted) && (scope.(Scope_Stage) ≠? StageObserved)
             && (scope.(Scope_Stage) ≠? StageVerified)) (InvalidScopeStage scope.(Scope_Stage)) ;?
  refuse_if (input.(Compile_ProjectModel).(Model_Subject).(Subject_Repository) ≠? subject.(Subject_Repository))
    ModelRepositoryMismatch ;?
  refuse_if ((scope.(Scope_Stage) ≟ StagePredicted)
             && (input.(Compile_ProjectModel).(Model_Subject) ≠? subject)) PredictedSubjectMismatch ;?
  (match input.(Compile_PreviousContract) with
   | Some previous =>
       refuse_if (previous.(Contract_Subject).(Subject_Repository) ≠? subject.(Subject_Repository))
         PreviousRepositoryMismatch ;?
       refuse_if (previous.(Contract_ID) ≠? input.(Compile_ContractID)) PreviousIDMismatch
   | None => Ok tt
   end) ;?
  wrap InvalidProjectModel (Encode_ProjectModel input.(Compile_ProjectModel)) ;?
  wrap InvalidPolicy (Encode_EngineeringPolicy input.(Compile_Policy)).

(** The loop over the unknown facts. *)
Definition add_unknown_facts (facts : list EngineeringFact) (r : resolution) : result CompileError resolution :=
  for_each (λ r fact, if fact.(Fact_Value) ≟ FactUnknown then addUnknownResolution r fact else Ok r) facts r.

(** One iteration of the loop over the sorted rule identities. *)
Definition apply_rule (policy : EngineeringPolicy) (facts : list EngineeringFact) (r : resolution) (id : string)
  : result CompileError resolution :=
  match policy.(Policy_Rules) !! id with
  | Some rule =>
      if negb (matchesAny rule.(Rule_When) facts) then Ok r
      else addEffect id rule.(Rule_Effect) r
  | None => Ok r
  end.

Definition resolve (input : CompileInput) (facts : list EngineeringFact) : result CompileError resolution :=
  let? r := add_unknown_facts facts newResolution in
  let? r := for_each (apply_rule input.(Compile_Policy) facts)
              (sorted_keys input.(Compile_Policy).(Policy_Rules)) r in
  addAcceptanceObligations input.(Compile_AcceptanceIntent) r.

Definition contract_of (input : CompileInput) (facts : list EngineeringFact) (r : resolution)
  : EngineeringWorkContract :=
  {| Contract_SchemaVersion := SchemaVersion;
     Contract_ID := input.(Compile_ContractID);
     Contract_Revision := input.(Compile_ContractRevision);
     Contract_Objective := input.(Compile_Objective);
     Contract_AcceptanceIntent := sorted_unique input.(Compile_AcceptanceIntent);
     Contract_Subject := input.(Compile_Subject);
     Contract_Scope := MkContractScope input.(Compile_Scope).(Scope_Stage)
       (sorted_unique input.(Compile_Scope).(Scope_AllowedPaths))
       (sorted_unique input.(Compile_Scope).(Scope_ProhibitedPaths));
     Contract_Facts := factIDs facts;
     Contract_Invariants := r.(invariants);
     Contract_Obligations := r.(obligations);
     Contract_RequiredClaims := r.(claims);
     Contract_Permissions := sortedActions r.(permissions);
     Contract_Prohibitions := sortedActions r.(prohibitions);
     Contract_AuthorityConditions := sortedConditions r.(conditions);
     Contract_PlanRequirements := planRequirements r;
     Contract_Provenance := MkContractProvenance
       (MkObjectRevision input.(Compile_ProjectModel).(Model_ID) input.(Compile_ProjectModel).(Model_Revision))
       (MkObjectRevision input.(Compile_Policy).(Policy_ID) input.(Compile_Policy).(Policy_Revision))
       CompilerVersion (previousRevision input.(Compile_PreviousContract)) |}.

Definition compile (input : CompileInput) : result CompileError EngineeringWorkContract :=
  validateInput input ;?
  let? facts := normalizedFacts input.(Compile_Facts) input.(Compile_Subject) in
  let? r := resolve input facts in
  let? r := validateReferences r in
  validateMaterialDischarge r ;?
  rejectPermissionExpansion input.(Compile_PreviousContract) r.(permissions) ;?
  let contract := contract_of input facts r in
  wrap InvalidCompiledContract (Encode_EngineeringWorkContract contract) ;?
  Ok contract.

(** [Compile] wraps every refusal in a [CompilationError]. *)
Definition Compile (input : CompileInput) : result CompilationError EngineeringWorkContract :=
  wrap MkCompilationError (compile input).

Definition MaterialDischargeClaims (contract : EngineeringWorkContract) : list string :=
  sorted_unique (concat (Requirement_RequiredClaims <$>
    filter (λ obligation, obligation.(Requirement_Material) = true)
      (range_values contract.(Contract_Obligations)))).
End Compile.

(* ------------------------------------------------------------------ *)
(** * What one rule contributes *)

(** The rules that apply, in the order they are applied. *)
Definition applied_rules `{!MapRange} (policy : EngineeringPolicy) (facts : list EngineeringFact)
  : list (string * PolicyEffect) :=
  omap (λ id, match policy.(Policy_Rules) !! id with
              | Some rule => if matchesAny rule.(Rule_When) facts then Some (id, rule.(Rule_Effect)) else None
              | None => None
              end) (sorted_keys policy.(Policy_Rules)).

Definition effect_requirements (m : option (gmap string PolicyRequirement)) (id : string)
  : option policyRequirement :=
  m ≫= λ m, normalizePolicyRequirement <$> (m !! id).

Section contributions.
Context `{!MapRange}.

Lemma add_references_dom source cs refs c :
  is_Some (add_references source cs refs !! c) ↔ c ∈ cs ∨ is_Some (refs !! c).
Proof.
  unfold add_references. revert refs; induction cs as [|x cs IH]; intros refs; simpl.
  { split; [by right|]. intros [?%not_elem_of_nil|?]; done. }
  rewrite IH, lookup_insert_is_Some, elem_of_cons. destruct (decide (x = c)); naive_solver.
Qed.

Lemma add_actions_dom rule actions m a :
  is_Some (add_actions rule actions m !! a) ↔ a ∈ actions ∨ is_Some (m !! a).
Proof.
  unfold add_actions. revert m; induction actions as [|x l IH]; intros m; simpl.
  { split; [by right|]. intros [?%not_elem_of_nil|?]; done. }
  rewrite IH, lookup_insert_is_Some, elem_of_cons. destruct (decide (x = a)); naive_solver.
Qed.

Lemma samePolicyRequirement_eq l r : samePolicyRequirement l r = true ↔ l = r.
Proof.
  unfold samePolicyRequirement. reflect_bools. destruct l, r; simpl. naive_solver.
Qed.

(** Requirements and their definitions agree. *)
Definition maps_agree (maps : requirement_maps) : Prop := maps.(maps_target) = emit <$> maps.(maps_definitions).

(** [addRequirement] adds one definition, keeps the others, and refuses to
    change one. *)
Lemma addRequirement_ok maps id requirement source maps' :
  addRequirement maps id requirement source = Ok maps' ↔
  (∀ d, maps.(maps_definitions) !! id = Some d → d = normalizePolicyRequirement requirement)
  ∧ maps' = MkRequirementMaps
      (<[id := emit (normalizePolicyRequirement requirement)]> maps.(maps_target))
      (<[id := normalizePolicyRequirement requirement]> maps.(maps_definitions))
      (add_references source (normalizePolicyRequirement requirement).(definition_requiredClaims)
         maps.(maps_references)).
Proof.
  unfold addRequirement. rewrite rbind_ok. setoid_rewrite refuse_if_ok. split.
  - intros (_ & Hd & [= <-]). split; [|done]. intros d Hl. rewrite Hl in Hd.
    apply negb_false_iff, samePolicyRequirement_eq in Hd. done.
  - intros [Hd ->]. exists tt. split; [|done]. destruct (_ !! id) as [d|] eqn:Hl; [|done].
    apply negb_false_iff, samePolicyRequirement_eq. auto.
Qed.

Lemma addRequirement_agree maps id requirement source maps' :
  addRequirement maps id requirement source = Ok maps' → maps_agree maps → maps_agree maps'.
Proof.
  intros [_ ->]%addRequirement_ok Ha. unfold maps_agree in *. simpl. by rewrite fmap_insert, Ha.
Qed.

Lemma addRequirement_lookup maps id requirement source maps' :
  addRequirement maps id requirement source = Ok maps' →
  ∀ k d, maps'.(maps_definitions) !! k = Some d
    ↔ maps.(maps_definitions) !! k = Some d ∨ (k = id ∧ d = normalizePolicyRequirement requirement).
Proof.
  intros [Hd ->]%addRequirement_ok k d. simpl. rewrite lookup_insert_Some.
  destruct (decide (id = k)) as [->|]; naive_solver.
Qed.
End contributions.

(** The outcomes a resolution records, and the ones a rule's effect states.
    The rule identities the maps also hold only serve diagnostics. *)
Inductive outcome :=
  | Invariant (id : string) (definition : policyRequirement)
  | Obligation (id : string) (definition : policyRequirement)
  | Claim (id : string) (claim : RequiredClaim)
  | Permitted (action : Action)
  | Prohibited (action : Action)
  | ConditionOn (action : Action) (claims : list string)
  | Discharge (claim : string)
  | Reference (claim : string).

Definition holds (r : resolution) (o : outcome) : Prop :=
  match o with
  | Invariant id d => r.(invariantDefinitions) !! id = Some d
  | Obligation id d => r.(obligationDefinitions) !! id = Some d
  | Claim id c => r.(claims) !! id = Some c
  | Permitted a => is_Some (r.(permissions) !! a)
  | Prohibited a => is_Some (r.(prohibitions) !! a)
  | ConditionOn a cs => conditionEntry_claims <$> (r.(conditions) !! a) = Some cs
  | Discharge c => c ∈ r.(acceptanceDischarge)
  | Reference c => is_Some (r.(references) !! c)
  end.

Definition requirement_reference (m : option (gmap string PolicyRequirement)) (c : string) : Prop :=
  ∃ id d, effect_requirements m id = Some d ∧ c ∈ d.(definition_requiredClaims).

Definition contributes (e : PolicyEffect) (o : outcome) : Prop :=
  match o with
  | Invariant id d => effect_requirements e.(Effect_Invariants) id = Some d
  | Obligation id d => effect_requirements e.(Effect_Obligations) id = Some d
  | Claim id c => e.(Effect_RequiredClaims) ≫= lookup id = Some c
  | Permitted a => a ∈ default [] e.(Effect_Permissions)
  | Prohibited a => a ∈ default [] e.(Effect_Prohibitions)
  | ConditionOn a cs => ∃ condition, condition ∈ default [] e.(Effect_AuthorityConditions)
      ∧ condition.(Condition_Action) = a ∧ cs = sorted_unique condition.(Condition_RequiredClaims)
  | Discharge c => c ∈ default [] e.(Effect_AcceptanceDischargeClaims)
  | Reference c => requirement_reference e.(Effect_Invariants) c ∨ requirement_reference e.(Effect_Obligations) c
      ∨ ∃ requirements gate, e.(Effect_EngineeringRequirements) = Some requirements
          ∧ gate ∈ requirements.(PlanRequirements_Gates) ∧ c ∈ gate.(Gate_RequiredClaims)
  end.

(** Requirements agree with their definitions throughout. *)
Definition agreeing (r : resolution) : Prop := maps_agree (invariant_maps r) ∧ maps_agree (obligation_maps r).

Section effects.
Context `{!MapRange}.

Lemma add_requirements_ok rule reqs maps maps' :
  add_requirements rule reqs maps = Ok maps' → maps_agree maps →
  maps_agree maps'
  ∧ (∀ k d, maps'.(maps_definitions) !! k = Some d
       ↔ maps.(maps_definitions) !! k = Some d ∨ effect_requirements (Some reqs) k = Some d)
  ∧ (∀ c, is_Some (maps'.(maps_references) !! c)
       ↔ is_Some (maps.(maps_references) !! c) ∨ requirement_reference (Some reqs) c).
Proof.
  intros Hf Ha. unfold add_requirements in Hf.
  eapply (for_each_ind _ (λ done m, maps_agree m
    ∧ (∀ k d, m.(maps_definitions) !! k = Some d ↔ maps.(maps_definitions) !! k = Some d
          ∨ ∃ req, (k, req) ∈ done ∧ d = normalizePolicyRequirement req)
    ∧ (∀ c, is_Some (m.(maps_references) !! c) ↔ is_Some (maps.(maps_references) !! c)
          ∨ ∃ k req, (k, req) ∈ done ∧ c ∈ definition_requiredClaims (normalizePolicyRequirement req)))) in Hf.
  - destruct Hf as (Ha' & Hd & Hc). split; [done|]. unfold requirement_reference, effect_requirements. simpl.
    split; [intros k d; rewrite Hd|intros c; rewrite Hc];
      setoid_rewrite elem_of_range; setoid_rewrite fmap_Some; naive_solver.
  - split; [done|]. split; intros; split; try (by left);
      intros [?|Hex]; try done; exfalso; revert Hex; setoid_rewrite elem_of_nil; naive_solver.
  - intros done [id req] rest m1 m2 _ (Ha1 & Hd & Hc) Hs.
    split; [by eapply addRequirement_agree|]. split.
    + intros k d. rewrite (addRequirement_lookup _ _ _ _ _ Hs), Hd.
      setoid_rewrite elem_of_app. setoid_rewrite list_elem_of_singleton. naive_solver.
    + intros c. apply addRequirement_ok in Hs as [_ ->]. simpl. rewrite add_references_dom, Hc.
      setoid_rewrite elem_of_app. setoid_rewrite list_elem_of_singleton. naive_solver.
Qed.

Lemma add_claims_ok rule required cs cs' :
  for_each (add_claim rule) (range required) cs = Ok cs' →
  ∀ k c, cs' !! k = Some c ↔ cs !! k = Some c ∨ required !! k = Some c.
Proof.
  intros Hf k c.
  eapply (for_each_ind _ (λ done m, ∀ k c, m !! k = Some c ↔ cs !! k = Some c ∨ (k, c) ∈ done)) in Hf.
  - rewrite Hf. by rewrite elem_of_range.
  - intros k' c'. rewrite elem_of_nil. naive_solver.
  - intros done [id x] rest m1 m2 _ HP Hs k' c'. unfold add_claim in Hs. invert_ok.
    rewrite elem_of_app, list_elem_of_singleton, lookup_insert_Some.
    destruct (decide (id = k')) as [->|Hne]; [|rewrite HP; naive_solver].
    specialize (HP k' c'). destruct (m1 !! k') as [y|] eqn:Hl; [reflect_bools; naive_solver|].
    split; [naive_solver|]. intros [Hc|[Hc|[= ->]]]; [| |by left].
    + assert (None = Some c') as [=]. apply HP. by left.
    + assert (None = Some c') as [=]. apply HP. by right.
Qed.

Lemma add_conditions_ok rule added cs cs' :
  for_each (add_condition rule) added cs = Ok cs' →
  ∀ a l, conditionEntry_claims <$> (cs' !! a) = Some l ↔ conditionEntry_claims <$> (cs !! a) = Some l
    ∨ ∃ condition, condition ∈ added ∧ condition.(Condition_Action) = a
        ∧ l = sorted_unique condition.(Condition_RequiredClaims).
Proof.
  intros Hf a l.
  eapply (for_each_ind _ (λ done m, ∀ a l, conditionEntry_claims <$> (m !! a) = Some l
      ↔ conditionEntry_claims <$> (cs !! a) = Some l
      ∨ ∃ condition, condition ∈ done ∧ condition.(Condition_Action) = a
        ∧ l = sorted_unique condition.(Condition_RequiredClaims))) in Hf; [apply Hf| |].
  - intros a' l'. setoid_rewrite elem_of_nil. naive_solver.
  - intros done x rest m1 m2 _ HP Hs a' l'. unfold add_condition in Hs. invert_ok.
    match goal with H : match _ with _ => _ end = Ok _ |- _ => rename H into Hc end.
    setoid_rewrite elem_of_app. setoid_rewrite list_elem_of_singleton.
    destruct (decide (Condition_Action x = a')) as [<-|Hne].
    + rewrite lookup_insert_eq. simpl. specialize (HP (Condition_Action x) l').
      destruct (m1 !! Condition_Action x) as [y|] eqn:Hl; simpl in *; invert_ok.
      * apply negb_false_iff, bool_decide_eq_true in Hc. rewrite <- Hc. split; [rewrite HP; naive_solver|].
        intros [?|(c & [Hin| ->] & Ha & ->)]; [apply HP; by left| |by rewrite Hc].
        apply HP. right. eauto.
      * split; [intros [= <-]; right; eauto|].
        intros [?|(c & [Hin| ->] & Ha & ->)]; [| |done]; exfalso.
        { assert (None = Some l') as [=]. apply HP. by left. }
        { assert (None = Some (sorted_unique (Condition_RequiredClaims c))) as [=]. apply HP. right. eauto. }
    + rewrite lookup_insert_ne by done. rewrite HP. naive_solver.
Qed.

Lemma gate_references_ok rule gates refs c :
  is_Some (fold_left (λ references gate, add_references rule gate.(Gate_RequiredClaims) references) gates refs !! c)
  ↔ is_Some (refs !! c) ∨ ∃ gate, gate ∈ gates ∧ c ∈ gate.(Gate_RequiredClaims).
Proof.
  revert refs; induction gates as [|g gates IH]; intros refs; simpl.
  { setoid_rewrite elem_of_nil. naive_solver. }
  rewrite IH, add_references_dom. setoid_rewrite elem_of_cons. naive_solver.
Qed.
End effects.

Section resolution_lemmas.
Context `{!MapRange}.

(** [r'] is [r] with the outcomes in [new] added. *)
Definition extends (r r' : resolution) (new : outcome → Prop) : Prop :=
  agreeing r' ∧ ∀ o, holds r' o ↔ holds r o ∨ new o.

Lemma step_discharge r (o : option (list string)) :
  agreeing r →
  extends r (match o with Some cs => set_discharge r (r.(acceptanceDischarge) ++ cs) | None => r end)
    (λ x, match x with Discharge c => c ∈ default [] o | _ => False end).
Proof.
  intros [Hi Ho]. destruct o; simpl; (split; [by split|]); intros []; simpl;
    rewrite ?elem_of_app, ?elem_of_nil; tauto.
Qed.

Lemma step_permissions rule r (o : option (list Action)) :
  agreeing r →
  extends r (match o with Some l => set_permissions r (add_actions rule l r.(permissions)) | None => r end)
    (λ x, match x with Permitted a => a ∈ default [] o | _ => False end).
Proof.
  intros [Hi Ho]. destruct o; simpl; (split; [by split|]); intros []; simpl;
    rewrite ?add_actions_dom, ?elem_of_nil; tauto.
Qed.

Lemma step_prohibitions rule r (o : option (list Action)) :
  agreeing r →
  extends r (match o with Some l => set_prohibitions r (add_actions rule l r.(prohibitions)) | None => r end)
    (λ x, match x with Prohibited a => a ∈ default [] o | _ => False end).
Proof.
  intros [Hi Ho]. destruct o; simpl; (split; [by split|]); intros []; simpl;
    rewrite ?add_actions_dom, ?elem_of_nil; tauto.
Qed.

Lemma step_invariants rule r r' o :
  agreeing r →
  when_some o (λ requirements r,
    let? maps := add_requirements rule requirements (invariant_maps r) in Ok (set_invariants r maps)) r = Ok r' →
  extends r r' (λ x, match x with
    | Invariant id d => effect_requirements o id = Some d
    | Reference c => requirement_reference o c
    | _ => False end).
Proof.
  intros [Hi Ho] Hs. destruct o as [reqs|]; simpl in Hs; invert_ok.
  - match goal with H : add_requirements _ _ _ = Ok _ |- _ => apply add_requirements_ok in H as (Ha & Hd & Hr) end; [|done].
    split; [by split|]. intros []; simpl; rewrite ?Hd, ?Hr; tauto.
  - split; [by split|]. intros []; simpl; try tauto; unfold requirement_reference; simpl; naive_solver.
Qed.

Lemma step_obligations rule r r' o :
  agreeing r →
  when_some o (λ requirements r,
    let? maps := add_requirements rule requirements (obligation_maps r) in Ok (set_obligations r maps)) r = Ok r' →
  extends r r' (λ x, match x with
    | Obligation id d => effect_requirements o id = Some d
    | Reference c => requirement_reference o c
    | _ => False end).
Proof.
  intros [Hi Ho] Hs. destruct o as [reqs|]; simpl in Hs; invert_ok.
  - match goal with H : add_requirements _ _ _ = Ok _ |- _ => apply add_requirements_ok in H as (Ha & Hd & Hr) end; [|done].
    split; [by split|]. intros []; simpl; rewrite ?Hd, ?Hr; tauto.
  - split; [by split|]. intros []; simpl; try tauto; unfold requirement_reference; simpl; naive_solver.
Qed.

Lemma step_claims rule r r' (o : option (gmap string RequiredClaim)) :
  agreeing r →
  when_some o (λ required r,
    let? claims := for_each (add_claim rule) (range required) r.(claims) in Ok (set_claims r claims)) r = Ok r' →
  extends r r' (λ x, match x with Claim id c => o ≫= lookup id = Some c | _ => False end).
Proof.
  intros [Hi Ho] Hs. destruct o as [required|]; simpl in Hs; invert_ok.
  - match goal with H : for_each _ _ _ = Ok _ |- _ => pose proof (add_claims_ok _ _ _ _ H) as Hc end.
    split; [by split|]. intros []; simpl; rewrite ?Hc; tauto.
  - split; [by split|]. intros []; simpl; naive_solver.
Qed.

Lemma step_conditions rule r r' (o : option (list AuthorityCondition)) :
  agreeing r →
  when_some o (λ added r,
    let? conditions := for_each (add_condition rule) added r.(conditions) in Ok (set_conditions r conditions)) r = Ok r' →
  extends r r' (λ x, match x with
    | ConditionOn a cs => ∃ condition, condition ∈ default [] o
        ∧ condition.(Condition_Action) = a ∧ cs = sorted_unique condition.(Condition_RequiredClaims)
    | _ => False end).
Proof.
  intros [Hi Ho] Hs. destruct o as [added|]; simpl in Hs; invert_ok.
  - match goal with H : for_each _ _ _ = Ok _ |- _ => pose proof (add_conditions_ok _ _ _ _ H) as Hc end.
    split; [by split|]. intros []; simpl; rewrite ?Hc; tauto.
  - split; [by split|]. intros []; simpl; try tauto. setoid_rewrite elem_of_nil. naive_solver.
Qed.

Lemma step_requirements rule r r' (o : option PlanRequirements) :
  agreeing r → when_some o (addEngineeringRequirements rule) r = Ok r' →
  extends r r' (λ x, match x with
    | Reference c => ∃ requirements gate, o = Some requirements
        ∧ gate ∈ requirements.(PlanRequirements_Gates) ∧ c ∈ gate.(Gate_RequiredClaims)
    | _ => False end).
Proof.
  intros [Hi Ho] Hs. destruct o as [reqs|]; simpl in Hs; [unfold addEngineeringRequirements in Hs|]; invert_ok.
  - split; [by split|]. intros []; simpl; rewrite ?gate_references_ok; naive_solver.
  - split; [by split|]. intros []; simpl; naive_solver.
Qed.

Lemma extends_refl r new : agreeing r → (∀ o, ¬ new o) → extends r r new.
Proof. intros Ha Hn. split; [done|]. intros o. specialize (Hn o). tauto. Qed.

Lemma extends_trans r1 r2 r3 n1 n2 :
  extends r1 r2 n1 → extends r2 r3 n2 → extends r1 r3 (λ o, n1 o ∨ n2 o).
Proof. intros [_ H1] [Ha H2]. split; [done|]. intros o. rewrite H2, H1. tauto. Qed.

Lemma extends_iff r r' n1 n2 : extends r r' n1 → (∀ o, n1 o ↔ n2 o) → extends r r' n2.
Proof. intros [Ha H1] Hn. split; [done|]. intros o. by rewrite H1, Hn. Qed.

(** A rule adds exactly what its effect states. *)
Lemma addEffect_ok rule e r r' :
  addEffect rule e r = Ok r' → agreeing r → extends r r' (contributes e).
Proof.
  unfold addEffect. intros He Ha. invert_ok.
  pose proof (step_discharge r e.(Effect_AcceptanceDischargeClaims) Ha) as E1.
  match goal with H : when_some (Effect_Invariants e) _ _ = Ok _ |- _ =>
    pose proof (step_invariants _ _ _ _ (proj1 E1) H) as E2 end.
  match goal with H : when_some (Effect_Obligations e) _ _ = Ok _ |- _ =>
    pose proof (step_obligations _ _ _ _ (proj1 E2) H) as E3 end.
  match goal with H : when_some (Effect_RequiredClaims e) _ _ = Ok _ |- _ =>
    pose proof (step_claims _ _ _ _ (proj1 E3) H) as E4 end.
  pose proof (step_permissions rule _ e.(Effect_Permissions) (proj1 E4)) as E5.
  pose proof (step_prohibitions rule _ e.(Effect_Prohibitions) (proj1 E5)) as E6.
  match goal with H : when_some (Effect_EngineeringRequirements e) _ _ = Ok _ |- _ =>
    pose proof (step_requirements _ _ _ _ (proj1 E6) H) as E7 end.
  match goal with H : when_some (Effect_AuthorityConditions e) _ _ = Ok _ |- _ =>
    pose proof (step_conditions _ _ _ _ (proj1 E7) H) as E8 end.
  eapply extends_iff.
  - do 7 (eapply extends_trans; [eassumption|]). exact E8.
  - intros []; simpl; tauto.
Qed.
End resolution_lemmas.

(* ------------------------------------------------------------------ *)
(** * What a whole resolution records *)

Definition uncertainty (fact : EngineeringFact) : outcome :=
  Obligation ("resolve-uncertain-" +:+ fact.(Fact_ID))
    (MkDefinition ("Resolve uncertainty for engineering fact " +:+ fact.(Fact_Key) +:+ ".") [] false).

(** The claims policy designates as discharging acceptance. *)
Definition discharge_claims `{!MapRange} (policy : EngineeringPolicy) (facts : list EngineeringFact) : list string :=
  sorted_unique (concat ((λ rule, default [] (Effect_AcceptanceDischargeClaims rule.2)) <$> applied_rules policy facts)).

Definition accepts (discharge : list string) (criterion : string) (o : outcome) : Prop :=
  blank criterion = false
  ∧ match o with
    | Obligation id d => id = AcceptanceObligationID criterion ∧ d = MkDefinition criterion discharge true
    | Reference c => c ∈ discharge
    | _ => False
    end.

(** Where an outcome comes from: an unknown fact, a rule that applies, or an
    acceptance criterion. *)
Definition sources `{!MapRange} (input : CompileInput) (facts : list EngineeringFact) (o : outcome) : Prop :=
  (∃ fact, fact ∈ facts ∧ fact.(Fact_Value) = FactUnknown ∧ o = uncertainty fact)
  ∨ (∃ rule e, (rule, e) ∈ applied_rules input.(Compile_Policy) facts ∧ contributes e o)
  ∨ (∃ criterion, criterion ∈ input.(Compile_AcceptanceIntent)
       ∧ accepts (discharge_claims input.(Compile_Policy) facts) criterion o).

Section resolve.
Context `{!MapRange}.

Lemma agreeing_new : agreeing newResolution.
Proof. split; unfold maps_agree; simpl; by rewrite fmap_empty. Qed.

Lemma holds_new o : ¬ holds newResolution o.
Proof.
  destruct o; simpl; rewrite ?lookup_empty; simpl; rewrite ?elem_of_nil; try (intros [? [=]]); try done; tauto.
Qed.

(** One more obligation. *)
Lemma add_obligation_ok r id requirement source maps :
  agreeing r → addRequirement (obligation_maps r) id requirement source = Ok maps →
  extends r (set_obligations r maps) (λ o, match o with
    | Obligation k d => k = id ∧ d = normalizePolicyRequirement requirement
    | Reference c => c ∈ (normalizePolicyRequirement requirement).(definition_requiredClaims)
    | _ => False end).
Proof.
  intros [Hi Ho] Ha. split.
  - split; [exact Hi|]. change (maps_agree maps). by eapply addRequirement_agree.
  - pose proof (addRequirement_lookup _ _ _ _ _ Ha) as Hl. apply addRequirement_ok in Ha as [_ ->].
    intros []; simpl in *; rewrite ?Hl, ?add_references_dom; tauto.
Qed.

Lemma for_each_extends {E A} (f : resolution → A → result E resolution) (new : A → outcome → Prop) l r r' :
  (∀ x s1 s2, x ∈ l → agreeing s1 → f s1 x = Ok s2 → extends s1 s2 (new x)) →
  agreeing r → for_each f l r = Ok r' → extends r r' (λ o, ∃ x, x ∈ l ∧ new x o).
Proof.
  intros Hstep Ha. apply (for_each_ind f (λ done s, extends r s (λ o, ∃ x, x ∈ done ∧ new x o))).
  - split; [done|]. intros o. setoid_rewrite elem_of_nil. naive_solver.
  - intros done x rest s1 s2 -> H1 Hs.
    assert (x ∈ done ++ x :: rest) as Hx by set_solver.
    pose proof (Hstep x s1 s2 Hx (proj1 H1) Hs) as H2.
    eapply extends_iff; [by eapply extends_trans|]. intros o. simpl.
    setoid_rewrite elem_of_app. setoid_rewrite list_elem_of_singleton. naive_solver.
Qed.

Lemma add_unknown_facts_ok facts r r' :
  agreeing r → add_unknown_facts facts r = Ok r' →
  extends r r' (λ o, ∃ fact, fact ∈ facts ∧ fact.(Fact_Value) = FactUnknown ∧ o = uncertainty fact).
Proof.
  intros Ha Hf.
  refine (extends_iff _ _ _ _ (for_each_extends _
    (λ fact o, fact.(Fact_Value) = FactUnknown ∧ o = uncertainty fact) _ _ _ _ Ha Hf) _); [|done].
  intros fact s1 s2 _ Hs1 Hs. simpl in Hs. case_bool_decide as Hv; invert_ok.
  - unfold addUnknownResolution in Hs. invert_ok.
    match goal with H : addRequirement _ _ _ _ = Ok _ |- _ => apply add_obligation_ok in H; [|done] end.
    eapply extends_iff; [done|]. unfold uncertainty, normalizePolicyRequirement.
    intros []; simpl; rewrite ?elem_of_nil; split; try tauto; try (by intros [_ ?]);
      [intros [-> ->]; done|intros [_ [= -> ->]]; done].
  - split; [done|]. naive_solver.
Qed.

Lemma apply_rules_ok policy facts r r' :
  agreeing r → for_each (apply_rule policy facts) (sorted_keys policy.(Policy_Rules)) r = Ok r' →
  extends r r' (λ o, ∃ rule e, (rule, e) ∈ applied_rules policy facts ∧ contributes e o).
Proof.
  intros Ha Hf.
  refine (extends_iff _ _ _ _ (for_each_extends _
    (λ id o, ∃ rule, policy.(Policy_Rules) !! id = Some rule ∧ matchesAny rule.(Rule_When) facts = true
       ∧ contributes rule.(Rule_Effect) o) _ _ _ _ Ha Hf) _).
  - intros id s1 s2 _ Hs1 Hs. unfold apply_rule in Hs.
    destruct (Policy_Rules policy !! id) as [rule|] eqn:Hl;
      [|invert_ok; apply extends_refl; [done|]; by intros o (? & [=] & _)].
    destruct (matchesAny (Rule_When rule) facts) eqn:Hm; simpl in Hs;
      [|invert_ok; apply extends_refl; [done|]; intros o (? & [= <-] & ? & _); congruence].
    apply addEffect_ok in Hs; [|done]. eapply extends_iff; [done|]. naive_solver.
  - intros o. unfold applied_rules. setoid_rewrite list_elem_of_omap. split.
    + intros (id & Hin & rule & Hl & Hm & Hc). exists id, (Rule_Effect rule). split; [|done].
      exists id. rewrite Hl, Hm. done.
    + intros (id & e & (id' & Hin & Hx) & Hc). exists id'. split; [done|].
      destruct (Policy_Rules policy !! id') as [rule|] eqn:Hl; [|done].
      destruct (matchesAny (Rule_When rule) facts) eqn:Hm; [|done]. injection Hx as -> <-. eauto.
Qed.

Lemma acceptance_ok criteria r r' :
  agreeing r → addAcceptanceObligations criteria r = Ok r' →
  extends r r' (λ o, ∃ criterion, criterion ∈ criteria
    ∧ accepts (sorted_unique r.(acceptanceDischarge)) criterion o).
Proof.
  intros Ha Hf.
  refine (extends_iff _ _ _ _ (for_each_extends _ (accepts (sorted_unique r.(acceptanceDischarge))) _ _ _ _ Ha Hf) _).
  - intros criterion s1 s2 _ Hs1 Hs. unfold accepts. destruct (blank criterion) eqn:Hb; simpl in Hs; invert_ok.
    { apply extends_refl; [done|]. by intros o [? _]. }
    match goal with H : addRequirement _ _ _ _ = Ok _ |- _ => apply add_obligation_ok in H; [|done] end.
    eapply extends_iff; [done|].
    assert (normalizePolicyRequirement (MkPolicyRequirement criterion
      (if 0 <? length (sorted_unique (acceptanceDischarge r)) then Some (sorted_unique (acceptanceDischarge r))
       else None) true) = MkDefinition criterion (sorted_unique (acceptanceDischarge r)) true) as ->.
    { unfold normalizePolicyRequirement. simpl.
      destruct (sorted_unique (acceptanceDischarge r)) as [|c l] eqn:Hd; simpl; [done|].
      rewrite <- Hd. by rewrite sorted_unique_idemp. }
    intros []; simpl; tauto.
  - intros o. by setoid_rewrite elem_of_sorted_unique.
Qed.

Lemma resolve_ok input facts r :
  resolve input facts = Ok r → agreeing r ∧ ∀ o, holds r o ↔ sources input facts o.
Proof.
  unfold resolve. intros Hr. invert_ok.
  match goal with H : add_unknown_facts _ _ = Ok _ |- _ => pose proof (add_unknown_facts_ok _ _ _ agreeing_new H) as E1 end.
  match goal with H : for_each _ _ _ = Ok ?x |- _ => pose proof (apply_rules_ok _ _ _ _ (proj1 E1) H) as E2; set (rd := x) in * end.
  pose proof (acceptance_ok _ _ _ (proj1 E2) Hr) as E3. split; [exact (proj1 E3)|]. intros o.
  assert (sorted_unique rd.(acceptanceDischarge) = discharge_claims (Compile_Policy input) facts) as Hd.
  { unfold discharge_claims. apply sorted_unique_ext. intros c. change (c ∈ acceptanceDischarge rd) with (holds rd (Discharge c)).
    rewrite (proj2 E2), (proj2 E1), elem_of_concat. setoid_rewrite list_elem_of_fmap. split.
    - intros [[?%holds_new|(f & _ & _ & ?)]|(rule & e & Hin & Hc)]; try done.
      exists (default [] (Effect_AcceptanceDischargeClaims e)). split; [|done]. by exists (rule, e).
    - intros (l & ([rule e] & -> & Hin) & Hc). right. by exists rule, e. }
  rewrite (proj2 E3), (proj2 E2), (proj2 E1), Hd. unfold sources. pose proof (holds_new o). tauto.
Qed.
End resolve.

(* ------------------------------------------------------------------ *)
(** * The compiled contract *)

Section contract.
Context `{!MapRange, !SchemaValidator}.

Lemma condition_references_ok r c :
  is_Some (condition_references r !! c) ↔
  is_Some (r.(references) !! c) ∨ ∃ a cs, holds r (ConditionOn a cs) ∧ c ∈ cs.
Proof.
  unfold condition_references.
  assert (∀ l refs, is_Some (fold_left (λ references kv,
            add_references (conditionEntry_rule kv.2) (conditionEntry_claims kv.2) references) l refs !! c)
    ↔ is_Some (refs !! c) ∨ ∃ kv : Action * conditionEntry, kv ∈ l ∧ c ∈ conditionEntry_claims kv.2) as Hl.
  { induction l as [|kv l IH]; intros refs; simpl.
    - setoid_rewrite elem_of_nil. naive_solver.
    - rewrite IH, add_references_dom. setoid_rewrite elem_of_cons. naive_solver. }
  rewrite Hl. simpl. setoid_rewrite fmap_Some. split.
  - intros [?|([a e] & Hin%elem_of_range & Hc)]; [by left|]. right. exists a, (conditionEntry_claims e). eauto.
  - intros [?|(a & cs & (e & Ha & ->) & Hc)]; [by left|]. right. exists (a, e). by rewrite elem_of_range.
Qed.

Lemma validateReferences_ok r r' :
  validateReferences r = Ok r' →
  r' = set_references r (condition_references r)
  ∧ (∀ a, holds r (Permitted a) → ¬ holds r (Prohibited a))
  ∧ ∀ c, (holds r (Reference c) ∨ ∃ a cs, holds r (ConditionOn a cs) ∧ c ∈ cs) →
      ∃ claim, holds r (Claim c claim).
Proof.
  unfold validateReferences. intros Hv. invert_ok.
  match goal with H : check_all _ (sort_by _ _) = Ok _ |- _ => rewrite check_all_ok in H; rename H into Hp end.
  match goal with H : check_all _ (sorted_keys _) = Ok _ |- _ => rewrite check_all_ok in H; rename H into Hc end.
  split; [done|]. split; simpl.
  - intros a Ha [rule Hr]. specialize (Hp a). rewrite elem_of_sort_by, elem_of_range_keys in Hp.
    specialize (Hp Ha). by rewrite Hr in Hp.
  - intros c Href. specialize (Hc c). rewrite elem_of_sorted_keys, condition_references_ok in Hc.
    specialize (Hc Href). destruct (claims r !! c); [eauto|done].
Qed.

Lemma compile_inv input c :
  compile input = Ok c →
  ∃ facts r, validateInput input = Ok tt
    ∧ normalizedFacts input.(Compile_Facts) input.(Compile_Subject) = Ok facts
    ∧ resolve input facts = Ok r
    ∧ (∃ r', validateReferences r = Ok r')
    ∧ validateMaterialDischarge r = Ok tt
    ∧ rejectPermissionExpansion input.(Compile_PreviousContract) r.(permissions) = Ok tt
    ∧ c = contract_of input facts r.
Proof.
  unfold compile. intros Hc. invert_ok.
  match goal with H1 : normalizedFacts _ _ = Ok ?f, H2 : resolve _ ?f = Ok ?r, H3 : validateReferences ?r = Ok _ |- _ =>
    exists f, r; pose proof (proj1 (validateReferences_ok _ _ H3)) end.
  subst. split_and!; eauto.
Qed.

(** The resolution behind a contract. *)
Lemma compile_resolution input c :
  compile input = Ok c →
  ∃ facts r, normalizedFacts input.(Compile_Facts) input.(Compile_Subject) = Ok facts
    ∧ c = contract_of input facts r ∧ agreeing r ∧ (∀ o, holds r o ↔ sources input facts o).
Proof.
  intros (facts & r & _ & Hf & Hr & _ & _ & _ & Hc)%compile_inv.
  exists facts, r. destruct (resolve_ok _ _ _ Hr). eauto.
Qed.

Lemma elem_of_sortedActions m a : a ∈ sortedActions m ↔ is_Some (m !! a).
Proof. unfold sortedActions. by rewrite elem_of_sort_by, elem_of_range_keys. Qed.

Lemma elem_of_sortedConditions m condition :
  condition ∈ sortedConditions m ↔
  conditionEntry_claims <$> (m !! condition.(Condition_Action)) = Some condition.(Condition_RequiredClaims).
Proof.
  unfold sortedConditions. rewrite list_elem_of_fmap. setoid_rewrite elem_of_sort_by.
  setoid_rewrite elem_of_range_keys. split.
  - intros (a & -> & [e Ha]). simpl. by rewrite Ha.
  - intros Hc. exists (Condition_Action condition). destruct condition as [a cs]; simpl in *.
    apply fmap_Some in Hc as (e & Ha & ->). rewrite Ha. by split.
Qed.

Lemma agreeing_obligations r id q :
  agreeing r → r.(obligations) !! id = Some q ↔ ∃ d, q = emit d ∧ holds r (Obligation id d).
Proof. intros [_ Ho]. unfold maps_agree in Ho. simpl in *. rewrite Ho, lookup_fmap, fmap_Some. naive_solver. Qed.

Lemma agreeing_invariants r id q :
  agreeing r → r.(invariants) !! id = Some q ↔ ∃ d, q = emit d ∧ holds r (Invariant id d).
Proof. intros [Hi _]. unfold maps_agree in Hi. simpl in *. rewrite Hi, lookup_fmap, fmap_Some. naive_solver. Qed.

(** C35: the contract is exactly what its sources state: every permission,
    prohibition, requirement, claim and authority condition comes from a
    rule that applies (an obligation also from an unknown fact or an
    acceptance criterion), and none that a source states is lost. *)
Theorem Compile_outcomes input c :
  Compile input = Ok c →
  ∃ facts, normalizedFacts input.(Compile_Facts) input.(Compile_Subject) = Ok facts
  ∧ (∀ a, a ∈ c.(Contract_Permissions) ↔ sources input facts (Permitted a))
  ∧ (∀ a, a ∈ c.(Contract_Prohibitions) ↔ sources input facts (Prohibited a))
  ∧ (∀ id q, c.(Contract_Obligations) !! id = Some q ↔ ∃ d, q = emit d ∧ sources input facts (Obligation id d))
  ∧ (∀ id q, c.(Contract_Invariants) !! id = Some q ↔ ∃ d, q = emit d ∧ sources input facts (Invariant id d))
  ∧ (∀ id q, c.(Contract_RequiredClaims) !! id = Some q ↔ sources input facts (Claim id q))
  ∧ (∀ a cs, MkAuthorityCondition a cs ∈ c.(Contract_AuthorityConditions) ↔ sources input facts (ConditionOn a cs)).
Proof.
  unfold Compile. rewrite wrap_ok. intros (facts & r & Hf & -> & Ha & Ho)%compile_resolution.
  exists facts. split; [done|]. simpl.
  setoid_rewrite elem_of_sortedActions. setoid_rewrite elem_of_sortedConditions.
  split_and!; intros; rewrite <- ?Ho; [done|done| | |done|done].
  - rewrite agreeing_obligations by done. by setoid_rewrite <- Ho.
  - rewrite agreeing_invariants by done. by setoid_rewrite <- Ho.
Qed.
End contract.

Section consistency.
Context `{!MapRange, !SchemaValidator}.

Lemma sortedConditions_NoDup m : NoDup (Condition_Action <$> sortedConditions m).
Proof.
  unfold sortedConditions. rewrite <- list_fmap_compose.
  rewrite (list_fmap_ext _ id) by done. rewrite list_fmap_id, sort_by_perm. apply range_keys_NoDup.
Qed.

Lemma sortedActions_nil m : sortedActions m = [] ↔ m = ∅.
Proof.
  split; [|intros ->].
  - intros Hn. apply map_empty. intros a. apply eq_None_not_Some. rewrite <- elem_of_sortedActions, Hn.
    apply not_elem_of_nil.
  - unfold sortedActions. apply Permutation_nil_r. rewrite sort_by_perm. unfold range_keys.
    rewrite range_perm, map_to_list_empty. done.
Qed.

Lemma sortedConditions_nil m : m = ∅ → sortedConditions m = [].
Proof.
  intros ->. apply elem_of_nil_inv. intros x. by rewrite elem_of_sortedConditions, lookup_empty.
Qed.

(** A claim an obligation or condition names is referenced. *)
Lemma obligation_reference input facts id d c :
  sources input facts (Obligation id d) → c ∈ d.(definition_requiredClaims) → sources input facts (Reference c).
Proof.
  unfold sources. intros [(fact & _ & _ & [= -> ->])|[(rule & e & Hin & He)|(criterion & Hin & Hb & -> & ->)]] Hc.
  - simpl in Hc. by apply not_elem_of_nil in Hc.
  - right; left. exists rule, e. split; [done|]. simpl in *. right; left. by exists id, d.
  - right; right. exists criterion. by split.
Qed.

(** C36: a compiled contract never both permits and prohibits an action,
    names no action in two authority conditions, and references only
    claims it defines; when it can authorize anything, every material
    obligation has a discharge claim, so that action authority accepts the
    contract's references. *)
Theorem Compile_consistent input c :
  Compile input = Ok c →
  (∀ a, a ∈ c.(Contract_Permissions) → a ∉ c.(Contract_Prohibitions))
  ∧ NoDup (Condition_Action <$> c.(Contract_AuthorityConditions))
  ∧ (∀ id q claim, c.(Contract_Obligations) !! id = Some q ∨ c.(Contract_Invariants) !! id = Some q →
       claim ∈ q.(Requirement_RequiredClaims) → is_Some (c.(Contract_RequiredClaims) !! claim))
  ∧ (∀ condition claim, condition ∈ c.(Contract_AuthorityConditions) →
       claim ∈ condition.(Condition_RequiredClaims) → is_Some (c.(Contract_RequiredClaims) !! claim))
  ∧ (c.(Contract_Permissions) ≠ [] ∨ c.(Contract_AuthorityConditions) ≠ [] →
       Authority.validateContractReferences c = Ok tt).
Proof.
  unfold Compile. rewrite wrap_ok. intros (facts & r & _ & _ & Hr & [r' Hv] & Hm & _ & ->)%compile_inv.
  apply resolve_ok in Hr as [Ha Ho]. apply validateReferences_ok in Hv as (_ & Hpp & Href). simpl.
  assert (∀ id d claim, holds r (Obligation id d) ∨ holds r (Invariant id d) →
            claim ∈ d.(definition_requiredClaims) → is_Some (r.(claims) !! claim)) as Hd.
  { intros id d claim Hh Hc. destruct (Href claim) as [x Hx]; [|by exists x]. left. rewrite Ho.
    destruct Hh as [Hh|Hh]; rewrite Ho in Hh; [by eapply obligation_reference|].
    destruct Hh as [(? & _ & _ & [=])|[(rule & e & Hin & He)|(? & _ & _ & [])]].
    right; left. exists rule, e. split; [done|]. simpl in *. left. by exists id, d. }
  assert (∀ condition claim, condition ∈ sortedConditions r.(conditions) →
       claim ∈ condition.(Condition_RequiredClaims) → is_Some (r.(claims) !! claim)) as Hcond.
  { intros condition claim Hc Hin. rewrite elem_of_sortedConditions in Hc.
    destruct (Href claim) as [x Hx]; [|by exists x]. right. eauto. }
  assert (∀ id q claim, r.(obligations) !! id = Some q ∨ r.(invariants) !! id = Some q →
       claim ∈ q.(Requirement_RequiredClaims) → is_Some (r.(claims) !! claim)) as Hreq.
  { intros id q claim [Hq|Hq] Hc;
      [rewrite agreeing_obligations in Hq by done|rewrite agreeing_invariants in Hq by done];
      destruct Hq as (d & -> & Hq); eapply Hd; eauto. }
  split_and!; [|apply sortedConditions_NoDup|done|done|].
  - intros a. rewrite !elem_of_sortedActions. apply Hpp.
  - intros Hcan. apply validateContractReferences_intro; simpl; [|apply sortedConditions_NoDup|exact Hcond].
    intros id q Hq Hmat. split; [|intros claim; apply (Hreq id); auto].
    unfold validateMaterialDischarge in Hm.
    assert (bool_decide (r.(permissions) = ∅) && bool_decide (r.(conditions) = ∅) = false) as Hg.
    { apply andb_false_iff. rewrite !bool_decide_eq_false. destruct Hcan as [Hc|Hc]; [left|right]; intros He; apply Hc.
      - by apply sortedActions_nil.
      - by apply sortedConditions_nil. }
    rewrite Hg, check_all_ok in Hm. specialize (Hm id).
    rewrite elem_of_sorted_keys, Hq in Hm. specialize (Hm ltac:(eauto)). invert_ok.
    rewrite Hmat in Hm. by destruct (Requirement_RequiredClaims q).
Qed.

(** Recompilation never expands permission: with a previous contract,
    every permission of the new one was already granted by it. *)
Theorem Compile_permission_ceiling input previous c :
  input.(Compile_PreviousContract) = Some previous → Compile input = Ok c →
  c.(Contract_Permissions) ⊆ previous.(Contract_Permissions)
  ∧ c.(Contract_ID) = previous.(Contract_ID)
  ∧ c.(Contract_Provenance).(Provenance_PreviousContractRevision) = Some previous.(Contract_Revision).
Proof.
  unfold Compile. intros Hp. rewrite wrap_ok.
  intros (facts & r & Hi & _ & _ & _ & _ & Hx & ->)%compile_inv. simpl. rewrite Hp. split_and!; [|..|done].
  - intros a Ha. rewrite elem_of_sortedActions in Ha. rewrite Hp in Hx. simpl in Hx. rewrite check_all_ok in Hx.
    specialize (Hx a). rewrite elem_of_range_keys in Hx. specialize (Hx Ha). invert_ok.
    apply negb_false_iff, bool_decide_eq_true in Hx. by rewrite elem_of_list_to_set in Hx.
  - unfold validateInput in Hi. rewrite Hp in Hi. invert_ok. reflect_bools. done.
Qed.
End consistency.

(* ------------------------------------------------------------------ *)
(** * Acceptance, end to end *)

Section acceptance.
Context `{!MapRange, !SchemaValidator}.

(** C14: no action of a compiled contract is authorized past its acceptance
    criteria: when [authority.Evaluate] authorizes one, every criterion is
    a material obligation with at least one discharge claim, and each of
    those claims has valid passing evidence bound to the contract and no
    valid failing evidence. *)
Theorem Compile_acceptance_enforced input c evaluated d criterion :
  Compile input = Ok c → evaluated.(Input_Contract) = c →
  Evaluate evaluated = Ok d → d.(Decision_Status) = AuthorityAuthorized →
  criterion ∈ input.(Compile_AcceptanceIntent) → blank criterion = false →
  ∃ q, c.(Contract_Obligations) !! AcceptanceObligationID criterion = Some q
    ∧ q.(Requirement_Statement) = criterion ∧ q.(Requirement_RequiredClaims) ≠ []
    ∧ ∀ id, id ∈ q.(Requirement_RequiredClaims) →
        ∃ claim, c.(Contract_RequiredClaims) !! id = Some claim
          ∧ some_item evaluated id claim (passing_item evaluated claim)
          ∧ ¬ some_item evaluated id claim failing_item.
Proof.
  unfold Compile. rewrite wrap_ok. intros (facts & r & _ & -> & Ha & Ho)%compile_resolution Hc Hd Hs Hin Hb.
  set (definition := MkDefinition criterion (discharge_claims input.(Compile_Policy) facts) true).
  assert (Contract_Obligations (contract_of input facts r) !! AcceptanceObligationID criterion
          = Some (emit definition)) as Hq.
  { simpl. rewrite agreeing_obligations by done. exists definition. split; [done|].
    apply Ho. right; right. exists criterion. split_and!; auto. by split. }
  exists (emit definition). split; [done|]. split; [done|].
  assert (Authority.validateContractReferences (contract_of input facts r) = Ok tt) as Href.
  { apply Evaluate_inv in Hd as (Hv & _). unfold Authority.validateInput in Hv. invert_ok. by rewrite <- Hc. }
  split; [by eapply validateContractReferences_discharged|].
  intros id Hid.
  assert (required_for (contract_of input facts r) (Input_Action evaluated) id) as Hreq by (right; eauto).
  destruct (validateContractReferences_defined _ _ _ Href Hreq) as [claim Hl].
  exists claim. split; [done|].
  rewrite <- Hc in Hreq, Hl.
  pose proof (authorized_satisfied _ _ _ Hd Hs Hreq) as Hst.
  unfold state_of, claim_or_zero in Hst. rewrite Hl in Hst. simpl in Hst.
  apply claimState_iff in Hst. simpl in Hst. tauto.
Qed.
End acceptance.

(* ------------------------------------------------------------------ *)
(** * Roles *)

(** [role] asks for at least what [stated] asks for, and permits a human
    substitution only if [stated] does. *)
Record at_least (stated role : RoleRequirement) : Prop := {
  at_least_role : role.(Role_Role) = stated.(Role_Role);
  at_least_capabilities : ∀ c, c ∈ stated.(Role_Capabilities) → c ∈ role.(Role_Capabilities);
  at_least_trust : (trustStrength stated.(Role_TrustRequirement) <= trustStrength role.(Role_TrustRequirement))%Z;
  at_least_independence : ∀ i, stated.(Role_Independence) = Some i →
    ∃ j, role.(Role_Independence) = Some j
    ∧ (dimensionStrength i.(Independence_Dimension) <= dimensionStrength j.(Independence_Dimension))%Z
    ∧ (∀ x, x ∈ i.(Independence_DifferentFrom) → x ∈ j.(Independence_DifferentFrom))
    ∧ (j.(Independence_HumanSubstitutionPermitted) = true → i.(Independence_HumanSubstitutionPermitted) = true)
}.

Lemma at_least_trans r1 r2 r3 : at_least r1 r2 → at_least r2 r3 → at_least r1 r3.
Proof.
  intros [H1 H2 H3 H4] [K1 K2 K3 K4]. split; [congruence|auto|lia|].
  intros i Hi. destruct (H4 i Hi) as (j & Hj & ? & ? & ?). destruct (K4 j Hj) as (k & Hk & ? & ? & ?).
  exists k. split_and!; [done|lia|auto|auto].
Qed.

Lemma elem_of_sortedUniqueCapabilities c values :
  c ∈ sortedUniqueCapabilities values ↔ c ∈ values ∧ c ∈ EngineeringCapabilities.
Proof.
  unfold sortedUniqueCapabilities. destruct values as [|v l]; simpl.
  - rewrite elem_of_nil. naive_solver.
  - rewrite list_elem_of_filter. change (list_to_set (v :: l) : gset string) with ({[v]} ∪ list_to_set l : gset string).
    rewrite elem_of_union, elem_of_singleton, elem_of_list_to_set, elem_of_cons. tauto.
Qed.

Lemma mergeIndependence_left l r i :
  l = Some i →
  ∃ j, mergeIndependence l r = Some j
    ∧ (dimensionStrength i.(Independence_Dimension) <= dimensionStrength j.(Independence_Dimension))%Z
    ∧ (∀ x, x ∈ i.(Independence_DifferentFrom) → x ∈ j.(Independence_DifferentFrom))
    ∧ (j.(Independence_HumanSubstitutionPermitted) = true → i.(Independence_HumanSubstitutionPermitted) = true).
Proof.
  intros ->. destruct r as [r|]; simpl; [|exists i; split_and!; auto; lia].
  eexists. split; [done|]. simpl. split_and!.
  - destruct (_ <? _)%Z eqn:Hlt; simpl; lia.
  - intros x Hx. rewrite elem_of_sorted_unique, elem_of_app. by left.
  - by intros [? ?]%andb_true_iff.
Qed.

Lemma mergeIndependence_right l r i :
  r = Some i →
  ∃ j, mergeIndependence l r = Some j
    ∧ (dimensionStrength i.(Independence_Dimension) <= dimensionStrength j.(Independence_Dimension))%Z
    ∧ (∀ x, x ∈ i.(Independence_DifferentFrom) → x ∈ j.(Independence_DifferentFrom))
    ∧ (j.(Independence_HumanSubstitutionPermitted) = true → i.(Independence_HumanSubstitutionPermitted) = true).
Proof.
  intros ->. destruct l as [l|]; simpl; [|exists i; split_and!; auto; lia].
  eexists. split; [done|]. simpl. split_and!.
  - destruct (_ <? _)%Z eqn:Hlt; simpl; lia.
  - intros x Hx. rewrite elem_of_sorted_unique, elem_of_app. by right.
  - by intros [? ?]%andb_true_iff.
Qed.

Lemma mergeRole_left l r :
  (∀ c, c ∈ l.(Role_Capabilities) → c ∈ EngineeringCapabilities) → at_least l (mergeRoleRequirements l r).
Proof.
  intros Hk. split; simpl; [done| | |intros i; apply mergeIndependence_left].
  - intros c Hc. rewrite elem_of_sortedUniqueCapabilities, elem_of_app. auto.
  - destruct (_ <? _)%Z eqn:Hlt; lia.
Qed.

Lemma mergeRole_right l r :
  l.(Role_Role) = r.(Role_Role) →
  (∀ c, c ∈ r.(Role_Capabilities) → c ∈ EngineeringCapabilities) → at_least r (mergeRoleRequirements l r).
Proof.
  intros Hr Hk. split; simpl; [done| | |intros i; apply mergeIndependence_right].
  - intros c Hc. rewrite elem_of_sortedUniqueCapabilities, elem_of_app. auto.
  - destruct (_ <? _)%Z eqn:Hlt; lia.
Qed.

Lemma normalizeRole_at_least role :
  (∀ c, c ∈ role.(Role_Capabilities) → c ∈ EngineeringCapabilities) → at_least role (normalizeRoleRequirement role).
Proof.
  intros Hk. split; simpl; [done| |lia|].
  - intros c Hc. rewrite elem_of_sortedUniqueCapabilities. auto.
  - intros i ->. simpl. eexists. split; [done|]. simpl. split_and!; [lia| |done].
    intros x. by rewrite elem_of_sorted_unique.
Qed.

(** Only known roles and capabilities are recorded, each role under its own
    name. *)
Definition roles_known (roles : gmap string RoleRequirement) : Prop :=
  ∀ k role, roles !! k = Some role →
    role.(Role_Role) = k ∧ k ∈ EngineeringRoles ∧ ∀ c, c ∈ role.(Role_Capabilities) → c ∈ EngineeringCapabilities.

Definition covered (roles : gmap string RoleRequirement) (stated : RoleRequirement) : Prop :=
  ∃ role, roles !! stated.(Role_Role) = Some role ∧ at_least stated role.

Definition gate_covered (gates : gmap string GateRequirement) (stated : GateRequirement) : Prop :=
  ∃ gate, gates !! gateKey stated = Some gate
    ∧ ∀ c, c ∈ stated.(Gate_RequiredClaims) → c ∈ gate.(Gate_RequiredClaims).

Section roles.
Lemma known_in (l : list string) x : existsb (λ known, known ≟ x) l = true ↔ x ∈ l.
Proof. rewrite existsb_elem. setoid_rewrite bool_decide_eq_true. naive_solver. Qed.

Lemma add_role_ok rule roles stated roles' :
  add_role rule roles stated = Ok roles' → roles_known roles →
  roles_known roles' ∧ covered roles' stated ∧ (∀ s, covered roles s → covered roles' s).
Proof.
  unfold add_role. intros Hr Hk. invert_ok.
  match goal with H : negb (KnownRole _) = false |- _ => apply negb_false_iff, known_in in H; rename H into Hrole end.
  match goal with H : check_all _ _ = Ok _ |- _ => rewrite check_all_ok in H; rename H into Hc end.
  assert (∀ c, c ∈ stated.(Role_Capabilities) → c ∈ EngineeringCapabilities) as Hcaps.
  { intros c Hin. specialize (Hc c Hin). apply refuse_if_ok, negb_false_iff, known_in in Hc. done. }
  assert (∀ c, c ∈ Role_Capabilities (normalizeRoleRequirement stated) → c ∈ EngineeringCapabilities) as Hncaps.
  { intros c. simpl. rewrite elem_of_sortedUniqueCapabilities. tauto. }
  pose proof (normalizeRole_at_least stated Hcaps) as Hnorm.
  destruct (roles !! Role_Role stated) as [existing|] eqn:Hl.
  - destruct (Hk _ _ Hl) as (He & _ & Hec).
    assert (at_least existing (mergeRoleRequirements existing (normalizeRoleRequirement stated))) as Hleft
      by (by apply mergeRole_left).
    assert (at_least stated (mergeRoleRequirements existing (normalizeRoleRequirement stated))) as Hright
      by (eapply at_least_trans; [exact Hnorm|apply mergeRole_right; [done|apply Hncaps]]).
    split_and!.
    + intros k role. rewrite lookup_insert_Some. intros [[<- <-]|[_ Hx]]; [|by apply Hk].
      split_and!; [done|done|]. intros c. simpl. rewrite elem_of_sortedUniqueCapabilities. tauto.
    + unfold covered. rewrite lookup_insert_eq. eauto.
    + intros s (role & Hs & Hal). unfold covered. destruct (decide (Role_Role s = Role_Role stated)) as [Heq|Hne].
      * rewrite Heq, lookup_insert_eq. eexists. split; [done|].
        rewrite Heq, Hl in Hs. injection Hs as <-. by eapply at_least_trans.
      * rewrite lookup_insert_ne by done. eauto.
  - split_and!.
    + intros k role. rewrite lookup_insert_Some. intros [[<- <-]|[_ Hx]]; [|by apply Hk]. done.
    + unfold covered. rewrite lookup_insert_eq. eauto.
    + intros s (role & Hs & Hal). unfold covered. rewrite lookup_insert_ne; [by eauto|]. congruence.
Qed.

Lemma add_roles_ok rule stated roles roles' :
  for_each (add_role rule) stated roles = Ok roles' → roles_known roles →
  roles_known roles' ∧ (∀ s, s ∈ stated → covered roles' s) ∧ (∀ s, covered roles s → covered roles' s).
Proof.
  intros Hf Hk.
  eapply (for_each_ind _ (λ done m, roles_known m ∧ (∀ s, s ∈ done → covered m s)
    ∧ (∀ s, covered roles s → covered m s))) in Hf; [exact Hf| |].
  - split_and!; [done| |done]. intros s Hs. by apply not_elem_of_nil in Hs.
  - intros done x rest m1 m2 _ (Hk1 & Hd & Hm) Hs. apply add_role_ok in Hs as (Hk2 & Hx & Hm2); [|done].
    split_and!; [done| |auto]. intros s [?| ->%list_elem_of_singleton]%elem_of_app; auto.
Qed.

Lemma add_gate_ok rule gates stated gates' :
  add_gate rule gates stated = Ok gates' →
  gate_covered gates' stated ∧ (∀ g, gate_covered gates g → gate_covered gates' g).
Proof.
  unfold add_gate. intros Hg. invert_ok. unfold gate_covered. split.
  - rewrite lookup_insert_eq. eexists. split; [done|]. intros c Hc.
    destruct (gates !! gateKey stated); simpl; rewrite elem_of_sorted_unique, ?elem_of_app; auto.
  - intros g (x & Hl & Hx). destruct (decide (gateKey g = gateKey stated)) as [He|Hne].
    + rewrite He, lookup_insert_eq. eexists. split; [done|]. rewrite <- He, Hl. simpl.
      intros c Hc. rewrite elem_of_sorted_unique, elem_of_app. auto.
    + rewrite lookup_insert_ne by done. eauto.
Qed.

Lemma add_gates_ok rule stated gates gates' :
  for_each (add_gate rule) stated gates = Ok gates' →
  (∀ g, g ∈ stated → gate_covered gates' g) ∧ (∀ g, gate_covered gates g → gate_covered gates' g).
Proof.
  intros Hf. eapply (for_each_ind _ (λ done m, (∀ g, g ∈ done → gate_covered m g)
    ∧ (∀ g, gate_covered gates g → gate_covered m g))) in Hf; [exact Hf| |].
  - split; [|done]. intros s Hs. by apply not_elem_of_nil in Hs.
  - intros done x rest m1 m2 _ (Hd & Hm) Hs. apply add_gate_ok in Hs as (Hx & Hm2).
    split; [|auto]. intros s [?| ->%list_elem_of_singleton]%elem_of_app; auto.
Qed.

Lemma add_capabilities_ok rule stated cs cs' :
  for_each (add_capability rule) stated cs = Ok cs' →
  (∀ c, c ∈ cs' ↔ c ∈ cs ∨ c ∈ stated) ∧ (∀ c, c ∈ stated → c ∈ EngineeringCapabilities).
Proof.
  intros Hf. eapply (for_each_ind _ (λ done m, (∀ c, c ∈ m ↔ c ∈ cs ∨ c ∈ done)
    ∧ (∀ c, c ∈ done → c ∈ EngineeringCapabilities))) in Hf; [exact Hf| |].
  - setoid_rewrite elem_of_nil. naive_solver.
  - intros done x rest m1 m2 _ (Hm & Hd) Hs. unfold add_capability in Hs. invert_ok.
    match goal with H : negb (KnownCapability _) = false |- _ => apply negb_false_iff, known_in in H end.
    setoid_rewrite elem_of_app. setoid_rewrite list_elem_of_singleton. setoid_rewrite elem_of_union.
    setoid_rewrite elem_of_singleton. setoid_rewrite Hm. naive_solver.
Qed.
End roles.

(** What a resolution owes to one rule's plan requirements. *)
Definition plan_covers (r : resolution) (reqs : PlanRequirements) : Prop :=
  (∀ s, s ∈ reqs.(PlanRequirements_Roles) → covered r.(roles) s)
  ∧ (∀ c, c ∈ reqs.(PlanRequirements_Capabilities) → c ∈ r.(capabilities) ∧ c ∈ EngineeringCapabilities)
  ∧ (∀ g, g ∈ reqs.(PlanRequirements_Gates) → gate_covered r.(gates) g).

Definition plan_step (r r' : resolution) : Prop :=
  roles_known r.(roles) →
  roles_known r'.(roles) ∧ ∀ reqs, plan_covers r reqs → plan_covers r' reqs.

Section plans.
Context `{!MapRange}.

(** Only [addEngineeringRequirements] touches the plan-shaped fields. *)
Definition same_plan (r r' : resolution) : Prop :=
  r'.(roles) = r.(roles) ∧ r'.(capabilities) = r.(capabilities) ∧ r'.(gates) = r.(gates).

Lemma same_plan_step r r' : same_plan r r' → plan_step r r'.
Proof. intros (H1 & H2 & H3) Hk. unfold plan_covers. rewrite H1, H2, H3. auto. Qed.

Lemma when_some_plan {A} (o : option A) f (r r' : resolution) :
  when_some (E := CompileError) o f r = Ok r' →
  (∀ a s s', f a s = Ok s' → same_plan s s') → same_plan r r'.
Proof. destruct o; simpl; intros Hf Hs; [eauto|]. invert_ok. done. Qed.

Lemma addEffect_plan rule e r r' :
  addEffect rule e r = Ok r' →
  plan_step r r' ∧ (roles_known r.(roles) → ∀ reqs, e.(Effect_EngineeringRequirements) = Some reqs → plan_covers r' reqs).
Proof.
  unfold addEffect. intros He. invert_ok.
  repeat match goal with H : when_some ?o _ _ = Ok _ |- _ =>
    lazymatch o with
    | Effect_EngineeringRequirements _ => fail
    | _ => apply when_some_plan in H; [|intros ? ? ? ?; invert_ok; done]
    end end.
  match goal with H : when_some _ _ ?s = Ok ?s' |- _ => rename H into Hreq; set (r1 := s) in *; rename s' into r2 end.
  assert (same_plan r r1) as (E1 & E2 & E3).
  { unfold same_plan in *. subst r1.
    destruct (Effect_Permissions e), (Effect_Prohibitions e), (Effect_AcceptanceDischargeClaims e);
      simpl in *; naive_solver congruence. }
  match goal with H : same_plan r2 r' |- _ => destruct H as (F1 & F2 & F3) end.
  unfold plan_step, plan_covers. rewrite F1, F2, F3, <- E1, <- E2, <- E3.
  destruct (Effect_EngineeringRequirements e) as [reqs|]; simpl in Hreq;
    [unfold addEngineeringRequirements in Hreq|]; invert_ok; [|split; [auto|done]]. simpl.
  match goal with H : for_each (add_role _) _ _ = Ok _ |- _ => pose proof (add_roles_ok _ _ _ _ H) as Hroles end.
  match goal with H : for_each (add_gate _) _ _ = Ok _ |- _ => pose proof (add_gates_ok _ _ _ _ H) as [Hg1 Hg2] end.
  match goal with H : for_each (add_capability _) _ _ = Ok _ |- _ => pose proof (add_capabilities_ok _ _ _ _ H) as [Hc1 Hc2] end.
  split.
  - intros Hk. destruct (Hroles Hk) as (Hk' & Hr1 & Hr2). split; [done|].
    intros reqs' (Hr & Hc & Hg). split_and!; [by auto| |by auto].
    intros c Hin. split; [apply Hc1; left; by apply Hc|by apply Hc].
  - intros Hk reqs' [= <-]. destruct (Hroles Hk) as (Hk' & Hr1 & Hr2). split_and!; [by auto| |by auto].
    intros c Hin. split; [apply Hc1; by right|by apply Hc2].
Qed.
End plans.

Section plan_theorem.
Context `{!MapRange, !SchemaValidator}.

Lemma resolve_plan input facts r rule e reqs :
  resolve input facts = Ok r → (rule, e) ∈ applied_rules input.(Compile_Policy) facts →
  e.(Effect_EngineeringRequirements) = Some reqs → roles_known r.(roles) ∧ plan_covers r reqs.
Proof.
  unfold resolve. intros Hr Hin Hreq. invert_ok.
  match goal with H : add_unknown_facts _ _ = Ok _ |- _ => rename H into Hu end.
  match goal with H : for_each _ (sorted_keys _) _ = Ok _ |- _ => rename H into Hrules end.
  apply (for_each_inv _ (λ s, roles_known s.(roles))) in Hu; [|by intros k role| ].
  2:{ intros fact s1 s2 _ Hk Hs. simpl in Hs. case_bool_decide; [unfold addUnknownResolution in Hs|]; invert_ok; done. }
  apply (for_each_ind _ (λ done s, roles_known s.(roles) ∧ ∀ id pr q, id ∈ done →
    input.(Compile_Policy).(Policy_Rules) !! id = Some pr → matchesAny pr.(Rule_When) facts = true →
    pr.(Rule_Effect).(Effect_EngineeringRequirements) = Some q → plan_covers s q)) in Hrules.
  - destruct Hrules as [Hk Hall].
    apply (for_each_inv _ (λ s, roles_known s.(roles) ∧ plan_covers s reqs)) in Hr; [done| |].
    + split; [done|]. unfold applied_rules in Hin. apply list_elem_of_omap in Hin as (id & Hid & Hx).
      destruct (Policy_Rules (Compile_Policy input) !! id) as [pr|] eqn:Hl; [|done].
      destruct (matchesAny (Rule_When pr) facts) eqn:Hm; [|done]. injection Hx as <- <-. by eapply Hall.
    + intros criterion s1 s2 _ Hs1 Hs. simpl in Hs. destruct (blank criterion); invert_ok; done.
  - split; [done|]. intros id pr q Hid. by apply not_elem_of_nil in Hid.
  - intros done id rest s1 s2 _ [Hk Hall] Hs. unfold apply_rule in Hs.
    destruct (Policy_Rules (Compile_Policy input) !! id) as [pr|] eqn:Hl.
    + destruct (matchesAny (Rule_When pr) facts) eqn:Hm; simpl in Hs; invert_ok.
      * apply addEffect_plan in Hs as [Hstep Hnew]. destruct (Hstep Hk) as [Hk' Hmono]. split; [done|].
        intros id' pr' q [Hd| ->%list_elem_of_singleton]%elem_of_app Hl' Hm' Hq; [eauto|].
        rewrite Hl in Hl'. injection Hl' as <-. auto.
      * split; [done|]. intros id' pr' q [Hd| ->%list_elem_of_singleton]%elem_of_app Hl' Hm' Hq; [eauto|].
        congruence.
    + invert_ok. split; [done|]. intros id' pr' q [Hd| ->%list_elem_of_singleton]%elem_of_app Hl' Hm' Hq; [eauto|].
      congruence.
Qed.

Lemma planRequirements_some r :
  r.(roles) ≠ ∅ ∨ r.(capabilities) ≠ ∅ ∨ r.(gates) ≠ ∅ →
  planRequirements r = Some (MkPlanRequirements
    (omap (λ role, r.(roles) !! role) EngineeringRoles)
    (filter (λ capability, capability ∈ r.(capabilities)) EngineeringCapabilities)
    (omap (λ key, r.(gates) !! key) (sorted_keys r.(gates)))).
Proof.
  unfold planRequirements. intros Hne.
  destruct (bool_decide (roles r = ∅) && bool_decide (capabilities r = ∅) && bool_decide (gates r = ∅)) eqn:Hb;
    [|done].
  apply andb_true_iff in Hb as [[H1 H2]%andb_true_iff H3].
  rewrite bool_decide_eq_true in H1, H2, H3. naive_solver.
Qed.

(** Merging plan requirements never weakens one: for every rule that
    applies, each role it states is in the plan with at least its
    capabilities, trust, independence dimension and separation, and with a
    human substitution only if it permits one; each capability is in the
    plan; and each gate is there with all its claims. *)
Theorem Compile_plan_requirements input c :
  Compile input = Ok c →
  ∃ facts, normalizedFacts input.(Compile_Facts) input.(Compile_Subject) = Ok facts
  ∧ ∀ rule e reqs, (rule, e) ∈ applied_rules input.(Compile_Policy) facts →
      e.(Effect_EngineeringRequirements) = Some reqs →
      (∀ s, s ∈ reqs.(PlanRequirements_Roles) →
         ∃ plan role, c.(Contract_PlanRequirements) = Some plan
           ∧ role ∈ plan.(PlanRequirements_Roles) ∧ at_least s role)
      ∧ (∀ cap, cap ∈ reqs.(PlanRequirements_Capabilities) →
         ∃ plan, c.(Contract_PlanRequirements) = Some plan ∧ cap ∈ plan.(PlanRequirements_Capabilities))
      ∧ (∀ g, g ∈ reqs.(PlanRequirements_Gates) →
         ∃ plan gate, c.(Contract_PlanRequirements) = Some plan ∧ gate ∈ plan.(PlanRequirements_Gates)
           ∧ ∀ claim, claim ∈ g.(Gate_RequiredClaims) → claim ∈ gate.(Gate_RequiredClaims)).
Proof.
  unfold Compile. rewrite wrap_ok. intros (facts & r & _ & Hf & Hr & _ & _ & _ & ->)%compile_inv.
  exists facts. split; [done|]. intros rule e reqs Hin Hreq.
  destruct (resolve_plan _ _ _ _ _ _ Hr Hin Hreq) as (Hk & Hroles & Hcaps & Hgates).
  change (Contract_PlanRequirements (contract_of input facts r)) with (planRequirements r).
  split_and!.
  - intros s Hs. destruct (Hroles s Hs) as (role & Hl & Hal). rewrite planRequirements_some.
    2:{ left. intros He. by rewrite He, lookup_empty in Hl. }
    eexists _, role. split; [done|]. split; [|done].
    cbn [PlanRequirements_Roles]. apply list_elem_of_omap.
    exists (Role_Role s). split; [|done]. by apply Hk in Hl as (_ & ? & _).
  - intros cap Hcap. destruct (Hcaps cap Hcap) as [Hl Hkn]. rewrite planRequirements_some by set_solver.
    eexists. split; [done|]. cbn [PlanRequirements_Capabilities]. by apply list_elem_of_filter.
  - intros g Hg. destruct (Hgates g Hg) as (gate & Hl & Hal). rewrite planRequirements_some.
    2:{ right; right. intros He. by rewrite He, lookup_empty in Hl. }
    eexists _, gate. split; [done|]. split; [|done]. cbn [PlanRequirements_Gates]. apply list_elem_of_omap.
    exists (gateKey g). rewrite elem_of_sorted_keys. split; [eauto|done].
Qed.
End plan_theorem.

(* ------------------------------------------------------------------ *)
(** * Determinism *)

Lemma add_references_lookup source l refs c :
  add_references source l refs !! c = if decide (c ∈ l) then Some source else refs !! c.
Proof.
  unfold add_references. revert refs; induction l as [|x l IH]; intros refs; cbn [fold_left].
  { by rewrite decide_False by apply not_elem_of_nil. }
  rewrite IH. destruct (decide (c ∈ l)) as [Hin|Hni].
  { by rewrite decide_True by (by constructor). }
  destruct (decide (c = x)) as [->|Hne].
  - rewrite decide_True by constructor. apply lookup_insert_eq.
  - rewrite decide_False by (rewrite elem_of_cons; tauto). by rewrite lookup_insert_ne.
Qed.

Lemma add_references_comm source l1 l2 refs :
  add_references source l1 (add_references source l2 refs) = add_references source l2 (add_references source l1 refs).
Proof. apply map_eq. intros c. rewrite !add_references_lookup. by repeat case_decide. Qed.

Lemma addRequirement_comm source maps id1 q1 id2 q2 m1 m2 :
  id1 ≠ id2 → addRequirement maps id1 q1 source = Ok m1 → addRequirement m1 id2 q2 source = Ok m2 →
  ∃ m1', addRequirement maps id2 q2 source = Ok m1' ∧ addRequirement m1' id1 q1 source = Ok m2.
Proof.
  intros Hne [H1 ->]%addRequirement_ok [H2 ->]%addRequirement_ok. simpl in *.
  rewrite lookup_insert_ne in H2 by done.
  eexists. split; [apply addRequirement_ok; split; [done|reflexivity]|].
  apply addRequirement_ok. simpl. split; [by rewrite lookup_insert_ne|].
  f_equal; [by apply insert_insert_ne|by apply insert_insert_ne|apply add_references_comm].
Qed.

Section determinism.
Variables (R1 R2 : MapRange) (S : SchemaValidator).

Lemma range_both {K A} `{Countable K} (m : gmap K A) : @range R1 K A _ _ m ≡ₚ @range R2 K A _ _ m.
Proof. by rewrite (@range_perm R1), (@range_perm R2). Qed.

Lemma add_requirements_order rule reqs maps maps' :
  @add_requirements R1 rule reqs maps = Ok maps' → @add_requirements R2 rule reqs maps = Ok maps'.
Proof.
  unfold add_requirements. apply (for_each_perm _ fst); [|apply range_keys_NoDup|apply range_both].
  intros s [id1 q1] [id2 q2] s1 s2. apply addRequirement_comm.
Qed.

Lemma add_claims_order rule (required cs cs' : gmap string RequiredClaim) :
  for_each (add_claim rule) (@range R1 _ _ _ _ required) cs = Ok cs' →
  for_each (add_claim rule) (@range R2 _ _ _ _ required) cs = Ok cs'.
Proof.
  apply (for_each_perm _ fst); [|apply range_keys_NoDup|apply range_both].
  intros s [id1 q1] [id2 q2] s1 s2 Hne H1 H2. unfold add_claim in *. invert_ok. simpl in Hne.
  rewrite !lookup_insert_ne in * by done.
  match goal with H : match s !! id2 with _ => _ end = false |- _ => rewrite H end. simpl.
  eexists. split; [done|]. rewrite lookup_insert_ne by done.
  match goal with H : match s !! id1 with _ => _ end = false |- _ => rewrite H end. simpl.
  f_equal. by apply insert_insert_ne.
Qed.

Lemma addEffect_order rule e r r' : @addEffect R1 rule e r = Ok r' → @addEffect R2 rule e r = Ok r'.
Proof.
  unfold addEffect. intros He. invert_ok.
  repeat match goal with H : when_some ?o _ ?s = Ok ?s' |- _ =>
    lazymatch o with
    | Effect_Invariants _ =>
        assert (when_some o (λ requirements r, let? maps := @add_requirements R2 rule requirements (invariant_maps r) in
          Ok (set_invariants r maps)) s = Ok s') as ->
          by (destruct o; simpl in *; invert_ok; [erewrite add_requirements_order by eassumption|]; done); clear H
    | Effect_Obligations _ =>
        assert (when_some o (λ requirements r, let? maps := @add_requirements R2 rule requirements (obligation_maps r) in
          Ok (set_obligations r maps)) s = Ok s') as ->
          by (destruct o; simpl in *; invert_ok; [erewrite add_requirements_order by eassumption|]; done); clear H
    | Effect_RequiredClaims _ =>
        assert (when_some o (λ required r, let? claims := for_each (add_claim rule) (@range R2 _ _ _ _ required) r.(claims) in
          Ok (set_claims r claims)) s = Ok s') as ->
          by (destruct o; simpl in *; invert_ok; [erewrite add_claims_order by eassumption|]; done); clear H
    end; cbn [rbind] end.
  match goal with H : when_some (Effect_EngineeringRequirements e) _ _ = Ok _ |- _ => rewrite H end.
  done.
Qed.
End determinism.

Definition NUL_char : ascii := ascii_of_N 0.

(** The separator of [actionKey] does not occur in the action's type. *)
Definition separable (a : Action) : Prop := sep_free NUL_char a.(Action_Type).

Lemma actionKey_inj a b : separable a → separable b → actionKey a = actionKey b → a = b.
Proof.
  unfold separable, actionKey. destruct a as [ta xa], b as [tb xb]; simpl. intros Ha Hb Hk.
  assert (∀ s x, sep_free NUL_char s → head (split_on NUL_char (s +:+ String NUL_char x)) = Some s) as Hh.
  { intros s x Hs. rewrite split_on_app, Hs. done. }
  change (NUL +:+ xa) with (String NUL_char xa) in Hk. change (NUL +:+ xb) with (String NUL_char xb) in Hk.
  assert (Some ta = Some tb) as [= ->] by (rewrite <- (Hh ta xa Ha), <- (Hh tb xb Hb); by rewrite Hk).
  apply string_app_inj_l in Hk. by injection Hk as ->.
Qed.

(** The actions a policy mentions. *)
Definition policy_action (policy : EngineeringPolicy) (a : Action) : Prop :=
  ∃ id rule, policy.(Policy_Rules) !! id = Some rule
    ∧ (contributes rule.(Rule_Effect) (Permitted a) ∨ contributes rule.(Rule_Effect) (Prohibited a)
       ∨ ∃ cs, contributes rule.(Rule_Effect) (ConditionOn a cs)).

(** Two inputs that differ only in the order of their lists. *)
Record same_input (i1 i2 : CompileInput) : Prop := {
  same_contract : i1.(Compile_ContractID) = i2.(Compile_ContractID);
  same_revision : i1.(Compile_ContractRevision) = i2.(Compile_ContractRevision);
  same_objective : i1.(Compile_Objective) = i2.(Compile_Objective);
  same_intent : i1.(Compile_AcceptanceIntent) ≡ₚ i2.(Compile_AcceptanceIntent);
  same_subject : i1.(Compile_Subject) = i2.(Compile_Subject);
  same_stage : i1.(Compile_Scope).(Scope_Stage) = i2.(Compile_Scope).(Scope_Stage);
  same_allowed : i1.(Compile_Scope).(Scope_AllowedPaths) ≡ₚ i2.(Compile_Scope).(Scope_AllowedPaths);
  same_prohibited : i1.(Compile_Scope).(Scope_ProhibitedPaths) ≡ₚ i2.(Compile_Scope).(Scope_ProhibitedPaths);
  same_model : i1.(Compile_ProjectModel) = i2.(Compile_ProjectModel);
  same_policy : i1.(Compile_Policy) = i2.(Compile_Policy);
  same_facts : i1.(Compile_Facts) ≡ₚ i2.(Compile_Facts);
  same_previous : i1.(Compile_PreviousContract) = i2.(Compile_PreviousContract)
}.

Section determinism_steps.
Variables (R1 R2 : MapRange) (S : SchemaValidator).

Lemma normalize_facts_NoDup subject facts byID set :
  for_each (normalize_fact subject) facts byID = Ok set →
  (∀ f, f ∈ facts → byID !! f.(Fact_ID) = None) ∧ NoDup (Fact_ID <$> facts).
Proof.
  revert byID; induction facts as [|f facts IH]; intros byID; simpl.
  { intros _. split; [|constructor]. by intros f ?%not_elem_of_nil. }
  intros Hf. invert_ok. match goal with H : normalize_fact _ _ _ = Ok _ |- _ => unfold normalize_fact in H end.
  invert_ok. destruct (byID !! Fact_ID f) eqn:Hl; [done|]. invert_ok.
  destruct (IH _ Hf) as [Hn Hd]. split.
  - intros g [->|Hg]%elem_of_cons; [done|]. apply Hn in Hg. by apply lookup_insert_None in Hg as [? _].
  - apply NoDup_cons. split; [|done]. intros (g & Hg & Hin)%list_elem_of_fmap.
    apply Hn in Hin. rewrite <- Hg in Hin. by rewrite lookup_insert_eq in Hin.
Qed.

Lemma normalizedFacts_order subject facts1 facts2 l :
  facts1 ≡ₚ facts2 → @normalizedFacts R1 S facts1 subject = Ok l → @normalizedFacts R2 S facts2 subject = Ok l.
Proof.
  unfold normalizedFacts. intros Hp Hl. invert_ok.
  match goal with H : for_each _ _ _ = Ok ?m |- _ => rename H into Hf; rename m into byID end.
  pose proof (normalize_facts_NoDup _ _ _ _ Hf) as [_ Hnd].
  apply (for_each_perm _ Fact_ID _ facts2) in Hf; [|clear|done|done].
  - rewrite Hf. simpl. by rewrite (sorted_keys_order R2 R1).
  - intros s f g s1 s2 Hne H1 H2. unfold normalize_fact in *. invert_ok.
    destruct (s !! Fact_ID f) eqn:Hf; [done|]. invert_ok.
    rewrite lookup_insert_ne in H2 by done. destruct (s !! Fact_ID g) eqn:Hg; [done|]. invert_ok.
    repeat match goal with
    | H : bool_decide _ = false |- _ => rewrite H; clear H
    | H : negb (bool_decide _) = false |- _ => rewrite H
    | H : Encode_EngineeringFact _ = Ok _ |- _ => rewrite H
    end. simpl. eexists. split; [done|].
    rewrite lookup_insert_ne, Hf by done. f_equal. by apply insert_insert_ne.
Qed.

Lemma resolve_order i1 i2 facts r :
  same_input i1 i2 → @resolve R1 i1 facts = Ok r → @resolve R2 i2 facts = Ok r.
Proof.
  intros Hs. unfold resolve. intros Hr. invert_ok.
  match goal with H : add_unknown_facts _ _ = Ok _ |- _ => rewrite H; cbn [rbind] end.
  rewrite <- (same_policy _ _ Hs), (sorted_keys_order R2 R1).
  match goal with H : for_each _ _ ?s0 = Ok ?s1 |- _ =>
    assert (for_each (@apply_rule R2 (Compile_Policy i1) facts) (@sorted_keys R1 _ (Policy_Rules (Compile_Policy i1))) s0
            = Ok s1) as -> by (revert H; generalize (@sorted_keys R1 _ (Policy_Rules (Compile_Policy i1))) s0 s1;
      clear; induction l as [|id l IH]; simpl; intros s0 s1 H; [done|]; invert_ok;
      match goal with H : apply_rule _ _ _ _ = Ok ?s |- _ =>
        assert (@apply_rule R2 (Compile_Policy i1) facts s0 id = Ok s) as -> by
          (unfold apply_rule in *; destruct (_ !! id); [|done]; destruct (negb _); [done|]; by apply (addEffect_order R1))
      end; simpl; auto) end.
  cbn [rbind]. unfold addAcceptanceObligations in *. by rewrite <- (same_intent _ _ Hs).
Qed.

Lemma validateReferences_order r :
  (∃ r', @validateReferences R1 r = Ok r') → ∃ r', @validateReferences R2 r = Ok r'.
Proof.
  intros [r' Hv]. destruct (@validateReferences_ok R1 _ _ Hv) as (_ & Hpp & Href). simpl in *.
  unfold validateReferences. eexists. apply rbind_ok. exists tt. split.
  { apply check_all_ok. intros a. rewrite elem_of_sort_by, (@elem_of_range_keys R2). intros Ha.
    specialize (Hpp a Ha). destruct (prohibitions r !! a); [|done]. destruct Hpp. eauto. }
  apply rbind_ok. exists tt. split; [|done].
  apply check_all_ok. intros c. rewrite (@elem_of_sorted_keys R2), (@condition_references_ok R2). intros Hc.
  destruct (Href c Hc) as [claim ->]. done.
Qed.

Lemma sortedActions_order (m : gmap Action string) :
  (∀ a, is_Some (m !! a) → separable a) → @sortedActions R1 m = @sortedActions R2 m.
Proof.
  intros Hs. unfold sortedActions. apply sort_by_unique.
  - intros x y. rewrite !(@elem_of_range_keys R1). intros Hx Hy. apply actionKey_inj; auto.
  - unfold range_keys. apply fmap_Permutation, range_both.
Qed.

Lemma sortedConditions_order (m : gmap Action conditionEntry) :
  (∀ a, is_Some (m !! a) → separable a) → @sortedConditions R1 m = @sortedConditions R2 m.
Proof.
  intros Hs. unfold sortedConditions. f_equal. apply sort_by_unique.
  - intros x y. rewrite !(@elem_of_range_keys R1). intros Hx Hy. apply actionKey_inj; auto.
  - unfold range_keys. apply fmap_Permutation, range_both.
Qed.
End determinism_steps.

Section determinism_theorem.
Variables (R1 R2 : MapRange) (S : SchemaValidator).

Lemma validate_compile_order i1 i2 :
  same_input i1 i2 → @validateInput R1 S i1 = Ok tt → @validateInput R2 S i2 = Ok tt.
Proof.
  intros Hs. unfold validateInput.
  rewrite <- (same_contract _ _ Hs), <- (same_revision _ _ Hs), <- (same_objective _ _ Hs),
    <- (same_subject _ _ Hs), <- (same_stage _ _ Hs), <- (same_model _ _ Hs), <- (same_policy _ _ Hs),
    <- (same_previous _ _ Hs), (Permutation_length (same_intent _ _ Hs)),
    (Permutation_length (same_allowed _ _ Hs)).
  intros Hv. eapply rbind_ok_ext; [done|intros [] _|exact Hv].
  do 6 (apply rbind_ok_ext; [done|intros _ _]).
  apply rbind_ok_ext; [intros []; apply wrap_ok_ext, (Encode_ProjectModel_order R2 R1)|intros _ _].
  apply wrap_ok_ext, (Encode_EngineeringPolicy_order R2 R1).
Qed.

Lemma contract_of_order i1 i2 facts r :
  same_input i1 i2 →
  (∀ a, is_Some (r.(permissions) !! a) ∨ is_Some (r.(prohibitions) !! a) ∨ is_Some (r.(conditions) !! a) → separable a) →
  @contract_of R1 i1 facts r = @contract_of R2 i2 facts r.
Proof.
  intros Hs Hsep. unfold contract_of.
  rewrite (same_contract _ _ Hs), (same_revision _ _ Hs), (same_objective _ _ Hs), (same_subject _ _ Hs),
    (same_stage _ _ Hs), (same_model _ _ Hs), (same_policy _ _ Hs), (same_previous _ _ Hs),
    (sorted_unique_proper _ _ (same_intent _ _ Hs)), (sorted_unique_proper _ _ (same_allowed _ _ Hs)),
    (sorted_unique_proper _ _ (same_prohibited _ _ Hs)).
  rewrite !(sortedActions_order R1 R2), (sortedConditions_order R1 R2) by auto.
  unfold planRequirements. by rewrite (sorted_keys_order R1 R2).
Qed.

(** The actions of a resolution are the policy's. *)
Lemma resolve_actions i facts r a :
  @resolve R1 i facts = Ok r →
  is_Some (r.(permissions) !! a) ∨ is_Some (r.(prohibitions) !! a) ∨ is_Some (r.(conditions) !! a) →
  policy_action i.(Compile_Policy) a.
Proof.
  intros [_ Ho]%(@resolve_ok R1) Ha.
  assert (∃ o, holds r o ∧ (o = Permitted a ∨ o = Prohibited a ∨ ∃ cs, o = ConditionOn a cs)) as (o & Hh & Hk).
  { destruct Ha as [Ha|[Ha|[x Ha]]]; [exists (Permitted a)|exists (Prohibited a)|];
      [by auto..|]. exists (ConditionOn a (conditionEntry_claims x)). simpl. rewrite Ha. eauto. }
  rewrite Ho in Hh. destruct Hh as [(fact & _ & _ & ->)|[(rule & e & Hin & Hc)|(criterion & _ & _ & Hx)]];
    [exfalso; unfold uncertainty in Hk; naive_solver| |destruct Hk as [->|[->|[? ->]]]; done].
  unfold applied_rules in Hin. apply list_elem_of_omap in Hin as (id & _ & Hx).
  destruct (Policy_Rules (Compile_Policy i) !! id) as [pr|] eqn:Hl; [|done].
  destruct (matchesAny (Rule_When pr) facts); [|done]. injection Hx as <- <-.
  exists id, pr. split; [done|]. destruct Hk as [->|[->|[cs ->]]]; eauto.
Qed.

(** Compilation is deterministic: for a policy whose action types do
    not contain the separator of the sort key, the compiled contract does
    not depend on the order in which Go iterates maps, nor on the order of
    the facts, acceptance criteria or scope paths of the input. *)
Theorem Compile_deterministic i1 i2 c :
  same_input i1 i2 → (∀ a, policy_action i1.(Compile_Policy) a → separable a) →
  @Compile R1 S i1 = Ok c → @Compile R2 S i2 = Ok c.
Proof.
  intros Hs Hsep. unfold Compile. rewrite !wrap_ok. intros Hc.
  assert (Encode_EngineeringWorkContract c = Ok tt) as Henc by (unfold compile in Hc; invert_ok; done).
  apply (@compile_inv R1) in Hc as (facts & r & Hi & Hf & Hr & Hv & Hm & Hx & ->).
  assert (∀ a, is_Some (r.(permissions) !! a) ∨ is_Some (r.(prohibitions) !! a) ∨ is_Some (r.(conditions) !! a) → separable a)
    as Hseps by (intros a Ha; by eapply Hsep, resolve_actions).
  unfold compile. rewrite (validate_compile_order _ _ Hs Hi). simpl.
  rewrite (same_subject _ _ Hs) in Hf. rewrite (normalizedFacts_order R1 R2 S _ _ _ _ (same_facts _ _ Hs) Hf). simpl.
  rewrite (resolve_order R1 R2 _ _ _ _ Hs Hr). simpl.
  destruct (validateReferences_order R1 R2 _ Hv) as [r' Hr']. rewrite Hr'. simpl.
  apply (@validateReferences_ok R2) in Hr' as (-> & _ & _).
  assert (@validateMaterialDischarge R2 r = Ok tt) as Hm'.
  { unfold validateMaterialDischarge in *. by rewrite (sorted_keys_order R2 R1). }
  change (@validateMaterialDischarge R2 (set_references r (@condition_references R2 r)))
    with (@validateMaterialDischarge R2 r). rewrite Hm'. simpl.
  assert (@rejectPermissionExpansion R2 (Compile_PreviousContract i2) r.(permissions) = Ok tt) as ->.
  { rewrite <- (same_previous _ _ Hs). unfold rejectPermissionExpansion in *.
    destruct (Compile_PreviousContract i1); [|done]. eapply check_all_perm; [|exact Hx].
    unfold range_keys. apply fmap_Permutation, (range_both R1 R2). }
  simpl. change (@contract_of R2 i2 facts (set_references r (@condition_references R2 r)))
    with (@contract_of R2 i2 facts r).
  rewrite <- (contract_of_order _ _ _ _ Hs Hseps), Henc. done.
Qed.
End determinism_theorem.

(* ------------------------------------------------------------------ *)
(** * Concrete compilations *)

Definition deploy : Action := MkAction "deploy" "production".

Definition no_effect : PolicyEffect := MkPolicyEffect None None None None None None None None.

Definition when_fact (key value : string) : PolicyCondition := MkPolicyCondition key value None None None.

(** Two rules that ask for a security reviewer, one more strictly. *)
Definition role_of (dimension : string) (trust : string) (permitted : bool) : RoleRequirement :=
  MkRoleRequirement RoleSecurityReviewer [CapabilitySecurityReview]
    (Some (MkIndependence dimension [RoleImplementer] permitted)) trust "review".

Definition strict_requirements : PlanRequirements :=
  MkPlanRequirements [role_of IndependenceAgentProfile TrustRequirementProtected false] [] [].

Definition strict_effect : PolicyEffect :=
  MkPolicyEffect None None None None None None None (Some strict_requirements).

Definition example_policy : EngineeringPolicy :=
  MkPolicy SchemaVersion "policy" "1"
    (<["auth-changed" := MkPolicyRule (when_fact "auth.boundary_modified" FactTrue)
         (MkPolicyEffect (Some ["tests"]) None None
            (Some (<["tests" := MkRequiredClaim "unit_test" true]> ∅)) (Some [publish]) (Some [deploy])
            (Some [MkAuthorityCondition publish ["tests"]])
            (Some (MkPlanRequirements [role_of IndependenceProviderKind "" true] [CapabilityVerification]
                     [MkGateRequirement StageAssuranceGate ["tests"] None "gate"])))]>
    (<["strict" := MkPolicyRule (when_fact "auth.boundary_modified" FactTrue) strict_effect]> ∅)).

Definition example_fact (key value : string) : EngineeringFact :=
  MkFact SchemaVersion ("fact-" +:+ key) key value StagePredicted ConfidenceHigh (MkSubject "repo" "r1")
    (MkFactProvenance "path_analysis" "detector").

Definition example_compile (facts : list EngineeringFact) (previous : option EngineeringWorkContract) : CompileInput :=
  {| Compile_ContractID := "contract"; Compile_ContractRevision := "1"; Compile_Objective := "change";
     Compile_AcceptanceIntent := ["it works"]; Compile_Subject := MkSubject "repo" "r1";
     Compile_Scope := MkContractScope StagePredicted ["src"] [];
     Compile_ProjectModel := MkProjectModel SchemaVersion "model" "1" (MkSubject "repo" "r1") None None None;
     Compile_Policy := example_policy; Compile_Facts := facts; Compile_PreviousContract := previous |}.

Definition example_facts : list EngineeringFact :=
  [example_fact "auth.boundary_modified" FactTrue; example_fact "database.boundary_modified" FactUnknown].

Definition first_input : CompileInput := example_compile example_facts None.

Definition first_contract : EngineeringWorkContract :=
  ok_or example_contract (@Compile range_forward accept_all first_input).

Definition second_input : CompileInput := example_compile (reverse example_facts) (Some first_contract).

Definition second_contract : EngineeringWorkContract :=
  ok_or example_contract (@Compile range_backward accept_all second_input).

Lemma first_ok : @Compile range_forward accept_all first_input = Ok first_contract.
Proof. apply ok_or_eq. vm_compute. reflexivity. Qed.

Lemma second_ok : @Compile range_backward accept_all second_input = Ok second_contract.
Proof. apply ok_or_eq. vm_compute. reflexivity. Qed.

Lemma Compile_outcomes_witness :
  first_contract.(Contract_Permissions) = [publish]
  ∧ ∃ facts, ∀ a, a ∈ first_contract.(Contract_Permissions) ↔ @sources range_forward first_input facts (Permitted a).
Proof.
  split; [vm_compute; reflexivity|].
  destruct (@Compile_outcomes range_forward accept_all first_input first_contract first_ok) as (facts & _ & Hp & _).
  exists facts. exact Hp.
Defined.

Lemma Compile_consistent_witness :
  first_contract.(Contract_Prohibitions) = [deploy]
  ∧ @Authority.validateContractReferences range_forward first_contract = Ok tt.
Proof.
  split; [vm_compute; reflexivity|].
  destruct (@Compile_consistent range_forward accept_all first_input first_contract first_ok) as (_ & _ & _ & _ & H).
  apply H. left. intros Hn. discriminate (eq_trans (eq_sym Hn) (ltac:(vm_compute; reflexivity) :
    first_contract.(Contract_Permissions) = [publish])).
Defined.

Lemma Compile_permission_ceiling_witness :
  second_contract.(Contract_Permissions) ⊆ first_contract.(Contract_Permissions)
  ∧ second_contract.(Contract_Permissions) = [publish].
Proof.
  split; [|vm_compute; reflexivity].
  exact (proj1 (@Compile_permission_ceiling range_backward accept_all second_input first_contract second_contract
    eq_refl second_ok)).
Defined.

Lemma Compile_plan_requirements_witness :
  ∃ plan role, first_contract.(Contract_PlanRequirements) = Some plan ∧ role ∈ plan.(PlanRequirements_Roles)
  ∧ at_least (role_of IndependenceAgentProfile TrustRequirementProtected false) role.
Proof.
  destruct (@Compile_plan_requirements range_forward accept_all first_input first_contract first_ok) as (facts & Hf & Hall).
  assert (@normalizedFacts range_forward accept_all first_input.(Compile_Facts) first_input.(Compile_Subject)
          = Ok example_facts) as Hf' by (vm_compute; reflexivity).
  rewrite Hf' in Hf. injection Hf as <-.
  refine (proj1 (Hall "strict" strict_effect strict_requirements _ eq_refl) _ _).
  - unfold applied_rules. apply list_elem_of_omap. exists "strict".
    split; [apply elem_of_sorted_keys; eexists; vm_compute; reflexivity|vm_compute; reflexivity].
  - constructor.
Defined.

(** The evidence a decision under the compiled contract rests on. *)
Definition first_evidence : AuthorityInput :=
  {| Input_DecisionID := "decision"; Input_DecisionRevision := "1"; Input_Contract := first_contract;
     Input_Action := publish; Input_Capability := CapabilityAvailable;
     Input_ChangeProducer := MkProducer "agent" ProducerExecutionProvider;
     Input_EvidenceBundles := <["b1" := bundle_of "b1" "1" test_evidence]> ∅ |}.

Lemma Compile_acceptance_enforced_witness :
  ∃ q, first_contract.(Contract_Obligations) !! AcceptanceObligationID "it works" = Some q
  ∧ q.(Requirement_RequiredClaims) ≠ [].
Proof.
  assert (@Evaluate range_forward accept_all first_evidence = Ok (decide_example first_evidence)) as He
    by (apply ok_or_eq; vm_compute; reflexivity).
  destruct (@Compile_acceptance_enforced range_forward accept_all first_input first_contract first_evidence
    (decide_example first_evidence) "it works" first_ok eq_refl He) as (q & Hq & _ & Hne & _).
  - vm_compute. reflexivity.
  - constructor.
  - vm_compute. reflexivity.
  - exists q. split; [exact Hq|exact Hne].
Defined.

Lemma Compile_deterministic_witness :
  @Compile range_backward accept_all (example_compile (reverse example_facts) None) = Ok first_contract.
Proof.
  apply (Compile_deterministic range_forward range_backward accept_all first_input); [| |exact first_ok].
  - split; try reflexivity. simpl. by rewrite reverse_Permutation.
  - assert (∀ a, policy_action example_policy a → a ∈ [publish; deploy]) as Hin.
    { intros a (id & rule & Hl & Hc). unfold example_policy in Hl. simpl in Hl.
      apply lookup_insert_Some in Hl as [[_ <-]|[_ Hl]];
        [|apply lookup_insert_Some in Hl as [[_ <-]|[_ Hl]]; [|by rewrite lookup_empty in Hl]]; simpl in Hc.
      - destruct Hc as [Hc|[Hc|(cs & condition & Hc & <- & _)]]; [set_solver..|].
        apply list_elem_of_singleton in Hc as ->. constructor.
      - destruct Hc as [Hc|[Hc|(cs & condition & Hc & _)]]; by apply not_elem_of_nil in Hc. }
    intros a Ha%Hin. apply elem_of_cons in Ha as [->|Ha%list_elem_of_singleton]; [|subst a];
      vm_compute; reflexivity.
Defined.

(* ------------------------------------------------------------------ *)
(** * Diagnostics *)

(** A policy that permits two actions the previous contract did not. *)
Definition expanding_input : CompileInput :=
  {| Compile_ContractID := "contract"; Compile_ContractRevision := "2"; Compile_Objective := "change";
     Compile_AcceptanceIntent := [" "]; Compile_Subject := MkSubject "repo" "r1";
     Compile_Scope := MkContractScope StagePredicted ["src"] [];
     Compile_ProjectModel := MkProjectModel SchemaVersion "model" "1" (MkSubject "repo" "r1") None None None;
     Compile_Policy := MkPolicy SchemaVersion "policy" "1"
       (<["expand" := MkPolicyRule (when_fact "auth.boundary_modified" FactTrue)
            (MkPolicyEffect None None None None (Some [deploy; MkAction "deploy" "staging"]) None None None)]> ∅);
     Compile_Facts := [example_fact "auth.boundary_modified" FactTrue];
     Compile_PreviousContract := Some example_contract |}.

(** Only the success of a compilation is deterministic: which permission
    a refused expansion names depends on the map iteration order. *)
Theorem Compile_diagnostic_order_dependent :
  ∃ a b, a ≠ b
  ∧ @Compile range_forward accept_all expanding_input = Err (MkCompilationError (PermissionExpansion a))
  ∧ @Compile range_backward accept_all expanding_input = Err (MkCompilationError (PermissionExpansion b)).
Proof.
  eexists _, _. split; [|split; vm_compute; reflexivity]. vm_compute. discriminate.
Qed.
