(* ===== verification/Reassessment.v ===== *)
(** Observed-scope reassessment: the package [reassessment]
    ([reassessment/reassessment.go]).  [Reassess] compares an observed change
    with the current contract and, when the deviation is material, returns
    the next contract revision, the suspended actions and the stale
    evidence. *)

From S2P Require Import Prelude GoStrings Sha256 Domain PathPattern Encode Analysis Evidence Authority Policy.
From stdpp Require Import options.

Record ReassessInput := MkReassessInput {
  Reassess_CurrentContract : EngineeringWorkContract;
  Reassess_Compile : CompileInput;
  Reassess_ObservedChange : ObservedChange;
  Reassess_Analyzer : Analyzer;
  Reassess_EvidenceBundles : gmap string EvidenceBundle;
  Reassess_EvidenceRevisions : gmap string string
}.

Record Deviation := MkDeviation {
  Deviation_Kind : string;
  Deviation_Detail : string
}.

Record ReassessResult := MkReassessResult {
  Result_ObservedFacts : gmap string EngineeringFact;
  Result_Material : bool;
  Result_Deviations : list Deviation;
  Result_RequestedPrivilegeExpansion : list Action;
  Result_Contract : option EngineeringWorkContract;
  Result_SuspendedActions : list Action;
  Result_StaleEvidence : gmap string EvidenceBundle
}.

Inductive ReassessError :=
  | InvalidCurrentContract (e : EncodeError)
  | NextIDMismatch
  | NextRevisionInvalid
  | RepositoryDiffers
  | ObjectiveDiffers
  | AcceptanceDiffers
  | ProhibitedDiffers
  | ModelDiffers
  | PolicyDiffers
  | UnknownEvidenceRevision (id : string)
  | ObservedChangeRefused (e : AnalysisError)
  | RecompileRefused (e : CompilationError)
  | CappedContractInvalid (e : EncodeError)
  | MissingNextRevision (id : string)
  | BundleNotBound (id : string)
  | StaleBundleRefused (id : string) (e : EvidenceError).

(* ------------------------------------------------------------------ *)
(** * Actions *)

Definition sort_actions (actions : list Action) : list Action := sort_by actionKey actions.

(** Sorted by key, adjacent duplicates removed. *)
Definition uniqueActions (actions : list Action) : list Action := uniq actions.

Definition actionDifference (left right : list Action) : list Action :=
  let available : gset Action := list_to_set right in
  uniqueActions (sort_actions (filter (λ action, action ∉ available) left)).

Definition actionIntersection (left right : list Action) : list Action :=
  let available : gset Action := list_to_set right in
  uniqueActions (sort_actions (filter (λ action, action ∈ available) left)).

Definition suspendedActions (current candidate : EngineeringWorkContract) : list Action :=
  uniqueActions (sort_actions
    (current.(Contract_Permissions) ++ current.(Contract_Prohibitions)
     ++ candidate.(Contract_Permissions) ++ candidate.(Contract_Prohibitions)
     ++ (Condition_Action <$> current.(Contract_AuthorityConditions))
     ++ (Condition_Action <$> candidate.(Contract_AuthorityConditions)))).

(** [Result.Suspends]. *)
Definition Suspends (r : ReassessResult) (action : Action) : bool :=
  existsb (λ suspended, suspended ≟ action) r.(Result_SuspendedActions).

(* ------------------------------------------------------------------ *)
(** * Deviations *)

Definition sameRequirement (before after : Requirement) : bool :=
  if (before.(Requirement_Statement) ≠? after.(Requirement_Statement))
     || (before.(Requirement_Material) ≠? after.(Requirement_Material)) then false
  else before.(Requirement_RequiredClaims) ≟ after.(Requirement_RequiredClaims).

Definition sortedDeviations (deviations : list Deviation) : list Deviation :=
  sort_by (λ d, d.(Deviation_Kind) +:+ NUL +:+ d.(Deviation_Detail)) deviations.

Definition scopeDeviations (scope : ContractScope) (observed : ObservedChange) : list Deviation :=
  if negb observed.(Change_PathsKnown)
  then [MkDeviation "unknown_observed_scope" "observed paths could not be established"]
  else omap (λ path,
         if MatchesAny path scope.(Scope_ProhibitedPaths) then Some (MkDeviation "prohibited_path" path)
         else if negb (MatchesAny path scope.(Scope_AllowedPaths)) then Some (MkDeviation "scope_expansion" path)
         else None) (sorted_unique observed.(Change_Paths)).

Section Reassessment.
Context `{!MapRange, !SchemaValidator, !GoUnicode}.

(** [sortedMapKeys] of the union of two key sets. *)
Definition sorted_union_keys {A} (left right : gmap string A) : list string :=
  sort_strings (elements (dom left ∪ dom right)).

(** The switch the three map comparisons share. *)
Definition map_deviation {A} (kind : string) (same : A → A → bool) (current candidate : gmap string A) (id : string)
  : option Deviation :=
  match current !! id, candidate !! id with
  | None, _ => Some (MkDeviation ("additional_" +:+ kind) id)
  | Some _, None => Some (MkDeviation ("removed_" +:+ kind) id)
  | Some before, Some after =>
      if negb (same before after) then Some (MkDeviation ("changed_" +:+ kind) id) else None
  end.

Definition requirementDeviations (kind : string) (current candidate : gmap string Requirement) : list Deviation :=
  omap (map_deviation kind sameRequirement current candidate) (sorted_union_keys current candidate).

Definition claimDeviations (current candidate : gmap string RequiredClaim) : list Deviation :=
  omap (map_deviation "claim" (λ before after, before ≟ after) current candidate)
    (sorted_union_keys current candidate).

Definition actionDeviations (kind : string) (current candidate : list Action) : list Deviation :=
  ((λ action, MkDeviation ("additional_" +:+ kind) (actionKey action)) <$> actionDifference candidate current)
  ++ ((λ action, MkDeviation ("removed_" +:+ kind) (actionKey action)) <$> actionDifference current candidate).

Definition conditionsByAction (conditions : list AuthorityCondition) : gmap string AuthorityCondition :=
  fold_left (λ result condition,
    <[actionKey condition.(Condition_Action) :=
        MkAuthorityCondition condition.(Condition_Action) (sorted_unique condition.(Condition_RequiredClaims))]> result)
    conditions ∅.

Definition conditionDeviations (current candidate : list AuthorityCondition) : list Deviation :=
  let before := conditionsByAction current in
  let after := conditionsByAction candidate in
  omap (map_deviation "authority_condition"
          (λ left right, left.(Condition_RequiredClaims) ≟ right.(Condition_RequiredClaims)) before after)
    (sorted_union_keys before after).

Definition impactDeviations (current candidate : EngineeringWorkContract) : list Deviation :=
  requirementDeviations "invariant" current.(Contract_Invariants) candidate.(Contract_Invariants)
  ++ requirementDeviations "obligation" current.(Contract_Obligations) candidate.(Contract_Obligations)
  ++ claimDeviations current.(Contract_RequiredClaims) candidate.(Contract_RequiredClaims)
  ++ actionDeviations "permission" current.(Contract_Permissions) candidate.(Contract_Permissions)
  ++ actionDeviations "prohibition" current.(Contract_Prohibitions) candidate.(Contract_Prohibitions)
  ++ conditionDeviations current.(Contract_AuthorityConditions) candidate.(Contract_AuthorityConditions).

(* ---------------------------------------------------------------- *)
(** ** Validation *)

Definition validateReassessInput (input : ReassessInput) : result ReassessError () :=
  let current := input.(Reassess_CurrentContract) in
  let compile := input.(Reassess_Compile) in
  wrap InvalidCurrentContract (Encode_EngineeringWorkContract current) ;?
  refuse_if (compile.(Compile_ContractID) ≠? current.(Contract_ID)) NextIDMismatch ;?
  refuse_if ((compile.(Compile_ContractRevision) ≟ "")
             || (compile.(Compile_ContractRevision) ≟ current.(Contract_Revision))) NextRevisionInvalid ;?
  refuse_if (compile.(Compile_Subject).(Subject_Repository) ≠? current.(Contract_Subject).(Subject_Repository))
    RepositoryDiffers ;?
  refuse_if (compile.(Compile_Objective) ≠? current.(Contract_Objective)) ObjectiveDiffers ;?
  refuse_if (sorted_unique compile.(Compile_AcceptanceIntent) ≠? sorted_unique current.(Contract_AcceptanceIntent))
    AcceptanceDiffers ;?
  refuse_if ((0 <? length compile.(Compile_Scope).(Scope_ProhibitedPaths))
             && (sorted_unique compile.(Compile_Scope).(Scope_ProhibitedPaths)
                 ≠? sorted_unique current.(Contract_Scope).(Scope_ProhibitedPaths))) ProhibitedDiffers ;?
  refuse_if (MkObjectRevision compile.(Compile_ProjectModel).(Model_ID) compile.(Compile_ProjectModel).(Model_Revision)
             ≠? current.(Contract_Provenance).(Provenance_ProjectModel)) ModelDiffers ;?
  refuse_if (MkObjectRevision compile.(Compile_Policy).(Policy_ID) compile.(Compile_Policy).(Policy_Revision)
             ≠? current.(Contract_Provenance).(Provenance_Policy)) PolicyDiffers ;?
  check_all (λ id, refuse_if (bool_decide (input.(Reassess_EvidenceBundles) !! id = None)) (UnknownEvidenceRevision id))
    (range_keys input.(Reassess_EvidenceRevisions)).

(* ---------------------------------------------------------------- *)
(** ** The recompilation *)

(** The loop that appends the observed paths that are not prohibited. *)
Definition observed_allowed (scope : ContractScope) (observed : ObservedChange) : list string :=
  sorted_unique (scope.(Scope_AllowedPaths)
    ++ filter (λ path, MatchesAny path scope.(Scope_ProhibitedPaths) = false) observed.(Change_Paths)).

Definition observed_compile (input : ReassessInput) (observed : ObservedChange) (facts : gmap string EngineeringFact)
  (previous : option EngineeringWorkContract) : CompileInput :=
  let current := input.(Reassess_CurrentContract) in
  let compile := input.(Reassess_Compile) in
  {| Compile_ContractID := compile.(Compile_ContractID);
     Compile_ContractRevision := compile.(Compile_ContractRevision);
     Compile_Objective := current.(Contract_Objective);
     Compile_AcceptanceIntent := current.(Contract_AcceptanceIntent);
     Compile_Subject := compile.(Compile_Subject);
     Compile_Scope := MkContractScope StageObserved (observed_allowed current.(Contract_Scope) observed)
                        current.(Contract_Scope).(Scope_ProhibitedPaths);
     Compile_ProjectModel := compile.(Compile_ProjectModel);
     Compile_Policy := compile.(Compile_Policy);
     Compile_Facts := Sorted_facts facts;
     Compile_PreviousContract := previous |}.

(** [candidate.Permissions = ...; candidate.Provenance... = ...]. *)
Definition cap_permissions (candidate current : EngineeringWorkContract) : EngineeringWorkContract :=
  {| Contract_SchemaVersion := candidate.(Contract_SchemaVersion);
     Contract_ID := candidate.(Contract_ID);
     Contract_Revision := candidate.(Contract_Revision);
     Contract_Objective := candidate.(Contract_Objective);
     Contract_AcceptanceIntent := candidate.(Contract_AcceptanceIntent);
     Contract_Subject := candidate.(Contract_Subject);
     Contract_Scope := candidate.(Contract_Scope);
     Contract_Facts := candidate.(Contract_Facts);
     Contract_Invariants := candidate.(Contract_Invariants);
     Contract_Obligations := candidate.(Contract_Obligations);
     Contract_RequiredClaims := candidate.(Contract_RequiredClaims);
     Contract_Permissions := actionIntersection candidate.(Contract_Permissions) current.(Contract_Permissions);
     Contract_Prohibitions := candidate.(Contract_Prohibitions);
     Contract_AuthorityConditions := candidate.(Contract_AuthorityConditions);
     Contract_PlanRequirements := candidate.(Contract_PlanRequirements);
     Contract_Provenance :=
       MkContractProvenance candidate.(Contract_Provenance).(Provenance_ProjectModel)
         candidate.(Contract_Provenance).(Provenance_Policy)
         candidate.(Contract_Provenance).(Provenance_CompilerVersion)
         (previousRevision (Some current)) |}.

(** The next contract and the privileges it was refused. *)
Definition recompile (input : ReassessInput) (observed : ObservedChange) (facts : gmap string EngineeringFact)
  : result ReassessError (EngineeringWorkContract * list Action) :=
  let current := input.(Reassess_CurrentContract) in
  let? candidate := wrap RecompileRefused (Compile (observed_compile input observed facts None)) in
  let requestedPrivileges := actionDifference candidate.(Contract_Permissions) current.(Contract_Permissions) in
  if length requestedPrivileges =? 0 then
    let? candidate := wrap RecompileRefused (Compile (observed_compile input observed facts (Some current))) in
    Ok (candidate, requestedPrivileges)
  else
    let candidate := cap_permissions candidate current in
    wrap CappedContractInvalid (Encode_EngineeringWorkContract candidate) ;?
    Ok (candidate, requestedPrivileges).

Definition deviations_of (input : ReassessInput) (observed : ObservedChange) (candidate : EngineeringWorkContract)
  (requestedPrivileges : list Action) : list Deviation :=
  let current := input.(Reassess_CurrentContract) in
  let revision := input.(Reassess_Compile).(Compile_Subject).(Subject_Revision) in
  sortedDeviations
    (scopeDeviations current.(Contract_Scope) observed
     ++ (if revision ≠? current.(Contract_Subject).(Subject_Revision)
         then [MkDeviation "subject_revision_changed" revision] else [])
     ++ impactDeviations current candidate
     ++ ((λ action, MkDeviation "requested_privilege_expansion" (actionKey action)) <$> requestedPrivileges)).

(* ---------------------------------------------------------------- *)
(** ** Evidence *)

Definition contract_binding (contract : EngineeringWorkContract) : Binding :=
  MkBinding contract.(Contract_Subject) (MkObjectRevision contract.(Contract_ID) contract.(Contract_Revision))
    contract.(Contract_Provenance).(Provenance_Policy).

Definition stale_bundle (input : ReassessInput) (candidate : EngineeringWorkContract)
  (staleEvidence : gmap string EvidenceBundle) (kv : string * EvidenceBundle)
  : result ReassessError (gmap string EvidenceBundle) :=
  let '(id, bundle) := kv in
  let? nextRevision := of_option (MissingNextRevision id) (input.(Reassess_EvidenceRevisions) !! id) in
  refuse_if (BindingOf bundle ≠? contract_binding input.(Reassess_CurrentContract)) (BundleNotBound id) ;?
  let? stale := wrap (StaleBundleRefused id)
    (MarkStaleForBindingChange bundle (contract_binding candidate) nextRevision) in
  Ok (<[id := stale]> staleEvidence).

Definition stale_evidence (input : ReassessInput) (candidate : EngineeringWorkContract)
  : result ReassessError (gmap string EvidenceBundle) :=
  for_each (stale_bundle input candidate) (range input.(Reassess_EvidenceBundles)) ∅.

Definition Reassess (input : ReassessInput) : result ReassessError ReassessResult :=
  validateReassessInput input ;?
  let current := input.(Reassess_CurrentContract) in
  let compile := input.(Reassess_Compile) in
  let? observed := wrap ObservedChangeRefused (NormalizeObservedChange input.(Reassess_ObservedChange)) in
  let analyzer := if IsZero input.(Reassess_Analyzer) then NewAnalyzer else input.(Reassess_Analyzer) in
  let? facts := wrap ObservedChangeRefused
    (Observe analyzer compile.(Compile_ProjectModel) compile.(Compile_Subject) observed) in
  let? (candidate, requestedPrivileges) := recompile input observed facts in
  let deviations := deviations_of input observed candidate requestedPrivileges in
  if negb (0 <? length deviations) then
    Ok (MkReassessResult facts false deviations requestedPrivileges None [] ∅)
  else
    let suspended := uniqueActions (sort_actions (suspendedActions current candidate ++ requestedPrivileges)) in
    let? staleEvidence := stale_evidence input candidate in
    Ok (MkReassessResult facts true deviations requestedPrivileges (Some candidate) suspended staleEvidence).
End Reassessment.

(* ------------------------------------------------------------------ *)
(** * Lists of actions and deviations *)

Lemma elem_of_sort_actions a l : a ∈ uniqueActions (sort_actions l) ↔ a ∈ l.
Proof. unfold uniqueActions, sort_actions. by rewrite elem_of_uniq, elem_of_sort_by. Qed.

Lemma elem_of_actionDifference a l r : a ∈ actionDifference l r ↔ a ∈ l ∧ a ∉ r.
Proof.
  unfold actionDifference. rewrite elem_of_sort_actions, list_elem_of_filter, elem_of_list_to_set. tauto.
Qed.

Lemma elem_of_actionIntersection a l r : a ∈ actionIntersection l r ↔ a ∈ l ∧ a ∈ r.
Proof.
  unfold actionIntersection. rewrite elem_of_sort_actions, list_elem_of_filter, elem_of_list_to_set. tauto.
Qed.

Lemma nil_iff {A} (l : list A) : l = [] ↔ ∀ x, x ∉ l.
Proof.
  split; [intros ->; apply not_elem_of_nil|]. destruct l as [|x l]; [done|].
  intros Hn. destruct (Hn x). constructor.
Qed.

Lemma actionDifference_nil l r : actionDifference l r = [] ↔ l ⊆ r.
Proof.
  rewrite nil_iff. setoid_rewrite elem_of_actionDifference. split.
  - intros Hn a Ha. destruct (decide (a ∈ r)); [done|]. destruct (Hn a). done.
  - intros Hs a [Ha Hna]. auto.
Qed.

Lemma sort_by_nil {A} (key : A → string) l : sort_by key l = [] ↔ l = [].
Proof. rewrite !nil_iff. by setoid_rewrite elem_of_sort_by. Qed.

Lemma app_nil_iff {A} (l1 l2 : list A) : l1 ++ l2 = [] ↔ l1 = [] ∧ l2 = [].
Proof. destruct l1; simpl; naive_solver. Qed.

Lemma map_deviation_nil {A} kind same (current candidate : gmap string A) :
  (∀ x y, same x y = true ↔ x = y) →
  omap (map_deviation kind same current candidate) (sorted_union_keys current candidate) = [] ↔ current = candidate.
Proof.
  intros Hsame. rewrite nil_iff. setoid_rewrite list_elem_of_omap. unfold sorted_union_keys.
  setoid_rewrite elem_of_sort_strings. setoid_rewrite elem_of_elements. setoid_rewrite elem_of_union.
  setoid_rewrite elem_of_dom. unfold map_deviation. split.
  - intros Hn. apply map_eq. intros id.
    destruct (current !! id) as [x|] eqn:Hx, (candidate !! id) as [y|] eqn:Hy; [|exfalso|exfalso|done].
    + destruct (same x y) eqn:Hs; [by apply Hsame in Hs as ->|]. exfalso. eapply Hn. exists id.
      rewrite Hx, Hy, Hs. simpl. split; [by eauto|done].
    + eapply Hn. exists id. rewrite Hx, Hy. split; [by eauto|done].
    + eapply Hn. exists id. rewrite Hx, Hy. split; [by eauto|done].
  - intros -> d (id & Hin & Hd). destruct (candidate !! id) as [x|] eqn:Hx; [|naive_solver].
    by rewrite (proj2 (Hsame x x) eq_refl) in Hd.
Qed.

Lemma sameRequirement_eq x y : sameRequirement x y = true ↔ x = y.
Proof.
  unfold sameRequirement. destruct x as [s1 c1 m1], y as [s2 c2 m2]; simpl.
  destruct (_ || _)%bool eqn:Hb.
  - split; [done|]. intros [= -> -> ->]. by rewrite !bool_decide_eq_true_2 in Hb by done.
  - apply orb_false_iff in Hb as [H1 H2]. apply negb_false_iff, bool_decide_eq_true in H1, H2. subst.
    rewrite bool_decide_eq_true. naive_solver.
Qed.

(** The claims each conditioned action requires, the part of a condition that
    is compared. *)
Definition condition_claims (conditions : list AuthorityCondition) (key : string) : option (list string) :=
  Condition_RequiredClaims <$> (conditionsByAction conditions !! key).

Lemma conditionDeviations_nil current candidate :
  conditionDeviations current candidate = [] → ∀ key, condition_claims current key = condition_claims candidate key.
Proof.
  unfold conditionDeviations, condition_claims. rewrite nil_iff. setoid_rewrite list_elem_of_omap.
  unfold sorted_union_keys. setoid_rewrite elem_of_sort_strings. setoid_rewrite elem_of_elements.
  setoid_rewrite elem_of_union. setoid_rewrite elem_of_dom. unfold map_deviation. intros Hn key.
  destruct (conditionsByAction current !! key) as [x|] eqn:Hx, (conditionsByAction candidate !! key) as [y|] eqn:Hy;
    simpl; [|exfalso|exfalso|done].
  - destruct (bool_decide (Condition_RequiredClaims x = Condition_RequiredClaims y)) eqn:Hs.
    + apply bool_decide_eq_true in Hs. by rewrite Hs.
    + exfalso. eapply Hn. exists key. rewrite Hx, Hy, Hs. simpl. split; [by eauto|done].
  - eapply Hn. exists key. rewrite Hx, Hy. split; [by eauto|done].
  - eapply Hn. exists key. rewrite Hx, Hy. split; [by eauto|done].
Qed.

Lemma scopeDeviations_nil scope observed :
  scopeDeviations scope observed = [] ↔
  observed.(Change_PathsKnown) = true
  ∧ ∀ p, p ∈ observed.(Change_Paths) →
      MatchesAny p scope.(Scope_AllowedPaths) = true ∧ MatchesAny p scope.(Scope_ProhibitedPaths) = false.
Proof.
  unfold scopeDeviations. destruct (Change_PathsKnown observed); simpl; [|naive_solver].
  rewrite nil_iff. setoid_rewrite list_elem_of_omap. setoid_rewrite elem_of_sorted_unique. split.
  - intros Hn. split; [done|]. intros p Hp.
    destruct (MatchesAny p (Scope_ProhibitedPaths scope)) eqn:Hpr.
    { exfalso. eapply Hn. exists p. rewrite Hpr. done. }
    destruct (MatchesAny p (Scope_AllowedPaths scope)) eqn:Ha; [done|].
    exfalso. eapply Hn. exists p. rewrite Hpr, Ha. done.
  - intros [_ Hp] d (p & Hin & Hd). destruct (Hp p Hin) as [-> ->] || (destruct (Hp p Hin) as [H1 H2]; rewrite H1, H2 in Hd).
    done.
Qed.

Section reassess.
Context `{!MapRange, !SchemaValidator, !GoUnicode}.

(** Enforcing the ceiling changes only the recorded provenance. *)
Lemma compile_previous input observed facts p c0 c1 :
  Compile (observed_compile input observed facts None) = Ok c0 →
  Compile (observed_compile input observed facts (Some p)) = Ok c1 →
  ∃ fs r, c0 = contract_of (observed_compile input observed facts None) fs r
    ∧ c1 = contract_of (observed_compile input observed facts (Some p)) fs r.
Proof.
  unfold Compile. rewrite !wrap_ok.
  intros (f0 & r0 & _ & Hf0 & Hr0 & _ & _ & _ & ->)%compile_inv (f1 & r1 & _ & Hf1 & Hr1 & _ & _ & _ & ->)%compile_inv.
  change (normalizedFacts (Compile_Facts (observed_compile input observed facts None))
    (Compile_Subject (observed_compile input observed facts None)) = Ok f1) in Hf1.
  rewrite Hf0 in Hf1. injection Hf1 as <-.
  change (resolve (observed_compile input observed facts None) f0 = Ok r1) in Hr1.
  rewrite Hr0 in Hr1. injection Hr1 as <-. eauto.
Qed.

(** What the recompilation returns, in terms of the contract the observed
    facts compile to without a ceiling. *)
Record recompiled (input : ReassessInput) (observed : ObservedChange) (facts : gmap string EngineeringFact)
  (c : EngineeringWorkContract) (requested : list Action) (uncapped : EngineeringWorkContract) : Prop := {
  recompiled_uncapped : Compile (observed_compile input observed facts None) = Ok uncapped;
  recompiled_requested : ∀ a, a ∈ requested ↔
    a ∈ uncapped.(Contract_Permissions) ∧ a ∉ input.(Reassess_CurrentContract).(Contract_Permissions);
  recompiled_permissions : ∀ a, a ∈ c.(Contract_Permissions) ↔
    a ∈ uncapped.(Contract_Permissions) ∧ a ∈ input.(Reassess_CurrentContract).(Contract_Permissions);
  recompiled_identity : c.(Contract_ID) = input.(Reassess_Compile).(Compile_ContractID)
    ∧ c.(Contract_Revision) = input.(Reassess_Compile).(Compile_ContractRevision)
    ∧ c.(Contract_Subject) = input.(Reassess_Compile).(Compile_Subject)
    ∧ c.(Contract_Provenance).(Provenance_PreviousContractRevision)
      = Some input.(Reassess_CurrentContract).(Contract_Revision);
  recompiled_rest : c.(Contract_Invariants) = uncapped.(Contract_Invariants)
    ∧ c.(Contract_Obligations) = uncapped.(Contract_Obligations)
    ∧ c.(Contract_RequiredClaims) = uncapped.(Contract_RequiredClaims)
    ∧ c.(Contract_Prohibitions) = uncapped.(Contract_Prohibitions)
    ∧ c.(Contract_AuthorityConditions) = uncapped.(Contract_AuthorityConditions)
    ∧ c.(Contract_PlanRequirements) = uncapped.(Contract_PlanRequirements)
}.

Lemma recompile_ok input observed facts c requested :
  recompile input observed facts = Ok (c, requested) →
  ∃ uncapped, recompiled input observed facts c requested uncapped
    ∧ (requested = [] →
       Compile (observed_compile input observed facts (Some input.(Reassess_CurrentContract))) = Ok c).
Proof.
  unfold recompile. intros Hr. invert_ok.
  match goal with H : Compile _ = Ok ?x |- _ => rename x into uncapped; rename H into Hu end.
  exists uncapped.
  set (current := Reassess_CurrentContract input) in *.
  destruct (actionDifference (Contract_Permissions uncapped) (Contract_Permissions current)) as [|a l] eqn:Hd;
    simpl in Hr; invert_ok.
  - match goal with H : Compile (observed_compile _ _ _ (Some _)) = Ok _ |- _ => rename H into Hc end.
    split; [|done].
    destruct (compile_previous _ _ _ _ _ _ Hu Hc) as (fs & r & -> & ->).
    apply actionDifference_nil in Hd. simpl in Hd.
    split; [done| |  |done|done]; intros x; simpl; [rewrite elem_of_nil|]; split; try tauto; [|by auto].
    intros [Hx Hnx]. by apply Hnx, Hd.
  - split; [|done].
    assert (∃ fs r, uncapped = contract_of (observed_compile input observed facts None) fs r) as (fs & r & Huc).
    { unfold Compile in Hu. rewrite wrap_ok in Hu. apply compile_inv in Hu as (fs & r & _ & _ & _ & _ & _ & _ & ->). eauto. }
    split; [done| | | |done].
    + intros x. fold current. rewrite <- elem_of_actionDifference, Hd. done.
    + intros x. simpl. by rewrite elem_of_actionIntersection.
    + by rewrite Huc.
Qed.

Lemma Reassess_inv input res :
  Reassess input = Ok res →
  ∃ observed candidate requested uncapped,
    validateReassessInput input = Ok tt
    ∧ NormalizeObservedChange input.(Reassess_ObservedChange) = Ok observed
    ∧ recompiled input observed res.(Result_ObservedFacts) candidate requested uncapped
    ∧ (requested = [] → Compile (observed_compile input observed res.(Result_ObservedFacts)
         (Some input.(Reassess_CurrentContract))) = Ok candidate)
    ∧ res.(Result_RequestedPrivilegeExpansion) = requested
    ∧ res.(Result_Deviations) = deviations_of input observed candidate requested
    ∧ res.(Result_Material) = bool_decide (res.(Result_Deviations) ≠ [])
    ∧ (res.(Result_Material) = false → res.(Result_Contract) = None ∧ res.(Result_SuspendedActions) = []
         ∧ res.(Result_StaleEvidence) = ∅)
    ∧ (res.(Result_Material) = true → res.(Result_Contract) = Some candidate
         ∧ res.(Result_SuspendedActions)
           = uniqueActions (sort_actions (suspendedActions input.(Reassess_CurrentContract) candidate ++ requested))
         ∧ stale_evidence input candidate = Ok res.(Result_StaleEvidence)).
Proof.
  unfold Reassess. intros Hr. invert_ok.
  match goal with H : NormalizeObservedChange _ = Ok ?o |- _ => exists o end.
  match goal with H : recompile _ _ _ = Ok ?p |- _ => destruct p as [candidate requested];
    destruct (recompile_ok _ _ _ _ _ H) as (uncapped & Hrec & Hcap) end.
  exists candidate, requested, uncapped.
  destruct (deviations_of input _ candidate requested) as [|d ds] eqn:Hd; cbn [length Nat.ltb Nat.leb negb] in Hr; invert_ok;
    simpl; rewrite <- ?Hd; split_and!; try done.
Qed.
End reassess.

Section reassess_theorems.
Context `{!MapRange, !SchemaValidator, !GoUnicode}.

Lemma Suspends_spec r a : Suspends r a = true ↔ a ∈ r.(Result_SuspendedActions).
Proof. unfold Suspends. rewrite existsb_elem. setoid_rewrite bool_decide_eq_true. naive_solver. Qed.

(** C12: a reassessment grants no privilege.  The contract compiled from the
    observed facts alone is the measure: the privileges reported as requested
    are exactly the actions it permits and the current contract does not, the
    next revision permits exactly the actions both permit, so that none is
    gained and the requested ones are withheld, and every action either
    revision permits or prohibits, and every requested one, is suspended. *)
Theorem Reassess_no_privilege_gain input res c :
  Reassess input = Ok res → res.(Result_Contract) = Some c →
  let current := input.(Reassess_CurrentContract) in
  ∃ observed uncapped,
  NormalizeObservedChange input.(Reassess_ObservedChange) = Ok observed
  ∧ Compile (observed_compile input observed res.(Result_ObservedFacts) None) = Ok uncapped
  ∧ (∀ a, a ∈ res.(Result_RequestedPrivilegeExpansion) ↔ a ∈ uncapped.(Contract_Permissions) ∧ a ∉ current.(Contract_Permissions))
  ∧ (∀ a, a ∈ c.(Contract_Permissions) ↔ a ∈ uncapped.(Contract_Permissions) ∧ a ∈ current.(Contract_Permissions))
  ∧ c.(Contract_ID) = current.(Contract_ID) ∧ c.(Contract_Revision) ≠ current.(Contract_Revision)
  ∧ c.(Contract_Provenance).(Provenance_PreviousContractRevision) = Some current.(Contract_Revision)
  ∧ (∀ a, a ∈ res.(Result_RequestedPrivilegeExpansion) →
       a ∉ current.(Contract_Permissions) ∧ a ∉ c.(Contract_Permissions) ∧ Suspends res a = true)
  ∧ (∀ a, a ∈ current.(Contract_Permissions) ∨ a ∈ c.(Contract_Permissions)
          ∨ a ∈ current.(Contract_Prohibitions) ∨ a ∈ c.(Contract_Prohibitions) → Suspends res a = true).
Proof.
  intros (observed & candidate & requested & uncapped & Hv & Hobs & Hrec & _ & Hreq & _ & _ & Hno & Hyes)%Reassess_inv Hc.
  destruct (Result_Material res); [|destruct (Hno eq_refl) as [Hn _]; congruence].
  destruct (Hyes eq_refl) as (Hcand & Hsus & _). rewrite Hcand in Hc. injection Hc as <-.
  destruct Hrec as [Hun Hr Hp (Hid & Hrev & _ & Hprev) _]. simpl.
  assert (∀ a, Suspends res a = true ↔ a ∈ requested
    ∨ a ∈ suspendedActions (Reassess_CurrentContract input) candidate) as Hs.
  { intros a. rewrite Suspends_spec, Hsus, elem_of_sort_actions, elem_of_app. tauto. }
  unfold validateReassessInput in Hv. invert_ok. reflect_bools.
  exists observed, uncapped. split_and!; [done|done|by rewrite Hreq|exact Hp| | | | |].
  - congruence.
  - rewrite Hrev. naive_solver.
  - done.
  - intros a Ha. rewrite Hreq in Ha. rewrite Hp, Hs. apply Hr in Ha as Ha'. naive_solver.
  - intros a Ha. rewrite Hs. right. unfold suspendedActions. rewrite elem_of_sort_actions, !elem_of_app. tauto.
Qed.

(** A reassessment that is not material leaves nothing uncovered: the
    observed paths are known, allowed and not prohibited, the subject has
    not moved, no privilege is requested, and recompiling the observed
    facts gives the current contract's invariants, obligations, claims,
    permissions, prohibitions and authority conditions. *)
Theorem Reassess_not_material input res :
  Reassess input = Ok res → res.(Result_Material) = false →
  let current := input.(Reassess_CurrentContract) in
  ∃ observed c,
    NormalizeObservedChange input.(Reassess_ObservedChange) = Ok observed
    ∧ Compile (observed_compile input observed res.(Result_ObservedFacts) (Some current)) = Ok c
    ∧ observed.(Change_PathsKnown) = true
    ∧ (∀ p, p ∈ observed.(Change_Paths) →
         MatchesAny p current.(Contract_Scope).(Scope_AllowedPaths) = true
         ∧ MatchesAny p current.(Contract_Scope).(Scope_ProhibitedPaths) = false)
    ∧ c.(Contract_Subject) = current.(Contract_Subject)
    ∧ c.(Contract_Invariants) = current.(Contract_Invariants)
    ∧ c.(Contract_Obligations) = current.(Contract_Obligations)
    ∧ c.(Contract_RequiredClaims) = current.(Contract_RequiredClaims)
    ∧ (∀ a, a ∈ c.(Contract_Permissions) ↔ a ∈ current.(Contract_Permissions))
    ∧ (∀ a, a ∈ c.(Contract_Prohibitions) ↔ a ∈ current.(Contract_Prohibitions))
    ∧ (∀ key, condition_claims c.(Contract_AuthorityConditions) key
              = condition_claims current.(Contract_AuthorityConditions) key)
    ∧ res.(Result_RequestedPrivilegeExpansion) = [] ∧ res.(Result_Contract) = None
    ∧ res.(Result_SuspendedActions) = [] ∧ res.(Result_StaleEvidence) = ∅.
Proof.
  intros (observed & c & requested & uncapped & Hv & Hobs & Hrec & Hcap & Hreq & Hdev & Hmat & Hno & _)%Reassess_inv Hf.
  simpl. destruct (Hno Hf) as (HC & HS & HE).
  rewrite Hf in Hmat. symmetry in Hmat. apply bool_decide_eq_false, dec_stable in Hmat.
  rewrite Hdev in Hmat. unfold deviations_of, sortedDeviations in Hmat. rewrite sort_by_nil, !app_nil_iff in Hmat.
  destruct Hmat as (Hscope & Hrev & Himpact & Hpriv).
  apply scopeDeviations_nil in Hscope as [Hknown Hpaths].
  apply fmap_nil_inv in Hpriv. subst requested. specialize (Hcap Hpriv).
  exists observed, c.
  destruct Hrec as [_ _ _ (_ & _ & Hsub & _) _].
  unfold impactDeviations in Himpact. rewrite !app_nil_iff in Himpact.
  destruct Himpact as (Hinv & Hobl & Hcl & Hper & Hpro & Hcond).
  apply map_deviation_nil in Hinv; [|apply sameRequirement_eq].
  apply map_deviation_nil in Hobl; [|apply sameRequirement_eq].
  apply map_deviation_nil in Hcl; [|intros; apply bool_decide_eq_true].
  unfold actionDeviations in Hper, Hpro. rewrite app_nil_iff in Hper, Hpro.
  destruct Hper as [Hp1%fmap_nil_inv%actionDifference_nil Hp2%fmap_nil_inv%actionDifference_nil].
  destruct Hpro as [Hq1%fmap_nil_inv%actionDifference_nil Hq2%fmap_nil_inv%actionDifference_nil].
  split_and!; try done.
  - rewrite Hsub. unfold validateReassessInput in Hv. invert_ok.
    assert (Subject_Revision (Compile_Subject (Reassess_Compile input))
            = Subject_Revision (Contract_Subject (Reassess_CurrentContract input))) as Hr.
    { destruct (decide (Subject_Revision (Compile_Subject (Reassess_Compile input))
        = Subject_Revision (Contract_Subject (Reassess_CurrentContract input)))) as [|Hne]; [done|].
      by rewrite bool_decide_eq_false_2 in Hrev. }
    reflect_bools.
    destruct (Compile_Subject (Reassess_Compile input)), (Contract_Subject (Reassess_CurrentContract input)).
    simpl in *. congruence.
  - intros a; split; [apply Hp1|apply Hp2].
  - intros a; split; [apply Hq1|apply Hq2].
  - intros key. symmetry. by apply conditionDeviations_nil.
Qed.

Lemma stale_evidence_ok input candidate stale :
  stale_evidence input candidate = Ok stale →
  (∀ id, is_Some (stale !! id) ↔ is_Some (input.(Reassess_EvidenceBundles) !! id))
  ∧ ∀ id bundle, input.(Reassess_EvidenceBundles) !! id = Some bundle →
      ∃ next updated, stale !! id = Some updated
        ∧ BindingOf bundle = contract_binding input.(Reassess_CurrentContract)
        ∧ stale_successor bundle updated (contract_binding candidate) next.
Proof.
  unfold stale_evidence. intros Hs.
  apply (for_each_ind _ (λ done m, (∀ id, is_Some (m !! id) ↔ id ∈ done.*1)
    ∧ ∀ id bundle, (id, bundle) ∈ done → NoDup done.*1 →
        ∃ next updated, m !! id = Some updated
        ∧ BindingOf bundle = contract_binding input.(Reassess_CurrentContract)
        ∧ stale_successor bundle updated (contract_binding candidate) next)) in Hs.
  - destruct Hs as [Hd Hall]. split.
    + intros id. rewrite Hd. apply elem_of_range_keys.
    + intros id bundle Hl. apply Hall; [by apply elem_of_range|apply range_keys_NoDup].
  - split.
    + intros id. rewrite lookup_empty. simpl. rewrite elem_of_nil. split; [by intros [? ?]|done].
    + by intros id bundle ?%not_elem_of_nil.
  - intros done [id bundle] rest m1 m2 _ [Hd Hall] Hstep. unfold stale_bundle in Hstep. invert_ok.
    match goal with H : MarkStaleForBindingChange _ _ _ = Ok _ |- _ => apply MarkStale_successor in H end.
    match goal with H : negb _ = false |- _ => apply negb_false_iff, bool_decide_eq_true in H end.
    split.
    + intros k. rewrite lookup_insert_is_Some, Hd, fmap_app, elem_of_app. simpl. rewrite list_elem_of_singleton.
      destruct (decide (id = k)); naive_solver.
    + intros k b. rewrite elem_of_app, list_elem_of_singleton, fmap_app, NoDup_app. simpl.
      intros [Hin|[= -> ->]] (Hnd & Hdis & _).
      * destruct (Hall k b Hin Hnd) as (next & updated & Hl & ?). exists next, updated.
        rewrite lookup_insert_ne; [done|]. intros <-. eapply Hdis; [|constructor].
        by apply (list_elem_of_fmap_2 fst) in Hin.
      * rewrite lookup_insert_eq. eauto.
Qed.

(** A material reassessment retires all the evidence: every bundle was
    bound to the current contract, its successor keeps that binding, and no
    claim finds applicable passing evidence in it, neither for the next
    contract nor for any other. *)
Theorem Reassess_retires_evidence input res c :
  Reassess input = Ok res → res.(Result_Contract) = Some c →
  (∀ id, is_Some (res.(Result_StaleEvidence) !! id) ↔ is_Some (input.(Reassess_EvidenceBundles) !! id))
  ∧ ∀ id stale, res.(Result_StaleEvidence) !! id = Some stale →
      BindingOf stale = contract_binding input.(Reassess_CurrentContract)
      ∧ BindingOf stale ≠ contract_binding c
      ∧ ∀ item key, stale.(Bundle_Evidence) !! key = Some item →
          item.(Item_Lifecycle).(Lifecycle_Status) ≠ EvidenceValid.
Proof.
  intros (observed & candidate & requested & uncapped & _ & _ & _ & _ & _ & _ & _ & Hno & Hyes)%Reassess_inv Hc.
  destruct (Result_Material res); [|destruct (Hno eq_refl) as [Hn _]; congruence].
  destruct (Hyes eq_refl) as (Hcand & _ & Hst). rewrite Hcand in Hc. injection Hc as <-.
  apply stale_evidence_ok in Hst as [Hdom Hall]. split; [done|]. intros id stale Hl.
  destruct (proj1 (Hdom id)) as [bundle Hb]; [eauto|].
  destruct (Hall id bundle Hb) as (next & updated & Hu & Hbind & Hsucc).
  rewrite Hl in Hu. injection Hu as <-. destruct Hsucc as [_ Hbd _ Hne Hitems].
  split_and!; [congruence|congruence|].
  intros item key. rewrite Hitems, lookup_fmap, fmap_Some. intros (item0 & _ & ->). apply mark_stale_not_valid.
Qed.
End reassess_theorems.

(* ------------------------------------------------------------------ *)
(** * Concrete reassessments *)

(** A policy whose rule for the auth boundary adds the given permissions and
    asks for a security reviewer. *)
Definition auth_policy (added : option (list Action)) : EngineeringPolicy :=
  MkPolicy SchemaVersion "policy" "1"
    (<["auth" := MkPolicyRule (when_fact "auth.boundary_modified" FactTrue)
         (MkPolicyEffect None None None None added None None (Some strict_requirements))]>
    (<["base" := MkPolicyRule (when_fact "database.boundary_modified" FactFalse)
         (MkPolicyEffect (Some ["tests"]) None None (Some (<["tests" := MkRequiredClaim "unit_test" true]> ∅))
            (Some [publish]) None (Some [MkAuthorityCondition publish ["tests"]]) None)]> ∅)).

Definition compile_at (policy : EngineeringPolicy) (revision subject : string) (facts : list EngineeringFact) : CompileInput :=
  {| Compile_ContractID := "contract"; Compile_ContractRevision := revision; Compile_Objective := "change";
     Compile_AcceptanceIntent := ["it works"]; Compile_Subject := MkSubject "repo" subject;
     Compile_Scope := MkContractScope StagePredicted ["README.md"; "auth/**"] [];
     Compile_ProjectModel := Analysis.example_model; Compile_Policy := policy;
     Compile_Facts := facts; Compile_PreviousContract := None |}.

(** The contract compiled from the facts predicted for a change of the
    README. *)
Definition predicted_facts : list EngineeringFact :=
  @Sorted_facts range_forward (ok_or ∅ (@Predict accept_all (@NewAnalyzer range_forward) Analysis.example_model
    (MkSubject "repo" "r1") (MkIntent "change" ["it works"] ["README.md"] true))).

Definition current_contract (policy : EngineeringPolicy) : EngineeringWorkContract :=
  ok_or example_contract (@Compile range_forward accept_all (compile_at policy "1" "r1" predicted_facts)).

Definition reassess_input (policy : EngineeringPolicy) (subject : string) (paths : list string)
  (bundles : gmap string EvidenceBundle) : ReassessInput :=
  {| Reassess_CurrentContract := current_contract policy;
     Reassess_Compile := compile_at policy "2" subject [];
     Reassess_ObservedChange := MkObservedChange paths true;
     Reassess_Analyzer := MkAnalyzer [];
     Reassess_EvidenceBundles := bundles;
     Reassess_EvidenceRevisions := <["b1" := "2"]> ∅ |}.

Definition result_zero : ReassessResult := MkReassessResult ∅ false [] [] None [] ∅.

Definition reassess_example (input : ReassessInput) : ReassessResult :=
  ok_or result_zero (@Reassess range_forward accept_all ascii_unicode input).

(** A new head that touches the auth boundary, under a policy that answers
    with a new permission. *)
Definition material_input : ReassessInput :=
  reassess_input (auth_policy (Some [deploy])) "r2" ["README.md"; "auth/login.go"]
    (<["b1" := bundle_of "b1" "1" test_evidence]> ∅).

(** The predicted change, observed on the same head. *)
Definition quiet_input : ReassessInput :=
  {| Reassess_CurrentContract := current_contract (auth_policy None);
     Reassess_Compile := compile_at (auth_policy None) "2" "r1" [];
     Reassess_ObservedChange := MkObservedChange ["README.md"] true;
     Reassess_Analyzer := MkAnalyzer []; Reassess_EvidenceBundles := ∅; Reassess_EvidenceRevisions := ∅ |}.

Definition material_contract : EngineeringWorkContract :=
  default example_contract (reassess_example material_input).(Result_Contract).

Lemma material_ok : @Reassess range_forward accept_all ascii_unicode material_input = Ok (reassess_example material_input).
Proof. apply ok_or_eq. vm_compute. reflexivity. Qed.

Lemma material_some : (reassess_example material_input).(Result_Contract) = Some material_contract.
Proof.
  unfold material_contract.
  assert (is_Some (Result_Contract (reassess_example material_input))) as [c ->]; [|done].
  apply not_eq_None_Some. intros Hn.
  assert (match Result_Contract (reassess_example material_input) with Some _ => true | None => false end = true) as Hm
    by (vm_compute; reflexivity).
  by rewrite Hn in Hm.
Qed.

Lemma Reassess_no_privilege_gain_witness :
  (reassess_example material_input).(Result_RequestedPrivilegeExpansion) = [deploy]
  ∧ material_contract.(Contract_Permissions) = [publish]
  ∧ Suspends (reassess_example material_input) deploy = true
  ∧ ∃ uncapped : EngineeringWorkContract, deploy ∈ uncapped.(Contract_Permissions) ∧ deploy ∉ (material_input.(Reassess_CurrentContract)).(Contract_Permissions).
Proof.
  split; [vm_compute; reflexivity|]. split; [vm_compute; reflexivity|].
  destruct (@Reassess_no_privilege_gain range_forward accept_all ascii_unicode material_input
    (reassess_example material_input) material_contract material_ok material_some) as (_ & uncapped & _ & _ & Hreq & _ & _ & _ & _ & Hr & _).
  assert (deploy ∈ Result_RequestedPrivilegeExpansion (reassess_example material_input)) as Hin.
  { assert (Result_RequestedPrivilegeExpansion (reassess_example material_input) = [deploy]) as -> by (vm_compute; reflexivity). constructor. }
  split; [by apply Hr|]. exists uncapped. by apply Hreq.
Defined.

Lemma Reassess_retires_evidence_witness :
  ∃ stale, (reassess_example material_input).(Result_StaleEvidence) !! "b1" = Some stale
  ∧ BindingOf stale ≠ contract_binding material_contract.
Proof.
  destruct (@Reassess_retires_evidence range_forward accept_all ascii_unicode material_input
    (reassess_example material_input) material_contract material_ok material_some) as [Hdom Hall].
  destruct (proj2 (Hdom "b1")) as [stale Hs]; [by eexists|].
  exists stale. split; [exact Hs|]. exact (proj1 (proj2 (Hall "b1" stale Hs))).
Defined.

Lemma Reassess_not_material_witness :
  (reassess_example quiet_input).(Result_RequestedPrivilegeExpansion) = []
  ∧ (reassess_example quiet_input).(Result_Contract) = None.
Proof.
  assert (@Reassess range_forward accept_all ascii_unicode quiet_input = Ok (reassess_example quiet_input)) as Hr
    by (apply ok_or_eq; vm_compute; reflexivity).
  assert (Result_Material (reassess_example quiet_input) = false) as Hm by (vm_compute; reflexivity).
  destruct (@Reassess_not_material range_forward accept_all ascii_unicode _ _ Hr Hm)
    as (o & c & _ & _ & _ & _ & _ & _ & _ & _ & _ & _ & _ & H1 & H2 & _).
  split; [exact H1|exact H2].
Defined.

(** The same head, where the observed change touches the auth boundary and
    the policy answers only with a role. *)
Definition role_input : ReassessInput :=
  {| Reassess_CurrentContract := current_contract (auth_policy None);
     Reassess_Compile := compile_at (auth_policy None) "2" "r1" [];
     Reassess_ObservedChange := MkObservedChange ["auth/login.go"] true;
     Reassess_Analyzer := MkAnalyzer []; Reassess_EvidenceBundles := ∅; Reassess_EvidenceRevisions := ∅ |}.

(** Plan-shaped obligations escape reassessment: when the observed facts
    only add a role requirement, recompiling states it but no deviation is
    recorded, so the reassessment is not material and the requirement is
    dropped. *)
Theorem Reassess_ignores_plan_requirements :
  ∃ c, @Reassess range_forward accept_all ascii_unicode role_input = Ok (reassess_example role_input)
  ∧ (reassess_example role_input).(Result_Material) = false
  ∧ @Compile range_forward accept_all (@observed_compile range_forward role_input
      (MkObservedChange ["auth/login.go"] true) (reassess_example role_input).(Result_ObservedFacts)
      (Some role_input.(Reassess_CurrentContract))) = Ok c
  ∧ role_input.(Reassess_CurrentContract).(Contract_PlanRequirements) = None
  ∧ c.(Contract_PlanRequirements) ≠ None.
Proof.
  exists (ok_or example_contract (@Compile range_forward accept_all (@observed_compile range_forward role_input
      (MkObservedChange ["auth/login.go"] true) (reassess_example role_input).(Result_ObservedFacts)
      (Some role_input.(Reassess_CurrentContract))))).
  split; [apply ok_or_eq; vm_compute; reflexivity|].
  split; [vm_compute; reflexivity|].
  split; [apply ok_or_eq; vm_compute; reflexivity|].
  split; [vm_compute; reflexivity|].
  apply not_eq_None_Some, (bool_decide_eq_true_1 _). vm_compute. reflexivity.
Qed.
