(* ===== verification/Review.v ===== *)
(** Independent review decisions: the package [review]
    ([review/decision.go]).  A decision is the one verdict of one reviewing
    agent on one exact head. *)

From Stdlib Require Import Ascii.
From S2P Require Import Prelude GoStrings Sha256.
From stdpp Require Import options.

Definition SchemaVersion : string := "0.1".

Definition VerdictApprove : string := "approve".
Definition VerdictRequestChanges : string := "request_changes".
Definition VerdictCommentOnly : string := "comment_only".

(** [Verdict.valid]. *)
Definition valid_verdict (v : string) : bool :=
  (v ≟ VerdictApprove) || (v ≟ VerdictRequestChanges) || (v ≟ VerdictCommentOnly).

Definition SeverityBlocking : string := "blocking".
Definition SeverityNonBlocking : string := "non_blocking".

(** [Severity.valid]. *)
Definition valid_severity (s : string) : bool := (s ≟ SeverityBlocking) || (s ≟ SeverityNonBlocking).

Record Finding := MkFinding {
  Finding_Severity : string;
  Finding_Signature : string;
  Finding_Detail : string;
  Finding_Path : string;
  Finding_Line : Z
}.

Record Subject := MkSubject {
  Subject_Repository : string;
  Subject_PRNumber : Z;
  Subject_HeadSHA : string
}.

(** [CreatedAt] is the instant, 0 for the zero time. *)
Record Decision := MkDecision {
  Decision_SchemaVersion : string;
  Decision_ID : string;
  Decision_Subject : Subject;
  Decision_BaseSHA : string;
  Decision_RunID : string;
  Decision_ProducerAgentID : string;
  Decision_ReviewerAgentID : string;
  Decision_ReviewerProviderKind : string;
  Decision_ReviewerVendorFamily : string;
  Decision_Verdict : string;
  Decision_Findings : list Finding;
  Decision_Reason : string;
  Decision_ContextDigest : string;
  Decision_CreatedAt : Z
}.

Inductive ReviewError :=
  | SubjectRepositoryRequired
  | SubjectNumberRequired
  | SubjectHeadRequired
  | ReviewerRequired
  | UnsupportedSchema (version : string)
  | IdentityRequired
  | RunRequired
  | NotCanonical (id canonical : string)
  | UnknownVerdict (v : string)
  | UnknownSeverity (s : string)
  | SignatureRequired
  | NegativeLine (line : Z)
  | ApprovesBlocking
  | NothingToChange
  | CreationTimeRequired.

(** [Finding.validate]. *)
Definition validate_finding (f : Finding) : result ReviewError () :=
  refuse_if (negb (valid_severity f.(Finding_Severity))) (UnknownSeverity f.(Finding_Severity)) ;?
  refuse_if (blank f.(Finding_Signature)) SignatureRequired ;?
  refuse_if (f.(Finding_Line) <? 0)%Z (NegativeLine f.(Finding_Line)).

(** [Subject.Validate]. *)
Definition validate_subject (s : Subject) : result ReviewError () :=
  refuse_if (blank s.(Subject_Repository)) SubjectRepositoryRequired ;?
  refuse_if (s.(Subject_PRNumber) <=? 0)%Z SubjectNumberRequired ;?
  refuse_if (blank s.(Subject_HeadSHA)) SubjectHeadRequired.

(** The hashed text of [DecisionID]. *)
Definition identity_text (subject : Subject) (reviewerAgentID : string) : string :=
  subject.(Subject_Repository) +:+ NUL +:+ itoa subject.(Subject_PRNumber) +:+ NUL +:+ subject.(Subject_HeadSHA)
  +:+ NUL +:+ reviewerAgentID.

Definition DecisionID (subject : Subject) (reviewerAgentID : string) : result ReviewError string :=
  validate_subject subject ;?
  refuse_if (blank reviewerAgentID) ReviewerRequired ;?
  Ok ("review-" +:+ take_bytes 24 (sha256_hex (identity_text subject reviewerAgentID))).

(** [Decision.Validate]. *)
Definition Validate (d : Decision) : result ReviewError () :=
  refuse_if (d.(Decision_SchemaVersion) ≠? SchemaVersion) (UnsupportedSchema d.(Decision_SchemaVersion)) ;?
  refuse_if (blank d.(Decision_ID)) IdentityRequired ;?
  validate_subject d.(Decision_Subject) ;?
  refuse_if (blank d.(Decision_RunID)) RunRequired ;?
  refuse_if (blank d.(Decision_ReviewerAgentID)) ReviewerRequired ;?
  let? canonical := DecisionID d.(Decision_Subject) d.(Decision_ReviewerAgentID) in
  refuse_if (d.(Decision_ID) ≠? canonical) (NotCanonical d.(Decision_ID) canonical) ;?
  refuse_if (negb (valid_verdict d.(Decision_Verdict))) (UnknownVerdict d.(Decision_Verdict)) ;?
  let? hasBlocking := for_each (λ hasBlocking finding,
    validate_finding finding ;? Ok (hasBlocking || (finding.(Finding_Severity) ≟ SeverityBlocking)))
    d.(Decision_Findings) false in
  (if d.(Decision_Verdict) ≟ VerdictApprove then refuse_if hasBlocking ApprovesBlocking
   else if d.(Decision_Verdict) ≟ VerdictRequestChanges then refuse_if (negb hasBlocking) NothingToChange
   else Ok tt) ;?
  refuse_if (d.(Decision_CreatedAt) =? 0)%Z CreationTimeRequired.

Definition StaleAgainst (d : Decision) (currentHeadSHA : string) : bool :=
  d.(Decision_Subject).(Subject_HeadSHA) ≠? TrimSpace currentHeadSHA.

(* ------------------------------------------------------------------ *)
(** * What a valid decision is *)

Record valid_finding (f : Finding) : Prop := {
  valid_finding_severity : f.(Finding_Severity) = SeverityBlocking ∨ f.(Finding_Severity) = SeverityNonBlocking;
  valid_finding_signature : blank f.(Finding_Signature) = false;
  valid_finding_line : (0 <= f.(Finding_Line))%Z
}.

Definition blocks (d : Decision) : Prop :=
  ∃ f, f ∈ d.(Decision_Findings) ∧ f.(Finding_Severity) = SeverityBlocking.

Lemma validate_finding_ok f u : validate_finding f = Ok u ↔ valid_finding f.
Proof.
  destruct u. unfold validate_finding, valid_severity. split.
  - intros Hf. invert_ok. apply negb_false_iff, orb_true_iff in H. rewrite !bool_decide_eq_true in H.
    apply Z.ltb_ge in Hf. by split.
  - intros [Hs Hb Hl]. rewrite Hb, (proj2 (Z.ltb_ge _ _) Hl).
    assert (negb ((Finding_Severity f ≟ SeverityBlocking) || (Finding_Severity f ≟ SeverityNonBlocking)) = false) as ->; [|done].
    apply negb_false_iff, orb_true_iff. by rewrite !bool_decide_eq_true.
Qed.

(** The findings loop succeeds when every finding is valid, and reports
    whether one blocks. *)
Lemma findings_ok fs (b0 b : bool) :
  for_each (λ hasBlocking finding,
    validate_finding finding ;? Ok (hasBlocking || (finding.(Finding_Severity) ≟ SeverityBlocking))) fs b0 = Ok b
  ↔ Forall valid_finding fs
    ∧ (b = true ↔ b0 = true ∨ ∃ f, f ∈ fs ∧ f.(Finding_Severity) = SeverityBlocking).
Proof.
  revert b0; induction fs as [|f fs IH]; intros b0; simpl.
  - setoid_rewrite elem_of_nil. rewrite Forall_nil. destruct b0, b; naive_solver.
  - rewrite Forall_cons. destruct (validate_finding f) as [[]|e] eqn:Hf; simpl.
    + apply validate_finding_ok in Hf. rewrite IH. setoid_rewrite elem_of_cons.
      rewrite orb_true_iff, bool_decide_eq_true. naive_solver.
    + split; [done|]. intros [[Hv _] _]. by rewrite (proj2 (validate_finding_ok f tt) Hv) in Hf.
Qed.

Record valid_decision (d : Decision) : Prop := {
  valid_schema : d.(Decision_SchemaVersion) = SchemaVersion;
  valid_identity : DecisionID d.(Decision_Subject) d.(Decision_ReviewerAgentID) = Ok d.(Decision_ID);
  valid_identity_text : blank d.(Decision_ID) = false;
  valid_run : blank d.(Decision_RunID) = false;
  valid_findings : Forall valid_finding d.(Decision_Findings);
  valid_outcome : (d.(Decision_Verdict) = VerdictApprove ∧ ¬ blocks d)
    ∨ (d.(Decision_Verdict) = VerdictRequestChanges ∧ blocks d) ∨ d.(Decision_Verdict) = VerdictCommentOnly;
  valid_created : d.(Decision_CreatedAt) ≠ 0%Z
}.

(** A decision validates exactly when it has the schema version, its
    identity is the canonical one of its subject and reviewer, it names its
    run, its findings are well-formed, its creation time is set, and an
    approval names no blocking finding while a request for changes names
    one. *)
Theorem Validate_iff d : Validate d = Ok tt ↔ valid_decision d.
Proof.
  unfold Validate. split.
  - intros Hv. invert_ok.
    match goal with H : for_each _ _ _ = Ok _ |- _ => apply findings_ok in H as [Hf Hb] end.
    repeat match goal with
    | H : negb (bool_decide _) = false |- _ => apply negb_false_iff, bool_decide_eq_true in H
    | H : (_ =? 0)%Z = false |- _ => apply Z.eqb_neq in H
    end.
    split; try done; [congruence|]. unfold blocks.
    match goal with H : (if _ then _ else _) = Ok _ |- _ => rename H into Hverdict end.
    match goal with H : negb (valid_verdict _) = false |- _ =>
      apply negb_false_iff in H; unfold valid_verdict in H; rewrite !orb_true_iff, !bool_decide_eq_true in H; rename H into Hk end.
    destruct Hk as [[Hk|Hk]|Hk]; rewrite Hk in Hverdict; simpl in Hverdict; invert_ok; [left|right; left|right; right; done].
    + split; [done|]. naive_solver.
    + split; [done|]. apply negb_false_iff in Hverdict. naive_solver.
  - intros [H1 H2 Hn H3 H4 H5 H6].
    rewrite H2, Hn, H3. rewrite !(bool_decide_eq_true_2 (_ = _)) by done. simpl.
    unfold DecisionID in H2. invert_ok.
    match goal with H : validate_subject _ = Ok _ |- _ => rewrite H end.
    match goal with H : blank (Decision_ReviewerAgentID d) = false |- _ => rewrite H end. simpl.
    set (b := existsb (λ f, f.(Finding_Severity) ≟ SeverityBlocking) d.(Decision_Findings)).
    assert (b = true ↔ blocks d) as Hb.
    { unfold b, blocks. rewrite existsb_elem. by setoid_rewrite bool_decide_eq_true. }
    rewrite (proj2 (findings_ok d.(Decision_Findings) false b)) by (split; [done|rewrite Hb; unfold blocks; naive_solver]).
    simpl. rewrite (proj2 (Z.eqb_neq _ _) H6), (bool_decide_eq_true_2 (Decision_ID d = Decision_ID d)) by done.
    destruct H5 as [[-> Hnb]|[[-> Hbl]| ->]]; simpl; [| |].
    + by destruct b; [destruct Hnb; apply Hb|].
    + by rewrite (proj2 Hb Hbl).
    + done.
Qed.

(* ------------------------------------------------------------------ *)
(** * Identities *)

Definition NUL_char : ascii := ascii_of_N 0.

Lemma join_inj a b x y :
  sep_free NUL_char a → sep_free NUL_char b → a +:+ NUL +:+ x = b +:+ NUL +:+ y → a = b ∧ x = y.
Proof.
  intros Ha Hb He. change (NUL +:+ x) with (String NUL_char x) in He. change (NUL +:+ y) with (String NUL_char y) in He.
  assert (∀ s z, sep_free NUL_char s → head (split_on NUL_char (s +:+ String NUL_char z)) = Some s) as Hh.
  { intros s z Hs. rewrite split_on_app, Hs. done. }
  assert (Some a = Some b) as [= ->] by (rewrite <- (Hh a x Ha), <- (Hh b y Hb); by rewrite He).
  split; [done|]. apply string_app_inj_l in He. by injection He as ->.
Qed.

(** The text a review identity hashes separates subjects and reviewers:
    for repositories and heads without a NUL byte, two valid subjects and
    reviewers with the same text are the same. *)
Theorem identity_text_inj s1 s2 r1 r2 :
  validate_subject s1 = Ok tt → validate_subject s2 = Ok tt →
  sep_free NUL_char s1.(Subject_Repository) → sep_free NUL_char s2.(Subject_Repository) →
  sep_free NUL_char s1.(Subject_HeadSHA) → sep_free NUL_char s2.(Subject_HeadSHA) →
  identity_text s1 r1 = identity_text s2 r2 → s1 = s2 ∧ r1 = r2.
Proof.
  unfold validate_subject. intros Hv1 Hv2 Hr1 Hr2 Hh1 Hh2 He. invert_ok.
  repeat match goal with H : (_ <=? 0)%Z = false |- _ => apply Z.leb_gt in H end.
  assert (∀ z, (0 < z)%Z → sep_free NUL_char (itoa z)) as Hz.
  { intros z Hz. apply sep_free_bytes. intros Hin.
    pose proof (itoa_bytes z ltac:(lia)) as Hf. rewrite Forall_forall in Hf. specialize (Hf _ Hin).
    vm_compute in Hf. by destruct Hf as [? ?]. }
  destruct s1 as [a1 n1 h1], s2 as [a2 n2 h2]. unfold identity_text in He. simpl in *.
  apply join_inj in He as [-> He]; [|done..]. apply join_inj in He as [Hn He]; [|auto..].
  apply join_inj in He as [-> ->]; [|done..]. apply itoa_inj in Hn as ->; [done|lia..].
Qed.

Definition example_subject (head : string) : Subject := MkSubject "owner/repo" 12 head.

Lemma identity_text_inj_witness :
  identity_text (example_subject "abc") "agent" ≠ identity_text (example_subject "abd") "agent".
Proof.
  intros He. destruct (identity_text_inj (example_subject "abc") (example_subject "abd") "agent" "agent") as [Hs _];
    [vm_compute; reflexivity..|exact He|]. discriminate Hs.
Defined.

(** A decision applies to a head exactly when the head, trimmed, is the
    one it was bound to; so a decision bound to a head with surrounding white
    space, which [Validate] admits, is stale even against its own head. *)
Theorem StaleAgainst_spec d head :
  (StaleAgainst d head = false ↔ TrimSpace head = d.(Decision_Subject).(Subject_HeadSHA))
  ∧ ∃ padded, Validate padded = Ok tt ∧ StaleAgainst padded padded.(Decision_Subject).(Subject_HeadSHA) = true.
Proof.
  split.
  - unfold StaleAgainst. rewrite negb_false_iff, bool_decide_eq_true. split; congruence.
  - set (s := example_subject "abc ").
    exists (MkDecision SchemaVersion (ok_or "" (DecisionID s "agent")) s "" "run" "producer" "agent" "" ""
              VerdictCommentOnly [] "" "" 1).
    split; vm_compute; reflexivity.
Qed.
