(* ===== verification/Canonical.v ===== *)
(** Canonical documents and digests: [domain.CanonicalJSON] and
    [domain.Digest] ([domain/canonical.go]).  A Go value is the tree
    reflection walks; the JSON text of the tree after RFC 8785 comes from the
    third-party [jcs] and is a parameter. *)

From S2P Require Import Prelude GoStrings Sha256 Json.
From stdpp Require Import options.

(** The values the source hands to [Digest]: a struct is the list of its
    exported fields under their JSON names, a map the list of its entries in
    the order of their keys, a [json.RawMessage] the value it is the text of. *)
Inductive GoValue :=
  | GNil
  | GBool (b : bool)
  | GString (s : string)
  | GInt (n : Z)
  | GList (l : list GoValue)
  | GStruct (fields : list (string * GoValue))
  | GMap (entries : list (string * GoValue))
  | GRaw (v : Json).

(** [json:"name,omitempty"]: the field is absent at its zero value. *)
Definition omit_if (empty : bool) (name : string) (v : GoValue) : list (string * GoValue) :=
  if empty then [] else [(name, v)].

(** [jcs.Transform] of the JSON of a value. *)
Class Canonicalizer := { canonical_json : GoValue → string }.

Inductive CanonicalError :=
  | InvalidUTF8
  | IntegerRange (n : Z)
  | AmbiguousRaw
  | Unencodable.

Definition maxSafeInteger : Z := 2 ^ 53 - 1.

(** A member of a list or field list that is refused stops the walk.  A raw
    message is left to [jcs], which refuses a name an object has twice. *)
Fixpoint validateIJSONValue (v : GoValue) : result CanonicalError () :=
  match v with
  | GNil | GBool _ => Ok tt
  | GString s => refuse_if (negb (ValidString s)) InvalidUTF8
  | GInt n => refuse_if ((n <? - maxSafeInteger) || (maxSafeInteger <? n))%Z (IntegerRange n)
  | GList l => check_all validateIJSONValue l
  | GStruct fields => check_all (λ field, validateIJSONValue field.2) fields
  | GMap entries => check_all (λ entry, refuse_if (negb (ValidString entry.1)) InvalidUTF8 ;? validateIJSONValue entry.2) entries
  | GRaw v => refuse_if (negb (unique_names v)) AmbiguousRaw
  end.

Section Canonical.
Context `{!Canonicalizer}.

Definition CanonicalJSON (v : GoValue) : result CanonicalError string :=
  validateIJSONValue v ;? Ok (canonical_json v).

Definition Digest (v : GoValue) : result CanonicalError string :=
  let? canonical := CanonicalJSON v in Ok (sha256_hex canonical).

Lemma Digest_ok v d :
  Digest v = Ok d ↔ validateIJSONValue v = Ok tt ∧ d = sha256_hex (canonical_json v).
Proof.
  unfold Digest, CanonicalJSON. rewrite rbind_ok. setoid_rewrite rbind_ok. split.
  - intros (c & ([] & Hv & [= <-]) & [= <-]). done.
  - intros [Hv ->]. eexists. split; [|done]. by exists tt.
Qed.

Lemma Digest_len v d : Digest v = Ok d → len d = 64%nat.
Proof. intros [_ ->]%Digest_ok. apply sha256_hex_length. Qed.
End Canonical.

(** [json.Marshal]: the value itself, as the JSON it is written as; a byte that
    is not text becomes U+FFFD. *)
Definition json_text (s : string) : string := of_bytes (replace_invalid [0xEF; 0xBF; 0xBD]%N (bytes s)).
Lemma json_text_id s : ValidString s = true → json_text s = s.
Proof. unfold ValidString, json_text. intros Hv. rewrite replace_invalid_id by done. apply of_bytes_bytes. Qed.

Fixpoint marshal (v : GoValue) : Json :=
  match v with
  | GNil => JNull
  | GBool b => JBool b
  | GString s => JString (json_text s)
  | GInt n => JNumber (itoa n)
  | GList l => JArray (marshal <$> l)
  | GStruct fields | GMap fields => JObject ((λ field, (json_text field.1, marshal field.2)) <$> fields)
  | GRaw v => v
  end.

(** ** The integers of a document

    A document that canonicalizes holds no integer beyond [maxSafeInteger], so
    a sum written into one did not wrap around. *)

Definition safe_range (z : Z) : Prop := (- maxSafeInteger <= z <= maxSafeInteger)%Z.

Lemma validate_GInt n : validateIJSONValue (GInt n) = Ok tt → safe_range n.
Proof. simpl. rewrite refuse_if_ok, orb_false_iff, !Z.ltb_ge. unfold safe_range. lia. Qed.
Lemma validate_member fields name v : validateIJSONValue (GStruct fields) = Ok tt → (name, v) ∈ fields → validateIJSONValue v = Ok tt.
Proof. simpl. rewrite check_all_ok. intros Hall Hin. by apply (Hall _ Hin). Qed.

Ltac member := repeat (apply elem_of_app; first [left; solve [member_here]|right]); member_here
with member_here := first [apply list_elem_of_here|apply list_elem_of_further; member_here].

Lemma wrap64_safe total delta : (0 <= total <= maxSafeInteger)%Z → (0 <= delta < 2 ^ 63)%Z → safe_range (wrap64 (total + delta)) →
  wrap64 (total + delta) = (total + delta)%Z ∧ (total + delta <= maxSafeInteger)%Z.
Proof.
  unfold safe_range, maxSafeInteger, wrap64. intros Ht Hd Hs. destruct (Z.lt_ge_cases (total + delta) (2 ^ 63)) as [Hlt|Hge].
  - rewrite Z.mod_small in Hs |- * by lia. lia.
  - exfalso. revert Hs. rewrite <- (Z.mod_unique (total + delta + 2 ^ 63) (2 ^ 64) 1 (total + delta - 2 ^ 63)) by lia. lia.
Qed.
Lemma wrap64_small z : (0 <= z <= maxSafeInteger)%Z → wrap64 z = z.
Proof. unfold wrap64, maxSafeInteger. intros. rewrite Z.mod_small by lia. lia. Qed.

(** A text for concrete runs: every tree has its own. *)
Fixpoint plain_text (v : Json) : string :=
  match v with
  | JNull => "null"
  | JBool b => if b then "true" else "false"
  | JNumber literal => literal
  | JString s => one_byte 34 +:+ s +:+ one_byte 34
  | JArray l => "[" +:+ Join (plain_text <$> l) "," +:+ "]"
  | JObject ms => "{" +:+ Join ((λ m, one_byte 34 +:+ m.1 +:+ one_byte 34 +:+ ":" +:+ plain_text m.2) <$> ms) "," +:+ "}"
  end.

Fixpoint plain_json (v : GoValue) : string :=
  match v with
  | GNil => "null"
  | GBool b => if b then "true" else "false"
  | GString s => one_byte 34 +:+ s +:+ one_byte 34
  | GInt n => itoa n
  | GList l => "[" +:+ Join (plain_json <$> l) "," +:+ "]"
  | GStruct fields | GMap fields =>
      "{" +:+ Join ((λ field, one_byte 34 +:+ field.1 +:+ one_byte 34 +:+ ":" +:+ plain_json field.2) <$> fields) "," +:+ "}"
  | GRaw v => plain_text v
  end.

Definition plain_canonicalizer : Canonicalizer := {| canonical_json := plain_json |}.
