(* ===== verification/Topo.v ===== *)
(** Dependency graphs: the loop behind every topological order of the source
    ([topologicalOrder] of [orchestration/workgraph.go], [refuseCycles] of
    [planning/graph.go], [canonicalOrder] of [planning/compiler.go]) over any
    type whose values have an identity and name their dependencies. *)

From S2P Require Import Prelude.
From stdpp Require Import options.

(** What the loops ask of a unit or a stage. *)
Class Node (A : Type) := {
  node_id : A → string;
  node_deps : A → list string
}.

(* ------------------------------------------------------------------ *)
(** * The loop *)

Section nodes.
Context `{!Node A}.

(** The loop that fills [remaining] and [dependents]. *)
Definition count_node (state : gmap string Z * gmap string (list string)) (node : A)
  : gmap string Z * gmap string (list string) :=
  (<[(node_id node) := Z.of_nat (length (node_deps node))]> state.1,
   fold_left (λ dependents dependency,
     <[dependency := default [] (dependents !! dependency) ++ [(node_id node)]]> dependents)
     (node_deps node) state.2).

Definition count_nodes (nodes : list A) : gmap string Z * gmap string (list string) :=
  fold_left count_node nodes (∅, ∅).

End nodes.

(** One dependent of the node taken from the ready queue. *)
Definition release (state : list string * gmap string Z) (dependent : string) : list string * gmap string Z :=
  let '(ready, remaining) := state in
  let left := (default 0 (remaining !! dependent) - 1)%Z in
  (if (left =? 0)%Z then sort_strings (ready ++ [dependent]) else ready, <[dependent := left]> remaining).

(** [for len(ready) > 0]; the fuel bounds the model, see
    [kahn_total]. *)
Fixpoint drain (fuel : nat) (dependents : gmap string (list string)) (ready : list string)
  (remaining : gmap string Z) (order : list string) : option (list string * gmap string Z) :=
  match fuel with
  | O => None
  | S fuel =>
      match ready with
      | [] => Some (order, remaining)
      | id :: ready =>
          let '(ready, remaining) :=
            fold_left release (sort_strings (default [] (dependents !! id))) (ready, remaining) in
          drain fuel dependents ready remaining (order ++ [id])
      end
  end.

Section order.
Context `{!MapRange} `{!Node A}.

(** The nodes nothing is left to wait for, and those that still wait when
    the loop ends. *)
Definition initial_ready (nodes : list A) : list string :=
  sort_strings (filter (λ kv, kv.2 = 0%Z) (range (count_nodes nodes).1)).*1.

Definition unresolved (remaining : gmap string Z) : list string :=
  sort_strings (filter (λ kv, 0 < kv.2)%Z (range remaining)).*1.

(** The whole loop: the order of the nodes taken and what is left to wait
    for.  [None] is lack of fuel, which [kahn_total] excludes. *)
Definition kahn (nodes : list A) : option (list string * gmap string Z) :=
  drain (S (length nodes)) (count_nodes nodes).2 (initial_ready nodes) (count_nodes nodes).1 [].

(* ------------------------------------------------------------------ *)
(** * Counting occurrences *)

Definition occ (k : string) (l : list string) : Z := Z.of_nat (length (filter (λ x, x = k) l)).

Lemma occ_nil k : occ k [] = 0%Z.
Proof. done. Qed.

Lemma occ_cons k x l : occ k (x :: l) = ((if decide (x = k) then 1 else 0) + occ k l)%Z.
Proof. unfold occ. rewrite filter_cons. case_decide; simpl; lia. Qed.

Lemma occ_app k l1 l2 : occ k (l1 ++ l2) = (occ k l1 + occ k l2)%Z.
Proof. unfold occ. rewrite filter_app, length_app. lia. Qed.

Lemma occ_nonneg k l : (0 <= occ k l)%Z.
Proof. unfold occ. lia. Qed.

Lemma occ_perm k l1 l2 : l1 ≡ₚ l2 → occ k l1 = occ k l2.
Proof. intros Hp. unfold occ. by rewrite Hp. Qed.

Definition node_ids (nodes : list A) : list string := node_id <$> nodes.

Lemma node_ids_inj nodes u v :
  NoDup (node_ids nodes) → u ∈ nodes → v ∈ nodes → node_id u = node_id v → u = v.
Proof. apply NoDup_fmap_inj. Qed.

(** What the counting loop computes. *)
Section counting.
Lemma count_nodes_dom nodes k :
  is_Some ((count_nodes nodes).1 !! k) ↔ k ∈ node_ids nodes.
Proof.
  unfold count_nodes.
  assert (∀ state, is_Some ((fold_left count_node nodes state).1 !! k) ↔ k ∈ node_ids nodes ∨ is_Some (state.1 !! k)) as Hg.
  { induction nodes as [|u l IH]; intros state; simpl; [rewrite elem_of_nil; tauto|].
    rewrite IH. simpl. rewrite elem_of_cons, lookup_insert_is_Some.
    destruct (decide (node_id u = k)); naive_solver. }
  rewrite Hg. simpl. rewrite lookup_empty. split; [|by left]. intros [?|[? [=]]]; done.
Qed.

Lemma count_nodes_nonneg nodes k r : (count_nodes nodes).1 !! k = Some r → (0 <= r)%Z.
Proof.
  unfold count_nodes.
  assert (∀ state, (∀ r, state.1 !! k = Some r → 0 <= r)%Z →
    ∀ r, (fold_left count_node nodes state).1 !! k = Some r → (0 <= r)%Z) as Hg.
  { induction nodes as [|u l IH]; intros state Hs; simpl; [done|]. apply IH. simpl. intros r'.
    rewrite lookup_insert_Some. intros [[_ <-]|[_ ?]]; [lia|eauto]. }
  apply Hg. simpl. intros r'. by rewrite lookup_empty.
Qed.

Lemma count_nodes_lookup nodes u :
  NoDup (node_ids nodes) → u ∈ nodes →
  (count_nodes nodes).1 !! (node_id u) = Some (Z.of_nat (length (node_deps u))).
Proof.
  unfold count_nodes. intros Hnd Hu.
  assert (∀ nodes state, NoDup (node_ids nodes) → (u ∈ nodes ∨ ((node_id u) ∉ node_ids nodes
      ∧ state.1 !! (node_id u) = Some (Z.of_nat (length (node_deps u))))) →
    (fold_left count_node nodes state).1 !! (node_id u) = Some (Z.of_nat (length (node_deps u)))) as Hg.
  { clear. induction nodes as [|v l IH]; intros state Hnd Hu; simpl.
    { destruct Hu as [?%not_elem_of_nil|[_ ?]]; done. }
    apply NoDup_cons in Hnd as [Hv Hnd]. apply IH; [done|]. simpl in Hu. rewrite not_elem_of_cons in Hu. simpl.
    destruct Hu as [[->|?]%elem_of_cons|[[Hne ?] Hs]]; [right|by left|right].
    - split; [done|]. apply lookup_insert_eq.
    - split; [done|]. by rewrite lookup_insert_ne. }
  apply Hg; auto.
Qed.

Lemma add_dependents_occ id deps (m : gmap string (list string)) k d :
  occ k (default [] (fold_left (λ dependents dependency,
    <[dependency := default [] (dependents !! dependency) ++ [id]]> dependents) deps m !! d))
  = (occ k (default [] (m !! d)) + (if decide (id = k) then occ d deps else 0))%Z.
Proof.
  revert m; induction deps as [|x deps IH]; intros m; cbn [fold_left].
  { rewrite occ_nil. destruct (decide (id = k)); lia. }
  rewrite IH, occ_cons. destruct (decide (x = d)) as [->|Hne].
  - rewrite lookup_insert_eq. simpl. rewrite occ_app, occ_cons, occ_nil.
    destruct (decide (id = k)); lia.
  - rewrite lookup_insert_ne by done. destruct (decide (id = k)); lia.
Qed.

(** A node occurs among the dependents of [d] as often as it lists [d]. *)
Lemma count_nodes_dependents nodes u d :
  NoDup (node_ids nodes) → u ∈ nodes →
  occ (node_id u) (default [] ((count_nodes nodes).2 !! d)) = occ d (node_deps u).
Proof.
  unfold count_nodes. intros Hnd Hu.
  assert (∀ nodes state, NoDup (node_ids nodes) →
    occ (node_id u) (default [] ((fold_left count_node nodes state).2 !! d))
    = (occ (node_id u) (default [] (state.2 !! d))
       + (if decide ((node_id u) ∈ node_ids nodes) then
            match list_find (λ v, (node_id v) = (node_id u)) nodes with
            | Some (_, v) => occ d (node_deps v) | None => 0 end else 0))%Z) as Hg.
  { clear. induction nodes as [|v l IH]; intros state Hnd; cbn [fold_left].
    { rewrite decide_False by (apply not_elem_of_nil). lia. }
    apply NoDup_cons in Hnd as [Hv Hnd]. rewrite IH by done. simpl. rewrite add_dependents_occ.
    destruct (decide (node_id v = node_id u)) as [Heq|Hne].
    - rewrite (decide_False (P := node_id u ∈ node_ids l)) by (rewrite <- Heq; done).
      rewrite decide_True by (rewrite Heq; constructor). lia.
    - destruct (decide (node_id u ∈ node_ids l)) as [Hin|Hni].
      + rewrite decide_True by (by constructor).
        destruct (list_find _ l) as [[i w]|] eqn:Hf; simpl; lia.
      + rewrite decide_False; [lia|]. rewrite elem_of_cons. intros [?|?]; congruence. }
  rewrite Hg by done. simpl. rewrite lookup_empty. simpl. rewrite occ_nil.
  rewrite decide_True by (by apply list_elem_of_fmap_2).
  destruct (list_find _ nodes) as [[i v]|] eqn:Hf.
  - apply list_find_Some in Hf as (Hl & Hid & _). apply list_elem_of_lookup_2 in Hl.
    by rewrite (node_ids_inj nodes v u).
  - apply list_find_None in Hf. rewrite Forall_forall in Hf. by destruct (Hf u Hu).
Qed.

Lemma count_nodes_dependents_ids nodes d k :
  k ∈ default [] ((count_nodes nodes).2 !! d) → k ∈ node_ids nodes.
Proof.
  unfold count_nodes.
  assert (∀ state, k ∈ default [] ((fold_left count_node nodes state).2 !! d) →
    k ∈ node_ids nodes ∨ k ∈ default [] (state.2 !! d)) as Hg.
  { induction nodes as [|u l IH]; intros state; cbn [fold_left]; [by right|].
    intros [?|Hk]%IH; [left; by constructor|]. simpl in Hk.
    assert (∀ deps (m : gmap string (list string)), k ∈ default [] (fold_left (λ dependents dependency,
      <[dependency := default [] (dependents !! dependency) ++ [node_id u]]> dependents) deps m !! d) →
      k = node_id u ∨ k ∈ default [] (m !! d)) as Hd.
    { clear. induction deps as [|x deps IH]; intros m; cbn [fold_left]; [by right|].
      intros [?|Hk]%IH; [by left|]. destruct (decide (x = d)) as [->|Hne].
      - rewrite lookup_insert_eq in Hk. simpl in Hk. rewrite elem_of_app, list_elem_of_singleton in Hk. tauto.
      - rewrite lookup_insert_ne in Hk by done. by right. }
    apply Hd in Hk as [->|Hk]; [left; constructor|by right]. }
  intros [?|Hk]%Hg; [done|]. simpl in Hk. rewrite lookup_empty in Hk. by apply not_elem_of_nil in Hk.
Qed.
End counting.

(** * The drain loop *)

Section drain.
Variable nodes : list A.
Let dependents := (count_nodes nodes).2.

(** The nodes taken or queued are, without repetition, those nothing is
    left to wait for. *)
Record queue_inv (order ready : list string) (remaining : gmap string Z) : Prop := {
  queue_NoDup : NoDup (order ++ ready);
  queue_iff : ∀ k, k ∈ order ++ ready ↔ ∃ r, remaining !! k = Some r ∧ (r <= 0)%Z;
  queue_dom : ∀ k, is_Some (remaining !! k) ↔ k ∈ node_ids nodes
}.

Lemma release_inv order ready remaining d :
  d ∈ node_ids nodes → queue_inv order ready remaining →
  queue_inv order (release (ready, remaining) d).1 (release (ready, remaining) d).2.
Proof.
  intros Hd [Hnd Hiff Hdom]. destruct (proj2 (Hdom d) Hd) as [r Hr]. unfold release. rewrite Hr. simpl.
  assert (∀ k, is_Some (<[d := (r - 1)%Z]> remaining !! k) ↔ k ∈ node_ids nodes) as Hdom'.
  { intros k. rewrite lookup_insert_is_Some, <- Hdom. destruct (decide (d = k)) as [->|]; naive_solver. }
  destruct (r - 1 =? 0)%Z eqn:Hz.
  - apply Z.eqb_eq in Hz.
    assert (d ∉ order ++ ready) as Hni by (rewrite Hiff; intros (x & Hx & ?); rewrite Hr in Hx; simplify_eq; lia).
    split; [| |done].
    + rewrite sort_strings_perm, app_assoc, NoDup_app. split_and!; [done| |apply NoDup_singleton].
      intros x Hx ->%list_elem_of_singleton. done.
    + intros k. rewrite sort_strings_perm, app_assoc, elem_of_app, Hiff, list_elem_of_singleton, lookup_insert.
      case_decide as He; subst; [naive_solver lia|]. naive_solver.
  - apply Z.eqb_neq in Hz. split; [done| |done]. intros k. rewrite Hiff, lookup_insert.
    case_decide as He; subst; [|naive_solver]. rewrite Hr. naive_solver lia.
Qed.

Lemma releases_inv order ready remaining ds :
  (∀ d, d ∈ ds → d ∈ node_ids nodes) → queue_inv order ready remaining →
  queue_inv order (fold_left release ds (ready, remaining)).1 (fold_left release ds (ready, remaining)).2.
Proof.
  revert ready remaining; induction ds as [|d ds IH]; intros ready remaining Hds Hq; cbn [fold_left]; [done|].
  assert (d ∈ node_ids nodes) as Hd by (apply Hds; constructor).
  pose proof (release_inv _ _ _ _ Hd Hq) as Hq'.
  destruct (release (ready, remaining) d) as [ready' remaining'] eqn:Hr. simpl in Hq'.
  apply IH; [|done]. intros x Hx. apply Hds. by constructor.
Qed.

(** Rule induction for the loop, with the proof that it ends. *)
Lemma drain_ind (P : list string → list string → gmap string Z → Prop) fuel order ready remaining :
  (∀ order id ready remaining, P order (id :: ready) remaining → queue_inv order (id :: ready) remaining →
     let s := fold_left release (sort_strings (default [] (dependents !! id))) (ready, remaining) in
     P (order ++ [id]) s.1 s.2) →
  P order ready remaining → queue_inv order ready remaining → (length nodes < fuel + length order)%nat →
  ∃ order' remaining', drain fuel dependents ready remaining order = Some (order', remaining')
    ∧ queue_inv order' [] remaining' ∧ P order' [] remaining'.
Proof.
  intros Hstep. revert order ready remaining. induction fuel as [|fuel IH]; intros order ready remaining HP Hq Hf.
  - exfalso. destruct Hq as [Hnd Hiff Hdom]. apply NoDup_app in Hnd as (Hnd & _ & _).
    assert (length order <= length (node_ids nodes))%nat as Hl.
    { apply submseteq_length, NoDup_submseteq; [done|]. intros k Hk. apply Hdom.
      destruct (proj1 (Hiff k)) as (r & Hr & _); [rewrite elem_of_app; by left|]. eauto. }
    unfold node_ids in Hl. rewrite length_fmap in Hl. simpl in Hf. lia.
  - simpl. destruct ready as [|id ready]; [by eauto|].
    assert (queue_inv (order ++ [id]) ready remaining) as Hq'.
    { destruct Hq as [Hnd Hiff Hdom]. split; [|intros k|done]; rewrite <- app_assoc; [done|apply Hiff]. }
    apply (releases_inv _ _ _ (sort_strings (default [] (dependents !! id)))) in Hq'.
    2:{ intros d. rewrite elem_of_sort_strings. apply count_nodes_dependents_ids. }
    pose proof (Hstep _ _ _ _ HP Hq) as HP'. simpl in HP'.
    destruct (fold_left release _ _) as [ready' remaining']. simpl in *.
    apply IH; [done|done|]. rewrite length_app. simpl. lia.
Qed.

(* ---------------------------------------------------------------- *)
(** ** With distinct identities *)

Hypothesis Hnodup : NoDup (node_ids nodes).
Set Default Proof Using "All".

Definition waiting (order : list string) (u : A) : list string :=
  filter (λ d, d ∉ order) (node_deps u).

(** What is left to wait for is the dependencies not taken yet, plus the
    releases still to be made by the node just taken. *)
Definition counts (order pending : list string) (remaining : gmap string Z) : Prop :=
  ∀ u, u ∈ nodes →
    remaining !! (node_id u) = Some (Z.of_nat (length (waiting order u)) + occ (node_id u) pending)%Z.

(** Every node taken comes after its dependencies. *)
Definition ordered (order : list string) : Prop :=
  ∀ l1 l2 u, u ∈ nodes → order = l1 ++ (node_id u) :: l2 → ∀ d, d ∈ (node_deps u) → d ∈ l1.

Lemma release_counts order d pending ready remaining :
  d ∈ node_ids nodes → counts order (d :: pending) remaining → counts order pending (release (ready, remaining) d).2.
Proof.
  intros (v & -> & Hv)%list_elem_of_fmap Hc u Hu. unfold release. rewrite (Hc v Hv). simpl. rewrite lookup_insert.
  case_decide as He.
  - rewrite (node_ids_inj nodes v u) by done. rewrite occ_cons, decide_True by done. f_equal. lia.
  - rewrite (Hc u Hu), occ_cons, decide_False by done. done.
Qed.

Lemma releases_counts order ds ready remaining :
  (∀ d, d ∈ ds → d ∈ node_ids nodes) → counts order ds remaining →
  counts order [] (fold_left release ds (ready, remaining)).2.
Proof.
  revert ready remaining; induction ds as [|d ds IH]; intros ready remaining Hds Hc; cbn [fold_left]; [done|].
  pose proof (release_counts order d ds ready remaining ltac:(apply Hds; constructor) Hc) as Hc'.
  destruct (release (ready, remaining) d) as [ready' remaining']. simpl in Hc'.
  apply IH; [|done]. intros x Hx. apply Hds. by constructor.
Qed.

Lemma waiting_snoc order x u :
  x ∉ order → Z.of_nat (length (waiting order u))
    = (Z.of_nat (length (waiting (order ++ [x]) u)) + occ x (node_deps u))%Z.
Proof.
  intros Hx. unfold waiting, occ. induction (node_deps u) as [|d l IH]; [done|].
  rewrite !filter_cons. destruct (decide (d = x)) as [->|Hne].
  - rewrite (decide_True (P := x ∉ order)) by done. rewrite (decide_False (P := x ∉ order ++ [x])) by set_solver.
    simpl. lia.
  - destruct (decide (d ∈ order)) as [Hin|Hni].
    + rewrite (decide_False (P := d ∉ order)) by tauto. rewrite (decide_False (P := d ∉ order ++ [x])) by set_solver. lia.
    + rewrite (decide_True (P := d ∉ order)) by done. rewrite (decide_True (P := d ∉ order ++ [x])) by set_solver.
      simpl. lia.
Qed.

Lemma take_counts order id ready remaining :
  queue_inv order (id :: ready) remaining → counts order [] remaining →
  counts (order ++ [id]) (sort_strings (default [] (dependents !! id))) remaining.
Proof.
  intros [Hnd _ _] Hc u Hu. rewrite (Hc u Hu). f_equal. rewrite (waiting_snoc order id).
  - rewrite occ_nil. rewrite (occ_perm _ _ _ (sort_strings_perm _)).
    unfold dependents. rewrite count_nodes_dependents by done. lia.
  - intros Hin. apply NoDup_app in Hnd as (_ & Hdis & _). eapply Hdis; [done|constructor].
Qed.

Lemma take_ordered order id ready remaining :
  queue_inv order (id :: ready) remaining → counts order [] remaining → ordered order → ordered (order ++ [id]).
Proof.
  intros [Hnd Hiff _] Hc Ho l1 l2 u Hu He d Hd.
  destruct l2 as [|y l2] using rev_ind.
  - apply app_inj_tail in He as [-> ->].
    destruct (proj1 (Hiff (node_id u))) as (r & Hr & Hle); [set_solver|].
    rewrite (Hc u Hu) in Hr. injection Hr as <-. rewrite occ_nil in Hle.
    destruct (decide (d ∈ l1)) as [|Hni]; [done|]. exfalso.
    assert (d ∈ waiting l1 u) as Hw by (unfold waiting; rewrite list_elem_of_filter; done).
    destruct (waiting l1 u); [by apply not_elem_of_nil in Hw|simpl in Hle; lia].
  - clear IHl2. rewrite app_comm_cons, app_assoc in He. apply app_inj_tail in He as [-> _]. by eapply Ho.
Qed.

Lemma drained fuel ready remaining :
  queue_inv [] ready remaining → counts [] [] remaining → (length nodes < fuel)%nat →
  ∃ order remaining', drain fuel dependents ready remaining [] = Some (order, remaining')
    ∧ queue_inv order [] remaining' ∧ counts order [] remaining' ∧ ordered order.
Proof.
  intros Hq Hc Hf.
  apply (drain_ind (λ order _ remaining, counts order [] remaining ∧ ordered order)); [|split; [done|]|done|simpl; lia].
  - intros order id ready' remaining' [Hc1 Ho1] Hq1. simpl. split.
    + eapply releases_counts; [|by eapply take_counts].
      intros d. rewrite elem_of_sort_strings. apply count_nodes_dependents_ids.
    + by eapply take_ordered.
  - intros l1 l2 u _ Hx. by destruct l1.
Qed.
End drain.

(* ------------------------------------------------------------------ *)
(** * The topological order *)

(** Every dependency names a node, and the dependencies can be ranked. *)
Definition ranked (nodes : list A) : Prop :=
  ∃ rank : string → nat, ∀ u d, u ∈ nodes → d ∈ node_deps u →
    d ∈ node_ids nodes ∧ (rank d < rank (node_id u))%nat.

Lemma elem_of_initial_ready nodes k : k ∈ initial_ready nodes ↔ (count_nodes nodes).1 !! k = Some 0%Z.
Proof.
  unfold initial_ready. rewrite elem_of_sort_strings, list_elem_of_fmap. setoid_rewrite list_elem_of_filter. split.
  - intros ([k' r] & -> & Hr & Hin%elem_of_range). simpl in *. by subst.
  - intros Hk. exists (k, 0%Z). by rewrite elem_of_range.
Qed.

Lemma initial_inv nodes : queue_inv nodes [] (initial_ready nodes) (count_nodes nodes).1.
Proof.
  split; simpl.
  - unfold initial_ready. rewrite sort_strings_perm.
    refine (sublist_NoDup _ _ _ (fmap_sublist fst _ _ (sublist_filter _ _))).
    apply (range_keys_NoDup (count_nodes nodes).1).
  - intros k. rewrite elem_of_initial_ready. split; [intros Hk; by exists 0%Z|].
    intros (r & Hr & Hle). pose proof (count_nodes_nonneg _ _ _ Hr). rewrite Hr. f_equal. lia.
  - apply count_nodes_dom.
Qed.

Lemma waiting_nil u : waiting [] u = node_deps u.
Proof. apply list_filter_all. intros d _. apply not_elem_of_nil. Qed.

Lemma initial_counts nodes : NoDup (node_ids nodes) → counts nodes [] [] (count_nodes nodes).1.
Proof.
  intros Hnd u Hu. rewrite count_nodes_lookup by done. by rewrite waiting_nil, occ_nil, Z.add_0_r.
Qed.

Lemma kahn_total nodes : ∃ order remaining, kahn nodes = Some (order, remaining) ∧ queue_inv nodes order [] remaining.
Proof.
  destruct (drain_ind nodes (λ _ _ _, True) (S (length nodes)) [] (initial_ready nodes) (count_nodes nodes).1)
    as (order & remaining & Hk & Hq & _); [done|done|apply initial_inv|simpl; lia|]. eauto.
Qed.

(** An order of full length lists every node once; repeated identities make
    it shorter. *)
Lemma kahn_perm nodes order remaining :
  kahn nodes = Some (order, remaining) → length order = length nodes →
  NoDup (node_ids nodes) ∧ order ≡ₚ node_ids nodes.
Proof.
  intros Hk Hl. destruct (kahn_total nodes) as (o & r & Hk' & [Hnd Hiff Hdom]).
  rewrite Hk in Hk'. injection Hk' as <- <-. rewrite app_nil_r in Hnd.
  assert (order ⊆+ node_ids nodes) as Hsub.
  { apply NoDup_submseteq; [done|]. intros k Hk2. apply Hdom.
    destruct (proj1 (Hiff k)) as (r & Hr & _); [by rewrite app_nil_r|]. eauto. }
  assert (order ≡ₚ node_ids nodes) as Hp
    by (apply submseteq_length_Permutation; [done|unfold node_ids; rewrite length_fmap; lia]).
  split; [by rewrite <- Hp|done].
Qed.

(** With distinct identities: every node taken comes after its
    dependencies, and those left still wait for one that is not taken. *)
Lemma kahn_ordered nodes order remaining :
  NoDup (node_ids nodes) → kahn nodes = Some (order, remaining) →
  ordered nodes order ∧ NoDup order
  ∧ (∀ k, k ∈ order → k ∈ node_ids nodes)
  ∧ ∀ u, u ∈ nodes → (node_id u ∈ order ↔ waiting order u = [])
      ∧ remaining !! node_id u = Some (Z.of_nat (length (waiting order u))).
Proof.
  intros Hnd Hk.
  destruct (drained nodes Hnd (S (length nodes)) (initial_ready nodes) (count_nodes nodes).1)
    as (o & r & Hk' & [Hndo Hiff Hdom] & Hc & Ho); [apply initial_inv|by apply initial_counts|lia|].
  unfold kahn in Hk. rewrite Hk in Hk'. injection Hk' as <- <-. rewrite app_nil_r in Hndo.
  assert (∀ k, k ∈ order ↔ ∃ r, remaining !! k = Some r ∧ (r <= 0)%Z) as Hin by (intros k; by rewrite <- Hiff, app_nil_r).
  split_and!; [done|done|intros k (r & Hr & _)%Hin; apply Hdom; eauto|]. intros u Hu.
  pose proof (Hc u Hu) as Hr. rewrite occ_nil, Z.add_0_r in Hr. split; [|done]. rewrite Hin, Hr. split.
  - intros (r & [= <-] & Hle). destruct (waiting order u); [done|simpl in Hle; lia].
  - intros ->. by exists 0%Z.
Qed.

(** The position of a node in the order ranks it. *)
Lemma ordered_ranked nodes order :
  NoDup (node_ids nodes) → order ≡ₚ node_ids nodes → ordered nodes order → ranked nodes.
Proof.
  intros Hnd Hp Ho.
  exists (λ k, default 0%nat (fst <$> list_find (λ x, x = k) order)). intros u d Hu Hd.
  assert (node_id u ∈ order) as (l1 & l2 & Hsplit)%list_elem_of_split by (rewrite Hp; by apply list_elem_of_fmap_2).
  pose proof (Ho l1 l2 u Hu Hsplit d Hd) as Hin.
  assert (d ∈ order) as Hdo by (rewrite Hsplit; set_solver).
  split; [by rewrite <- Hp|].
  assert (NoDup order) as Hndo by (by rewrite Hp).
  assert (∀ x i, order !! i = Some x → list_find (λ y, y = x) order = Some (i, x)) as Hfind.
  { intros x i Hi. apply list_find_Some. split_and!; [done|done|]. intros j y Hj Hlt ->.
    assert (j = i) by (eapply NoDup_lookup; done). lia. }
  apply list_elem_of_lookup in Hin as [i Hi].
  assert (order !! i = Some d) as Hi' by (rewrite Hsplit; by apply lookup_app_l_Some).
  assert (order !! length l1 = Some (node_id u)) as Hu' by (rewrite Hsplit; by apply list_lookup_middle).
  rewrite (Hfind _ _ Hi'), (Hfind _ _ Hu'). simpl. by apply lookup_lt_Some in Hi.
Qed.

(** Ranked dependencies leave nothing unresolved. *)
Lemma kahn_complete nodes order remaining :
  NoDup (node_ids nodes) → ranked nodes → kahn nodes = Some (order, remaining) → order ≡ₚ node_ids nodes.
Proof.
  intros Hnd [rank Hrank] Hk. destruct (kahn_ordered _ _ _ Hnd Hk) as (_ & Hndo & Hdom & Hw).
  assert (∀ n k, (rank k < n)%nat → k ∈ node_ids nodes → k ∈ order) as Hall.
  { induction n as [|n IH]; [lia|]. intros k Hk' (u & -> & Hu)%list_elem_of_fmap. apply Hw; [done|].
    apply list_filter_none. intros d Hd. apply (Hrank u d Hu) in Hd as [Hd1 Hd2].
    intros Hni. apply Hni, IH; [lia|done]. }
  apply NoDup_Permutation; [done|done|]. intros k. split; [apply Hdom|]. intros Hk'. by apply (Hall (S (rank k))); [lia|].
Qed.

(** The loop takes every node exactly when the dependencies can be ranked. *)
Lemma kahn_full nodes order remaining :
  kahn nodes = Some (order, remaining) →
  length order = length nodes ↔ NoDup (node_ids nodes) ∧ ranked nodes.
Proof.
  intros Hk. split.
  - intros Hl. destruct (kahn_perm _ _ _ Hk Hl) as [Hnd Hp]. split; [done|].
    eapply ordered_ranked; [done|done|]. by apply (kahn_ordered _ _ _ Hnd Hk).
  - intros [Hnd Hr]. rewrite (kahn_complete _ _ _ Hnd Hr Hk). unfold node_ids. apply length_fmap.
Qed.
End order.

(** Nor does the order depend on how the nodes are listed. *)
Lemma drain_proper fuel d1 d2 ready remaining order :
  (∀ id, default [] (d1 !! id) ≡ₚ default [] (d2 !! id)) →
  drain fuel d1 ready remaining order = drain fuel d2 ready remaining order.
Proof.
  intros Hd. revert ready remaining order; induction fuel as [|fuel IH]; intros ready remaining order; simpl; [done|].
  destruct ready as [|id ready]; [done|]. rewrite (sort_strings_proper _ _ (Hd id)). case_match; apply IH.
Qed.

Lemma occ_ext l1 l2 : (∀ k, occ k l1 = occ k l2) → l1 ≡ₚ l2.
Proof.
  revert l2; induction l1 as [|x l1 IH]; intros l2 Ho.
  - destruct l2 as [|y l2]; [done|]. specialize (Ho y). rewrite occ_cons, decide_True, occ_nil in Ho by done.
    pose proof (occ_nonneg y l2). lia.
  - assert (x ∈ l2) as (a & b & ->)%list_elem_of_split.
    { specialize (Ho x). rewrite occ_cons, decide_True in Ho by done. pose proof (occ_nonneg x l1). unfold occ in Ho at 2.
      destruct (filter _ l2) as [|y l] eqn:Hf; [simpl in Ho; lia|].
      assert (y ∈ filter (λ y, y = x) l2) as [<- Hy]%list_elem_of_filter by (rewrite Hf; by left). done. }
    rewrite <- Permutation_middle. f_equiv. apply IH. intros k. specialize (Ho k).
    rewrite occ_app, !occ_cons in Ho. rewrite occ_app. lia.
Qed.

Lemma kahn_permute `{!MapRange} `{!Node A} (nodes nodes' : list A) :
  NoDup (node_ids nodes) → nodes ≡ₚ nodes' → kahn nodes = kahn nodes'.
Proof.
  intros Hnd Hp. assert (node_ids nodes ≡ₚ node_ids nodes') as Hi by (unfold node_ids; by rewrite Hp).
  assert (NoDup (node_ids nodes')) as Hnd' by (by rewrite <- Hi).
  assert ((count_nodes nodes).1 = (count_nodes nodes').1) as Hc.
  { apply map_eq. intros k. destruct (decide (k ∈ node_ids nodes)) as [(u & -> & Hu)%list_elem_of_fmap|Hk].
    - rewrite count_nodes_lookup by done. rewrite Hp in Hu. by rewrite count_nodes_lookup.
    - assert (∀ l, k ∉ node_ids l → (count_nodes l).1 !! k = None) as Hn.
      { intros l Hl. apply eq_None_not_Some. by rewrite count_nodes_dom. }
      rewrite !Hn; [done|by rewrite <- Hi|done]. }
  unfold kahn, initial_ready. rewrite Hc, (Permutation_length Hp). apply drain_proper. intros id. apply occ_ext. intros k.
  destruct (decide (k ∈ node_ids nodes)) as [(u & -> & Hu)%list_elem_of_fmap|Hk].
  - rewrite count_nodes_dependents by done. rewrite Hp in Hu. by rewrite count_nodes_dependents.
  - assert (∀ l, k ∉ node_ids l → occ k (default [] ((count_nodes l).2 !! id)) = 0%Z) as Hn.
    { intros l Hl. unfold occ. rewrite (list_filter_none (λ x, x = k)); [done|].
      intros x Hx ->. by apply Hl, (count_nodes_dependents_ids _ id). }
    rewrite !Hn; [done|by rewrite <- Hi|done].
Qed.

(** Neither depends on the order in which the map is iterated. *)
Lemma kahn_range (R1 R2 : MapRange) `{!Node A} (nodes : list A) : @kahn R1 _ _ nodes = @kahn R2 _ _ nodes.
Proof.
  unfold kahn, initial_ready. f_equal. apply sort_strings_proper. by rewrite (@range_perm R1), (@range_perm R2).
Qed.

Lemma unresolved_range (R1 R2 : MapRange) remaining : @unresolved R1 remaining = @unresolved R2 remaining.
Proof. apply sort_strings_proper. by rewrite (@range_perm R1), (@range_perm R2). Qed.
