(* ===== verification/Reach.v ===== *)
(** Reachability over dependency edges: the two walks of [planning], the
    queue of [dependsOnTransitively] ([planning/graph.go]) and of [reaches]
    ([planning/compiler.go]), and the recursion of [dependsOnStage].  Both
    carry a set of visited identities and both decide the transitive closure
    of the edges, on cyclic graphs as well. *)

From S2P Require Import Prelude Topo.
From stdpp Require Import relations options.

Section reach.
Variable deps : gmap string (list string).

(** [byID[id].DependsOn]: nothing for an identity the map does not hold. *)
Definition deps_of (id : string) : list string := default [] (deps !! id).

Definition edge (a b : string) : Prop := b ∈ deps_of a.

Definition edges : nat := sum_list (length <$> (map_to_list deps).*2).

(* ------------------------------------------------------------------ *)
(** * The queue *)

(** [for len(frontier) > 0]. *)
Fixpoint walk (fuel : nat) (to : string) (visited : gset string) (frontier : list string) : option bool :=
  match fuel with
  | O => None
  | S fuel =>
      match frontier with
      | [] => Some false
      | next :: frontier =>
          if next ≟ to then Some true
          else if bool_decide (next ∈ visited) then walk fuel to visited frontier
          else walk fuel to ({[next]} ∪ visited) (frontier ++ deps_of next)
      end
  end.

(** One step for every edge and one to find the queue empty; [reaches_spec]
    shows it is enough. *)
Definition reaches (from to : string) : bool :=
  default false (walk (S (edges)) to {[from]} (deps_of from)).

(** The edges of the identities not visited yet. *)
Definition weight (visited : gset string) (kv : string * list string) : nat :=
  if bool_decide (kv.1 ∈ visited) then 0 else length kv.2.

Definition unwalked (visited : gset string) : nat := sum_list (weight visited <$> map_to_list deps).

Lemma weight_visit visited id kv : (weight ({[id]} ∪ visited) kv <= weight visited kv)%nat.
Proof. unfold weight. do 2 case_bool_decide; [lia|lia| |lia]. set_solver. Qed.

Lemma weights_visit visited id m :
  (sum_list (weight ({[id]} ∪ visited) <$> m) <= sum_list (weight visited <$> m))%nat.
Proof.
  induction m as [|kv m IH]; [done|].
  pose proof (weight_visit visited id kv). csimpl. lia.
Qed.

Lemma unwalked_visit visited id :
  id ∉ visited → (unwalked ({[id]} ∪ visited) + length (deps_of id) <= unwalked visited)%nat.
Proof.
  intros Hv. unfold unwalked, deps_of.
  destruct (deps !! id) as [l|] eqn:Hl; simpl.
  - apply elem_of_map_to_list, list_elem_of_split in Hl as (m1 & m2 & ->).
    rewrite !fmap_app, !fmap_cons, !sum_list_with_app. csimpl.
    assert (weight ({[id]} ∪ visited) (id, l) = 0%nat) as -> by (unfold weight; rewrite bool_decide_true; [done|set_solver]).
    assert (weight visited (id, l) = length l) as -> by (unfold weight; by rewrite bool_decide_false).
    pose proof (weights_visit visited id m1). pose proof (weights_visit visited id m2). lia.
  - pose proof (weights_visit visited id (map_to_list deps)). lia.
Qed.

Lemma unwalked_edges visited : (unwalked visited <= edges)%nat.
Proof.
  unfold unwalked, edges. induction (map_to_list deps) as [|kv m IH]; [done|].
  assert (weight visited kv <= length kv.2)%nat by (unfold weight; case_bool_decide; lia). csimpl. lia.
Qed.

(** The visited identities are closed under the edges up to what is still in
    the queue, and the target is none of the identities taken from it. *)
Record walking (from to : string) (visited : gset string) (frontier : list string) : Prop := {
  walking_from : from ∈ visited;
  walking_reached : ∀ a, a ∈ frontier ∨ (a ∈ visited ∧ a ≠ from) → tc edge from a;
  walking_closed : ∀ a b, a ∈ visited → edge a b → b ∈ frontier ∨ (b ∈ visited ∧ b ≠ to)
}.

Lemma walk_spec from to fuel visited frontier :
  walking from to visited frontier → (length frontier + unwalked visited < fuel)%nat →
  ∃ b, walk fuel to visited frontier = Some b ∧ (b = true ↔ tc edge from to).
Proof.
  revert visited frontier. induction fuel as [|fuel IH]; intros visited frontier Hw Hf; [lia|].
  simpl. destruct frontier as [|next frontier].
  - exists false. split; [done|]. split; [done|]. intros Ht. exfalso. destruct Hw as [Hfrom _ Hc].
    assert (∀ a b, tc edge a b → a ∈ visited → b ∈ visited ∧ b ≠ to) as Hcl.
    { intros a b Hab. induction Hab as [a b He|a b c He _ IHt]; intros Ha;
        destruct (Hc _ _ Ha He) as [?%not_elem_of_nil|[? ?]]; auto; done. }
    by destruct (Hcl from to Ht Hfrom).
  - simpl in Hf. destruct Hw as [Hfrom Hr Hc]. case_bool_decide as Hto.
    { subst. exists true. split; [done|]. split; [intros _|done]. apply Hr. left. by left. }
    case_bool_decide as Hv; apply IH.
    + split; [done| |].
      * intros a [?|?]; apply Hr; [left; by right|by right].
      * intros a b Ha He. destruct (Hc a b Ha He) as [[->|?]%elem_of_cons|?]; auto.
    + lia.
    + assert (tc edge from next) as Hn by (apply Hr; left; by left).
      split; [set_solver| |].
      * intros a [[?|He]%elem_of_app|[[->%elem_of_singleton|?]%elem_of_union ?]].
        -- apply Hr. left. by right.
        -- eapply tc_r; [exact Hn|exact He].
        -- done.
        -- apply Hr. by right.
      * intros a b [->%elem_of_singleton|Ha]%elem_of_union He; [left; apply elem_of_app; by right|].
        destruct (Hc a b Ha He) as [[->|?]%elem_of_cons|[? ?]]; [right; set_solver|left; set_solver|right; set_solver].
    + rewrite length_app. pose proof (unwalked_visit visited next Hv). lia.
Qed.

(** The walk always ends, and finds exactly what the edges reach. *)
Lemma reaches_spec from to : reaches from to = true ↔ tc edge from to.
Proof.
  unfold reaches. destruct (walk_spec from to (S edges) {[from]} (deps_of from)) as (b & -> & Hb); [| |done].
  - split; [set_solver| |].
    + intros a [?|[?%elem_of_singleton ?]]; [by apply tc_once|done].
    + intros a b ->%elem_of_singleton ?. by left.
  - pose proof (unwalked_visit ∅ from ltac:(set_solver)). rewrite union_empty_r_L in H.
    pose proof (unwalked_edges ∅). lia.
Qed.

(* ------------------------------------------------------------------ *)
(** * The recursion *)

(** The loop over the dependencies of one identity; the visited set is
    shared by the calls. *)
Fixpoint any_reaches (visit : gset string → string → option (bool * gset string)) (ancestor : string)
  (dependencies : list string) (seen : gset string) : option (bool * gset string) :=
  match dependencies with
  | [] => Some (false, seen)
  | dependency :: dependencies =>
      if dependency ≟ ancestor then Some (true, seen)
      else match visit seen dependency with
           | None => None
           | Some (true, seen) => Some (true, seen)
           | Some (false, seen) => any_reaches visit ancestor dependencies seen
           end
  end.

Fixpoint descend (fuel : nat) (ancestor : string) (seen : gset string) (id : string) : option (bool * gset string) :=
  match fuel with
  | O => None
  | S fuel =>
      if bool_decide (id ∈ seen) then Some (false, seen)
      else any_reaches (descend fuel ancestor) ancestor (deps_of id) ({[id]} ∪ seen)
  end.

(** The calls nest at most once for every identity of the map, and once for
    an identity outside it or visited already. *)
Definition dependsOn (id ancestor : string) : bool :=
  default false (fst <$> descend (S (size deps)) ancestor ∅ id).

Definition unseen (seen : gset string) : nat := size (dom deps ∖ seen).

(** What a call from [ids] that starts at [seen] and answers guarantees. *)
Definition descended (ancestor : string) (seen : gset string) (ids : list string) (b : bool) (seen' : gset string) : Prop :=
  seen ⊆ seen'
  ∧ (b = true → ∃ id, id ∈ ids ∧ rtc edge id ancestor)
  ∧ (b = false → (∀ id, id ∈ ids → id ∈ seen')
       ∧ ∀ a d, a ∈ seen' → a ∉ seen → edge a d → d ≠ ancestor ∧ d ∈ seen').

Lemma any_reaches_spec visit ancestor dependencies seen :
  (∀ seen' d, seen ⊆ seen' → ∃ b seen'', visit seen' d = Some (b, seen'') ∧ descended ancestor seen' [d] b seen'') →
  ∃ b seen', any_reaches visit ancestor dependencies seen = Some (b, seen')
    ∧ descended ancestor seen dependencies b seen' ∧ (b = false → ancestor ∉ dependencies).
Proof.
  revert seen; induction dependencies as [|d l IH]; intros seen Hv; simpl.
  { exists false, seen. split; [done|]. split; [|intros _; apply not_elem_of_nil].
    split_and!; [done|done|]. intros _. split; [by intros id ?%not_elem_of_nil|done]. }
  case_bool_decide as Hd.
  { exists true, seen. split; [done|]. split; [|done]. split_and!; [done| |done].
    intros _. exists d. subst. split; [by left|done]. }
  destruct (Hv seen d ltac:(done)) as (b & s1 & -> & Hs1 & Ht & Hf). destruct b.
  - exists true, s1. split; [done|]. split; [|done]. split_and!; [done| |done].
    intros _. destruct (Ht eq_refl) as (id & ->%list_elem_of_singleton & Hr). exists d. split; [by left|done].
  - destruct (IH s1) as (b & s2 & Hany & (Hs2 & Ht2 & Hf2) & Hno).
    { intros s' d' Hs'. apply Hv. set_solver. }
    exists b, s2. split; [done|]. split; [|intros ->; rewrite not_elem_of_cons; auto].
    split_and!; [set_solver| |].
    + intros Hb. destruct (Ht2 Hb) as (id & Hid & Hr). exists id. split; [by right|done].
    + intros Hb. destruct (Hf eq_refl) as [Hin1 Hc1]. destruct (Hf2 Hb) as [Hin2 Hc2]. split.
      * intros id [->|?]%elem_of_cons; [apply Hs2, Hin1; by left|auto].
      * intros a x Ha Hna He. destruct (decide (a ∈ s1)) as [Ha1|Hn1].
        -- destruct (Hc1 a x Ha1 Hna He). auto.
        -- by apply (Hc2 a x).
Qed.

Lemma descend_spec ancestor fuel seen id :
  (unseen seen < fuel)%nat →
  ∃ b seen', descend fuel ancestor seen id = Some (b, seen') ∧ descended ancestor seen [id] b seen'
    ∧ (b = true → tc edge id ancestor).
Proof.
  revert seen id; induction fuel as [|fuel IH]; intros seen id Hf; [lia|].
  simpl. destruct (bool_decide_reflect (id ∈ seen)) as [Hs|Hs].
  { exists false, seen. split; [done|]. split; [|done]. split_and!; [done|done|]. intros _.
    split; [by intros ? ->%list_elem_of_singleton|done]. }
  assert (deps_of id = [] ∨ (id ∈ dom deps ∧ (unseen ({[id]} ∪ seen) < unseen seen)%nat)) as Hcase.
  { destruct (decide (id ∈ dom deps)) as [Hin|Hni].
    - right. split; [done|]. unfold unseen. apply subset_size. set_solver.
    - left. unfold deps_of. by rewrite (not_elem_of_dom_1 _ _ Hni). }
  destruct Hcase as [Hnil|[Hin Hlt]].
  - rewrite Hnil. simpl. exists false, ({[id]} ∪ seen). split; [done|]. split; [|done].
    split_and!; [set_solver|done|]. intros _. split; [set_solver|].
    intros a d [->%elem_of_singleton|?]%elem_of_union Hna He; [|done]. unfold edge in He. rewrite Hnil in He. set_solver.
  - destruct (any_reaches_spec (descend fuel ancestor) ancestor (deps_of id) ({[id]} ∪ seen))
      as (b & seen' & Hany & (Hsub & Ht & Hfa) & Hno).
    { intros s d Hsub. destruct (IH s d) as (b & s' & ? & ? & _); [|eauto].
      assert (unseen s <= unseen ({[id]} ∪ seen))%nat by (unfold unseen; apply subseteq_size; set_solver). lia. }
    exists b, seen'. split; [done|].
    assert (b = true → tc edge id ancestor) as Htc.
    { intros Hb. destruct (Ht Hb) as (d & Hd & Hr). apply rtc_tc in Hr as [->|Hr]; [by apply tc_once|by eapply tc_l]. }
    split; [|done]. split_and!; [set_solver| |].
    + intros Hb. exists id. split; [by left|]. by apply tc_rtc, Htc.
    + intros Hb. destruct (Hfa Hb) as [Hd Hc]. split; [set_solver|].
      intros a x Ha Hna He. destruct (decide (a = id)) as [->|Hne].
      * split; [|by apply Hd]. intros ->. by apply (Hno Hb).
      * apply (Hc a x); [done|set_solver|done].
Qed.

(** The recursion decides the same relation as the queue. *)
Lemma dependsOn_spec id ancestor : dependsOn id ancestor = true ↔ tc edge id ancestor.
Proof.
  unfold dependsOn. destruct (descend_spec ancestor (S (size deps)) ∅ id)
    as (b & seen' & -> & (_ & _ & Hf) & Ht).
  { unfold unseen. rewrite difference_empty_L, size_dom. lia. }
  simpl. split; [exact Ht|]. intros Htc. destruct b; [done|]. exfalso. destruct (Hf eq_refl) as [Hin Hc].
  assert (∀ a x, tc edge a x → a ∈ seen' → x ≠ ancestor ∧ x ∈ seen') as Hcl.
  { intros a x Hax. induction Hax as [a x He|a y x He _ IHt]; intros Ha; destruct (Hc _ _ Ha ltac:(set_solver) He); auto. }
  by destruct (Hcl id ancestor Htc ltac:(set_solver)).
Qed.
End reach.

(* ------------------------------------------------------------------ *)
(** * The edges of a graph of nodes *)

Section node_edges.
Context `{!Node A}.

(** [node_edge nodes a b]: the node [a] depends on [b]. *)
Definition node_edge (nodes : list A) (a b : string) : Prop :=
  ∃ u, u ∈ nodes ∧ node_id u = a ∧ b ∈ node_deps u.

Lemma edge_by_key nodes a b :
  NoDup (node_ids nodes) → edge (node_deps <$> by_key node_id nodes) a b ↔ node_edge nodes a b.
Proof.
  intros Hnd. unfold edge, deps_of, node_edge. rewrite lookup_fmap. split.
  - destruct (by_key node_id nodes !! a) as [u|] eqn:Hu; simpl; [|by intros ?%not_elem_of_nil].
    apply lookup_by_key in Hu as [? ?]; [|done]. eauto.
  - intros (u & Hu & <- & Hb). assert (by_key node_id nodes !! node_id u = Some u) as ->; [|done].
    by apply lookup_by_key.
Qed.

Lemma tc_edge_by_key nodes a b :
  NoDup (node_ids nodes) → tc (edge (node_deps <$> by_key node_id nodes)) a b ↔ tc (node_edge nodes) a b.
Proof.
  intros Hnd. split; induction 1; try (apply tc_once; by apply edge_by_key);
    (eapply tc_l; [by apply edge_by_key|done]).
Qed.

(** In an order that puts every node after its dependencies, whatever a node
    reaches comes before it. *)
Lemma tc_before nodes order a b :
  ordered nodes order → order ≡ₚ node_ids nodes → tc (node_edge nodes) a b →
  ∀ l1 l2, order = l1 ++ a :: l2 → b ∈ l1.
Proof.
  intros Ho Hp Ht. induction Ht as [a b (u & Hu & <- & Hb)|a c b (u & Hu & <- & Hc) _ IH]; intros l1 l2 He.
  - by apply (Ho l1 l2 u).
  - assert (c ∈ l1) as (k1 & k2 & ->)%list_elem_of_split by (by apply (Ho l1 l2 u)).
    rewrite <- app_assoc in He. specialize (IH k1 (k2 ++ node_id u :: l2) He). set_solver.
Qed.

Lemma ranked_tc nodes a b :
  ranked nodes → tc (node_edge nodes) a b → a ≠ b ∧ b ∈ node_ids nodes.
Proof.
  intros [rank Hr] Ht. enough (rank b < rank a ∧ b ∈ node_ids nodes)%nat as [? ?] by (split; [intros ->; lia|done]).
  induction Ht as [a b (u & Hu & <- & Hb)|a c b (u & Hu & <- & Hc) _ [IH ?]].
  - by destruct (Hr u b Hu Hb).
  - destruct (Hr u c Hu Hc). split; [lia|done].
Qed.
End node_edges.
