(* ===== verification/Item.v ===== *)
(** Batch items: [orchestration/item.go].  An item's state is a projection of
    the facts of its child run. *)

From S2P Require Import Prelude GoStrings.
From stdpp Require Import options.

Definition ItemNotCreated : string := "not_created".
Definition ItemQueued : string := "queued".
Definition ItemRunning : string := "running".
Definition ItemWaiting : string := "waiting".
Definition ItemHandoffPending : string := "handoff_pending".
Definition ItemCompleted : string := "completed".
Definition ItemPartial : string := "partial".
Definition ItemFailed : string := "failed".
Definition ItemStopped : string := "stopped".

Definition RunLive : string := "live".
Definition RunCompleted : string := "completed".
Definition RunFailed : string := "failed".
Definition RunCancelled : string := "cancelled".

Definition ActivityIdle : string := "idle".
Definition ActivityWorking : string := "working".
Definition ActivityWaiting : string := "waiting".
Definition ActivityFinished : string := "finished".

Definition HandoffNone : string := "none".
Definition HandoffReported : string := "reported".
Definition HandoffAdmitted : string := "admitted".
Definition HandoffRefused : string := "refused".

(** From [orchestration/handoff.go]. *)
Definition OutcomeCompleted : string := "completed".
Definition OutcomePartial : string := "partial".

Record ChildFacts := MkChildFacts {
  Child_Exists : bool;
  Child_Termination : string;
  Child_Activity : string;
  Child_Handoff : string;
  Child_HandoffOutcome : string
}.

Inductive ItemError :=
  | UnrecognizedHandoff (v : string)
  | UnrecognizedTermination (v : string)
  | UnrecognizedOutcome (v : string)
  | CompletedOwnsOperation
  | UnrecognizedActivity (v : string).

Definition ProjectItem (facts : ChildFacts) : result ItemError string :=
  let termination := facts.(Child_Termination) in
  let activity := facts.(Child_Activity) in
  let handoff := facts.(Child_Handoff) in
  let outcome := facts.(Child_HandoffOutcome) in
  if negb facts.(Child_Exists) then Ok ItemNotCreated
  else
    refuse_if (negb ([HandoffNone; HandoffReported; HandoffAdmitted; HandoffRefused] ∋? handoff))
      (UnrecognizedHandoff handoff) ;?
    if termination ≟ RunFailed then Ok ItemFailed
    else if termination ≟ RunCancelled then Ok ItemStopped
    else
      refuse_if (negb ([RunCompleted; RunLive] ∋? termination)) (UnrecognizedTermination termination) ;?
      refuse_if ((handoff ≟ HandoffAdmitted) && (outcome ≠? OutcomeCompleted) && (outcome ≠? OutcomePartial))
        (UnrecognizedOutcome outcome) ;?
      if activity ≟ ActivityWorking then
        if termination ≟ RunCompleted then Err CompletedOwnsOperation else Ok ItemRunning
      else
        refuse_if (negb ([ActivityIdle; ActivityWaiting; ActivityFinished] ∋? activity)) (UnrecognizedActivity activity) ;?
        if (termination ≟ RunCompleted) || (activity ≟ ActivityFinished) then
          if handoff ≠? HandoffAdmitted then Ok ItemHandoffPending
          else if outcome ≟ OutcomePartial then Ok ItemPartial
          else Ok ItemCompleted
        else if activity ≟ ActivityWaiting then Ok ItemWaiting
        else Ok ItemQueued.

Record Counts := MkCounts {
  Total : Z;
  NotCreated : Z;
  Queued : Z;
  Running : Z;
  Waiting : Z;
  HandoffPending : Z;
  Completed : Z;
  Partial : Z;
  Failed : Z;
  Stopped : Z;
  Unknown : Z
}.

Definition no_counts : Counts := MkCounts 0 0 0 0 0 0 0 0 0 0 0.

(** [Counts.Add]. *)
Definition Add (c : Counts) (state : string) : Counts :=
  let bump (b : bool) (n : Z) := if b then (n + 1)%Z else n in
  let known := [ItemNotCreated; ItemQueued; ItemRunning; ItemWaiting; ItemHandoffPending;
                ItemCompleted; ItemPartial; ItemFailed; ItemStopped] in
  MkCounts (c.(Total) + 1) (bump (state ≟ ItemNotCreated) c.(NotCreated)) (bump (state ≟ ItemQueued) c.(Queued))
    (bump (state ≟ ItemRunning) c.(Running)) (bump (state ≟ ItemWaiting) c.(Waiting))
    (bump (state ≟ ItemHandoffPending) c.(HandoffPending)) (bump (state ≟ ItemCompleted) c.(Completed))
    (bump (state ≟ ItemPartial) c.(Partial)) (bump (state ≟ ItemFailed) c.(Failed))
    (bump (state ≟ ItemStopped) c.(Stopped)) (bump (negb (known ∋? state)) c.(Unknown)).

(** An item is complete exactly when an admitted handoff reports completion
    and nothing is working: a finished producer stage of a run that did not
    fail and was not cancelled. *)
Definition completed_child (facts : ChildFacts) : Prop :=
  facts.(Child_Exists) = true
  ∧ facts.(Child_Handoff) = HandoffAdmitted ∧ facts.(Child_HandoffOutcome) = OutcomeCompleted
  ∧ ((facts.(Child_Termination) = RunCompleted ∧ facts.(Child_Activity) ∈ [ActivityIdle; ActivityWaiting; ActivityFinished])
     ∨ (facts.(Child_Termination) = RunLive ∧ facts.(Child_Activity) = ActivityFinished)).

(** Every member of a closed vocabulary is recognised. *)
Definition recognized (facts : ChildFacts) : Prop :=
  facts.(Child_Handoff) ∈ [HandoffNone; HandoffReported; HandoffAdmitted; HandoffRefused]
  ∧ facts.(Child_Termination) ∈ [RunLive; RunCompleted; RunFailed; RunCancelled]
  ∧ (facts.(Child_Termination) ∈ [RunLive; RunCompleted] →
       (facts.(Child_Handoff) = HandoffAdmitted → facts.(Child_HandoffOutcome) ∈ [OutcomeCompleted; OutcomePartial])
       ∧ facts.(Child_Activity) ∈ [ActivityIdle; ActivityWorking; ActivityWaiting; ActivityFinished]
       ∧ (facts.(Child_Termination) = RunCompleted → facts.(Child_Activity) ≠ ActivityWorking)).

(** An item is projected completed exactly when its child exists, its
    producer stage finished without failure or cancellation, and the admitted
    handoff reports completion: a provider exit, a report that is not
    admitted or a partial outcome never count. *)
Theorem ProjectItem_completed facts :
  ProjectItem facts = Ok ItemCompleted ↔ completed_child facts.
Proof.
  destruct facts as [e t a h o]. unfold ProjectItem, completed_child. simpl. split.
  - intros Hp. destruct e; simpl in Hp; [|discriminate Hp]. invert_ok.
    destruct (t ≟ RunFailed); [discriminate Hp|]. destruct (t ≟ RunCancelled); [discriminate Hp|]. invert_ok.
    destruct (a ≟ ActivityWorking); [destruct (t ≟ RunCompleted); discriminate Hp|]. invert_ok.
    destruct ((t ≟ RunCompleted) || (a ≟ ActivityFinished)) eqn:Hf; [|destruct (a ≟ ActivityWaiting); discriminate Hp].
    destruct (h ≠? HandoffAdmitted) eqn:Hh; [discriminate Hp|].
    destruct (o ≟ OutcomePartial) eqn:Ho; [discriminate Hp|]. reflect_bools. set_solver.
  - intros (-> & -> & -> & [[-> Ha]|[-> ->]]); [|vm_compute; reflexivity]. simpl.
    repeat (apply elem_of_cons in Ha as [->|Ha]; [vm_compute; reflexivity|]). by apply not_elem_of_nil in Ha.
Qed.

(** A projection guesses nothing: it answers exactly on the facts whose
    members are all in their vocabularies and do not contradict each other,
    and refuses every other. *)
Theorem ProjectItem_total facts :
  facts.(Child_Exists) = true → is_ok (ProjectItem facts) = true ↔ recognized facts.
Proof.
  destruct facts as [e t a h o]. unfold ProjectItem, recognized. simpl. intros ->. simpl. split.
  - rewrite is_ok_true. intros [s Hp]. invert_ok.
    destruct (t ≟ RunFailed) eqn:E1; [reflect_bools; subst; set_solver|].
    destruct (t ≟ RunCancelled) eqn:E2; [reflect_bools; subst; set_solver|]. invert_ok.
    destruct (a ≟ ActivityWorking) eqn:E3.
    + destruct (t ≟ RunCompleted) eqn:E4; [discriminate Hp|]. reflect_bools. set_solver.
    + invert_ok. clear Hp. reflect_bools.
      match goal with H : t ∈ _ |- _ => rename H into Ht end.
      match goal with H : a ∈ _ |- _ => rename H into Ha end.
      split; [done|]. split.
      { apply elem_of_cons in Ht as [->|Ht%list_elem_of_singleton]; [|subst]; repeat constructor. }
      intros _. split; [|split; [|intros _; done]].
      { intros ->. rewrite elem_of_cons, list_elem_of_singleton. tauto. }
      repeat (apply elem_of_cons in Ha as [->|Ha]; [repeat constructor|]). by apply not_elem_of_nil in Ha.
  - intros (Hh & Ht & Hr). rewrite (bool_decide_eq_true_2 (h ∈ _)) by done. simpl.
    apply elem_of_cons in Ht as [->|Ht]; [|apply elem_of_cons in Ht as [->|Ht]];
      [| |repeat (apply elem_of_cons in Ht as [->|Ht]; [by vm_compute|]); by apply not_elem_of_nil in Ht].
    all: destruct (Hr ltac:(set_solver)) as (Ho & Ha & Hw).
    all: rewrite !(bool_decide_eq_true_2 (_ ∈ [RunCompleted; RunLive])) by set_solver; simpl.
    all: assert ((h ≟ HandoffAdmitted) && (o ≠? OutcomeCompleted) && (o ≠? OutcomePartial) = false) as ->
      by (destruct (h ≟ HandoffAdmitted) eqn:Hx; [|done]; apply bool_decide_eq_true in Hx; specialize (Ho Hx);
          apply elem_of_cons in Ho as [->|Ho%list_elem_of_singleton]; [done|by subst]).
    all: simpl; apply elem_of_cons in Ha as [->|Ha];
      [|apply elem_of_cons in Ha as [->|Ha]; [|repeat (apply elem_of_cons in Ha as [->|Ha]);
        try (by apply not_elem_of_nil in Ha)]]; simpl.
    all: try (by specialize (Hw eq_refl)); try done.
    all: by destruct (h ≟ HandoffAdmitted), (o ≟ OutcomePartial).
Qed.

Lemma ProjectItem_total_witness :
  is_ok (ProjectItem (MkChildFacts true RunLive ActivityIdle HandoffReported "")) = true
  ∧ ¬ recognized (MkChildFacts true RunLive ActivityIdle "invented" "").
Proof.
  split; [vm_compute; reflexivity|].
  intros Hr. apply (ProjectItem_total (MkChildFacts true RunLive ActivityIdle "invented" "") eq_refl) in Hr.
  vm_compute in Hr. discriminate Hr.
Defined.

(** Every bucket of the counts. *)
Definition counted (c : Counts) : Z :=
  (c.(NotCreated) + c.(Queued) + c.(Running) + c.(Waiting) + c.(HandoffPending) + c.(Completed) + c.(Partial)
   + c.(Failed) + c.(Stopped) + c.(Unknown))%Z.

Lemma Add_counted c state : counted (Add c state) = (counted c + 1)%Z.
Proof.
  unfold counted, Add. simpl.
  destruct (state ≟ ItemNotCreated) eqn:E1; [apply bool_decide_eq_true in E1 as ->; simpl; lia|].
  destruct (state ≟ ItemQueued) eqn:E2; [apply bool_decide_eq_true in E2 as ->; simpl; lia|].
  destruct (state ≟ ItemRunning) eqn:E3; [apply bool_decide_eq_true in E3 as ->; simpl; lia|].
  destruct (state ≟ ItemWaiting) eqn:E4; [apply bool_decide_eq_true in E4 as ->; simpl; lia|].
  destruct (state ≟ ItemHandoffPending) eqn:E5; [apply bool_decide_eq_true in E5 as ->; simpl; lia|].
  destruct (state ≟ ItemCompleted) eqn:E6; [apply bool_decide_eq_true in E6 as ->; simpl; lia|].
  destruct (state ≟ ItemPartial) eqn:E7; [apply bool_decide_eq_true in E7 as ->; simpl; lia|].
  destruct (state ≟ ItemFailed) eqn:E8; [apply bool_decide_eq_true in E8 as ->; simpl; lia|].
  destruct (state ≟ ItemStopped) eqn:E9; [apply bool_decide_eq_true in E9 as ->; simpl; lia|].
  repeat match goal with E : bool_decide _ = false |- _ => apply bool_decide_eq_false in E end.
  rewrite bool_decide_eq_false_2; [simpl; lia|]. rewrite !elem_of_cons, elem_of_nil. tauto.
Qed.

(** The totals always add up: no item is dropped or counted twice. *)
Lemma Add_total states :
  let c := fold_left Add states no_counts in
  c.(Total) = Z.of_nat (length states) ∧ counted c = c.(Total).
Proof.
  simpl.
  assert (∀ c, counted c = c.(Total) →
    (fold_left Add states c).(Total) = (c.(Total) + Z.of_nat (length states))%Z
    ∧ counted (fold_left Add states c) = (fold_left Add states c).(Total)) as Hgen.
  { induction states as [|s l IH]; intros c Hc; simpl; [split; [lia|done]|].
    destruct (IH (Add c s)) as [H1 H2]; [rewrite Add_counted, Hc; done|]. split; [|done].
    rewrite H1. simpl. lia. }
  destruct (Hgen no_counts eq_refl) as [-> ->]. split; [simpl; lia|]. simpl. lia.
Qed.
