(* ===== verification/WorkGraph.v ===== *)
(** The work graph: [orchestration/workgraph.go].  A revision of the durable
    dependency graph, its identity, its admission check and the topological
    order that is also its cycle refusal (the loop itself is in [Topo]). *)

From S2P Require Import Prelude GoStrings Sha256 Domain Canonical Topo.
From stdpp Require Import options.

Definition WorkGraphSchemaVersion : string := "0.1".

(** [MaxBatchItems] of [orchestration/batch.go]. *)
Definition MaxBatchItems : nat := 32.
Definition MaxWorkGraphUnits : nat := MaxBatchItems.
Definition MaxWorkGraphDocumentBytes : nat := 6144.
Definition maxWorkGraphNameBytes : nat := 200.
Definition maxUnitIDBytes : nat := 64.
Definition maxUnitPurposeBytes : nat := 1024.

Definition ExecutionKindProvider : string := "provider".
Definition ExecutionKindIntegrationCompose : string := "integration_compose".

Record PlanRef := MkPlanRef {
  PlanRef_ID : string;
  PlanRef_Revision : Z;
  PlanRef_Digest : string
}.

Record WorkUnit := MkWorkUnit {
  Unit_ID : string;
  Unit_Purpose : string;
  Unit_Role : string;
  Unit_ExecutionKind : string;
  Unit_Issue : Z;
  Unit_DependsOn : list string;
  Unit_RequiresReview : bool
}.

(** [CreatedAt] is the instant, 0 for the zero time. *)
Record WorkGraph := MkWorkGraph {
  Graph_SchemaVersion : string;
  Graph_ID : string;
  Graph_Repository : string;
  Graph_AgentID : string;
  Graph_Name : string;
  Graph_Revision : Z;
  Graph_RequestedBy : string;
  Graph_CreatedAt : Z;
  Graph_Units : list WorkUnit;
  Graph_ObjectivePlan : option PlanRef
}.

Record WorkGraphProposal := MkProposal {
  Proposal_Name : string;
  Proposal_Revision : Z;
  Proposal_Units : list WorkUnit
}.

#[export] Instance PlanRef_eq : EqDecision PlanRef.
Proof. solve_decision. Defined.
#[export] Instance WorkUnit_eq : EqDecision WorkUnit.
Proof. solve_decision. Defined.
#[export] Instance WorkUnit_node : Node WorkUnit := {| node_id := Unit_ID; node_deps := Unit_DependsOn |}.

(** [OutOfFuel] marks the end of the model's loop bound; no input reaches
    it. *)
Inductive WorkGraphError :=
  | IdentityIncomplete
  | NameTooLong (bytes : nat)
  | DigestRefused (e : CanonicalError)
  | InexactPlan
  | SchemaMismatch (version : string)
  | FieldRequired (name : string)
  | FieldTooLong (name : string) (bytes limit : nat)
  | FieldNotUTF8 (name : string)
  | IdentityMismatch (id canonical : string)
  | NotARevision (revision : Z)
  | CreationTimeRequired
  | NoUnits
  | TooManyUnits (n : nat)
  | DuplicateUnit (id : string)
  | UnknownUnitRole (id role : string)
  | UnknownExecutionKind (id kind : string)
  | TooFewInputs (id : string) (n : nat)
  | ReviewOfComposition (id : string)
  | NotAnIssue (id : string) (issue : Z)
  | SharedIssue (other id : string) (issue : Z)
  | SelfDependency (id : string)
  | DuplicateDependency (id dependency : string)
  | UnknownDependency (id dependency : string)
  | Cycle (unresolved : list string)
  | DocumentTooLarge (bytes : nat)
  | ObjectiveGraph
  | DifferentGraph (revision : Z) (id : string)
  | NotNextRevision (current next : Z)
  | FrozenRemoved (id : string)
  | FrozenChanged (id : string)
  | OutOfFuel.

Definition KnownExecutionKind (kind : string) : bool :=
  (kind ≟ "") || (kind ≟ ExecutionKindProvider) || (kind ≟ ExecutionKindIntegrationCompose).

Definition effectiveExecutionKind (u : WorkUnit) : string :=
  if u.(Unit_ExecutionKind) ≟ "" then ExecutionKindProvider else u.(Unit_ExecutionKind).

Definition boundedField (name value : string) (limit : nat) : result WorkGraphError () :=
  refuse_if (blank value) (FieldRequired name) ;?
  refuse_if (limit <? len value) (FieldTooLong name (len value) limit) ;?
  refuse_if (negb (ValidString value)) (FieldNotUTF8 name).

Definition sortedCopy (values : list string) : list string := sort_strings values.

Definition sameUnit (a b : WorkUnit) : bool :=
  if (a.(Unit_Issue) ≠? b.(Unit_Issue)) || (a.(Unit_Role) ≠? b.(Unit_Role))
     || (effectiveExecutionKind a ≠? effectiveExecutionKind b) || (a.(Unit_Purpose) ≠? b.(Unit_Purpose))
     || (length a.(Unit_DependsOn) ≠? length b.(Unit_DependsOn))
     || (a.(Unit_RequiresReview) ≠? b.(Unit_RequiresReview)) then false
  else sortedCopy a.(Unit_DependsOn) ≟ sortedCopy b.(Unit_DependsOn).

(* ------------------------------------------------------------------ *)
(** * Documents *)

Definition unit_value (u : WorkUnit) : GoValue :=
  GStruct ([("id", GString u.(Unit_ID)); ("purpose", GString u.(Unit_Purpose)); ("role", GString u.(Unit_Role))]
    ++ omit_if (u.(Unit_ExecutionKind) ≟ "") "execution_kind" (GString u.(Unit_ExecutionKind))
    ++ [("issue", GInt u.(Unit_Issue))]
    ++ omit_if (length u.(Unit_DependsOn) =? 0) "depends_on" (GList (GString <$> u.(Unit_DependsOn)))
    ++ omit_if (negb u.(Unit_RequiresReview)) "requires_review" (GBool u.(Unit_RequiresReview))).

Definition with_dependencies (u : WorkUnit) (dependsOn : list string) : WorkUnit :=
  MkWorkUnit u.(Unit_ID) u.(Unit_Purpose) u.(Unit_Role) u.(Unit_ExecutionKind) u.(Unit_Issue) dependsOn
    u.(Unit_RequiresReview).

Definition canonicalUnits (g : WorkGraph) : list WorkUnit :=
  sort_by Unit_ID ((λ u, with_dependencies u (sortedCopy u.(Unit_DependsOn))) <$> g.(Graph_Units)).

Section Documents.
Context `{!Canonicalizer, !GoUnicode}.

Definition WorkGraphID (repository agentID name : string) : result WorkGraphError string :=
  refuse_if (blank repository || blank agentID || blank name) IdentityIncomplete ;?
  refuse_if (maxWorkGraphNameBytes <? len name) (NameTooLong (len name)) ;?
  let? digest := wrap DigestRefused (Digest (GStruct
    [("repository", GString (ToLower repository)); ("agent", GString agentID); ("name", GString name)])) in
  Ok ("graph-" +:+ take_bytes 32 digest).

Definition RevisionDigest (g : WorkGraph) : result WorkGraphError string :=
  wrap DigestRefused (Digest (GStruct
    [("id", GString g.(Graph_ID)); ("revision", GInt g.(Graph_Revision));
     ("units", GList (unit_value <$> canonicalUnits g))])).

Definition documentBytes (g : WorkGraph) : result WorkGraphError nat :=
  let? document := wrap DigestRefused (CanonicalJSON (GStruct
    [("name", GString g.(Graph_Name)); ("revision", GInt g.(Graph_Revision));
     ("units", GList (unit_value <$> g.(Graph_Units)))])) in
  Ok (len document).
End Documents.

(* ------------------------------------------------------------------ *)
(** * The topological order *)

Section topological.
Context `{!MapRange}.

Definition topologicalOrder (units : list WorkUnit) : result WorkGraphError (list string) :=
  match kahn units with
  | None => Err OutOfFuel
  | Some (order, remaining) =>
      if length order =? length units then Ok order else Err (Cycle (unresolved remaining))
  end.
End topological.

(* ------------------------------------------------------------------ *)
(** * Admission *)

(** The state of the first loop of [Validate]: [byID] and [issues]. *)
Definition admit_unit `{!GoUnicode} (shared : bool) (state : gmap string WorkUnit * gmap Z string) (unit : WorkUnit)
  : result WorkGraphError (gmap string WorkUnit * gmap Z string) :=
  let '(byID, issues) := state in
  let id := unit.(Unit_ID) in
  boundedField "work unit id" id maxUnitIDBytes ;?
  refuse_if (negb (bool_decide (byID !! id = None))) (DuplicateUnit id) ;?
  boundedField ("work unit " +:+ Quote id +:+ " purpose") unit.(Unit_Purpose) maxUnitPurposeBytes ;?
  refuse_if (negb (KnownRole unit.(Unit_Role))) (UnknownUnitRole id unit.(Unit_Role)) ;?
  refuse_if (negb (KnownExecutionKind unit.(Unit_ExecutionKind))) (UnknownExecutionKind id unit.(Unit_ExecutionKind)) ;?
  refuse_if ((effectiveExecutionKind unit ≟ ExecutionKindIntegrationCompose) && (length unit.(Unit_DependsOn) <? 2))
    (TooFewInputs id (length unit.(Unit_DependsOn))) ;?
  refuse_if (unit.(Unit_RequiresReview) && (effectiveExecutionKind unit ≟ ExecutionKindIntegrationCompose))
    (ReviewOfComposition id) ;?
  refuse_if (unit.(Unit_Issue) <=? 0)%Z (NotAnIssue id unit.(Unit_Issue)) ;?
  (match issues !! unit.(Unit_Issue) with
   | Some other => refuse_if (negb shared) (SharedIssue other id unit.(Unit_Issue))
   | None => Ok tt
   end) ;?
  Ok (<[id := unit]> byID, <[unit.(Unit_Issue) := id]> issues).

(** The inner loop over one unit's dependencies; the state is [seen]. *)
Definition admit_dependency (byID : gmap string WorkUnit) (unit : WorkUnit) (seen : gset string) (dependency : string)
  : result WorkGraphError (gset string) :=
  refuse_if (dependency ≟ unit.(Unit_ID)) (SelfDependency unit.(Unit_ID)) ;?
  refuse_if (bool_decide (dependency ∈ seen)) (DuplicateDependency unit.(Unit_ID) dependency) ;?
  refuse_if (bool_decide (byID !! dependency = None)) (UnknownDependency unit.(Unit_ID) dependency) ;?
  Ok ({[dependency]} ∪ seen).

Section Admission.
Context `{!MapRange, !Canonicalizer, !GoUnicode}.

Definition Validate (g : WorkGraph) : result WorkGraphError () :=
  (match g.(Graph_ObjectivePlan) with
   | Some plan => refuse_if (blank plan.(PlanRef_ID) || (plan.(PlanRef_Revision) <? 1)%Z || blank plan.(PlanRef_Digest))
                    InexactPlan
   | None => Ok tt
   end) ;?
  refuse_if (g.(Graph_SchemaVersion) ≠? WorkGraphSchemaVersion) (SchemaMismatch g.(Graph_SchemaVersion)) ;?
  boundedField "work graph name" g.(Graph_Name) maxWorkGraphNameBytes ;?
  let? id := WorkGraphID g.(Graph_Repository) g.(Graph_AgentID) g.(Graph_Name) in
  refuse_if (id ≠? g.(Graph_ID)) (IdentityMismatch g.(Graph_ID) id) ;?
  refuse_if (g.(Graph_Revision) <? 1)%Z (NotARevision g.(Graph_Revision)) ;?
  refuse_if (g.(Graph_CreatedAt) =? 0)%Z CreationTimeRequired ;?
  refuse_if (length g.(Graph_Units) =? 0) NoUnits ;?
  refuse_if (MaxWorkGraphUnits <? length g.(Graph_Units)) (TooManyUnits (length g.(Graph_Units))) ;?
  let? (byID, _) := for_each (admit_unit (negb (bool_decide (g.(Graph_ObjectivePlan) = None)))) g.(Graph_Units) (∅, ∅) in
  check_all (λ unit, for_each (admit_dependency byID unit) unit.(Unit_DependsOn) ∅ ;? Ok tt) g.(Graph_Units) ;?
  topologicalOrder g.(Graph_Units) ;?
  let? size := documentBytes g in
  refuse_if (MaxWorkGraphDocumentBytes <? size) (DocumentTooLarge size).

(** [WorkGraphProposal.Compose]. *)
Definition Compose (p : WorkGraphProposal) (repository agentID requestedBy : string) (at_ : Z)
  : result WorkGraphError WorkGraph :=
  let? id := WorkGraphID repository agentID p.(Proposal_Name) in
  let graph :=
    {| Graph_SchemaVersion := WorkGraphSchemaVersion; Graph_ID := id; Graph_Repository := repository;
       Graph_AgentID := agentID; Graph_Name := p.(Proposal_Name); Graph_Revision := p.(Proposal_Revision);
       Graph_RequestedBy := requestedBy; Graph_CreatedAt := at_; Graph_Units := p.(Proposal_Units);
       Graph_ObjectivePlan := None |} in
  Validate graph ;? Ok graph.

(** One iteration of the frozen-unit loop of [ValidateMutation]. *)
Definition frozen_unit (byID : gmap string WorkUnit) (activated : gmap string bool) (unit : WorkUnit)
  : result WorkGraphError () :=
  if negb (default false (activated !! unit.(Unit_ID))) then Ok tt
  else match byID !! unit.(Unit_ID) with
       | None => Err (FrozenRemoved unit.(Unit_ID))
       | Some proposed => refuse_if (negb (sameUnit unit proposed)) (FrozenChanged unit.(Unit_ID))
       end.

Definition units_by_id (units : list WorkUnit) : gmap string WorkUnit :=
  fold_left (λ byID unit, <[unit.(Unit_ID) := unit]> byID) units ∅.

Definition ValidateMutation (current next : WorkGraph) (activated : gmap string bool) : result WorkGraphError () :=
  refuse_if (negb (bool_decide (current.(Graph_ObjectivePlan) = None))
             || negb (bool_decide (next.(Graph_ObjectivePlan) = None))) ObjectiveGraph ;?
  Validate next ;?
  refuse_if ((next.(Graph_ID) ≠? current.(Graph_ID)) || (next.(Graph_Repository) ≠? current.(Graph_Repository))
             || (next.(Graph_AgentID) ≠? current.(Graph_AgentID)) || (next.(Graph_Name) ≠? current.(Graph_Name)))
    (DifferentGraph next.(Graph_Revision) current.(Graph_ID)) ;?
  refuse_if (next.(Graph_Revision) ≠? wrap64 (current.(Graph_Revision) + 1))
    (NotNextRevision current.(Graph_Revision) next.(Graph_Revision)) ;?
  check_all (frozen_unit (units_by_id next.(Graph_Units)) activated) current.(Graph_Units).
End Admission.

(* ------------------------------------------------------------------ *)
(** * Identities *)

Definition ids (units : list WorkUnit) : list string := Unit_ID <$> units.

Lemma NoDup_ids_inj units u v :
  NoDup (ids units) → u ∈ units → v ∈ units → u.(Unit_ID) = v.(Unit_ID) → u = v.
Proof. apply NoDup_fmap_inj. Qed.

(* ------------------------------------------------------------------ *)
(** * The topological order *)

(** Every dependency names a unit, and the dependencies can be ranked. *)
Definition acyclic (units : list WorkUnit) : Prop :=
  ∃ rank : string → nat, ∀ u d, u ∈ units → d ∈ u.(Unit_DependsOn) →
    d ∈ ids units ∧ (rank d < rank u.(Unit_ID))%nat.

(** Every unit taken comes after its dependencies. *)
Definition ordered (units : list WorkUnit) (order : list string) : Prop :=
  ∀ l1 l2 u, u ∈ units → order = l1 ++ u.(Unit_ID) :: l2 → ∀ d, d ∈ u.(Unit_DependsOn) → d ∈ l1.

Section topological_order.
Context `{!MapRange}.

(** The loop ends within the fuel: [OutOfFuel] is never returned. *)
Lemma topologicalOrder_terminates units : topologicalOrder units ≠ Err OutOfFuel.
Proof.
  unfold topologicalOrder. destruct (kahn_total units) as (order & remaining & -> & _).
  by destruct (length order =? length units).
Qed.

Lemma topologicalOrder_kahn units order :
  topologicalOrder units = Ok order → ∃ remaining, kahn units = Some (order, remaining) ∧ length order = length units.
Proof.
  unfold topologicalOrder. destruct (kahn units) as [[order' remaining]|]; [|done].
  destruct (_ =? _)%nat eqn:Hl; [|done]. intros [= ->]. apply Nat.eqb_eq in Hl. eauto.
Qed.

(** An order that is returned lists every unit once; repeated identities
    are refused. *)
Lemma topologicalOrder_perm units order :
  topologicalOrder units = Ok order → NoDup (ids units) ∧ order ≡ₚ ids units.
Proof. intros (remaining & Hk & Hl)%topologicalOrder_kahn. exact (kahn_perm _ _ _ Hk Hl). Qed.

Lemma topologicalOrder_ordered units order :
  topologicalOrder units = Ok order → ordered units order.
Proof.
  intros (remaining & Hk & Hl)%topologicalOrder_kahn.
  exact (proj1 (kahn_ordered _ _ _ (proj1 (kahn_perm _ _ _ Hk Hl)) Hk)).
Qed.

Lemma topologicalOrder_acyclic units order :
  topologicalOrder units = Ok order → acyclic units.
Proof. intros (remaining & Hk & Hl)%topologicalOrder_kahn. exact (proj2 (proj1 (kahn_full _ _ _ Hk) Hl)). Qed.

Lemma topologicalOrder_complete units :
  NoDup (ids units) → acyclic units → ∃ order, topologicalOrder units = Ok order.
Proof.
  intros Hnd Ha. unfold topologicalOrder. destruct (kahn_total units) as (order & remaining & Hk & _). rewrite Hk.
  rewrite (proj2 (kahn_full _ _ _ Hk) (conj Hnd Ha)), Nat.eqb_refl. eauto.
Qed.

(** C38: the topological order is exactly the cycle refusal: it exists if
    and only if the units have distinct identities, every dependency names
    a unit and the dependencies can be ranked; it then lists every unit
    once, each after all its dependencies; and its loop always ends. *)
Theorem topologicalOrder_spec units :
  (is_ok (topologicalOrder units) = true ↔ NoDup (ids units) ∧ acyclic units)
  ∧ (∀ order, topologicalOrder units = Ok order →
       order ≡ₚ ids units
       ∧ ∀ l1 l2 u d, u ∈ units → order = l1 ++ u.(Unit_ID) :: l2 → d ∈ u.(Unit_DependsOn) → d ∈ l1)
  ∧ topologicalOrder units ≠ Err OutOfFuel.
Proof.
  split_and!; [|intros order Ht|apply topologicalOrder_terminates].
  - rewrite is_ok_true. split; [|intros [Hnd Ha]; by apply topologicalOrder_complete].
    intros [order Ht]. split; [apply (topologicalOrder_perm _ _ Ht)|by eapply topologicalOrder_acyclic].
  - split; [apply (topologicalOrder_perm _ _ Ht)|]. intros l1 l2 u d Hu He Hd.
    by eapply (topologicalOrder_ordered _ _ Ht).
Qed.
End topological_order.

(* ------------------------------------------------------------------ *)
(** * Content identity *)

(** The same unit with its dependencies listed in another order. *)
Definition same_unit_content (u v : WorkUnit) : Prop :=
  v = with_dependencies u v.(Unit_DependsOn) ∧ u.(Unit_DependsOn) ≡ₚ v.(Unit_DependsOn).

(** Two revisions that describe the same graph: same identity and revision,
    units and dependency lists in any order, composed whenever and by
    whomever. *)
Definition same_revision (g h : WorkGraph) : Prop :=
  g.(Graph_ID) = h.(Graph_ID) ∧ g.(Graph_Revision) = h.(Graph_Revision)
  ∧ ∃ units, g.(Graph_Units) ≡ₚ units ∧ Forall2 same_unit_content units h.(Graph_Units).

Lemma canonicalUnits_same g h :
  NoDup (ids g.(Graph_Units)) → same_revision g h → canonicalUnits g = canonicalUnits h.
Proof.
  intros Hnd (_ & _ & units & Hp & Hf). unfold canonicalUnits.
  assert ((λ u, with_dependencies u (sortedCopy u.(Unit_DependsOn))) <$> units
          = (λ u, with_dependencies u (sortedCopy u.(Unit_DependsOn))) <$> h.(Graph_Units)) as <-.
  { clear Hp Hnd. induction Hf as [|u v l k [Hv Hd] Hf IH]; simpl; [done|]. f_equal; [|done].
    rewrite Hv. unfold with_dependencies. simpl. unfold sortedCopy. by rewrite Hd. }
  apply sort_by_unique; [|by rewrite Hp].
  intros x y (u & -> & Hu)%list_elem_of_fmap (v & -> & Hv)%list_elem_of_fmap. simpl. intros He.
  by rewrite (NoDup_ids_inj _ _ _ Hnd Hu Hv He).
Qed.

(** The content identity of a revision does not depend on how its
    proposer ordered the units or their dependency lists, nor on when or by
    whom it was composed. *)
Theorem RevisionDigest_same `{!Canonicalizer} g h :
  NoDup (ids g.(Graph_Units)) → same_revision g h → RevisionDigest g = RevisionDigest h.
Proof.
  intros Hnd Hs. unfold RevisionDigest. rewrite (canonicalUnits_same g h) by done.
  destruct Hs as (-> & -> & _). done.
Qed.

(* ------------------------------------------------------------------ *)
(** * Admission *)

Section admission.
Context `{!MapRange, !Canonicalizer, !GoUnicode}.

(** What every unit of an admitted graph satisfies on its own. *)
Record admitted_unit (u : WorkUnit) : Prop := {
  admitted_id : blank u.(Unit_ID) = false ∧ (len u.(Unit_ID) <= maxUnitIDBytes)%nat;
  admitted_purpose : blank u.(Unit_Purpose) = false ∧ (len u.(Unit_Purpose) <= maxUnitPurposeBytes)%nat;
  admitted_role : u.(Unit_Role) ∈ EngineeringRoles;
  admitted_issue : (0 < u.(Unit_Issue))%Z;
  admitted_composition : effectiveExecutionKind u = ExecutionKindIntegrationCompose →
    (2 <= length u.(Unit_DependsOn))%nat ∧ u.(Unit_RequiresReview) = false
}.

Lemma boundedField_ok name value limit u :
  boundedField name value limit = Ok u →
  blank value = false ∧ (len value <= limit)%nat ∧ ValidString value = true.
Proof.
  unfold boundedField. intros Hb. invert_ok. split; [done|].
  match goal with H : (limit <? _) = false |- _ => apply Nat.ltb_ge in H end.
  split; [done|]. by apply negb_false_iff.
Qed.

Lemma admit_unit_ok shared byID issues u s :
  admit_unit shared (byID, issues) u = Ok s →
  admitted_unit u ∧ byID !! u.(Unit_ID) = None ∧ s = (<[u.(Unit_ID) := u]> byID, <[u.(Unit_Issue) := u.(Unit_ID)]> issues)
  ∧ (shared = false → issues !! u.(Unit_Issue) = None).
Proof.
  unfold admit_unit. intros Ha. invert_ok.
  repeat match goal with H : boundedField _ _ _ = Ok _ |- _ => apply boundedField_ok in H as (? & ? & _) end.
  repeat match goal with H : negb _ = false |- _ => apply negb_false_iff in H end.
  match goal with H : bool_decide (byID !! _ = None) = true |- _ => apply bool_decide_eq_true in H; rename H into Hid end.
  match goal with H : KnownRole _ = true |- _ => unfold KnownRole in H; apply existsb_elem in H as (r & Hr & Hre) end.
  apply bool_decide_eq_true in Hre as ->.
  match goal with H : (Unit_Issue u <=? 0)%Z = false |- _ => apply Z.leb_gt in H end.
  split; [|split; [done|split; [done|]]].
  - split; [done|done|done|done|]. intros He.
    match goal with H : bool_decide (effectiveExecutionKind u = _) && _ = false |- _ =>
      rewrite He, bool_decide_eq_true_2 in H by done; simpl in H; apply Nat.ltb_ge in H end.
    match goal with H : Unit_RequiresReview u && _ = false |- _ =>
      rewrite He, bool_decide_eq_true_2, andb_true_r in H by done end. done.
  - intros ->. destruct (issues !! Unit_Issue u); [|done].
    match goal with H : refuse_if _ _ = Ok _ |- _ => done end.
Qed.

Lemma admit_units_ok shared units s :
  for_each (admit_unit shared) units (∅, ∅) = Ok s →
  NoDup (ids units) ∧ (∀ u, u ∈ units → admitted_unit u)
  ∧ (shared = false → NoDup (Unit_Issue <$> units))
  ∧ (∀ k, is_Some (s.1 !! k) ↔ k ∈ ids units).
Proof.
  intros Hf.
  apply (for_each_ind _ (λ done s, NoDup (ids done) ∧ (∀ u, u ∈ done → admitted_unit u)
    ∧ (shared = false → NoDup (Unit_Issue <$> done) ∧ ∀ i, i ∈ (Unit_Issue <$> done) → is_Some (s.2 !! i))
    ∧ (∀ k, is_Some (s.1 !! k) ↔ k ∈ ids done))) in Hf.
  - destruct Hf as (K1 & K2 & K3 & K4). split_and!; try done. intros Hs. by apply K3.
  - split_and!; [constructor|by intros u ?%not_elem_of_nil| |].
    + intros _. split; [constructor|]. by intros i ?%not_elem_of_nil.
    + intros k. simpl. rewrite lookup_empty, elem_of_nil. split; [by intros [? ?]|done].
  - intros done u rest [byID issues] s2 _ (K1 & K2 & K3 & K4) Hs.
    apply admit_unit_ok in Hs as (Ha & Hid & -> & Hi). simpl in *.
    assert (Unit_ID u ∉ ids done) as Hni by (rewrite <- K4, Hid; by intros [? ?]).
    unfold ids in *. rewrite !fmap_app. simpl. split_and!.
    + apply NoDup_app. split_and!; [done| |apply NoDup_singleton]. intros x Hx ->%list_elem_of_singleton. done.
    + intros v [?| ->%list_elem_of_singleton]%elem_of_app; auto.
    + intros Hsh. destruct (K3 Hsh) as [K5 K6]. split.
      * apply NoDup_app. split_and!; [done| |apply NoDup_singleton]. intros x Hx ->%list_elem_of_singleton.
        apply K6 in Hx. rewrite (Hi Hsh) in Hx. by destruct Hx.
      * intros i. rewrite elem_of_app, list_elem_of_singleton, lookup_insert_is_Some.
        destruct (decide (Unit_Issue u = i)); naive_solver.
    + intros k. rewrite lookup_insert_is_Some, elem_of_app, list_elem_of_singleton, K4.
      destruct (decide (Unit_ID u = k)); naive_solver.
Qed.

Lemma admit_dependencies_ok byID u s :
  for_each (admit_dependency byID u) u.(Unit_DependsOn) ∅ = Ok s →
  NoDup u.(Unit_DependsOn) ∧ ∀ d, d ∈ u.(Unit_DependsOn) → d ≠ u.(Unit_ID) ∧ is_Some (byID !! d).
Proof.
  intros Hf.
  apply (for_each_ind _ (λ done s, NoDup done ∧ (∀ d, d ∈ done → d ≠ u.(Unit_ID) ∧ is_Some (byID !! d))
    ∧ ∀ d, d ∈ s ↔ d ∈ done)) in Hf; [naive_solver| |].
  - split_and!; [constructor|by intros d ?%not_elem_of_nil|]. intros d. rewrite elem_of_nil. set_solver.
  - intros done d rest s1 s2 _ (K1 & K2 & K3) Hs. unfold admit_dependency in Hs. invert_ok.
    repeat match goal with H : bool_decide _ = false |- _ => apply bool_decide_eq_false in H end.
    split_and!.
    + apply NoDup_app. split_and!; [done| |apply NoDup_singleton]. intros x Hx ->%list_elem_of_singleton.
      apply K3 in Hx. done.
    + intros x [?| ->%list_elem_of_singleton]%elem_of_app; [auto|]. split; [done|]. by apply not_eq_None_Some.
    + intros x. rewrite elem_of_union, elem_of_singleton, elem_of_app, list_elem_of_singleton, K3. tauto.
Qed.

Lemma Validate_inv g :
  Validate g = Ok tt →
  (∃ id, WorkGraphID g.(Graph_Repository) g.(Graph_AgentID) g.(Graph_Name) = Ok id ∧ id = g.(Graph_ID))
  ∧ (1 <= g.(Graph_Revision))%Z ∧ (1 <= length g.(Graph_Units) <= MaxWorkGraphUnits)%nat
  ∧ NoDup (ids g.(Graph_Units)) ∧ (∀ u, u ∈ g.(Graph_Units) → admitted_unit u ∧ NoDup u.(Unit_DependsOn))
  ∧ (g.(Graph_ObjectivePlan) = None → NoDup (Unit_Issue <$> g.(Graph_Units)))
  ∧ acyclic g.(Graph_Units)
  ∧ ∃ size, documentBytes g = Ok size ∧ (size <= MaxWorkGraphDocumentBytes)%nat.
Proof.
  unfold Validate. intros Hv. invert_ok.
  match goal with H : for_each _ _ _ = Ok ?s |- _ => rename H into Hunits; destruct s as [byID issues] end. invert_ok.
  match goal with H : check_all _ (Graph_Units g) = Ok _ |- _ => rewrite check_all_ok in H; rename H into Hdeps end.
  match goal with H : topologicalOrder _ = Ok _ |- _ => rename H into Htop end.
  match goal with H : documentBytes g = Ok ?n |- _ => rename H into Hsize; rename n into size end.
  apply admit_units_ok in Hunits as (Hnd & Hadm & Hiss & Hdom). simpl in Hdom.
  repeat match goal with
  | H : (_ <? _)%nat = false |- _ => apply Nat.ltb_ge in H
  | H : (_ <? _)%Z = false |- _ => apply Z.ltb_ge in H
  | H : (_ =? _)%nat = false |- _ => apply Nat.eqb_neq in H
  end.
  assert (∀ u, u ∈ Graph_Units g → NoDup u.(Unit_DependsOn)) as Hnds.
  { intros u Hu. specialize (Hdeps u Hu). invert_ok.
    match goal with H : for_each _ _ _ = Ok _ |- _ => by apply admit_dependencies_ok in H as [? _] end. }
  split_and!; try done; try lia.
  - match goal with H : WorkGraphID _ _ _ = Ok ?i |- _ => exists i; split; [done|] end.
    match goal with H : negb (bool_decide (_ = Graph_ID g)) = false |- _ => apply negb_false_iff, bool_decide_eq_true in H end. done.
  - intros u Hu. auto.
  - intros Hn. apply Hiss. by rewrite Hn.
  - by eapply topologicalOrder_acyclic.
  - by exists size.
Qed.
End admission.

(** Equality up to the order of dependencies and the spelling of the default
    execution kind. *)
Record unchanged (u v : WorkUnit) : Prop := {
  unchanged_id : v.(Unit_ID) = u.(Unit_ID);
  unchanged_issue : v.(Unit_Issue) = u.(Unit_Issue);
  unchanged_role : v.(Unit_Role) = u.(Unit_Role);
  unchanged_kind : effectiveExecutionKind v = effectiveExecutionKind u;
  unchanged_purpose : v.(Unit_Purpose) = u.(Unit_Purpose);
  unchanged_review : v.(Unit_RequiresReview) = u.(Unit_RequiresReview);
  unchanged_dependencies : v.(Unit_DependsOn) ≡ₚ u.(Unit_DependsOn)
}.

Lemma sameUnit_ok u v :
  v.(Unit_ID) = u.(Unit_ID) → sameUnit u v = true ↔ unchanged u v.
Proof.
  intros Hid. unfold sameUnit. destruct (_ || _)%bool eqn:Hb.
  - split; [done|]. intros [_ E1 E2 E3 E4 E5 E6]. exfalso.
    rewrite E1, E2, E3, E4, E5, (Permutation_length E6), !bool_decide_eq_true_2 in Hb by done. done.
  - repeat match goal with
    | H : (_ || _)%bool = false |- _ => apply orb_false_iff in H as [? ?]
    | H : negb (bool_decide _) = false |- _ => apply negb_false_iff, bool_decide_eq_true in H
    end.
    rewrite bool_decide_eq_true. unfold sortedCopy. split.
    + intros He. split; try done. rewrite <- (sort_strings_perm (Unit_DependsOn u)), He. by rewrite sort_strings_perm.
    + intros [_ _ _ _ _ _ Hp]. by rewrite Hp.
Qed.

Lemma units_by_id_lookup units k v :
  units_by_id units !! k = Some v → v ∈ units ∧ v.(Unit_ID) = k.
Proof.
  unfold units_by_id.
  assert (∀ m : gmap string WorkUnit, fold_left (λ byID unit, <[unit.(Unit_ID) := unit]> byID) units m !! k = Some v →
    (v ∈ units ∧ v.(Unit_ID) = k) ∨ m !! k = Some v) as Hg.
  { induction units as [|u l IH]; intros m; cbn [fold_left]; [by right|].
    intros [[? ?]|Hm]%IH; [left; split; [by constructor|done]|].
    apply lookup_insert_Some in Hm as [[<- ->]|[_ ?]]; [left; split; [constructor|done]|by right]. }
  intros [?|Hk]%Hg; [done|]. by rewrite lookup_empty in Hk.
Qed.

Lemma units_by_id_elem units u :
  NoDup (ids units) → u ∈ units → units_by_id units !! u.(Unit_ID) = Some u.
Proof.
  intros Hnd Hu. destruct (units_by_id units !! u.(Unit_ID)) as [v|] eqn:Hv.
  - apply units_by_id_lookup in Hv as [Hv He]. f_equal. by eapply NoDup_ids_inj.
  - exfalso. revert Hu Hv. clear Hnd. unfold units_by_id.
    enough (∀ m : gmap string WorkUnit, u ∈ units ∨ is_Some (m !! u.(Unit_ID)) →
      is_Some (fold_left (λ byID unit, <[unit.(Unit_ID) := unit]> byID) units m !! u.(Unit_ID))) as Hg.
    { intros Hu Hv. specialize (Hg ∅ (or_introl Hu)). rewrite Hv in Hg. by apply is_Some_None in Hg. }
    induction units as [|v l IH]; intros m; cbn [fold_left]; [by intros [?%not_elem_of_nil|?]|].
    intros H. apply IH. rewrite lookup_insert_is_Some'. destruct H as [[->|?]%elem_of_cons|?]; auto.
Qed.

(** A Go [int]. *)
Definition int64 (z : Z) : Prop := (- 2 ^ 63 <= z < 2 ^ 63)%Z.

Section admission_theorems.
Context `{!MapRange, !Canonicalizer, !GoUnicode}.

(** An admitted revision is one this build can advance: its identity is
    the one of its repository, agent and name; it has between 1 and 32
    units with distinct identities, known roles and positive issues, no two
    on one issue unless a plan binds it; every dependency names another
    unit once and the dependencies are acyclic; a composition has at least
    two inputs and no review; and its document fits one request. *)
Theorem Validate_admits g :
  Validate g = Ok tt →
  WorkGraphID g.(Graph_Repository) g.(Graph_AgentID) g.(Graph_Name) = Ok g.(Graph_ID)
  ∧ (1 <= g.(Graph_Revision))%Z ∧ (1 <= length g.(Graph_Units) <= 32)%nat
  ∧ NoDup (ids g.(Graph_Units)) ∧ (∀ u, u ∈ g.(Graph_Units) → admitted_unit u ∧ NoDup u.(Unit_DependsOn))
  ∧ (g.(Graph_ObjectivePlan) = None → NoDup (Unit_Issue <$> g.(Graph_Units)))
  ∧ acyclic g.(Graph_Units)
  ∧ ∃ size, documentBytes g = Ok size ∧ (size <= 6144)%nat.
Proof. intros ((id & Hid & <-) & Hrest)%Validate_inv. done. Qed.

(** An admitted mutation appends one revision to the same graph and
    freezes what has started: every activated unit is still there, with its
    issue, role, execution kind, purpose, dependencies and review
    requirement; and the revision number did not wrap around. *)
Theorem ValidateMutation_frozen current next activated :
  ValidateMutation current next activated = Ok tt → int64 current.(Graph_Revision) →
  next.(Graph_ID) = current.(Graph_ID) ∧ next.(Graph_Revision) = (current.(Graph_Revision) + 1)%Z
  ∧ acyclic next.(Graph_Units)
  ∧ ∀ u, u ∈ current.(Graph_Units) → activated !! u.(Unit_ID) = Some true →
      ∃ v, v ∈ next.(Graph_Units) ∧ unchanged u v.
Proof.
  unfold ValidateMutation. intros Hm Hrange. invert_ok.
  match goal with H : Validate next = Ok _ |- _ => apply Validate_inv in H as (_ & Hrev & _ & _ & _ & _ & Hac & _) end.
  rewrite check_all_ok in Hm.
  repeat match goal with
  | H : (_ || _)%bool = false |- _ => apply orb_false_iff in H as [? ?]
  | H : negb (bool_decide _) = false |- _ => apply negb_false_iff, bool_decide_eq_true in H
  end.
  split; [done|]. split; [|split; [done|]].
  - unfold int64 in Hrange.
    match goal with H : Graph_Revision next = wrap64 _ |- _ => rename H into Hw end.
    rewrite Hw in Hrev |- *. unfold wrap64 in *.
    destruct (decide (Graph_Revision current = 2 ^ 63 - 1)%Z) as [He|Hne].
    + rewrite He in Hrev. vm_compute in Hrev. by destruct Hrev.
    + rewrite Z.mod_small by lia. lia.
  - intros u Hu Hact. specialize (Hm u Hu). unfold frozen_unit in Hm. rewrite Hact in Hm. simpl in Hm.
    destruct (units_by_id _ !! _) as [v|] eqn:Hl; [|done].
    apply units_by_id_lookup in Hl as [Hv Hid]. exists v. split; [done|].
    apply refuse_if_ok, negb_false_iff in Hm. by apply sameUnit_ok.
Qed.
End admission_theorems.

(* ------------------------------------------------------------------ *)
(** * A concrete graph *)

Definition example_unit (id : string) (issue : Z) (deps : list string) : WorkUnit :=
  MkWorkUnit id "purpose" RoleImplementer "" issue deps false.

Definition example_units : list WorkUnit :=
  [example_unit "deploy" 3 ["build"; "test"]; example_unit "test" 2 ["build"]; example_unit "build" 1 []].

Definition example_proposal (revision : Z) (units : list WorkUnit) : WorkGraphProposal :=
  MkProposal "release" revision units.

Definition empty_graph : WorkGraph := MkWorkGraph "" "" "" "" "" 0 "" 0 [] None.

Definition composed (revision : Z) (units : list WorkUnit) : WorkGraph :=
  ok_or empty_graph (@Compose range_forward plain_canonicalizer ascii_unicode (example_proposal revision units)
    "owner/repo" "agent" "alice" 1).

Definition first_revision : WorkGraph := composed 1 example_units.
Definition second_revision : WorkGraph := composed 2 (reverse example_units ++ [example_unit "announce" 4 ["deploy"]]).

Example order_of_example :
  @topologicalOrder range_backward example_units = Ok ["build"; "test"; "deploy"].
Proof. vm_compute. reflexivity. Qed.

Example cycle_of_example :
  @topologicalOrder range_forward [example_unit "a" 1 ["b"]; example_unit "b" 2 ["a"]; example_unit "c" 3 []]
  = Err (Cycle ["a"; "b"]).
Proof. vm_compute. reflexivity. Qed.

(** A revision resubmitted with its units in another order. *)
Definition resubmitted (g : WorkGraph) : WorkGraph :=
  MkWorkGraph "" g.(Graph_ID) "" "" "" g.(Graph_Revision) "bob" 7 (reverse g.(Graph_Units)) None.

Lemma resubmitted_same g : same_revision g (resubmitted g).
Proof.
  split; [done|]. split; [done|]. exists (reverse g.(Graph_Units)). simpl.
  split; [by rewrite reverse_Permutation|].
  induction (reverse (Graph_Units g)) as [|u l IH]; constructor; [|done]. split; [by destruct u|done].
Qed.

Lemma RevisionDigest_same_witness :
  @RevisionDigest plain_canonicalizer first_revision = @RevisionDigest plain_canonicalizer (resubmitted first_revision).
Proof.
  apply RevisionDigest_same; [|apply resubmitted_same].
  apply (bool_decide_eq_true_1 _). vm_compute. reflexivity.
Defined.

Lemma Validate_admits_witness :
  @Validate range_forward plain_canonicalizer ascii_unicode first_revision = Ok tt
  ∧ acyclic first_revision.(Graph_Units).
Proof.
  assert (@Validate range_forward plain_canonicalizer ascii_unicode first_revision = Ok tt) as Hv
    by (vm_compute; reflexivity).
  split; [exact Hv|].
  destruct (@Validate_admits range_forward plain_canonicalizer ascii_unicode _ Hv) as (_ & _ & _ & _ & _ & _ & Ha & _).
  exact Ha.
Defined.

Lemma ValidateMutation_frozen_witness :
  @ValidateMutation range_forward plain_canonicalizer ascii_unicode first_revision second_revision
    (<["build" := true]> ∅) = Ok tt
  ∧ second_revision.(Graph_Revision) = 2%Z
  ∧ second_revision.(Graph_ID) = first_revision.(Graph_ID).
Proof.
  assert (@ValidateMutation range_forward plain_canonicalizer ascii_unicode first_revision second_revision
    (<["build" := true]> ∅) = Ok tt) as Hm by (vm_compute; reflexivity).
  split; [exact Hm|]. split; [vm_compute; reflexivity|].
  refine (proj1 (@ValidateMutation_frozen range_forward plain_canonicalizer ascii_unicode _ _ _ Hm _)).
  assert (Graph_Revision first_revision = 1%Z) as -> by (vm_compute; reflexivity).
  split; [discriminate|reflexivity].
Defined.
