(* ===== verification/Projection.v ===== *)
(** Graph progression: [orchestration/workgraph_projection.go] and
    [orchestration/remediation.go].  Every unit's state is recomputed from
    the graph document, the activation records and the child runs. *)

From S2P Require Import Prelude GoStrings Sha256 Domain Canonical Item Topo WorkGraph.
From stdpp Require Import options.

(* ------------------------------------------------------------------ *)
(** * Remediation postures *)

Definition EpochRunning : string := "running".
Definition EpochCompletedAdmitted : string := "completed_admitted".
Definition EpochCompletedNoOutput : string := "completed_no_output".
Definition EpochFailed : string := "failed".
Definition EpochCancelled : string := "cancelled".

Definition DeriveEpochOutcome (termination : string) (hasAdmittedOutput : bool) : string :=
  if termination ≟ RunCancelled then EpochCancelled
  else if termination ≟ RunFailed then EpochFailed
  else if termination ≟ RunCompleted then
    if hasAdmittedOutput then EpochCompletedAdmitted else EpochCompletedNoOutput
  else EpochRunning.

Definition RemediationNone : string := "none".
Definition RemediationPendingDecision : string := "pending_decision".
Definition RemediationRunning : string := "running".
Definition RemediationExhaustedUnresolved : string := "exhausted_unresolved".
Definition RemediationResolved : string := "resolved".

Definition DeriveRemediationState (latestAttemptOutcome : string)
  (hasLivePendingDecision triggeringFindingDismissed effectiveCeilingReached : bool) : string :=
  if triggeringFindingDismissed then RemediationResolved
  else if latestAttemptOutcome ≟ EpochCompletedAdmitted then RemediationResolved
  else if latestAttemptOutcome ≟ EpochRunning then RemediationRunning
  else if hasLivePendingDecision then RemediationPendingDecision
  else if effectiveCeilingReached then RemediationExhaustedUnresolved
  else RemediationPendingDecision.

(* ------------------------------------------------------------------ *)
(** * Outputs and inputs *)

Record UnitOutput := MkUnitOutput {
  Output_HandoffID : string;
  Output_RunID : string;
  Output_CandidateRevision : string;
  Output_CandidateTree : string;
  Output_Outcome : string;
  Output_Summary : string;
  Output_Unresolved : list string;
  Output_RecommendedNext : list string
}.

(** [WorkUnitInput] embeds the output. *)
Record WorkUnitInput := MkWorkUnitInput {
  Input_UnitID : string;
  Input_Output : UnitOutput
}.

#[export] Instance UnitOutput_eq : EqDecision UnitOutput.
Proof. solve_decision. Defined.
#[export] Instance WorkUnitInput_eq : EqDecision WorkUnitInput.
Proof. solve_decision. Defined.

Definition DownstreamDependencySatisfaction (state : string) (currentEffectiveOutput : option UnitOutput)
  : option UnitOutput :=
  if (state ≟ RemediationNone) || (state ≟ RemediationResolved) then currentEffectiveOutput else None.

Definition EpochAuthorizationPurpose : string := "epoch_authorization".
Definition EpochAuthorizationApprove : string := "approve".
Definition EpochAuthorizationReject : string := "reject".
Definition EpochAuthorizationDismiss : string := "dismiss".

Definition EpochAuthorizationPermittedOptions : list string :=
  [EpochAuthorizationApprove; EpochAuthorizationReject; EpochAuthorizationDismiss].

Definition EpochAuthorizationRequestID `{!Canonicalizer} (graphID unitID findingID : string) (proposedEpoch : Z)
  : result CanonicalError string :=
  let? digest := Digest (GStruct [("graph", GString graphID); ("unit", GString unitID);
    ("finding", GString findingID); ("epoch", GInt proposedEpoch)]) in
  Ok ("message-epoch-auth-" +:+ take_bytes 32 digest).

Inductive InputsError :=
  | TooManyInputs (n : nat)
  | MissingInputField (unit name : string)
  | DuplicateInput (unit : string).

Definition input_fields (input : WorkUnitInput) : gmap string string :=
  let output := input.(Input_Output) in
  <["unit_id" := input.(Input_UnitID)]> (<["run_id" := output.(Output_RunID)]>
  (<["handoff_id" := output.(Output_HandoffID)]> (<["candidate_revision" := output.(Output_CandidateRevision)]>
  (<["candidate_tree" := output.(Output_CandidateTree)]> ∅)))).

Definition check_input `{!MapRange} (seen : gset string) (input : WorkUnitInput) : result InputsError (gset string) :=
  check_all (λ '(name, value), refuse_if (blank value) (MissingInputField input.(Input_UnitID) name))
    (range (input_fields input)) ;?
  refuse_if (bool_decide (input.(Input_UnitID) ∈ seen)) (DuplicateInput input.(Input_UnitID)) ;?
  Ok ({[input.(Input_UnitID)]} ∪ seen).

(** [WorkUnitInputs.Validate]. *)
Definition validate_inputs `{!MapRange} (inputs : list WorkUnitInput) : result InputsError () :=
  refuse_if (MaxWorkGraphUnits <? length inputs) (TooManyInputs (length inputs)) ;?
  for_each check_input inputs ∅ ;? Ok tt.

(** [WorkUnitInputs.canonical]. *)
Definition canonical_inputs (inputs : list WorkUnitInput) : list WorkUnitInput := sort_by Input_UnitID inputs.

Definition input_value (input : WorkUnitInput) : GoValue :=
  let output := input.(Input_Output) in
  GStruct ([("unit_id", GString input.(Input_UnitID)); ("handoff_id", GString output.(Output_HandoffID));
    ("run_id", GString output.(Output_RunID)); ("candidate_revision", GString output.(Output_CandidateRevision));
    ("candidate_tree", GString output.(Output_CandidateTree)); ("outcome", GString output.(Output_Outcome));
    ("summary", GString output.(Output_Summary))]
    ++ omit_if (length output.(Output_Unresolved) =? 0) "unresolved" (GList (GString <$> output.(Output_Unresolved)))
    ++ omit_if (length output.(Output_RecommendedNext) =? 0) "recommended_next"
         (GList (GString <$> output.(Output_RecommendedNext)))).

(** [WorkUnitInputs.Digest]: the copy of an empty list is nil, whose JSON is
    null. *)
Definition inputs_digest `{!Canonicalizer} (inputs : list WorkUnitInput) : result CanonicalError string :=
  Digest (if length inputs =? 0 then GNil else GList (input_value <$> canonical_inputs inputs)).

(* ------------------------------------------------------------------ *)
(** * Facts and projections *)

Definition UnitBlocked : string := "blocked".
Definition UnitReady : string := "ready".
Definition UnitUnknown : string := "unknown".
Definition UnitAwaitingDecision : string := "awaiting_decision".
Definition UnitInvalidated : string := "invalidated".

Record DecisionWait := MkDecisionWait {
  Wait_Reference : string;
  Wait_Detail : string
}.

#[export] Instance DecisionWait_eq : EqDecision DecisionWait.
Proof. solve_decision. Defined.

Record UnitFacts := MkUnitFacts {
  Facts_Activated : bool;
  Facts_ActivationInputsDigest : string;
  Facts_Item : string;
  Facts_Terminal : bool;
  Facts_Unreadable : bool;
  Facts_UnreadableReason : string;
  Facts_Output : option UnitOutput;
  Facts_AwaitingDecision : option DecisionWait;
  Facts_ReviewApproved : bool;
  Facts_RemediationState : string
}.

(** The zero value a missing key reads as. *)
Definition no_facts : UnitFacts := MkUnitFacts false "" "" false false "" None None false "".

Definition facts_of (facts : gmap string UnitFacts) (id : string) : UnitFacts := default no_facts (facts !! id).

Record UnitProjection := MkUnitProjection {
  Projection_State : string;
  Projection_Reason : string;
  Projection_InputsDigest : string;
  Projection_Inputs : list WorkUnitInput;
  Projection_AwaitingDecision : option DecisionWait;
  Projection_RemediationState : string
}.

Definition no_projection : UnitProjection := MkUnitProjection "" "" "" [] None "".

Record WorkGraphProjection := MkWorkGraphProjection {
  Projection_Units : gmap string UnitProjection;
  Projection_Frontier : list string
}.

(** [NilOutput] stands for the nil dereference of [currentInputs]; no input
    reaches it. *)
Inductive ProjectionError :=
  | GraphRefused (e : WorkGraphError)
  | InputsRefused (e : CanonicalError)
  | CompletedWithoutOutput (id : string)
  | NilOutput (dependency : string).

Definition maxHoldDetailBytes : nat := 200.

Section Projection.
Context `{!GoUnicode}.

Definition boundedHoldReason (hold : DecisionWait) : string :=
  let detail := TrimSpace hold.(Wait_Detail) in
  let detail := if maxHoldDetailBytes <? len detail then take_bytes maxHoldDetailBytes detail else detail in
  if detail ≟ "" then "held on unresolved decision " +:+ Quote hold.(Wait_Reference)
  else "held on unresolved decision " +:+ Quote hold.(Wait_Reference) +:+ ": " +:+ detail.

Definition neverSatisfiable (state : string) : bool :=
  (state ≟ ItemFailed) || (state ≟ ItemStopped) || (state ≟ UnitInvalidated).

Definition unsatisfiedReason (dependency state : string) (dead : bool) : string :=
  if dead then "dependency " +:+ Quote dependency +:+ " is " +:+ state +:+ " and will never transfer an admitted handoff"
  else "dependency " +:+ Quote dependency +:+ " is " +:+ state +:+ " and has transferred no admitted handoff yet".

Definition item_states : list string :=
  [ItemNotCreated; ItemQueued; ItemRunning; ItemWaiting; ItemHandoffPending;
   ItemCompleted; ItemPartial; ItemFailed; ItemStopped].

(** The child state, or the text of the refusal. *)
Definition unitStateOf (item : string) : result string string :=
  if item_states ∋? item then Ok item
  else Err ("unrecognized child item state " +:+ Quote item).

(** What [ProjectWorkGraph] has decided so far. *)
Record decided := MkDecided {
  decided_units : gmap string UnitProjection;
  decided_frontier : list string;
  decided_satisfied : gmap string bool;
  decided_dead : gmap string bool
}.

Definition nothing_decided : decided := MkDecided ∅ [] ∅ ∅.

Definition flag (m : gmap string bool) (id : string) : bool := default false (m !! id).

(** The state of the loop of [currentInputs]: [inputs], [waiting] and
    [settled]. *)
Record gathered := MkGathered {
  gathered_inputs : list WorkUnitInput;
  gathered_waiting : string;
  gathered_settled : string
}.

Definition gather (facts : gmap string UnitFacts) (st : decided) (g : gathered) (dependency : string)
  : result ProjectionError gathered :=
  if negb (flag st.(decided_satisfied) dependency) then
    let state := (default no_projection (st.(decided_units) !! dependency)).(Projection_State) in
    let dead := flag st.(decided_dead) dependency in
    Ok (MkGathered g.(gathered_inputs)
          (if g.(gathered_waiting) ≟ "" then unsatisfiedReason dependency state dead else g.(gathered_waiting))
          (if (g.(gathered_settled) ≟ "") && dead then unsatisfiedReason dependency state true
           else g.(gathered_settled)))
  else
    let? output := of_option (NilOutput dependency) (facts_of facts dependency).(Facts_Output) in
    Ok (MkGathered (g.(gathered_inputs) ++ [MkWorkUnitInput dependency output])
          g.(gathered_waiting) g.(gathered_settled)).

(** [currentInputs]: the inputs, the reason and whether it is settled. *)
Definition currentInputs (unit : WorkUnit) (facts : gmap string UnitFacts) (st : decided)
  : result ProjectionError (list WorkUnitInput * string * bool) :=
  let? g := for_each (gather facts st) (sortedCopy unit.(Unit_DependsOn)) (MkGathered [] "" "") in
  if g.(gathered_settled) ≠? "" then Ok ([], g.(gathered_settled), true)
  else if g.(gathered_waiting) ≠? "" then Ok ([], g.(gathered_waiting), false)
  else Ok (canonical_inputs g.(gathered_inputs), "", false).

(** One iteration of the loop of [ProjectWorkGraph]: the projection of the
    unit, whether it joins the frontier, and the value of [satisfied] the
    default case sets. *)
Definition decide_state (unit : WorkUnit) (fact : UnitFacts) (inputs : list WorkUnitInput) (reason digest : string)
  : result ProjectionError (UnitProjection * bool * option bool) :=
  let plain state reason := MkUnitProjection state reason "" [] None "" in
  if negb fact.(Facts_Activated) && (reason ≠? "") then Ok (plain UnitBlocked reason, false, None)
  else match fact.(Facts_Activated), fact.(Facts_AwaitingDecision) with
  | false, Some hold =>
      Ok (MkUnitProjection UnitAwaitingDecision (boundedHoldReason hold) digest inputs (Some hold) "", false, None)
  | false, None => Ok (MkUnitProjection UnitReady "" digest inputs None "", true, None)
  | true, _ =>
      if fact.(Facts_Unreadable) then Ok (plain UnitUnknown fact.(Facts_UnreadableReason), false, None)
      else match unitStateOf fact.(Facts_Item) with
      | Err text => Ok (plain UnitUnknown text, false, None)
      | Ok state =>
          if reason ≠? "" then
            Ok (plain UnitInvalidated ("activated against upstream output that no longer holds: " +:+ reason), false, None)
          else if fact.(Facts_ActivationInputsDigest) ≠? digest then
            Ok (MkUnitProjection UnitInvalidated
                  "an upstream output was replaced after this unit was activated against it" digest inputs None "",
                false, None)
          else
            refuse_if ((fact.(Facts_Item) ≟ ItemCompleted) && bool_decide (fact.(Facts_Output) = None))
              (CompletedWithoutOutput unit.(Unit_ID)) ;?
            Ok (MkUnitProjection state "" digest inputs None fact.(Facts_RemediationState), false,
                Some ((fact.(Facts_Item) ≟ ItemCompleted)
                      && (negb unit.(Unit_RequiresReview) || fact.(Facts_ReviewApproved))))
      end
  end.

Context `{!Canonicalizer}.

Definition decide_unit (byID : gmap string WorkUnit) (facts : gmap string UnitFacts) (st : decided) (id : string)
  : result ProjectionError decided :=
  let unit := default (MkWorkUnit "" "" "" "" 0 [] false) (byID !! id) in
  let fact := facts_of facts id in
  let? (inputs, reason, settled) := currentInputs unit facts st in
  let? digest := (if reason ≟ "" then wrap InputsRefused (inputs_digest inputs) else Ok "") in
  let? (projection, ready, sat) := decide_state unit fact inputs reason digest in
  let satisfied := match sat with
                   | Some b => <[id := b]> st.(decided_satisfied)
                   | None => st.(decided_satisfied)
                   end in
  Ok (MkDecided (<[id := projection]> st.(decided_units))
        (st.(decided_frontier) ++ (if ready then [id] else []))
        satisfied
        (<[id := settled || neverSatisfiable projection.(Projection_State)
                 || (fact.(Facts_Activated) && fact.(Facts_Terminal) && negb (flag satisfied id))]> st.(decided_dead))).

Context `{!MapRange}.

Definition ProjectWorkGraph (graph : WorkGraph) (facts : gmap string UnitFacts)
  : result ProjectionError WorkGraphProjection :=
  let? order := wrap GraphRefused (topologicalOrder graph.(Graph_Units)) in
  let? st := for_each (decide_unit (units_by_id graph.(Graph_Units)) facts) order nothing_decided in
  Ok (MkWorkGraphProjection st.(decided_units) (sort_strings st.(decided_frontier))).
End Projection.

Record WorkGraphCounts := MkWorkGraphCounts {
  Graph_Total : Z;
  Graph_Blocked : Z;
  Graph_Ready : Z;
  Graph_Invalidated : Z;
  Graph_Unknown : Z;
  Graph_AwaitingDecision : Z;
  Graph_Activated : Counts
}.

(** [WorkGraphCounts.Add]. *)
Definition count_state (c : WorkGraphCounts) (state : string) : WorkGraphCounts :=
  let bump (b : bool) (n : Z) := if b then (n + 1)%Z else n in
  let own := [UnitBlocked; UnitReady; UnitInvalidated; UnitUnknown; UnitAwaitingDecision] in
  MkWorkGraphCounts (c.(Graph_Total) + 1) (bump (state ≟ UnitBlocked) c.(Graph_Blocked))
    (bump (state ≟ UnitReady) c.(Graph_Ready)) (bump (state ≟ UnitInvalidated) c.(Graph_Invalidated))
    (bump (state ≟ UnitUnknown) c.(Graph_Unknown)) (bump (state ≟ UnitAwaitingDecision) c.(Graph_AwaitingDecision))
    (if own ∋? state then c.(Graph_Activated) else Add c.(Graph_Activated) state).

(* ------------------------------------------------------------------ *)
(** * What progression means

    A declarative account of the same facts, which does not mention the order
    the loop walks the units in. *)

Section Progress.
Context `{!GoUnicode, !Canonicalizer}.
Variables (units : list WorkUnit) (facts : gmap string UnitFacts).

Definition fact_of (unit : WorkUnit) : UnitFacts := facts_of facts unit.(Unit_ID).

(** What the dependencies of a unit present now. *)
Definition consumed (unit : WorkUnit) : list WorkUnitInput :=
  canonical_inputs (omap (λ d, MkWorkUnitInput d <$> (facts_of facts d).(Facts_Output)) (sortedCopy unit.(Unit_DependsOn))).

Definition unchanged_inputs (unit : WorkUnit) : Prop :=
  inputs_digest (consumed unit) = Ok (fact_of unit).(Facts_ActivationInputsDigest).

Definition reporting (unit : WorkUnit) : Prop :=
  (fact_of unit).(Facts_Activated) = true ∧ (fact_of unit).(Facts_Unreadable) = false
  ∧ unitStateOf (fact_of unit).(Facts_Item) = Ok (fact_of unit).(Facts_Item).

Definition admitted_output (unit : WorkUnit) : Prop :=
  reporting unit ∧ (fact_of unit).(Facts_Item) = ItemCompleted ∧ unchanged_inputs unit
  ∧ (unit.(Unit_RequiresReview) = true → (fact_of unit).(Facts_ReviewApproved) = true).

(** A unit is satisfied when its completed child still stands on satisfied
    dependencies. *)
Inductive Satisfied : string → Prop :=
  | Satisfied_unit unit :
      unit ∈ units → (∀ d, d ∈ unit.(Unit_DependsOn) → Satisfied d) → admitted_output unit →
      Satisfied unit.(Unit_ID).

Definition met (unit : WorkUnit) : Prop := ∀ d, d ∈ unit.(Unit_DependsOn) → Satisfied d.

Definition stuck_child (unit : WorkUnit) : Prop :=
  reporting unit ∧ (¬ (met unit ∧ unchanged_inputs unit) ∨ (fact_of unit).(Facts_Item) ∈ [ItemFailed; ItemStopped]).

(** What the source calls dead. *)
Inductive Dead : string → Prop :=
  | Dead_dependency unit d : unit ∈ units → d ∈ unit.(Unit_DependsOn) → Dead d → Dead unit.(Unit_ID)
  | Dead_child unit : unit ∈ units → stuck_child unit → Dead unit.(Unit_ID)
  | Dead_terminal unit :
      unit ∈ units → (fact_of unit).(Facts_Activated) = true → (fact_of unit).(Facts_Terminal) = true →
      ¬ Satisfied unit.(Unit_ID) → Dead unit.(Unit_ID).

(** The reason names an unsatisfied dependency, a dead one if there is
    any. *)
Definition starved (m : gmap string UnitProjection) (unit : WorkUnit) (reason : string) : Prop :=
  ∃ d projection, d ∈ unit.(Unit_DependsOn) ∧ ¬ Satisfied d ∧ m !! d = Some projection
    ∧ ((Dead d ∧ reason = unsatisfiedReason d projection.(Projection_State) true)
       ∨ ((∀ d', d' ∈ unit.(Unit_DependsOn) → ¬ Dead d')
          ∧ reason = unsatisfiedReason d projection.(Projection_State) false)).

Definition bare (state reason : string) : UnitProjection := MkUnitProjection state reason "" [] None "".

(** The rule table of the graph's states. *)
Inductive Decided (m : gmap string UnitProjection) (unit : WorkUnit) : UnitProjection → Prop :=
  | Decided_blocked reason :
      (fact_of unit).(Facts_Activated) = false → ¬ met unit → starved m unit reason →
      Decided m unit (bare UnitBlocked reason)
  | Decided_held hold digest :
      (fact_of unit).(Facts_Activated) = false → met unit → (fact_of unit).(Facts_AwaitingDecision) = Some hold →
      inputs_digest (consumed unit) = Ok digest →
      Decided m unit
        (MkUnitProjection UnitAwaitingDecision (boundedHoldReason hold) digest (consumed unit) (Some hold) "")
  | Decided_ready digest :
      (fact_of unit).(Facts_Activated) = false → met unit → (fact_of unit).(Facts_AwaitingDecision) = None →
      inputs_digest (consumed unit) = Ok digest →
      Decided m unit (MkUnitProjection UnitReady "" digest (consumed unit) None "")
  | Decided_unreadable :
      (fact_of unit).(Facts_Activated) = true → (fact_of unit).(Facts_Unreadable) = true →
      Decided m unit (bare UnitUnknown (fact_of unit).(Facts_UnreadableReason))
  | Decided_unrecognized text :
      (fact_of unit).(Facts_Activated) = true → (fact_of unit).(Facts_Unreadable) = false →
      unitStateOf (fact_of unit).(Facts_Item) = Err text → Decided m unit (bare UnitUnknown text)
  | Decided_starved reason :
      reporting unit → ¬ met unit → starved m unit reason →
      Decided m unit (bare UnitInvalidated ("activated against upstream output that no longer holds: " +:+ reason))
  | Decided_replaced digest :
      reporting unit → met unit → inputs_digest (consumed unit) = Ok digest →
      digest ≠ (fact_of unit).(Facts_ActivationInputsDigest) →
      Decided m unit
        (MkUnitProjection UnitInvalidated
           "an upstream output was replaced after this unit was activated against it" digest (consumed unit) None "")
  | Decided_carried :
      reporting unit → met unit → unchanged_inputs unit →
      ((fact_of unit).(Facts_Item) = ItemCompleted → (fact_of unit).(Facts_Output) ≠ None) →
      Decided m unit
        (MkUnitProjection (fact_of unit).(Facts_Item) "" (fact_of unit).(Facts_ActivationInputsDigest)
           (consumed unit) None (fact_of unit).(Facts_RemediationState)).
End Progress.

(* ------------------------------------------------------------------ *)
(** * The inputs of one unit *)

Lemma unsatisfiedReason_nonempty `{!GoUnicode} dependency state dead : unsatisfiedReason dependency state dead ≠ "".
Proof. by destruct dead. Qed.

Section gathering.
Context `{!GoUnicode} (facts : gmap string UnitFacts) (st : decided).

Local Notation sat := (flag st.(decided_satisfied)).
Local Notation is_dead := (flag st.(decided_dead)).
Local Notation state_of d := (default no_projection (st.(decided_units) !! d)).(Projection_State).

(** [waiting] and [settled] are empty exactly while no dependency sets
    them, and name the dependency that did. *)
Record gathered_from (l : list string) (g : gathered) : Prop := {
  from_inputs : g.(gathered_inputs)
    = omap (λ d, MkWorkUnitInput d <$> (facts_of facts d).(Facts_Output)) (filter (λ d, sat d = true) l);
  from_waiting : (g.(gathered_waiting) = "" ∧ ∀ d, d ∈ l → sat d = true)
    ∨ ∃ d, d ∈ l ∧ sat d = false ∧ g.(gathered_waiting) = unsatisfiedReason d (state_of d) (is_dead d);
  from_settled : (g.(gathered_settled) = "" ∧ ∀ d, d ∈ l → sat d = false → is_dead d = false)
    ∨ ∃ d, d ∈ l ∧ sat d = false ∧ is_dead d = true
      ∧ g.(gathered_settled) = unsatisfiedReason d (state_of d) true
}.

Lemma gather_step l g d g' :
  gathered_from l g → gather facts st g d = Ok g' → gathered_from (l ++ [d]) g'.
Proof.
  intros [Hi Hw Hs]. unfold gather. destruct (sat d) eqn:Hd; simpl.
  - intros (output & Ho%of_option_ok & [= <-])%rbind_ok. split; simpl.
    + rewrite filter_app, omap_app, <- Hi, filter_cons_True by done. simpl. by rewrite Ho.
    + destruct Hw as [[-> Hw]|(d' & ? & ? & ?)]; [left; split; [done|]|right; exists d'; set_solver].
      intros d'. rewrite elem_of_app, list_elem_of_singleton. intros [?| ->]; auto.
    + destruct Hs as [[-> Hs]|(d' & ? & ? & ? & ?)]; [left; split; [done|]|right; exists d'; set_solver].
      intros d'. rewrite elem_of_app, list_elem_of_singleton. intros [?| ->]; [auto|congruence].
  - intros [= <-]. split; simpl.
    + by rewrite filter_app, omap_app, <- Hi, filter_cons_False, app_nil_r by congruence.
    + right. destruct Hw as [[-> Hw]|(d' & ? & ? & He)]; [exists d; set_solver|].
      exists d'. rewrite bool_decide_eq_false_2 by (rewrite He; apply unsatisfiedReason_nonempty). set_solver.
    + destruct Hs as [[-> Hs]|(d' & ? & ? & ? & He)].
      * rewrite bool_decide_eq_true_2 by done. simpl. destruct (is_dead d) eqn:Hdd; [right; exists d; set_solver|].
        left. split; [done|]. intros d'. rewrite elem_of_app, list_elem_of_singleton. intros [?| ->]; auto.
      * right. exists d'. rewrite bool_decide_eq_false_2 by (rewrite He; apply unsatisfiedReason_nonempty). set_solver.
Qed.

Lemma currentInputs_ok unit inputs reason settled :
  currentInputs unit facts st = Ok (inputs, reason, settled) →
  (reason = "" ∧ settled = false ∧ inputs = consumed facts unit ∧ ∀ d, d ∈ unit.(Unit_DependsOn) → sat d = true)
  ∨ (reason ≠ "" ∧ ∃ d, d ∈ unit.(Unit_DependsOn) ∧ sat d = false
     ∧ reason = unsatisfiedReason d (state_of d) settled
     ∧ if settled then is_dead d = true
       else ∀ d', d' ∈ unit.(Unit_DependsOn) → sat d' = false → is_dead d' = false).
Proof.
  unfold currentInputs. intros (g & Hg & Hk)%rbind_ok.
  apply (for_each_ind (gather facts st) gathered_from) in Hg as [Hi Hw Hs];
    [| |intros; by eapply gather_step];
    [|split; [done|left|left]; (split; [done|]); intros ? []%not_elem_of_nil].
  assert (∀ d, d ∈ sortedCopy unit.(Unit_DependsOn) ↔ d ∈ unit.(Unit_DependsOn)) as Hd
    by (intros; apply elem_of_sort_strings).
  destruct Hs as [[Hs Hnd]|(d & Hdd & Hsat & Hdead & Hs)]; rewrite Hs in Hk.
  - rewrite bool_decide_eq_true_2 in Hk by done. simpl in Hk.
    destruct Hw as [[Hw Hall]|(d & Hdd & Hsat & Hw)]; rewrite Hw in Hk.
    + rewrite bool_decide_eq_true_2 in Hk by done. injection Hk as <- <- <-. left. split_and!; [done..| |].
      * rewrite Hi. unfold consumed. f_equal. f_equal. apply list_filter_all. intros d. apply Hall.
      * intros d. rewrite <- Hd. apply Hall.
    + rewrite bool_decide_eq_false_2 in Hk by apply unsatisfiedReason_nonempty. injection Hk as <- <- <-.
      right. split; [apply unsatisfiedReason_nonempty|]. exists d. rewrite <- Hd.
      split_and!; [done..| |by setoid_rewrite <- Hd]. by rewrite (Hnd d).
  - rewrite bool_decide_eq_false_2 in Hk by apply (unsatisfiedReason_nonempty _ _ true). injection Hk as <- <- <-.
    right. split; [apply (unsatisfiedReason_nonempty _ _ true)|]. exists d. by rewrite <- Hd.
Qed.

Lemma currentInputs_err unit e :
  currentInputs unit facts st = Err e →
  ∃ d, d ∈ unit.(Unit_DependsOn) ∧ sat d = true ∧ (facts_of facts d).(Facts_Output) = None ∧ e = NilOutput d.
Proof.
  unfold currentInputs. pose proof (for_each_outcome (gather facts st) (λ _ _, True)
    (sortedCopy unit.(Unit_DependsOn)) (MkGathered [] "" "") I (λ _ _ _ _ _ _ _ _, I)) as Ho.
  destruct (for_each _ _ _) as [g|e']; simpl; [by repeat case_match|].
  intros [= <-]. destruct Ho as (done & d & rest & g & Hl & _ & Hd). exists d.
  split; [|revert Hd; unfold gather; destruct (sat d); simpl; [|done]].
  - apply elem_of_sort_strings. unfold sortedCopy in Hl. rewrite Hl. set_solver.
  - destruct (Facts_Output _); [done|]. by intros [= <-].
Qed.
End gathering.

(* ------------------------------------------------------------------ *)
(** * One unit *)

(** States are distinct constants. *)
Ltac state_cases :=
  split_and!; try (split; [done || discriminate|]); first [done | discriminate | by intros [? _]].

Lemma unitStateOf_spec `{!GoUnicode} item :
  (unitStateOf item = Ok item ∧ item ∈ item_states)
  ∨ ∃ text, unitStateOf item = Err text.
Proof.
  unfold unitStateOf. destruct (bool_decide _) eqn:Hb; [left|right; eauto].
  split; [done|]. by apply bool_decide_eq_true in Hb.
Qed.

Section one_unit.
Context `{!GoUnicode, !Canonicalizer} (units : list WorkUnit) (facts : gmap string UnitFacts).
Hypothesis Hnodup : NoDup (ids units).
Set Default Proof Using "All".

Local Notation Satisfied := (Satisfied units facts).
Local Notation Dead := (Dead units facts).

Lemma Satisfied_iff unit :
  unit ∈ units → Satisfied unit.(Unit_ID) ↔ met units facts unit ∧ admitted_output facts unit.
Proof.
  intros Hu. split; [|intros [? ?]; by constructor].
  intros Hs. inversion Hs as [v Hv Hmet Hout He]. assert (v = unit) as -> by by eapply NoDup_ids_inj. done.
Qed.

Lemma Dead_not_Satisfied id : Dead id → ¬ Satisfied id.
Proof.
  induction 1 as [u d Hu Hd _ IH|u Hu [Hr Hstuck]|u Hu _ _ Hns]; [..|done];
    intros (Hmet & _ & Hitem & Hsame & _)%Satisfied_iff; [|done| |done].
  - by apply IH, Hmet.
  - destruct Hstuck as [Hn|Hf]; [by apply Hn|]. rewrite Hitem in Hf. by apply (bool_decide_eq_true_2 _) in Hf.
Qed.

(** [decide_state] is the rule table, when the inputs it is given are
    right. *)
Lemma decide_state_ok m unit inputs reason digest projection ready sat :
  (reason = "" → met units facts unit ∧ inputs = consumed facts unit ∧ inputs_digest (consumed facts unit) = Ok digest) →
  (reason ≠ "" → ¬ met units facts unit ∧ starved units facts m unit reason) →
  decide_state unit (fact_of facts unit) inputs reason digest = Ok (projection, ready, sat) →
  Decided units facts m unit projection
  ∧ (ready = true ↔ projection.(Projection_State) = UnitReady)
  ∧ (sat = Some true ↔ projection.(Projection_State) = ItemCompleted
       ∧ (unit.(Unit_RequiresReview) = true → (fact_of facts unit).(Facts_ReviewApproved) = true)).
Proof.
  intros Hyes Hno. unfold decide_state.
  destruct (fact_of facts unit).(Facts_Activated) eqn:Hact; simpl.
  - destruct (Facts_Unreadable _) eqn:Hread.
    { intros [= <- <- <-]. split; [by constructor|state_cases]. }
    destruct (unitStateOf_spec (fact_of facts unit).(Facts_Item)) as [[Hst Hin]|[text Hst]]; rewrite Hst.
    2: { intros [= <- <- <-]. split; [by constructor|state_cases]. }
    assert (reporting facts unit) as Hrep by done.
    case_bool_decide as Hr; simpl.
    2: { destruct (Hno Hr). intros [= <- <- <-]. split; [by constructor|state_cases]. }
    destruct (Hyes Hr) as (Hmet & -> & Hdig). case_bool_decide as Hsame; simpl.
    2: { intros [= <- <- <-]. split; [by constructor|state_cases]. }
    destruct (_ && bool_decide (_ = None)) eqn:Hout; [done|].
    intros [= <- <- <-]. rewrite <- Hsame. simpl. split; [constructor|split]; try done.
    + unfold unchanged_inputs. congruence.
    + intros Hc Hn. by rewrite !bool_decide_eq_true_2 in Hout by done.
    + split; [done|]. intros He. rewrite He in Hin. by apply (bool_decide_eq_true_2 _) in Hin.
    + split; [intros [= He]|intros [-> Hrev]; f_equal]; reflect_bools.
      * destruct He as [He [Hn|Hrev]]; (split; [done|]); [congruence|done].
      * split; [done|]. destruct (Unit_RequiresReview unit); [right; auto|by left].
  - case_bool_decide as Hr; simpl.
    2: { destruct (Hno Hr). intros [= <- <- <-]. split; [by constructor|state_cases]. }
    destruct (Hyes Hr) as (Hmet & -> & Hdig).
    destruct (Facts_AwaitingDecision _) as [hold|] eqn:Hhold; intros [= <- <- <-]; (split; [by constructor|state_cases]).
Qed.

Lemma decide_state_err unit fact inputs reason digest e :
  decide_state unit fact inputs reason digest = Err e →
  e = CompletedWithoutOutput unit.(Unit_ID) ∧ fact.(Facts_Item) = ItemCompleted ∧ fact.(Facts_Output) = None.
Proof.
  unfold decide_state. destruct (negb _ && _); [done|]. destruct (Facts_Activated _); [|by destruct (Facts_AwaitingDecision _)].
  destruct (Facts_Unreadable _); [done|]. destruct (unitStateOf _); [|done]. destruct (negb _); [done|].
  destruct (negb _); [done|]. destruct (_ && bool_decide (_ = None)) eqn:Hout; [|done].
  intros [= <-]. by reflect_bools.
Qed.

(** The table read by state. *)
Lemma Decided_states m unit p :
  Decided units facts m unit p →
  let fact := fact_of facts unit in
  let standing := met units facts unit ∧ unchanged_inputs facts unit in
  (p.(Projection_State) = UnitBlocked ↔ fact.(Facts_Activated) = false ∧ ¬ met units facts unit)
  ∧ (p.(Projection_State) = UnitReady ↔
       fact.(Facts_Activated) = false ∧ met units facts unit ∧ fact.(Facts_AwaitingDecision) = None)
  ∧ (p.(Projection_State) = UnitAwaitingDecision ↔
       fact.(Facts_Activated) = false ∧ met units facts unit ∧ fact.(Facts_AwaitingDecision) ≠ None)
  ∧ (p.(Projection_State) = UnitUnknown ↔ fact.(Facts_Activated) = true ∧ ¬ reporting facts unit)
  ∧ (p.(Projection_State) = UnitInvalidated ↔ reporting facts unit ∧ ¬ standing)
  ∧ (∀ item, item ∈ item_states → p.(Projection_State) = item ↔
       reporting facts unit ∧ standing ∧ fact.(Facts_Item) = item).
Proof.
  intros Hd.
  assert (∀ item, item ∈ item_states →
    item ≠ UnitBlocked ∧ item ≠ UnitReady ∧ item ≠ UnitAwaitingDecision ∧ item ≠ UnitUnknown ∧ item ≠ UnitInvalidated)
    as Hitem by (apply Forall_forall; repeat constructor; discriminate).
  assert (reporting facts unit → (fact_of facts unit).(Facts_Item) ∈ item_states) as Hrep.
  { intros (_ & _ & Hs). destruct (unitStateOf_spec (fact_of facts unit).(Facts_Item)) as [[_ ?]|[? ?]]; [done|congruence]. }
  unfold unchanged_inputs. clear Hnodup.
  destruct Hd; simpl; split_and!; try (intros item Hin; destruct (Hitem item Hin) as (?&?&?&?&?));
    try (pose proof (Hitem _ (Hrep ltac:(assumption))) as (?&?&?&?&?));
    unfold reporting in *; destruct_and?; split; intros; destruct_and?; try discriminate; try congruence;
    split_and?; try done; try congruence; try (intros ?; destruct_and?; congruence).
  all: exfalso; tauto.
Qed.

Lemma Decided_stuck m unit p :
  Decided units facts m unit p → neverSatisfiable p.(Projection_State) = true ↔ stuck_child units facts unit.
Proof.
  assert (∀ state, neverSatisfiable state = true ↔ state ∈ [ItemFailed; ItemStopped] ∨ state = UnitInvalidated) as Hn.
  { intros state. unfold neverSatisfiable. rewrite !orb_true_iff, !bool_decide_eq_true. set_solver. }
  assert (∀ state, state ∈ [UnitBlocked; UnitAwaitingDecision; UnitReady; UnitUnknown] → neverSatisfiable state = false)
    as Hlive by (apply Forall_forall; repeat constructor).
  unfold stuck_child, unchanged_inputs. clear Hnodup. intros [].
  1-5: simpl; rewrite Hlive by set_solver; split; [done|]; unfold reporting; intros [(?&?&?) _]; congruence.
  - simpl. rewrite Hn. split; [intros _; split; [done|tauto]|by right].
  - simpl. rewrite Hn. split; [intros _; split; [done|]; left; intros [_ ?]; congruence|by right].
  - simpl. rewrite Hn. split; [intros [?|He]; split; [done|by right|done|]|intros [_ [?|?]]; [tauto|by left]].
    destruct (unitStateOf_spec (fact_of facts unit).(Facts_Item)) as [[_ Hin]|[? ?]].
    + rewrite He in Hin. by apply (bool_decide_eq_true_2 _) in Hin.
    + match goal with Hr : reporting _ _ |- _ => destruct Hr as (_ & _ & ?) end. congruence.
Qed.

Lemma Dead_iff unit :
  unit ∈ units →
  Dead unit.(Unit_ID) ↔ (∃ d, d ∈ unit.(Unit_DependsOn) ∧ Dead d) ∨ stuck_child units facts unit
    ∨ ((fact_of facts unit).(Facts_Activated) = true ∧ (fact_of facts unit).(Facts_Terminal) = true
       ∧ ¬ Satisfied unit.(Unit_ID)).
Proof.
  intros Hu. split.
  - intros Hd. inversion Hd as [v d Hv ? ? He|v Hv ? He|v Hv ? ? ? He];
      (assert (v = unit) as -> by (by eapply NoDup_ids_inj)); eauto 6.
  - intros [(d & ? & ?)|[?|(? & ? & ?)]];
      [by eapply Dead_dependency|by apply Dead_child|by apply Dead_terminal].
Qed.

Lemma Decided_mono m m' unit p : m ⊆ m' → Decided units facts m unit p → Decided units facts m' unit p.
Proof.
  assert (m ⊆ m' → ∀ reason, starved units facts m unit reason → starved units facts m' unit reason) as Hs.
  { intros Hm reason (d & q & ? & ? & ? & ?). exists d, q. split_and!; [done..| |done]. by eapply lookup_weaken. }
  intros Hm []; [apply Decided_blocked|apply Decided_held|apply Decided_ready|apply Decided_unreadable
    |apply Decided_unrecognized|apply Decided_starved|apply Decided_replaced|apply Decided_carried]; auto.
Qed.

(* ---------------------------------------------------------------- *)
(** ** The walk

    What holds of the loop's state once the units of [order] are decided. *)

Record walked (order : list string) (st : decided) : Prop := {
  walked_satisfied : ∀ id, flag st.(decided_satisfied) id = true ↔ id ∈ order ∧ Satisfied id;
  walked_dead : ∀ id, id ∈ order → flag st.(decided_dead) id = true ↔ Dead id;
  walked_units : ∀ id, is_Some (st.(decided_units) !! id) ↔ id ∈ order;
  walked_decided : ∀ unit p, unit ∈ units → st.(decided_units) !! unit.(Unit_ID) = Some p →
    Decided units facts st.(decided_units) unit p;
  walked_frontier : ∀ id, id ∈ st.(decided_frontier) ↔
    ∃ p, st.(decided_units) !! id = Some p ∧ p.(Projection_State) = UnitReady;
  walked_sublist : sublist st.(decided_frontier) order
}.

(** A satisfied unit has the output its dependents read. *)
Lemma walked_output order st unit p :
  walked order st → unit ∈ units → st.(decided_units) !! unit.(Unit_ID) = Some p → Satisfied unit.(Unit_ID) →
  (fact_of facts unit).(Facts_Output) ≠ None.
Proof.
  intros Hw Hu Hp (Hm & Hrep & Hitem & Hsame & _)%Satisfied_iff; [|done].
  destruct Hrep as (? & ? & ?). unfold unchanged_inputs in Hsame.
  destruct (walked_decided _ _ Hw _ _ Hu Hp); try congruence; try tauto; auto.
Qed.

Lemma walked_nil : walked [] nothing_decided.
Proof.
  split; simpl; [intros id..|done].
  - unfold flag. rewrite lookup_empty, elem_of_nil. simpl. naive_solver.
  - by intros ?%not_elem_of_nil.
  - rewrite lookup_empty, elem_of_nil. split; [by intros [? ?]|done].
  - by rewrite lookup_empty.
  - setoid_rewrite lookup_empty. rewrite elem_of_nil. naive_solver.
Qed.

(** The inputs of a unit whose dependencies are all decided. *)
Lemma currentInputs_walked order st unit inputs reason settled :
  walked order st → (∀ d, d ∈ unit.(Unit_DependsOn) → d ∈ order) →
  currentInputs unit facts st = Ok (inputs, reason, settled) →
  (reason = "" → met units facts unit ∧ inputs = consumed facts unit)
  ∧ (reason ≠ "" → ¬ met units facts unit ∧ starved units facts st.(decided_units) unit reason)
  ∧ (settled = true ↔ ∃ d, d ∈ unit.(Unit_DependsOn) ∧ Dead d).
Proof.
  intros [Hsat Hdead Hunits _ _ _] Hdeps.
  assert (∀ d, d ∈ unit.(Unit_DependsOn) → flag st.(decided_satisfied) d = false ↔ ¬ Satisfied d) as Hns.
  { intros d Hd. rewrite <- not_true_iff_false, Hsat. pose proof (Hdeps d Hd). tauto. }
  assert (∀ d, d ∈ unit.(Unit_DependsOn) → Dead d → flag st.(decided_satisfied) d = false) as Hds.
  { intros d Hd Hx. by apply Hns, Dead_not_Satisfied. }
  intros [(-> & -> & -> & Hall)|(Hr & d & Hd & Hf & -> & Hlast)]%currentInputs_ok.
  - split_and!; [|done|].
    + intros _. split; [|done]. intros d Hd. by apply Hsat, Hall.
    + split; [done|]. intros (d & Hd & Hx). specialize (Hall d Hd). rewrite (Hds d Hd Hx) in Hall. done.
  - apply Hns in Hf as Hn; [|done]. destruct (proj2 (Hunits d) (Hdeps d Hd)) as [q Hq].
    split_and!; [done| |].
    + intros _. split; [intros Hm; by apply Hn, Hm|]. exists d, q. rewrite Hq. split_and!; [done..|]. simpl.
      destruct settled; [left|right]; (split; [|done]); [by apply Hdead; [apply Hdeps|]|].
      intros d' Hd' Hx. specialize (Hlast d' Hd' (Hds d' Hd' Hx)). apply Hdead in Hx; [congruence|auto].
    + destruct settled; [split; [intros _|done]; exists d; split; [done|]; by apply Hdead; [apply Hdeps|]|].
      split; [done|]. intros (d' & Hd' & Hx). specialize (Hlast d' Hd' (Hds d' Hd' Hx)).
      apply Hdead in Hx; [congruence|auto].
Qed.

(** The three steps of a unit the walk reaches. *)
Lemma decide_unit_ok order st unit st' :
  unit ∈ units → (∀ d, d ∈ unit.(Unit_DependsOn) → d ∈ order) → walked order st →
  decide_unit (units_by_id units) facts st unit.(Unit_ID) = Ok st' →
  ∃ projection (ready : bool) sat settled,
    Decided units facts st.(decided_units) unit projection
    ∧ (ready = true ↔ projection.(Projection_State) = UnitReady)
    ∧ (sat = Some true ↔ Satisfied unit.(Unit_ID))
    ∧ (settled = true ↔ ∃ d, d ∈ unit.(Unit_DependsOn) ∧ Dead d)
    ∧ let satisfied := match sat with
                       | Some b => <[unit.(Unit_ID) := b]> st.(decided_satisfied)
                       | None => st.(decided_satisfied)
                       end in
      st' = MkDecided (<[unit.(Unit_ID) := projection]> st.(decided_units))
        (st.(decided_frontier) ++ (if ready then [unit.(Unit_ID)] else [])) satisfied
        (<[unit.(Unit_ID) := settled || neverSatisfiable projection.(Projection_State)
           || ((fact_of facts unit).(Facts_Activated) && (fact_of facts unit).(Facts_Terminal)
               && negb (flag satisfied unit.(Unit_ID)))]> st.(decided_dead)).
Proof.
  intros Hu Hdeps Hw. unfold decide_unit. rewrite units_by_id_elem by done. simpl.
  intros ([[inputs reason] settled] & Hcur & (digest & Hdig & ([[projection ready] sat] & Hst & [= <-])%rbind_ok)%rbind_ok)%rbind_ok.
  destruct (currentInputs_walked _ _ _ _ _ _ Hw Hdeps Hcur) as (Hyes & Hno & Hset).
  destruct (decide_state_ok st.(decided_units) unit inputs reason digest projection ready sat) as (Hdec & Hready & Hsat);
    [|done|done|].
  { intros Hr. destruct (Hyes Hr) as [Hm ->]. split_and!; [done..|]. rewrite Hr in Hdig.
    rewrite bool_decide_eq_true_2 in Hdig by done. by apply wrap_ok in Hdig. }
  exists projection, ready, sat, settled. split_and!; [done..| |done|done].
  rewrite Hsat, Satisfied_iff by done.
  destruct (Decided_states _ _ _ Hdec) as (_ & _ & _ & _ & _ & Hitem). rewrite Hitem by by apply (bool_decide_eq_true_1 _).
  unfold admitted_output. tauto.
Qed.

Lemma walked_step order st unit st' :
  unit ∈ units → unit.(Unit_ID) ∉ order → (∀ d, d ∈ unit.(Unit_DependsOn) → d ∈ order) → walked order st →
  decide_unit (units_by_id units) facts st unit.(Unit_ID) = Ok st' → walked (order ++ [unit.(Unit_ID)]) st'.
Proof.
  intros Hu Hfresh Hdeps Hw Hstep.
  destruct (decide_unit_ok _ _ _ _ Hu Hdeps Hw Hstep) as (p & ready & sat & settled & Hdec & Hready & Hsat & Hset & ->).
  destruct Hw as [Ws Wd Wu Wdec Wf Wl].
  assert (st.(decided_units) !! unit.(Unit_ID) = None) as Hnone by (apply eq_None_not_Some; by rewrite Wu).
  assert (st.(decided_units) ⊆ <[unit.(Unit_ID) := p]> st.(decided_units)) as Hsub by by apply insert_subseteq.
  set (satisfied := match sat with Some b => <[unit.(Unit_ID) := b]> st.(decided_satisfied) | None => st.(decided_satisfied) end).
  assert (∀ id, id ≠ unit.(Unit_ID) → flag satisfied id = flag st.(decided_satisfied) id) as Hother.
  { intros id Hne. unfold satisfied, flag. destruct sat; [by rewrite lookup_insert_ne|done]. }
  assert (flag satisfied unit.(Unit_ID) = true ↔ Satisfied unit.(Unit_ID)) as Hown.
  { rewrite <- Hsat. unfold satisfied. destruct sat as [b|].
    - unfold flag. rewrite lookup_insert_eq. simpl. split; [by intros ->|by intros [= ->]].
    - rewrite Ws. split; [by intros [? _]|done]. }
  split; simpl; fold satisfied.
  - intros id. rewrite elem_of_app, list_elem_of_singleton. destruct (decide (id = unit.(Unit_ID))) as [->|Hne].
    + rewrite Hown. tauto.
    + rewrite Hother, Ws by done. tauto.
  - intros id. rewrite elem_of_app, list_elem_of_singleton. unfold flag at 1.
    destruct (decide (id = unit.(Unit_ID))) as [->|Hne].
    + intros _. rewrite lookup_insert_eq. simpl.
      rewrite !orb_true_iff, !andb_true_iff, Hset, (Decided_stuck _ _ _ Hdec), Dead_iff, negb_true_iff,
        <- not_true_iff_false, Hown by done. tauto.
    + rewrite lookup_insert_ne by done. intros [?|?]; [by apply Wd|done].
  - intros id. rewrite lookup_insert_is_Some', Wu, elem_of_app, list_elem_of_singleton. naive_solver.
  - intros v q Hv. rewrite lookup_insert_Some. intros [[He <-]|[Hne Hq]].
    + assert (v = unit) as -> by (by eapply NoDup_ids_inj). by eapply Decided_mono.
    + eapply Decided_mono; [done|]. by apply Wdec.
  - intros id. rewrite elem_of_app, Wf. setoid_rewrite lookup_insert_Some. split.
    + intros [(q & Hq & ?)|Hin]; [exists q; split; [|done]; right; split; [congruence|done]|].
      destruct ready; [|by apply not_elem_of_nil in Hin]. apply list_elem_of_singleton in Hin as ->.
      exists p. split; [by left|]. by apply Hready.
    + intros (q & [[<- <-]|[_ Hq]] & Hs); [right|left; eauto].
      apply Hready in Hs as ->. by apply list_elem_of_singleton.
  - apply sublist_app; [done|]. destruct ready; [done|apply sublist_nil_l].
Qed.
End one_unit.

(* ------------------------------------------------------------------ *)
(** * Progression *)

Lemma topologicalOrder_range (R1 R2 : MapRange) units :
  @topologicalOrder R1 units = @topologicalOrder R2 units.
Proof.
  unfold topologicalOrder. rewrite (kahn_range R1 R2). destruct (kahn units) as [[order remaining]|]; [|done].
  by rewrite (unresolved_range R1 R2).
Qed.

Section progression.
Context `{!GoUnicode, !Canonicalizer, !MapRange}.

(** Every step of the walk meets a unit after its dependencies, so its only
    refusals are a digest and a completed child without its output. *)
Lemma walk_outcome units facts order :
  topologicalOrder units = Ok order →
  match for_each (decide_unit (units_by_id units) facts) order nothing_decided with
  | Ok st => walked units facts order st
  | Err (InputsRefused e) => ∃ unit, unit ∈ units ∧ met units facts unit ∧ inputs_digest (consumed facts unit) = Err e
  | Err (CompletedWithoutOutput id) => ∃ unit, unit ∈ units ∧ unit.(Unit_ID) = id
      ∧ (fact_of facts unit).(Facts_Item) = ItemCompleted ∧ (fact_of facts unit).(Facts_Output) = None
  | Err _ => False
  end.
Proof.
  intros Ht. destruct (topologicalOrder_perm _ _ Ht) as [Hnd Hperm].
  pose proof (topologicalOrder_ordered _ _ Ht) as Hord.
  assert (∀ l1 id l2, order = l1 ++ id :: l2 → ∃ unit, unit ∈ units ∧ unit.(Unit_ID) = id ∧ id ∉ l1
    ∧ ∀ d, d ∈ unit.(Unit_DependsOn) → d ∈ l1) as Hreach.
  { intros l1 id l2 ->. assert (id ∈ ids units) as (unit & -> & Hu)%list_elem_of_fmap
      by (rewrite <- Hperm; set_solver).
    exists unit. split_and!; [done..| |by intros d; eapply Hord].
    assert (NoDup (l1 ++ unit.(Unit_ID) :: l2)) as (_ & Hn & _)%NoDup_app by by rewrite Hperm.
    intros Hin. by apply (Hn _ Hin), elem_of_cons; left. }
  pose proof (for_each_outcome (decide_unit (units_by_id units) facts) (walked units facts) order nothing_decided
    (walked_nil units facts Hnd)) as Ho.
  destruct (for_each _ _ _) as [st|e].
  - apply Ho. intros done id rest s1 s2 He Hw Hstep. destruct (Hreach _ _ _ He) as (unit & Hu & <- & Hfresh & Hdeps).
    by eapply walked_step.
  - destruct Ho as (done & id & rest & st & He & Hw & Hstep).
    { intros done id rest s1 s2 He Hw Hstep. destruct (Hreach _ _ _ He) as (unit & Hu & <- & Hfresh & Hdeps).
      by eapply walked_step. }
    destruct (Hreach _ _ _ He) as (unit & Hu & <- & Hfresh & Hdeps). revert Hstep. unfold decide_unit.
    rewrite units_by_id_elem by done. simpl. destruct (currentInputs _ _ _) as [[[inputs reason] settled]|e'] eqn:Hcur; simpl.
    + destruct (currentInputs_walked units facts Hnd _ _ _ _ _ _ Hw Hdeps Hcur) as (Hyes & _ & _).
      destruct (if bool_decide (reason = "") then _ else _) as [digest|e'] eqn:Hdig; simpl.
      * destruct (decide_state _ _ _ _ _) as [[[? ?] ?]|e'] eqn:Hst; simpl; [done|]. intros [= <-].
        apply (decide_state_err units facts Hnd) in Hst as (-> & ? & ?). by exists unit.
      * intros [= <-]. case_bool_decide as Hr; [|done]. destruct (Hyes Hr) as [Hm ->].
        destruct (inputs_digest _) eqn:Hd; [done|]. injection Hdig as <-. by exists unit.
    + intros [= <-]. apply currentInputs_err in Hcur as (d & Hd & Hsat & Hnone & _).
      apply (walked_satisfied _ _ _ _ Hw) in Hsat as [Hin Hsat].
      destruct (proj2 (walked_units _ _ _ _ Hw d) Hin) as [p Hp].
      inversion Hsat as [u' Hu' _ _ Hid]. subst d. by destruct (walked_output _ _ Hnd _ _ _ _ Hw Hu' Hp Hsat).
Qed.

Lemma ProjectWorkGraph_walked graph facts p :
  ProjectWorkGraph graph facts = Ok p →
  ∃ order st, topologicalOrder graph.(Graph_Units) = Ok order ∧ walked graph.(Graph_Units) facts order st
    ∧ p.(Projection_Units) = st.(decided_units) ∧ p.(Projection_Frontier) = sort_strings st.(decided_frontier).
Proof.
  unfold ProjectWorkGraph. intros (order & Ht%wrap_ok & (st & Hst & [= <-])%rbind_ok)%rbind_ok.
  pose proof (walk_outcome _ facts _ Ht) as Ho. rewrite Hst in Ho. by exists order, st.
Qed.

(** C37: progression refines the declarative rule table: every unit of the
    graph is projected, and to what the table assigns it, where a
    dependency counts exactly when it is [Satisfied] (a completed child on
    satisfied dependencies whose outputs still have the digest it was
    activated against, approved if it must be) and a reason says "never"
    exactly when a dependency is [Dead]. *)
Theorem ProjectWorkGraph_table graph facts p :
  ProjectWorkGraph graph facts = Ok p →
  (∀ id, is_Some (p.(Projection_Units) !! id) ↔ id ∈ ids graph.(Graph_Units))
  ∧ ∀ unit u, unit ∈ graph.(Graph_Units) → p.(Projection_Units) !! unit.(Unit_ID) = Some u →
      Decided graph.(Graph_Units) facts p.(Projection_Units) unit u.
Proof.
  intros (order & st & Ht & Hw & -> & _)%ProjectWorkGraph_walked. split; [|apply Hw].
  intros id. rewrite (walked_units _ _ _ _ Hw). by destruct (topologicalOrder_perm _ _ Ht) as [_ ->].
Qed.

(** C13: the frontier is exactly the runnable units: sorted, without
    repetition, a unit is in it if and only if no child has been claimed
    for it, nobody holds it on a decision and every dependency is
    satisfied. *)
Theorem ProjectWorkGraph_frontier graph facts p :
  ProjectWorkGraph graph facts = Ok p →
  StronglySorted String.le p.(Projection_Frontier) ∧ NoDup p.(Projection_Frontier)
  ∧ ∀ unit, unit ∈ graph.(Graph_Units) →
      unit.(Unit_ID) ∈ p.(Projection_Frontier) ↔
        (fact_of facts unit).(Facts_Activated) = false ∧ (fact_of facts unit).(Facts_AwaitingDecision) = None
        ∧ ∀ d, d ∈ unit.(Unit_DependsOn) → Satisfied graph.(Graph_Units) facts d.
Proof.
  intros (order & st & Ht & Hw & _ & ->)%ProjectWorkGraph_walked. destruct (topologicalOrder_perm _ _ Ht) as [Hnd Hp].
  split_and!; [apply sort_strings_sorted| |].
  - rewrite sort_strings_perm. eapply sublist_NoDup; [|apply (walked_sublist _ _ _ _ Hw)]. by rewrite Hp.
  - intros unit Hu. rewrite elem_of_sort_strings, (walked_frontier _ _ _ _ Hw).
    assert (∀ u, st.(decided_units) !! unit.(Unit_ID) = Some u → u.(Projection_State) = UnitReady ↔
      (fact_of facts unit).(Facts_Activated) = false ∧ (fact_of facts unit).(Facts_AwaitingDecision) = None
      ∧ met graph.(Graph_Units) facts unit) as Hr.
    { intros u Hl. destruct (Decided_states _ _ Hnd _ _ _ (walked_decided _ _ _ _ Hw _ _ Hu Hl)) as (_ & -> & _). tauto. }
    split; [intros (u & Hl & Hs); by apply (Hr u)|]. intros Hrun.
    destruct (proj2 (walked_units _ _ _ _ Hw unit.(Unit_ID))) as [u Hl].
    { rewrite Hp. apply list_elem_of_fmap. by exists unit. }
    exists u. split; [done|]. by apply (Hr u).
Qed.

(** Progression never dereferences a missing output and never runs out
    of units: on an acyclic graph with distinct identities it is refused
    only because a child reported complete without an admitted output, or
    because the inputs of a unit whose dependencies are all satisfied have
    no digest. *)
Theorem ProjectWorkGraph_total graph facts :
  NoDup (ids graph.(Graph_Units)) → acyclic graph.(Graph_Units) →
  match ProjectWorkGraph graph facts with
  | Ok p => True
  | Err (CompletedWithoutOutput id) => ∃ unit, unit ∈ graph.(Graph_Units) ∧ unit.(Unit_ID) = id
      ∧ (fact_of facts unit).(Facts_Item) = ItemCompleted ∧ (fact_of facts unit).(Facts_Output) = None
  | Err (InputsRefused e) => ∃ unit, unit ∈ graph.(Graph_Units) ∧ met graph.(Graph_Units) facts unit
      ∧ inputs_digest (consumed facts unit) = Err e
  | Err _ => False
  end.
Proof.
  intros Hnd Ha. destruct (topologicalOrder_complete _ Hnd Ha) as [order Ht]. unfold ProjectWorkGraph.
  rewrite Ht. simpl. pose proof (walk_outcome _ facts _ Ht) as Ho. by destruct (for_each _ _ _) as [st|[]].
Qed.

(** No work is reported complete on stale or unfinished upstream work:
    under a unit reported completed, every dependency is itself reported
    completed, with an admitted output and the approval it needs, and those
    outputs have the digest the unit was activated against. *)
Theorem ProjectWorkGraph_completed_stands graph facts p unit u :
  ProjectWorkGraph graph facts = Ok p → unit ∈ graph.(Graph_Units) →
  p.(Projection_Units) !! unit.(Unit_ID) = Some u → u.(Projection_State) = ItemCompleted →
  inputs_digest (consumed facts unit) = Ok (fact_of facts unit).(Facts_ActivationInputsDigest)
  ∧ ∀ dep, dep ∈ graph.(Graph_Units) → dep.(Unit_ID) ∈ unit.(Unit_DependsOn) →
      ∃ v, p.(Projection_Units) !! dep.(Unit_ID) = Some v ∧ v.(Projection_State) = ItemCompleted
        ∧ (fact_of facts dep).(Facts_Output) ≠ None
        ∧ (dep.(Unit_RequiresReview) = true → (fact_of facts dep).(Facts_ReviewApproved) = true).
Proof.
  intros (order & st & Ht & Hw & -> & _)%ProjectWorkGraph_walked Hu Hl Hs.
  destruct (topologicalOrder_perm _ _ Ht) as [Hnd Hp].
  assert (ItemCompleted ∈ item_states) as Hin by by apply (bool_decide_eq_true_1 _).
  destruct (Decided_states _ _ Hnd _ _ _ (walked_decided _ _ _ _ Hw _ _ Hu Hl)) as (_ & _ & _ & _ & _ & Hc).
  apply Hc in Hs as (_ & [Hm Hsame] & _); [|done]. split; [done|].
  intros dep Hdep Hd. pose proof (Hm _ Hd) as Hsat.
  destruct (proj2 (walked_units _ _ _ _ Hw dep.(Unit_ID))) as [v Hv].
  { rewrite Hp. apply list_elem_of_fmap. by exists dep. }
  exists v. split; [done|]. destruct (proj1 (Satisfied_iff _ _ Hnd _ Hdep) Hsat) as (Hdm & Hrep & Hitem & Hds & Hrev).
  split_and!; [|by apply (walked_output _ _ Hnd _ _ _ _ Hw Hdep Hv)|done].
  destruct (Decided_states _ _ Hnd _ _ _ (walked_decided _ _ _ _ Hw _ _ Hdep Hv)) as (_ & _ & _ & _ & _ & Hc').
  by apply Hc'.
Qed.
End progression.

(** Recomputing a projection reproduces it: neither the order in which
    the maps are ranged over nor a restart changes any part of the outcome,
    refusals included. *)
Theorem ProjectWorkGraph_deterministic `{!GoUnicode, !Canonicalizer} (R1 R2 : MapRange) graph facts :
  @ProjectWorkGraph _ _ R1 graph facts = @ProjectWorkGraph _ _ R2 graph facts.
Proof. unfold ProjectWorkGraph. by rewrite (topologicalOrder_range R1 R2). Qed.

(* ------------------------------------------------------------------ *)
(** * A concrete progression *)

Definition release_graph : WorkGraph :=
  MkWorkGraph "0.1" "graph" "owner/repo" "agent" "release" 1 "alice" 1 example_units None.

Definition output_of (unit : string) : UnitOutput :=
  MkUnitOutput ("handoff-" +:+ unit) ("run-" +:+ unit) "rev" "tree" "completed" "done" [] [].

Definition digest_of (inputs : list string) : string :=
  ok_or "" (@inputs_digest plain_canonicalizer ((λ id, MkWorkUnitInput id (output_of id)) <$> inputs)).

Definition child (id item : string) (inputs : list string) : UnitFacts :=
  MkUnitFacts true (digest_of inputs) item false false ""
    (if item ≟ ItemCompleted then Some (output_of id) else None) None false "".

(** "build" as given, "test" completed on the output of "build", and "deploy"
    not started. *)
Definition release_facts (build : string) : gmap string UnitFacts :=
  <["build" := child "build" build []]> (<["test" := child "test" ItemCompleted ["build"]]> ∅).

Definition project_release (build : string) : result ProjectionError WorkGraphProjection :=
  @ProjectWorkGraph ascii_unicode plain_canonicalizer range_forward release_graph (release_facts build).

Definition no_progress : WorkGraphProjection := MkWorkGraphProjection ∅ [].

Definition summary (c : result ProjectionError WorkGraphProjection) : list (string * string * string) * list string :=
  let p := ok_or no_progress c in
  ((λ id, let u := default no_projection (p.(Projection_Units) !! id) in
      (id, u.(Projection_State), u.(Projection_Reason))) <$> ["build"; "test"; "deploy"], p.(Projection_Frontier)).

(** An invalidated unit is not terminal, and neither is what is said to
    be waiting on it forever: while "build" runs again "test" is invalidated
    and "deploy" is told that "test" will never transfer an admitted handoff,
    and once "build" completes with the same output "test" is completed and
    "deploy" is on the frontier, with no other fact changed. *)
Theorem Invalidated_not_terminal :
  summary (project_release ItemRunning) =
    ([("build", ItemRunning, "");
      ("test", UnitInvalidated, "activated against upstream output that no longer holds: "
         +:+ @unsatisfiedReason ascii_unicode "build" ItemRunning false);
      ("deploy", UnitBlocked, @unsatisfiedReason ascii_unicode "test" UnitInvalidated true)], [])
  ∧ summary (project_release ItemCompleted) =
    ([("build", ItemCompleted, ""); ("test", ItemCompleted, ""); ("deploy", UnitReady, "")], ["deploy"]).
Proof. vm_compute. done. Qed.

Definition deploy_unit : WorkUnit := example_unit "deploy" 3 ["build"; "test"].

Lemma project_release_ok : project_release ItemCompleted = Ok (ok_or no_progress (project_release ItemCompleted)).
Proof. apply ok_or_eq. vm_compute. reflexivity. Qed.

Lemma ProjectWorkGraph_table_witness :
  let p := ok_or no_progress (project_release ItemCompleted) in
  is_Some (p.(Projection_Units) !! "test").
Proof.
  intros p. apply (@ProjectWorkGraph_table ascii_unicode plain_canonicalizer range_forward
    release_graph (release_facts ItemCompleted) p project_release_ok).
  apply (bool_decide_eq_true_1 _). vm_compute. reflexivity.
Defined.

Lemma ProjectWorkGraph_frontier_witness :
  @Satisfied ascii_unicode plain_canonicalizer example_units (release_facts ItemCompleted) "test".
Proof.
  pose proof (@ProjectWorkGraph_frontier ascii_unicode plain_canonicalizer range_forward
    release_graph (release_facts ItemCompleted) _ project_release_ok) as (_ & _ & Hf).
  apply (Hf deploy_unit); apply (bool_decide_eq_true_1 _); vm_compute; reflexivity.
Defined.

Lemma example_acyclic : acyclic example_units.
Proof.
  exists (λ id, if id ≟ "deploy" then 2%nat else if id ≟ "test" then 1%nat else 0%nat). intros u d Hu Hd.
  repeat (apply elem_of_cons in Hu as [->|Hu]; [repeat (apply elem_of_cons in Hd as [->|Hd];
    [split; [by apply (bool_decide_eq_true_1 _)|by apply (bool_decide_eq_true_1 _)]|]); by apply not_elem_of_nil in Hd|]).
  by apply not_elem_of_nil in Hu.
Qed.

(** A completed child that names no output is the refusal named. *)
Lemma ProjectWorkGraph_total_witness :
  let facts := <["build" := MkUnitFacts true (digest_of []) ItemCompleted true false "" None None false ""]> ∅ in
  @ProjectWorkGraph ascii_unicode plain_canonicalizer range_forward release_graph facts
    = Err (CompletedWithoutOutput "build")
  ∧ ∃ unit, unit ∈ example_units ∧ unit.(Unit_ID) = "build"
      ∧ (fact_of facts unit).(Facts_Item) = ItemCompleted ∧ (fact_of facts unit).(Facts_Output) = None.
Proof.
  intros facts.
  assert (@ProjectWorkGraph ascii_unicode plain_canonicalizer range_forward release_graph facts
    = Err (CompletedWithoutOutput "build")) as He by (vm_compute; reflexivity).
  split; [exact He|].
  assert (NoDup (ids (Graph_Units release_graph))) as Hnd by (apply (bool_decide_eq_true_1 _); vm_compute; reflexivity).
  pose proof (@ProjectWorkGraph_total ascii_unicode plain_canonicalizer range_forward release_graph facts Hnd
    example_acyclic) as Ht.
  rewrite He in Ht. exact Ht.
Defined.

Lemma ProjectWorkGraph_completed_stands_witness :
  let p := ok_or no_progress (project_release ItemCompleted) in
  ∃ v, p.(Projection_Units) !! "build" = Some v ∧ v.(Projection_State) = ItemCompleted.
Proof.
  intros p.
  assert (∃ u, p.(Projection_Units) !! "test" = Some u ∧ u.(Projection_State) = ItemCompleted) as (u & Hu & Hs)
    by (eexists; split; [vm_compute; reflexivity|reflexivity]).
  destruct (@ProjectWorkGraph_completed_stands ascii_unicode plain_canonicalizer range_forward
    release_graph (release_facts ItemCompleted) p (example_unit "test" 2 ["build"]) u project_release_ok) as [_ Hd];
    [apply (bool_decide_eq_true_1 _); vm_compute; reflexivity|exact Hu|exact Hs|].
  destruct (Hd (example_unit "build" 1 [])) as (v & Hv & Hc & _);
    [apply (bool_decide_eq_true_1 _); vm_compute; reflexivity..|].
  exists v. split; [exact Hv|exact Hc].
Defined.

(* ------------------------------------------------------------------ *)
(** * Remediation *)

(** What a dependent may consume is withheld exactly while a finding is
    disputed: for every run, pending decision and ceiling, the admitted output
    is handed on if and only if the finding was dismissed or the latest epoch
    completed with an admitted output of its own. *)
Theorem DownstreamDependencySatisfaction_disputed termination admitted pending dismissed reached output :
  DownstreamDependencySatisfaction
    (DeriveRemediationState (DeriveEpochOutcome termination admitted) pending dismissed reached) (Some output)
  = if dismissed || ((termination ≟ RunCompleted) && admitted) then Some output else None.
Proof.
  unfold DeriveEpochOutcome. destruct dismissed; [done|]. simpl.
  destruct (decide (termination = RunCancelled)) as [->|Hc]; [by destruct pending, reached|].
  destruct (decide (termination = RunFailed)) as [->|Hf]; [by destruct pending, reached|].
  rewrite (bool_decide_eq_false_2 _ Hc), (bool_decide_eq_false_2 _ Hf).
  destruct (decide (termination = RunCompleted)) as [->|Hd]; [by destruct admitted, pending, reached|].
  rewrite (bool_decide_eq_false_2 _ Hd). by destruct pending, reached.
Qed.

(** A unit whose completed output is disputed. *)
Definition disputed_facts : gmap string UnitFacts :=
  <["build" := MkUnitFacts true (digest_of []) ItemCompleted true false "" (Some (output_of "build")) None false
      RemediationExhaustedUnresolved]> ∅.

(** Progression does not consult the remediation posture: a unit reported
    completed with an output disputed to exhaustion still satisfies its
    dependents, although [DownstreamDependencySatisfaction], the only fact a
    dependent is said to read, withholds that output. *)
Theorem ProjectWorkGraph_ignores_remediation :
  Projection_Frontier (ok_or no_progress
    (@ProjectWorkGraph ascii_unicode plain_canonicalizer range_forward release_graph disputed_facts)) = ["test"]
  ∧ DownstreamDependencySatisfaction RemediationExhaustedUnresolved (Some (output_of "build")) = None.
Proof. vm_compute. done. Qed.
