(* ===== verification/Handoff.v ===== *)
(** Worker handoffs: [orchestration/handoff.go].  A worker states a report;
    the runtime admits it into a record bound to what it observed.  The strict
    JSON decoder in front of the report is not modelled. *)

From S2P Require Import Prelude GoStrings Sha256 Canonical Item.
From stdpp Require Import options.

Definition HandoffSchemaVersion : string := "0.1".
Definition EngineeringHandoffSchemaVersion : string := "0.1".

Definition maxSummaryBytes : nat := 4096.
Definition maxHandoffListItems : nat := 16.
Definition maxHandoffItemBytes : nat := 1024.

Record HandoffReport := MkHandoffReport {
  Report_SchemaVersion : string;
  Report_Outcome : string;
  Report_Summary : string;
  Report_Unresolved : list string;
  Report_RecommendedNext : list string
}.

Definition DefectProtocol : string := "protocol".
Definition DefectBound : string := "bound".

(** [HandoffRefusal] is an error that wraps another one. *)
Inductive HandoffError :=
  | HandoffRefusal (defect : string) (err : HandoffError)
  | UnsupportedHandoffVersion (version : string)
  | HandoffTextRequired (name : string)
  | HandoffTextTooLong (name : string) (bytes limit : nat)
  | HandoffTextNotUTF8 (name : string)
  | TooManyHandoffItems (name : string) (n : nat)
  | CompletedUnresolved (n : nat)
  | PartialResolved
  | UnknownHandoffOutcome (outcome : string)
  | HandoffBindingRequired (name : string)
  | HandoffNumbersInvalid
  | ProtocolRepairIncomplete
  | HandoffIdentityIncomplete
  | HandoffDigestRefused (e : CanonicalError).

Definition boundRefusal (err : HandoffError) : HandoffError := HandoffRefusal DefectBound err.

Definition ProtocolRepairable (err : HandoffError) : bool :=
  match err with
  | HandoffRefusal defect _ => defect ≟ DefectProtocol
  | _ => false
  end.

Definition boundedText (name value : string) (limit : nat) : result HandoffError () :=
  refuse_if (blank value) (HandoffTextRequired name) ;?
  refuse_if (limit <? len value) (boundRefusal (HandoffTextTooLong name (len value) limit)) ;?
  refuse_if (negb (ValidString value)) (boundRefusal (HandoffTextNotUTF8 name)).

Definition boundedItems (name : string) (items : list string) : result HandoffError () :=
  refuse_if (maxHandoffListItems <? length items) (boundRefusal (TooManyHandoffItems name (length items))) ;?
  check_all (λ item, boundedText (name +:+ " item") item maxHandoffItemBytes) items.

(** [HandoffReport.Validate]. *)
Definition validate_report (r : HandoffReport) : result HandoffError () :=
  refuse_if (r.(Report_SchemaVersion) ≠? HandoffSchemaVersion) (UnsupportedHandoffVersion r.(Report_SchemaVersion)) ;?
  boundedText "summary" r.(Report_Summary) maxSummaryBytes ;?
  boundedItems "unresolved" r.(Report_Unresolved) ;?
  boundedItems "recommended_next" r.(Report_RecommendedNext) ;?
  if r.(Report_Outcome) ≟ OutcomeCompleted then
    refuse_if (0 <? length r.(Report_Unresolved)) (CompletedUnresolved (length r.(Report_Unresolved)))
  else if r.(Report_Outcome) ≟ OutcomePartial then
    refuse_if (length r.(Report_Unresolved) =? 0) PartialResolved
  else Err (UnknownHandoffOutcome r.(Report_Outcome)).

Record HandoffProducer := MkHandoffProducer {
  HandoffProducer_AgentID : string;
  HandoffProducer_OperationID : string;
  HandoffProducer_Attempt : Z
}.

Record HandoffSubject := MkHandoffSubject {
  BaseRevision : string;
  CandidateRevision : string;
  CandidateTree : string
}.

#[export] Instance HandoffSubject_eq : EqDecision HandoffSubject.
Proof. solve_decision. Defined.

Record HandoffGovernance := MkHandoffGovernance {
  Governance_ContractID : string;
  Governance_ContractRevision : string
}.

Record HandoffObserved := MkHandoffObserved {
  ChangedPathCount : Z;
  ChangedPathsDigest : string
}.

(** Times are the nanoseconds since Go's zero time. *)
Record EngineeringHandoff := MkEngineeringHandoff {
  Handoff_SchemaVersion : string;
  Handoff_ID : string;
  Handoff_BatchID : string;
  Handoff_Issue : Z;
  Handoff_RunID : string;
  Handoff_Producer : HandoffProducer;
  Handoff_Subject : HandoffSubject;
  Handoff_Governance : HandoffGovernance;
  Handoff_Observed : HandoffObserved;
  Handoff_ReportSHA256 : string;
  Handoff_ProducerReport : HandoffReport;
  Handoff_ProtocolRepair : option HandoffProducer;
  Handoff_AdmittedAt : Z
}.

(** The map literal of [EngineeringHandoff.Validate]. *)
Definition handoff_bindings (h : EngineeringHandoff) : list (string * string) :=
  [("id", h.(Handoff_ID)); ("batch_id", h.(Handoff_BatchID)); ("run_id", h.(Handoff_RunID));
   ("producer.agent_id", h.(Handoff_Producer).(HandoffProducer_AgentID));
   ("producer.operation_id", h.(Handoff_Producer).(HandoffProducer_OperationID));
   ("subject.base_revision", h.(Handoff_Subject).(BaseRevision));
   ("subject.candidate_revision", h.(Handoff_Subject).(CandidateRevision));
   ("subject.candidate_tree", h.(Handoff_Subject).(CandidateTree));
   ("governance.contract_id", h.(Handoff_Governance).(Governance_ContractID));
   ("governance.contract_revision", h.(Handoff_Governance).(Governance_ContractRevision));
   ("report_sha256", h.(Handoff_ReportSHA256))].

(** [EngineeringHandoff.Validate]. *)
Definition validate_handoff `{!MapRange} (h : EngineeringHandoff) : result HandoffError () :=
  refuse_if (h.(Handoff_SchemaVersion) ≠? EngineeringHandoffSchemaVersion)
    (UnsupportedHandoffVersion h.(Handoff_SchemaVersion)) ;?
  check_map (λ name value, refuse_if (blank value) (HandoffBindingRequired name))
    (list_to_map (handoff_bindings h) : gmap string string) ;?
  refuse_if ((h.(Handoff_Issue) <=? 0)%Z || (h.(Handoff_Producer).(HandoffProducer_Attempt) <=? 0)%Z
             || (h.(Handoff_Observed).(ChangedPathCount) <? 0)%Z || (h.(Handoff_AdmittedAt) =? 0)%Z)
    HandoffNumbersInvalid ;?
  match h.(Handoff_ProtocolRepair) with
  | Some r => refuse_if (blank r.(HandoffProducer_AgentID) || blank r.(HandoffProducer_OperationID)
                         || (r.(HandoffProducer_Attempt) <=? 0)%Z) ProtocolRepairIncomplete
  | None => Ok tt
  end ;?
  validate_report h.(Handoff_ProducerReport).

Definition HandoffID `{!Canonicalizer} (runID operationID : string) (attempt : Z) : result HandoffError string :=
  refuse_if ((runID ≟ "") || (operationID ≟ "") || (attempt <=? 0)%Z) HandoffIdentityIncomplete ;?
  let? digest := wrap HandoffDigestRefused (Digest (GStruct
    [("run", GString runID); ("operation", GString operationID); ("attempt", GInt attempt)])) in
  Ok ("handoff-" +:+ take_bytes 32 digest).

(* ------------------------------------------------------------------ *)
(** * What is admitted *)

Definition bounded (value : string) (limit : nat) : Prop :=
  blank value = false ∧ (len value <= limit)%nat ∧ ValidString value = true.

Lemma boundedText_ok name value limit : boundedText name value limit = Ok tt ↔ bounded value limit.
Proof.
  unfold boundedText, bounded. rewrite !refuse_if_then, refuse_if_ok, negb_false_iff, Nat.ltb_ge. done.
Qed.

Definition valid_report (r : HandoffReport) : Prop :=
  r.(Report_SchemaVersion) = HandoffSchemaVersion ∧ bounded r.(Report_Summary) maxSummaryBytes
  ∧ (∀ item, item ∈ r.(Report_Unresolved) ++ r.(Report_RecommendedNext) → bounded item maxHandoffItemBytes)
  ∧ (length r.(Report_Unresolved) <= maxHandoffListItems)%nat
  ∧ (length r.(Report_RecommendedNext) <= maxHandoffListItems)%nat
  ∧ (r.(Report_Outcome) = OutcomeCompleted ∧ r.(Report_Unresolved) = []
     ∨ r.(Report_Outcome) = OutcomePartial ∧ r.(Report_Unresolved) ≠ []).

Lemma validate_report_ok r : validate_report r = Ok tt ↔ valid_report r.
Proof.
  unfold validate_report, valid_report, boundedItems. autorewrite with go.
  rewrite boundedText_ok, !Nat.ltb_ge. setoid_rewrite boundedText_ok. setoid_rewrite elem_of_app.
  assert ((if Report_Outcome r ≟ OutcomeCompleted then
      refuse_if (0 <? length (Report_Unresolved r)) (CompletedUnresolved (length (Report_Unresolved r)))
    else if Report_Outcome r ≟ OutcomePartial then refuse_if (length (Report_Unresolved r) =? 0) PartialResolved
    else Err (UnknownHandoffOutcome (Report_Outcome r))) = Ok tt ↔
    Report_Outcome r = OutcomeCompleted ∧ Report_Unresolved r = []
    ∨ Report_Outcome r = OutcomePartial ∧ Report_Unresolved r ≠ []) as ->; [|naive_solver].
  destruct (decide (Report_Outcome r = OutcomeCompleted)) as [Hc|Hc];
    [rewrite bool_decide_eq_true_2 by done|rewrite (bool_decide_eq_false_2 (_ = OutcomeCompleted)) by done].
  { rewrite Hc. destruct (Report_Unresolved r); simpl; naive_solver. }
  destruct (decide (Report_Outcome r = OutcomePartial)) as [Hp|Hp];
    [rewrite bool_decide_eq_true_2 by done|rewrite bool_decide_eq_false_2 by done; naive_solver].
  destruct (Report_Unresolved r); simpl; naive_solver.
Qed.

(** An admitted handoff names exactly what it describes: every runtime
    binding is present, the counters and the admission time are set, a
    protocol repair names its invocation, and the worker's report is bounded
    text of the known version whose outcome and unresolved list agree. *)
Theorem validate_handoff_iff `{!MapRange} h :
  validate_handoff h = Ok tt ↔
    h.(Handoff_SchemaVersion) = EngineeringHandoffSchemaVersion
    ∧ (∀ name value, (name, value) ∈ handoff_bindings h → blank value = false)
    ∧ (0 < h.(Handoff_Issue))%Z ∧ (0 < h.(Handoff_Producer).(HandoffProducer_Attempt))%Z
    ∧ (0 <= h.(Handoff_Observed).(ChangedPathCount))%Z ∧ h.(Handoff_AdmittedAt) ≠ 0%Z
    ∧ (∀ r, h.(Handoff_ProtocolRepair) = Some r →
         blank r.(HandoffProducer_AgentID) = false ∧ blank r.(HandoffProducer_OperationID) = false
         ∧ (0 < r.(HandoffProducer_Attempt))%Z)
    ∧ valid_report h.(Handoff_ProducerReport).
Proof.
  unfold validate_handoff. autorewrite with go. rewrite check_map_literal, Forall_forall, validate_report_ok.
  2: { apply (bool_decide_eq_true_1 _). reflexivity. }
  setoid_rewrite refuse_if_ok. rewrite !Z.leb_gt, Z.ltb_ge, Z.eqb_neq.
  assert (match h.(Handoff_ProtocolRepair) with
    | Some r => refuse_if (blank r.(HandoffProducer_AgentID) || blank r.(HandoffProducer_OperationID)
                           || (r.(HandoffProducer_Attempt) <=? 0)%Z) ProtocolRepairIncomplete
    | None => Ok tt end = Ok tt ↔ ∀ r, h.(Handoff_ProtocolRepair) = Some r →
         blank r.(HandoffProducer_AgentID) = false ∧ blank r.(HandoffProducer_OperationID) = false
         ∧ (0 < r.(HandoffProducer_Attempt))%Z) as ->.
  { destruct (Handoff_ProtocolRepair h) as [r|]; [|naive_solver].
    rewrite refuse_if_ok, !orb_false_iff, Z.leb_gt. naive_solver. }
  assert ((∀ x, x ∈ handoff_bindings h → blank x.2 = false) ↔
    ∀ name value, (name, value) ∈ handoff_bindings h → blank value = false) as ->; [|tauto].
  split; [intros Hx n v Hin; by apply (Hx (n, v))|intros Hx [n v] Hin; by eapply Hx].
Qed.
