(* ===== verification/Decision.v ===== *)
(** Decisions of the operator: [orchestration/decision_resolution.go] and the
    holds of [orchestration/workgraph_hold.go]. *)

From S2P Require Import Prelude GoStrings Sha256 Canonical Item WorkGraph Projection Handoff.
From stdpp Require Import options.

Definition DecisionResolutionSchemaVersion : string := "0.1".
Definition DecisionAllowDeny : string := "allow_deny".
Definition DecisionSelectedOption : string := "selected_option".
Definition DecisionText : string := "text".
Definition DecisionAllow : string := "allow".
Definition DecisionDeny : string := "deny".

Definition maxDecisionOptionBytes : nat := 64.
Definition maxDecisionTextBytes : nat := 2000.
Definition maxDecisionReasonBytes : nat := 2000.

Definition AuthorityKindOperator : string := "operator".

(** From [orchestration/communication.go]. *)
Record MessageSubject := MkMessageSubject {
  MessageSubject_Handoff : string;
  MessageSubject_Owner : string;
  MessageSubject_Revision : HandoffSubject
}.

Record DecisionOutcome := MkDecisionOutcome {
  Outcome_Kind : string;
  Outcome_Value : string
}.

Record DecisionResolutionAuthority := MkDecisionAuthority {
  Authority_Actor : string;
  Authority_Kind : string;
  Authority_Provenance : string
}.

Record DecisionResolution := MkDecisionResolution {
  Resolution_SchemaVersion : string;
  Resolution_ID : string;
  Resolution_RequestID : string;
  Resolution_Scope : string;
  Resolution_Subject : option MessageSubject;
  Resolution_Outcome : DecisionOutcome;
  Resolution_Reason : string;
  Resolution_Authority : DecisionResolutionAuthority;
  Resolution_ResolvedAt : Z
}.

#[export] Instance MessageSubject_eq : EqDecision MessageSubject.
Proof. solve_decision. Defined.
#[export] Instance DecisionOutcome_eq : EqDecision DecisionOutcome.
Proof. solve_decision. Defined.
#[export] Instance DecisionResolutionAuthority_eq : EqDecision DecisionResolutionAuthority.
Proof. solve_decision. Defined.
#[export] Instance DecisionResolution_eq : EqDecision DecisionResolution.
Proof. solve_decision. Defined.

Inductive DecisionError :=
  | NotAllowOrDeny (value : string)
  | DecisionTextRequired (name : string)
  | DecisionTextTooLong (name : string) (bytes limit : nat)
  | DecisionTextNotUTF8 (name : string)
  | UnknownOutcomeKind (kind : string)
  | ActorRequired
  | UnrecognizedAuthorityKind (kind : string)
  | ProvenanceRequired
  | UnsupportedResolutionVersion (version : string)
  | RequestRequired
  | ResolutionIdentity (id canonical : string)
  | ScopeRequired
  | ResolutionTimeRequired
  | DecisionDigestRefused (e : CanonicalError)
  | UnknownDecisionRequest
  | RequestNotLive (id : string)
  | StaleSubject (id : string)
  | WrongOutcomeKind (id expected kind : string)
  | OptionNotPermitted (id value : string)
  | ForeignResolution (existing id : string)
  | ConflictingAnswer (id : string)
  | UnsupportedHoldVersion (version : string)
  | HoldIdentityIncomplete
  | HoldIdentity (id canonical : string)
  | HoldTimeRequired.

Definition boundedDecisionText (name value : string) (limit : nat) : result DecisionError () :=
  refuse_if (blank value) (DecisionTextRequired name) ;?
  refuse_if (limit <? len value) (DecisionTextTooLong name (len value) limit) ;?
  refuse_if (negb (ValidString value)) (DecisionTextNotUTF8 name).

(** [DecisionOutcome.Validate]. *)
Definition validate_outcome (o : DecisionOutcome) : result DecisionError () :=
  if o.(Outcome_Kind) ≟ DecisionAllowDeny then
    refuse_if ((o.(Outcome_Value) ≠? DecisionAllow) && (o.(Outcome_Value) ≠? DecisionDeny))
      (NotAllowOrDeny o.(Outcome_Value))
  else if o.(Outcome_Kind) ≟ DecisionSelectedOption then
    boundedDecisionText "selected_option value" o.(Outcome_Value) maxDecisionOptionBytes
  else if o.(Outcome_Kind) ≟ DecisionText then
    boundedDecisionText "text value" o.(Outcome_Value) maxDecisionTextBytes
  else Err (UnknownOutcomeKind o.(Outcome_Kind)).

(** [DecisionResolutionAuthority.Validate]. *)
Definition validate_authority (a : DecisionResolutionAuthority) : result DecisionError () :=
  refuse_if (blank a.(Authority_Actor)) ActorRequired ;?
  refuse_if (a.(Authority_Kind) ≠? AuthorityKindOperator) (UnrecognizedAuthorityKind a.(Authority_Kind)) ;?
  refuse_if (blank a.(Authority_Provenance)) ProvenanceRequired.

(** [if reason != "" { boundedDecisionText(...) }]. *)
Definition validate_reason (reason : string) : result DecisionError () :=
  if reason ≠? "" then boundedDecisionText "decision resolution reason" reason maxDecisionReasonBytes else Ok tt.

Record DecisionRequestRef := MkDecisionRequestRef {
  Ref_ID : string;
  Ref_Scope : string;
  Ref_Subject : option MessageSubject;
  Ref_Live : bool;
  Ref_ExpectedOutcomeKind : string;
  Ref_PermittedOptions : list string
}.

Section Decisions.
Context `{!Canonicalizer}.

Definition DecisionResolutionID (requestID : string) : result DecisionError string :=
  refuse_if (blank requestID) RequestRequired ;?
  let? digest := wrap DecisionDigestRefused (Digest (GStruct [("request", GString requestID)])) in
  Ok ("decision-resolution-" +:+ take_bytes 32 digest).

(** [DecisionResolution.Validate]. *)
Definition validate_resolution (r : DecisionResolution) : result DecisionError () :=
  refuse_if (r.(Resolution_SchemaVersion) ≠? DecisionResolutionSchemaVersion)
    (UnsupportedResolutionVersion r.(Resolution_SchemaVersion)) ;?
  let? id := DecisionResolutionID r.(Resolution_RequestID) in
  refuse_if (id ≠? r.(Resolution_ID)) (ResolutionIdentity r.(Resolution_ID) id) ;?
  refuse_if (blank r.(Resolution_Scope)) ScopeRequired ;?
  validate_outcome r.(Resolution_Outcome) ;?
  validate_reason r.(Resolution_Reason) ;?
  validate_authority r.(Resolution_Authority) ;?
  refuse_if (r.(Resolution_ResolvedAt) =? 0)%Z ResolutionTimeRequired.

(** The subject a request is bound to is still the current one. *)
Definition subject_current (subject : option MessageSubject) (current : option HandoffSubject) : bool :=
  match subject with
  | None => true
  | Some s => current ≟ Some s.(MessageSubject_Revision)
  end.

Definition option_permitted (ref : DecisionRequestRef) (outcome : DecisionOutcome) : bool :=
  if (ref.(Ref_ExpectedOutcomeKind) ≟ DecisionSelectedOption) && (0 <? length ref.(Ref_PermittedOptions)) then
    existsb (λ option, option ≟ outcome.(Outcome_Value)) ref.(Ref_PermittedOptions)
  else true.

(** The source returns the record beside the error of its own validation; a
    refusal here drops it. *)
Definition ResolveDecision (ref : DecisionRequestRef) (current : option HandoffSubject) (outcome : DecisionOutcome)
  (reason : string) (authority : DecisionResolutionAuthority) (existing : option DecisionResolution) (now : Z)
  : result DecisionError DecisionResolution :=
  refuse_if (blank ref.(Ref_ID)) UnknownDecisionRequest ;?
  refuse_if (negb ref.(Ref_Live)) (RequestNotLive ref.(Ref_ID)) ;?
  refuse_if (negb (subject_current ref.(Ref_Subject) current)) (StaleSubject ref.(Ref_ID)) ;?
  validate_outcome outcome ;?
  refuse_if ((ref.(Ref_ExpectedOutcomeKind) ≠? "") && (outcome.(Outcome_Kind) ≠? ref.(Ref_ExpectedOutcomeKind)))
    (WrongOutcomeKind ref.(Ref_ID) ref.(Ref_ExpectedOutcomeKind) outcome.(Outcome_Kind)) ;?
  refuse_if (negb (option_permitted ref outcome)) (OptionNotPermitted ref.(Ref_ID) outcome.(Outcome_Value)) ;?
  validate_reason reason ;?
  validate_authority authority ;?
  let? id := DecisionResolutionID ref.(Ref_ID) in
  match existing with
  | Some existing =>
      refuse_if (existing.(Resolution_ID) ≠? id) (ForeignResolution existing.(Resolution_ID) ref.(Ref_ID)) ;?
      if (existing.(Resolution_Outcome) ≟ outcome) && (existing.(Resolution_Reason) ≟ reason) then Ok existing
      else Err (ConflictingAnswer ref.(Ref_ID))
  | None =>
      let resolution := MkDecisionResolution DecisionResolutionSchemaVersion id ref.(Ref_ID) ref.(Ref_Scope)
        ref.(Ref_Subject) outcome reason authority now in
      validate_resolution resolution ;? Ok resolution
  end.
End Decisions.

(* ------------------------------------------------------------------ *)
(** * Holds on work units *)

Definition WorkUnitHoldSchemaVersion : string := "0.1".
Definition maxHoldPurposeBytes : nat := 1024.

Record WorkUnitHold := MkWorkUnitHold {
  Hold_SchemaVersion : string;
  Hold_ID : string;
  Hold_GraphID : string;
  Hold_UnitID : string;
  Hold_Purpose : string;
  Hold_RequestedBy : DecisionResolutionAuthority;
  Hold_RequestedAt : Z
}.

Definition WorkUnitHoldID `{!Canonicalizer} (graphID unitID : string) : result DecisionError string :=
  refuse_if (blank graphID || blank unitID) HoldIdentityIncomplete ;?
  let? digest := wrap DecisionDigestRefused (Digest (GStruct [("graph", GString graphID); ("unit", GString unitID)])) in
  Ok ("workgraph-hold-" +:+ take_bytes 32 digest).

(** [WorkUnitHold.Validate]. *)
Definition validate_hold `{!Canonicalizer} (h : WorkUnitHold) : result DecisionError () :=
  refuse_if (h.(Hold_SchemaVersion) ≠? WorkUnitHoldSchemaVersion) (UnsupportedHoldVersion h.(Hold_SchemaVersion)) ;?
  let? id := WorkUnitHoldID h.(Hold_GraphID) h.(Hold_UnitID) in
  refuse_if (id ≠? h.(Hold_ID)) (HoldIdentity h.(Hold_ID) id) ;?
  boundedDecisionText "work unit hold purpose" h.(Hold_Purpose) maxHoldPurposeBytes ;?
  validate_authority h.(Hold_RequestedBy) ;?
  refuse_if (h.(Hold_RequestedAt) =? 0)%Z HoldTimeRequired.

(** [WorkUnitHold.Ref]. *)
Definition hold_ref (h : WorkUnitHold) : DecisionRequestRef :=
  MkDecisionRequestRef h.(Hold_ID) (h.(Hold_GraphID) +:+ ":" +:+ h.(Hold_UnitID)) None true DecisionAllowDeny [].

(** [WorkUnitHold.DecisionWait]. *)
Definition hold_wait (h : WorkUnitHold) : DecisionWait := MkDecisionWait h.(Hold_ID) h.(Hold_Purpose).

(* ------------------------------------------------------------------ *)
(** * One answer per request *)

Section answers.
Context `{!Canonicalizer}.

(** What any answer needs, whether or not one is stored. *)
Definition answerable (ref : DecisionRequestRef) (current : option HandoffSubject) (outcome : DecisionOutcome)
  (reason : string) (authority : DecisionResolutionAuthority) : Prop :=
  blank ref.(Ref_ID) = false ∧ ref.(Ref_Live) = true
  ∧ (∀ s, ref.(Ref_Subject) = Some s → current = Some s.(MessageSubject_Revision))
  ∧ validate_outcome outcome = Ok tt
  ∧ (ref.(Ref_ExpectedOutcomeKind) = "" ∨ outcome.(Outcome_Kind) = ref.(Ref_ExpectedOutcomeKind))
  ∧ (ref.(Ref_ExpectedOutcomeKind) = DecisionSelectedOption → ref.(Ref_PermittedOptions) ≠ [] →
       outcome.(Outcome_Value) ∈ ref.(Ref_PermittedOptions))
  ∧ validate_reason reason = Ok tt
  ∧ blank authority.(Authority_Actor) = false ∧ authority.(Authority_Kind) = AuthorityKindOperator
  ∧ blank authority.(Authority_Provenance) = false.

Lemma option_permitted_ok ref outcome :
  option_permitted ref outcome = true ↔
    (ref.(Ref_ExpectedOutcomeKind) = DecisionSelectedOption → ref.(Ref_PermittedOptions) ≠ [] →
       outcome.(Outcome_Value) ∈ ref.(Ref_PermittedOptions)).
Proof.
  unfold option_permitted. destruct (bool_decide (_ = DecisionSelectedOption)) eqn:Hk;
    [apply bool_decide_eq_true in Hk|apply bool_decide_eq_false in Hk; naive_solver].
  destruct (Ref_PermittedOptions ref) as [|o os] eqn:Ho; [simpl; naive_solver|].
  cbn [andb length Nat.ltb Nat.leb]. rewrite existsb_elem. setoid_rewrite bool_decide_eq_true. split.
  - intros (x & Hx & <-) _ _. done.
  - intros Hx. eexists. split; [by apply Hx|done].
Qed.

Lemma validate_authority_ok a :
  validate_authority a = Ok tt ↔
    blank a.(Authority_Actor) = false ∧ a.(Authority_Kind) = AuthorityKindOperator ∧ blank a.(Authority_Provenance) = false.
Proof. unfold validate_authority. by autorewrite with go. Qed.

Lemma subject_current_ok subject current :
  subject_current subject current = true ↔ ∀ s, subject = Some s → current = Some s.(MessageSubject_Revision).
Proof. destruct subject; simpl; [rewrite bool_decide_eq_true|]; naive_solver. Qed.

Lemma ResolveDecision_ok ref current outcome reason authority existing now r :
  ResolveDecision ref current outcome reason authority existing now = Ok r ↔
    answerable ref current outcome reason authority
    ∧ ∃ id, DecisionResolutionID ref.(Ref_ID) = Ok id
      ∧ match existing with
        | Some stored => stored.(Resolution_ID) = id ∧ stored.(Resolution_Outcome) = outcome
            ∧ stored.(Resolution_Reason) = reason ∧ r = stored
        | None => blank ref.(Ref_Scope) = false ∧ now ≠ 0%Z
            ∧ r = MkDecisionResolution DecisionResolutionSchemaVersion id ref.(Ref_ID) ref.(Ref_Scope)
                ref.(Ref_Subject) outcome reason authority now
        end.
Proof.
  unfold ResolveDecision, answerable. autorewrite with go. rewrite subject_current_ok, option_permitted_ok, validate_authority_ok.
  assert ((Ref_ExpectedOutcomeKind ref ≠? "") && (Outcome_Kind outcome ≠? Ref_ExpectedOutcomeKind ref) = false ↔
    Ref_ExpectedOutcomeKind ref = "" ∨ Outcome_Kind outcome = Ref_ExpectedOutcomeKind ref) as ->
    by (rewrite andb_false_iff; by autorewrite with go).
  assert (∀ id, DecisionResolutionID (Ref_ID ref) = Ok id → validate_outcome outcome = Ok tt → validate_reason reason = Ok tt →
    blank (Authority_Actor authority) = false ∧ Authority_Kind authority = AuthorityKindOperator
      ∧ blank (Authority_Provenance authority) = false →
    (match existing with
     | Some stored =>
         refuse_if (stored.(Resolution_ID) ≠? id) (ForeignResolution stored.(Resolution_ID) ref.(Ref_ID)) ;?
         if (stored.(Resolution_Outcome) ≟ outcome) && (stored.(Resolution_Reason) ≟ reason) then Ok stored
         else Err (ConflictingAnswer ref.(Ref_ID))
     | None =>
         let resolution := MkDecisionResolution DecisionResolutionSchemaVersion id ref.(Ref_ID) ref.(Ref_Scope)
           ref.(Ref_Subject) outcome reason authority now in
         validate_resolution resolution ;? Ok resolution
     end = Ok r) ↔
    match existing with
    | Some stored => stored.(Resolution_ID) = id ∧ stored.(Resolution_Outcome) = outcome
        ∧ stored.(Resolution_Reason) = reason ∧ r = stored
    | None => blank ref.(Ref_Scope) = false ∧ now ≠ 0%Z
        ∧ r = MkDecisionResolution DecisionResolutionSchemaVersion id ref.(Ref_ID) ref.(Ref_Scope)
            ref.(Ref_Subject) outcome reason authority now
    end) as Hlast.
  { intros id Hid Ho Hr Ha%validate_authority_ok. destruct existing as [stored|].
    - autorewrite with go. destruct (_ && _) eqn:Hsame; reflect_bools; naive_solver.
    - cbv zeta. rewrite check_then. unfold validate_resolution. simpl. rewrite Hid. simpl. autorewrite with go.
      rewrite Z.eqb_neq. naive_solver. }
  split.
  - intros (? & ? & ? & ? & ? & ? & ? & ? & id & Hid & Hk). split; [tauto|]. exists id. split; [done|]. by apply Hlast.
  - intros [? (id & Hid & Hk)]. split_and!; try tauto. exists id. split; [done|]. apply Hlast; tauto.
Qed.

(** A request has at most one answer: the first accepted answer is a valid
    record of the request's own scope and subject under the operator's
    authority, an identical retry that is still answerable returns that very
    record, and no later call can be accepted with another outcome, another
    reason or another record, whoever makes it and whenever. *)
Theorem ResolveDecision_once ref current outcome reason authority now r :
  ResolveDecision ref current outcome reason authority None now = Ok r →
  validate_resolution r = Ok tt ∧ r.(Resolution_RequestID) = ref.(Ref_ID) ∧ r.(Resolution_Scope) = ref.(Ref_Scope)
  ∧ r.(Resolution_Subject) = ref.(Ref_Subject) ∧ r.(Resolution_Outcome) = outcome
  ∧ r.(Resolution_Authority).(Authority_Kind) = AuthorityKindOperator
  ∧ (∀ current' authority' now', answerable ref current' outcome reason authority' →
       ResolveDecision ref current' outcome reason authority' (Some r) now' = Ok r)
  ∧ ∀ current' outcome' reason' authority' now' r',
      ResolveDecision ref current' outcome' reason' authority' (Some r) now' = Ok r' →
      r' = r ∧ outcome' = outcome ∧ reason' = reason.
Proof.
  intros (Ha & id & Hid & Hs & Hn & ->)%ResolveDecision_ok. simpl.
  destruct Ha as (Hb & Hl & Hsub & Ho & Hk & Hp & Hr & Hact & Hop & Hprov).
  split_and!; [|done..| |].
  - unfold validate_resolution. simpl. rewrite Hid. simpl. autorewrite with go.
    rewrite validate_authority_ok, Z.eqb_neq. done.
  - intros current' authority' now' Ha'. apply ResolveDecision_ok. split; [done|]. by exists id.
  - intros current' outcome' reason' authority' now' r' (_ & id' & _ & _ & Ho' & Hr' & ->)%ResolveDecision_ok. done.
Qed.

(** A hold is lifted only by an allow or a deny of the operator. *)
Lemma hold_answer h current outcome reason authority existing now r :
  ResolveDecision (hold_ref h) current outcome reason authority existing now = Ok r →
  outcome.(Outcome_Kind) = DecisionAllowDeny ∧ outcome.(Outcome_Value) ∈ [DecisionAllow; DecisionDeny]
  ∧ authority.(Authority_Kind) = AuthorityKindOperator.
Proof.
  intros ((_ & _ & _ & Ho & Hk & _ & _ & _ & Hop & _) & _)%ResolveDecision_ok.
  destruct Hk as [Hk|Hk]; [discriminate Hk|]. simpl in Hk. split_and!; [done| |done].
  unfold validate_outcome in Ho. rewrite Hk in Ho. simpl in Ho. apply refuse_if_ok in Ho.
  rewrite andb_false_iff in Ho. autorewrite with go in Ho. set_solver.
Qed.
End answers.

Definition example_operator : DecisionResolutionAuthority := MkDecisionAuthority "alice" AuthorityKindOperator "control".

Definition example_hold : WorkUnitHold :=
  MkWorkUnitHold "0.1" "hold-1" "graph" "deploy" "wait for the release window" example_operator 5.

Definition first_answer : result DecisionError DecisionResolution :=
  @ResolveDecision plain_canonicalizer (hold_ref example_hold) None (MkDecisionOutcome DecisionAllowDeny DecisionAllow) ""
    example_operator None 7.

Definition no_resolution : DecisionResolution :=
  MkDecisionResolution "" "" "" "" None (MkDecisionOutcome "" "") "" (MkDecisionAuthority "" "" "") 0.

Lemma ResolveDecision_once_witness :
  let r := ok_or no_resolution first_answer in
  @validate_resolution plain_canonicalizer r = Ok tt ∧ r.(Resolution_Scope) = "graph:deploy".
Proof.
  intros r.
  assert (first_answer = Ok r) as Hr by (apply ok_or_eq; vm_compute; reflexivity).
  destruct (@ResolveDecision_once plain_canonicalizer _ _ _ _ _ _ _ Hr) as (Hv & _ & Hs & _).
  split; [exact Hv|]. rewrite Hs. reflexivity.
Defined.
