(* ===== verification/Message.v ===== *)
(** Engineering messages: [orchestration/communication.go] and
    [orchestration/communication_admission.go].  A worker drafts messages; the
    runtime admits them under its own identity, route and subject, and each
    unit is shown an inbox of what is live.  The strict JSON decoder in front
    of a report is not modelled. *)

From S2P Require Import Prelude GoStrings Sha256 Canonical Item WorkGraph Projection Handoff Decision.
From stdpp Require Import options.

Definition MessageSchemaVersion : string := "0.1".

Definition KindCollaborationRequest : string := "collaboration_request".
Definition KindFinding : string := "finding".
Definition KindDecisionRequest : string := "decision_request".
Definition KindStateUpdate : string := "state_update".

Definition FindingDefect : string := "defect".
Definition FindingRisk : string := "risk".
Definition FindingInconsistency : string := "inconsistency".

Definition AudienceUnit : string := "unit".
Definition AudienceAuthority : string := "authority".
Definition AudienceScope : string := "scope".

Definition MaxMessagesPerInvocation : nat := 8.
Definition MaxScopeMessages : nat := 256.
Definition MaxScopeUnits : nat := MaxBatchItems.
Definition maxMessageBody : nat := 4096.
Definition maxMessagePurpose : nat := 256.
Definition maxMessageRef : nat := 128.
Definition MaxDecisionRequestOptions : nat := 20.
Definition maxInboxEntries : nat := 16.

Record MessageDraft := MkMessageDraft {
  Draft_Kind : string;
  Draft_Target : string;
  Draft_InReplyTo : string;
  Draft_Supersedes : string;
  Draft_SubjectHandoff : string;
  Draft_Purpose : string;
  Draft_Category : string;
  Draft_ExpectedOutcomeKind : string;
  Draft_PermittedOptions : list string;
  Draft_Body : string
}.

Record MessageReport := MkMessageReport {
  MessageReport_SchemaVersion : string;
  MessageReport_Messages : list MessageDraft
}.

Record MessageSource := MkMessageSource {
  Source_Unit : string;
  Source_RunID : string;
  Source_AgentID : string;
  Source_OperationID : string;
  Source_Attempt : Z;
  Source_Index : Z;
  Source_System : bool
}.

Record MessageRoute := MkMessageRoute {
  Route_Audience : string;
  Route_Unit : string
}.

#[export] Instance MessageRoute_eq : EqDecision MessageRoute.
Proof. solve_decision. Defined.

Record EngineeringMessage := MkEngineeringMessage {
  Message_SchemaVersion : string;
  Message_ID : string;
  Message_Scope : string;
  Message_Kind : string;
  Message_Source : MessageSource;
  Message_Route : MessageRoute;
  Message_Subject : option MessageSubject;
  Message_InReplyTo : string;
  Message_Supersedes : string;
  Message_Purpose : string;
  Message_Category : string;
  Message_ExpectedOutcomeKind : string;
  Message_PermittedOptions : list string;
  Message_Body : string;
  Message_DocumentSHA256 : string;
  Message_AdmittedAt : Z
}.

Inductive MessageError :=
  | UnsupportedMessageVersion (version : string)
  | MessageCount (n : nat)
  | MessageRefused (index : nat) (e : MessageError)
  | UnknownMessageKind (kind : string)
  | MessageTextRequired (name : string)
  | MessageTextTooLong (name : string) (bytes limit : nat)
  | MessageTextNotUTF8 (name : string)
  | MemberRequired (kind name : string)
  | MemberForbidden (kind name : string)
  | UnknownCategory (category : string)
  | OptionsWithoutKind
  | OptionsForbidden (kind : string)
  | OptionsRequired
  | TooManyOptions (n : nat)
  | OptionRefused (e : DecisionError)
  | RepeatedOption (option : string)
  | UnknownExpectedOutcome (kind : string)
  | MessageBindingRequired (name : string)
  | SystemNamesAgent
  | MessageNumbersInvalid
  | NotItsRoute (kind : string)
  | MessageIdentityIncomplete
  | MessageDigestRefused (e : CanonicalError)
  | NotAFinding (kind : string)
  | NotUnitRouted
  | NotSubjectBound
  | DestinationIncomplete
  | SameScope
  | CandidateMismatch
  | BaseMismatch
  | TooManyScopeUnits (n : nat)
  | NotAScopeUnit (unit : string)
  | ScopeFull (n : nat)
  | SubjectNotAdmitted (handoff : string)
  | TargetNotInScope (target : string)
  | NotAnsweredBy (request unit : string)
  | RequestSuperseded (request : string)
  | WrongRequester (request target : string)
  | NotCorrectedBy (message kind unit : string)
  | AlreadySuperseded (message : string).

(* ------------------------------------------------------------------ *)
(** * Drafts *)

(** A member a kind requires maps to true, one it permits to false. *)
Definition draftShape (kind : string) : option (gmap string bool) :=
  if kind ≟ KindCollaborationRequest then
    Some (<["target" := true]> (<["purpose" := true]> (<["in_reply_to" := false]> (<["subject_handoff" := false]> ∅))))
  else if kind ≟ KindFinding then Some (<["subject_handoff" := true]> (<["category" := true]> ∅))
  else if kind ≟ KindDecisionRequest then Some (<["purpose" := true]> (<["subject_handoff" := false]> ∅))
  else if kind ≟ KindStateUpdate then Some ∅
  else None.

Definition messageText (name value : string) (limit : nat) : result MessageError () :=
  refuse_if (blank value) (MessageTextRequired name) ;?
  refuse_if (limit <? len value) (MessageTextTooLong name (len value) limit) ;?
  refuse_if (negb (ValidString value)) (MessageTextNotUTF8 name).

Definition add_option (seen : gset string) (option : string) : result MessageError (gset string) :=
  wrap OptionRefused (boundedDecisionText "permitted option" option maxDecisionOptionBytes) ;?
  refuse_if (bool_decide (option ∈ seen)) (RepeatedOption option) ;?
  Ok ({[option]} ∪ seen).

Definition validateDecisionRequestShape (kind : string) (options : list string) : result MessageError () :=
  if kind ≟ "" then refuse_if (0 <? length options) OptionsWithoutKind
  else if (kind ≟ DecisionAllowDeny) || (kind ≟ DecisionText) then
    refuse_if (0 <? length options) (OptionsForbidden kind)
  else if kind ≟ DecisionSelectedOption then
    refuse_if (length options =? 0) OptionsRequired ;?
    refuse_if (MaxDecisionRequestOptions <? length options) (TooManyOptions (length options)) ;?
    for_each add_option options ∅ ;? Ok tt
  else Err (UnknownExpectedOutcome kind).

Definition draft_members (d : MessageDraft) : list (string * string) :=
  [("target", d.(Draft_Target)); ("purpose", d.(Draft_Purpose)); ("in_reply_to", d.(Draft_InReplyTo));
   ("subject_handoff", d.(Draft_SubjectHandoff)); ("category", d.(Draft_Category))].

Definition draft_references (d : MessageDraft) : list (string * string) :=
  [("target", d.(Draft_Target)); ("in_reply_to", d.(Draft_InReplyTo)); ("supersedes", d.(Draft_Supersedes));
   ("subject_handoff", d.(Draft_SubjectHandoff))].

Definition check_member (kind : string) (shape : gmap string bool) (name value : string) : result MessageError () :=
  let required := default false (shape !! name) in
  let allowed := bool_decide (is_Some (shape !! name)) in
  if (value ≟ "") && required then Err (MemberRequired kind name)
  else refuse_if ((value ≠? "") && negb allowed) (MemberForbidden kind name).

Section Drafts.
Context `{!MapRange}.

Definition validateDraft (d : MessageDraft) : result MessageError () :=
  let? shape := of_option (UnknownMessageKind d.(Draft_Kind)) (draftShape d.(Draft_Kind)) in
  messageText "body" d.(Draft_Body) maxMessageBody ;?
  check_map (check_member d.(Draft_Kind) shape) (list_to_map (draft_members d) : gmap string string) ;?
  check_map (λ name value, if value ≠? "" then messageText name value maxMessageRef else Ok tt)
    (list_to_map (draft_references d) : gmap string string) ;?
  (if d.(Draft_Purpose) ≠? "" then messageText "purpose" d.(Draft_Purpose) maxMessagePurpose else Ok tt) ;?
  refuse_if ((d.(Draft_Category) ≠? "") && (d.(Draft_Category) ≠? FindingDefect)
             && (d.(Draft_Category) ≠? FindingRisk) && (d.(Draft_Category) ≠? FindingInconsistency))
    (UnknownCategory d.(Draft_Category)) ;?
  if d.(Draft_Kind) ≟ KindDecisionRequest then
    validateDecisionRequestShape d.(Draft_ExpectedOutcomeKind) d.(Draft_PermittedOptions)
  else refuse_if ((d.(Draft_ExpectedOutcomeKind) ≠? "") || (0 <? length d.(Draft_PermittedOptions)))
         (OptionsForbidden d.(Draft_Kind)).

(** [MessageReport.Validate]. *)
Definition validate_messages (r : MessageReport) : result MessageError () :=
  refuse_if (r.(MessageReport_SchemaVersion) ≠? MessageSchemaVersion)
    (UnsupportedMessageVersion r.(MessageReport_SchemaVersion)) ;?
  let n := length r.(MessageReport_Messages) in
  refuse_if ((n =? 0) || (MaxMessagesPerInvocation <? n)) (MessageCount n) ;?
  check_all (λ '(i, draft), wrap (MessageRefused i) (validateDraft draft)) (imap pair r.(MessageReport_Messages)).

(* ------------------------------------------------------------------ *)
(** * Admitted messages *)

(** [EngineeringMessage.Target]. *)
Definition message_target (m : EngineeringMessage) : string :=
  if m.(Message_Kind) ≠? KindCollaborationRequest then "" else m.(Message_Route).(Route_Unit).

(** [EngineeringMessage.draft]. *)
Definition draft_of (m : EngineeringMessage) : MessageDraft :=
  MkMessageDraft m.(Message_Kind) (message_target m) m.(Message_InReplyTo) m.(Message_Supersedes)
    (match m.(Message_Subject) with Some s => s.(MessageSubject_Handoff) | None => "" end)
    m.(Message_Purpose) m.(Message_Category) m.(Message_ExpectedOutcomeKind) m.(Message_PermittedOptions)
    m.(Message_Body).

Definition no_route : MessageRoute := MkMessageRoute "" "".

Definition routeOf (kind target : string) (subject : option MessageSubject) : MessageRoute :=
  if kind ≟ KindCollaborationRequest then MkMessageRoute AudienceUnit target
  else if kind ≟ KindFinding then
    match subject with
    | None => no_route
    | Some s => MkMessageRoute AudienceUnit s.(MessageSubject_Owner)
    end
  else if kind ≟ KindDecisionRequest then MkMessageRoute AudienceAuthority ""
  else if kind ≟ KindStateUpdate then MkMessageRoute AudienceScope ""
  else no_route.

Definition message_bindings (m : EngineeringMessage) : list (string * string) :=
  let source := m.(Message_Source) in
  [("id", m.(Message_ID)); ("scope", m.(Message_Scope)); ("source.unit", source.(Source_Unit));
   ("source.run_id", source.(Source_RunID)); ("source.operation_id", source.(Source_OperationID));
   ("document_sha256", m.(Message_DocumentSHA256))]
  ++ (if source.(Source_System) then [] else [("source.agent_id", source.(Source_AgentID))]).

(** [EngineeringMessage.Validate]. *)
Definition validate_message (m : EngineeringMessage) : result MessageError () :=
  refuse_if (m.(Message_SchemaVersion) ≠? MessageSchemaVersion) (UnsupportedMessageVersion m.(Message_SchemaVersion)) ;?
  check_map (λ name value, refuse_if (blank value) (MessageBindingRequired name))
    (list_to_map (message_bindings m) : gmap string string) ;?
  refuse_if (m.(Message_Source).(Source_System) && (m.(Message_Source).(Source_AgentID) ≠? "")) SystemNamesAgent ;?
  refuse_if ((m.(Message_Source).(Source_Attempt) <=? 0)%Z || (m.(Message_Source).(Source_Index) <? 0)%Z
             || (m.(Message_AdmittedAt) =? 0)%Z) MessageNumbersInvalid ;?
  refuse_if (routeOf m.(Message_Kind) (message_target m) m.(Message_Subject) ≠? m.(Message_Route))
    (NotItsRoute m.(Message_Kind)) ;?
  validateDraft (draft_of m).

(** [EngineeringMessage.AppliesTo]. *)
Definition AppliesTo (m : EngineeringMessage) (current : HandoffSubject) : bool :=
  match m.(Message_Subject) with
  | Some s => s.(MessageSubject_Revision) ≟ current
  | None => false
  end.

Context `{!Canonicalizer}.

Definition MessageID (runID operationID : string) (attempt index : Z) : result MessageError string :=
  refuse_if ((runID ≟ "") || (operationID ≟ "") || (attempt <=? 0)%Z || (index <? 0)%Z) MessageIdentityIncomplete ;?
  let? digest := wrap MessageDigestRefused (Digest (GStruct
    [("run", GString runID); ("operation", GString operationID); ("attempt", GInt attempt); ("index", GInt index)])) in
  Ok ("message-" +:+ take_bytes 32 digest).

Definition DeliveredFindingID (originalID destinationScope : string) : result MessageError string :=
  let? digest := wrap MessageDigestRefused (Digest (GStruct
    [("original", GString originalID); ("destination", GString destinationScope)])) in
  Ok ("message-delivered-" +:+ take_bytes 32 digest).

(** The copy of a message under another identity, scope, route and
    subject. *)
Definition redirect (m : EngineeringMessage) (id scope : string) (route : MessageRoute) (subject : option MessageSubject)
  : EngineeringMessage :=
  MkEngineeringMessage m.(Message_SchemaVersion) id scope m.(Message_Kind) m.(Message_Source) route subject
    m.(Message_InReplyTo) m.(Message_Supersedes) m.(Message_Purpose) m.(Message_Category)
    m.(Message_ExpectedOutcomeKind) m.(Message_PermittedOptions) m.(Message_Body) m.(Message_DocumentSHA256)
    m.(Message_AdmittedAt).

Definition DeliverFinding (message : EngineeringMessage) (destinationScope destinationUnit : string)
  (destinationRevision : HandoffSubject) : result MessageError EngineeringMessage :=
  refuse_if (message.(Message_Kind) ≠? KindFinding) (NotAFinding message.(Message_Kind)) ;?
  refuse_if ((message.(Message_Route).(Route_Audience) ≠? AudienceUnit) || (message.(Message_Route).(Route_Unit) ≟ ""))
    NotUnitRouted ;?
  let? subject := of_option NotSubjectBound message.(Message_Subject) in
  refuse_if (blank destinationScope || blank destinationUnit) DestinationIncomplete ;?
  refuse_if (destinationScope ≟ message.(Message_Scope)) SameScope ;?
  let original := subject.(MessageSubject_Revision) in
  refuse_if ((original.(CandidateRevision) ≠? destinationRevision.(CandidateRevision))
             || (original.(CandidateTree) ≠? destinationRevision.(CandidateTree))) CandidateMismatch ;?
  refuse_if ((original.(BaseRevision) ≠? "") && (original.(BaseRevision) ≠? destinationRevision.(BaseRevision)))
    BaseMismatch ;?
  let? id := DeliveredFindingID message.(Message_ID) destinationScope in
  let delivered := redirect message id destinationScope
    (MkMessageRoute message.(Message_Route).(Route_Audience) destinationUnit)
    (Some (MkMessageSubject subject.(MessageSubject_Handoff) destinationUnit destinationRevision)) in
  validate_message delivered ;? Ok delivered.

(* ------------------------------------------------------------------ *)
(** * Admission *)

Definition BatchItemUnit (issue : Z) : string := "issue-" +:+ itoa issue.

Record MessageScope := MkMessageScope {
  Scope_ID : string;
  Scope_Units : list string;
  Scope_Subjects : gmap string MessageSubject;
  Scope_Admitted : list EngineeringMessage
}.

Definition with_index (source : MessageSource) (index : Z) : MessageSource :=
  MkMessageSource source.(Source_Unit) source.(Source_RunID) source.(Source_AgentID) source.(Source_OperationID)
    source.(Source_Attempt) index source.(Source_System).

(** The reply of [admitDraft]: only a live collaboration request addressed to
    the writer's unit is answered, and its requester is the target. *)
Definition check_reply (draft : MessageDraft) (unit : string) (prior : gmap string EngineeringMessage)
  (superseded : gset string) : result MessageError () :=
  if draft.(Draft_InReplyTo) ≠? "" then
    let? request := of_option (NotAnsweredBy draft.(Draft_InReplyTo) unit) (prior !! draft.(Draft_InReplyTo)) in
    refuse_if ((request.(Message_Kind) ≠? KindCollaborationRequest)
               || (request.(Message_Route).(Route_Unit) ≠? unit)) (NotAnsweredBy draft.(Draft_InReplyTo) unit) ;?
    refuse_if (bool_decide (draft.(Draft_InReplyTo) ∈ superseded)) (RequestSuperseded draft.(Draft_InReplyTo)) ;?
    refuse_if (draft.(Draft_Target) ≠? request.(Message_Source).(Source_Unit))
      (WrongRequester draft.(Draft_InReplyTo) draft.(Draft_Target))
  else Ok tt.

Definition check_correction (draft : MessageDraft) (unit : string) (prior : gmap string EngineeringMessage)
  : result MessageError () :=
  if draft.(Draft_Supersedes) ≠? "" then
    let? corrected := of_option (NotCorrectedBy draft.(Draft_Supersedes) draft.(Draft_Kind) unit)
                        (prior !! draft.(Draft_Supersedes)) in
    refuse_if ((corrected.(Message_Kind) ≠? draft.(Draft_Kind)) || (corrected.(Message_Source).(Source_Unit) ≠? unit))
      (NotCorrectedBy draft.(Draft_Supersedes) draft.(Draft_Kind) unit)
  else Ok tt.

Definition admitDraft (draft : MessageDraft) (index : nat) (digest : string) (scope : MessageScope)
  (source : MessageSource) (units : gset string) (prior : gmap string EngineeringMessage) (superseded : gset string)
  (now : Z) : result MessageError EngineeringMessage :=
  let unit := source.(Source_Unit) in
  let? id := MessageID source.(Source_RunID) source.(Source_OperationID) source.(Source_Attempt) (Z.of_nat index) in
  let? subject := (if draft.(Draft_SubjectHandoff) ≠? "" then
      of_option (SubjectNotAdmitted draft.(Draft_SubjectHandoff))
        (Some <$> scope.(Scope_Subjects) !! draft.(Draft_SubjectHandoff))
    else Ok None) in
  refuse_if ((draft.(Draft_Target) ≠? "")
             && (negb (bool_decide (draft.(Draft_Target) ∈ units)) || (draft.(Draft_Target) ≟ unit)))
    (TargetNotInScope draft.(Draft_Target)) ;?
  check_reply draft unit prior superseded ;?
  check_correction draft unit prior ;?
  let message := MkEngineeringMessage MessageSchemaVersion id scope.(Scope_ID) draft.(Draft_Kind)
    (with_index source (Z.of_nat index)) (routeOf draft.(Draft_Kind) draft.(Draft_Target) subject) subject
    draft.(Draft_InReplyTo) draft.(Draft_Supersedes) draft.(Draft_Purpose) draft.(Draft_Category)
    draft.(Draft_ExpectedOutcomeKind) draft.(Draft_PermittedOptions) draft.(Draft_Body) digest now in
  validate_message message ;? Ok message.

(** The state of the loop of [AdmitMessages]. *)
Definition admit_next (digest : string) (scope : MessageScope) (source : MessageSource) (units : gset string)
  (prior : gmap string EngineeringMessage) (now : Z) (state : gset string * list EngineeringMessage)
  (entry : nat * MessageDraft) : result MessageError (gset string * list EngineeringMessage) :=
  let '(superseded, admitted) := state in
  let '(i, draft) := entry in
  let? message := wrap (MessageRefused i) (admitDraft draft i digest scope source units prior superseded now) in
  refuse_if ((message.(Message_Supersedes) ≠? "") && bool_decide (message.(Message_Supersedes) ∈ superseded))
    (AlreadySuperseded message.(Message_Supersedes)) ;?
  Ok ({[message.(Message_Supersedes)]} ∪ superseded, admitted ++ [message]).

Definition prior_messages (admitted : list EngineeringMessage) : gmap string EngineeringMessage :=
  fold_left (λ prior m, <[m.(Message_ID) := m]> prior) admitted ∅.

(** The identifiers some message supersedes, the empty one included. *)
Definition superseded_ids (messages : list EngineeringMessage) : gset string :=
  list_to_set (Message_Supersedes <$> messages).

Definition AdmitMessages (report : MessageReport) (digest : string) (scope : MessageScope) (source : MessageSource)
  (now : Z) : result MessageError (list EngineeringMessage) :=
  validate_messages report ;?
  refuse_if (MaxScopeUnits <? length scope.(Scope_Units)) (TooManyScopeUnits (length scope.(Scope_Units))) ;?
  let units : gset string := list_to_set scope.(Scope_Units) in
  refuse_if (negb (bool_decide (source.(Source_Unit) ∈ units))) (NotAScopeUnit source.(Source_Unit)) ;?
  let total := (length scope.(Scope_Admitted) + length report.(MessageReport_Messages))%nat in
  refuse_if (MaxScopeMessages <? total) (ScopeFull total) ;?
  let? state := for_each (admit_next digest scope source units (prior_messages scope.(Scope_Admitted)) now)
                  (imap pair report.(MessageReport_Messages)) (superseded_ids scope.(Scope_Admitted), []) in
  Ok state.2.
End Drafts.

(* ------------------------------------------------------------------ *)
(** * What is shown *)

Definition Live (messages : list EngineeringMessage) : list EngineeringMessage :=
  let superseded := superseded_ids messages in
  filter (λ m, m.(Message_ID) ∉ superseded) messages.

Definition OpenDecisions (messages : list EngineeringMessage) : list EngineeringMessage :=
  filter (λ m, m.(Message_Kind) = KindDecisionRequest) (Live messages).

Record Inbox := MkInbox {
  Inbox_Requests : list EngineeringMessage;
  Inbox_Findings : list EngineeringMessage;
  Inbox_StaleFindings : list EngineeringMessage;
  Inbox_Updates : list EngineeringMessage;
  Inbox_Omitted : nat
}.

(** One iteration of [InboxFor]: the inbox and [latestUpdate], the position of
    each unit's update. *)
Definition inbox_add (unit : string) (current : option HandoffSubject)
  (state : Inbox * gmap string nat) (message : EngineeringMessage) : Inbox * gmap string nat :=
  let '(MkInbox requests findings stale updates omitted as inbox, latestUpdate) := state in
  let writer := message.(Message_Source).(Source_Unit) in
  if (message.(Message_Kind) ≟ KindStateUpdate) && (writer ≠? unit) then
    match latestUpdate !! writer with
    | Some at_ => (MkInbox requests findings stale (<[at_ := message]> updates) omitted, latestUpdate)
    | None => (MkInbox requests findings stale (updates ++ [message]) omitted,
               <[writer := length updates]> latestUpdate)
    end
  else if (message.(Message_Route).(Route_Audience) ≠? AudienceUnit) || (message.(Message_Route).(Route_Unit) ≠? unit) then
    state
  else if (message.(Message_Kind) ≟ KindFinding)
          && match current with None => true | Some c => negb (AppliesTo message c) end then
    (MkInbox requests findings (stale ++ [message]) updates omitted, latestUpdate)
  else if message.(Message_Kind) ≟ KindFinding then
    (MkInbox requests (findings ++ [message]) stale updates omitted, latestUpdate)
  else (MkInbox (requests ++ [message]) findings stale updates omitted, latestUpdate).

(** [Inbox.latest]: the entries kept and the new count of omitted ones. *)
Definition latest (omitted : nat) (messages : list EngineeringMessage) : list EngineeringMessage * nat :=
  if length messages <=? maxInboxEntries then (messages, omitted)
  else (drop (length messages - maxInboxEntries) messages, omitted + (length messages - maxInboxEntries))%nat.

Definition InboxFor (unit : string) (messages : list EngineeringMessage) (current : option HandoffSubject) : Inbox :=
  let '(inbox, _) := fold_left (inbox_add unit current) (Live messages) (MkInbox [] [] [] [] 0, ∅) in
  let '(requests, omitted) := latest inbox.(Inbox_Omitted) inbox.(Inbox_Requests) in
  let '(findings, omitted) := latest omitted inbox.(Inbox_Findings) in
  let '(stale, omitted) := latest omitted inbox.(Inbox_StaleFindings) in
  MkInbox requests findings stale inbox.(Inbox_Updates) omitted.

(* ------------------------------------------------------------------ *)
(** * What is admitted *)

(** A history in which every correction names an earlier record of the same
    kind and writer, and no record is corrected twice. *)
Definition corrections (messages : list EngineeringMessage) : list string :=
  filter (λ id, id ≠ "") (Message_Supersedes <$> messages).

Record well_corrected (messages : list EngineeringMessage) : Prop := {
  corrected_identified : ∀ m, m ∈ messages → m.(Message_ID) ≠ "";
  corrected_once : NoDup (corrections messages);
  corrected_known : ∀ m, m ∈ messages → m.(Message_Supersedes) ≠ "" →
    ∃ c, c ∈ messages ∧ c.(Message_ID) = m.(Message_Supersedes) ∧ c.(Message_Kind) = m.(Message_Kind)
      ∧ c.(Message_Source).(Source_Unit) = m.(Message_Source).(Source_Unit)
}.

Lemma prior_messages_lookup admitted id m :
  prior_messages admitted !! id = Some m → m ∈ admitted ∧ m.(Message_ID) = id.
Proof.
  unfold prior_messages.
  enough (∀ prior : gmap string EngineeringMessage,
    fold_left (λ prior m, <[m.(Message_ID) := m]> prior) admitted prior !! id = Some m →
    (m ∈ admitted ∧ m.(Message_ID) = id) ∨ prior !! id = Some m) as Hg.
  { intros [?|Hk]%Hg; [done|]. by rewrite lookup_empty in Hk. }
  induction admitted as [|x l IH]; intros prior; cbn [fold_left]; [by right|].
  intros [[? ?]|Hm]%IH; [left; split; [by constructor|done]|].
  apply lookup_insert_Some in Hm as [[<- ->]|[_ ?]]; [left; split; [constructor|done]|by right].
Qed.

Lemma elem_of_corrections messages id :
  id ∈ corrections messages ↔ id ≠ "" ∧ id ∈ superseded_ids messages.
Proof. unfold corrections, superseded_ids. by rewrite list_elem_of_filter, elem_of_list_to_set. Qed.

Section admission.
Context `{!MapRange, !Canonicalizer}.

(** What admission makes of a draft. *)
Record admitted_from (digest : string) (scope : MessageScope) (source : MessageSource) (now : Z)
  (index : nat) (draft : MessageDraft) (m : EngineeringMessage) : Prop := {
  from_id : MessageID source.(Source_RunID) source.(Source_OperationID) source.(Source_Attempt) (Z.of_nat index)
    = Ok m.(Message_ID);
  from_source : m.(Message_Source) = with_index source (Z.of_nat index);
  from_scope : m.(Message_Scope) = scope.(Scope_ID) ∧ m.(Message_DocumentSHA256) = digest ∧ m.(Message_AdmittedAt) = now;
  from_draft : m.(Message_Kind) = draft.(Draft_Kind) ∧ m.(Message_Body) = draft.(Draft_Body)
    ∧ m.(Message_InReplyTo) = draft.(Draft_InReplyTo) ∧ m.(Message_Supersedes) = draft.(Draft_Supersedes);
  from_subject : match m.(Message_Subject) with
    | Some s => scope.(Scope_Subjects) !! draft.(Draft_SubjectHandoff) = Some s
    | None => draft.(Draft_SubjectHandoff) = ""
    end;
  from_route : m.(Message_Route) = routeOf draft.(Draft_Kind) draft.(Draft_Target) m.(Message_Subject);
  from_target : draft.(Draft_Target) = ""
    ∨ draft.(Draft_Target) ∈ scope.(Scope_Units) ∧ draft.(Draft_Target) ≠ source.(Source_Unit);
  from_reply : draft.(Draft_InReplyTo) = "" ∨ ∃ request, request ∈ scope.(Scope_Admitted)
    ∧ request.(Message_ID) = draft.(Draft_InReplyTo) ∧ request.(Message_Kind) = KindCollaborationRequest
    ∧ request.(Message_Route).(Route_Unit) = source.(Source_Unit)
    ∧ draft.(Draft_Target) = request.(Message_Source).(Source_Unit)
    ∧ draft.(Draft_InReplyTo) ∉ superseded_ids scope.(Scope_Admitted);
  from_correction : draft.(Draft_Supersedes) = "" ∨ ∃ corrected, corrected ∈ scope.(Scope_Admitted)
    ∧ corrected.(Message_ID) = draft.(Draft_Supersedes) ∧ corrected.(Message_Kind) = draft.(Draft_Kind)
    ∧ corrected.(Message_Source).(Source_Unit) = source.(Source_Unit);
  from_valid : validate_message m = Ok tt
}.

Lemma MessageID_nonempty run operation attempt index id : MessageID run operation attempt index = Ok id → id ≠ "".
Proof. unfold MessageID. autorewrite with go. by intros (_ & digest & _ & [= <-]). Qed.

Lemma check_reply_ok draft unit admitted superseded :
  check_reply draft unit (prior_messages admitted) superseded = Ok tt →
  draft.(Draft_InReplyTo) = "" ∨ ∃ request, request ∈ admitted
    ∧ request.(Message_ID) = draft.(Draft_InReplyTo) ∧ request.(Message_Kind) = KindCollaborationRequest
    ∧ request.(Message_Route).(Route_Unit) = unit
    ∧ draft.(Draft_Target) = request.(Message_Source).(Source_Unit) ∧ draft.(Draft_InReplyTo) ∉ superseded.
Proof.
  unfold check_reply. destruct (_ ≠? "") eqn:He; autorewrite with go in He; [|by left].
  intros (request & Hp%of_option_ok & Hk)%rbind_ok. right.
  autorewrite with go in Hk. apply prior_messages_lookup in Hp as [? ?]. exists request. tauto.
Qed.

Lemma check_correction_ok draft unit admitted :
  check_correction draft unit (prior_messages admitted) = Ok tt →
  draft.(Draft_Supersedes) = "" ∨ ∃ corrected, corrected ∈ admitted
    ∧ corrected.(Message_ID) = draft.(Draft_Supersedes) ∧ corrected.(Message_Kind) = draft.(Draft_Kind)
    ∧ corrected.(Message_Source).(Source_Unit) = unit.
Proof.
  unfold check_correction. destruct (_ ≠? "") eqn:He; autorewrite with go in He; [|by left].
  intros (corrected & Hp%of_option_ok & Hk)%rbind_ok. right.
  rewrite refuse_if_ok, orb_false_iff in Hk. autorewrite with go in Hk.
  apply prior_messages_lookup in Hp as [? ?]. exists corrected. tauto.
Qed.

Lemma admitDraft_ok draft index digest scope source superseded now m :
  superseded_ids scope.(Scope_Admitted) ⊆ superseded →
  admitDraft draft index digest scope source (list_to_set scope.(Scope_Units))
    (prior_messages scope.(Scope_Admitted)) superseded now = Ok m →
  admitted_from digest scope source now index draft m.
Proof.
  intros Hsub. unfold admitDraft. cbv zeta.
  intros (id & Hid & (subject & Hs & Hk)%rbind_ok)%rbind_ok.
  rewrite !check_then, refuse_if_ok in Hk. destruct Hk as (Htarget & Hreply & Hcorr & Hvalid & [= <-]).
  apply check_reply_ok in Hreply. apply check_correction_ok in Hcorr.
  split; simpl; try done.
  - destruct (_ ≠? "") eqn:He; autorewrite with go in He; [|by injection Hs as <-].
    apply of_option_ok in Hs. destruct (Scope_Subjects scope !! _) eqn:Hl; [|done]. by injection Hs as <-.
  - rewrite andb_false_iff, orb_false_iff in Htarget. autorewrite with go in Htarget.
    rewrite elem_of_list_to_set in Htarget. tauto.
  - destruct Hreply as [?|(request & ? & ? & ? & ? & ? & Hn)]; [by left|right]. exists request.
    split_and!; try done. intros Hin. by apply Hn, Hsub.
Qed.

(** The loop admits draft by draft. *)
Lemma admit_all digest scope source now entries superseded ms :
  for_each (admit_next digest scope source (list_to_set scope.(Scope_Units)) (prior_messages scope.(Scope_Admitted)) now)
    entries (superseded_ids scope.(Scope_Admitted), []) = Ok (superseded, ms) →
  Forall2 (λ entry m, admitted_from digest scope source now entry.1 entry.2 m) entries ms
  ∧ NoDup (corrections ms) ∧ ∀ id, id ∈ corrections ms → id ∉ superseded_ids scope.(Scope_Admitted).
Proof.
  intros Hl.
  enough (Forall2 (λ entry m, admitted_from digest scope source now entry.1 entry.2 m) entries ms
    ∧ NoDup (corrections ms) ∧ (∀ id, id ∈ corrections ms → id ∉ superseded_ids scope.(Scope_Admitted))
    ∧ superseded = superseded_ids (scope.(Scope_Admitted) ++ ms)) by tauto.
  revert Hl. apply (for_each_ind _ (λ done state,
    Forall2 (λ entry m, admitted_from digest scope source now entry.1 entry.2 m) done state.2
    ∧ NoDup (corrections state.2) ∧ (∀ id, id ∈ corrections state.2 → id ∉ superseded_ids scope.(Scope_Admitted))
    ∧ state.1 = superseded_ids (scope.(Scope_Admitted) ++ state.2))).
  { simpl. rewrite app_nil_r. split_and!; [constructor|constructor| |done]. intros ? []%not_elem_of_nil. }
  intros done [i draft] rest [sup1 ms1] s2 _ (Hf & Hnd & Hnew & Hsup) Hstep. simpl in *. subst sup1.
  apply rbind_ok in Hstep as (m & Hm%wrap_ok & Hstep). autorewrite with go in Hstep.
  destruct Hstep as [Hfresh [= <-]]. simpl.
  assert (superseded_ids (scope.(Scope_Admitted) ++ ms1) = superseded_ids scope.(Scope_Admitted) ∪ superseded_ids ms1) as Happ
    by (unfold superseded_ids; by rewrite fmap_app, list_to_set_app_L).
  rewrite Happ in Hm, Hfresh. apply admitDraft_ok in Hm; [|set_solver].
  assert (corrections (ms1 ++ [m]) = corrections ms1 ++ (if decide (m.(Message_Supersedes) ≠ "") then [m.(Message_Supersedes)] else []))
    as Hcorr. { unfold corrections. rewrite fmap_app, filter_app. simpl. by rewrite filter_cons, filter_nil. }
  rewrite andb_false_iff in Hfresh. autorewrite with go in Hfresh.
  split_and!.
  - apply Forall2_app; [done|]. by constructor; [|constructor].
  - rewrite Hcorr. apply NoDup_app. split_and!; [done| |by destruct (decide _); repeat constructor; apply not_elem_of_nil].
    intros id [Hne Hin]%elem_of_corrections. destruct (decide _) as [Hd|]; [|apply not_elem_of_nil].
    rewrite list_elem_of_singleton. intros ->. set_solver.
  - intros id. rewrite Hcorr, elem_of_app. intros [?|Hin]; [auto|].
    destruct (decide _) as [Hd|]; [|by apply not_elem_of_nil in Hin]. apply list_elem_of_singleton in Hin as ->. set_solver.
  - rewrite Happ. unfold superseded_ids. rewrite !fmap_app, !list_to_set_app_L. simpl. set_solver.
Qed.

Lemma AdmitMessages_inv report digest scope source now ms :
  AdmitMessages report digest scope source now = Ok ms →
  source.(Source_Unit) ∈ scope.(Scope_Units)
  ∧ (length (scope.(Scope_Admitted) ++ ms) <= MaxScopeMessages)%nat
  ∧ length ms = length report.(MessageReport_Messages)
  ∧ (∀ i d m, report.(MessageReport_Messages) !! i = Some d → ms !! i = Some m →
       admitted_from digest scope source now i d m)
  ∧ NoDup (corrections ms) ∧ ∀ id, id ∈ corrections ms → id ∉ superseded_ids scope.(Scope_Admitted).
Proof.
  unfold AdmitMessages. cbv zeta. rewrite !check_then, !refuse_if_ok.
  intros (_ & _ & Hu & Hb & ([superseded ms'] & Hl & [= <-])%rbind_ok). simpl.
  apply admit_all in Hl as (Hf & Hnd & Hnew). autorewrite with go in Hu. apply Nat.ltb_ge in Hb.
  apply Forall2_length in Hf as Hlen. rewrite length_imap in Hlen.
  split_and!; [by apply elem_of_list_to_set in Hu|rewrite length_app; lia|done| |done|done].
  intros i d m Hd Hm. destruct (Forall2_lookup_lr _ _ _ i (i, d) m Hf); [by rewrite list_lookup_imap, Hd|done|by split].
Qed.

(** The members a kind requires are present and those it does not know are
    absent. *)
Lemma validateDraft_members d :
  validateDraft d = Ok tt →
  ∃ shape, draftShape d.(Draft_Kind) = Some shape
    ∧ ∀ name value, (name, value) ∈ draft_members d → check_member d.(Draft_Kind) shape name value = Ok tt.
Proof.
  unfold validateDraft. intros (shape & Hs%of_option_ok & Hk)%rbind_ok. exists shape. split; [done|].
  autorewrite with go in Hk. destruct Hk as (_ & Hm & _).
  rewrite check_map_literal, Forall_forall in Hm by (apply (bool_decide_eq_true_1 _); reflexivity).
  intros name value Hin. by apply (Hm (name, value)).
Qed.

Lemma finding_has_subject m :
  validate_message m = Ok tt → m.(Message_Kind) = KindFinding → m.(Message_Subject) ≠ None.
Proof.
  unfold validate_message. autorewrite with go. intros (_ & _ & _ & _ & _ & Hd) Hk Hn.
  apply validateDraft_members in Hd as (shape & Hs & Hm). simpl in Hs. rewrite Hk in Hs. injection Hs as <-.
  specialize (Hm "subject_handoff" ""). simpl in Hm. rewrite Hk in Hm.
  assert (Ok tt ≠ Err (MemberRequired KindFinding "subject_handoff")) as Hne by done.
  apply Hne. symmetry. apply Hm. unfold draft_members. simpl. rewrite Hn. set_solver.
Qed.

(** C40: What a worker writes never becomes identity, provenance, route or
    subject: every admitted message has the identity of the invocation that
    wrote it, the runtime's source, scope and document, a subject only as the
    runtime knows it for an admitted handoff, the one route of its kind, and
    a target, reply and correction that are records of its own scope. *)
Theorem AdmitMessages_provenance report digest scope source now ms i draft m :
  AdmitMessages report digest scope source now = Ok ms →
  report.(MessageReport_Messages) !! i = Some draft → ms !! i = Some m →
  source.(Source_Unit) ∈ scope.(Scope_Units) ∧ admitted_from digest scope source now i draft m
  ∧ (m.(Message_Kind) = KindCollaborationRequest →
       m.(Message_Route) = MkMessageRoute AudienceUnit draft.(Draft_Target))
  ∧ (m.(Message_Kind) = KindFinding → ∃ s, scope.(Scope_Subjects) !! draft.(Draft_SubjectHandoff) = Some s
       ∧ m.(Message_Route) = MkMessageRoute AudienceUnit s.(MessageSubject_Owner))
  ∧ (m.(Message_Kind) = KindDecisionRequest → m.(Message_Route) = MkMessageRoute AudienceAuthority "").
Proof.
  intros (Hu & _ & _ & Hf & _)%AdmitMessages_inv Hd Hm. pose proof (Hf i draft m Hd Hm) as Ha.
  split; [done|]. split; [done|]. destruct Ha as [_ _ _ (Hk & _) Hs Hr _ _ _ Hv]. rewrite <- Hk in Hr.
  split_and!; intros He; rewrite He in Hr; [done| |done].
  destruct (Message_Subject m) as [s|] eqn:Hsub; [by exists s|].
  destruct (finding_has_subject _ Hv He). done.
Qed.

Lemma admitted_in report digest scope source now ms m :
  AdmitMessages report digest scope source now = Ok ms → m ∈ ms →
  ∃ i draft, admitted_from digest scope source now i draft m.
Proof.
  intros (_ & _ & Hlen & Hf & _)%AdmitMessages_inv [i Hi]%list_elem_of_lookup.
  destruct (lookup_lt_is_Some_2 report.(MessageReport_Messages) i) as [draft Hd].
  { rewrite <- Hlen. by eapply lookup_lt_Some. }
  exists i, draft. by apply Hf.
Qed.

Lemma correction_in report digest scope source now ms m :
  AdmitMessages report digest scope source now = Ok ms → m ∈ ms → m.(Message_Supersedes) ≠ "" →
  ∃ c, c ∈ scope.(Scope_Admitted) ∧ c.(Message_ID) = m.(Message_Supersedes) ∧ c.(Message_Kind) = m.(Message_Kind)
    ∧ c.(Message_Source).(Source_Unit) = m.(Message_Source).(Source_Unit).
Proof.
  intros Ha Hm Hne. destruct (admitted_in _ _ _ _ _ _ _ Ha Hm) as (i & draft & [_ Hs _ (Hk & _ & _ & Hd) _ _ _ _ Hc _]).
  rewrite Hd, Hk, Hs in *. destruct Hc as [?|(c & ? & ? & ? & ?)]; [done|]. by exists c.
Qed.

(** History is appended, never rewritten: admission keeps a scope's
    history within its bound and well corrected, every correction naming an
    earlier record of the same kind and writer and no record being corrected
    twice, not even within one report. *)
Theorem AdmitMessages_history report digest scope source now ms :
  AdmitMessages report digest scope source now = Ok ms → well_corrected scope.(Scope_Admitted) →
  (length (scope.(Scope_Admitted) ++ ms) <= 256)%nat ∧ well_corrected (scope.(Scope_Admitted) ++ ms).
Proof.
  intros Ha [Hid Honce Hknown]. destruct (AdmitMessages_inv _ _ _ _ _ _ Ha) as (_ & Hb & _ & _ & Hnd & Hnew).
  split; [done|]. split.
  - intros m [Hm|Hm]%elem_of_app; [auto|]. destruct (admitted_in _ _ _ _ _ _ _ Ha Hm) as (i & draft & [Hmid _ _ _ _ _ _ _ _ _]).
    by eapply MessageID_nonempty.
  - unfold corrections. rewrite fmap_app, filter_app. apply NoDup_app. split_and!; [done| |done].
    intros id [_ Hin]%elem_of_corrections Hin'. by eapply Hnew.
  - intros m [Hm|Hm]%elem_of_app Hne.
    + destruct (Hknown m Hm Hne) as (c & ? & ?). exists c. set_solver.
    + destruct (correction_in _ _ _ _ _ _ _ Ha Hm Hne) as (c & ? & ?). exists c. set_solver.
Qed.

(** Nothing a worker writes closes a decision request: after any report
    is admitted under fresh identities, a request that was open is still open,
    or its own writer has replaced it by another request that is. *)
Theorem OpenDecisions_kept report digest scope source now ms request :
  AdmitMessages report digest scope source now = Ok ms → well_corrected scope.(Scope_Admitted) →
  NoDup (Message_ID <$> scope.(Scope_Admitted) ++ ms) →
  request ∈ OpenDecisions scope.(Scope_Admitted) →
  ∃ open, open ∈ OpenDecisions (scope.(Scope_Admitted) ++ ms)
    ∧ (open = request ∨ open ∈ ms ∧ open.(Message_Supersedes) = request.(Message_ID)
         ∧ open.(Message_Source).(Source_Unit) = request.(Message_Source).(Source_Unit)).
Proof.
  intros Ha [Hid _ Hknown] Hids. unfold OpenDecisions, Live. rewrite !list_elem_of_filter. intros (Hkind & Hlive & Hin).
  assert (∀ id, id ∈ superseded_ids (scope.(Scope_Admitted) ++ ms) ↔
    id ∈ superseded_ids scope.(Scope_Admitted) ∨ ∃ m, m ∈ ms ∧ m.(Message_Supersedes) = id) as Hsup.
  { intros id. unfold superseded_ids. rewrite fmap_app, list_to_set_app, elem_of_union, !elem_of_list_to_set.
    rewrite (list_elem_of_fmap _ ms). naive_solver. }
  destruct (decide (request.(Message_ID) ∈ superseded_ids (scope.(Scope_Admitted) ++ ms))) as [Hs|Hs].
  2: { exists request. rewrite !list_elem_of_filter, elem_of_app. auto. }
  apply Hsup in Hs as [?|(m & Hm & He)]; [done|]. exists m. rewrite !list_elem_of_filter, elem_of_app.
  assert (m.(Message_Supersedes) ≠ "") as Hms by (rewrite He; auto).
  destruct (correction_in _ _ _ _ _ _ _ Ha Hm Hms) as (c & Hc & Hcid & Hck & Hcs).
  rewrite fmap_app in Hids. apply NoDup_app in Hids as (HidsA & Hdisj & _).
  assert (c = request) as -> by (apply (NoDup_fmap_inj Message_ID scope.(Scope_Admitted)); [done..|congruence]).
  split; [|right; split_and!; congruence]. split_and!; [congruence| |by right].
  assert (∀ c, c ∈ scope.(Scope_Admitted) → c.(Message_ID) ≠ m.(Message_ID)) as Hold.
  { intros a Haa Hsame. apply (Hdisj a.(Message_ID)); [by apply list_elem_of_fmap_2|]. rewrite Hsame. by apply list_elem_of_fmap_2. }
  destruct (admitted_in _ _ _ _ _ _ _ Ha Hm) as (i & draft & [Hmid _ _ _ _ _ _ _ _ _]).
  apply MessageID_nonempty in Hmid. rewrite Hsup. unfold superseded_ids.
  rewrite elem_of_list_to_set. intros [(a & Hsa & Haa)%list_elem_of_fmap|(a & Haa & Hsa)].
  - destruct (Hknown a Haa) as (c & Hc' & Hcid' & _); [congruence|]. apply (Hold c Hc'). congruence.
  - destruct (correction_in _ _ _ _ _ _ _ Ha Haa) as (c & Hc' & Hcid' & _); [congruence|]. apply (Hold c Hc'). congruence.
Qed.
End admission.

(* ------------------------------------------------------------------ *)
(** * What a unit is shown *)

Section inbox.
Variables (unit : string) (current : option HandoffSubject).

Local Notation writer m := (m.(Message_Source).(Source_Unit)).

(** The last observation of [w] counts, when [w] is another unit. *)
Definition update_of (w : string) (m : EngineeringMessage) : Prop :=
  m.(Message_Kind) = KindStateUpdate ∧ writer m ≠ unit ∧ writer m = w.

Definition addressed (m : EngineeringMessage) : Prop :=
  ¬ (m.(Message_Kind) = KindStateUpdate ∧ writer m ≠ unit) ∧ m.(Message_Route) = MkMessageRoute AudienceUnit unit.

Definition applies (m : EngineeringMessage) : Prop :=
  match current with Some c => AppliesTo m c = true | None => False end.

#[global] Instance update_of_dec w m : Decision (update_of w m).
Proof. unfold update_of. solve_decision. Defined.
#[global] Instance applies_dec m : Decision (applies m).
Proof. unfold applies. destruct current; solve_decision. Defined.

Lemma stale_for m :
  match current with None => true | Some c => negb (AppliesTo m c) end = negb (bool_decide (applies m)).
Proof.
  destruct (decide (applies m)) as [Ha|Ha];
    [rewrite (bool_decide_eq_true_2 _ Ha)|rewrite (bool_decide_eq_false_2 _ Ha)]; unfold applies in Ha.
  - destruct current; [by rewrite Ha|done].
  - destruct current; [|done]. by destruct (AppliesTo m h).
Qed.

Definition inbox_requests (l : list EngineeringMessage) : list EngineeringMessage :=
  filter (λ m, addressed m ∧ m.(Message_Kind) ≠ KindFinding) l.
Definition inbox_findings (l : list EngineeringMessage) : list EngineeringMessage :=
  filter (λ m, addressed m ∧ m.(Message_Kind) = KindFinding ∧ applies m) l.
Definition inbox_stale (l : list EngineeringMessage) : list EngineeringMessage :=
  filter (λ m, addressed m ∧ m.(Message_Kind) = KindFinding ∧ ¬ applies m) l.

(** The updates of the loop's state, by writer and by position. *)
Record updates_of (l updates : list EngineeringMessage) (latestUpdate : gmap string nat) : Prop := {
  updates_index : ∀ w n, latestUpdate !! w = Some n ↔ ∃ m, updates !! n = Some m ∧ writer m = w;
  updates_last : ∀ m, m ∈ updates → last (filter (update_of (writer m)) l) = Some m;
  updates_all : ∀ w m, last (filter (update_of w) l) = Some m → is_Some (latestUpdate !! w)
}.

Lemma filter_snoc {A} (P : A → Prop) `{!∀ x, Decision (P x)} l x :
  filter P (l ++ [x]) = filter P l ++ (if decide (P x) then [x] else []).
Proof. by rewrite filter_app, filter_cons, filter_nil. Qed.

Lemma updates_skip l updates latestUpdate x :
  (∀ w, ¬ update_of w x) → updates_of l updates latestUpdate → updates_of (l ++ [x]) updates latestUpdate.
Proof.
  intros Hx [Hi Hl Ha]. assert (∀ w, filter (update_of w) (l ++ [x]) = filter (update_of w) l) as He.
  { intros w. rewrite filter_snoc, decide_False by done. apply app_nil_r. }
  split; [done|intros m; rewrite He; apply Hl|intros w m; rewrite He; apply Ha].
Qed.

Lemma updates_replace l updates latestUpdate x n :
  update_of (writer x) x → latestUpdate !! writer x = Some n →
  updates_of l updates latestUpdate → updates_of (l ++ [x]) (<[n := x]> updates) latestUpdate.
Proof.
  intros Hx Hn [Hi Hl Ha]. destruct (proj1 (Hi _ _) Hn) as (m0 & Hm0 & Hw0). apply lookup_lt_Some in Hm0 as Hlt.
  split.
  - intros w k. rewrite Hi. setoid_rewrite list_lookup_insert_Some. split.
    + intros (m & Hk & Hm). destruct (decide (n = k)) as [<-|]; [exists x; naive_solver congruence|exists m; naive_solver].
    + intros (m & [(<- & <- & _)|[_ Hk]] & <-); eauto.
  - intros m [k Hk]%list_elem_of_lookup. rewrite filter_snoc.
    apply list_lookup_insert_Some in Hk as [(<- & <- & _)|[Hne Hk]]; [by rewrite decide_True, last_snoc|].
    rewrite decide_False, app_nil_r; [apply Hl, list_elem_of_lookup; by exists k|].
    intros (_ & _ & Hw). apply Hne. assert (latestUpdate !! writer m = Some k) by (apply Hi; eauto). congruence.
  - intros w m. rewrite filter_snoc. destruct (decide (update_of w x)) as [(_ & _ & <-)|]; [by eauto|].
    rewrite app_nil_r. apply Ha.
Qed.

Lemma updates_add l updates latestUpdate x :
  update_of (writer x) x → latestUpdate !! writer x = None →
  updates_of l updates latestUpdate →
  updates_of (l ++ [x]) (updates ++ [x]) (<[writer x := length updates]> latestUpdate).
Proof.
  intros Hx Hn [Hi Hl Ha]. split.
  - intros w k. rewrite lookup_insert_Some. setoid_rewrite lookup_snoc_Some. split.
    + intros [[<- <-]|[Hne Hk]]; [eauto|]. apply Hi in Hk as (m & Hm & <-). apply lookup_lt_Some in Hm as ?. eauto.
    + intros (m & [[Hlt Hm]|[-> <-]] & <-); [right|by left]. assert (latestUpdate !! writer m = Some k) by (apply Hi; eauto).
      split; [congruence|done].
  - intros m. rewrite elem_of_app, list_elem_of_singleton, filter_snoc. intros [Hm| ->]; [|by rewrite decide_True, last_snoc].
    rewrite decide_False, app_nil_r; [by apply Hl|]. intros (_ & _ & Hw). apply list_elem_of_lookup in Hm as [k Hk].
    assert (latestUpdate !! writer m = Some k) by (apply Hi; eauto). congruence.
  - intros w m. rewrite filter_snoc. destruct (decide (update_of w x)) as [(_ & _ & <-)|].
    + rewrite lookup_insert_eq. eauto.
    + rewrite app_nil_r. intros [n' Hn']%Ha. rewrite lookup_insert_is_Some'. eauto.
Qed.

Lemma inbox_loop l :
  ∃ updates latestUpdate,
    fold_left (inbox_add unit current) l (MkInbox [] [] [] [] 0, ∅)
      = (MkInbox (inbox_requests l) (inbox_findings l) (inbox_stale l) updates 0, latestUpdate)
    ∧ updates_of l updates latestUpdate.
Proof.
  induction l as [|x l (updates & latestUpdate & IH & Hu)] using rev_ind.
  - exists [], ∅. split; [done|]. split; simpl; [|by intros ? ?%not_elem_of_nil|done].
    intros w n. rewrite lookup_empty. split; [done|]. by intros (? & ? & _).
  - rewrite fold_left_app, IH. cbn [fold_left inbox_add]. unfold inbox_requests, inbox_findings, inbox_stale.
    rewrite !filter_snoc.
    destruct ((_ ≟ KindStateUpdate) && _) eqn:Hk; autorewrite with go in Hk.
    { destruct Hk as [Hk Hw]. assert (update_of (writer x) x) as Hx by done.
      assert (¬ addressed x) as Hna by (intros [Hn _]; by apply Hn).
      rewrite !decide_False, !app_nil_r by tauto.
      destruct (latestUpdate !! writer x) as [n|] eqn:Hn; eexists _, _; (split; [done|]).
      - by apply updates_replace.
      - by apply updates_add. }
    assert (¬ (Message_Kind x = KindStateUpdate ∧ writer x ≠ unit)) as Hnu.
    { apply andb_false_iff in Hk. autorewrite with go in Hk. tauto. }
    assert (updates_of (l ++ [x]) updates latestUpdate) as Hu' by (apply updates_skip; unfold update_of; naive_solver).
    exists updates, latestUpdate. split; [|done].
    destruct (decide (Message_Route x = MkMessageRoute AudienceUnit unit)) as [Hr|Hr].
    2: { assert ((Route_Audience (Message_Route x) ≠? AudienceUnit) || (Route_Unit (Message_Route x) ≠? unit) = true) as ->.
         { apply orb_true_iff. autorewrite with go. destruct (Message_Route x) as [a u]. simpl in *.
           destruct (decide (a = AudienceUnit)); [right; congruence|by left]. }
         rewrite !decide_False, !app_nil_r by (unfold addressed; tauto). done. }
    assert ((Route_Audience (Message_Route x) ≠? AudienceUnit) || (Route_Unit (Message_Route x) ≠? unit) = false) as ->
      by (rewrite Hr; simpl; by rewrite !bool_decide_eq_true_2).
    assert (addressed x) as Hadd by done.
    destruct (decide (Message_Kind x = KindFinding)) as [Hf|Hf].
    + rewrite (bool_decide_eq_true_2 _ Hf). simpl. rewrite (decide_False (P := addressed x ∧ _)), app_nil_r by tauto.
      rewrite stale_for.
      destruct (decide (applies x)) as [Ha|Ha];
        [rewrite (bool_decide_eq_true_2 _ Ha)|rewrite (bool_decide_eq_false_2 _ Ha)]; simpl.
      * by rewrite decide_True, decide_False, app_nil_r by tauto.
      * by rewrite decide_False, decide_True, app_nil_r by tauto.
    + rewrite (bool_decide_eq_false_2 _ Hf). simpl. rewrite decide_True, !decide_False, !app_nil_r by tauto. done.
Qed.
End inbox.

Definition keep_last (l : list EngineeringMessage) : list EngineeringMessage := drop (length l - maxInboxEntries) l.

Lemma latest_spec omitted l : latest omitted l = (keep_last l, omitted + (length l - maxInboxEntries))%nat.
Proof.
  unfold latest, keep_last. destruct (length l <=? maxInboxEntries) eqn:Hl; [|done]. apply Nat.leb_le in Hl.
  assert (length l - maxInboxEntries = 0)%nat as -> by lia. by rewrite Nat.add_0_r.
Qed.

(** An inbox shows exactly what is live: the last sixteen requests
    addressed to the unit, the last sixteen findings bound to its current
    subject, the last sixteen bound to any other, each in admission order with
    what was left out counted, and of every other unit its last live
    observation, once. *)
Theorem InboxFor_spec unit messages current :
  let inbox := InboxFor unit messages current in
  let live := Live messages in
  inbox.(Inbox_Requests) = keep_last (inbox_requests unit live)
  ∧ inbox.(Inbox_Findings) = keep_last (inbox_findings unit current live)
  ∧ inbox.(Inbox_StaleFindings) = keep_last (inbox_stale unit current live)
  ∧ inbox.(Inbox_Omitted) = ((length (inbox_requests unit live) - 16) + (length (inbox_findings unit current live) - 16)
      + (length (inbox_stale unit current live) - 16))%nat
  ∧ NoDup ((λ m, m.(Message_Source).(Source_Unit)) <$> inbox.(Inbox_Updates))
  ∧ ∀ m, m ∈ inbox.(Inbox_Updates) ↔
      last (filter (update_of unit m.(Message_Source).(Source_Unit)) live) = Some m.
Proof.
  intros inbox live. subst inbox. unfold InboxFor. fold live.
  destruct (inbox_loop unit current live) as (updates & latestUpdate & -> & [Hi Hl Ha]). rewrite !latest_spec.
  cbn [Inbox_Requests Inbox_Findings Inbox_StaleFindings Inbox_Updates Inbox_Omitted].
  split_and!; [done..| |].
  - apply NoDup_alt. intros i j w. rewrite !list_lookup_fmap.
    intros (m & Hm & ->)%fmap_Some (m' & Hm' & He)%fmap_Some.
    assert (latestUpdate !! m.(Message_Source).(Source_Unit) = Some i) as Hi1 by (apply Hi; eauto).
    assert (latestUpdate !! m.(Message_Source).(Source_Unit) = Some j) as Hj1 by (apply Hi; rewrite He; eauto). congruence.
  - intros m. split; [apply Hl|]. intros Hlast. destruct (Ha _ _ Hlast) as [n (m' & Hm' & Hw)%Hi].
    rewrite <- Hw in Hlast. rewrite (Hl m') in Hlast by (apply list_elem_of_lookup; eauto). injection Hlast as ->.
    apply list_elem_of_lookup. eauto.
Qed.

(** Delivery copies one observation and completes nothing else: a
    delivered finding is a valid message that keeps the original's writer,
    category, text and handoff, lives in another scope under the identity of
    that delivery, is routed to the producer's own name there, and is bound
    to the same candidate and tree, with a base revision added only where the
    original had none. *)
Theorem DeliverFinding_spec `{!MapRange, !Canonicalizer} message scope unit revision delivered :
  DeliverFinding message scope unit revision = Ok delivered →
  validate_message delivered = Ok tt ∧ message.(Message_Kind) = KindFinding
  ∧ DeliveredFindingID message.(Message_ID) scope = Ok delivered.(Message_ID)
  ∧ delivered.(Message_Scope) = scope ∧ scope ≠ message.(Message_Scope)
  ∧ delivered.(Message_Route) = MkMessageRoute AudienceUnit unit
  ∧ draft_of delivered = draft_of message ∧ delivered.(Message_Source) = message.(Message_Source)
  ∧ ∃ original, message.(Message_Subject) = Some original
      ∧ delivered.(Message_Subject) = Some (MkMessageSubject original.(MessageSubject_Handoff) unit revision)
      ∧ revision.(CandidateRevision) = original.(MessageSubject_Revision).(CandidateRevision)
      ∧ revision.(CandidateTree) = original.(MessageSubject_Revision).(CandidateTree)
      ∧ (original.(MessageSubject_Revision).(BaseRevision) = "" ∨ revision = original.(MessageSubject_Revision)).
Proof.
  unfold DeliverFinding. intros Hd. rewrite !check_then in Hd. destruct Hd as (Hk & Hr & Hd). autorewrite with go in Hk.
  rewrite refuse_if_ok, orb_false_iff in Hr. autorewrite with go in Hr.
  apply rbind_ok in Hd as (original & Ho%of_option_ok & Hd).
  cbv zeta in Hd. rewrite !check_then, !refuse_if_ok in Hd. destruct Hd as (_ & Hs & Hc & Hb & Hd).
  apply rbind_ok in Hd as (id & Hid & [Hv [= <-]]%check_then).
  rewrite orb_false_iff in Hc. rewrite andb_false_iff in Hb. autorewrite with go in Hs, Hc, Hb.
  destruct Hr as [Hra Hru]. destruct Hc as [Hc1 Hc2].
  split_and!; [done..|simpl; congruence| |done|].
  - unfold draft_of, message_target. simpl. by rewrite Ho, Hk.
  - exists original. split_and!; [done..|].
    destruct Hb as [?|Hb]; [by left|right].
    destruct revision, (MessageSubject_Revision original). simpl in *. congruence.
Qed.

(* ------------------------------------------------------------------ *)
(** * A concrete scope *)

Definition example_subject : MessageSubject := MkMessageSubject "handoff-2" "issue-2" (MkHandoffSubject "base" "rev" "tree").

Definition decision_draft (supersedes purpose : string) : MessageDraft :=
  MkMessageDraft KindDecisionRequest "" "" supersedes "" purpose "" DecisionAllowDeny [] "may this ship?".
Definition finding_draft : MessageDraft :=
  MkMessageDraft KindFinding "" "" "" "handoff-2" "" FindingDefect "" [] "the build is broken".

Definition example_source (run : string) : MessageSource := MkMessageSource "issue-1" run "agent" "op" 1 0 false.

Definition example_scope (admitted : list EngineeringMessage) : MessageScope :=
  MkMessageScope "batch-1" ["issue-1"; "issue-2"] (<["handoff-2" := example_subject]> ∅) admitted.

Definition admit_example (run : string) (drafts : list MessageDraft) (admitted : list EngineeringMessage)
  : result MessageError (list EngineeringMessage) :=
  @AdmitMessages range_forward plain_canonicalizer (MkMessageReport MessageSchemaVersion drafts) "digest"
    (example_scope admitted) (example_source run) 9.

Definition asked : list EngineeringMessage := ok_or [] (admit_example "run-1" [decision_draft "" "release"] []).

Definition asked_id : string := default "" (Message_ID <$> head asked).

Definition reworded : list EngineeringMessage :=
  ok_or [] (admit_example "run-2" [decision_draft asked_id "release again"; finding_draft] asked).

Lemma asked_ok : admit_example "run-1" [decision_draft "" "release"] [] = Ok asked.
Proof. apply ok_or_eq. vm_compute. reflexivity. Qed.

Lemma reworded_ok : admit_example "run-2" [decision_draft asked_id "release again"; finding_draft] asked = Ok reworded.
Proof. apply ok_or_eq. vm_compute. reflexivity. Qed.

Lemma asked_well_corrected : well_corrected asked.
Proof.
  assert (Forall (λ m, m.(Message_ID) ≠ "" ∧ m.(Message_Supersedes) = "") asked) as Hall
    by (apply (bool_decide_eq_true_1 _); vm_compute; reflexivity).
  rewrite Forall_forall in Hall. split.
  - intros m Hm. by apply Hall.
  - apply (bool_decide_eq_true_1 _). vm_compute. reflexivity.
  - intros m Hm Hne. by destruct Hne; apply Hall.
Qed.

Lemma AdmitMessages_history_witness : well_corrected (asked ++ reworded).
Proof.
  exact (proj2 (@AdmitMessages_history range_forward plain_canonicalizer _ _ _ _ _ _ reworded_ok asked_well_corrected)).
Defined.

Lemma AdmitMessages_provenance_witness :
  ∃ m, reworded !! 1%nat = Some m ∧ m.(Message_Route) = MkMessageRoute AudienceUnit "issue-2".
Proof.
  assert (is_Some (reworded !! 1%nat)) as [m Hm] by (apply (bool_decide_eq_true_1 _); vm_compute; reflexivity).
  exists m. split; [exact Hm|].
  destruct (@AdmitMessages_provenance range_forward plain_canonicalizer _ _ _ _ _ _ 1%nat finding_draft m reworded_ok
    eq_refl Hm) as (_ & Hfrom & _ & Hf & _).
  destruct Hf as (s & Hs & Hr); [exact (proj1 (from_draft _ _ _ _ _ _ _ Hfrom))|].
  vm_compute in Hs. injection Hs as <-. exact Hr.
Defined.

Lemma OpenDecisions_kept_witness :
  ∃ request open, request ∈ OpenDecisions asked ∧ open ∈ OpenDecisions (asked ++ reworded).
Proof.
  assert (is_Some (OpenDecisions asked !! 0%nat)) as [request Hr] by (apply (bool_decide_eq_true_1 _); vm_compute; reflexivity).
  apply list_elem_of_lookup_2 in Hr.
  destruct (@OpenDecisions_kept range_forward plain_canonicalizer _ _ _ _ _ _ request reworded_ok asked_well_corrected) as (open & Ho & _).
  - apply (bool_decide_eq_true_1 _). vm_compute. reflexivity.
  - exact Hr.
  - exists request, open. split; [exact Hr|exact Ho].
Defined.

Definition example_finding : EngineeringMessage :=
  MkEngineeringMessage MessageSchemaVersion "m1" "batch-1" KindFinding (example_source "run-1")
    (MkMessageRoute AudienceUnit "b") (Some (MkMessageSubject "handoff-2" "b" (MkHandoffSubject "" "rev" "tree")))
    "" "" "" FindingDefect "" [] "the build is broken" "digest" 9.

Lemma DeliverFinding_spec_witness :
  ∃ delivered, @DeliverFinding range_forward plain_canonicalizer example_finding "batch-2" "issue-2"
      (MkHandoffSubject "base" "rev" "tree") = Ok delivered
    ∧ delivered.(Message_Route) = MkMessageRoute AudienceUnit "issue-2".
Proof.
  assert (is_ok (@DeliverFinding range_forward plain_canonicalizer example_finding "batch-2" "issue-2"
      (MkHandoffSubject "base" "rev" "tree")) = true) as (delivered & Hd)%is_ok_true by (vm_compute; reflexivity).
  exists delivered. split; [exact Hd|].
  destruct (@DeliverFinding_spec range_forward plain_canonicalizer _ _ _ _ _ Hd) as (_ & _ & _ & _ & _ & Hr & _).
  exact Hr.
Defined.
