(* ===== verification/GoTime.v ===== *)
(** Instants: Go's [time.Time] as the source uses it.  An instant is the
    number of nanoseconds since Go's zero time, January 1, year 1 UTC, so the
    zero time is 0; the clock of the program gives UTC. *)

From S2P Require Import Prelude GoStrings Json.
From stdpp Require Import options.

Definition second : Z := 10 ^ 9.
Definition day : Z := 86400 * second.

(** [t.UnixNano()], an [int64]: seconds from year 1 to 1970 are 62135596800. *)
Definition UnixNano (t : Z) : Z := wrap64 (t - 62135596800 * second).

(** [time.Unix(0, n)]. *)
Definition of_UnixNano (n : Z) : Z := n + 62135596800 * second.

(** Year, month and day of a day counted from January 1, year 1.  Years are
    taken to begin in March, so that a leap day ends one. *)
Definition civil (days : Z) : Z * Z * Z :=
  (let d := days + 306 in
   let era := d / 146097 in
   let doe := d mod 146097 in
   let yoe := (doe - doe / 1460 + doe / 36524 - doe / 146096) / 365 in
   let doy := doe - (365 * yoe + yoe / 4 - yoe / 100) in
   let mp := (5 * doy + 2) / 153 in
   let month := if mp <? 10 then mp + 3 else mp - 9 in
   (yoe + era * 400 + (if month <=? 2 then 1 else 0), month, doy - (153 * mp + 2) / 5 + 1))%Z.

Definition zeros (n : nat) : string := of_bytes (replicate n 48%N).

(** A number in at least [width] digits. *)
Definition padded (width : nat) (n : Z) : string :=
  let text := itoa (Z.abs n) in
  (if (n <? 0)%Z then "-" else "") +:+ zeros (width - len text) +:+ text.

(** The fraction of a second without trailing zeros, nothing when it is 0. *)
Fixpoint strip_zeros (fuel : nat) (width : nat) (n : Z) : nat * Z :=
  match fuel with
  | O => (width, n)
  | S fuel => if (n mod 10 =? 0)%Z then strip_zeros fuel (width - 1) (n / 10)%Z else (width, n)
  end.

Definition fraction (nanos : Z) : string :=
  if (nanos =? 0)%Z then ""
  else let '(width, n) := strip_zeros 8 9 nanos in "." +:+ padded width n.

(** [t.UTC().Format(time.RFC3339Nano)]. *)
Definition RFC3339Nano (t : Z) : string :=
  let '(year, month, dom) := civil (t / day)%Z in
  let seconds := ((t mod day) / second)%Z in
  padded 4 year +:+ "-" +:+ padded 2 month +:+ "-" +:+ padded 2 dom +:+ "T"
  +:+ padded 2 (seconds / 3600)%Z +:+ ":" +:+ padded 2 (seconds / 60 mod 60)%Z +:+ ":" +:+ padded 2 (seconds mod 60)%Z
  +:+ fraction (t mod second)%Z +:+ "Z".

(** [t.MarshalJSON()] refuses a year outside four digits. *)
Definition year_in_range (t : Z) : bool :=
  let '(year, _, _) := civil (t / day)%Z in ((0 <=? year) && (year <=? 9999))%Z.

Example zero_time : RFC3339Nano 0 = "0001-01-01T00:00:00Z".
Proof. vm_compute. reflexivity. Qed.

Example unix_epoch : RFC3339Nano (62135596800 * second) = "1970-01-01T00:00:00Z" ∧ UnixNano (62135596800 * second) = 0%Z.
Proof. vm_compute. done. Qed.

Example leap_day : RFC3339Nano (63844847999 * second + 120000000) = "2024-02-29T23:59:59.12Z".
Proof. vm_compute. reflexivity. Qed.

(** ** Parsing *)

(** Days from January 1, year 1 to a date, the inverse of [civil]. *)
Definition day_number (year month dom : Z) : Z :=
  (let y := if month <=? 2 then year - 1 else year in
   let era := y / 400 in
   let yoe := y mod 400 in
   let mp := if month <=? 2 then month + 9 else month - 3 in
   let doy := (153 * mp + 2) / 5 + dom - 1 in
   let doe := yoe * 365 + yoe / 4 - yoe / 100 + doy in
   era * 146097 + doe - 306)%Z.

(** A number in exactly [width] digits, within bounds. *)
Definition fixed_number (width : nat) (lo hi : Z) (l : list N) : option (Z * list N) :=
  if Nat.ltb (length l) width then None
  else match digits_number (take width l) 0 with
       | Some n => let z := Z.of_N n in if ((lo <=? z) && (z <=? hi))%Z then Some (z, drop width l) else None
       | None => None
       end.
Definition literal_byte (b : N) (l : list N) : option (list N) :=
  match l with b' :: l => if (b =? b')%N then Some l else None | [] => None end.

(** The nanoseconds of a fraction: its first nine digits. *)
Fixpoint take_digits (l : list N) : list N * list N :=
  match l with
  | b :: l' => if in_range 0x30 0x39 b then let r := take_digits l' in (b :: r.1, r.2) else ([], l)
  | [] => ([], [])
  end.
Definition nanoseconds (ds : list N) : Z :=
  Z.of_N (default 0%N (digits_number (take 9 (ds ++ replicate 9 48%N)) 0)).
Definition fraction_of (l : list N) : Z * list N :=
  match l with
  | 46%N :: l' => match take_digits l' with ([], _) => (0%Z, l) | (ds, rest) => (nanoseconds ds, rest) end
  | _ => (0%Z, l)
  end.

Definition zone_of (l : list N) : option Z :=
  match l with
  | [90%N] => Some 0%Z
  | sign :: l =>
      if ((sign =? 43) || (sign =? 45))%N then
        '(h, l) ← fixed_number 2 0 23 l; l ← literal_byte 58 l; '(m, l) ← fixed_number 2 0 59 l;
        match l with [] => Some (if (sign =? 43)%N then h * 3600 + m * 60 else - (h * 3600 + m * 60))%Z | _ => None end
      else None
  | [] => None
  end.

(** [time.UnmarshalJSON] of a text, as an instant. *)
Definition ParseRFC3339 (s : string) : option Z :=
  '(year, l) ← fixed_number 4 0 9999 (bytes s); l ← literal_byte 45 l;
  '(month, l) ← fixed_number 2 1 12 l; l ← literal_byte 45 l;
  '(dom, l) ← fixed_number 2 1 31 l; l ← literal_byte 84 l;
  '(hour, l) ← fixed_number 2 0 23 l; l ← literal_byte 58 l;
  '(minute, l) ← fixed_number 2 0 59 l; l ← literal_byte 58 l;
  '(sec, l) ← fixed_number 2 0 59 l;
  let '(nanos, l) := fraction_of l in
  zone ← zone_of l;
  let days := day_number year month dom in
  if civil days ≟ (year, month, dom)
  then Some (days * day + (hour * 3600 + minute * 60 + sec - zone) * second + nanos)%Z
  else None.

Definition decode_time : Decoder Z := λ _ v old,
  match v with
  | JString s => match ParseRFC3339 s with Some t => (t, false) | None => (old, true) end
  | JNull => (old, false)
  | _ => (old, true)
  end.
#[export] Instance lenient_time : Lenient decode_time. Proof. by intros []. Qed.

Example parse_leap : ParseRFC3339 "2024-02-29T23:59:59.12Z" = Some (63844847999 * second + 120000000)%Z
  ∧ ParseRFC3339 "2023-02-29T23:59:59Z" = None ∧ ParseRFC3339 "1970-01-01T02:00:00+02:00" = Some (of_UnixNano 0).
Proof. vm_compute. done. Qed.

(** [t.UTC().Format(time.RFC3339)]. *)
Definition RFC3339 (t : Z) : string := RFC3339Nano (t - t mod second)%Z.

(** [t.Sub(u)]: a [time.Duration], an [int64] of nanoseconds, saturates; [t.Add(d)] is the sum. *)
Definition maxDuration : Z := 2 ^ 63 - 1.
Definition minDuration : Z := - 2 ^ 63.
Definition Sub (t u : Z) : Z := Z.max minDuration (Z.min maxDuration (t - u)).
