(* ===== verification/Product.v ===== *)
(** Products: [product/product.go], [product/scope.go],
    [product/configuration.go] and [product/association.go].  A product names
    its repositories; its configuration is revised on its own. *)

From S2P Require Import Prelude GoStrings Sha256 Domain Canonical Handoff GoTime.
From stdpp Require Import options.

Definition ProductSchemaVersion : string := "0.1".
Definition ConfigurationSchemaVersion : string := "0.1".
Definition MaxProductRepositories : nat := 64.
Definition MaxConfigurationSettings : nat := 32.
Definition maxProductNameBytes : nat := 200.
Definition maxRepositoryBytes : nat := 200.
Definition maxSettingKeyBytes : nat := 100.
Definition maxSettingValueBytes : nat := 1024.

Record Product := MkProduct {
  Product_SchemaVersion : string;
  Product_ID : string;
  Product_Name : string;
  Product_Revision : Z;
  Product_Repositories : list string;
  Product_RequestedBy : string;
  Product_CreatedAt : Z
}.

Record ProductProposal := MkProductProposal {
  Proposal_Name : string;
  Proposal_Revision : Z;
  Proposal_Repositories : list string
}.

Record ProductConfiguration := MkConfiguration {
  Configuration_SchemaVersion : string;
  Configuration_ProductID : string;
  Configuration_Revision : Z;
  Configuration_Policy : option ObjectRevision;
  Configuration_ContextPolicy : string;
  Configuration_Settings : gmap string string;
  Configuration_RequestedBy : string;
  Configuration_CreatedAt : Z
}.

(** The refusal of [boundedField], by the name of the field. *)
Inductive FieldError :=
  | FieldRequired (name : string)
  | FieldTooLong (name : string) (n limit : nat).

Inductive ProductError :=
  | ProductNeedsName
  | ProductNameTooLong (n : nat)
  | ProductDigestRefused (e : CanonicalError)
  | ProductVersion (version : string)
  | ProductField (e : FieldError)
  | ProductIdentity (id canonical : string)
  | ProductRevisionNumber (revision : Z)
  | ProductTimeRequired
  | ProductWithoutRepository
  | ProductRepositoryCount (n : nat)
  | RepositoryRepeated (repository : string)
  | ProductChanged (revision : Z) (id : string)
  | ProductRevisionSkipped (id : string) (current expected next : Z)
  | RepositoryRemoved (repository id : string) (revision : Z).

Inductive ConfigurationError :=
  | ConfigurationVersion (version : string)
  | ConfigurationField (e : FieldError)
  | ConfigurationRevisionNumber (revision : Z)
  | ConfigurationTimeRequired
  | ConfigurationPolicyIncomplete
  | ConfigurationSettingCount (n : nat)
  | ConfigurationSettingTooLong (key : string) (n : nat)
  | ConfigurationOfAnother (revision : Z) (product : string)
  | ConfigurationRevisionSkipped (product : string) (current expected next : Z).

Definition boundedField (name value : string) (limit : nat) : result FieldError () :=
  refuse_if (blank value) (FieldRequired name) ;?
  refuse_if (limit <? len value) (FieldTooLong name (len value) limit).

(* ------------------------------------------------------------------ *)
(** * Scopes *)

Definition ScopeExecution : string := "execution".
Definition ScopeWorkUnit : string := "work_unit".
Definition ScopeFeature : string := "feature".
Definition ScopeProduct : string := "product".
Definition ScopeOrganization : string := "organization".

(** [scopeRank]; [ScopeRank] and [KnownScope] look a scope up in it. *)
Definition ScopeRank (scope : string) : option Z :=
  if scope ≟ ScopeExecution then Some 0%Z
  else if scope ≟ ScopeWorkUnit then Some 1%Z
  else if scope ≟ ScopeFeature then Some 2%Z
  else if scope ≟ ScopeProduct then Some 3%Z
  else if scope ≟ ScopeOrganization then Some 4%Z
  else None.

Definition KnownScope (scope : string) : bool := bool_decide (is_Some (ScopeRank scope)).

(** The scope the refusal names. *)
Definition compareScope (a b : string) : result string comparison :=
  let? ra := of_option a (ScopeRank a) in
  let? rb := of_option b (ScopeRank b) in
  Ok (ra ?= rb)%Z.

(* ------------------------------------------------------------------ *)
(** * Products *)

Definition sortedCopy (values : list string) : list string := sort_strings values.

Section product.
Context `{!Canonicalizer}.

Definition ProductID (name : string) : result ProductError string :=
  refuse_if (blank name) ProductNeedsName ;?
  refuse_if (maxProductNameBytes <? len name) (ProductNameTooLong (len name)) ;?
  let? digest := wrap ProductDigestRefused (Digest (GStruct [("name", GString name)])) in
  Ok ("product-" +:+ take_bytes 32 digest).

Definition product_RevisionDigest (p : Product) : result CanonicalError string :=
  Digest (GStruct [("id", GString p.(Product_ID)); ("revision", GInt p.(Product_Revision));
    ("repositories", GList (GString <$> sortedCopy p.(Product_Repositories)))]).

Definition add_repository (seen : gset string) (repository : string) : result ProductError (gset string) :=
  wrap ProductField (boundedField "product repository" repository maxRepositoryBytes) ;?
  refuse_if (bool_decide (repository ∈ seen)) (RepositoryRepeated repository) ;?
  Ok ({[repository]} ∪ seen).

(** [Product.Validate]. *)
Definition validate_product (p : Product) : result ProductError () :=
  refuse_if (p.(Product_SchemaVersion) ≠? ProductSchemaVersion) (ProductVersion p.(Product_SchemaVersion)) ;?
  wrap ProductField (boundedField "product name" p.(Product_Name) maxProductNameBytes) ;?
  let? id := ProductID p.(Product_Name) in
  refuse_if (id ≠? p.(Product_ID)) (ProductIdentity p.(Product_ID) id) ;?
  refuse_if (p.(Product_Revision) <? 1)%Z (ProductRevisionNumber p.(Product_Revision)) ;?
  refuse_if (p.(Product_CreatedAt) =? 0)%Z ProductTimeRequired ;?
  refuse_if (length p.(Product_Repositories) =? 0) ProductWithoutRepository ;?
  refuse_if (MaxProductRepositories <? length p.(Product_Repositories)) (ProductRepositoryCount (length p.(Product_Repositories))) ;?
  let? _ := for_each add_repository p.(Product_Repositories) ∅ in
  Ok tt.

(** [ProductProposal.Compose]. *)
Definition product_Compose (p : ProductProposal) (requestedBy : string) (at_ : Z) : result ProductError Product :=
  let? id := ProductID p.(Proposal_Name) in
  let product := MkProduct ProductSchemaVersion id p.(Proposal_Name) p.(Proposal_Revision) p.(Proposal_Repositories)
                   requestedBy at_ in
  validate_product product ;? Ok product.

Definition ValidateProductMutation (current next : Product) : result ProductError () :=
  validate_product next ;?
  refuse_if ((next.(Product_ID) ≠? current.(Product_ID)) || (next.(Product_Name) ≠? current.(Product_Name)))
    (ProductChanged next.(Product_Revision) current.(Product_ID)) ;?
  let expected := wrap64 (current.(Product_Revision) + 1) in
  refuse_if (next.(Product_Revision) ≠? expected)
    (ProductRevisionSkipped current.(Product_ID) current.(Product_Revision) expected next.(Product_Revision)) ;?
  check_all (λ repository, refuse_if (negb (next.(Product_Repositories) ∋? repository))
               (RepositoryRemoved repository current.(Product_ID) next.(Product_Revision)))
    current.(Product_Repositories).

(* ------------------------------------------------------------------ *)
(** * Configuration *)

Section configuration.
Context `{!MapRange}.

(** [encoding/json] writes the keys of a map in order. *)
Definition settings_value (settings : gmap string string) : GoValue :=
  GMap (omap (λ key, (λ value, (key, GString value)) <$> settings !! key) (sorted_keys settings)).

Definition configuration_RevisionDigest (c : ProductConfiguration) : result CanonicalError string :=
  Digest (GStruct ([("product_id", GString c.(Configuration_ProductID)); ("revision", GInt c.(Configuration_Revision))]
    ++ match c.(Configuration_Policy) with
       | Some r => [("policy", GStruct [("id", GString r.(ObjectRevision_ID)); ("revision", GString r.(ObjectRevision_Revision))])]
       | None => [] end
    ++ omit_if (c.(Configuration_ContextPolicy) ≟ "") "context_policy" (GString c.(Configuration_ContextPolicy))
    ++ omit_if (bool_decide (c.(Configuration_Settings) = ∅)) "settings" (settings_value c.(Configuration_Settings)))).

Definition check_setting (key value : string) : result ConfigurationError () :=
  wrap ConfigurationField (boundedField "configuration setting key" key maxSettingKeyBytes) ;?
  refuse_if (maxSettingValueBytes <? len value) (ConfigurationSettingTooLong key (len value)).

(** [ProductConfiguration.Validate]. *)
Definition validate_configuration (c : ProductConfiguration) : result ConfigurationError () :=
  refuse_if (c.(Configuration_SchemaVersion) ≠? ConfigurationSchemaVersion) (ConfigurationVersion c.(Configuration_SchemaVersion)) ;?
  wrap ConfigurationField (boundedField "configuration product id" c.(Configuration_ProductID) maxProductNameBytes) ;?
  refuse_if (c.(Configuration_Revision) <? 1)%Z (ConfigurationRevisionNumber c.(Configuration_Revision)) ;?
  refuse_if (c.(Configuration_CreatedAt) =? 0)%Z ConfigurationTimeRequired ;?
  match c.(Configuration_Policy) with
  | Some r => refuse_if (blank r.(ObjectRevision_ID) || blank r.(ObjectRevision_Revision)) ConfigurationPolicyIncomplete
  | None => Ok tt
  end ;?
  refuse_if (MaxConfigurationSettings <? size c.(Configuration_Settings)) (ConfigurationSettingCount (size c.(Configuration_Settings))) ;?
  check_map check_setting c.(Configuration_Settings).

Definition ValidateConfigurationMutation (current next : ProductConfiguration) : result ConfigurationError () :=
  validate_configuration next ;?
  refuse_if (next.(Configuration_ProductID) ≠? current.(Configuration_ProductID))
    (ConfigurationOfAnother next.(Configuration_Revision) current.(Configuration_ProductID)) ;?
  let expected := wrap64 (current.(Configuration_Revision) + 1) in
  refuse_if (next.(Configuration_Revision) ≠? expected)
    (ConfigurationRevisionSkipped current.(Configuration_ProductID) current.(Configuration_Revision) expected
       next.(Configuration_Revision)).
End configuration.
End product.

(* ------------------------------------------------------------------ *)
(** * Associations *)

Record GraphAssociation := MkAssociation {
  Association_ProductID : string;
  Association_GraphID : string;
  Association_AssociatedAt : Z
}.

Inductive AssociationError := AssociationNeedsProduct | AssociationNeedsGraph | AssociationNeedsTime.

Definition NewGraphAssociation (productID graphID : string) (at_ : Z) : result AssociationError GraphAssociation :=
  refuse_if (blank productID) AssociationNeedsProduct ;?
  refuse_if (blank graphID) AssociationNeedsGraph ;?
  refuse_if (at_ =? 0)%Z AssociationNeedsTime ;?
  Ok (MkAssociation productID graphID at_).

(* ------------------------------------------------------------------ *)
(** * What validation admits *)

(** A field a document may carry. *)
Definition bounded (limit : nat) (value : string) : Prop := blank value = false ∧ (len value <= limit)%nat.

Lemma productField_ok name value limit : boundedField name value limit = Ok tt ↔ bounded limit value.
Proof. unfold boundedField, bounded. by rewrite refuse_if_then, refuse_if_ok, Nat.ltb_ge. Qed.

Lemma KnownScope_rank scope : KnownScope scope = true ↔ ∃ n, ScopeRank scope = Some n.
Proof. unfold KnownScope. by rewrite bool_decide_eq_true. Qed.

Lemma compareScope_ok a b c :
  compareScope a b = Ok c ↔ ∃ m n, ScopeRank a = Some m ∧ ScopeRank b = Some n ∧ c = (m ?= n)%Z.
Proof.
  unfold compareScope. rewrite rbind_ok. setoid_rewrite of_option_ok. setoid_rewrite rbind_ok. setoid_rewrite of_option_ok. split.
  - intros (m & Hm & n & Hn & [= <-]). by exists m, n.
  - intros (m & n & Hm & Hn & ->). by exists m; split; [|exists n].
Qed.

Section validation.
Context `{!MapRange, !Canonicalizer}.

Record valid_product (p : Product) : Prop := {
  product_version : p.(Product_SchemaVersion) = ProductSchemaVersion;
  product_name : bounded maxProductNameBytes p.(Product_Name);
  product_identity : ProductID p.(Product_Name) = Ok p.(Product_ID);
  product_revision : (1 <= p.(Product_Revision))%Z;
  product_time : p.(Product_CreatedAt) ≠ 0%Z;
  product_repositories : (1 <= length p.(Product_Repositories) <= 64)%nat ∧ NoDup p.(Product_Repositories)
    ∧ Forall (bounded maxRepositoryBytes) p.(Product_Repositories)
}.

Lemma add_repositories_ok l :
  (∃ seen, for_each add_repository l ∅ = Ok seen) ↔ NoDup l ∧ Forall (bounded maxRepositoryBytes) l.
Proof.
  rewrite (for_each_distinct _ (bounded maxRepositoryBytes)), Forall_forall.
  - split; intros [? Hall]; (split; [done|]); intros x Hx; [by apply Hall|split; [by apply Hall|apply not_elem_of_empty]].
  - intros seen x s'. unfold add_repository. rewrite check_then, wrap_ok, productField_ok, refuse_if_then, bool_decide_eq_false.
    split; [intros (? & ? & [= <-])|intros (? & ? & ->)]; done.
Qed.

Lemma validate_product_iff p : validate_product p = Ok tt ↔ valid_product p.
Proof.
  pose proof (add_repositories_ok p.(Product_Repositories)) as Hr. unfold validate_product. split.
  - intros [Hv%negb_false_iff%bool_decide_eq_true [Hn%wrap_ok%productField_ok Hk]%check_then]%refuse_if_then.
    apply rbind_ok in Hk as (id & Hid & [Hi%negb_false_iff%bool_decide_eq_true Hk]%refuse_if_then). subst id.
    apply refuse_if_then in Hk as [?%Z.ltb_ge [?%Z.eqb_neq [?%Nat.eqb_neq [?%Nat.ltb_ge Hk]%refuse_if_then]%refuse_if_then]%refuse_if_then].
    apply rbind_ok in Hk as (seen & Hs & _). destruct (proj1 Hr (ex_intro _ _ Hs)). unfold MaxProductRepositories in *.
    split; try done. split_and!; [lia|lia|done..].
  - intros [Hv Hn Hid Hrev Ht ([Hl1 Hl2] & Hnd & Hf)]. destruct (proj2 Hr (conj Hnd Hf)) as [seen Hs].
    rewrite refuse_if_then, check_then, wrap_ok, productField_ok, Hid. simpl. rewrite !refuse_if_then, Hs, Hv.
    rewrite !negb_false_iff, !bool_decide_eq_true, Z.ltb_ge, Z.eqb_neq, Nat.eqb_neq, Nat.ltb_ge. unfold MaxProductRepositories.
    split_and!; done || lia.
Qed.

(** Composing a proposal gives a valid product of the proposal, or nothing. *)
Lemma product_Compose_ok proposal requestedBy at_ p :
  product_Compose proposal requestedBy at_ = Ok p →
  valid_product p ∧ p.(Product_Name) = proposal.(Proposal_Name) ∧ p.(Product_Repositories) = proposal.(Proposal_Repositories).
Proof. unfold product_Compose. intros (id & _ & [Hv%validate_product_iff [= <-]]%check_then)%rbind_ok. done. Qed.

(** An admitted revision of a product: the next one of the same product, which
    keeps every repository. *)
Definition next_product (current next : Product) : Prop :=
  valid_product next ∧ next.(Product_ID) = current.(Product_ID) ∧ next.(Product_Name) = current.(Product_Name)
  ∧ next.(Product_Revision) = wrap64 (current.(Product_Revision) + 1)
  ∧ current.(Product_Repositories) ⊆ next.(Product_Repositories).

Lemma ValidateProductMutation_iff current next : ValidateProductMutation current next = Ok tt ↔ next_product current next.
Proof.
  unfold ValidateProductMutation, next_product. rewrite check_then, validate_product_iff, !refuse_if_then, check_all_ok, orb_false_iff.
  rewrite !negb_false_iff, !bool_decide_eq_true. setoid_rewrite refuse_if_ok. setoid_rewrite negb_false_iff. setoid_rewrite bool_decide_eq_true.
  split; [intros (? & (? & ?) & ? & ?)|intros (? & ? & ? & ? & ?)]; done.
Qed.

Record valid_configuration (c : ProductConfiguration) : Prop := {
  configuration_version : c.(Configuration_SchemaVersion) = ConfigurationSchemaVersion;
  configuration_product : bounded maxProductNameBytes c.(Configuration_ProductID);
  configuration_revision : (1 <= c.(Configuration_Revision))%Z;
  configuration_time : c.(Configuration_CreatedAt) ≠ 0%Z;
  configuration_policy : ∀ r, c.(Configuration_Policy) = Some r →
    blank r.(ObjectRevision_ID) = false ∧ blank r.(ObjectRevision_Revision) = false;
  configuration_settings : (size c.(Configuration_Settings) <= 32)%nat
    ∧ ∀ key value, c.(Configuration_Settings) !! key = Some value → bounded maxSettingKeyBytes key ∧ (len value <= 1024)%nat
}.

Lemma check_setting_ok key value : check_setting key value = Ok tt ↔ bounded maxSettingKeyBytes key ∧ (len value <= 1024)%nat.
Proof. unfold check_setting. by rewrite check_then, wrap_ok, productField_ok, refuse_if_ok, Nat.ltb_ge. Qed.

Lemma validate_configuration_iff c : validate_configuration c = Ok tt ↔ valid_configuration c.
Proof.
  unfold validate_configuration. rewrite refuse_if_then, negb_false_iff, bool_decide_eq_true, check_then, wrap_ok, productField_ok.
  rewrite !refuse_if_then, check_then, refuse_if_then, check_map_ok, Z.ltb_ge, Z.eqb_neq, Nat.ltb_ge.
  assert (match c.(Configuration_Policy) with
    | Some r => refuse_if (blank r.(ObjectRevision_ID) || blank r.(ObjectRevision_Revision)) ConfigurationPolicyIncomplete
    | None => Ok tt end = Ok tt ↔ ∀ r, c.(Configuration_Policy) = Some r →
      blank r.(ObjectRevision_ID) = false ∧ blank r.(ObjectRevision_Revision) = false) as ->.
  { destruct (Configuration_Policy c) as [r|]; [rewrite refuse_if_ok, orb_false_iff, forall_some; done|done]. }
  unfold map_Forall. setoid_rewrite check_setting_ok. unfold MaxConfigurationSettings. split; [intros (? & ? & ? & ? & ? & ? & ?)|intros [? ? ? ? ? [? ?]]]; done.
Qed.
End validation.
