(* ===== verification/Knowledge.v ===== *)
(** Knowledge: [product/knowledge.go].  A discovery is recorded for one owner;
    it reaches a wider scope only by an authorized promotion, which leaves an
    audit record. *)

From S2P Require Import Prelude GoStrings Sha256 Domain Canonical Handoff GoTime Product.
From stdpp Require Import options.

Definition KnowledgeSchemaVersion : string := "0.1".
Definition maxKnowledgeEntryIDBytes : nat := 80.
Definition maxKnowledgeStatementBytes : nat := 4096.
Definition maxKnowledgeProducerBytes : nat := 200.
Definition maxKnowledgeOwnerRefBytes : nat := 200.
Definition maxKnowledgeAudienceBytes : nat := 200.

Definition ProvenanceAgentDiscovery : string := "agent_discovery".
Definition ProvenanceHumanAuthored : string := "human_authored".
Definition ProvenancePromotion : string := "promotion".

Definition knownProvenanceType (t : string) : bool :=
  (t ≟ ProvenanceAgentDiscovery) || (t ≟ ProvenanceHumanAuthored) || (t ≟ ProvenancePromotion).

Record Provenance := MkProvenance {
  Provenance_Type : string;
  Provenance_Producer : string
}.

Record KnowledgeEntry := MkEntry {
  Entry_SchemaVersion : string;
  Entry_ID : string;
  Entry_ProductID : string;
  Entry_Scope : string;
  Entry_OwnerRef : string;
  Entry_AudienceRef : string;
  Entry_Statement : string;
  Entry_Provenance : Provenance;
  Entry_PromotedFrom : option string;
  Entry_CreatedAt : Z
}.

Record KnowledgePromotion := MkPromotion {
  Promotion_SchemaVersion : string;
  Promotion_ID : string;
  Promotion_SourceEntryID : string;
  Promotion_SourceScope : string;
  Promotion_SourceProvenance : Provenance;
  Promotion_TargetScope : string;
  Promotion_AudienceRef : string;
  Promotion_AuthorizedBy : string;
  Promotion_PromotedEntryID : string;
  Promotion_PromotedAt : Z
}.

#[export] Instance Provenance_eq : EqDecision Provenance.
Proof. solve_decision. Defined.
#[export] Instance KnowledgeEntry_eq : EqDecision KnowledgeEntry.
Proof. solve_decision. Defined.
#[export] Instance KnowledgePromotion_eq : EqDecision KnowledgePromotion.
Proof. solve_decision. Defined.

Inductive KnowledgeError :=
  | EntryVersion (version : string)
  | KnowledgeField (e : FieldError)
  | EntryScopeUnknown (scope : string)
  | EntryProvenanceUnknown (t : string)
  | EntryTimeRequired
  | PromotedWithoutSource
  | PromotedWithOwner
  | AudienceForbidden (scope : string)
  | AuthoredWithSource (t : string)
  | AuthoredWithAudience
  | OwnerForbidden (scope : string)
  | EntryDigestRefused (e : CanonicalError)
  | EntryIdentity (id canonical : string)
  | PromotionAuthoredDirectly
  | ScopeUnrecognized (scope : string)
  | AuthoredTooWide (scope : string)
  | AuthorizerRequired
  | SourceEntryInvalid (e : KnowledgeError)
  | NotUpTheLadder (target source : string)
  | PromotionVersion (version : string)
  | PromotionProvenanceUnknown (t : string)
  | PromotionSourceScopeUnknown (scope : string)
  | PromotionTargetScopeUnknown (scope : string)
  | PromotionNotAbove (target source : string)
  | PromotionTimeRequired
  | PromotionIdentity (id canonical : string)
  | RecordNamesAnother (named given : string)
  | RecordSourceMismatch
  | RecordScopeMismatch (promoted record : string)
  | RecordAudienceMismatch
  | RecordAuthorizerMismatch
  | RecordTimeMismatch.

Definition field (name value : string) (limit : nat) : result KnowledgeError () :=
  wrap KnowledgeField (boundedField name value limit).

(** The audience a promotion to a scope must or may not name.  The scope is
    one of the four above execution; a promotion to execution scope names
    what it likes. *)
Definition audience_of_promotion (name : string) (scope audience : string) : result KnowledgeError () :=
  if (scope ≟ ScopeWorkUnit) || (scope ≟ ScopeFeature) then field name audience maxKnowledgeAudienceBytes
  else if (scope ≟ ScopeProduct) || (scope ≟ ScopeOrganization) then refuse_if (audience ≠? "") (AudienceForbidden scope)
  else Ok tt.

Section knowledge.
Context `{!Canonicalizer}.

Definition provenance_value (p : Provenance) : GoValue :=
  GStruct [("type", GString p.(Provenance_Type)); ("producer", GString p.(Provenance_Producer))].

(** [KnowledgeEntry.contentID]. *)
Definition entry_contentID (e : KnowledgeEntry) : result KnowledgeError string :=
  let? digest := wrap EntryDigestRefused (Digest (GStruct
    ([("product_id", GString e.(Entry_ProductID)); ("scope", GString e.(Entry_Scope))]
     ++ omit_if (e.(Entry_OwnerRef) ≟ "") "owner_ref" (GString e.(Entry_OwnerRef))
     ++ omit_if (e.(Entry_AudienceRef) ≟ "") "audience_ref" (GString e.(Entry_AudienceRef))
     ++ [("statement", GString e.(Entry_Statement)); ("provenance", provenance_value e.(Entry_Provenance))]
     ++ match e.(Entry_PromotedFrom) with Some id => [("promoted_from", GString id)] | None => [] end
     ++ [("created_at", GString (RFC3339Nano e.(Entry_CreatedAt)))]))) in
  Ok ("knowledge-" +:+ take_bytes 32 digest).

Definition check_promoted (e : KnowledgeEntry) : result KnowledgeError () :=
  refuse_if (match e.(Entry_PromotedFrom) with None => true | Some id => blank id end) PromotedWithoutSource ;?
  refuse_if (e.(Entry_OwnerRef) ≠? "") PromotedWithOwner ;?
  audience_of_promotion "knowledge entry audience reference" e.(Entry_Scope) e.(Entry_AudienceRef).

Definition check_authored (e : KnowledgeEntry) : result KnowledgeError () :=
  refuse_if (bool_decide (is_Some e.(Entry_PromotedFrom))) (AuthoredWithSource e.(Entry_Provenance).(Provenance_Type)) ;?
  refuse_if (e.(Entry_AudienceRef) ≠? "") AuthoredWithAudience ;?
  if (e.(Entry_Scope) ≟ ScopeExecution) || (e.(Entry_Scope) ≟ ScopeWorkUnit)
  then field "knowledge entry owner reference" e.(Entry_OwnerRef) maxKnowledgeOwnerRefBytes
  else refuse_if (e.(Entry_OwnerRef) ≠? "") (OwnerForbidden e.(Entry_Scope)).

(** [KnowledgeEntry.Validate]. *)
Definition validate_entry (e : KnowledgeEntry) : result KnowledgeError () :=
  refuse_if (e.(Entry_SchemaVersion) ≠? KnowledgeSchemaVersion) (EntryVersion e.(Entry_SchemaVersion)) ;?
  field "knowledge entry id" e.(Entry_ID) maxKnowledgeEntryIDBytes ;?
  field "knowledge entry product id" e.(Entry_ProductID) maxProductNameBytes ;?
  refuse_if (negb (KnownScope e.(Entry_Scope))) (EntryScopeUnknown e.(Entry_Scope)) ;?
  field "knowledge statement" e.(Entry_Statement) maxKnowledgeStatementBytes ;?
  refuse_if (negb (knownProvenanceType e.(Entry_Provenance).(Provenance_Type)))
    (EntryProvenanceUnknown e.(Entry_Provenance).(Provenance_Type)) ;?
  field "knowledge provenance producer" e.(Entry_Provenance).(Provenance_Producer) maxKnowledgeProducerBytes ;?
  refuse_if (e.(Entry_CreatedAt) =? 0)%Z EntryTimeRequired ;?
  (if e.(Entry_Provenance).(Provenance_Type) ≟ ProvenancePromotion then check_promoted e else check_authored e) ;?
  let? id := entry_contentID e in
  refuse_if (id ≠? e.(Entry_ID)) (EntryIdentity e.(Entry_ID) id).

Definition with_entry_id (e : KnowledgeEntry) (id : string) : KnowledgeEntry :=
  MkEntry e.(Entry_SchemaVersion) id e.(Entry_ProductID) e.(Entry_Scope) e.(Entry_OwnerRef) e.(Entry_AudienceRef)
    e.(Entry_Statement) e.(Entry_Provenance) e.(Entry_PromotedFrom) e.(Entry_CreatedAt).

Definition NewKnowledgeEntry (productID scope ownerRef statement : string) (provenance : Provenance) (at_ : Z)
  : result KnowledgeError KnowledgeEntry :=
  refuse_if (provenance.(Provenance_Type) ≟ ProvenancePromotion) PromotionAuthoredDirectly ;?
  let? direction := wrap ScopeUnrecognized (compareScope scope ScopeWorkUnit) in
  refuse_if (match direction with Gt => true | _ => false end) (AuthoredTooWide scope) ;?
  let entry := MkEntry KnowledgeSchemaVersion "" productID scope ownerRef "" statement provenance None at_ in
  let? id := entry_contentID entry in
  let entry := with_entry_id entry id in
  validate_entry entry ;? Ok entry.

(** [KnowledgePromotion.contentID]. *)
Definition promotion_contentID (r : KnowledgePromotion) : result KnowledgeError string :=
  let? digest := wrap EntryDigestRefused (Digest (GStruct
    ([("source_entry_id", GString r.(Promotion_SourceEntryID)); ("target_scope", GString r.(Promotion_TargetScope))]
     ++ omit_if (r.(Promotion_AudienceRef) ≟ "") "audience_ref" (GString r.(Promotion_AudienceRef))
     ++ [("authorized_by", GString r.(Promotion_AuthorizedBy)); ("promoted_at", GString (RFC3339Nano r.(Promotion_PromotedAt)));
         ("promoted_entry_id", GString r.(Promotion_PromotedEntryID))]))) in
  Ok ("promotion-" +:+ take_bytes 32 digest).

(** [KnowledgePromotion.Validate]. *)
Definition validate_promotion (r : KnowledgePromotion) : result KnowledgeError () :=
  refuse_if (r.(Promotion_SchemaVersion) ≠? KnowledgeSchemaVersion) (PromotionVersion r.(Promotion_SchemaVersion)) ;?
  field "promotion id" r.(Promotion_ID) maxKnowledgeEntryIDBytes ;?
  field "promotion source entry id" r.(Promotion_SourceEntryID) maxKnowledgeEntryIDBytes ;?
  field "promotion promoted entry id" r.(Promotion_PromotedEntryID) maxKnowledgeEntryIDBytes ;?
  field "promotion authorizer" r.(Promotion_AuthorizedBy) maxKnowledgeProducerBytes ;?
  refuse_if (negb (knownProvenanceType r.(Promotion_SourceProvenance).(Provenance_Type)))
    (PromotionProvenanceUnknown r.(Promotion_SourceProvenance).(Provenance_Type)) ;?
  refuse_if (negb (KnownScope r.(Promotion_SourceScope))) (PromotionSourceScopeUnknown r.(Promotion_SourceScope)) ;?
  refuse_if (negb (KnownScope r.(Promotion_TargetScope))) (PromotionTargetScopeUnknown r.(Promotion_TargetScope)) ;?
  let? direction := wrap ScopeUnrecognized (compareScope r.(Promotion_SourceScope) r.(Promotion_TargetScope)) in
  refuse_if (match direction with Lt => false | _ => true end)
    (PromotionNotAbove r.(Promotion_TargetScope) r.(Promotion_SourceScope)) ;?
  audience_of_promotion "promotion audience reference" r.(Promotion_TargetScope) r.(Promotion_AudienceRef) ;?
  refuse_if (r.(Promotion_PromotedAt) =? 0)%Z PromotionTimeRequired ;?
  let? id := promotion_contentID r in
  refuse_if (id ≠? r.(Promotion_ID)) (PromotionIdentity r.(Promotion_ID) id).

Definition ValidatePromotionConsistency (promoted : KnowledgeEntry) (record : KnowledgePromotion) : result KnowledgeError () :=
  refuse_if (record.(Promotion_PromotedEntryID) ≠? promoted.(Entry_ID))
    (RecordNamesAnother record.(Promotion_PromotedEntryID) promoted.(Entry_ID)) ;?
  refuse_if (promoted.(Entry_PromotedFrom) ≠? Some record.(Promotion_SourceEntryID)) RecordSourceMismatch ;?
  refuse_if (promoted.(Entry_Scope) ≠? record.(Promotion_TargetScope))
    (RecordScopeMismatch promoted.(Entry_Scope) record.(Promotion_TargetScope)) ;?
  refuse_if (promoted.(Entry_AudienceRef) ≠? record.(Promotion_AudienceRef)) RecordAudienceMismatch ;?
  refuse_if (promoted.(Entry_Provenance).(Provenance_Producer) ≠? record.(Promotion_AuthorizedBy)) RecordAuthorizerMismatch ;?
  refuse_if (promoted.(Entry_CreatedAt) ≠? record.(Promotion_PromotedAt)) RecordTimeMismatch.

Definition with_promotion_id (r : KnowledgePromotion) (id : string) : KnowledgePromotion :=
  MkPromotion r.(Promotion_SchemaVersion) id r.(Promotion_SourceEntryID) r.(Promotion_SourceScope)
    r.(Promotion_SourceProvenance) r.(Promotion_TargetScope) r.(Promotion_AudienceRef) r.(Promotion_AuthorizedBy)
    r.(Promotion_PromotedEntryID) r.(Promotion_PromotedAt).

Definition Promote (source : KnowledgeEntry) (targetScope audienceRef authorizedBy : string) (at_ : Z)
  : result KnowledgeError (KnowledgeEntry * KnowledgePromotion) :=
  refuse_if (blank authorizedBy) AuthorizerRequired ;?
  wrap SourceEntryInvalid (validate_entry source) ;?
  let? direction := wrap ScopeUnrecognized (compareScope source.(Entry_Scope) targetScope) in
  refuse_if (match direction with Lt => false | _ => true end) (NotUpTheLadder targetScope source.(Entry_Scope)) ;?
  let promoted := MkEntry KnowledgeSchemaVersion "" source.(Entry_ProductID) targetScope "" audienceRef
    source.(Entry_Statement) (MkProvenance ProvenancePromotion authorizedBy) (Some source.(Entry_ID)) at_ in
  let? id := entry_contentID promoted in
  let promoted := with_entry_id promoted id in
  validate_entry promoted ;?
  let record := MkPromotion KnowledgeSchemaVersion "" source.(Entry_ID) source.(Entry_Scope) source.(Entry_Provenance)
    targetScope audienceRef authorizedBy promoted.(Entry_ID) at_ in
  let? recordID := promotion_contentID record in
  let record := with_promotion_id record recordID in
  validate_promotion record ;?
  ValidatePromotionConsistency promoted record ;?
  Ok (promoted, record).
End knowledge.

(* ------------------------------------------------------------------ *)
(** * What validation admits *)

(** The audience of a promotion: a work unit or a feature by name, nobody in
    particular above. *)
Definition names_audience (scope audience : string) : Prop :=
  (scope = ScopeWorkUnit ∨ scope = ScopeFeature → bounded maxKnowledgeAudienceBytes audience)
  ∧ (scope = ScopeProduct ∨ scope = ScopeOrganization → audience = "").

Definition promoted (e : KnowledgeEntry) : Prop := e.(Entry_Provenance).(Provenance_Type) = ProvenancePromotion.

Definition promoted_shape (e : KnowledgeEntry) : Prop :=
  (∃ source, e.(Entry_PromotedFrom) = Some source ∧ blank source = false)
  ∧ e.(Entry_OwnerRef) = "" ∧ names_audience e.(Entry_Scope) e.(Entry_AudienceRef).

Definition authored_shape (e : KnowledgeEntry) : Prop :=
  e.(Entry_PromotedFrom) = None ∧ e.(Entry_AudienceRef) = ""
  ∧ if decide (e.(Entry_Scope) = ScopeExecution ∨ e.(Entry_Scope) = ScopeWorkUnit)
    then bounded maxKnowledgeOwnerRefBytes e.(Entry_OwnerRef) else e.(Entry_OwnerRef) = "".

(** The scope of one is strictly below the scope of the other. *)
Definition below (a b : string) : Prop := ∃ m n, ScopeRank a = Some m ∧ ScopeRank b = Some n ∧ (m < n)%Z.

Lemma field_ok name value limit : field name value limit = Ok tt ↔ bounded limit value.
Proof. unfold field. by rewrite wrap_ok, productField_ok. Qed.

Lemma either_scope (s a b : string) : (s ≟ a) || (s ≟ b) = true ↔ s = a ∨ s = b.
Proof. by rewrite orb_true_iff, !bool_decide_eq_true. Qed.

Lemma audience_ok name scope audience : audience_of_promotion name scope audience = Ok tt ↔ names_audience scope audience.
Proof.
  unfold audience_of_promotion, names_audience. destruct (_ || _) eqn:H1.
  { apply either_scope in H1. rewrite field_ok. split; [|by intros [? _]; auto]. intros Hb. split; [done|].
    by intros [-> | ->]; destruct H1. }
  apply not_true_iff_false in H1. rewrite either_scope in H1. destruct (_ || _) eqn:H2.
  { apply either_scope in H2. rewrite refuse_if_ok, negb_false_iff, bool_decide_eq_true. tauto. }
  apply not_true_iff_false in H2. rewrite either_scope in H2. tauto.
Qed.

Lemma compareScope_below a b : (∃ c, compareScope a b = Ok c ∧ match c with Lt => false | _ => true end = false) ↔ below a b.
Proof.
  unfold below. setoid_rewrite compareScope_ok. split.
  - intros (c & (m & n & Hm & Hn & ->) & Hc). exists m, n. split_and!; [done..|]. by destruct (Z.compare_spec m n).
  - intros (m & n & Hm & Hn & Hlt). exists Lt. split; [|done]. exists m, n. by rewrite (proj2 (Z.compare_lt_iff m n) Hlt).
Qed.

Section validation.
Context `{!Canonicalizer}.

Record valid_entry (e : KnowledgeEntry) : Prop := {
  entry_version : e.(Entry_SchemaVersion) = KnowledgeSchemaVersion;
  entry_id : bounded maxKnowledgeEntryIDBytes e.(Entry_ID);
  entry_product : bounded maxProductNameBytes e.(Entry_ProductID);
  entry_scope : KnownScope e.(Entry_Scope) = true;
  entry_statement : bounded maxKnowledgeStatementBytes e.(Entry_Statement);
  entry_provenance : knownProvenanceType e.(Entry_Provenance).(Provenance_Type) = true;
  entry_producer : bounded maxKnowledgeProducerBytes e.(Entry_Provenance).(Provenance_Producer);
  entry_time : e.(Entry_CreatedAt) ≠ 0%Z;
  entry_shape : if decide (promoted e) then promoted_shape e else authored_shape e;
  entry_identity : entry_contentID e = Ok e.(Entry_ID)
}.

Lemma check_promoted_ok e : check_promoted e = Ok tt ↔ promoted_shape e.
Proof.
  unfold check_promoted, promoted_shape. rewrite !refuse_if_then, audience_ok, negb_false_iff, bool_decide_eq_true.
  destruct (Entry_PromotedFrom e); naive_solver.
Qed.

Lemma check_authored_ok e : check_authored e = Ok tt ↔ authored_shape e.
Proof.
  unfold check_authored, authored_shape. rewrite !refuse_if_then, negb_false_iff, bool_decide_eq_true, bool_decide_eq_false.
  rewrite <- eq_None_not_Some. destruct (_ || _) eqn:Hs.
  - apply either_scope in Hs. rewrite decide_True, field_ok by done. tauto.
  - apply not_true_iff_false in Hs. rewrite either_scope in Hs. rewrite decide_False, refuse_if_ok, negb_false_iff, bool_decide_eq_true by done. tauto.
Qed.

Lemma identity_check {A} (c : result KnowledgeError A) `{EqDecision A} (id : A) (e : A → KnowledgeError) :
  (let? x := c in refuse_if (x ≠? id) (e x)) = Ok tt ↔ c = Ok id.
Proof.
  rewrite rbind_ok. setoid_rewrite refuse_if_ok. setoid_rewrite negb_false_iff. setoid_rewrite bool_decide_eq_true.
  split; [by intros (? & ? & <-)|by intros ->; eauto].
Qed.

Lemma validate_entry_iff e : validate_entry e = Ok tt ↔ valid_entry e.
Proof.
  unfold validate_entry. rewrite !check_then, identity_check, !refuse_if_ok, !field_ok, !negb_false_iff, bool_decide_eq_true, Z.eqb_neq.
  assert ((if e.(Entry_Provenance).(Provenance_Type) ≟ ProvenancePromotion then check_promoted e else check_authored e) = Ok tt
    ↔ if decide (promoted e) then promoted_shape e else authored_shape e) as ->.
  { unfold promoted. destruct (decide _); [rewrite bool_decide_true by done; apply check_promoted_ok|
      rewrite bool_decide_false by done; apply check_authored_ok]. }
  split; [intros (? & ? & ? & ? & ? & ? & ? & ? & ? & ?); by split|intros []; done].
Qed.

Record valid_promotion (r : KnowledgePromotion) : Prop := {
  promotion_version : r.(Promotion_SchemaVersion) = KnowledgeSchemaVersion;
  promotion_ids : bounded maxKnowledgeEntryIDBytes r.(Promotion_ID)
    ∧ bounded maxKnowledgeEntryIDBytes r.(Promotion_SourceEntryID) ∧ bounded maxKnowledgeEntryIDBytes r.(Promotion_PromotedEntryID);
  promotion_authorizer : bounded maxKnowledgeProducerBytes r.(Promotion_AuthorizedBy);
  promotion_provenance : knownProvenanceType r.(Promotion_SourceProvenance).(Provenance_Type) = true;
  promotion_ladder : below r.(Promotion_SourceScope) r.(Promotion_TargetScope);
  promotion_audience : names_audience r.(Promotion_TargetScope) r.(Promotion_AudienceRef);
  promotion_time : r.(Promotion_PromotedAt) ≠ 0%Z;
  promotion_identity : promotion_contentID r = Ok r.(Promotion_ID)
}.

Lemma ladder_check {A} a b (f : comparison → KnowledgeError) (k : result KnowledgeError A) x :
  (let? direction := wrap ScopeUnrecognized (compareScope a b) in
   refuse_if (match direction with Lt => false | _ => true end) (f direction) ;? k) = Ok x ↔ below a b ∧ k = Ok x.
Proof.
  rewrite rbind_ok, <- compareScope_below. setoid_rewrite wrap_ok. setoid_rewrite refuse_if_then. naive_solver.
Qed.

Lemma below_known a b : below a b → KnownScope a = true ∧ KnownScope b = true.
Proof. intros (m & n & ? & ? & _). rewrite !KnownScope_rank. eauto. Qed.

Lemma validate_promotion_iff r : validate_promotion r = Ok tt ↔ valid_promotion r.
Proof.
  unfold validate_promotion.
  rewrite !check_then, (ladder_check _ _ (λ _, PromotionNotAbove r.(Promotion_TargetScope) r.(Promotion_SourceScope))).
  rewrite !check_then, identity_check, !refuse_if_ok, !field_ok, audience_ok, !negb_false_iff, bool_decide_eq_true, Z.eqb_neq. split.
  - intros (? & ? & ? & ? & ? & ? & ? & ? & ? & ? & ? & ?). by split.
  - intros [? (? & ? & ?) ? ? Hb ? ? ?]. destruct (below_known _ _ Hb). done.
Qed.

(** The record audits the entry. *)
Record audits (r : KnowledgePromotion) (e : KnowledgeEntry) : Prop := {
  audits_entry : r.(Promotion_PromotedEntryID) = e.(Entry_ID);
  audits_source : e.(Entry_PromotedFrom) = Some r.(Promotion_SourceEntryID);
  audits_scope : e.(Entry_Scope) = r.(Promotion_TargetScope);
  audits_audience : e.(Entry_AudienceRef) = r.(Promotion_AudienceRef);
  audits_authorizer : e.(Entry_Provenance).(Provenance_Producer) = r.(Promotion_AuthorizedBy);
  audits_time : e.(Entry_CreatedAt) = r.(Promotion_PromotedAt)
}.

Lemma ValidatePromotionConsistency_iff e r : ValidatePromotionConsistency e r = Ok tt ↔ audits r e.
Proof.
  unfold ValidatePromotionConsistency. rewrite !check_then, !refuse_if_ok, !negb_false_iff, !bool_decide_eq_true.
  split; [intros (? & ? & ? & ? & ? & ?); by split|intros []; done].
Qed.

(** A promotion of an entry by an authorizer to a scope and an audience. *)
Record promotes (source : KnowledgeEntry) (scope audience authorizer : string) (e : KnowledgeEntry) (r : KnowledgePromotion) : Prop := {
  promotes_valid : valid_entry source ∧ valid_entry e ∧ valid_promotion r;
  promotes_audited : audits r e;
  promotes_from : r.(Promotion_SourceEntryID) = source.(Entry_ID) ∧ r.(Promotion_SourceScope) = source.(Entry_Scope)
    ∧ r.(Promotion_SourceProvenance) = source.(Entry_Provenance);
  promotes_up : below source.(Entry_Scope) scope;
  promotes_to : promoted e ∧ e.(Entry_Scope) = scope ∧ e.(Entry_AudienceRef) = audience ∧ e.(Entry_OwnerRef) = "";
  promotes_keeps : e.(Entry_ProductID) = source.(Entry_ProductID) ∧ e.(Entry_Statement) = source.(Entry_Statement);
  promotes_authorized : e.(Entry_Provenance).(Provenance_Producer) = authorizer ∧ blank authorizer = false
}.

(** Promotion moves a claim strictly up the ladder, to the audience the scope
    needs, in the words of its source, under an explicit authorizer who becomes
    its producer, and leaves an audit record of exactly that step. *)
Theorem Promote_spec source scope audience authorizer at_ e r :
  Promote source scope audience authorizer at_ = Ok (e, r) → promotes source scope audience authorizer e r.
Proof.
  unfold Promote. rewrite !check_then, (ladder_check _ _ (λ _, NotUpTheLadder scope source.(Entry_Scope))), refuse_if_ok, wrap_ok.
  intros (Hb & Hs%validate_entry_iff & Hl & (id & Hid & [He (rid & Hrid & [Hr [Hc [= <- <-]]%check_then]%check_then)%rbind_ok]%check_then)%rbind_ok).
  apply validate_entry_iff in He. apply validate_promotion_iff in Hr. apply ValidatePromotionConsistency_iff in Hc.
  split; done.
Qed.

Lemma NewKnowledgeEntry_ok product scope owner statement p at_ e :
  NewKnowledgeEntry product scope owner statement p at_ = Ok e →
  valid_entry e ∧ ¬ promoted e ∧ (e.(Entry_Scope) = ScopeExecution ∨ e.(Entry_Scope) = ScopeWorkUnit)
  ∧ e.(Entry_OwnerRef) = owner ∧ e.(Entry_Statement) = statement ∧ e.(Entry_Provenance) = p ∧ e.(Entry_ProductID) = product.
Proof.
  unfold NewKnowledgeEntry. intros [Hp%bool_decide_eq_false (c & Hc%wrap_ok & [Hw (id & Hid & [Hv [= <-]]%check_then)%rbind_ok]%refuse_if_then)%rbind_ok]%refuse_if_then.
  apply validate_entry_iff in Hv. split_and!; try done. simpl.
  apply compareScope_ok in Hc as (m & n & Hm & [= <-] & ->). unfold ScopeRank in Hm.
  repeat (case_bool_decide; [by auto|]). repeat case_bool_decide; simplify_eq; done.
Qed.

End validation.
