(* ===== verification/ProductContext.v ===== *)
(** The product context of a unit of work: [product/context.go] and
    [product/pin.go].  What a unit may read is compiled from a store through a
    narrow interface; a pin freezes the identity of what it was admitted with,
    and a later execution resolves to exactly that. *)

From S2P Require Import Prelude GoStrings Sha256 Domain Canonical Handoff Product Knowledge.
From stdpp Require Import options.

Definition MaxContextKnowledgeEntries : nat := 200.

(* ------------------------------------------------------------------ *)
(** * Compilation *)

(** The interface [Store]; a read that fails gives the store's own error. *)
Record Store (E : Type) := MkStore {
  store_CurrentProduct : string → result E (option Product);
  store_CurrentConfiguration : string → result E (option ProductConfiguration);
  store_ConfigurationRevision : string → Z → result E (option ProductConfiguration);
  store_OwnedKnowledge : string → string → string → result E (list KnowledgeEntry);
  store_WidelyPromotedKnowledgeAtOrBelow : string → string → result E (list KnowledgeEntry);
  store_AudiencedPromotedKnowledge : string → string → string → result E (list KnowledgeEntry)
}.
Arguments store_CurrentProduct {E}.
Arguments store_CurrentConfiguration {E}.
Arguments store_ConfigurationRevision {E}.
Arguments store_OwnedKnowledge {E}.
Arguments store_WidelyPromotedKnowledgeAtOrBelow {E}.
Arguments store_AudiencedPromotedKnowledge {E}.

Record ContextRequest := MkRequest {
  Request_ProductID : string;
  Request_Scope : string;
  Request_OwnerRef : string;
  Request_FeatureRef : string;
  Request_ConfigurationRevision : option Z
}.

Record ProductContext := MkProductContext {
  Compiled_ProductID : string;
  Compiled_Scope : string;
  Compiled_Repositories : list string;
  Compiled_Configuration : option ProductConfiguration;
  Compiled_Knowledge : list KnowledgeEntry
}.

Inductive RequestError (E : Type) :=
  | RequestNeedsProduct
  | RequestScopeUnknown (scope : string)
  | RequestNeedsOwner (scope : string)
  | StoreFailed (e : E)
  | ProductMissing (product : string)
  | ConfigurationMissing (product : string) (revision : Z).
Arguments RequestNeedsProduct {E}.
Arguments RequestScopeUnknown {E}.
Arguments RequestNeedsOwner {E}.
Arguments StoreFailed {E}.
Arguments ProductMissing {E}.
Arguments ConfigurationMissing {E}.

(** The scopes a raw discovery lives at. *)
Definition ownsRawScope (scope : string) : bool := (scope ≟ ScopeExecution) || (scope ≟ ScopeWorkUnit).

Section compile.
Context {E : Type} (store : Store E).

Definition resolveConfiguration (productID : string) (pinned : option Z) : result (RequestError E) (option ProductConfiguration) :=
  match pinned with
  | None => wrap StoreFailed (store.(store_CurrentConfiguration) productID)
  | Some revision =>
      if (revision =? 0)%Z then Ok None
      else
        let? found := wrap StoreFailed (store.(store_ConfigurationRevision) productID revision) in
        match found with
        | None => Err (ConfigurationMissing productID revision)
        | Some configuration => Ok (Some configuration)
        end
  end.

(** The promotions of one audience; a caller that names none has none. *)
Definition audienced (productID scope audience : string) : result (RequestError E) (list KnowledgeEntry) :=
  if audience ≠? "" then wrap StoreFailed (store.(store_AudiencedPromotedKnowledge) productID scope audience) else Ok [].

(** [CompileContext]. *)
Definition compile_product_context (request : ContextRequest) : result (RequestError E) ProductContext :=
  refuse_if (blank request.(Request_ProductID)) RequestNeedsProduct ;?
  refuse_if (negb (KnownScope request.(Request_Scope))) (RequestScopeUnknown request.(Request_Scope)) ;?
  refuse_if (ownsRawScope request.(Request_Scope) && blank request.(Request_OwnerRef)) (RequestNeedsOwner request.(Request_Scope)) ;?
  let? found := wrap StoreFailed (store.(store_CurrentProduct) request.(Request_ProductID)) in
  match found with
  | None => Err (ProductMissing request.(Request_ProductID))
  | Some current =>
      let id := current.(Product_ID) in
      let? configuration := resolveConfiguration id request.(Request_ConfigurationRevision) in
      let? owned := if ownsRawScope request.(Request_Scope)
        then wrap StoreFailed (store.(store_OwnedKnowledge) id request.(Request_Scope) request.(Request_OwnerRef)) else Ok [] in
      let? widely := wrap StoreFailed (store.(store_WidelyPromotedKnowledgeAtOrBelow) id request.(Request_Scope)) in
      let? forOwner := audienced id ScopeWorkUnit request.(Request_OwnerRef) in
      let? forFeature := audienced id ScopeFeature request.(Request_FeatureRef) in
      Ok (MkProductContext id request.(Request_Scope) current.(Product_Repositories) configuration
            (owned ++ widely ++ forOwner ++ forFeature))
  end.
End compile.

(* ------------------------------------------------------------------ *)
(** * Pins *)

Definition maxPinnedKnowledgeEntries : nat := 3 * MaxContextKnowledgeEntries.

Record ContextPin := MkContextPin {
  Pin_ProductID : string;
  Pin_Repositories : list string;
  Pin_ConfigurationRevision : Z;
  Pin_ConfigurationDigest : string;
  Pin_KnowledgeIDs : list string;
  Pin_ContextDigest : string
}.

Inductive PinError :=
  | PinProductRequired
  | PinRepositoryCount (n : nat)
  | PinRepositoriesUnsorted
  | PinNegativeRevision (revision : Z)
  | PinConfigurationMismatch
  | PinKnowledgeCount (n : nat)
  | PinKnowledgeUnsorted
  | PinDigestRefused (e : CanonicalError)
  | PinDigestMismatch (digest : string).

(** [ContextPin.identity]: the digest of the pin without its own digest. *)
Definition pin_identity `{!Canonicalizer} (p : ContextPin) : result CanonicalError string :=
  Digest (GStruct ([("product_id", GString p.(Pin_ProductID));
    ("repositories", GList (GString <$> p.(Pin_Repositories)));
    ("configuration_revision", GInt p.(Pin_ConfigurationRevision))]
    ++ omit_if (p.(Pin_ConfigurationDigest) ≟ "") "configuration_digest" (GString p.(Pin_ConfigurationDigest))
    ++ omit_if (length p.(Pin_KnowledgeIDs) =? 0) "knowledge_ids" (GList (GString <$> p.(Pin_KnowledgeIDs)))
    ++ [("context_digest", GString "")])).

(** The loop that refuses a blank value or one not above its predecessor. *)
Fixpoint strictly_sorted (previous : option string) (values : list string) : bool :=
  match values with
  | [] => true
  | value :: values =>
      negb (blank value || match previous with Some p => bool_decide (String.le value p) | None => false end)
      && strictly_sorted (Some value) values
  end.

(** Distinct values in order pass the loop. *)
Lemma strictly_sorted_above previous values :
  StronglySorted String.le values → NoDup values → Forall (λ value, blank value = false) values →
  (∀ p, previous = Some p → ∀ value, value ∈ values → ¬ String.le value p) → strictly_sorted previous values = true.
Proof.
  revert previous. induction values as [|value values IH]; intros previous Hs Hn Hb Hp; [done|]. simpl.
  apply StronglySorted_inv in Hs as [Hs Hle]. apply NoDup_cons in Hn as [Hni Hn]. apply Forall_cons in Hb as [Hb Hbs]. rewrite Hb. simpl.
  rewrite IH; [|done..|].
  - rewrite andb_true_r. destruct previous as [p|]; [|done]. rewrite bool_decide_false; [done|]. apply Hp; [done|by left].
  - intros ? [= <-] y Hy Hyv. rewrite Forall_forall in Hle. by rewrite (anti_symm String.le y value Hyv (Hle y Hy)) in Hy.
Qed.

Lemma strictly_sorted_distinct values :
  StronglySorted String.le values → NoDup values → (∀ value, value ∈ values → blank value = false) → strictly_sorted None values = true.
Proof. intros ? ? Hb. apply strictly_sorted_above; [done..| |done]. by apply Forall_forall. Qed.

(** [ContextPin.Validate]. *)
Definition validate_pin `{!Canonicalizer} (p : ContextPin) : result PinError () :=
  refuse_if (blank p.(Pin_ProductID)) PinProductRequired ;?
  let n := length p.(Pin_Repositories) in
  refuse_if ((n =? 0) || (MaxProductRepositories <? n)) (PinRepositoryCount n) ;?
  refuse_if (negb (strictly_sorted None p.(Pin_Repositories))) PinRepositoriesUnsorted ;?
  refuse_if (p.(Pin_ConfigurationRevision) <? 0)%Z (PinNegativeRevision p.(Pin_ConfigurationRevision)) ;?
  refuse_if (negb (Bool.eqb (p.(Pin_ConfigurationRevision) =? 0)%Z (p.(Pin_ConfigurationDigest) ≟ "")))
    PinConfigurationMismatch ;?
  refuse_if (maxPinnedKnowledgeEntries <? length p.(Pin_KnowledgeIDs)) (PinKnowledgeCount (length p.(Pin_KnowledgeIDs))) ;?
  refuse_if (negb (strictly_sorted None p.(Pin_KnowledgeIDs))) PinKnowledgeUnsorted ;?
  let? digest := wrap PinDigestRefused (pin_identity p) in
  refuse_if (digest ≠? p.(Pin_ContextDigest)) (PinDigestMismatch p.(Pin_ContextDigest)).

(** [WorkUnitOwnerRef]. *)
Definition WorkUnitOwnerRef (graphID unitID : string) : string := graphID +:+ "/" +:+ unitID.

Inductive ResolveContextError (E : Type) :=
  | PinInvalid (e : PinError)
  | PinOfAnother (product requested : string)
  | ContextNotCompiled (e : RequestError E)
  | PinnedRepositoryGone (product repository : string)
  | ContextNotPinnable (e : PinError)
  | ContextDrifted (product digest : string).
Arguments PinInvalid {E}.
Arguments PinOfAnother {E}.
Arguments ContextNotCompiled {E}.
Arguments PinnedRepositoryGone {E}.
Arguments ContextNotPinnable {E}.
Arguments ContextDrifted {E}.

Section pins.
Context `{!MapRange, !Canonicalizer}.

Definition with_context_digest (p : ContextPin) (digest : string) : ContextPin :=
  MkContextPin p.(Pin_ProductID) p.(Pin_Repositories) p.(Pin_ConfigurationRevision) p.(Pin_ConfigurationDigest)
    p.(Pin_KnowledgeIDs) digest.

(** Revision and digest of the configuration, 0 and nothing without one. *)
Definition pinned_configuration (configuration : option ProductConfiguration) : result PinError (Z * string) :=
  match configuration with
  | None => Ok (0%Z, "")
  | Some c => let? digest := wrap PinDigestRefused (configuration_RevisionDigest c) in Ok (c.(Configuration_Revision), digest)
  end.

Definition NewContextPin (compiled : ProductContext) : result PinError ContextPin :=
  let? configuration := pinned_configuration compiled.(Compiled_Configuration) in
  let pin := MkContextPin compiled.(Compiled_ProductID) (sortedCopy compiled.(Compiled_Repositories)) configuration.1
    configuration.2 (sorted_unique (Entry_ID <$> compiled.(Compiled_Knowledge))) "" in
  let? digest := wrap PinDigestRefused (pin_identity pin) in
  let pin := with_context_digest pin digest in
  validate_pin pin ;? Ok pin.

(** [ContextPin.Resolve].  Entries of one id are the same entry, so the order
    of equal ids in the unstable sort does not show. *)
Definition resolve_pin {E} (p : ContextPin) (store : Store E) (request : ContextRequest)
  : result (ResolveContextError E) ProductContext :=
  wrap PinInvalid (validate_pin p) ;?
  refuse_if (request.(Request_ProductID) ≠? p.(Pin_ProductID)) (PinOfAnother p.(Pin_ProductID) request.(Request_ProductID)) ;?
  let? compiled := wrap ContextNotCompiled (compile_product_context store
    (MkRequest request.(Request_ProductID) request.(Request_Scope) request.(Request_OwnerRef) request.(Request_FeatureRef)
       (Some p.(Pin_ConfigurationRevision)))) in
  check_all (λ repository, refuse_if (negb (compiled.(Compiled_Repositories) ∋? repository))
               (PinnedRepositoryGone p.(Pin_ProductID) repository)) p.(Pin_Repositories) ;?
  let kept := filter (λ e, e.(Entry_ID) ∈ p.(Pin_KnowledgeIDs)) compiled.(Compiled_Knowledge) in
  let compiled := MkProductContext compiled.(Compiled_ProductID) compiled.(Compiled_Scope) p.(Pin_Repositories)
    compiled.(Compiled_Configuration) (sort_by Entry_ID kept) in
  let? reproduced := wrap ContextNotPinnable (NewContextPin compiled) in
  refuse_if (reproduced.(Pin_ContextDigest) ≠? p.(Pin_ContextDigest)) (ContextDrifted p.(Pin_ProductID) p.(Pin_ContextDigest)) ;?
  Ok compiled.
End pins.

(* ------------------------------------------------------------------ *)
(** * What a store promises *)

(** The list some read of the store gives. *)
Inductive read {E} (store : Store E) : list KnowledgeEntry → Prop :=
  | read_owned product scope owner l : store.(store_OwnedKnowledge) product scope owner = Ok l → read store l
  | read_widely product scope l : store.(store_WidelyPromotedKnowledgeAtOrBelow) product scope = Ok l → read store l
  | read_audienced product scope audience l : store.(store_AudiencedPromotedKnowledge) product scope audience = Ok l → read store l.

Class StoreLaws {E} (store : Store E) := {
  product_law product p : store.(store_CurrentProduct) product = Ok (Some p) → p.(Product_ID) = product;
  configuration_law product revision c :
    store.(store_ConfigurationRevision) product revision = Ok (Some c) → c.(Configuration_Revision) = revision;
  owned_law product scope owner l e : store.(store_OwnedKnowledge) product scope owner = Ok l → e ∈ l →
    e.(Entry_ProductID) = product ∧ ¬ promoted e ∧ e.(Entry_OwnerRef) = owner;
  widely_law product scope l e : store.(store_WidelyPromotedKnowledgeAtOrBelow) product scope = Ok l → e ∈ l →
    e.(Entry_ProductID) = product ∧ promoted e ∧ e.(Entry_AudienceRef) = "";
  audienced_law product scope audience l e : store.(store_AudiencedPromotedKnowledge) product scope audience = Ok l → e ∈ l →
    e.(Entry_ProductID) = product ∧ promoted e ∧ e.(Entry_Scope) = scope ∧ e.(Entry_AudienceRef) = audience;
  read_law l : read store l → NoDup (Entry_ID <$> l) ∧ (length l <= MaxContextKnowledgeEntries)%nat;
  identity_law l1 l2 e1 e2 : read store l1 → read store l2 → e1 ∈ l1 → e2 ∈ l2 → e1.(Entry_ID) = e2.(Entry_ID) → e1 = e2
}.

(** Why an entry may be in the context of a request. *)
Inductive visible (request : ContextRequest) (e : KnowledgeEntry) : Prop :=
  | visible_own : ownsRawScope request.(Request_Scope) = true → ¬ promoted e → e.(Entry_OwnerRef) = request.(Request_OwnerRef) →
      visible request e
  | visible_widely : promoted e → e.(Entry_AudienceRef) = "" → visible request e
  | visible_unit : promoted e → e.(Entry_Scope) = ScopeWorkUnit → e.(Entry_AudienceRef) = request.(Request_OwnerRef) →
      request.(Request_OwnerRef) ≠ "" → visible request e
  | visible_feature : promoted e → e.(Entry_Scope) = ScopeFeature → e.(Entry_AudienceRef) = request.(Request_FeatureRef) →
      request.(Request_FeatureRef) ≠ "" → visible request e.

(** The configuration of a request: the pinned revision, none for the pin 0,
    the current one without a pin. *)
Definition configured {E} (store : Store E) (request : ContextRequest) (c : option ProductConfiguration) : Prop :=
  match request.(Request_ConfigurationRevision) with
  | Some revision => if (revision =? 0)%Z then c = None
                     else ∃ configuration, c = Some configuration
                       ∧ store.(store_ConfigurationRevision) request.(Request_ProductID) revision = Ok (Some configuration)
  | None => store.(store_CurrentConfiguration) request.(Request_ProductID) = Ok c
  end.

Section compiled.
Context {E : Type} (store : Store E) `{!StoreLaws store}.
Set Default Proof Using "All".

Lemma audienced_ok product scope audience l :
  audienced store product scope audience = Ok l ↔
  (audience ≠ "" ∧ store.(store_AudiencedPromotedKnowledge) product scope audience = Ok l) ∨ (audience = "" ∧ l = []).
Proof.
  unfold audienced. destruct (bool_decide_reflect (audience = "")) as [->|]; simpl.
  - split; [intros [= <-]; by right|by intros [[? _]|[_ ->]]].
  - rewrite wrap_ok. naive_solver.
Qed.

(** The parts of a compiled context. *)
Lemma compile_product_context_ok request c :
  compile_product_context store request = Ok c ↔
  blank request.(Request_ProductID) = false ∧ KnownScope request.(Request_Scope) = true
  ∧ (ownsRawScope request.(Request_Scope) = true → blank request.(Request_OwnerRef) = false)
  ∧ ∃ current configuration owned widely forOwner forFeature,
    store.(store_CurrentProduct) request.(Request_ProductID) = Ok (Some current)
    ∧ configured store request configuration
    ∧ (if ownsRawScope request.(Request_Scope)
       then store.(store_OwnedKnowledge) request.(Request_ProductID) request.(Request_Scope) request.(Request_OwnerRef) = Ok owned
       else owned = [])
    ∧ store.(store_WidelyPromotedKnowledgeAtOrBelow) request.(Request_ProductID) request.(Request_Scope) = Ok widely
    ∧ audienced store request.(Request_ProductID) ScopeWorkUnit request.(Request_OwnerRef) = Ok forOwner
    ∧ audienced store request.(Request_ProductID) ScopeFeature request.(Request_FeatureRef) = Ok forFeature
    ∧ c = MkProductContext request.(Request_ProductID) request.(Request_Scope) current.(Product_Repositories) configuration
            (owned ++ widely ++ forOwner ++ forFeature).
Proof.
  unfold compile_product_context. rewrite !check_then, !refuse_if_ok, negb_false_iff, andb_false_iff. split.
  - intros (? & ? & Ho & Hc). split_and!; [done|done|destruct Ho; congruence|].
    apply rbind_ok in Hc as ([current|] & Hcur%wrap_ok & Hc); [|done]. rewrite (product_law _ _ Hcur) in Hc.
    apply rbind_ok in Hc as (configuration & Hcfg & (owned & Hown & (widely & Hw%wrap_ok & (unit & Hu & (feature & Hf & [= <-])%rbind_ok)%rbind_ok)%rbind_ok)%rbind_ok).
    exists current, configuration, owned, widely, unit, feature. split_and!; try done.
    + unfold resolveConfiguration, configured in *. destruct (Request_ConfigurationRevision request) as [n|]; [|by apply wrap_ok in Hcfg].
      destruct (n =? 0)%Z; [by injection Hcfg as <-|]. apply rbind_ok in Hcfg as ([k|] & Hk%wrap_ok & Hcfg); [|done].
      injection Hcfg as <-. by exists k.
    + destruct (ownsRawScope _); [by apply wrap_ok in Hown|by injection Hown as <-].
  - intros (? & ? & Ho & current & configuration & owned & widely & unit & feature & Hcur & Hcfg & Hown & Hw & Hu & Hf & ->).
    split_and!; [done|done|destruct (ownsRawScope _); auto|]. rewrite Hcur. simpl. rewrite (product_law _ _ Hcur).
    assert (resolveConfiguration store request.(Request_ProductID) request.(Request_ConfigurationRevision) = Ok configuration) as ->.
    { unfold resolveConfiguration, configured in *. destruct (Request_ConfigurationRevision request) as [n|]; [|by rewrite Hcfg].
      destruct (n =? 0)%Z; [by subst|]. destruct Hcfg as (k & -> & Hk). by rewrite Hk. }
    simpl. destruct (ownsRawScope _); [rewrite Hown|subst owned]; simpl; rewrite Hw; simpl; rewrite Hu; simpl; rewrite Hf; done.
Qed.

(** What a compiled context holds. *)
Lemma compiled_knowledge request c e :
  compile_product_context store request = Ok c → e ∈ c.(Compiled_Knowledge) →
  e.(Entry_ProductID) = request.(Request_ProductID) ∧ visible request e ∧ ∃ l, read store l ∧ e ∈ l.
Proof.
  intros (_ & _ & _ & current & cfg & owned & widely & unit & feature & _ & _ & Hown & Hw & Hu & Hf & ->)%compile_product_context_ok.
  simpl. rewrite !elem_of_app. intros [He|[He|[He|He]]].
  - destruct (ownsRawScope _) eqn:Hr; [|subst owned; by apply not_elem_of_nil in He].
    destruct (owned_law _ _ _ _ _ Hown He) as (? & ? & ?). split_and!; [done|by apply visible_own|]. exists owned. split; [by eapply read_owned|done].
  - destruct (widely_law _ _ _ _ Hw He) as (? & ? & ?). split_and!; [done|by apply visible_widely|]. exists widely. split; [by eapply read_widely|done].
  - apply audienced_ok in Hu as [[Hne Hu]|[_ ->]]; [|by apply not_elem_of_nil in He].
    destruct (audienced_law _ _ _ _ _ Hu He) as (? & ? & ? & ?). split_and!; [done|by apply visible_unit|].
    exists unit. split; [by eapply read_audienced|done].
  - apply audienced_ok in Hf as [[Hne Hf]|[_ ->]]; [|by apply not_elem_of_nil in He].
    destruct (audienced_law _ _ _ _ _ Hf He) as (? & ? & ? & ?). split_and!; [done|by apply visible_feature|].
    exists feature. split; [by eapply read_audienced|done].
Qed.

Lemma compiled_identity request c e1 e2 :
  compile_product_context store request = Ok c → e1 ∈ c.(Compiled_Knowledge) → e2 ∈ c.(Compiled_Knowledge) →
  e1.(Entry_ID) = e2.(Entry_ID) → e1 = e2.
Proof.
  intros Hc H1 H2. destruct (compiled_knowledge _ _ _ Hc H1) as (_ & _ & l1 & Hl1 & Hi1).
  destruct (compiled_knowledge _ _ _ Hc H2) as (_ & _ & l2 & Hl2 & Hi2). by apply (identity_law l1 l2).
Qed.

Lemma read_NoDup l : read store l → NoDup l.
Proof. intros [Hnd _]%read_law. by eapply NoDup_fmap_1. Qed.

(** The reads of one request never overlap. *)
Lemma compiled_NoDup request c : compile_product_context store request = Ok c → NoDup c.(Compiled_Knowledge).
Proof.
  intros (_ & _ & Hb & current & cfg & owned & widely & unit & feature & _ & _ & Hown & Hw & Hu & Hf & ->)%compile_product_context_ok. simpl.
  assert (NoDup owned ∧ ∀ e, e ∈ owned → ¬ promoted e) as [Hno Hpo].
  { destruct (ownsRawScope _); [|subst owned; split; [constructor|by intros ? ?%not_elem_of_nil]].
    split; [by eapply read_NoDup, read_owned|]. intros e He. by destruct (owned_law _ _ _ _ _ Hown He) as (_ & ? & _). }
  assert (∀ scope audience l, audienced store request.(Request_ProductID) scope audience = Ok l →
    NoDup l ∧ ∀ e, e ∈ l → promoted e ∧ e.(Entry_Scope) = scope ∧ e.(Entry_AudienceRef) ≠ "") as Haud.
  { intros scope audience l [[Hne Hl]|[_ ->]]%audienced_ok; [|split; [constructor|by intros ? ?%not_elem_of_nil]].
    split; [by eapply read_NoDup, read_audienced|]. intros e He. destruct (audienced_law _ _ _ _ _ Hl He) as (_ & ? & ? & ->). done. }
  destruct (Haud _ _ _ Hu) as [Hnu Hau], (Haud _ _ _ Hf) as [Hnf Haf].
  assert (∀ e, e ∈ widely → promoted e ∧ e.(Entry_AudienceRef) = "") as Haw
    by (intros e He; by destruct (widely_law _ _ _ _ Hw He) as (_ & ? & ?)).
  rewrite !NoDup_app. pose proof (read_NoDup _ (read_widely _ _ _ _ Hw)) as Hnw. split_and!; try done.
  - intros e He. rewrite !not_elem_of_app. specialize (Hpo e He). split_and!; intros Hx; [destruct (Haw e Hx)|destruct (Hau e Hx)|destruct (Haf e Hx)]; done.
  - intros e He. rewrite not_elem_of_app. destruct (Haw e He) as [_ Ha].
    split; intros Hx; [destruct (Hau e Hx) as (_ & _ & ?)|destruct (Haf e Hx) as (_ & _ & ?)]; done.
  - intros e He Hx. destruct (Hau e He) as (_ & Hs & _), (Haf e Hx) as (_ & Hs' & _). rewrite Hs in Hs'. done.
Qed.

Lemma compiled_product request c : compile_product_context store request = Ok c → c.(Compiled_ProductID) = request.(Request_ProductID).
Proof. intros (_ & _ & _ & current & cfg & owned & widely & unit & feature & _ & _ & _ & _ & _ & _ & ->)%compile_product_context_ok. done. Qed.

(** A context is compiled for one product and one reader: its knowledge was
    either discovered by that reader itself, at a scope only it reads, or
    promoted, without an audience or to exactly this reader or feature.  The
    configuration is the pinned revision, and none for a pin of none. *)
Theorem compile_product_context_visible request c :
  compile_product_context store request = Ok c →
  c.(Compiled_ProductID) = request.(Request_ProductID)
  ∧ (∀ e, e ∈ c.(Compiled_Knowledge) → e.(Entry_ProductID) = request.(Request_ProductID) ∧ visible request e)
  ∧ NoDup c.(Compiled_Knowledge) ∧ (length c.(Compiled_Knowledge) <= 4 * MaxContextKnowledgeEntries)%nat
  ∧ configured store request c.(Compiled_Configuration).
Proof.
  intros Hc. pose proof (λ e He, compiled_knowledge _ _ e Hc He) as Hk. pose proof (compiled_NoDup _ _ Hc) as Hnd.
  apply compile_product_context_ok in Hc as (_ & _ & _ & current & cfg & owned & widely & unit & feature & _ & Hcfg & Hown & Hw & Hu & Hf & ->).
  simpl in *. split_and!; [done| |done| |done].
  - intros e He. by destruct (Hk e He) as (? & ? & _).
  - assert (∀ l, read store l → (length l <= MaxContextKnowledgeEntries)%nat) as Hlen by (by intros l [_ ?]%read_law).
    assert (length owned <= MaxContextKnowledgeEntries)%nat
      by (destruct (ownsRawScope _); [by eapply Hlen, read_owned|subst owned; simpl; lia]).
    assert (length widely <= MaxContextKnowledgeEntries)%nat by (by eapply Hlen, read_widely).
    assert (∀ scope audience l, audienced store request.(Request_ProductID) scope audience = Ok l → (length l <= MaxContextKnowledgeEntries)%nat) as Ha
      by (intros scope audience l [[_ Hl]|[_ ->]]%audienced_ok; [by eapply Hlen, read_audienced|simpl; lia]).
    pose proof (Ha _ _ _ Hu). pose proof (Ha _ _ _ Hf). rewrite !length_app. unfold MaxContextKnowledgeEntries in *. lia.
Qed.
End compiled.

(* ------------------------------------------------------------------ *)
(** * Pins are stable *)

(** A store that only grew, as far as one product is concerned: repositories
    are added, configuration revisions stay, entries stay readable. *)
Record grown {E} (store store' : Store E) (product : string) : Prop := {
  grown_product p : store.(store_CurrentProduct) product = Ok (Some p) →
    ∃ p', store'.(store_CurrentProduct) product = Ok (Some p') ∧ p.(Product_Repositories) ⊆ p'.(Product_Repositories);
  grown_configuration revision c : store.(store_ConfigurationRevision) product revision = Ok (Some c) →
    store'.(store_ConfigurationRevision) product revision = Ok (Some c);
  grown_current c : store.(store_CurrentConfiguration) product = Ok (Some c) →
    store'.(store_ConfigurationRevision) product c.(Configuration_Revision) = Ok (Some c);
  grown_owned scope owner l : store.(store_OwnedKnowledge) product scope owner = Ok l →
    ∃ l', store'.(store_OwnedKnowledge) product scope owner = Ok l' ∧ l ⊆ l';
  grown_widely scope l : store.(store_WidelyPromotedKnowledgeAtOrBelow) product scope = Ok l →
    ∃ l', store'.(store_WidelyPromotedKnowledgeAtOrBelow) product scope = Ok l' ∧ l ⊆ l';
  grown_audienced scope audience l : store.(store_AudiencedPromotedKnowledge) product scope audience = Ok l →
    ∃ l', store'.(store_AudiencedPromotedKnowledge) product scope audience = Ok l' ∧ l ⊆ l'
}.

(** The request a pin resolves: the one it was admitted with, at its own
    configuration revision. *)
Definition pinned_request (request : ContextRequest) (revision : Z) : ContextRequest :=
  MkRequest request.(Request_ProductID) request.(Request_Scope) request.(Request_OwnerRef) request.(Request_FeatureRef) (Some revision).

Definition configuration_revision_of (c : option ProductConfiguration) : Z :=
  match c with Some c => c.(Configuration_Revision) | None => 0 end.

Section stability.
Context {E : Type} (store store' : Store E) `{!StoreLaws store, !StoreLaws store'}.
Set Default Proof Using "All".

Lemma audienced_grown product scope audience l :
  grown store store' product → audienced store product scope audience = Ok l →
  ∃ l', audienced store' product scope audience = Ok l' ∧ l ⊆ l'.
Proof.
  intros Hg. rewrite (audienced_ok store). intros [[Hne Hl]|[-> ->]].
  - destruct (grown_audienced _ _ _ Hg _ _ _ Hl) as (l' & ? & ?). exists l'. rewrite (audienced_ok store'). auto.
  - exists []. by rewrite (audienced_ok store'); auto.
Qed.

(** Compiled again later, at the same configuration, a context has lost
    nothing. *)
Lemma compile_grown request c :
  grown store store' request.(Request_ProductID) → compile_product_context store request = Ok c →
  (∀ configuration, c.(Compiled_Configuration) = Some configuration → (1 <= configuration.(Configuration_Revision))%Z) →
  ∃ c', compile_product_context store' (pinned_request request (configuration_revision_of c.(Compiled_Configuration))) = Ok c'
    ∧ c'.(Compiled_ProductID) = c.(Compiled_ProductID) ∧ c'.(Compiled_Scope) = c.(Compiled_Scope)
    ∧ c'.(Compiled_Configuration) = c.(Compiled_Configuration)
    ∧ c.(Compiled_Repositories) ⊆ c'.(Compiled_Repositories) ∧ c.(Compiled_Knowledge) ⊆ c'.(Compiled_Knowledge).
Proof.
  intros Hg Hc Hrev. apply (compile_product_context_ok store) in Hc
    as (Hp & Hs & Ho & current & cfg & owned & widely & unit & feature & Hcur & Hcfg & Hown & Hw & Hu & Hf & ->).
  simpl in *. destruct (grown_product _ _ _ Hg _ Hcur) as (current' & Hcur' & Hrepo).
  assert (∃ owned', (if ownsRawScope request.(Request_Scope)
      then store'.(store_OwnedKnowledge) request.(Request_ProductID) request.(Request_Scope) request.(Request_OwnerRef) = Ok owned'
      else owned' = []) ∧ owned ⊆ owned') as (owned' & Hown' & ?).
  { destruct (ownsRawScope _); [by apply (grown_owned _ _ _ Hg)|]. exists []. by subst. }
  destruct (grown_widely _ _ _ Hg _ _ Hw) as (widely' & Hw' & ?).
  destruct (audienced_grown _ _ _ _ Hg Hu) as (unit' & Hu' & ?). destruct (audienced_grown _ _ _ _ Hg Hf) as (feature' & Hf' & ?).
  exists (MkProductContext request.(Request_ProductID) request.(Request_Scope) current'.(Product_Repositories) cfg
    (owned' ++ widely' ++ unit' ++ feature')). simpl. split_and!; try done; [|set_solver].
  apply (compile_product_context_ok store'). simpl. split_and!; [done..|].
  exists current', cfg, owned', widely', unit', feature'. split_and!; try done.
  unfold configured in *. simpl. destruct cfg as [k|]; simpl; [|done].
  specialize (Hrev k eq_refl). rewrite (proj2 (Z.eqb_neq _ 0)) by lia. exists k. split; [done|].
  destruct (Request_ConfigurationRevision request) as [n|]; [|by apply (grown_current _ _ _ Hg)].
  destruct (n =? 0)%Z; [done|]. destruct Hcfg as (k' & [= <-] & Hk). rewrite (configuration_law _ _ _ Hk). by apply (grown_configuration _ _ _ Hg).
Qed.
End stability.

Section resolution.
Context `{!MapRange, !Canonicalizer}.

(** What a fresh pin holds. *)
Lemma NewContextPin_ok c p :
  NewContextPin c = Ok p ↔
  ∃ digest, pinned_configuration c.(Compiled_Configuration) = Ok (p.(Pin_ConfigurationRevision), digest)
    ∧ p.(Pin_ConfigurationDigest) = digest ∧ p.(Pin_ProductID) = c.(Compiled_ProductID)
    ∧ p.(Pin_Repositories) = sortedCopy c.(Compiled_Repositories)
    ∧ p.(Pin_KnowledgeIDs) = sorted_unique (Entry_ID <$> c.(Compiled_Knowledge))
    ∧ validate_pin p = Ok tt.
Proof.
  unfold NewContextPin. rewrite rbind_ok. split.
  - intros ([n d] & Hc & (digest & Hd & [Hv [= <-]]%check_then)%rbind_ok). by exists d.
  - intros (d & Hc & <- & Hp & Hr & Hk & Hv). eexists. split; [exact Hc|]. simpl.
    assert (pin_identity p = Ok p.(Pin_ContextDigest)) as Hid.
    { unfold validate_pin in Hv. rewrite !check_then in Hv. destruct Hv as (_ & _ & _ & _ & _ & _ & _ & Hv).
      apply rbind_ok in Hv as (digest & Hd%wrap_ok & Hv). rewrite refuse_if_ok, negb_false_iff, bool_decide_eq_true in Hv. congruence. }
    rewrite <- Hp, <- Hr, <- Hk. rewrite rbind_ok. exists p.(Pin_ContextDigest).
    rewrite wrap_ok. split; [destruct p; exact Hid|]. destruct p. simpl in *. by rewrite check_then.
Qed.

Lemma sort_strings_idemp l : sort_strings (sort_strings l) = sort_strings l.
Proof. apply (StronglySorted_unique String.le); [apply sort_strings_sorted..|apply sort_strings_perm]. Qed.

Lemma pinned_configuration_positive p c :
  NewContextPin c = Ok p → ∀ k, c.(Compiled_Configuration) = Some k → (1 <= k.(Configuration_Revision))%Z.
Proof.
  intros (d & Hc & Hd & _ & _ & _ & Hv)%NewContextPin_ok k Hk. rewrite Hk in Hc.
  apply rbind_ok in Hc as (digest & Hdig%wrap_ok%Digest_len & [= Hr <-]). unfold validate_pin in Hv. rewrite Hr. rewrite !check_then in Hv.
  destruct Hv as (_ & _ & _ & Hneg & Hiff & _). rewrite refuse_if_ok, Z.ltb_ge in Hneg.
  rewrite refuse_if_ok, negb_false_iff, eqb_true_iff, Hd in Hiff.
  assert (digest ≠ "") as Hne by (intros ->; discriminate). rewrite bool_decide_false in Hiff by done. apply Z.eqb_neq in Hiff. lia.
Qed.

(** The knowledge a later context keeps of a pin is the knowledge it was made
    from. *)
Lemma kept_knowledge (l l' : list KnowledgeEntry) :
  NoDup l → NoDup l' → l ⊆ l' → (∀ e1 e2, e1 ∈ l' → e2 ∈ l' → e1.(Entry_ID) = e2.(Entry_ID) → e1 = e2) →
  sort_by Entry_ID (filter (λ e, e.(Entry_ID) ∈ sorted_unique (Entry_ID <$> l)) l') = sort_by Entry_ID l.
Proof.
  intros Hn Hn' Hsub Hid. symmetry. apply sort_by_unique; [by auto|]. apply NoDup_Permutation; [done|by apply NoDup_filter|].
  intros e. rewrite list_elem_of_filter, elem_of_sorted_unique, list_elem_of_fmap. split.
  - intros He. split; [by exists e|by apply Hsub].
  - intros [(e0 & He0 & Hin) He]. by rewrite (Hid e e0 He (Hsub _ Hin) He0).
Qed.

(** A unit admitted with a pinned context is always given that context again.
    However the store has grown since, with repositories, configuration
    revisions and knowledge, the pin resolves: to the repositories, the
    configuration revision and the knowledge it froze, and nothing newer. *)
Lemma resolve_pin_stable {E} (store store' : Store E) `{!StoreLaws store, !StoreLaws store'} request c p :
  compile_product_context store request = Ok c → NewContextPin c = Ok p → grown store store' request.(Request_ProductID) →
  resolve_pin p store' request = Ok (MkProductContext c.(Compiled_ProductID) c.(Compiled_Scope) (sortedCopy c.(Compiled_Repositories))
    c.(Compiled_Configuration) (sort_by Entry_ID c.(Compiled_Knowledge))).
Proof.
  intros Hc Hp Hg. pose proof (pinned_configuration_positive _ _ Hp) as Hpos.
  destruct (compile_grown store store' _ _ Hg Hc Hpos) as (c' & Hc' & Hid & Hsc & Hcfg & Hrep & Hkn).
  pose proof (compiled_product store _ _ Hc) as Hprod.
  pose proof (proj1 (NewContextPin_ok _ _) Hp) as (d & Hd & Hdig & Hpid & Hprep & Hpkn & Hv).
  assert (p.(Pin_ConfigurationRevision) = configuration_revision_of c.(Compiled_Configuration)) as Hrev.
  { unfold pinned_configuration in Hd. destruct (Compiled_Configuration c) as [k|]; [|by injection Hd as <- _].
    by apply rbind_ok in Hd as (? & _ & [= Hr _]). }
  unfold resolve_pin. rewrite !check_then, wrap_ok, refuse_if_ok, negb_false_iff, bool_decide_eq_true. split; [done|]. split; [congruence|].
  apply rbind_ok. exists c'. rewrite wrap_ok, Hrev. split; [exact Hc'|]. rewrite check_then, check_all_ok. split.
  - intros r Hr. rewrite refuse_if_ok, negb_false_iff, bool_decide_eq_true.
    rewrite Hprep in Hr. unfold sortedCopy in Hr. rewrite elem_of_sort_strings in Hr. by apply Hrep.
  - rewrite Hpkn, kept_knowledge; [|by eapply (compiled_NoDup store)|by eapply (compiled_NoDup store')|done|
      intros e1 e2 H1 H2; by eapply (compiled_identity store')].
    rewrite Hid, Hsc, Hcfg, Hprep. apply rbind_ok. exists p. rewrite wrap_ok, refuse_if_then, negb_false_iff, bool_decide_eq_true.
    split; [|done]. apply NewContextPin_ok. exists d. simpl. split_and!; try done.
    + rewrite Hprep. symmetry. apply sort_strings_idemp.
    + rewrite Hpkn. apply sorted_unique_ext. intros x. by rewrite sort_by_perm.
Qed.

(** ** Without any order of recording

    Where new entries may be dated before old ones a read may no longer show a
    pinned entry.  What is in both stores is still the same in both. *)
Record agrees {E} (store store' : Store E) (product : string) : Prop := {
  agrees_configuration revision c : store.(store_ConfigurationRevision) product revision = Ok (Some c) →
    store'.(store_ConfigurationRevision) product revision = Ok (Some c);
  agrees_current c : store.(store_CurrentConfiguration) product = Ok (Some c) →
    store'.(store_ConfigurationRevision) product c.(Configuration_Revision) = Ok (Some c);
  agrees_entries l l' e e' : read store l → read store' l' → e ∈ l → e' ∈ l' → e.(Entry_ID) = e'.(Entry_ID) → e = e'
}.

(** The pin of fewer entries. *)
Definition with_knowledge (p : ContextPin) (ids : list string) : ContextPin :=
  MkContextPin p.(Pin_ProductID) p.(Pin_Repositories) p.(Pin_ConfigurationRevision) p.(Pin_ConfigurationDigest) ids p.(Pin_ContextDigest).
Definition pin_collision (p : ContextPin) : Prop :=
  ∃ ids, ids ⊆ p.(Pin_KnowledgeIDs) ∧ ids ≠ p.(Pin_KnowledgeIDs) ∧ pin_identity (with_knowledge p ids) = pin_identity p.

Lemma valid_identity p : validate_pin p = Ok tt → pin_identity p = Ok p.(Pin_ContextDigest).
Proof.
  unfold validate_pin. rewrite !check_then. intros (_ & _ & _ & _ & _ & _ & _ & Hv).
  apply rbind_ok in Hv as (digest & Hd%wrap_ok & Hv). rewrite refuse_if_ok, negb_false_iff, bool_decide_eq_true in Hv. congruence.
Qed.

Lemma agrees_pinned_configuration {E} (store store' : Store E) `{!StoreLaws store} request c p c' :
  agrees store store' request.(Request_ProductID) → compile_product_context store request = Ok c → NewContextPin c = Ok p →
  configured store' (pinned_request request (configuration_revision_of c.(Compiled_Configuration))) c' → c' = c.(Compiled_Configuration).
Proof.
  intros Hg Hc Hp Hc'. pose proof (pinned_configuration_positive _ _ Hp) as Hpos.
  apply (compile_product_context_ok store) in Hc as (_ & _ & _ & current & cfg & owned & widely & unit & feature & _ & Hcfg & _ & _ & _ & _ & ->).
  simpl in *. unfold configured in *. simpl in Hc'. destruct cfg as [k|]; simpl in Hc'; [|done].
  specialize (Hpos k eq_refl). rewrite (proj2 (Z.eqb_neq _ 0)) in Hc' by lia. destruct Hc' as (k' & -> & Hk').
  assert (store'.(store_ConfigurationRevision) request.(Request_ProductID) k.(Configuration_Revision) = Ok (Some k)) as Hk; [|congruence].
  destruct (Request_ConfigurationRevision request) as [n|]; [|by apply (agrees_current _ _ _ Hg)].
  destruct (n =? 0)%Z; [done|]. destruct Hcfg as (k2 & [= <-] & Hk). rewrite (configuration_law _ _ _ Hk). by apply (agrees_configuration _ _ _ Hg).
Qed.

(** A pin resolves to the context it was made of or not at all, unless a pin of
    fewer entries has its identity. *)
Lemma resolve_pin_exact {E} (store store' : Store E) `{!StoreLaws store, !StoreLaws store'} request c p r :
  agrees store store' request.(Request_ProductID) → compile_product_context store request = Ok c → NewContextPin c = Ok p →
  resolve_pin p store' request = Ok r →
  r = MkProductContext c.(Compiled_ProductID) c.(Compiled_Scope) (sortedCopy c.(Compiled_Repositories)) c.(Compiled_Configuration) (sort_by Entry_ID c.(Compiled_Knowledge))
  ∨ pin_collision p.
Proof.
  intros Hg Hc Hp Hr. pose proof (proj1 (NewContextPin_ok _ _) Hp) as (d & Hd & Hdig & Hpid & Hprep & Hpkn & Hv).
  assert (p.(Pin_ConfigurationRevision) = configuration_revision_of c.(Compiled_Configuration)) as Hrev.
  { unfold pinned_configuration in Hd. destruct (Compiled_Configuration c) as [k|]; [|by injection Hd as <- _]. by apply rbind_ok in Hd as (? & _ & [= Hn _]). }
  unfold resolve_pin in Hr. rewrite !check_then in Hr. destruct Hr as (_ & _ & Hr). apply rbind_ok in Hr as (c' & Hc'%wrap_ok & Hr).
  rewrite Hrev in Hc'. apply check_then in Hr as [_ Hr]. apply rbind_ok in Hr as (q & Hq%wrap_ok & Hr). apply refuse_if_then in Hr as [Hqd%negb_false_iff%bool_decide_eq_true [= <-]].
  assert (c'.(Compiled_Configuration) = c.(Compiled_Configuration)) as Hcfg.
  { pose proof (compile_product_context_visible store' _ _ Hc') as (_ & _ & _ & _ & Hconf). by eapply (agrees_pinned_configuration store store'). }
  assert (c'.(Compiled_ProductID) = c.(Compiled_ProductID) ∧ c'.(Compiled_Scope) = c.(Compiled_Scope)) as [Hid Hscope].
  { apply (compile_product_context_ok store) in Hc as (_ & _ & _ & ? & ? & ? & ? & ? & ? & _ & _ & _ & _ & _ & _ & ->).
    by apply (compile_product_context_ok store') in Hc' as (_ & _ & _ & ? & ? & ? & ? & ? & ? & _ & _ & _ & _ & _ & _ & ->). }
  apply NewContextPin_ok in Hq as (d' & Hd' & Hdig' & Hqid & Hqrep & Hqkn & Hqv). simpl in *. rewrite Hcfg, Hd in Hd'. injection Hd' as Hqrev <-.
  set (kept := filter _ c'.(Compiled_Knowledge)) in *.
  destruct (decide (q.(Pin_KnowledgeIDs) = p.(Pin_KnowledgeIDs))) as [Heq|Hne].
  - left. rewrite Hid, Hscope, Hcfg, Hprep. f_equal. unfold kept. rewrite Hpkn.
    apply kept_knowledge; [by eapply (compiled_NoDup store)|by eapply (compiled_NoDup store')| |intros e1 e2 H1 H2; by eapply (compiled_identity store')].
    intros e He. assert (e.(Entry_ID) ∈ q.(Pin_KnowledgeIDs)) as Hin by (rewrite Heq, Hpkn, elem_of_sorted_unique, list_elem_of_fmap; by exists e).
    rewrite Hqkn, elem_of_sorted_unique, list_elem_of_fmap in Hin. destruct Hin as (e' & Hee & He'%elem_of_sort_by). apply list_elem_of_filter in He' as [_ He'].
    destruct (compiled_knowledge store _ _ _ Hc He) as (_ & _ & l & Hl & Hel). destruct (compiled_knowledge store' _ _ _ Hc' He') as (_ & _ & l' & Hl' & Hel').
    by rewrite (agrees_entries _ _ _ Hg _ _ _ _ Hl Hl' Hel Hel' Hee).
  - right. exists q.(Pin_KnowledgeIDs). split_and!; [|done|].
    + intros id. rewrite Hqkn, elem_of_sorted_unique, list_elem_of_fmap. intros (e & -> & He%elem_of_sort_by). by apply list_elem_of_filter in He as [? _].
    + rewrite (valid_identity _ Hv), <- Hqd, <- (valid_identity _ Hqv). unfold with_knowledge, pin_identity. simpl.
      rewrite Hqid, Hqrep, Hqrev, Hdig', Hpid, Hid, Hdig. do 6 f_equal. unfold sortedCopy. rewrite Hprep. unfold sortedCopy. by rewrite sort_strings_idemp.
Qed.
End resolution.
