(* ===== verification/Batch.v ===== *)
(** Batches: [orchestration/batch.go].  The product pin a batch carries is
    [product/pin.go]'s, in [ProductContext]. *)

From S2P Require Import Prelude GoStrings Sha256 Canonical Item WorkGraph Projection Handoff ProductContext.
From stdpp Require Import options.

Definition BatchSchemaVersion : string := "0.1".

(* ------------------------------------------------------------------ *)
(** * Batches *)

Record BatchOrigin := MkBatchOrigin {
  Origin_GraphID : string;
  Origin_UnitID : string;
  Origin_Inputs : list WorkUnitInput;
  Origin_ExecutionKind : string;
  Origin_Epoch : Z;
  Origin_AcceptanceFeature : string
}.

Record BatchItem := MkBatchItem {
  BatchItem_Issue : Z;
  BatchItem_RunID : string
}.

Record Batch := MkBatch {
  Batch_SchemaVersion : string;
  Batch_ID : string;
  Batch_Repository : string;
  Batch_AgentID : string;
  Batch_RequestedBy : string;
  Batch_CreatedAt : Z;
  Batch_Items : list BatchItem;
  Batch_Origin : option BatchOrigin;
  Batch_Product : option ContextPin
}.

Inductive BatchError :=
  | UnsupportedBatchVersion (version : string)
  | OriginIncomplete
  | OriginInputsRefused (e : InputsError)
  | NoIssues
  | TooManyIssues (n : nat)
  | IssueNotPositive (issue : Z)
  | RepeatedIssue (issue : Z)
  | BatchNamesRequired
  | BatchDigestRefused (e : CanonicalError)
  | ItemRun (issue : Z)
  | OriginIssueCount (n : nat)
  | PinWithoutOrigin
  | PinRefused (e : PinError)
  | BatchIdentity (id canonical : string)
  | BatchTimeRequired.

Definition add_issue (state : gset Z * list Z) (issue : Z) : result BatchError (gset Z * list Z) :=
  let '(seen, out) := state in
  refuse_if (issue <=? 0)%Z (IssueNotPositive issue) ;?
  refuse_if (bool_decide (issue ∈ seen)) (RepeatedIssue issue) ;?
  Ok ({[issue]} ∪ seen, out ++ [issue]).

(** [sort.Ints]. *)
Definition sort_ints (l : list Z) : list Z := merge_sort Z.le l.

Definition NormalizeIssues (issues : list Z) : result BatchError (list Z) :=
  refuse_if (length issues =? 0) NoIssues ;?
  refuse_if (MaxBatchItems <? length issues) (TooManyIssues (length issues)) ;?
  let? state := for_each add_issue issues (∅, []) in
  Ok (sort_ints state.2).

(** [BatchOrigin.canonical]. *)
Definition canonical_origin (o : BatchOrigin) : BatchOrigin :=
  MkBatchOrigin o.(Origin_GraphID) o.(Origin_UnitID) (canonical_inputs o.(Origin_Inputs)) o.(Origin_ExecutionKind)
    o.(Origin_Epoch) o.(Origin_AcceptanceFeature).

Definition origin_value (o : BatchOrigin) : GoValue :=
  GStruct ([("graph_id", GString o.(Origin_GraphID)); ("unit_id", GString o.(Origin_UnitID))]
    ++ omit_if (length o.(Origin_Inputs) =? 0) "inputs" (GList (input_value <$> o.(Origin_Inputs)))
    ++ omit_if (o.(Origin_ExecutionKind) ≟ "") "execution_kind" (GString o.(Origin_ExecutionKind))
    ++ omit_if (o.(Origin_Epoch) =? 0)%Z "epoch" (GInt o.(Origin_Epoch))
    ++ omit_if (o.(Origin_AcceptanceFeature) ≟ "") "acceptance_feature" (GString o.(Origin_AcceptanceFeature))).

Section Batches.
Context `{!GoUnicode, !Canonicalizer}.

Definition batchIdentity (repository agentID : string) (issues : list Z) (origin : option BatchOrigin)
  : result BatchError string :=
  let? normalized := NormalizeIssues issues in
  refuse_if (blank repository || blank agentID) BatchNamesRequired ;?
  let? digest := wrap BatchDigestRefused (Digest (GStruct
    ([("repository", GString (ToLower repository)); ("agent", GString agentID);
      ("issues", GList (GInt <$> normalized))]
     ++ match origin with Some o => [("origin", origin_value (canonical_origin o))] | None => [] end))) in
  Ok ("batch-" +:+ take_bytes 32 digest).

Definition BatchID (repository agentID : string) (issues : list Z) : result BatchError string :=
  batchIdentity repository agentID issues None.

Context `{!MapRange}.

(** [BatchOrigin.Validate]. *)
Definition validate_origin (o : BatchOrigin) : result BatchError () :=
  refuse_if (blank o.(Origin_GraphID) || blank o.(Origin_UnitID)) OriginIncomplete ;?
  wrap OriginInputsRefused (validate_inputs o.(Origin_Inputs)).

Definition WorkUnitBatchID (repository agentID : string) (issue : Z) (origin : BatchOrigin) : result BatchError string :=
  validate_origin origin ;? batchIdentity repository agentID [issue] (Some origin).

Definition add_item (state : gset string * list Z) (item : BatchItem) : result BatchError (gset string * list Z) :=
  let '(runs, issues) := state in
  refuse_if (blank item.(BatchItem_RunID) || bool_decide (item.(BatchItem_RunID) ∈ runs)) (ItemRun item.(BatchItem_Issue)) ;?
  Ok ({[item.(BatchItem_RunID)]} ∪ runs, issues ++ [item.(BatchItem_Issue)]).

(** [Batch.Validate]. *)
Definition validate_batch (b : Batch) : result BatchError () :=
  refuse_if (b.(Batch_SchemaVersion) ≠? BatchSchemaVersion) (UnsupportedBatchVersion b.(Batch_SchemaVersion)) ;?
  let? state := for_each add_item b.(Batch_Items) (∅, []) in
  match b.(Batch_Origin) with
  | Some origin =>
      validate_origin origin ;?
      refuse_if (negb (length b.(Batch_Items) =? 1)) (OriginIssueCount (length b.(Batch_Items)))
  | None => Ok tt
  end ;?
  match b.(Batch_Product) with
  | Some pin =>
      refuse_if (bool_decide (b.(Batch_Origin) = None)) PinWithoutOrigin ;?
      wrap PinRefused (validate_pin pin)
  | None => Ok tt
  end ;?
  let? id := batchIdentity b.(Batch_Repository) b.(Batch_AgentID) state.2 b.(Batch_Origin) in
  refuse_if (id ≠? b.(Batch_ID)) (BatchIdentity b.(Batch_ID) id) ;?
  refuse_if (b.(Batch_CreatedAt) =? 0)%Z BatchTimeRequired.
End Batches.

(* ------------------------------------------------------------------ *)
(** * Identity *)

Lemma add_issues_ok issues seen out state :
  for_each add_issue issues (seen, out) = Ok state ↔
    (∀ i, i ∈ issues → (0 < i)%Z ∧ i ∉ seen) ∧ NoDup issues ∧ state = (list_to_set issues ∪ seen, out ++ issues).
Proof.
  revert seen out. induction issues as [|i issues IH]; intros seen out; simpl.
  - rewrite app_nil_r, union_empty_l_L. split; [intros [= <-]|by intros (_ & _ & ->)].
    split_and!; [by intros ? ?%not_elem_of_nil|constructor|done].
  - rewrite rbind_ok, NoDup_cons. unfold add_issue at 1. setoid_rewrite check_then. setoid_rewrite check_then.
    setoid_rewrite refuse_if_ok. setoid_rewrite bool_decide_eq_false. setoid_rewrite Z.leb_gt. setoid_rewrite elem_of_cons. split.
    + intros (s & (Hp & Hs & [= <-]) & (Hall & Hnd & ->)%IH). rewrite <- (assoc_L (++)). simpl.
      split_and!; [|set_solver|done|f_equal; set_solver].
      intros j [->|Hj]; [done|]. destruct (Hall j Hj). set_solver.
    + intros (Hall & (Hi & Hnd) & ->). destruct (Hall i) as [Hp Hs]; [by left|].
      eexists. split; [split_and!; done|]. apply IH. rewrite <- (assoc_L (++)). simpl.
      split_and!; [|done|f_equal; set_solver]. intros j Hj. destruct (Hall j); [by right|]. set_solver.
Qed.

Lemma NormalizeIssues_ok issues out :
  NormalizeIssues issues = Ok out ↔
    issues ≠ [] ∧ (length issues <= MaxBatchItems)%nat ∧ (∀ i, i ∈ issues → (0 < i)%Z) ∧ NoDup issues
    ∧ out = sort_ints issues.
Proof.
  unfold NormalizeIssues. rewrite !check_then, !refuse_if_ok, Nat.eqb_neq, Nat.ltb_ge, rbind_ok.
  setoid_rewrite add_issues_ok. rewrite length_zero_iff_nil. split.
  - intros (? & ? & state & (Hall & ? & ->) & [= <-]). simpl. split_and!; try done. intros i Hi. by apply Hall.
  - intros (? & ? & Hall & ? & ->). split_and!; try done. eexists. split; [split_and!; [|done|done]|done].
    intros i Hi. split; [by apply Hall|]. apply not_elem_of_empty.
Qed.

#[global] Instance sort_ints_proper : Proper ((≡ₚ) ==> (=)) sort_ints.
Proof.
  intros l1 l2 Hl. apply (StronglySorted_unique Z.le); try apply (StronglySorted_merge_sort Z.le).
  unfold sort_ints. by rewrite !merge_sort_Permutation.
Qed.

(** The same unit execution with its inputs listed in another order. *)
Definition same_origin (o1 o2 : BatchOrigin) : Prop :=
  o2 = MkBatchOrigin o1.(Origin_GraphID) o1.(Origin_UnitID) o2.(Origin_Inputs) o1.(Origin_ExecutionKind)
    o1.(Origin_Epoch) o1.(Origin_AcceptanceFeature)
  ∧ o1.(Origin_Inputs) ≡ₚ o2.(Origin_Inputs).

Lemma validate_inputs_NoDup `{!MapRange} inputs :
  validate_inputs inputs = Ok tt → NoDup (Input_UnitID <$> inputs).
Proof.
  unfold validate_inputs. rewrite check_then. intros [_ (seen & Hs & _)%rbind_ok].
  enough (NoDup (Input_UnitID <$> inputs) ∧ ∀ id, id ∈ Input_UnitID <$> inputs → id ∈ seen) by tauto.
  revert Hs. apply (for_each_ind check_input (λ done seen,
    NoDup (Input_UnitID <$> done) ∧ ∀ id, id ∈ Input_UnitID <$> done → id ∈ seen)).
  { split; [constructor|by intros ? ?%not_elem_of_nil]. }
  intros done input rest s1 s2 _ [Hnd Hin] Hk. unfold check_input in Hk. rewrite !check_then in Hk.
  destruct Hk as (_ & Hf%refuse_if_ok & [= <-]). apply bool_decide_eq_false in Hf. rewrite fmap_app. simpl. split.
  - apply NoDup_app. split_and!; [done| |apply NoDup_singleton].
    intros id Hid. rewrite list_elem_of_singleton. intros ->. auto.
  - intros id. rewrite elem_of_app, list_elem_of_singleton. set_solver.
Qed.

(** One set of work is one batch: an admitted batch of a work unit keeps
    its identity when its inputs, and a batch of issues when its issues, are
    listed in any other order, so a replayed request finds the batch it
    already created. *)
Theorem batchIdentity_set `{!GoUnicode, !Canonicalizer, !MapRange} repository agent issues issues' origin origin' id :
  batchIdentity repository agent issues origin = Ok id → issues ≡ₚ issues' →
  match origin, origin' with
  | Some o, Some o' => validate_inputs o.(Origin_Inputs) = Ok tt ∧ same_origin o o'
  | None, None => True
  | _, _ => False
  end →
  batchIdentity repository agent issues' origin' = Ok id.
Proof.
  unfold batchIdentity. intros (normalized & Hn & Hk)%rbind_ok Hp Ho.
  apply NormalizeIssues_ok in Hn as (Hne & Hl & Hpos & Hnd & ->). rewrite rbind_ok. exists (sort_ints issues). split.
  { apply NormalizeIssues_ok. split_and!.
    - intros ->. by apply Permutation_nil_r in Hp.
    - by rewrite <- Hp.
    - intros i. rewrite <- Hp. apply Hpos.
    - by rewrite <- Hp.
    - by rewrite Hp. }
  rewrite <- Hk. clear Hk. destruct origin as [o|], origin' as [o'|]; try done. destruct Ho as [Hv [He Hi]].
  apply validate_inputs_NoDup in Hv.
  assert (canonical_origin o' = canonical_origin o) as ->; [|done].
  rewrite He. unfold canonical_origin. simpl. f_equal. symmetry. apply sort_by_unique; [|done].
  intros x y Hx Hy. by apply (NoDup_fmap_inj Input_UnitID o.(Origin_Inputs)).
Qed.

Lemma add_items_ok items runs issues state :
  for_each add_item items (runs, issues) = Ok state ↔
    (∀ item, item ∈ items → blank item.(BatchItem_RunID) = false ∧ item.(BatchItem_RunID) ∉ runs)
    ∧ NoDup (BatchItem_RunID <$> items)
    ∧ state = (list_to_set (BatchItem_RunID <$> items) ∪ runs, issues ++ (BatchItem_Issue <$> items)).
Proof.
  revert runs issues. induction items as [|item items IH]; intros runs issues; simpl.
  - rewrite app_nil_r, union_empty_l_L. split; [intros [= <-]|by intros (_ & _ & ->)].
    split_and!; [by intros ? ?%not_elem_of_nil|constructor|done].
  - rewrite rbind_ok, NoDup_cons. unfold add_item at 1. setoid_rewrite refuse_if_then. setoid_rewrite orb_false_iff.
    setoid_rewrite elem_of_cons. split.
    + intros (s & ([Hb Hr%bool_decide_eq_false] & [= <-]) & (Hall & Hnd & ->)%IH). rewrite <- (assoc_L (++)). simpl.
      split_and!; [| |exact Hnd|f_equal; apply set_eq; intros z; rewrite !elem_of_union; tauto].
      * intros x [->|Hx]; [done|]. destruct (Hall x Hx) as [? Hn]. split; [done|]. intros Hin. by apply Hn, elem_of_union_r.
      * intros (x & Hx & Hin)%list_elem_of_fmap. destruct (Hall x Hin) as [_ Hn]. apply Hn, elem_of_union_l.
        by apply elem_of_singleton.
    + intros (Hall & (Hi & Hnd) & ->). destruct (Hall item) as [Hb Hr]; [by left|].
      apply (bool_decide_eq_false_2 (_ ∈ runs)) in Hr. eexists. split; [split; [by split|reflexivity]|]. apply IH. rewrite <- (assoc_L (++)). simpl.
      split_and!; [|done|f_equal; apply set_eq; intros z; rewrite !elem_of_union; tauto].
      intros x Hx. destruct (Hall x) as [? ?]; [by right|]. split; [done|].
      intros [He%elem_of_singleton|?]%elem_of_union; [|done]. apply Hi. rewrite <- He. by apply list_elem_of_fmap_2.
Qed.

(** A stored batch is exactly what its identity says: a bounded set of
    distinct issues with a child run of its own each, one of them if it
    performs a work unit. *)
Lemma validate_batch_admits `{!GoUnicode, !Canonicalizer, !MapRange} b :
  validate_batch b = Ok tt →
  batchIdentity b.(Batch_Repository) b.(Batch_AgentID) (BatchItem_Issue <$> b.(Batch_Items)) b.(Batch_Origin)
    = Ok b.(Batch_ID)
  ∧ (1 <= length b.(Batch_Items) <= 32)%nat ∧ NoDup (BatchItem_Issue <$> b.(Batch_Items))
  ∧ NoDup (BatchItem_RunID <$> b.(Batch_Items))
  ∧ (∀ origin, b.(Batch_Origin) = Some origin → validate_origin origin = Ok tt ∧ length b.(Batch_Items) = 1%nat)
  ∧ (b.(Batch_Product) ≠ None → b.(Batch_Origin) ≠ None) ∧ b.(Batch_CreatedAt) ≠ 0%Z.
Proof.
  unfold validate_batch. intros (_ & (state & (_ & Hruns & ->)%add_items_ok & Hk)%rbind_ok)%check_then.
  rewrite !check_then, rbind_ok in Hk. destruct Hk as (Ho & Hp & id & Hid & Hk).
  rewrite check_then, !refuse_if_ok, Z.eqb_neq in Hk. autorewrite with go in Hk. destruct Hk as [-> Ht].
  simpl in Hid. split; [done|]. unfold batchIdentity in Hid.
  apply rbind_ok in Hid as (n & (Hne & Hl & _ & Hnd & _)%NormalizeIssues_ok & _).
  rewrite length_fmap in Hl. split_and!; try done.
  - destruct (Batch_Items b); simpl; [done|lia].
  - intros origin He. rewrite He in Ho. rewrite check_then, refuse_if_ok, negb_false_iff, Nat.eqb_eq in Ho. done.
  - destruct (Batch_Product b); [|done]. apply check_then in Hp as [Hp _]. by autorewrite with go in Hp.
Qed.

Definition example_origin (inputs : list string) : BatchOrigin :=
  MkBatchOrigin "graph" "deploy" ((λ id, MkWorkUnitInput id (output_of id)) <$> inputs) "" 0 "".

Lemma batchIdentity_set_witness :
  @WorkUnitBatchID ascii_unicode plain_canonicalizer range_forward "Owner/Repo" "agent" 3 (example_origin ["build"; "test"])
  = @WorkUnitBatchID ascii_unicode plain_canonicalizer range_backward "Owner/Repo" "agent" 3 (example_origin ["test"; "build"]).
Proof.
  set (id := ok_or "" (@batchIdentity ascii_unicode plain_canonicalizer "Owner/Repo" "agent" [3%Z]
    (Some (example_origin ["build"; "test"])))).
  assert (@batchIdentity ascii_unicode plain_canonicalizer "Owner/Repo" "agent" [3%Z]
    (Some (example_origin ["build"; "test"])) = Ok id) as Hid by (apply ok_or_eq; vm_compute; reflexivity).
  pose proof (@batchIdentity_set ascii_unicode plain_canonicalizer range_forward "Owner/Repo" "agent" [3%Z] [3%Z]
    (Some (example_origin ["build"; "test"])) (Some (example_origin ["test"; "build"])) id Hid (Permutation_refl _)) as Hs.
  assert (@validate_origin range_forward (example_origin ["build"; "test"]) = Ok tt) as H1 by (vm_compute; reflexivity).
  assert (@validate_origin range_backward (example_origin ["test"; "build"]) = Ok tt) as H2 by (vm_compute; reflexivity).
  unfold WorkUnitBatchID. rewrite H1, H2, Hid. cbn [rbind]. symmetry. apply Hs.
  split; [vm_compute; reflexivity|]. split; [reflexivity|]. apply perm_swap.
Defined.
