(* ===== verification/Database.v ===== *)
(** The runtime's SQLite database as far as products, work graphs and batches
    use it: tables by primary key, the queries the stores run over them, the
    JSON documents they keep.

    A row is kept as the document it was encoded from: a document is canonical
    JSON of text and numbers that survive it, which [encoding/json] reads back
    as it was, and a stored document that would not validate is refused on
    every read.  A transaction that is refused is rolled back, so an operation
    gives the next database or an error.  Transactions are serialized by
    SQLite ([_txlock=immediate]). *)

From S2P Require Import Prelude GoStrings Sha256 Domain Canonical Item WorkGraph Projection Handoff GoTime Product Knowledge ProductContext Batch.
From stdpp Require Import options.

Record WorkUnitActivation := MkActivation {
  Activation_GraphID : string;
  Activation_UnitID : string;
  Activation_BatchID : string;
  Activation_RunID : string;
  Activation_InputsDigest : string;
  Activation_ActivatedAt : Z
}.

Record Database := MkDatabase {
  product_revisions : gmap (string * Z) Product;
  product_configuration_revisions : gmap (string * Z) ProductConfiguration;
  product_knowledge_entries : gmap string KnowledgeEntry;
  product_knowledge_promotions : gmap string KnowledgePromotion;
  product_graph_associations : gmap string (string * Z);
  work_graph_revisions : gmap (string * Z) WorkGraph;
  work_graph_activations : gmap (string * string) WorkUnitActivation;
  orchestration_batches : gmap string Batch
}.

Definition empty_database : Database := MkDatabase ∅ ∅ ∅ ∅ ∅ ∅ ∅ ∅.

Definition set_products m db := MkDatabase m db.(product_configuration_revisions) db.(product_knowledge_entries)
  db.(product_knowledge_promotions) db.(product_graph_associations) db.(work_graph_revisions) db.(work_graph_activations) db.(orchestration_batches).
Definition set_configurations m db := MkDatabase db.(product_revisions) m db.(product_knowledge_entries)
  db.(product_knowledge_promotions) db.(product_graph_associations) db.(work_graph_revisions) db.(work_graph_activations) db.(orchestration_batches).
Definition set_entries m db := MkDatabase db.(product_revisions) db.(product_configuration_revisions) m
  db.(product_knowledge_promotions) db.(product_graph_associations) db.(work_graph_revisions) db.(work_graph_activations) db.(orchestration_batches).
Definition set_promotions m db := MkDatabase db.(product_revisions) db.(product_configuration_revisions) db.(product_knowledge_entries)
  m db.(product_graph_associations) db.(work_graph_revisions) db.(work_graph_activations) db.(orchestration_batches).
Definition set_associations m db := MkDatabase db.(product_revisions) db.(product_configuration_revisions) db.(product_knowledge_entries)
  db.(product_knowledge_promotions) m db.(work_graph_revisions) db.(work_graph_activations) db.(orchestration_batches).
Definition set_graphs m db := MkDatabase db.(product_revisions) db.(product_configuration_revisions) db.(product_knowledge_entries)
  db.(product_knowledge_promotions) db.(product_graph_associations) m db.(work_graph_activations) db.(orchestration_batches).
Definition set_activations m db := MkDatabase db.(product_revisions) db.(product_configuration_revisions) db.(product_knowledge_entries)
  db.(product_knowledge_promotions) db.(product_graph_associations) db.(work_graph_revisions) m db.(orchestration_batches).
Definition set_batches m db := MkDatabase db.(product_revisions) db.(product_configuration_revisions) db.(product_knowledge_entries)
  db.(product_knowledge_promotions) db.(product_graph_associations) db.(work_graph_revisions) db.(work_graph_activations) m.

(* ------------------------------------------------------------------ *)
(** * Queries *)

Definition rows `{Countable K} {A} (table : gmap K A) : list A := (map_to_list table).*2.

Lemma elem_of_rows `{Countable K} {A} (table : gmap K A) x : x ∈ rows table ↔ ∃ k, table !! k = Some x.
Proof.
  unfold rows. rewrite list_elem_of_fmap. split.
  - intros ([k y] & -> & ?%elem_of_map_to_list). by exists k.
  - intros [k Hk]. exists (k, x). split; [done|by apply elem_of_map_to_list].
Qed.

(** [ORDER BY revision DESC LIMIT 1]. *)
Definition latest {A} (revision : A → Z) (l : list A) : option A :=
  fold_left (λ best x, match best with
                       | Some b => if (revision b <? revision x)%Z then Some x else best
                       | None => Some x end) l None.

Lemma latest_row_spec {A} (revision : A → Z) l :
  match latest revision l with
  | Some x => x ∈ l ∧ ∀ y, y ∈ l → (revision y <= revision x)%Z
  | None => l = []
  end.
Proof.
  unfold latest. induction l as [|x l IH] using rev_ind; [done|]. rewrite fold_left_app. simpl.
  destruct (fold_left _ l None) as [b|].
  - destruct IH as [Hb Hmax]. destruct (Z.ltb_spec (revision b) (revision x)).
    + split; [by apply elem_of_app; right; left|]. intros y [Hy|Hy%list_elem_of_singleton]%elem_of_app; [|subst; lia]. specialize (Hmax y Hy). lia.
    + split; [by apply elem_of_app; left|]. intros y [Hy|Hy%list_elem_of_singleton]%elem_of_app; [auto|subst; lia].
  - subst l. split; [by left|]. intros y Hy%list_elem_of_singleton. subst. lia.
Qed.

(** [ORDER BY created_unix_nano ASC, id ASC]. *)
Definition created_le {A} (time : A → Z) (id : A → string) : relation A := λ x y,
  (UnixNano (time x) < UnixNano (time y))%Z ∨ UnixNano (time x) = UnixNano (time y) ∧ String.le (id x) (id y).

#[export] Instance created_le_dec {A} (time : A → Z) id : RelDecision (created_le time id).
Proof. intros x y. unfold created_le. apply _. Defined.
#[export] Instance created_le_trans {A} (time : A → Z) id : Transitive (created_le time id).
Proof. unfold created_le. intros x y z [?|[? ?]] [?|[? ?]]; [left; lia..|]. right. split; [lia|by trans (id y)]. Qed.
#[export] Instance created_le_total {A} (time : A → Z) id : base.Total (created_le time id).
Proof.
  intros x y. unfold created_le. destruct (Z.lt_trichotomy (UnixNano (time x)) (UnixNano (time y))) as [?|[?|?]]; [auto| |auto].
  destruct (base.total String.le (id x) (id y)); auto.
Qed.

Definition by_creation {A} (time : A → Z) (id : A → string) (l : list A) : list A := merge_sort (created_le time id) l.

(* ------------------------------------------------------------------ *)
(** * Documents *)

Inductive StoreError :=
  | DocumentRefused (e : CanonicalError)
  | TimeUnencodable
  | StoredProductCorrupt (e : ProductError)
  | StoredConfigurationCorrupt (e : ConfigurationError)
  | StoredEntryCorrupt (e : KnowledgeError)
  | StoredGraphCorrupt (e : WorkGraphError)
  | StoredBatchCorrupt (e : BatchError)
  | StoreScopeUnknown (scope : string)
  | ProductRefused (e : ProductError)
  | ConfigurationRefused (e : ConfigurationError)
  | KnowledgeRefused (e : KnowledgeError)
  | GraphRefused (e : WorkGraphError)
  | BatchRefused (e : BatchError)
  | RevisionDiffers (id : string) (revision : Z)
  | FirstRevision (id : string) (revision : Z)
  | RevisionSkipped (id : string) (current expected next : Z)
  | ProductUnknown (id : string)
  | WrittenByPromotion
  | SourceMissing (id : string)
  | SourceOfAnother (source product : string)
  | SourceScopeDiffers (source record : string)
  | SourceProvenanceDiffers
  | StatementDiffers
  | PromotionTaken (entry : string)
  | PromotionDiffers (id : string)
  | GraphUnknown (id : string)
  | RepositoryNotMember (graph repository product : string)
  | UnitsAdmitted (graph : string) (n : nat)
  | AssociatedElsewhere (graph existing product : string)
  | PinBinding (batch pinned graph associated : string)
  | ActivationIncomplete (field : string)
  | ActivationTimeRequired
  | ActivationBatchMissing (batch : string).

Definition time_value (t : Z) : GoValue := GString (RFC3339Nano t).

Definition product_document (p : Product) : GoValue :=
  GStruct ([("schema_version", GString p.(Product_SchemaVersion)); ("id", GString p.(Product_ID)); ("name", GString p.(Product_Name));
    ("revision", GInt p.(Product_Revision)); ("repositories", GList (GString <$> p.(Product_Repositories)))]
    ++ omit_if (p.(Product_RequestedBy) ≟ "") "requested_by" (GString p.(Product_RequestedBy))
    ++ [("created_at", time_value p.(Product_CreatedAt))]).

Definition configuration_document `{!MapRange} (c : ProductConfiguration) : GoValue :=
  GStruct ([("schema_version", GString c.(Configuration_SchemaVersion)); ("product_id", GString c.(Configuration_ProductID));
    ("revision", GInt c.(Configuration_Revision))]
    ++ match c.(Configuration_Policy) with
       | Some r => [("policy", GStruct [("id", GString r.(ObjectRevision_ID)); ("revision", GString r.(ObjectRevision_Revision))])]
       | None => [] end
    ++ omit_if (c.(Configuration_ContextPolicy) ≟ "") "context_policy" (GString c.(Configuration_ContextPolicy))
    ++ omit_if (bool_decide (c.(Configuration_Settings) = ∅)) "settings" (settings_value c.(Configuration_Settings))
    ++ omit_if (c.(Configuration_RequestedBy) ≟ "") "requested_by" (GString c.(Configuration_RequestedBy))
    ++ [("created_at", time_value c.(Configuration_CreatedAt))]).

Definition entry_document (e : KnowledgeEntry) : GoValue :=
  GStruct ([("schema_version", GString e.(Entry_SchemaVersion)); ("id", GString e.(Entry_ID));
    ("product_id", GString e.(Entry_ProductID)); ("scope", GString e.(Entry_Scope))]
    ++ omit_if (e.(Entry_OwnerRef) ≟ "") "owner_ref" (GString e.(Entry_OwnerRef))
    ++ omit_if (e.(Entry_AudienceRef) ≟ "") "audience_ref" (GString e.(Entry_AudienceRef))
    ++ [("statement", GString e.(Entry_Statement)); ("provenance", provenance_value e.(Entry_Provenance))]
    ++ match e.(Entry_PromotedFrom) with Some id => [("promoted_from", GString id)] | None => [] end
    ++ [("created_at", time_value e.(Entry_CreatedAt))]).

Definition promotion_document (r : KnowledgePromotion) : GoValue :=
  GStruct ([("schema_version", GString r.(Promotion_SchemaVersion)); ("id", GString r.(Promotion_ID));
    ("source_entry_id", GString r.(Promotion_SourceEntryID)); ("source_scope", GString r.(Promotion_SourceScope));
    ("source_provenance", provenance_value r.(Promotion_SourceProvenance)); ("target_scope", GString r.(Promotion_TargetScope))]
    ++ omit_if (r.(Promotion_AudienceRef) ≟ "") "audience_ref" (GString r.(Promotion_AudienceRef))
    ++ [("authorized_by", GString r.(Promotion_AuthorizedBy)); ("promoted_entry_id", GString r.(Promotion_PromotedEntryID));
        ("promoted_at", time_value r.(Promotion_PromotedAt))]).

Definition graph_document (g : WorkGraph) : GoValue :=
  GStruct ([("schema_version", GString g.(Graph_SchemaVersion)); ("id", GString g.(Graph_ID));
    ("repository", GString g.(Graph_Repository)); ("agent_id", GString g.(Graph_AgentID)); ("name", GString g.(Graph_Name));
    ("revision", GInt g.(Graph_Revision))]
    ++ omit_if (g.(Graph_RequestedBy) ≟ "") "requested_by" (GString g.(Graph_RequestedBy))
    ++ [("created_at", time_value g.(Graph_CreatedAt)); ("units", GList (unit_value <$> g.(Graph_Units)))]
    ++ match g.(Graph_ObjectivePlan) with
       | Some p => [("objective_plan", GStruct [("id", GString p.(PlanRef_ID)); ("revision", GInt p.(PlanRef_Revision));
                     ("digest", GString p.(PlanRef_Digest))])]
       | None => [] end).

Definition pin_document (p : ContextPin) : GoValue :=
  GStruct ([("product_id", GString p.(Pin_ProductID)); ("repositories", GList (GString <$> p.(Pin_Repositories)));
    ("configuration_revision", GInt p.(Pin_ConfigurationRevision))]
    ++ omit_if (p.(Pin_ConfigurationDigest) ≟ "") "configuration_digest" (GString p.(Pin_ConfigurationDigest))
    ++ omit_if (length p.(Pin_KnowledgeIDs) =? 0) "knowledge_ids" (GList (GString <$> p.(Pin_KnowledgeIDs)))
    ++ [("context_digest", GString p.(Pin_ContextDigest))]).

Definition batch_document (b : Batch) : GoValue :=
  GStruct ([("schema_version", GString b.(Batch_SchemaVersion)); ("id", GString b.(Batch_ID));
    ("repository", GString b.(Batch_Repository)); ("agent_id", GString b.(Batch_AgentID))]
    ++ omit_if (b.(Batch_RequestedBy) ≟ "") "requested_by" (GString b.(Batch_RequestedBy))
    ++ [("created_at", time_value b.(Batch_CreatedAt));
        ("items", GList ((λ item, GStruct [("issue", GInt item.(BatchItem_Issue)); ("run_id", GString item.(BatchItem_RunID))]) <$> b.(Batch_Items)))]
    ++ match b.(Batch_Origin) with Some o => [("origin", origin_value o)] | None => [] end
    ++ match b.(Batch_Product) with Some p => [("product", pin_document p)] | None => [] end).

Section documents.
Context `{!Canonicalizer}.

(** [CanonicalJSON] of a record created at [at_]. *)
Definition document (at_ : Z) (v : GoValue) : result StoreError string :=
  let? text := wrap DocumentRefused (CanonicalJSON v) in
  refuse_if (negb (year_in_range at_)) TimeUnencodable ;? Ok text.
End documents.
