(* ===== verification/ProductStore.v ===== *)
(** The product store: [runtime/product_store.go],
    [runtime/product_knowledge_store.go] and
    [runtime/product_association_store.go], with the two writes of
    [runtime/workgraph_store.go] and [runtime/orchestration_store.go] it is
    serialized with.  It implements the interface [Store] product contexts are
    compiled through. *)

From S2P Require Import Prelude GoStrings Sha256 Domain Canonical Item WorkGraph Projection Handoff GoTime Product Knowledge ProductContext Batch Database.
From stdpp Require Import relations options.

Section store.
Context `{!MapRange, !Canonicalizer, !GoUnicode}.
Implicit Types (db : Database).

(* ------------------------------------------------------------------ *)
(** * Products and configurations *)

Definition decodeProduct (p : Product) : result StoreError Product := wrap StoredProductCorrupt (validate_product p) ;? Ok p.

Definition decode_found {A} (decode : A → result StoreError A) (row : option A) : result StoreError (option A) :=
  match row with None => Ok None | Some x => let? x := decode x in Ok (Some x) end.

Definition productRevisionTx db (productID : string) (revision : Z) : result StoreError (option Product) :=
  decode_found decodeProduct (db.(product_revisions) !! (productID, revision)).

Definition currentProductTx db (productID : string) : result StoreError (option Product) :=
  decode_found decodeProduct
    (latest Product_Revision (filter (λ p, p.(Product_ID) = productID) (rows db.(product_revisions)))).

(** [AdoptProductRevision]: the adopted revision and whether it is new. *)
Definition AdoptProductRevision (p : Product) db : result StoreError (Product * bool * Database) :=
  wrap ProductRefused (validate_product p) ;?
  let? existing := productRevisionTx db p.(Product_ID) p.(Product_Revision) in
  match existing with
  | Some existing =>
      let? stored := wrap DocumentRefused (product_RevisionDigest existing) in
      let? proposed := wrap DocumentRefused (product_RevisionDigest p) in
      refuse_if (stored ≠? proposed) (RevisionDiffers p.(Product_ID) p.(Product_Revision)) ;?
      Ok (existing, false, db)
  | None =>
      let? current := currentProductTx db p.(Product_ID) in
      match current with
      | None => refuse_if (p.(Product_Revision) ≠? 1%Z) (FirstRevision p.(Product_ID) p.(Product_Revision))
      | Some current =>
          let expected := wrap64 (current.(Product_Revision) + 1) in
          refuse_if (p.(Product_Revision) ≠? expected)
            (RevisionSkipped p.(Product_ID) current.(Product_Revision) expected p.(Product_Revision)) ;?
          wrap ProductRefused (ValidateProductMutation current p)
      end ;?
      let? _ := document p.(Product_CreatedAt) (product_document p) in
      Ok (p, true, set_products (<[(p.(Product_ID), p.(Product_Revision)) := p]> db.(product_revisions)) db)
  end.

Definition decodeProductConfiguration (c : ProductConfiguration) : result StoreError ProductConfiguration :=
  wrap StoredConfigurationCorrupt (validate_configuration c) ;? Ok c.

Definition configurationRevisionTx db (productID : string) (revision : Z) : result StoreError (option ProductConfiguration) :=
  decode_found decodeProductConfiguration (db.(product_configuration_revisions) !! (productID, revision)).

Definition currentConfigurationTx db (productID : string) : result StoreError (option ProductConfiguration) :=
  decode_found decodeProductConfiguration
    (latest Configuration_Revision (filter (λ c, c.(Configuration_ProductID) = productID) (rows db.(product_configuration_revisions)))).

(** The check both writes of a product's documents begin with. *)
Definition product_exists db (productID : string) : result StoreError () :=
  let? found := currentProductTx db productID in
  refuse_if (bool_decide (found = None)) (ProductUnknown productID).

Definition AdoptProductConfigurationRevision (c : ProductConfiguration) db : result StoreError (ProductConfiguration * bool * Database) :=
  wrap ConfigurationRefused (validate_configuration c) ;?
  product_exists db c.(Configuration_ProductID) ;?
  let? existing := configurationRevisionTx db c.(Configuration_ProductID) c.(Configuration_Revision) in
  match existing with
  | Some existing =>
      let? stored := wrap DocumentRefused (configuration_RevisionDigest existing) in
      let? proposed := wrap DocumentRefused (configuration_RevisionDigest c) in
      refuse_if (stored ≠? proposed) (RevisionDiffers c.(Configuration_ProductID) c.(Configuration_Revision)) ;?
      Ok (existing, false, db)
  | None =>
      let? current := currentConfigurationTx db c.(Configuration_ProductID) in
      match current with
      | None => refuse_if (c.(Configuration_Revision) ≠? 1%Z) (FirstRevision c.(Configuration_ProductID) c.(Configuration_Revision))
      | Some current =>
          let expected := wrap64 (current.(Configuration_Revision) + 1) in
          refuse_if (c.(Configuration_Revision) ≠? expected)
            (RevisionSkipped c.(Configuration_ProductID) current.(Configuration_Revision) expected c.(Configuration_Revision)) ;?
          wrap ConfigurationRefused (ValidateConfigurationMutation current c)
      end ;?
      let? _ := document c.(Configuration_CreatedAt) (configuration_document c) in
      Ok (c, true, set_configurations
        (<[(c.(Configuration_ProductID), c.(Configuration_Revision)) := c]> db.(product_configuration_revisions)) db)
  end.

(* ------------------------------------------------------------------ *)
(** * Knowledge *)

Definition decodeKnowledgeEntry (e : KnowledgeEntry) : result StoreError KnowledgeEntry :=
  wrap StoredEntryCorrupt (validate_entry e) ;? Ok e.

(** [INSERT ... ON CONFLICT(id) DO NOTHING]. *)
Definition insertKnowledgeEntry db (e : KnowledgeEntry) : result StoreError (bool * Database) :=
  let? _ := of_option (StoreScopeUnknown e.(Entry_Scope)) (ScopeRank e.(Entry_Scope)) in
  let? _ := document e.(Entry_CreatedAt) (entry_document e) in
  match db.(product_knowledge_entries) !! e.(Entry_ID) with
  | Some _ => Ok (false, db)
  | None => Ok (true, set_entries (<[e.(Entry_ID) := e]> db.(product_knowledge_entries)) db)
  end.

Definition knowledgeEntryByIDTx db (id : string) : result StoreError (option KnowledgeEntry) :=
  decode_found decodeKnowledgeEntry (db.(product_knowledge_entries) !! id).

Definition RecordKnowledgeEntry (e : KnowledgeEntry) db : result StoreError (bool * Database) :=
  refuse_if (e.(Entry_Provenance).(Provenance_Type) ≟ ProvenancePromotion) WrittenByPromotion ;?
  wrap KnowledgeRefused (validate_entry e) ;?
  product_exists db e.(Entry_ProductID) ;?
  insertKnowledgeEntry db e.

(** The insertion of the audit record: the id is the key, and one promoted
    entry has one record ([UNIQUE]). *)
Definition insert_promotion db (r : KnowledgePromotion) : result StoreError (bool * Database) :=
  let? text := document r.(Promotion_PromotedAt) (promotion_document r) in
  match db.(product_knowledge_promotions) !! r.(Promotion_ID) with
  | Some stored =>
      let? kept := document stored.(Promotion_PromotedAt) (promotion_document stored) in
      refuse_if (kept ≠? text) (PromotionDiffers r.(Promotion_ID)) ;? Ok (false, db)
  | None =>
      refuse_if (existsb (λ other, other.(Promotion_PromotedEntryID) ≟ r.(Promotion_PromotedEntryID)) (rows db.(product_knowledge_promotions)))
        (PromotionTaken r.(Promotion_PromotedEntryID)) ;?
      Ok (true, set_promotions (<[r.(Promotion_ID) := r]> db.(product_knowledge_promotions)) db)
  end.

Definition check_source (source promoted : KnowledgeEntry) (r : KnowledgePromotion) : result StoreError () :=
  refuse_if (source.(Entry_ProductID) ≠? promoted.(Entry_ProductID)) (SourceOfAnother source.(Entry_ProductID) promoted.(Entry_ProductID)) ;?
  refuse_if (source.(Entry_Scope) ≠? r.(Promotion_SourceScope)) (SourceScopeDiffers source.(Entry_Scope) r.(Promotion_SourceScope)) ;?
  refuse_if (source.(Entry_Provenance) ≠? r.(Promotion_SourceProvenance)) SourceProvenanceDiffers ;?
  refuse_if (source.(Entry_Statement) ≠? promoted.(Entry_Statement)) StatementDiffers.

Definition RecordPromotion (promoted : KnowledgeEntry) (r : KnowledgePromotion) db : result StoreError (bool * Database) :=
  wrap KnowledgeRefused (validate_entry promoted) ;?
  wrap KnowledgeRefused (validate_promotion r) ;?
  wrap KnowledgeRefused (ValidatePromotionConsistency promoted r) ;?
  let? source := knowledgeEntryByIDTx db r.(Promotion_SourceEntryID) in
  match source with
  | None => Err (SourceMissing r.(Promotion_SourceEntryID))
  | Some source =>
      check_source source promoted r ;?
      let? entry := insertKnowledgeEntry db promoted in
      let? record := insert_promotion entry.2 r in
      Ok (entry.1 || record.1, record.2)
  end.

(** One page of the entries a condition selects, the oldest first. *)
Definition query_entries db (where_ : KnowledgeEntry → bool) : result StoreError (list KnowledgeEntry) :=
  try_map decodeKnowledgeEntry (take MaxContextKnowledgeEntries
    (by_creation Entry_CreatedAt Entry_ID (filter (λ e, where_ e = true) (rows db.(product_knowledge_entries))))).

(** The column [scope_rank] of an entry is at most a rank. *)
Definition rank_at_most (e : KnowledgeEntry) (rank : Z) : bool :=
  match ScopeRank e.(Entry_Scope) with Some n => (n <=? rank)%Z | None => false end.

Definition is_promotion (e : KnowledgeEntry) : bool := e.(Entry_Provenance).(Provenance_Type) ≟ ProvenancePromotion.

Definition OwnedKnowledge db (productID scope ownerRef : string) : result StoreError (list KnowledgeEntry) :=
  let? rank := of_option (StoreScopeUnknown scope) (ScopeRank scope) in
  query_entries db (λ e, (e.(Entry_ProductID) ≟ productID) && (e.(Entry_OwnerRef) ≟ ownerRef) && negb (is_promotion e) && rank_at_most e rank).

Definition WidelyPromotedKnowledgeAtOrBelow db (productID scope : string) : result StoreError (list KnowledgeEntry) :=
  let? rank := of_option (StoreScopeUnknown scope) (ScopeRank scope) in
  query_entries db (λ e, (e.(Entry_ProductID) ≟ productID) && is_promotion e && (e.(Entry_AudienceRef) ≟ "") && rank_at_most e rank).

Definition AudiencedPromotedKnowledge db (productID scope audienceRef : string) : result StoreError (list KnowledgeEntry) :=
  refuse_if (negb (KnownScope scope)) (StoreScopeUnknown scope) ;?
  query_entries db (λ e, (e.(Entry_ProductID) ≟ productID) && is_promotion e && (e.(Entry_Scope) ≟ scope) && (e.(Entry_AudienceRef) ≟ audienceRef)).

(** [SQLiteOperationStore] as a [product.Store]. *)
Definition store_of db : Store StoreError := {|
  store_CurrentProduct := currentProductTx db;
  store_CurrentConfiguration := currentConfigurationTx db;
  store_ConfigurationRevision := configurationRevisionTx db;
  store_OwnedKnowledge := OwnedKnowledge db;
  store_WidelyPromotedKnowledgeAtOrBelow := WidelyPromotedKnowledgeAtOrBelow db;
  store_AudiencedPromotedKnowledge := AudiencedPromotedKnowledge db
|}.

(* ------------------------------------------------------------------ *)
(** * Work graphs and batches *)

Definition decodeWorkGraph (g : WorkGraph) : result StoreError WorkGraph := wrap StoredGraphCorrupt (Validate g) ;? Ok g.

Definition WorkGraphRevision db (graphID : string) (revision : Z) : result StoreError (option WorkGraph) :=
  decode_found decodeWorkGraph (db.(work_graph_revisions) !! (graphID, revision)).

(** [currentWorkGraphTx], and [WorkGraph] outside a transaction. *)
Definition currentWorkGraphTx db (graphID : string) : result StoreError (option WorkGraph) :=
  decode_found decodeWorkGraph (latest Graph_Revision (filter (λ g, g.(Graph_ID) = graphID) (rows db.(work_graph_revisions)))).

Definition AdoptWorkGraphRevision (g : WorkGraph) db : result StoreError (WorkGraph * bool * Database) :=
  wrap GraphRefused (Validate g) ;?
  let? _ := document g.(Graph_CreatedAt) (graph_document g) in
  match db.(work_graph_revisions) !! (g.(Graph_ID), g.(Graph_Revision)) with
  | None => Ok (g, true, set_graphs (<[(g.(Graph_ID), g.(Graph_Revision)) := g]> db.(work_graph_revisions)) db)
  | Some row =>
      let? stored := decodeWorkGraph row in
      let? storedDigest := wrap GraphRefused (RevisionDigest stored) in
      let? proposedDigest := wrap GraphRefused (RevisionDigest g) in
      refuse_if (storedDigest ≠? proposedDigest) (RevisionDiffers g.(Graph_ID) g.(Graph_Revision)) ;?
      Ok (stored, false, db)
  end.

(** [COUNT] of the batches whose origin is the graph. *)
Definition admitted_units db (graphID : string) : nat :=
  length (filter (λ b, (Origin_GraphID <$> b.(Batch_Origin)) = Some graphID) (rows db.(orchestration_batches))).

Definition AssociateWorkGraph (a : GraphAssociation) db : result StoreError (bool * Database) :=
  let? owner := currentProductTx db a.(Association_ProductID) in
  let? owner := of_option (ProductUnknown a.(Association_ProductID)) owner in
  let? graph := currentWorkGraphTx db a.(Association_GraphID) in
  let? graph := of_option (GraphUnknown a.(Association_GraphID)) graph in
  refuse_if (negb (owner.(Product_Repositories) ∋? graph.(Graph_Repository)))
    (RepositoryNotMember a.(Association_GraphID) graph.(Graph_Repository) a.(Association_ProductID)) ;?
  match db.(product_graph_associations) !! a.(Association_GraphID) with
  | None =>
      refuse_if (0 <? admitted_units db a.(Association_GraphID))
        (UnitsAdmitted a.(Association_GraphID) (admitted_units db a.(Association_GraphID))) ;?
      Ok (true, set_associations
        (<[a.(Association_GraphID) := (a.(Association_ProductID), UnixNano a.(Association_AssociatedAt))]> db.(product_graph_associations)) db)
  | Some (existing, _) =>
      refuse_if (existing ≠? a.(Association_ProductID)) (AssociatedElsewhere a.(Association_GraphID) existing a.(Association_ProductID)) ;?
      Ok (false, db)
  end.

Definition AssociatedProduct db (graphID : string) : option string := fst <$> db.(product_graph_associations) !! graphID.

(** [requireBatchProductBinding] ([runtime/product_context.go]). *)
Definition requireBatchProductBinding db (b : Batch) : result StoreError () :=
  match b.(Batch_Origin) with
  | None => Ok tt
  | Some origin =>
      let associated := default "" (AssociatedProduct db origin.(Origin_GraphID)) in
      let pinned := default "" (Pin_ProductID <$> b.(Batch_Product)) in
      refuse_if (pinned ≠? associated) (PinBinding b.(Batch_ID) pinned origin.(Origin_GraphID) associated)
  end.

Definition decodeOrchestrationBatch (b : Batch) : result StoreError Batch := wrap StoredBatchCorrupt (validate_batch b) ;? Ok b.

Definition OrchestrationBatch db (id : string) : result StoreError (option Batch) :=
  decode_found decodeOrchestrationBatch (db.(orchestration_batches) !! id).

(** The read of the stored batch follows the commit. *)
Definition CreateOrchestrationBatch (b : Batch) db : result StoreError (Batch * bool * Database) :=
  wrap BatchRefused (validate_batch b) ;?
  let? _ := document b.(Batch_CreatedAt) (batch_document b) in
  requireBatchProductBinding db b ;?
  match db.(orchestration_batches) !! b.(Batch_ID) with
  | None => Ok (b, true, set_batches (<[b.(Batch_ID) := b]> db.(orchestration_batches)) db)
  | Some row => let? stored := decodeOrchestrationBatch row in Ok (stored, false, db)
  end.

(** The fields of an activation, checked in the order of a map. *)
Definition activation_fields (a : WorkUnitActivation) : gmap string string :=
  <["graph_id" := a.(Activation_GraphID)]> (<["unit_id" := a.(Activation_UnitID)]> (<["batch_id" := a.(Activation_BatchID)]>
  (<["run_id" := a.(Activation_RunID)]> (<["inputs_digest" := a.(Activation_InputsDigest)]> ∅)))).

Definition ActivateWorkUnit (a : WorkUnitActivation) db : result StoreError (bool * Database) :=
  check_map (λ name value, refuse_if (blank value) (ActivationIncomplete name)) (activation_fields a) ;?
  refuse_if (a.(Activation_ActivatedAt) =? 0)%Z ActivationTimeRequired ;?
  match db.(work_graph_activations) !! (a.(Activation_GraphID), a.(Activation_UnitID)) with
  | Some _ => Ok (false, db)
  | None =>
      refuse_if (bool_decide (db.(orchestration_batches) !! a.(Activation_BatchID) = None)) (ActivationBatchMissing a.(Activation_BatchID)) ;?
      Ok (true, set_activations (<[(a.(Activation_GraphID), a.(Activation_UnitID)) := a]> db.(work_graph_activations)) db)
  end.

(** The activations of a graph, by unit; the column keeps the nanoseconds. *)
Definition read_activation (a : WorkUnitActivation) : WorkUnitActivation :=
  MkActivation a.(Activation_GraphID) a.(Activation_UnitID) a.(Activation_BatchID) a.(Activation_RunID) a.(Activation_InputsDigest)
    (of_UnixNano (UnixNano a.(Activation_ActivatedAt))).

Definition WorkUnitActivations db (graphID : string) : gmap string WorkUnitActivation :=
  list_to_map ((λ a, (a.(Activation_UnitID), read_activation a)) <$> filter (λ a, a.(Activation_GraphID) = graphID) (rows db.(work_graph_activations))).
End store.
