(* ===== verification/ProductStoreFacts.v ===== *)
(** What the product store keeps: that every reachable database holds only
    valid documents under their own keys, that it satisfies the laws of
    [Store], that promoted knowledge traces back to what somebody wrote, that
    admitted units stay bound to their product, and that a pinned context
    survives everything recorded after it. *)

From S2P Require Import Prelude GoStrings Sha256 Domain Canonical Item WorkGraph Projection Handoff GoTime Product Knowledge ProductContext Batch Database ProductStore.
From stdpp Require Import relations options.

(* ------------------------------------------------------------------ *)
(** * Tables *)

(** A table keyed by its own rows, all of them valid. *)
Definition keyed `{Countable K} {A} (key : A → K) (valid : A → Prop) (table : gmap K A) : Prop :=
  map_Forall (λ k x, key x = k ∧ valid x) table.

Lemma keyed_insert `{Countable K} {A} (key : A → K) valid (table : gmap K A) x :
  keyed key valid table → valid x → keyed key valid (<[key x := x]> table).
Proof. intros Ht Hx. by apply map_Forall_insert_2. Qed.

Lemma rows_insert `{Countable K} {A} (table : gmap K A) k x :
  table !! k = None → rows (<[k := x]> table) ≡ₚ x :: rows table.
Proof. intros Hk. unfold rows. by rewrite map_to_list_insert. Qed.

Lemma rows_mono `{Countable K} {A} (m m' : gmap K A) x : m ⊆ m' → x ∈ rows m → x ∈ rows m'.
Proof. intros Hm [k Hk]%elem_of_rows. apply elem_of_rows. exists k. by eapply lookup_weaken. Qed.

Lemma keyed_lookup `{Countable K} {A} (key : A → K) valid (table : gmap K A) x :
  keyed key valid table → x ∈ rows table → table !! key x = Some x.
Proof. intros Ht [k Hk]%elem_of_rows. by destruct (Ht k x Hk) as [-> _]. Qed.

Lemma keyed_inj `{Countable K} {A} (key : A → K) valid (table : gmap K A) x y :
  keyed key valid table → x ∈ rows table → y ∈ rows table → key x = key y → x = y.
Proof. intros Ht Hx%(keyed_lookup _ _ _ _ Ht) Hy%(keyed_lookup _ _ _ _ Ht) He. congruence. Qed.

Lemma keyed_rows `{Countable K} {A} (key : A → K) valid (table : gmap K A) :
  keyed key valid table → NoDup (key <$> rows table) ∧ ∀ x, x ∈ rows table → valid x.
Proof.
  intros Ht. split.
  - assert (key <$> rows table = (map_to_list table).*1) as ->; [|apply NoDup_fst_map_to_list].
    unfold rows. rewrite <- list_fmap_compose. apply list_fmap_ext. intros i [k x] Hi. simpl.
    by apply list_elem_of_lookup_2, elem_of_map_to_list, Ht in Hi as [-> _].
  - intros x [k Hk]%elem_of_rows. by apply (Ht k x).
Qed.

Lemma latest_insert {A} (revision : A → Z) l l' x :
  l' ≡ₚ x :: l → (∀ y, y ∈ l → (revision y < revision x)%Z) → latest revision l' = Some x.
Proof.
  intros Hp Hx. pose proof (latest_row_spec revision l') as Hl. destruct (latest revision l') as [y|].
  - destruct Hl as [Hy Hmax]. rewrite Hp in Hy. apply elem_of_cons in Hy as [->|Hy]; [done|].
    specialize (Hmax x ltac:(rewrite Hp; by left)). specialize (Hx y Hy). lia.
  - subst. by apply Permutation_nil_cons in Hp.
Qed.

(** The order of creation, where an id names one row. *)
Definition ids_distinct {A} (id : A → string) (l : list A) : Prop := ∀ x y, x ∈ l → y ∈ l → id x = id y → x = y.

Lemma created_le_antisym {A} (time : A → Z) (id : A → string) x y :
  created_le time id x y → created_le time id y x → id x = id y.
Proof. intros [?|[? ?]] [?|[? ?]]; [lia..|by apply (anti_symm String.le)]. Qed.

Lemma elem_of_by_creation {A} (time : A → Z) (id : A → string) l x : x ∈ by_creation time id l ↔ x ∈ l.
Proof. unfold by_creation. by rewrite merge_sort_Permutation. Qed.

(** A list in order of creation is the ordered list of its rows. *)
Lemma by_creation_unique {A} (time : A → Z) (id : A → string) l s :
  ids_distinct id l → l ≡ₚ s → StronglySorted (created_le time id) s → by_creation time id l = s.
Proof.
  intros Hid Hp Hs. apply (StronglySorted_unique_strong (created_le time id)); [|apply (StronglySorted_merge_sort _)|done|].
  - intros x y Hx Hy Hxy Hyx. apply Hid; [by eapply elem_of_by_creation|by rewrite Hp|by eapply created_le_antisym].
  - unfold by_creation. by rewrite merge_sort_Permutation.
Qed.

Lemma by_creation_perm {A} (time : A → Z) (id : A → string) l l' :
  ids_distinct id l → l ≡ₚ l' → by_creation time id l = by_creation time id l'.
Proof.
  intros Hid Hp. apply by_creation_unique; [done| |apply (StronglySorted_merge_sort _)].
  unfold by_creation. by rewrite merge_sort_Permutation.
Qed.

(** What is later than a whole list is sorted after it. *)
Lemma by_creation_app {A} (time : A → Z) (id : A → string) l new :
  ids_distinct id (l ++ new) → (∀ x y, x ∈ l → y ∈ new → (UnixNano (time x) < UnixNano (time y))%Z) →
  by_creation time id (l ++ new) = by_creation time id l ++ by_creation time id new.
Proof.
  intros Hid Hlater. apply by_creation_unique; [done|unfold by_creation; by rewrite !merge_sort_Permutation|].
  apply StronglySorted_app_2; try apply (StronglySorted_merge_sort _).
  intros x y Hx%elem_of_by_creation Hy%elem_of_by_creation. left. by apply Hlater.
Qed.
(* ------------------------------------------------------------------ *)
(** * Steps *)

(** The entry a promotion was made from, as its record describes it. *)
Definition sources (source e : KnowledgeEntry) (r : KnowledgePromotion) : Prop :=
  source.(Entry_ProductID) = e.(Entry_ProductID) ∧ source.(Entry_Scope) = r.(Promotion_SourceScope)
  ∧ source.(Entry_Provenance) = r.(Promotion_SourceProvenance) ∧ source.(Entry_Statement) = e.(Entry_Statement).

Section facts.
Context `{!MapRange, !Canonicalizer, !GoUnicode}.
Implicit Types (db : Database).

(** The writes of the store, each a transaction that commits. *)
Inductive step db : Database → Prop :=
  | step_product p adopted new db' : AdoptProductRevision p db = Ok (adopted, new, db') → step db db'
  | step_configuration c adopted new db' : AdoptProductConfigurationRevision c db = Ok (adopted, new, db') → step db db'
  | step_entry e new db' : RecordKnowledgeEntry e db = Ok (new, db') → step db db'
  | step_promotion e r new db' : RecordPromotion e r db = Ok (new, db') → step db db'
  | step_graph g adopted new db' : AdoptWorkGraphRevision g db = Ok (adopted, new, db') → step db db'
  | step_association a new db' : AssociateWorkGraph a db = Ok (new, db') → step db db'
  | step_batch b stored new db' : CreateOrchestrationBatch b db = Ok (stored, new, db') → step db db'
  | step_activation a new db' : ActivateWorkUnit a db = Ok (new, db') → step db db'.

Definition reachable db : Prop := rtc step empty_database db.

(** The only rows a write may add. *)
Inductive change db : Database → Prop :=
  | change_none : change db db
  | change_product p : valid_product p → db.(product_revisions) !! (p.(Product_ID), p.(Product_Revision)) = None →
      match latest Product_Revision (filter (λ q, q.(Product_ID) = p.(Product_ID)) (rows db.(product_revisions))) with
      | None => p.(Product_Revision) = 1%Z
      | Some current => next_product current p
      end → change db (set_products (<[(p.(Product_ID), p.(Product_Revision)) := p]> db.(product_revisions)) db)
  | change_configuration c : valid_configuration c →
      db.(product_configuration_revisions) !! (c.(Configuration_ProductID), c.(Configuration_Revision)) = None →
      change db (set_configurations (<[(c.(Configuration_ProductID), c.(Configuration_Revision)) := c]> db.(product_configuration_revisions)) db)
  | change_entry e : valid_entry e → ¬ promoted e → db.(product_knowledge_entries) !! e.(Entry_ID) = None →
      change db (set_entries (<[e.(Entry_ID) := e]> db.(product_knowledge_entries)) db)
  | change_promotion e r source : valid_entry e → valid_promotion r → audits r e →
      db.(product_knowledge_entries) !! r.(Promotion_SourceEntryID) = Some source → sources source e r →
      ∀ db1 new1 new2 db', insertKnowledgeEntry db e = Ok (new1, db1) → insert_promotion db1 r = Ok (new2, db') → change db db'
  | change_graph g : Validate g = Ok tt → db.(work_graph_revisions) !! (g.(Graph_ID), g.(Graph_Revision)) = None →
      change db (set_graphs (<[(g.(Graph_ID), g.(Graph_Revision)) := g]> db.(work_graph_revisions)) db)
  | change_association a : db.(product_graph_associations) !! a.(Association_GraphID) = None →
      admitted_units db a.(Association_GraphID) = 0%nat →
      change db (set_associations
        (<[a.(Association_GraphID) := (a.(Association_ProductID), UnixNano a.(Association_AssociatedAt))]> db.(product_graph_associations)) db)
  | change_batch b : validate_batch b = Ok tt → db.(orchestration_batches) !! b.(Batch_ID) = None →
      requireBatchProductBinding db b = Ok tt →
      change db (set_batches (<[b.(Batch_ID) := b]> db.(orchestration_batches)) db)
  | change_activation a : db.(work_graph_activations) !! (a.(Activation_GraphID), a.(Activation_UnitID)) = None →
      is_Some (db.(orchestration_batches) !! a.(Activation_BatchID)) →
      change db (set_activations (<[(a.(Activation_GraphID), a.(Activation_UnitID)) := a]> db.(work_graph_activations)) db).

(** What a read gives is the row it decoded. *)
Lemma decode_found_ok {A} (decode : A → result StoreError A) row o :
  (∀ x y, decode x = Ok y → y = x) → decode_found decode row = Ok o → o = row.
Proof. intros Hd. destruct row as [x|]; simpl; [|congruence]. intros (y & ->%Hd & [= <-])%rbind_ok. done. Qed.

Lemma decodeProduct_ok p q : decodeProduct p = Ok q ↔ valid_product p ∧ q = p.
Proof. unfold decodeProduct. rewrite check_then, wrap_ok, validate_product_iff. naive_solver. Qed.
Lemma decodeProductConfiguration_ok c d : decodeProductConfiguration c = Ok d ↔ valid_configuration c ∧ d = c.
Proof. unfold decodeProductConfiguration. rewrite check_then, wrap_ok, validate_configuration_iff. naive_solver. Qed.
Lemma decodeKnowledgeEntry_ok e f : decodeKnowledgeEntry e = Ok f ↔ valid_entry e ∧ f = e.
Proof. unfold decodeKnowledgeEntry. rewrite check_then, wrap_ok, validate_entry_iff. naive_solver. Qed.

Lemma decode_identity db :
  (∀ p q, decodeProduct p = Ok q → q = p) ∧ (∀ c d, decodeProductConfiguration c = Ok d → d = c)
  ∧ ∀ e f, decodeKnowledgeEntry e = Ok f → f = e.
Proof. split_and!; [intros p q [_ ->]%decodeProduct_ok|intros c d [_ ->]%decodeProductConfiguration_ok|intros e f [_ ->]%decodeKnowledgeEntry_ok]; done. Qed.

Lemma AdoptProductRevision_change p adopted new db db' : AdoptProductRevision p db = Ok (adopted, new, db') → change db db'.
Proof.
  destruct (decode_identity db) as (Hd & _ & _). unfold AdoptProductRevision. intros [Hv%wrap_ok%validate_product_iff Hw]%check_then.
  apply rbind_ok in Hw as (row & Hrow%(decode_found_ok _ _ _ Hd) & Hk). destruct row as [x|].
  { invert_ok. constructor. }
  apply rbind_ok in Hk as (current & Hcur%(decode_found_ok _ _ _ Hd) & [Hc (_ & _ & [= _ _ <-])%rbind_ok]%check_then).
  apply change_product; [done..|]. rewrite <- Hcur. destruct current as [current|].
  - apply refuse_if_then in Hc as [_ Hc]. apply wrap_ok in Hc. by apply ValidateProductMutation_iff.
  - by apply refuse_if_ok, negb_false_iff, bool_decide_eq_true in Hc.
Qed.

Lemma AdoptProductConfigurationRevision_change c adopted new db db' :
  AdoptProductConfigurationRevision c db = Ok (adopted, new, db') → change db db'.
Proof.
  destruct (decode_identity db) as (_ & Hd & _). unfold AdoptProductConfigurationRevision.
  intros [Hv%wrap_ok%validate_configuration_iff [_ Hw]%check_then]%check_then.
  apply rbind_ok in Hw as (row & Hrow%(decode_found_ok _ _ _ Hd) & Hk). destruct row as [x|].
  { invert_ok. constructor. }
  apply rbind_ok in Hk as (current & _ & [_ (_ & _ & [= _ _ <-])%rbind_ok]%check_then). by apply change_configuration.
Qed.

(** Inserting an entry keeps one that is there, and adds it otherwise. *)
Lemma insertKnowledgeEntry_ok db e new db' :
  insertKnowledgeEntry db e = Ok (new, db') →
  (db' = db ∧ is_Some (db.(product_knowledge_entries) !! e.(Entry_ID)))
  ∨ (db' = set_entries (<[e.(Entry_ID) := e]> db.(product_knowledge_entries)) db ∧ db.(product_knowledge_entries) !! e.(Entry_ID) = None).
Proof.
  unfold insertKnowledgeEntry. intros (_ & _ & (_ & _ & Hw)%rbind_ok)%rbind_ok.
  destruct (_ !! _); injection Hw as <- <-; [left|right]; eauto.
Qed.

Lemma RecordKnowledgeEntry_change e new db db' : RecordKnowledgeEntry e db = Ok (new, db') → change db db'.
Proof.
  unfold RecordKnowledgeEntry. intros [Hp%bool_decide_eq_false [Hv%wrap_ok%validate_entry_iff [_ Hw]%check_then]%check_then]%refuse_if_then.
  apply insertKnowledgeEntry_ok in Hw as [[-> _]|[-> ?]]; [constructor|by apply change_entry].
Qed.

Lemma check_source_ok source e r : check_source source e r = Ok tt ↔ sources source e r.
Proof. unfold check_source, sources. by rewrite !refuse_if_then, refuse_if_ok, !negb_false_iff, !bool_decide_eq_true. Qed.

Lemma RecordPromotion_change e r new db db' : RecordPromotion e r db = Ok (new, db') → change db db'.
Proof.
  destruct (decode_identity db) as (_ & _ & Hd). unfold RecordPromotion.
  intros [He%wrap_ok%validate_entry_iff [Hr%wrap_ok%validate_promotion_iff [Ha%wrap_ok%ValidatePromotionConsistency_iff Hw]%check_then]%check_then]%check_then.
  apply rbind_ok in Hw as ([source|] & Hs%(decode_found_ok _ _ _ Hd) & Hk); [|done].
  apply check_then in Hk as [Hc%check_source_ok ([n1 db1] & Hw1 & ([n2 db2] & Hw2 & [= _ <-])%rbind_ok)%rbind_ok].
  by eapply change_promotion.
Qed.

Lemma AdoptWorkGraphRevision_change g adopted new db db' : AdoptWorkGraphRevision g db = Ok (adopted, new, db') → change db db'.
Proof.
  unfold AdoptWorkGraphRevision. intros [Hv%wrap_ok (_ & _ & Hw)%rbind_ok]%check_then.
  destruct (_ !! _) eqn:Hrow; [|injection Hw as _ _ <-; by apply change_graph].
  invert_ok. constructor.
Qed.

Lemma AssociateWorkGraph_change a new db db' : AssociateWorkGraph a db = Ok (new, db') → change db db'.
Proof.
  unfold AssociateWorkGraph. intros (p & _ & (owner & _ & (g & _ & (graph & _ & [_ Hw]%refuse_if_then)%rbind_ok)%rbind_ok)%rbind_ok)%rbind_ok.
  destruct (_ !! _) as [[existing t]|] eqn:Hrow.
  - apply refuse_if_then in Hw as [_ [= _ <-]]. constructor.
  - apply refuse_if_then in Hw as [Hn%Nat.ltb_ge [= _ <-]]. apply change_association; [done|lia].
Qed.

Lemma CreateOrchestrationBatch_change b stored new db db' : CreateOrchestrationBatch b db = Ok (stored, new, db') → change db db'.
Proof.
  unfold CreateOrchestrationBatch. intros [Hv%wrap_ok (_ & _ & [Hb Hw]%check_then)%rbind_ok]%check_then.
  destruct (_ !! _) eqn:Hrow; [|injection Hw as _ _ <-; by apply change_batch].
  apply rbind_ok in Hw as (? & _ & [= _ _ <-]). constructor.
Qed.

Lemma ActivateWorkUnit_change a new db db' : ActivateWorkUnit a db = Ok (new, db') → change db db'.
Proof.
  unfold ActivateWorkUnit. intros [_ [_ Hw]%refuse_if_then]%check_then.
  destruct (_ !! _) eqn:Hrow; [injection Hw as _ <-; constructor|].
  apply refuse_if_then in Hw as [Hb%bool_decide_eq_false [= _ <-]]. apply change_activation; [done|].
  destruct (db.(orchestration_batches) !! _); [by eexists|done].
Qed.

Lemma step_change db db' : step db db' → change db db'.
Proof.
  destruct 1; eauto using AdoptProductRevision_change, AdoptProductConfigurationRevision_change, RecordKnowledgeEntry_change,
    RecordPromotion_change, AdoptWorkGraphRevision_change, AssociateWorkGraph_change, CreateOrchestrationBatch_change, ActivateWorkUnit_change.
Qed.

(* ------------------------------------------------------------------ *)
(** * What every database keeps *)

(** The stored form of an audit record, which is what a retry is compared
    with. *)
Definition promotion_text (r : KnowledgePromotion) : result StoreError string := document r.(Promotion_PromotedAt) (promotion_document r).

(** The database holds a record in exactly these words. *)
Definition recorded db (r : KnowledgePromotion) : Prop :=
  ∃ stored text, db.(product_knowledge_promotions) !! r.(Promotion_ID) = Some stored
    ∧ promotion_text stored = Ok text ∧ promotion_text r = Ok text.

(** A promoted entry stands on a recorded promotion of an entry the database
    holds. *)
Definition sourced db (e : KnowledgeEntry) : Prop :=
  ∃ r source, recorded db r ∧ valid_promotion r ∧ audits r e
    ∧ db.(product_knowledge_entries) !! r.(Promotion_SourceEntryID) = Some source ∧ sources source e r.

(** What a batch is bound to is what its graph is associated with. *)
Definition bound db (b : Batch) : Prop := requireBatchProductBinding db b = Ok tt.

Record wf db : Prop := {
  wf_products : keyed (λ p, (p.(Product_ID), p.(Product_Revision))) (λ p, valid_product p ∧ (p.(Product_Revision) < 2 ^ 63)%Z)
    db.(product_revisions);
  wf_lineage p q : p ∈ rows db.(product_revisions) → q ∈ rows db.(product_revisions) → p.(Product_ID) = q.(Product_ID) →
    (p.(Product_Revision) <= q.(Product_Revision))%Z → p.(Product_Repositories) ⊆ q.(Product_Repositories);
  wf_configurations : keyed (λ c, (c.(Configuration_ProductID), c.(Configuration_Revision))) valid_configuration
    db.(product_configuration_revisions);
  wf_entries : keyed Entry_ID valid_entry db.(product_knowledge_entries);
  wf_promotions : keyed Promotion_ID valid_promotion db.(product_knowledge_promotions);
  wf_sourced e : e ∈ rows db.(product_knowledge_entries) → promoted e → sourced db e;
  wf_graphs : keyed (λ g, (g.(Graph_ID), g.(Graph_Revision))) (λ g, Validate g = Ok tt) db.(work_graph_revisions);
  wf_batches : keyed Batch_ID (λ b, validate_batch b = Ok tt) db.(orchestration_batches);
  wf_bound b : b ∈ rows db.(orchestration_batches) → bound db b;
  wf_activations : keyed (λ a, (a.(Activation_GraphID), a.(Activation_UnitID)))
    (λ a, is_Some (db.(orchestration_batches) !! a.(Activation_BatchID))) db.(work_graph_activations)
}.

(** Tables only gain rows. *)
Record extends db db' : Prop := {
  extends_products : db.(product_revisions) ⊆ db'.(product_revisions);
  extends_configurations : db.(product_configuration_revisions) ⊆ db'.(product_configuration_revisions);
  extends_entries : db.(product_knowledge_entries) ⊆ db'.(product_knowledge_entries);
  extends_promotions : db.(product_knowledge_promotions) ⊆ db'.(product_knowledge_promotions);
  extends_associations : db.(product_graph_associations) ⊆ db'.(product_graph_associations);
  extends_graphs : db.(work_graph_revisions) ⊆ db'.(work_graph_revisions);
  extends_activations : db.(work_graph_activations) ⊆ db'.(work_graph_activations);
  extends_batches : db.(orchestration_batches) ⊆ db'.(orchestration_batches)
}.

#[export] Instance extends_preorder : PreOrder extends.
Proof. split; [intros db; by split|]. intros x y z [] []. split; by etrans. Qed.

Lemma insert_promotion_ok db r new db' :
  insert_promotion db r = Ok (new, db') →
  (db' = db ∨ db' = set_promotions (<[r.(Promotion_ID) := r]> db.(product_knowledge_promotions)) db
              ∧ db.(product_knowledge_promotions) !! r.(Promotion_ID) = None)
  ∧ recorded db' r.
Proof.
  unfold insert_promotion. intros (text & Ht & Hw)%rbind_ok. destruct (_ !! _) as [stored|] eqn:Hrow.
  - apply rbind_ok in Hw as (kept & Hk & [Heq%negb_false_iff%bool_decide_eq_true [= _ <-]]%refuse_if_then). subst kept.
    split; [by left|]. by exists stored, text.
  - apply refuse_if_then in Hw as [_ [= _ <-]]. split; [by right|]. exists r, text. simpl. by rewrite lookup_insert_eq.
Qed.

Lemma change_extends db db' : change db db' → extends db db'.
Proof.
  destruct 1 as [| | | |e r source _ _ _ _ _ db1 n1 n2 db' Hw1 Hw2| | | |]; try (split; simpl; first [done|by apply insert_subseteq]).
  trans db1.
  - apply insertKnowledgeEntry_ok in Hw1 as [[-> _]|[-> ?]]; [done|]. split; simpl; first [done|by apply insert_subseteq].
  - apply insert_promotion_ok in Hw2 as [[-> | [-> ?]] _]; [done|]. split; simpl; first [done|by apply insert_subseteq].
Qed.

Lemma sourced_extends db db' e : extends db db' → sourced db e → sourced db' e.
Proof.
  intros He (r & source & (stored & text & Hs & ?) & ? & ? & Hsrc & ?). exists r, source. split_and!; try done.
  - exists stored, text. split; [|done]. eapply lookup_weaken; [exact Hs|apply He].
  - eapply lookup_weaken; [exact Hsrc|apply He].
Qed.

Lemma rows_insert_inv `{Countable K} {A} (table : gmap K A) k x y : y ∈ rows (<[k := x]> table) → y = x ∨ y ∈ rows table.
Proof. intros [j [[-> ->]|[_ Hj]]%lookup_insert_Some]%elem_of_rows; [by left|right]. apply elem_of_rows. eauto. Qed.

Lemma wf_empty : wf empty_database.
Proof.
  split; simpl; try apply map_Forall_empty; intros *; (intros [? Hx]%elem_of_rows || idtac); simpl in *; by rewrite lookup_empty in Hx.
Qed.

(** The revision after an admitted one. *)
Lemma next_revision (current next : Product) :
  (1 <= current.(Product_Revision) < 2 ^ 63)%Z → next_product current next →
  next.(Product_Revision) = (current.(Product_Revision) + 1)%Z ∧ (next.(Product_Revision) < 2 ^ 63)%Z.
Proof.
  intros Hc (Hv & _ & _ & Hr & _). pose proof (product_revision _ Hv) as Hn. rewrite Hr in *. unfold wrap64 in *.
  destruct (decide (current.(Product_Revision) + 1 = 2 ^ 63)%Z) as [Heq|Hne]; [rewrite Heq in Hn; vm_compute in Hn; done|].
  rewrite Z.mod_small by lia. lia.
Qed.

Lemma current_lineage db p :
  wf db → match latest Product_Revision (filter (λ q, q.(Product_ID) = p.(Product_ID)) (rows db.(product_revisions))) with
          | None => p.(Product_Revision) = 1%Z
          | Some current => next_product current p end →
  (p.(Product_Revision) < 2 ^ 63)%Z
  ∧ ∀ q, q ∈ rows db.(product_revisions) → q.(Product_ID) = p.(Product_ID) →
      (q.(Product_Revision) < p.(Product_Revision))%Z ∧ q.(Product_Repositories) ⊆ p.(Product_Repositories).
Proof.
  intros Hwf Hp. pose proof (latest_row_spec Product_Revision (filter (λ q, q.(Product_ID) = p.(Product_ID)) (rows db.(product_revisions)))) as Hl.
  destruct (keyed_rows _ _ _ (wf_products _ Hwf)) as [_ Hall]. destruct (latest _ _) as [current|].
  - destruct Hl as [[Hid Hc]%list_elem_of_filter Hmax]. destruct (Hall _ Hc) as [Hv Hlt].
    destruct (next_revision current p) as [Hrev ?]; [split; [apply Hv|done]|done|]. split; [done|]. intros q Hq Hqid.
    specialize (Hmax q ltac:(by apply list_elem_of_filter)). split; [lia|].
    destruct Hp as (_ & _ & _ & _ & Hsub). etrans; [|exact Hsub]. apply (wf_lineage _ Hwf); try done. congruence.
  - split; [rewrite Hp; done|]. intros q Hq Hqid. exfalso.
    assert (q ∈ filter (λ q, q.(Product_ID) = p.(Product_ID)) (rows db.(product_revisions))) as Hf by (by apply list_elem_of_filter).
    rewrite Hl in Hf. by apply not_elem_of_nil in Hf.
Qed.

Lemma wf_add_product db p :
  wf db → valid_product p → db.(product_revisions) !! (p.(Product_ID), p.(Product_Revision)) = None →
  match latest Product_Revision (filter (λ q, q.(Product_ID) = p.(Product_ID)) (rows db.(product_revisions))) with
  | None => p.(Product_Revision) = 1%Z
  | Some current => next_product current p end →
  wf (set_products (<[(p.(Product_ID), p.(Product_Revision)) := p]> db.(product_revisions)) db).
Proof.
  intros Hwf Hv Hnone Hp. destruct (current_lineage _ _ Hwf Hp) as [Hlt Hall]. destruct Hwf as [? Hlin ? ? ? Hsrc ? ? ?]. split; simpl; try done.
  - by apply (keyed_insert (λ p, (p.(Product_ID), p.(Product_Revision)))).
  - intros q r [->|Hq]%rows_insert_inv [->|Hr]%rows_insert_inv Hid Hle; [done| |by apply Hall|by apply Hlin].
    destruct (Hall r Hr); [done|lia].
Qed.

Lemma wf_add_promotion db e r source db1 new1 new2 db' :
  wf db → valid_entry e → valid_promotion r → audits r e →
  db.(product_knowledge_entries) !! r.(Promotion_SourceEntryID) = Some source → sources source e r →
  insertKnowledgeEntry db e = Ok (new1, db1) → insert_promotion db1 r = Ok (new2, db') → wf db'.
Proof.
  intros Hwf He Hr Ha Hsource Hs Hw1 Hw2. destruct (insert_promotion_ok _ _ _ _ Hw2) as [Hdb' Hrec].
  assert (product_knowledge_entries db' = product_knowledge_entries db1) as Hsame by (destruct Hdb' as [-> | [-> _]]; done).
  assert (extends db db') as Hext by (by eapply change_extends, change_promotion).
  assert (∀ e, e ∈ rows db'.(product_knowledge_entries) → promoted e → sourced db' e) as Hsrc.
  { rewrite Hsame. intros x Hx Hpx. assert (x ∈ rows db.(product_knowledge_entries) ∨ x = e) as [Hin| ->].
    { apply insertKnowledgeEntry_ok in Hw1 as [[-> _]|[-> _]]; [by left|]. simpl in Hx. apply rows_insert_inv in Hx. tauto. }
    - by apply (sourced_extends db), (wf_sourced _ Hwf).
    - exists r, source. split_and!; try done. eapply lookup_weaken; [exact Hsource|apply Hext]. }
  destruct Hwf.
  apply insertKnowledgeEntry_ok in Hw1 as [[-> _]|[-> Hnone]].
  - destruct Hdb' as [-> | [-> _]]; split; simpl; try done; by apply keyed_insert.
  - destruct Hdb' as [-> | [-> _]]; split; simpl; try done; by apply keyed_insert.
Qed.

(** An association is made before any unit is admitted, so it leaves every
    batch bound. *)
Lemma wf_add_association db a :
  wf db → db.(product_graph_associations) !! a.(Association_GraphID) = None → admitted_units db a.(Association_GraphID) = 0%nat →
  wf (set_associations
    (<[a.(Association_GraphID) := (a.(Association_ProductID), UnixNano a.(Association_AssociatedAt))]> db.(product_graph_associations)) db).
Proof.
  intros [? ? ? ? ? ? ? ? Hbound ?] Hnone Hn. split; simpl; try done. intros b Hb. specialize (Hbound b Hb).
  unfold bound, requireBatchProductBinding, AssociatedProduct in *. simpl. destruct (Batch_Origin b) as [o|] eqn:Ho; [|done].
  destruct (decide (o.(Origin_GraphID) = a.(Association_GraphID))) as [Heq|Hne]; [|by rewrite lookup_insert_ne].
  exfalso. apply nil_length_inv in Hn. apply (not_elem_of_nil b). rewrite <- Hn. apply list_elem_of_filter. by rewrite Ho, <- Heq.
Qed.

Lemma change_wf db db' : change db db' → wf db → wf db'.
Proof.
  intros Hc Hwf. destruct Hc as [|p|c|e Hv Hp Hnone|e r source ? ? ? ? ? db1 n1 n2 db' ? ?|g|a|b Hv Hnone Hb|a].
  - done.
  - by apply wf_add_product.
  - destruct Hwf. split; simpl; try done. by apply (keyed_insert (λ c, (c.(Configuration_ProductID), c.(Configuration_Revision)))).
  - destruct Hwf as [? ? ? ? ? Hsrc ? ? ?]. split; simpl; try done; [by apply keyed_insert|].
    intros x [->|Hx]%rows_insert_inv Hpx; [done|]. apply (sourced_extends db); [by apply change_extends, change_entry|by apply Hsrc].
  - by eapply wf_add_promotion.
  - destruct Hwf. split; simpl; try done. by apply (keyed_insert (λ g, (g.(Graph_ID), g.(Graph_Revision)))).
  - by apply wf_add_association.
  - destruct Hwf as [? ? ? ? ? ? ? ? Hbound Hact]. split; simpl; try done; [by apply keyed_insert| |].
    + intros x [->|Hx]%rows_insert_inv; [exact Hb|by apply Hbound].
    + eapply map_Forall_impl; [exact Hact|]. intros k a [Hk Ha]. split; [done|]. by apply lookup_insert_is_Some'; right.
  - destruct Hwf. split; simpl; try done. by apply (keyed_insert (λ a, (a.(Activation_GraphID), a.(Activation_UnitID)))).
Qed.

Lemma reachable_wf db : reachable db → wf db.
Proof.
  assert (∀ db db', rtc step db db' → wf db → wf db') as Hall; [|intros Hr; by eapply Hall, wf_empty].
  induction 1 as [|x y z Hs _ IH]; [done|]. intros Hx. by eapply IH, change_wf, Hx; apply step_change.
Qed.

Lemma steps_extend db db' : rtc step db db' → extends db db'.
Proof. induction 1 as [|x y z Hs _ IH]; [done|]. etrans; [by apply change_extends, step_change|done]. Qed.

(* ------------------------------------------------------------------ *)
(** * The laws of the interface *)

(** The rows a condition selects, the oldest first, and the page a query
    returns of them. *)
Definition selection db (where_ : KnowledgeEntry → bool) : list KnowledgeEntry :=
  by_creation Entry_CreatedAt Entry_ID (filter (λ e, where_ e = true) (rows db.(product_knowledge_entries))).
Definition page db (where_ : KnowledgeEntry → bool) : list KnowledgeEntry := take MaxContextKnowledgeEntries (selection db where_).

(** The conditions of the three queries. *)
Definition owned_by (productID : string) (rank : Z) (ownerRef : string) (e : KnowledgeEntry) : bool :=
  (e.(Entry_ProductID) ≟ productID) && (e.(Entry_OwnerRef) ≟ ownerRef) && negb (is_promotion e) && rank_at_most e rank.
Definition widely_promoted (productID : string) (rank : Z) (e : KnowledgeEntry) : bool :=
  (e.(Entry_ProductID) ≟ productID) && is_promotion e && (e.(Entry_AudienceRef) ≟ "") && rank_at_most e rank.
Definition promoted_for (productID scope audienceRef : string) (e : KnowledgeEntry) : bool :=
  (e.(Entry_ProductID) ≟ productID) && is_promotion e && (e.(Entry_Scope) ≟ scope) && (e.(Entry_AudienceRef) ≟ audienceRef).

Lemma elem_of_selection db where_ e : e ∈ selection db where_ ↔ where_ e = true ∧ e ∈ rows db.(product_knowledge_entries).
Proof. unfold selection. by rewrite elem_of_by_creation, list_elem_of_filter. Qed.

Lemma elem_of_page db where_ e : e ∈ page db where_ → where_ e = true ∧ e ∈ rows db.(product_knowledge_entries).
Proof. intros (i & Hi & _)%elem_of_take. apply elem_of_selection. by eapply list_elem_of_lookup_2. Qed.

Lemma is_promotion_true e : is_promotion e = true ↔ promoted e.
Proof. unfold is_promotion, promoted. apply bool_decide_eq_true. Qed.

Lemma owned_by_true product rank owner e :
  owned_by product rank owner e = true ↔
  e.(Entry_ProductID) = product ∧ e.(Entry_OwnerRef) = owner ∧ ¬ promoted e ∧ rank_at_most e rank = true.
Proof.
  unfold owned_by. rewrite !andb_true_iff, negb_true_iff, !bool_decide_eq_true, <- is_promotion_true, not_true_iff_false. tauto.
Qed.
Lemma widely_promoted_true product rank e :
  widely_promoted product rank e = true ↔
  e.(Entry_ProductID) = product ∧ promoted e ∧ e.(Entry_AudienceRef) = "" ∧ rank_at_most e rank = true.
Proof. unfold widely_promoted. rewrite !andb_true_iff, !bool_decide_eq_true, is_promotion_true. tauto. Qed.
Lemma promoted_for_true product scope audience e :
  promoted_for product scope audience e = true ↔
  e.(Entry_ProductID) = product ∧ promoted e ∧ e.(Entry_Scope) = scope ∧ e.(Entry_AudienceRef) = audience.
Proof. unfold promoted_for. rewrite !andb_true_iff, !bool_decide_eq_true, is_promotion_true. tauto. Qed.

(** A read of a row that validates gives it. *)
Lemma decode_found_valid {A} (decode : A → result StoreError A) (valid : A → Prop) row :
  (∀ x y, decode x = Ok y ↔ valid x ∧ y = x) → (∀ x, row = Some x → valid x) → decode_found decode row = Ok row.
Proof.
  intros Hd Hv. destruct row as [x|]; [|done]. simpl. rewrite (proj2 (Hd x x)); [done|]. auto.
Qed.

Lemma latest_in {A} (revision : A → Z) (l : list A) x : latest revision l = Some x → x ∈ l.
Proof. intros Hx. pose proof (latest_row_spec revision l) as Hl. rewrite Hx in Hl. apply Hl. Qed.

Section reads.
Context db (Hwf : wf db).
Set Default Proof Using "Hwf".

Lemma query_entries_wf where_ : query_entries db where_ = Ok (page db where_).
Proof.
  destruct (keyed_rows _ _ _ (wf_entries _ Hwf)) as [_ Hv].
  apply try_map_identity. intros e [_ He]%elem_of_page. apply decodeKnowledgeEntry_ok. auto.
Qed.

Lemma OwnedKnowledge_wf product scope owner l :
  OwnedKnowledge db product scope owner = Ok l ↔ ∃ rank, ScopeRank scope = Some rank ∧ l = page db (owned_by product rank owner).
Proof.
  unfold OwnedKnowledge. rewrite rbind_ok. setoid_rewrite of_option_ok. setoid_rewrite query_entries_wf. naive_solver.
Qed.
Lemma WidelyPromoted_wf product scope l :
  WidelyPromotedKnowledgeAtOrBelow db product scope = Ok l ↔
  ∃ rank, ScopeRank scope = Some rank ∧ l = page db (widely_promoted product rank).
Proof.
  unfold WidelyPromotedKnowledgeAtOrBelow. rewrite rbind_ok. setoid_rewrite of_option_ok. setoid_rewrite query_entries_wf. naive_solver.
Qed.
Lemma AudiencedPromoted_wf product scope audience l :
  AudiencedPromotedKnowledge db product scope audience = Ok l ↔
  KnownScope scope = true ∧ l = page db (promoted_for product scope audience).
Proof. unfold AudiencedPromotedKnowledge. rewrite refuse_if_then, negb_false_iff, query_entries_wf. naive_solver. Qed.

Lemma currentProductTx_wf product :
  currentProductTx db product = Ok (latest Product_Revision (filter (λ p, p.(Product_ID) = product) (rows db.(product_revisions)))).
Proof.
  apply (decode_found_valid _ valid_product); [apply decodeProduct_ok|]. intros p [_ Hp]%latest_in%list_elem_of_filter.
  destruct (keyed_rows _ _ _ (wf_products _ Hwf)) as [_ Hv]. by apply Hv.
Qed.
Lemma currentConfigurationTx_wf product :
  currentConfigurationTx db product
  = Ok (latest Configuration_Revision (filter (λ c, c.(Configuration_ProductID) = product) (rows db.(product_configuration_revisions)))).
Proof.
  apply (decode_found_valid _ valid_configuration); [apply decodeProductConfiguration_ok|]. intros p [_ Hp]%latest_in%list_elem_of_filter.
  destruct (keyed_rows _ _ _ (wf_configurations _ Hwf)) as [_ Hv]. by apply Hv.
Qed.
Lemma configurationRevisionTx_wf product revision :
  configurationRevisionTx db product revision = Ok (db.(product_configuration_revisions) !! (product, revision)).
Proof.
  apply (decode_found_valid _ valid_configuration); [apply decodeProductConfiguration_ok|]. intros c Hc.
  by apply (wf_configurations _ Hwf) in Hc as [_ ?].
Qed.

(** What the reads of this store are. *)
Lemma read_page l : read (store_of db) l → ∃ where_, l = page db where_.
Proof.
  destruct 1 as [? ? ? l Hl|? ? l Hl|? ? ? l Hl]; simpl in Hl; [apply OwnedKnowledge_wf in Hl as (? & _ & ->)|
    apply WidelyPromoted_wf in Hl as (? & _ & ->)|apply AudiencedPromoted_wf in Hl as (_ & ->)]; eauto.
Qed.

Lemma selection_ids where_ : NoDup (Entry_ID <$> selection db where_).
Proof.
  unfold selection, by_creation. rewrite merge_sort_Permutation. eapply sublist_NoDup; [apply (keyed_rows _ _ _ (wf_entries _ Hwf))|].
  apply fmap_sublist, sublist_filter.
Qed.

(** A database a program can reach implements the interface contexts are
    compiled through. *)
#[export] Instance store_laws : StoreLaws (store_of db).
Proof.
  split; simpl.
  - intros product p Hp. rewrite currentProductTx_wf in Hp. injection Hp as Hp%latest_in%list_elem_of_filter. tauto.
  - intros product revision c Hc. rewrite configurationRevisionTx_wf in Hc. injection Hc as Hc%(wf_configurations _ Hwf). destruct Hc. congruence.
  - intros product scope owner l e (rank & _ & ->)%OwnedKnowledge_wf [?%owned_by_true _]%elem_of_page. tauto.
  - intros product scope l e (rank & _ & ->)%WidelyPromoted_wf [?%widely_promoted_true _]%elem_of_page. tauto.
  - intros product scope audience l e (_ & ->)%AudiencedPromoted_wf [?%promoted_for_true _]%elem_of_page. tauto.
  - intros l [where_ ->]%read_page. unfold page. split; [|rewrite length_take; lia].
    eapply sublist_NoDup; [apply selection_ids|apply fmap_sublist, sublist_take].
  - intros l1 l2 e1 e2 [w1 ->]%read_page [w2 ->]%read_page [_ Hi1]%elem_of_page [_ Hi2]%elem_of_page.
    by apply (keyed_inj _ _ _ _ _ (wf_entries _ Hwf)).
Qed.
End reads.

(* ------------------------------------------------------------------ *)
(** * Growth *)

(** What a product has learned since is younger than what it knew. *)
Definition appended db db' (product : string) : Prop :=
  ∀ e e', e ∈ rows db.(product_knowledge_entries) → e' ∈ rows db'.(product_knowledge_entries) → e' ∉ rows db.(product_knowledge_entries) →
    e.(Entry_ProductID) = product → e'.(Entry_ProductID) = product → (UnixNano e.(Entry_CreatedAt) < UnixNano e'.(Entry_CreatedAt))%Z.

Section growth.
Context db db' (Hwf : wf db) (Hwf' : wf db') (Hext : extends db db').
Set Default Proof Using "All".

(** A page keeps what it showed: what is new is sorted after it. *)
Lemma page_grows product where_ :
  appended db db' product → (∀ e, where_ e = true → e.(Entry_ProductID) = product) → page db where_ ⊆ page db' where_.
Proof.
  intros Happ Hprod. set (old := filter (λ e, where_ e = true) (rows db.(product_knowledge_entries))).
  set (all := filter (λ e, where_ e = true) (rows db'.(product_knowledge_entries))).
  set (new := filter (λ e, e ∉ rows db.(product_knowledge_entries)) all).
  assert (∀ x, wf x → NoDup (filter (λ e, where_ e = true) (rows x.(product_knowledge_entries)))) as Hnd.
  { intros x Hx. apply NoDup_filter. destruct (keyed_rows _ _ _ (wf_entries _ Hx)) as [? _]. by eapply NoDup_fmap_1. }
  assert (all ≡ₚ old ++ new) as Hall.
  { apply NoDup_Permutation; [by apply Hnd| |].
    - apply NoDup_app. split_and!; [by apply Hnd| |by apply NoDup_filter, Hnd].
      intros e [_ He]%list_elem_of_filter [Hne _]%list_elem_of_filter. done.
    - intros e. rewrite elem_of_app. unfold new, all, old. rewrite !list_elem_of_filter.
      destruct (decide (e ∈ rows db.(product_knowledge_entries))) as [He|He]; [|tauto].
      pose proof (rows_mono _ _ _ (extends_entries _ _ Hext) He). tauto. }
  assert (ids_distinct Entry_ID all) as Hid.
  { intros x y [_ Hx]%list_elem_of_filter [_ Hy]%list_elem_of_filter. by apply (keyed_inj _ _ _ _ _ (wf_entries _ Hwf')). }
  unfold page, selection. fold old all. rewrite (by_creation_perm _ _ _ _ Hid Hall), by_creation_app.
  - rewrite take_app. set_solver.
  - intros x y Hx Hy. apply Hid; by rewrite Hall.
  - intros x y [Hwx Hx]%list_elem_of_filter [Hy [Hwy Hy']%list_elem_of_filter]%list_elem_of_filter. apply (Happ x y); auto.
Qed.

(** Nothing of a product is ever changed, whatever is recorded when. *)
Lemma store_agrees product : agrees (store_of db) (store_of db') product.
Proof.
  split; simpl.
  - intros revision c Hc. rewrite (configurationRevisionTx_wf _ Hwf) in Hc. rewrite (configurationRevisionTx_wf _ Hwf').
    injection Hc as Hc. f_equal. eapply lookup_weaken; [exact Hc|apply Hext].
  - intros c Hc. rewrite (currentConfigurationTx_wf _ Hwf) in Hc. rewrite (configurationRevisionTx_wf _ Hwf').
    injection Hc as [<- Hc]%latest_in%list_elem_of_filter. f_equal.
    apply (keyed_lookup _ _ _ _ (wf_configurations _ Hwf)) in Hc. eapply lookup_weaken; [exact Hc|apply Hext].
  - intros l l' e e' [w ->]%(read_page _ Hwf) [w' ->]%(read_page _ Hwf') [_ He]%elem_of_page [_ He']%elem_of_page.
    apply (keyed_inj _ _ _ _ _ (wf_entries _ Hwf')); [|done]. eapply rows_mono, He. apply Hext.
Qed.

Lemma store_grown product : appended db db' product → grown (store_of db) (store_of db') product.
Proof.
  intros Happ. split; simpl.
  - intros p Hp. rewrite (currentProductTx_wf _ Hwf) in Hp. injection Hp as [Hid Hp]%latest_in%list_elem_of_filter.
    rewrite (currentProductTx_wf _ Hwf'). assert (p ∈ rows db'.(product_revisions)) as Hp' by (eapply rows_mono, Hp; apply Hext).
    pose proof (latest_row_spec Product_Revision (filter (λ p, p.(Product_ID) = product) (rows db'.(product_revisions)))) as Hl.
    assert (p ∈ filter (λ p, p.(Product_ID) = product) (rows db'.(product_revisions))) as Hin by (by apply list_elem_of_filter).
    destruct (latest _ _) as [p'|]; [|rewrite Hl in Hin; by apply not_elem_of_nil in Hin].
    destruct Hl as [[Hid' Hq]%list_elem_of_filter Hmax]. exists p'. split; [done|].
    apply (wf_lineage _ Hwf'); [done..|congruence|by apply Hmax].
  - apply (agrees_configuration _ _ _ (store_agrees product)).
  - apply (agrees_current _ _ _ (store_agrees product)).
  - intros scope owner l (rank & Hr & ->)%(OwnedKnowledge_wf _ Hwf). exists (page db' (owned_by product rank owner)).
    rewrite (OwnedKnowledge_wf _ Hwf'). split; [by exists rank|]. apply (page_grows product); [done|]. intros e ?%owned_by_true. tauto.
  - intros scope l (rank & Hr & ->)%(WidelyPromoted_wf _ Hwf). exists (page db' (widely_promoted product rank)).
    rewrite (WidelyPromoted_wf _ Hwf'). split; [by exists rank|]. apply (page_grows product); [done|]. intros e ?%widely_promoted_true. tauto.
  - intros scope audience l (Hk & ->)%(AudiencedPromoted_wf _ Hwf). exists (page db' (promoted_for product scope audience)).
    rewrite (AudiencedPromoted_wf _ Hwf'). split; [done|]. apply (page_grows product); [done|]. intros e ?%promoted_for_true. tauto.
Qed.
End growth.

(* ------------------------------------------------------------------ *)
(** * Provenance *)

(** An entry goes back, promotion by promotion, to one somebody wrote. *)
Inductive traces db : KnowledgeEntry → KnowledgeEntry → Prop :=
  | traces_authored e : ¬ promoted e → traces db e e
  | traces_promoted e r source root :
      promoted e → recorded db r → audits r e → below source.(Entry_Scope) e.(Entry_Scope) → sources source e r →
      db.(product_knowledge_entries) !! r.(Promotion_SourceEntryID) = Some source → traces db source root → traces db e root.

Lemma sourced_below db e r source : valid_promotion r → audits r e → sources source e r → below source.(Entry_Scope) e.(Entry_Scope).
Proof. intros Hr Ha (_ & -> & _). rewrite (audits_scope _ _ Ha). apply Hr. Qed.

Lemma rank_nonneg scope n : ScopeRank scope = Some n → (0 <= n)%Z.
Proof. unfold ScopeRank. repeat case_bool_decide; intros [= <-]; lia. Qed.

(** C30: Everything the database holds about a product was said by somebody: an
    entry that was not written directly traces, through recorded promotions
    that each go strictly up the scopes, to an entry that was, about the same
    product, in the same words. *)
Theorem promoted_knowledge_traces db e :
  reachable db → e ∈ rows db.(product_knowledge_entries) →
  ∃ root, traces db e root ∧ ¬ promoted root ∧ root ∈ rows db.(product_knowledge_entries)
    ∧ root.(Entry_ProductID) = e.(Entry_ProductID) ∧ root.(Entry_Statement) = e.(Entry_Statement).
Proof.
  intros Hwf%reachable_wf. destruct (ScopeRank e.(Entry_Scope)) as [n|] eqn:Hn.
  - revert e Hn. induction n as [n IH] using (well_founded_induction (Z.lt_wf 0)). intros e Hn He.
    destruct (decide (promoted e)) as [Hp|Hp]; [|by exists e; split_and!; [by apply traces_authored|..]].
    destruct (wf_sourced _ Hwf e He Hp) as (r & source & Hrec & Hr & Ha & Hsrc & Hs).
    pose proof (sourced_below db _ _ _ Hr Ha Hs) as Hb. destruct Hb as (m & k & Hm & Hk & Hlt).
    assert (k = n) as -> by congruence.
    destruct (IH m) with (e := source) as (root & Ht & Hroot & Hin & Hid & Hst); [pose proof (rank_nonneg _ _ Hm); lia|done|apply elem_of_rows; eauto|].
    pose proof (sourced_below db _ _ _ Hr Ha Hs) as Hb. destruct Hs as (Hs1 & Hs2 & Hs3 & Hs4).
    exists root. split_and!; [by eapply traces_promoted|done|done|congruence|congruence].
  - intros He. destruct (keyed_rows _ _ _ (wf_entries _ Hwf)) as [_ Hv]. pose proof (entry_scope _ (Hv e He)) as [k Hk]%KnownScope_rank. congruence.
Qed.

(** A unit admitted to a batch is bound to the product its graph belongs to,
    whatever was associated before or after: the batch pins that product, and
    pins none when the graph belongs to none. *)
Theorem admitted_units_bound db id b origin :
  reachable db → OrchestrationBatch db id = Ok (Some b) → b.(Batch_Origin) = Some origin →
  default "" (Pin_ProductID <$> b.(Batch_Product)) = default "" (AssociatedProduct db origin.(Origin_GraphID)).
Proof.
  intros Hwf%reachable_wf Hb Ho. apply decode_found_ok in Hb; [|intros x y Hd; apply check_then in Hd as [_ Hd]; congruence].
  pose proof (wf_bound _ Hwf b ltac:(apply elem_of_rows; eauto)) as Hbound. unfold bound, requireBatchProductBinding in Hbound.
  rewrite Ho in Hbound. by apply refuse_if_ok, negb_false_iff, bool_decide_eq_true in Hbound.
Qed.

(* ------------------------------------------------------------------ *)
(** * Contexts and pins *)

(** What the database learned, and whatever else was recorded, since a unit
    was admitted does not change the context its pin resolves to. *)
Lemma pinned_context_stable db db' request c p :
  reachable db → rtc step db db' → appended db db' request.(Request_ProductID) →
  compile_product_context (store_of db) request = Ok c → NewContextPin c = Ok p →
  resolve_pin p (store_of db') request = Ok (MkProductContext c.(Compiled_ProductID) c.(Compiled_Scope)
    (sortedCopy c.(Compiled_Repositories)) c.(Compiled_Configuration) (sort_by Entry_ID c.(Compiled_Knowledge))).
Proof.
  intros Hr Hs Happ Hc Hp. assert (wf db) as Hwf by (by apply reachable_wf). assert (wf db') as Hwf' by (apply reachable_wf; unfold reachable in *; by etrans).
  apply (resolve_pin_stable (store_of db)); [by apply store_laws..|done|done|]. apply store_grown; [done..|by apply steps_extend|done].
Qed.

(** Without an order of recording the pin resolves to that context or is
    refused, unless a pin of fewer entries has its identity. *)
Lemma pinned_context_exact db db' request c p r :
  reachable db → rtc step db db' → compile_product_context (store_of db) request = Ok c → NewContextPin c = Ok p →
  resolve_pin p (store_of db') request = Ok r →
  r = MkProductContext c.(Compiled_ProductID) c.(Compiled_Scope) (sortedCopy c.(Compiled_Repositories)) c.(Compiled_Configuration)
    (sort_by Entry_ID c.(Compiled_Knowledge)) ∨ pin_collision p.
Proof.
  intros Hr Hs Hc Hp Hres. assert (wf db) as Hwf by (by apply reachable_wf). assert (wf db') as Hwf' by (apply reachable_wf; unfold reachable in *; by etrans).
  pose proof (store_laws _ Hwf). pose proof (store_laws _ Hwf'). apply (resolve_pin_exact (store_of db) (store_of db') request); [|done..].
  apply store_agrees; [done..|by apply steps_extend].
Qed.

(** A reader below the product sees no widely promoted knowledge, so a context
    is put together from at most three pages. *)
Lemma raw_scope_widely db scope e rank product :
  wf db → ownsRawScope scope = true → ScopeRank scope = Some rank → e ∉ page db (widely_promoted product rank).
Proof.
  intros Hwf Hraw Hrank [Hw He]%elem_of_page. apply widely_promoted_true in Hw as (_ & Hp & Haud & Hle).
  destruct (wf_sourced _ Hwf e He Hp) as (r & source & _ & Hr & Ha & _ & _).
  destruct (promotion_ladder _ Hr) as (m & n & Hm & Hn & Hlt). rewrite <- (audits_scope _ _ Ha) in Hn. apply rank_nonneg in Hm.
  unfold rank_at_most in Hle. rewrite Hn in Hle. apply Z.leb_le in Hle.
  assert (rank <= 1)%Z as Hone by (apply either_scope in Hraw as [-> | ->]; injection Hrank as <-; lia).
  assert (e.(Entry_Scope) = ScopeWorkUnit) as Hscope.
  { unfold ScopeRank in Hn. case_bool_decide; [injection Hn as <-; lia|]. case_bool_decide; [done|]. repeat (case_bool_decide; [injection Hn as <-; lia|]). done. }
  destruct (keyed_rows _ _ _ (wf_entries _ Hwf)) as [_ Hv]. pose proof (entry_shape _ (Hv e He)) as Hshape. rewrite decide_True in Hshape by done.
  destruct Hshape as (_ & _ & [Hb _]). specialize (Hb (or_introl Hscope)). rewrite Haud in Hb. destruct Hb as [Hb _]. done.
Qed.

Lemma length_page db where_ : (length (page db where_) <= 200)%nat.
Proof. unfold page, MaxContextKnowledgeEntries. rewrite length_take. lia. Qed.

Lemma audienced_length db product scope audience l :
  wf db → audienced (store_of db) product scope audience = Ok l → (length l <= 200)%nat.
Proof.
  intros Hwf. rewrite (audienced_ok _ (StoreLaws0 := store_laws _ Hwf)). intros [[_ Hl]|[_ ->]]; [|simpl; lia].
  apply (AudiencedPromoted_wf _ Hwf) in Hl as [_ ->]. apply length_page.
Qed.

Lemma compiled_length db request c :
  wf db → compile_product_context (store_of db) request = Ok c → (length c.(Compiled_Knowledge) <= maxPinnedKnowledgeEntries)%nat.
Proof.
  intros Hwf. rewrite (compile_product_context_ok _ (StoreLaws0 := store_laws _ Hwf)).
  intros (_ & _ & _ & current & cfg & owned & widely & unit & feature & _ & _ & Hown & Hw & Hu & Hf & ->). simpl in *.
  rewrite !length_app. apply (audienced_length _ _ _ _ _ Hwf) in Hu, Hf. apply (WidelyPromoted_wf _ Hwf) in Hw as (rank & Hrank & ->).
  assert (length owned + length (page db (widely_promoted request.(Request_ProductID) rank)) <= 200)%nat as Hboth.
  { destruct (ownsRawScope _) eqn:Hraw; [|subst owned; simpl; apply length_page].
    apply (OwnedKnowledge_wf _ Hwf) in Hown as (rank' & _ & ->). pose proof (length_page db (owned_by request.(Request_ProductID) rank' request.(Request_OwnerRef))).
    destruct (page db (widely_promoted _ _)) as [|e l] eqn:Hpage; [simpl; lia|]. exfalso.
    apply (raw_scope_widely db _ e _ request.(Request_ProductID) Hwf Hraw Hrank). rewrite Hpage. by left. }
  change maxPinnedKnowledgeEntries with 600%nat. lia.
Qed.

(** What a context is compiled from is fit to be pinned. *)
Lemma compiled_valid db request c :
  wf db → compile_product_context (store_of db) request = Ok c →
  blank c.(Compiled_ProductID) = false
  ∧ (1 <= length c.(Compiled_Repositories) <= 64)%nat ∧ NoDup c.(Compiled_Repositories)
  ∧ Forall (bounded maxRepositoryBytes) c.(Compiled_Repositories)
  ∧ (∀ k, c.(Compiled_Configuration) = Some k → valid_configuration k)
  ∧ ∀ e, e ∈ c.(Compiled_Knowledge) → valid_entry e.
Proof.
  intros Hwf Hc. pose proof (store_laws _ Hwf) as Hlaws. assert (∀ e, e ∈ c.(Compiled_Knowledge) → valid_entry e) as Hk.
  { intros e He. destruct (compiled_knowledge _ _ _ _ Hc He) as (_ & _ & l & [where_ ->]%(read_page _ Hwf) & [_ Hin]%elem_of_page).
    destruct (keyed_rows _ _ _ (wf_entries _ Hwf)) as [_ Hv]. auto. }
  apply compile_product_context_ok in Hc; [|done].
  destruct Hc as (Hid & _ & _ & current & cfg & owned & widely & unit & feature & Hcur & Hcfg & _ & _ & _ & _ & ->). simpl in *.
  rewrite (currentProductTx_wf _ Hwf) in Hcur. injection Hcur as [_ Hcur]%latest_in%list_elem_of_filter.
  destruct (keyed_rows _ _ _ (wf_products _ Hwf)) as [_ Hp]. destruct (Hp _ Hcur) as [Hv _].
  destruct (product_repositories _ Hv) as (? & ? & ?). split_and!; try done; [lia..|]. intros k ->.
  assert (∀ product revision, configurationRevisionTx db product revision = Ok (Some k) → valid_configuration k) as Hrev.
  { intros product revision. rewrite (configurationRevisionTx_wf _ Hwf). intros [= Hrow]. by apply (wf_configurations _ Hwf) in Hrow as [_ ?]. }
  unfold configured in Hcfg. destruct (Request_ConfigurationRevision request) as [n|].
  - destruct (n =? 0)%Z; [done|]. destruct Hcfg as (k' & [= <-] & Hk'). exact (Hrev _ _ Hk').
  - simpl in Hcfg. rewrite (currentConfigurationTx_wf _ Hwf) in Hcfg. injection Hcfg as [_ Hin]%latest_in%list_elem_of_filter.
    destruct (keyed_rows _ _ _ (wf_configurations _ Hwf)) as [_ Hall]. auto.
Qed.

Lemma sorted_unique_length l : (length (sorted_unique l) <= length l)%nat.
Proof.
  apply submseteq_length. apply NoDup_submseteq; [apply sorted_unique_NoDup|]. intros x. apply elem_of_sorted_unique.
Qed.

Lemma pin_identity_digest p digest : pin_identity (with_context_digest p digest) = pin_identity p.
Proof. done. Qed.

(** Whatever a product has, the context compiled from it can be pinned: its
    repositories, its configuration and its knowledge are within the bounds of
    a pin.  Only text that has no canonical form stops it. *)
Theorem compiled_context_pinnable db request c :
  reachable db → compile_product_context (store_of db) request = Ok c →
  (∃ p, NewContextPin c = Ok p) ∨ (∃ e, NewContextPin c = Err (PinDigestRefused e)).
Proof.
  intros Hwf%reachable_wf Hc. pose proof (compiled_length _ _ _ Hwf Hc) as Hlen.
  destruct (compiled_valid _ _ _ Hwf Hc) as (Hid & Hrepos & Hnd & Hb & Hcfg & Hk). unfold NewContextPin.
  destruct (pinned_configuration _) as [[revision digest]|e] eqn:Hpc; simpl.
  2: { right. unfold pinned_configuration in Hpc. destruct (Compiled_Configuration c); [|done].
       destruct (configuration_RevisionDigest _); simpl in Hpc; [done|]. injection Hpc as <-. eauto. }
  destruct (pin_identity _) as [d|e] eqn:Hd; simpl; [|eauto]. left. eexists. apply check_then. split; [|done].
  unfold validate_pin. rewrite !check_then, !refuse_if_ok. simpl. split_and!.
  - done.
  - unfold sortedCopy. rewrite (Permutation_length (sort_strings_perm _)), orb_false_iff, Nat.eqb_neq, Nat.ltb_ge. unfold MaxProductRepositories. lia.
  - unfold sortedCopy. apply negb_false_iff, strictly_sorted_distinct; [apply sort_strings_sorted|by rewrite sort_strings_perm|].
    intros r Hr. rewrite elem_of_sort_strings in Hr. rewrite Forall_forall in Hb. by destruct (Hb r Hr).
  - apply Z.ltb_ge. unfold pinned_configuration in Hpc. destruct (Compiled_Configuration c) as [k|]; [|injection Hpc as <- _; lia].
    apply rbind_ok in Hpc as (? & _ & [= <- _]). pose proof (configuration_revision _ (Hcfg k eq_refl)). lia.
  - apply negb_false_iff, eqb_true_iff. unfold pinned_configuration in Hpc. destruct (Compiled_Configuration c) as [k|]; [|by injection Hpc as <- <-].
    apply rbind_ok in Hpc as (? & Hdig%wrap_ok%Digest_len & [= <- <-]). pose proof (configuration_revision _ (Hcfg k eq_refl)).
    rewrite (proj2 (Z.eqb_neq _ 0)), bool_decide_false; [done|by intros ->|lia].
  - apply Nat.ltb_ge. etrans; [apply sorted_unique_length|]. by rewrite length_fmap.
  - apply negb_false_iff, strictly_sorted_distinct; [apply sorted_unique_sorted|apply sorted_unique_NoDup|].
    intros i Hi. rewrite elem_of_sorted_unique, list_elem_of_fmap in Hi. destruct Hi as (e & -> & He). by destruct (entry_id _ (Hk e He)).
  - rewrite pin_identity_digest, Hd. simpl. by rewrite refuse_if_ok, negb_false_iff, bool_decide_eq_true.
Qed.
End facts.
