(* ===== verification/ProductStoreExample.v ===== *)
(** A product in use: a discovery, its promotion, an associated graph and a
    unit admitted with a pinned context, each written through the store.  The
    theorems of the product layer apply to it. *)

From S2P Require Import Prelude GoStrings Sha256 Domain Canonical Item WorkGraph Projection Handoff GoTime Product Knowledge ProductContext Batch Database ProductStore ProductStoreFacts.
From stdpp Require Import relations options.

#[local] Existing Instances range_forward plain_canonicalizer ascii_unicode.

Definition example_product : Product :=
  ok_or (MkProduct "" "" "" 0 [] "" 0)
    (product_Compose (MkProductProposal "Core" 1 [first_revision.(Graph_Repository)]) "operator" 1000000000).
Definition example_configuration : ProductConfiguration :=
  MkConfiguration ConfigurationSchemaVersion example_product.(Product_ID) 1 None "default" (<["tone" := "terse"]> ∅) "operator" 1000000000.

Definition no_entry : KnowledgeEntry := MkEntry "" "" "" "" "" "" "" (MkProvenance "" "") None 0.
Definition discovery (unit statement : string) (at_ : Z) : KnowledgeEntry :=
  ok_or no_entry (NewKnowledgeEntry example_product.(Product_ID) ScopeWorkUnit (WorkUnitOwnerRef first_revision.(Graph_ID) unit)
    statement (MkProvenance ProvenanceAgentDiscovery "worker") at_).
Definition example_promotion : KnowledgeEntry * KnowledgePromotion :=
  ok_or (no_entry, MkPromotion "" "" "" "" (MkProvenance "" "") "" "" "" "" 0)
    (Promote (discovery "build" "The build needs network access." 2000000000) ScopeProduct "" "operator" 3000000000).
Definition example_association : GraphAssociation := MkAssociation example_product.(Product_ID) first_revision.(Graph_ID) 4000000000.

(** The writes one after the other, stopping at the first refused. *)
Definition next {A} (write : Database → result StoreError (A * Database)) (db : option Database) : option Database :=
  match db with
  | Some db => match write db with Ok (_, db) => Some db | Err _ => None end
  | None => None
  end.
Definition script (db : option Database) : option Database :=
  let db := next (AdoptProductRevision example_product) db in
  let db := next (AdoptProductConfigurationRevision example_configuration) db in
  let db := next (RecordKnowledgeEntry (discovery "build" "The build needs network access." 2000000000)) db in
  let db := next (RecordPromotion example_promotion.1 example_promotion.2) db in
  let db := next (AdoptWorkGraphRevision first_revision) db in
  next (AssociateWorkGraph example_association) db.


Definition example_database : Database := Eval vm_compute in default empty_database (script (Some empty_database)).

(** What the unit reads, and the pin it is admitted with. *)
Definition example_request : ContextRequest :=
  MkRequest example_product.(Product_ID) ScopeWorkUnit (WorkUnitOwnerRef first_revision.(Graph_ID) "build") "" None.
Definition example_context : ProductContext :=
  ok_or (MkProductContext "" "" [] None []) (compile_product_context (store_of example_database) example_request).
Definition example_pin : ContextPin := ok_or (MkContextPin "" [] 0 "" [] "") (NewContextPin example_context).

Definition example_unit_origin : BatchOrigin := MkBatchOrigin first_revision.(Graph_ID) "build" [] "" 0 "".
Definition example_batch : Batch :=
  MkBatch BatchSchemaVersion (ok_or "" (WorkUnitBatchID "owner/repo" "agent" 1 example_unit_origin)) "owner/repo" "agent" "alice"
    5000000000 [MkBatchItem 1 "run-1"] (Some example_unit_origin) (Some example_pin).

(** Afterwards the unit is admitted and another discovery is made. *)
Definition script_later (db : option Database) : option Database :=
  let db := next (CreateOrchestrationBatch example_batch) db in
  next (RecordKnowledgeEntry (discovery "build" "The cache is cold." 6000000000)) db.
Definition later_database : Database := Eval vm_compute in default empty_database (script_later (Some example_database)).

Lemma next_rtc {A} (write : Database → result StoreError (A * Database)) start db :
  (∀ x a y, write x = Ok (a, y) → step x y) → (∀ x, db = Some x → rtc step start x) → ∀ y, next write db = Some y → rtc step start y.
Proof.
  intros Hw Hdb y Hy. destruct db as [x|]; [|done]. simpl in Hy. destruct (write x) as [[a z]|] eqn:Hx; [|done]. injection Hy as ->.
  eapply rtc_r; [by apply Hdb|by eapply Hw].
Qed.

Lemma script_reachable db : script (Some empty_database) = Some db → reachable db.
Proof.
  unfold script, reachable. cbv zeta. revert db.
  apply next_rtc; [intros x a y; apply step_association|].
  apply next_rtc; [intros x [a n] y; apply step_graph|].
  apply next_rtc; [intros x a y; apply step_promotion|].
  apply next_rtc; [intros x a y; apply step_entry|].
  apply next_rtc; [intros x [a n] y; apply step_configuration|].
  apply next_rtc; [intros x [a n] y; apply step_product|].
  by intros x [= ->].
Qed.
Lemma script_later_steps start db : script_later (Some start) = Some db → rtc step start db.
Proof.
  unfold script_later. cbv zeta. revert db.
  apply next_rtc; [intros x a y; apply step_entry|].
  apply next_rtc; [intros x [a n] y; apply step_batch|].
  by intros x [= ->].
Qed.

Lemma script_ok : script (Some empty_database) = Some example_database.
Proof. vm_cast_no_check (eq_refl (Some example_database)). Qed.
Lemma script_later_ok : script_later (Some example_database) = Some later_database.
Proof. vm_cast_no_check (eq_refl (Some later_database)). Qed.

Lemma example_reachable : reachable example_database.
Proof. apply script_reachable, script_ok. Qed.
Lemma later_steps : rtc step example_database later_database.
Proof. apply script_later_steps, script_later_ok. Qed.
Lemma later_reachable : reachable later_database.
Proof. unfold reachable. etrans; [apply example_reachable|apply later_steps]. Qed.

Lemma example_context_ok : compile_product_context (store_of example_database) example_request = Ok example_context.
Proof. apply ok_or_eq. vm_compute. reflexivity. Qed.
Lemma example_pin_ok : NewContextPin example_context = Ok example_pin.
Proof. apply ok_or_eq. vm_compute. reflexivity. Qed.

(** The test of [appended] on two tables. *)
Definition appended_now (old all : list KnowledgeEntry) : bool :=
  forallb (λ e', bool_decide (e' ∈ old) || forallb (λ e, UnixNano e.(Entry_CreatedAt) <? UnixNano e'.(Entry_CreatedAt))%Z old) all.

Lemma appended_now_ok db db' product :
  appended_now (rows db.(product_knowledge_entries)) (rows db'.(product_knowledge_entries)) = true → appended db db' product.
Proof.
  unfold appended_now. intros Hall e e' He He' Hnew _ _. rewrite forallb_forall in Hall. apply list_elem_of_In in He, He'.
  specialize (Hall e' He'). rewrite bool_decide_false in Hall by done. simpl in Hall. rewrite forallb_forall in Hall.
  by apply Z.ltb_lt, Hall.
Qed.

Example pinned_context_kept :
  length (rows later_database.(product_knowledge_entries)) = 3%nat
  ∧ ∃ c, resolve_pin example_pin (store_of later_database) example_request = Ok c ∧ length c.(Compiled_Knowledge) = 1%nat.
Proof.
  split; [vm_compute; reflexivity|]. eexists. split.
  - refine (pinned_context_stable example_database later_database example_request example_context example_pin
      example_reachable later_steps _ example_context_ok example_pin_ok).
    apply appended_now_ok. vm_compute. reflexivity.
  - vm_compute. reflexivity.
Defined.

Lemma compiled_context_pinnable_witness : is_ok (NewContextPin example_context) = true.
Proof.
  destruct (compiled_context_pinnable example_database example_request example_context example_reachable example_context_ok)
    as [[p Hp]|[e He]]; [by rewrite Hp|]. pose proof example_pin_ok as Hok. rewrite He in Hok. discriminate.
Defined.

Lemma promoted_knowledge_traces_witness :
  ∃ root, traces example_database example_promotion.1 root ∧ root.(Entry_Statement) = "The build needs network access.".
Proof.
  destruct (promoted_knowledge_traces example_database example_promotion.1 example_reachable) as (root & Ht & _ & _ & _ & Hs).
  - apply (bool_decide_eq_true_1 _). vm_compute. reflexivity.
  - exists root. split; [exact Ht|]. rewrite Hs. vm_compute. reflexivity.
Defined.

Lemma admitted_units_bound_witness :
  bool_decide (AssociatedProduct later_database first_revision.(Graph_ID) = None) = false
  ∧ default "" (Pin_ProductID <$> example_batch.(Batch_Product)) = default "" (AssociatedProduct later_database example_unit_origin.(Origin_GraphID)).
Proof.
  split; [vm_compute; reflexivity|].
  assert (OrchestrationBatch later_database example_batch.(Batch_ID) = Ok (Some example_batch)) as Hb by (vm_compute; reflexivity).
  exact (admitted_units_bound _ _ _ _ later_reachable Hb eq_refl).
Defined.

Lemma compile_product_context_visible_witness : visible example_request (discovery "build" "The build needs network access." 2000000000).
Proof.
  pose proof (store_laws example_database (reachable_wf _ example_reachable)) as Hlaws.
  destruct (compile_product_context_visible (store_of example_database) example_request example_context example_context_ok) as (_ & Hall & _).
  apply Hall. apply (bool_decide_eq_true_1 _). vm_compute. reflexivity.
Defined.

Lemma Promote_spec_witness :
  ∃ e r, Promote (discovery "build" "The build needs network access." 2000000000) ScopeProduct "" "operator" 3000000000 = Ok (e, r)
    ∧ audits r e ∧ promoted e.
Proof.
  exists example_promotion.1, example_promotion.2. rewrite <- surjective_pairing.
  assert (Promote (discovery "build" "The build needs network access." 2000000000) ScopeProduct "" "operator" 3000000000
    = Ok example_promotion) as Hp by (apply ok_or_eq; vm_compute; reflexivity).
  split; [exact Hp|]. rewrite (surjective_pairing example_promotion) in Hp.
  destruct (Promote_spec _ _ _ _ _ _ _ Hp) as [_ Ha _ _ [Hpr _] _ _]. split; [exact Ha|exact Hpr].
Defined.
