(* ===== verification/Plan.v ===== *)
(** The planning documents of [domain/plan.go]: stages, budgets, provenance,
    plans and templates, with the content digest of a plan revision. *)

From S2P Require Import Prelude GoStrings Sha256 Domain Canonical Topo.
From stdpp Require Import options.

Definition InvocationModeMutating : string := "mutating".
Definition InvocationModeNonMutatingPlanning : string := "non_mutating_planning".

Definition SourceOperatorConfig : string := "operator_config".
Definition SourceOperatorFile : string := "operator_file".

Record ArtifactSource := MkArtifactSource {
  Source_Type : string;
  Source_Location : string
}.

(* ------------------------------------------------------------------ *)
(** * Budgets *)

Record PlanBudgetEnvelope := MkEnvelope {
  Envelope_MaxChildRuns : Z;
  Envelope_MaxConcurrency : Z;
  Envelope_MaxProviderInvocations : Z;
  Envelope_MaxWallSeconds : Z;
  Envelope_MaxCostMicros : option Z
}.

Record StageBudget := MkStageBudget {
  Budget_MaxExecutionAttempts : Z;
  Budget_MaxProviderInvocations : Z;
  Budget_MaxWallSeconds : Z
}.

Definition no_budget : StageBudget := MkStageBudget 0 0 0.

Record PlanConsumption := MkConsumption {
  Consumed_ChildRuns : Z;
  Consumed_ProviderInvocations : Z;
  Consumed_WallSeconds : Z;
  Consumed_CostMicros : option Z;
  Consumed_CostKnown : bool
}.

(* ------------------------------------------------------------------ *)
(** * Templates *)

Record TemplateStage := MkTemplateStage {
  Template_StageID : string;
  Template_Kind : string;
  Template_Role : string;
  Template_ExecutionKind : string;
  Template_Objective : string;
  Template_DependsOn : list string;
  Template_RequiresCapabilities : list string;
  Template_Independence : option IndependenceRequirement;
  Template_Profile : string;
  Template_ContextPolicy : string;
  Template_When : option PolicyCondition;
  Template_RequiredClaims : list string;
  Template_Action : option Action
}.

Record EngineeringPlanTemplate := MkTemplate {
  Template_SchemaVersion : string;
  Template_ID : string;
  Template_Version : Z;
  Template_Digest : string;
  Template_Description : string;
  Template_Stages : list TemplateStage;
  Template_BudgetEnvelope : option PlanBudgetEnvelope;
  Template_Source : ArtifactSource
}.

(* ------------------------------------------------------------------ *)
(** * Plans *)

Record PlanStage := MkStage {
  Stage_ID : string;
  Stage_Kind : string;
  Stage_Role : string;
  Stage_ExecutionKind : string;
  Stage_AcceptanceFeature : string;
  Stage_Objective : string;
  Stage_DependsOn : list string;
  Stage_RequiresCapabilities : list string;
  Stage_Independence : option IndependenceRequirement;
  Stage_TrustRequirement : string;
  Stage_InvocationMode : string;
  Stage_Profile : string;
  Stage_ContextPolicy : string;
  Stage_RequiredClaims : list string;
  Stage_Action : option Action;
  Stage_SubstitutesRole : string;
  Stage_Budget : StageBudget;
  Stage_Rationale : string
}.

(** [Invocation] is carried and digested, never read by the planner: it is the
    tree of the observation. *)
Record PlanReasoningProvenance := MkReasoning {
  Reasoning_AgentID : string;
  Reasoning_ProviderKind : string;
  Reasoning_VendorFamily : string;
  Reasoning_TrustMode : string;
  Reasoning_Model : string;
  Reasoning_ProfileID : string;
  Reasoning_InvocationMode : string;
  Reasoning_ProviderMode : string;
  Reasoning_WorkspaceDigestBefore : string;
  Reasoning_WorkspaceDigestAfter : string;
  Reasoning_WorkspaceUnchanged : bool;
  Reasoning_Invocation : option GoValue
}.

Record TemplateRef := MkTemplateRef {
  TemplateRef_ID : string;
  TemplateRef_Version : Z;
  TemplateRef_Digest : string
}.

Record PlanProvenance := MkPlanProvenance {
  PlanProvenance_CompilerVersion : string;
  PlanProvenance_ProjectModel : ObjectRevision;
  PlanProvenance_Policy : ObjectRevision;
  PlanProvenance_Contract : ObjectRevision;
  PlanProvenance_Template : option TemplateRef;
  PlanProvenance_Reasoning : option PlanReasoningProvenance;
  PlanProvenance_PreviousRevision : option Z;
  PlanProvenance_ProposalID : string
}.

Record EngineeringPlan := MkPlan {
  Plan_SchemaVersion : string;
  Plan_ID : string;
  Plan_Revision : Z;
  Plan_Digest : string;
  Plan_Objective : string;
  Plan_Subject : Subject;
  Plan_BudgetEnvelope : PlanBudgetEnvelope;
  Plan_Stages : list PlanStage;
  Plan_Provenance : PlanProvenance
}.

#[export] Instance PlanStage_node : Node PlanStage := {| node_id := Stage_ID; node_deps := Stage_DependsOn |}.

(** A stage with one field replaced, as [stage.DependsOn = ...] leaves it. *)
Definition stage_with_id (s : PlanStage) (id : string) : PlanStage :=
  let '(MkStage _ b c d e f g h i j k l m n o p q r) := s in MkStage id b c d e f g h i j k l m n o p q r.
Definition stage_with_feature (s : PlanStage) (feature : string) : PlanStage :=
  let '(MkStage a b c d _ f g h i j k l m n o p q r) := s in MkStage a b c d feature f g h i j k l m n o p q r.
Definition stage_with_objective (s : PlanStage) (objective : string) : PlanStage :=
  let '(MkStage a b c d e _ g h i j k l m n o p q r) := s in MkStage a b c d e objective g h i j k l m n o p q r.
Definition stage_with_deps (s : PlanStage) (dependsOn : list string) : PlanStage :=
  let '(MkStage a b c d e f _ h i j k l m n o p q r) := s in MkStage a b c d e f dependsOn h i j k l m n o p q r.
Definition stage_with_capabilities (s : PlanStage) (capabilities : list string) : PlanStage :=
  let '(MkStage a b c d e f g _ i j k l m n o p q r) := s in MkStage a b c d e f g capabilities i j k l m n o p q r.
Definition stage_with_independence (s : PlanStage) (independence : option IndependenceRequirement) : PlanStage :=
  let '(MkStage a b c d e f g h _ j k l m n o p q r) := s in MkStage a b c d e f g h independence j k l m n o p q r.
Definition stage_with_trust (s : PlanStage) (trust : string) : PlanStage :=
  let '(MkStage a b c d e f g h i _ k l m n o p q r) := s in MkStage a b c d e f g h i trust k l m n o p q r.
Definition stage_with_mode (s : PlanStage) (mode : string) : PlanStage :=
  let '(MkStage a b c d e f g h i j _ l m n o p q r) := s in MkStage a b c d e f g h i j mode l m n o p q r.
Definition stage_with_profile (s : PlanStage) (profile : string) : PlanStage :=
  let '(MkStage a b c d e f g h i j k _ m n o p q r) := s in MkStage a b c d e f g h i j k profile m n o p q r.
Definition stage_with_claims (s : PlanStage) (claims : list string) : PlanStage :=
  let '(MkStage a b c d e f g h i j k l m _ o p q r) := s in MkStage a b c d e f g h i j k l m claims o p q r.
Definition stage_with_budget (s : PlanStage) (budget : StageBudget) : PlanStage :=
  let '(MkStage a b c d e f g h i j k l m n o p _ r) := s in MkStage a b c d e f g h i j k l m n o p budget r.
Definition stage_with_rationale (s : PlanStage) (rationale : string) : PlanStage :=
  let '(MkStage a b c d e f g h i j k l m n o p q _) := s in MkStage a b c d e f g h i j k l m n o p q rationale.

(** [domain.PlanStage{ID: ..., Kind: ..., ...}] with the other fields zero. *)
Definition new_stage (id kind role : string) (dependsOn claims : list string) (action : option Action) (rationale : string) : PlanStage :=
  MkStage id kind role "" "" "" dependsOn [] None "" "" "" "" claims action "" no_budget rationale.

(** [EngineeringPlan.Stage] and [DeclaredAcceptanceFeature]. *)
Definition plan_stage (p : EngineeringPlan) (id : string) : option PlanStage :=
  snd <$> list_find (λ stage, stage.(Stage_ID) = id) p.(Plan_Stages).

Definition DeclaredAcceptanceFeature (p : EngineeringPlan) : string :=
  match list_find (λ stage, stage.(Stage_AcceptanceFeature) ≠ "") p.(Plan_Stages) with
  | Some (_, stage) => stage.(Stage_AcceptanceFeature)
  | None => ""
  end.

(** The language of [^[a-z0-9][a-z0-9-]{0,47}$]. *)
Definition feature_head (b : N) : bool := in_range 0x61 0x7A b || in_range 0x30 0x39 b.
Definition feature_tail (b : N) : bool := feature_head b || (b =? 0x2D)%N.

Definition ValidAcceptanceFeature (id : string) : bool :=
  match bytes id with
  | [] => false
  | b :: l => feature_head b && forallb feature_tail l && (length l <=? 47)
  end.

(* ------------------------------------------------------------------ *)
(** * Content identity *)

Definition action_value (a : Action) : GoValue :=
  GStruct [("type", GString a.(Action_Type)); ("target", GString a.(Action_Target))].

Definition revision_value (r : ObjectRevision) : GoValue :=
  GStruct [("id", GString r.(ObjectRevision_ID)); ("revision", GString r.(ObjectRevision_Revision))].

Definition strings_value (l : list string) : GoValue := GList (GString <$> l).

Definition omit_empty (name s : string) : list (string * GoValue) := omit_if (s ≟ "") name (GString s).
Definition omit_zero (name : string) (z : Z) : list (string * GoValue) := omit_if (z =? 0)%Z name (GInt z).
Definition omit_strings (name : string) (l : list string) : list (string * GoValue) :=
  omit_if (length l =? 0) name (strings_value l).
Definition omit_none {A} (name : string) (f : A → GoValue) (o : option A) : list (string * GoValue) :=
  match o with Some a => [(name, f a)] | None => [] end.

Definition independence_value (i : IndependenceRequirement) : GoValue :=
  GStruct ([("dimension", GString i.(Independence_Dimension))]
    ++ omit_strings "different_from" i.(Independence_DifferentFrom)
    ++ omit_if (negb i.(Independence_HumanSubstitutionPermitted)) "human_substitution_permitted"
         (GBool i.(Independence_HumanSubstitutionPermitted))).

Definition budget_value (b : StageBudget) : GoValue :=
  GStruct (omit_zero "max_execution_attempts" b.(Budget_MaxExecutionAttempts)
    ++ omit_zero "max_provider_invocations" b.(Budget_MaxProviderInvocations)
    ++ omit_zero "max_wall_seconds" b.(Budget_MaxWallSeconds)).

#[export] Instance StageBudget_eq : EqDecision StageBudget.
Proof. solve_decision. Defined.

Definition stage_value (s : PlanStage) : GoValue :=
  GStruct ([("id", GString s.(Stage_ID)); ("kind", GString s.(Stage_Kind))]
    ++ omit_empty "role" s.(Stage_Role) ++ omit_empty "execution_kind" s.(Stage_ExecutionKind)
    ++ omit_empty "acceptance_feature" s.(Stage_AcceptanceFeature) ++ omit_empty "objective" s.(Stage_Objective)
    ++ omit_strings "depends_on" s.(Stage_DependsOn)
    ++ omit_strings "requires_capabilities" s.(Stage_RequiresCapabilities)
    ++ omit_none "independence" independence_value s.(Stage_Independence)
    ++ omit_empty "trust_requirement" s.(Stage_TrustRequirement)
    ++ omit_empty "invocation_mode" s.(Stage_InvocationMode) ++ omit_empty "profile" s.(Stage_Profile)
    ++ omit_empty "context_policy" s.(Stage_ContextPolicy) ++ omit_strings "required_claims" s.(Stage_RequiredClaims)
    ++ omit_none "action" action_value s.(Stage_Action) ++ omit_empty "substitutes_role" s.(Stage_SubstitutesRole)
    ++ omit_if (s.(Stage_Budget) ≟ no_budget) "budget" (budget_value s.(Stage_Budget))
    ++ omit_empty "rationale" s.(Stage_Rationale)).

Definition envelope_value (e : PlanBudgetEnvelope) : GoValue :=
  GStruct ([("max_child_runs", GInt e.(Envelope_MaxChildRuns)); ("max_concurrency", GInt e.(Envelope_MaxConcurrency));
    ("max_provider_invocations", GInt e.(Envelope_MaxProviderInvocations))]
    ++ omit_zero "max_wall_seconds" e.(Envelope_MaxWallSeconds)
    ++ omit_none "max_cost_micros" GInt e.(Envelope_MaxCostMicros)).

Definition reasoning_value (r : PlanReasoningProvenance) : GoValue :=
  GStruct ([("agent_id", GString r.(Reasoning_AgentID)); ("provider_kind", GString r.(Reasoning_ProviderKind))]
    ++ omit_empty "vendor_family" r.(Reasoning_VendorFamily)
    ++ [("trust_mode", GString r.(Reasoning_TrustMode))]
    ++ omit_empty "model" r.(Reasoning_Model) ++ omit_empty "profile_id" r.(Reasoning_ProfileID)
    ++ [("invocation_mode", GString r.(Reasoning_InvocationMode))]
    ++ omit_empty "provider_mode" r.(Reasoning_ProviderMode)
    ++ [("workspace_digest_before", GString r.(Reasoning_WorkspaceDigestBefore));
        ("workspace_digest_after", GString r.(Reasoning_WorkspaceDigestAfter));
        ("workspace_unchanged", GBool r.(Reasoning_WorkspaceUnchanged))]
    ++ omit_none "invocation" id r.(Reasoning_Invocation)).

Definition template_ref_value (t : TemplateRef) : GoValue :=
  GStruct [("id", GString t.(TemplateRef_ID)); ("version", GInt t.(TemplateRef_Version));
    ("digest", GString t.(TemplateRef_Digest))].

Definition plan_provenance_value (p : PlanProvenance) : GoValue :=
  GStruct ([("compiler_version", GString p.(PlanProvenance_CompilerVersion));
      ("project_model", revision_value p.(PlanProvenance_ProjectModel));
      ("policy", revision_value p.(PlanProvenance_Policy)); ("contract", revision_value p.(PlanProvenance_Contract))]
    ++ omit_none "template" template_ref_value p.(PlanProvenance_Template)
    ++ omit_none "reasoning" reasoning_value p.(PlanProvenance_Reasoning)
    ++ omit_none "previous_revision" GInt p.(PlanProvenance_PreviousRevision)
    ++ omit_empty "proposal_id" p.(PlanProvenance_ProposalID)).

Definition plan_value (p : EngineeringPlan) : GoValue :=
  GStruct [("schema_version", GString p.(Plan_SchemaVersion)); ("id", GString p.(Plan_ID));
    ("revision", GInt p.(Plan_Revision)); ("digest", GString p.(Plan_Digest)); ("objective", GString p.(Plan_Objective));
    ("subject", GStruct [("repository", GString p.(Plan_Subject).(Subject_Repository));
                         ("revision", GString p.(Plan_Subject).(Subject_Revision))]);
    ("budget_envelope", envelope_value p.(Plan_BudgetEnvelope));
    ("stages", GList (stage_value <$> p.(Plan_Stages))); ("provenance", plan_provenance_value p.(Plan_Provenance))].

Definition with_plan_digest (p : EngineeringPlan) (digest : string) : EngineeringPlan :=
  MkPlan p.(Plan_SchemaVersion) p.(Plan_ID) p.(Plan_Revision) digest p.(Plan_Objective) p.(Plan_Subject)
    p.(Plan_BudgetEnvelope) p.(Plan_Stages) p.(Plan_Provenance).

(** [EngineeringPlan.ContentDigest]: the member is cleared first, so a plan
    can carry its own identity. *)
Definition plan_ContentDigest `{!Canonicalizer} (p : EngineeringPlan) : result CanonicalError string :=
  Digest (plan_value (with_plan_digest p "")).

(** [schemas.Validate] on the JSON of a plan. *)
Class PlanSchema := { schema_EngineeringPlan : EngineeringPlan → bool }.

Definition any_plan : PlanSchema := {| schema_EngineeringPlan _ := true |}.
