(* ===== verification/Events.v ===== *)
(** The events of the journal ([runtime/runtime.go]) and the checks every
    payload goes through before it is appended ([runtime/event_payload.go],
    [runtime/journal.go]).  A payload, a [json.RawMessage], is the JSON value it
    is the text of. *)

From S2P Require Import Prelude GoStrings Sha256 Json Domain Canonical Topo GoTime Plan.
From stdpp Require Import options.

(* ------------------------------------------------------------------ *)
(** * Events *)

Record Ref := MkRef {
  Ref_ID : string;
  Ref_Revision : string
}.
#[global] Instance Ref_eq_dec : EqDecision Ref.
Proof. solve_decision. Defined.
Definition no_ref : Ref := MkRef "" "".

Record Artifact := MkArtifact {
  Artifact_Path : string;
  Artifact_SHA256 : string;
  Artifact_MediaType : string;
  Artifact_LocalOnly : bool;
  Artifact_Sanitized : bool;
  Artifact_Publishable : bool
}.

Record EngineeringEvent := MkEvent {
  Event_SchemaVersion : string;
  Event_ID : string;
  Event_RunID : string;
  Event_PlanID : string;
  Event_Sequence : Z;
  Event_Type : string;
  Event_OccurredAt : Z;
  Event_OperationID : string;
  Event_PreviousEventID : string;
  Event_PreviousEventHash : string;
  Event_Payload : option Json;
  Event_Artifacts : list Artifact;
  Event_StateBefore : string;
  Event_StateAfter : string;
  Event_EventHash : string
}.

Record Cursor := MkCursor {
  Cursor_LastSequence : Z;
  Cursor_LastEventID : string;
  Cursor_LastEventHash : string
}.

Definition with_hash (e : EngineeringEvent) (hash : string) : EngineeringEvent :=
  MkEvent e.(Event_SchemaVersion) e.(Event_ID) e.(Event_RunID) e.(Event_PlanID) e.(Event_Sequence) e.(Event_Type)
    e.(Event_OccurredAt) e.(Event_OperationID) e.(Event_PreviousEventID) e.(Event_PreviousEventHash) e.(Event_Payload)
    e.(Event_Artifacts) e.(Event_StateBefore) e.(Event_StateAfter) hash.
Definition with_after (e : EngineeringEvent) (after : string) : EngineeringEvent :=
  MkEvent e.(Event_SchemaVersion) e.(Event_ID) e.(Event_RunID) e.(Event_PlanID) e.(Event_Sequence) e.(Event_Type)
    e.(Event_OccurredAt) e.(Event_OperationID) e.(Event_PreviousEventID) e.(Event_PreviousEventHash) e.(Event_Payload)
    e.(Event_Artifacts) e.(Event_StateBefore) after e.(Event_EventHash).
Definition with_payload (e : EngineeringEvent) (payload : option Json) : EngineeringEvent :=
  MkEvent e.(Event_SchemaVersion) e.(Event_ID) e.(Event_RunID) e.(Event_PlanID) e.(Event_Sequence) e.(Event_Type)
    e.(Event_OccurredAt) e.(Event_OperationID) e.(Event_PreviousEventID) e.(Event_PreviousEventHash) payload
    e.(Event_Artifacts) e.(Event_StateBefore) e.(Event_StateAfter) e.(Event_EventHash).
(** The links the journal gives an event. *)
Definition linked (e : EngineeringEvent) (sequence : Z) (previousID previousHash before : string) : EngineeringEvent :=
  MkEvent e.(Event_SchemaVersion) e.(Event_ID) e.(Event_RunID) e.(Event_PlanID) sequence e.(Event_Type)
    e.(Event_OccurredAt) e.(Event_OperationID) previousID previousHash e.(Event_Payload)
    e.(Event_Artifacts) before e.(Event_StateAfter) e.(Event_EventHash).

Definition ref_value (r : Ref) : GoValue := GStruct [("id", GString r.(Ref_ID)); ("revision", GString r.(Ref_Revision))].
(** [json:",omitzero"]. *)
Definition omit_ref (name : string) (r : Ref) : list (string * GoValue) := omit_if (r ≟ no_ref) name (ref_value r).
Definition omit_flag (name : string) (b : bool) : list (string * GoValue) := omit_if (negb b) name (GBool b).
Definition omit_list {A} (name : string) (value : A → GoValue) (l : list A) : list (string * GoValue) :=
  omit_if (match l with [] => true | _ => false end) name (GList (value <$> l)).

Definition artifact_value (a : Artifact) : GoValue :=
  GStruct [("path", GString a.(Artifact_Path)); ("sha256", GString a.(Artifact_SHA256)); ("media_type", GString a.(Artifact_MediaType));
    ("local_only", GBool a.(Artifact_LocalOnly)); ("sanitized", GBool a.(Artifact_Sanitized)); ("publishable", GBool a.(Artifact_Publishable))].

Definition event_value (e : EngineeringEvent) : GoValue :=
  GStruct ([("schema_version", GString e.(Event_SchemaVersion)); ("id", GString e.(Event_ID)); ("run_id", GString e.(Event_RunID))]
    ++ omit_empty "plan_id" e.(Event_PlanID)
    ++ [("sequence", GInt e.(Event_Sequence)); ("type", GString e.(Event_Type)); ("occurred_at", GString (RFC3339Nano e.(Event_OccurredAt)))]
    ++ omit_empty "operation_id" e.(Event_OperationID) ++ omit_empty "previous_event_id" e.(Event_PreviousEventID)
    ++ omit_empty "previous_event_hash" e.(Event_PreviousEventHash)
    ++ omit_none "payload" GRaw e.(Event_Payload) ++ omit_list "artifacts" artifact_value e.(Event_Artifacts)
    ++ omit_empty "state_before" e.(Event_StateBefore) ++ omit_empty "state_after" e.(Event_StateAfter)
    ++ omit_empty "event_hash" e.(Event_EventHash)).

(** [json.Marshal] refuses a time outside the years of four digits. *)
Definition EventDigest `{!Canonicalizer} (e : EngineeringEvent) : result CanonicalError string :=
  validateIJSONValue (event_value (with_hash e "")) ;?
  refuse_if (negb (year_in_range e.(Event_OccurredAt))) Unencodable ;?
  Digest (event_value (with_hash e "")).

Inductive ArtifactError :=
  | RawNotLocal (path : string)
  | RawPublishable (path : string).

Definition ValidateArtifact (a : Artifact) : result ArtifactError () :=
  refuse_if (negb a.(Artifact_Sanitized) && negb a.(Artifact_LocalOnly)) (RawNotLocal a.(Artifact_Path)) ;?
  refuse_if (a.(Artifact_Publishable) && negb a.(Artifact_Sanitized)) (RawPublishable a.(Artifact_Path)).

(** ** The plan stream's events *)

Definition EventPlanProposed : string := "plan.proposed".
Definition EventPlanValidated : string := "plan.validated".
Definition EventPlanApproved : string := "plan.approved".
Definition EventPlanRejected : string := "plan.rejected".
Definition EventPlanStageAssigned : string := "plan.stage_assigned".
Definition EventPlanRunStarted : string := "plan.run_started".
Definition EventPlanStageSettled : string := "plan.stage_settled".
Definition EventPlanGateSatisfied : string := "plan.gate_satisfied".
Definition EventPlanStageReviewed : string := "plan.stage_reviewed".
Definition EventPlanBudgetConsumed : string := "plan.budget_consumed".
Definition EventPlanRevisionSuperseded : string := "plan.revision_superseded".
Definition EventPlanAttemptRefused : string := "plan.attempt_refused".
Definition EventPlanOperatorActionReceipt : string := "plan.operator_action_receipt".

Definition planEventTypes : list string :=
  [EventPlanProposed; EventPlanValidated; EventPlanApproved; EventPlanRejected; EventPlanStageAssigned; EventPlanRunStarted;
   EventPlanStageSettled; EventPlanGateSatisfied; EventPlanBudgetConsumed; EventPlanRevisionSuperseded; EventPlanAttemptRefused;
   EventPlanStageReviewed; EventPlanOperatorActionReceipt].

(* ------------------------------------------------------------------ *)
(** * Payload checks *)

(** The refusals of [event_payload.go] and what it calls, one per message. *)
Inductive PayloadError :=
  | Joined (errs : list PayloadError)
  | InvalidPayload
  | Required (name : string)
  | FieldTooLong (name : string) (n : nat)
  | ListTooLong (name : string) (n : nat)
  | ListItemTooLong (name : string) (n : nat)
  | NotPositive (name : string)
  | Negative (name : string)
  | PayloadRefused (e : CanonicalError)
  | PayloadTooLarge (n : nat)
  | ReservedEventType (kind : string)
  | UnknownEventType (kind : string)
  | EmbeddedTranscript (name : string)
  | RevisionNotPositive (revision : Z)
  | NoStages (count : Z)
  | AgentStagesExceed (agents stages : Z)
  | TemplateVersionNotPositive (version : Z)
  | UnknownValidationStatus (status : string)
  | RefusalWithoutReason
  | AttemptWithoutReason
  | TooMuchEvidence
  | ProfileVersionNotPositive (version : Z)
  | UnknownInvocationMode (mode : string)
  | UnknownPayloadRole (role : string)
  | UnknownOutcome (outcome : string)
  | SettledRevision (revision : Z)
  | OutcomeCarriesRevision (outcome : string) (revision : Z)
  | UnknownVerdict (verdict : string)
  | AcceptedWithFindings (n : nat)
  | BlockedWithoutFindings
  | UnknownGateKind (kind : string)
  | GateWithoutReference
  | NoDelta
  | CostNotStatedKnown
  | KnownCostMissing
  | NegativeCost (cost : Z)
  | SupersessionNotPositive (from_ to : Z)
  | NotEarlier (from_ to : Z)
  | AvailableWithoutDigest
  | UnavailableWithoutReason
  | UnknownProposalOrigin (origin : string)
  | BudgetUnbounded (runs concurrency invocations : Z)
  | NegativeCostCeiling (cost : Z)
  | MutatingReasoning (mode : string)
  | WorkspaceChanged
  | WorkspaceDigestsDiffer
  | ReceiptStreamMismatch
  | InvalidActionReference
  | InvalidPlanningSubject
  | InvalidPlanningSource
  | InvalidRunSubject
  | UnsupportedReceiptAction
  | ArgvTooLong (n : nat)
  | TooManyDeniedTools (n : nat)
  | TooManyEnvironment (n : nat)
  | EnvironmentNotAllowed (name : string)
  | EnvironmentIdentity (name : string)
  | EnvironmentBoth (name : string)
  | EnvironmentLiteralPath (name : string)
  | EnvironmentHashed (name : string)
  | ArgvHostPath (n : nat)
  | CacheLockIdentity
  | CacheStatusUnknown (status : string)
  | DeniedToolName (tool : string).

Notation Verdict := (result PayloadError ()).
Definition error_of (c : Verdict) : option PayloadError := match c with Err e => Some e | Ok _ => None end.

(** [errors.Join]. *)
Definition errors_Join (checks : list Verdict) : Verdict :=
  match omap error_of checks with [] => Ok tt | errs => Err (Joined errs) end.

Definition maxPayloadFieldBytes : nat := 200.
Definition maxPayloadListItems : nat := 16.
Definition maxPayloadListItemBytes : nat := 200.
Definition maxCanonicalPayloadBytes : nat := 8192.

Definition bounded (name value : string) : Verdict :=
  refuse_if (Nat.ltb maxPayloadFieldBytes (len value)) (FieldTooLong name (len value)).
Definition required (name value : string) : Verdict :=
  refuse_if (value ≟ "") (Required name) ;? bounded name value.
Definition boundedList (name : string) (values : list string) : Verdict :=
  refuse_if (Nat.ltb maxPayloadListItems (length values)) (ListTooLong name (length values)) ;?
  check_all (λ value, refuse_if (Nat.ltb maxPayloadListItemBytes (len value)) (ListItemTooLong name (len value))) values.
Definition positive (name : string) (n : Z) : Verdict := refuse_if (n <=? 0)%Z (NotPositive name).
Definition nonNegative (name : string) (n : Z) : Verdict := refuse_if (n <? 0)%Z (Negative name).
Definition requiredRef (name : string) (r : Ref) : Verdict :=
  errors_Join [required (name +:+ ".id") r.(Ref_ID); required (name +:+ ".revision") r.(Ref_Revision)].
Definition optionalRef (name : string) (r : Ref) : Verdict := if r ≟ no_ref then Ok tt else requiredRef name r.

Definition payloadValidator : Type := option Json → Verdict.
(** No payload at all is not a JSON value. *)
Definition payloadSchema {A} (d : Decoder A) (zero : A) (check : A → Verdict) : payloadValidator := λ raw,
  match raw with
  | None => Err InvalidPayload
  | Some v => match strict_decode d zero v with Some payload => check payload | None => Err InvalidPayload end
  end.
Definition optionalPayload (v : payloadValidator) : payloadValidator := λ raw,
  match raw with None => Ok tt | _ => v raw end.

Section validate.
Context `{!Canonicalizer} (eventTypes : string → bool) (eventPayloads : string → option payloadValidator).

(** [validateEventPayload] past its check of verification permits, which are
    events of runs. *)
Definition validateEventPayload (e : EngineeringEvent) : Verdict :=
  match eventPayloads e.(Event_Type) with
  | None => Err (if eventTypes e.(Event_Type) then ReservedEventType e.(Event_Type) else UnknownEventType e.(Event_Type))
  | Some validate =>
      match e.(Event_Payload) with
      | Some v =>
          let? canonical := wrap PayloadRefused (CanonicalJSON (GRaw v)) in
          refuse_if (Nat.ltb maxCanonicalPayloadBytes (len canonical)) (PayloadTooLarge (len canonical))
      | None => Ok tt
      end ;?
      validate e.(Event_Payload)
  end.
End validate.

Definition transcriptFields : list string := ["transcript"; "transcript_body"; "raw_transcript"; "stdout"; "stderr"; "raw_output"].

(** Go visits the members of an object in an order of its own; with several
    such members the refusal may name another. *)
Fixpoint walkPayload `{!GoUnicode} (v : Json) : Verdict :=
  match v with
  | JObject ms => check_all (λ m, refuse_if (transcriptFields ∋? ToLower m.1) (EmbeddedTranscript m.1) ;? walkPayload m.2) ms
  | JArray l => check_all walkPayload l
  | _ => Ok tt
  end.
Definition rejectEmbeddedTranscript `{!GoUnicode} (e : EngineeringEvent) : Verdict :=
  match e.(Event_Payload) with None => Ok tt | Some v => walkPayload v end.

(** ** What the checks mean *)

Lemma errors_Join_ok checks u : errors_Join checks = Ok u ↔ Forall (λ c, c = Ok tt) checks.
Proof.
  unfold errors_Join. destruct u. rewrite Forall_forall. split.
  - intros Hok c Hc. destruct (omap error_of checks) as [|e es] eqn:He; [|done]. destruct c as [[]|e]; [done|].
    assert (e ∈ omap error_of checks) as Hin by (apply list_elem_of_omap; by exists (Err e)). rewrite He in Hin. by apply not_elem_of_nil in Hin.
  - intros Hall. destruct (omap error_of checks) as [|e es] eqn:He; [done|]. exfalso.
    assert (e ∈ omap error_of checks) as (c & Hc & Hce)%list_elem_of_omap by (rewrite He; left). by rewrite (Hall _ Hc) in Hce.
Qed.

Lemma required_ok name value u : required name value = Ok u ↔ value ≠ "" ∧ (len value ≤ maxPayloadFieldBytes)%nat.
Proof.
  unfold required, bounded. destruct u. rewrite check_then, !refuse_if_ok, bool_decide_eq_false, Nat.ltb_ge. done.
Qed.
