(* ===== verification/Invocation.v ===== *)
(** How a provider invocation ran ([domain/invocation.go]) and the bounds of
    its durable copies ([runtime/attempt_provenance.go]). *)

From S2P Require Import Prelude GoStrings Text Json Canonical Topo GoTime Plan Events.
From stdpp Require Import options.

Record EnvironmentEntry := MkEnvironment {
  Environment_Name : string;
  Environment_Value : option string;
  Environment_SHA256 : string;
  Environment_Bounded : bool
}.

Record FrontendCacheObservation := MkFrontendCache {
  Cache_LockSHA256 : string;
  Cache_Status : string;
  Cache_NodeVersion : string;
  Cache_NpmVersion : string
}.

Record InvocationObservation := MkObservation {
  Observed_Executable : string;
  Observed_Version : string;
  Observed_SandboxMode : string;
  Observed_PermissionMode : string;
  Observed_PermissionBypass : bool;
  Observed_AuthMode : string;
  Observed_AuthModeSource : string;
  Observed_WorkspaceBound : bool;
  Observed_WorkspaceInstructionsSuppressed : bool;
  Observed_Argv : list string;
  Observed_PromptSHA256 : string;
  Observed_ProviderEnvironment : list EnvironmentEntry;
  Observed_Deadline : option Z;
  Observed_StartedAt : option Z;
  Observed_CompletedAt : option Z;
  Observed_Elapsed : Z;
  Observed_OverranDeadline : bool;
  Observed_TerminationCause : string;
  Observed_InactivityLimit : Z;
  Observed_ProgressMode : string;
  Observed_StructuredEvents : Z;
  Observed_OpenToolsAtExit : Z;
  Observed_FinalResultObserved : bool;
  Observed_PermissionDenials : Z;
  Observed_PermissionDeniedTools : list string;
  Observed_ProtocolAnomalies : Z;
  Observed_ProcessID : Z;
  Observed_GitGuarded : bool;
  Observed_FrontendCache : option FrontendCacheObservation;
  Observed_Truncated : bool
}.

Definition no_environment : EnvironmentEntry := MkEnvironment "" None "" false.
Definition no_cache : FrontendCacheObservation := MkFrontendCache "" "" "" "".
Definition no_observation : InvocationObservation :=
  MkObservation "" "" "" "" false "" "" false false [] "" [] None None None 0 false "" 0 "" 0 0 false 0 [] 0 0 false None false.

Definition environment_fields : Fields EnvironmentEntry :=
  record MkEnvironment <&> text_field "name" <&> some_field "" decode_string "value" <&> text_field "sha256" <&> flag_field "value_bounded".
Definition cache_fields : Fields FrontendCacheObservation :=
  record MkFrontendCache <&> text_field "lock_sha256" <&> text_field "status" <&> text_field "node_version" <&> text_field "npm_version".
Definition observation_fields : Fields InvocationObservation :=
  record MkObservation <&> text_field "executable" <&> text_field "provider_version" <&> text_field "sandbox_mode"
    <&> text_field "permission_mode" <&> flag_field "permission_bypass" <&> text_field "auth_mode" <&> text_field "auth_mode_source"
    <&> flag_field "workspace_bound" <&> flag_field "workspace_instructions_suppressed" <&> texts_field "argv"
    <&> text_field "prompt_sha256" <&> field [] (decode_list no_environment (struct environment_fields)) "provider_environment"
    <&> some_field 0%Z decode_time "execution_deadline" <&> some_field 0%Z decode_time "execution_started_at"
    <&> some_field 0%Z decode_time "execution_completed_at" <&> int_field "observed_wall_elapsed" <&> flag_field "overran_deadline"
    <&> text_field "termination_cause" <&> int_field "inactivity_limit" <&> text_field "progress_mode"
    <&> int_field "structured_progress_events" <&> int_field "open_tools_at_exit" <&> flag_field "final_result_observed"
    <&> int_field "permission_denials" <&> texts_field "permission_denied_tools" <&> int_field "protocol_anomalies"
    <&> int_field "process_id" <&> flag_field "git_guarded" <&> some_field no_cache (struct cache_fields) "frontend_cache"
    <&> flag_field "provenance_truncated".

Definition environment_value (e : EnvironmentEntry) : GoValue :=
  GStruct ([("name", GString e.(Environment_Name))] ++ omit_none "value" GString e.(Environment_Value)
    ++ omit_empty "sha256" e.(Environment_SHA256) ++ omit_flag "value_bounded" e.(Environment_Bounded)).
Definition cache_value (c : FrontendCacheObservation) : GoValue :=
  GStruct ([("lock_sha256", GString c.(Cache_LockSHA256)); ("status", GString c.(Cache_Status))]
    ++ omit_empty "node_version" c.(Cache_NodeVersion) ++ omit_empty "npm_version" c.(Cache_NpmVersion)).
Definition stamp_value (t : Z) : GoValue := GString (RFC3339Nano t).
Definition observation_value (o : InvocationObservation) : GoValue :=
  GStruct ([("executable", GString o.(Observed_Executable))] ++ omit_empty "provider_version" o.(Observed_Version)
    ++ omit_empty "sandbox_mode" o.(Observed_SandboxMode) ++ omit_empty "permission_mode" o.(Observed_PermissionMode)
    ++ omit_flag "permission_bypass" o.(Observed_PermissionBypass) ++ omit_empty "auth_mode" o.(Observed_AuthMode)
    ++ omit_empty "auth_mode_source" o.(Observed_AuthModeSource)
    ++ [("workspace_bound", GBool o.(Observed_WorkspaceBound));
        ("workspace_instructions_suppressed", GBool o.(Observed_WorkspaceInstructionsSuppressed))]
    ++ omit_strings "argv" o.(Observed_Argv) ++ omit_empty "prompt_sha256" o.(Observed_PromptSHA256)
    ++ omit_list "provider_environment" environment_value o.(Observed_ProviderEnvironment)
    ++ omit_none "execution_deadline" stamp_value o.(Observed_Deadline) ++ omit_none "execution_started_at" stamp_value o.(Observed_StartedAt)
    ++ omit_none "execution_completed_at" stamp_value o.(Observed_CompletedAt) ++ omit_zero "observed_wall_elapsed" o.(Observed_Elapsed)
    ++ omit_flag "overran_deadline" o.(Observed_OverranDeadline) ++ omit_empty "termination_cause" o.(Observed_TerminationCause)
    ++ omit_zero "inactivity_limit" o.(Observed_InactivityLimit) ++ omit_empty "progress_mode" o.(Observed_ProgressMode)
    ++ omit_zero "structured_progress_events" o.(Observed_StructuredEvents) ++ omit_zero "open_tools_at_exit" o.(Observed_OpenToolsAtExit)
    ++ omit_flag "final_result_observed" o.(Observed_FinalResultObserved) ++ omit_zero "permission_denials" o.(Observed_PermissionDenials)
    ++ omit_strings "permission_denied_tools" o.(Observed_PermissionDeniedTools) ++ omit_zero "protocol_anomalies" o.(Observed_ProtocolAnomalies)
    ++ omit_zero "process_id" o.(Observed_ProcessID) ++ omit_flag "git_guarded" o.(Observed_GitGuarded)
    ++ omit_none "frontend_cache" cache_value o.(Observed_FrontendCache) ++ omit_flag "provenance_truncated" o.(Observed_Truncated)).

Definition FrontendCacheProvisioned : string := "provisioned".
Definition FrontendCacheMissing : string := "cache_missing".
Definition FrontendCacheScratchRequired : string := "scratch_unavailable".
Definition IsFrontendCacheStatus (status : string) : bool :=
  (status ≟ FrontendCacheProvisioned) || (status ≟ FrontendCacheMissing) || (status ≟ FrontendCacheScratchRequired).

(** ** Identifiers and digests *)

Definition MaxPermissionDeniedTools : nat := 8.
Definition MaxPermissionDeniedToolBytes : nat := 64.
Definition MaxProviderEnvironment : nat := 24.

Definition identifier_byte (b : N) : bool :=
  in_range 0x61 0x7A b || in_range 0x41 0x5A b || in_range 0x30 0x39 b || existsb (N.eqb b) [95; 46; 58; 45]%N.
Definition IsInvocationIdentifier (name : string) : bool :=
  if (name ≟ "") || Nat.ltb MaxPermissionDeniedToolBytes (len name) then false else forallb identifier_byte (bytes name).

Definition isSHA256Hex (s : string) : bool :=
  Nat.eqb (len s) 64 && forallb (λ b, in_range 0x30 0x39 b || in_range 0x61 0x66 b) (bytes s).

Definition maxInvocationInteger : Z := 2 ^ 53 - 1.
Definition clamp (n : Z) : Z := Z.max 0 (Z.min n maxInvocationInteger).

Definition representable (t : option Z) : option Z :=
  match t with
  | Some at_ => let '(year, _, _) := civil (at_ / day)%Z in if ((year <? 1) || (9999 <? year))%Z then None else t
  | None => None
  end.

(** [MinimalInvocationObservation]. *)
Definition MinimalInvocationObservation (o : InvocationObservation) : InvocationObservation :=
  MkObservation "" "" "" "" o.(Observed_PermissionBypass) "" "" o.(Observed_WorkspaceBound) o.(Observed_WorkspaceInstructionsSuppressed)
    [] (if isSHA256Hex o.(Observed_PromptSHA256) then o.(Observed_PromptSHA256) else "") []
    (representable o.(Observed_Deadline)) (representable o.(Observed_StartedAt)) (representable o.(Observed_CompletedAt))
    (clamp o.(Observed_Elapsed)) o.(Observed_OverranDeadline)
    (if IsInvocationIdentifier o.(Observed_TerminationCause) then o.(Observed_TerminationCause) else "")
    (clamp o.(Observed_InactivityLimit))
    (if IsInvocationIdentifier o.(Observed_ProgressMode) then o.(Observed_ProgressMode) else "")
    (clamp o.(Observed_StructuredEvents)) (clamp o.(Observed_OpenToolsAtExit)) o.(Observed_FinalResultObserved)
    (clamp o.(Observed_PermissionDenials))
    (fold_left (λ tools tool, if IsInvocationIdentifier tool && Nat.ltb (length tools) MaxPermissionDeniedTools then tools ++ [tool] else tools)
      o.(Observed_PermissionDeniedTools) [])
    (clamp o.(Observed_ProtocolAnomalies)) (clamp o.(Observed_ProcessID)) o.(Observed_GitGuarded) None true.

(** ** What may be recorded *)

Definition maxProvenanceArgs : nat := 32.

Definition providerControlNames : list string :=
  ["PATH"; "HOME"; "GOENV"; "GIT_DIR"; "GOMODCACHE"; "GOTOOLCHAIN"; "GOPROXY"; "GOSUMDB"; "GOFLAGS"; "TMPDIR"; "GOTMPDIR"; "GOCACHE";
   "GOPATH"; "NPM_CONFIG_USERCONFIG"; "NPM_CONFIG_GLOBALCONFIG"].
Definition hashedProviderEnvNames : list string :=
  ["PATH"; "HOME"; "GIT_DIR"; "TMPDIR"; "GOTMPDIR"; "GOCACHE"; "GOPATH"; "GOMODCACHE"; "NPM_CONFIG_USERCONFIG"; "NPM_CONFIG_GLOBALCONFIG"].

(** The state home and the control variables of each adapter of
    [cliAgentSpecs]. *)
Definition adapter_names : list (string * list string) :=
  [("CODEX_HOME", []);
   ("CLAUDE_CONFIG_DIR", ["CLAUDE_CODE_PRINT_BG_WAIT_CEILING_MS"; "BASH_DEFAULT_TIMEOUT_MS"; "BASH_MAX_TIMEOUT_MS"]);
   ("QWEN_HOME", [])].
Definition recordedEnvNames (spec : string * list string) : list string := providerControlNames ++ spec.1 :: spec.2.
Definition recordedEnvName (name : string) : bool := existsb (λ spec, recordedEnvNames spec ∋? name) adapter_names.
Definition hashedEnvName (name : string) : bool :=
  (hashedProviderEnvNames ∋? name) || existsb (λ spec, spec.1 ≟ name) adapter_names.

Definition upper_byte (b : N) : N := if in_range 0x61 0x7A b then (b - 32)%N else b.
(** [strings.ToUpper], of ASCII: the names it is asked about are recorded. *)
Definition credentialShapedName (name : string) : bool :=
  existsb (Contains (of_bytes (upper_byte <$> bytes name))) ["KEY"; "TOKEN"; "SECRET"; "PASSWORD"; "CREDENTIAL"; "AUTH"].

Definition hasDriveRoot (s : string) : bool :=
  match bytes s with
  | b0 :: b1 :: b2 :: _ => (b1 =? 58)%N && ((b2 =? 47) || (b2 =? 92))%N && in_range 0x61 0x7A (N.lor b0 0x20)
  | _ => false
  end.
Definition isHostPath (s : string) : bool :=
  let s := TrimSpace s in HasPrefix s "/" || HasPrefix s (one_byte 92) || hasDriveRoot s.

Definition environment_checks (entry : EnvironmentEntry) : list Verdict :=
  [refuse_if (negb (recordedEnvName entry.(Environment_Name)) || credentialShapedName entry.(Environment_Name))
     (EnvironmentNotAllowed entry.(Environment_Name))]
  ++ match entry.(Environment_Value) with Some value => [bounded "invocation.provider_environment[].value" value] | None => [] end
  ++ [if (entry.(Environment_SHA256) ≠? "") && negb (isSHA256Hex entry.(Environment_SHA256)) then Err (EnvironmentIdentity entry.(Environment_Name))
      else if (entry.(Environment_SHA256) ≠? "") && bool_decide (is_Some entry.(Environment_Value)) then Err (EnvironmentBoth entry.(Environment_Name))
      else if bool_decide (is_Some entry.(Environment_Value)) && hashedEnvName entry.(Environment_Name) then Err (EnvironmentLiteralPath entry.(Environment_Name))
      else if (entry.(Environment_SHA256) ≠? "") && negb (hashedEnvName entry.(Environment_Name)) then Err (EnvironmentHashed entry.(Environment_Name))
      else Ok tt].

Definition cache_checks (cache : FrontendCacheObservation) : list Verdict :=
  [if negb (isSHA256Hex cache.(Cache_LockSHA256)) then Err CacheLockIdentity
   else if negb (IsFrontendCacheStatus cache.(Cache_Status)) then Err (CacheStatusUnknown cache.(Cache_Status)) else Ok tt;
   bounded "invocation.frontend_cache.node_version" cache.(Cache_NodeVersion);
   bounded "invocation.frontend_cache.npm_version" cache.(Cache_NpmVersion)].

Definition observation_texts (o : InvocationObservation) : gmap string string :=
  list_to_map [("executable", o.(Observed_Executable)); ("provider_version", o.(Observed_Version)); ("sandbox_mode", o.(Observed_SandboxMode));
    ("permission_mode", o.(Observed_PermissionMode)); ("auth_mode", o.(Observed_AuthMode)); ("auth_mode_source", o.(Observed_AuthModeSource));
    ("prompt_sha256", o.(Observed_PromptSHA256)); ("termination_cause", o.(Observed_TerminationCause)); ("progress_mode", o.(Observed_ProgressMode))].

Definition validateInvocationObservation `{!MapRange} (o : InvocationObservation) : Verdict :=
  refuse_if (Nat.ltb (maxProvenanceArgs + 1) (length o.(Observed_Argv))) (ArgvTooLong (length o.(Observed_Argv))) ;?
  refuse_if (Nat.ltb MaxPermissionDeniedTools (length o.(Observed_PermissionDeniedTools)))
    (TooManyDeniedTools (length o.(Observed_PermissionDeniedTools))) ;?
  refuse_if (Nat.ltb MaxProviderEnvironment (length o.(Observed_ProviderEnvironment)))
    (TooManyEnvironment (length o.(Observed_ProviderEnvironment))) ;?
  errors_Join (concat (environment_checks <$> o.(Observed_ProviderEnvironment))
    ++ concat (imap (λ n arg, [bounded "invocation.argv[]" arg; refuse_if (isHostPath arg) (ArgvHostPath n)]) o.(Observed_Argv))
    ++ match o.(Observed_FrontendCache) with Some cache => cache_checks cache | None => [] end
    ++ ((λ tool, refuse_if (negb (IsInvocationIdentifier tool)) (DeniedToolName tool)) <$> o.(Observed_PermissionDeniedTools))
    ++ ((λ entry, bounded ("invocation." +:+ entry.1) entry.2) <$> range (observation_texts o))).
