(* ===== verification/InvocationFacts.v ===== *)
(** The fallback of an observation that cannot be recorded whole is always
    recordable, whatever the provider reported. *)

From S2P Require Import Prelude GoStrings Json Domain Canonical Plan GoTime Events Invocation.
From stdpp Require Import options.

(* ------------------------------------------------------------------ *)
(** * ASCII text *)

Definition ascii_text (s : string) : Prop := Forall (λ b, (b < 128)%N) (bytes s).

Lemma ascii_valid s : ascii_text s → ValidString s = true.
Proof.
  unfold ascii_text, ValidString. induction 1 as [|b l Hb Hl IH]; [done|]. simpl. by rewrite (proj2 (N.ltb_lt b 128) Hb).
Qed.
Lemma ascii_app s t : ascii_text s → ascii_text t → ascii_text (s +:+ t).
Proof. unfold ascii_text. rewrite bytes_app, Forall_app. done. Qed.
Lemma ascii_by s : forallb (λ b, b <? 128)%N (bytes s) = true → ascii_text s.
Proof. unfold ascii_text. intros Hb. apply Forall_forall. intros b Hin. by apply N.ltb_lt, (forallb_elem (λ b, (b <? 128)%N) (bytes s)). Qed.
Lemma ascii_forall (test : N → bool) s : (∀ b, test b = true → (b < 128)%N) → forallb test (bytes s) = true → ascii_text s.
Proof. intros Ht Hs. apply Forall_forall. intros b Hin. by apply Ht, (forallb_elem test (bytes s)). Qed.
Lemma ascii_itoa z : (0 <= z)%Z → ascii_text (itoa z).
Proof. intros Hz. eapply Forall_impl; [by apply itoa_bytes|]. simpl. lia. Qed.
Lemma ascii_zeros n : ascii_text (zeros n).
Proof.
  unfold ascii_text, zeros. rewrite bytes_of_bytes; apply Forall_forall; intros b [-> _]%elem_of_replicate; lia.
Qed.

Create HintDb ascii.
#[export] Hint Resolve ascii_app ascii_itoa ascii_zeros Z.abs_nonneg : ascii.
#[export] Hint Extern 5 (ascii_text _) => apply ascii_by; reflexivity : ascii.

Lemma ascii_padded width n : ascii_text (padded width n).
Proof. unfold padded. destruct (n <? 0)%Z; auto with ascii. Qed.
#[export] Hint Resolve ascii_padded : ascii.
Lemma ascii_fraction n : ascii_text (fraction n).
Proof. unfold fraction. destruct (n =? 0)%Z; [auto with ascii|]. destruct (strip_zeros 8 9 n). auto with ascii. Qed.
#[export] Hint Resolve ascii_fraction : ascii.
Lemma ascii_RFC3339Nano t : ascii_text (RFC3339Nano t).
Proof. unfold RFC3339Nano. destruct (civil _) as [[year month] dom]. auto 30 with ascii. Qed.

(* ------------------------------------------------------------------ *)
(** * What the fallback keeps *)

Lemma identifier_ascii s : IsInvocationIdentifier s = true → ascii_text s ∧ s ≠ "" ∧ (len s <= MaxPermissionDeniedToolBytes)%nat.
Proof.
  unfold IsInvocationIdentifier. destruct (_ || _) eqn:Hs; [done|]. apply orb_false_iff in Hs as [He%bool_decide_eq_false Hl%Nat.ltb_ge].
  intros Hb. split_and!; [|done|done]. eapply ascii_forall; [|exact Hb]. intros b. unfold identifier_byte, in_range. cbn [existsb].
  rewrite !orb_true_iff, !andb_true_iff, !N.leb_le, !N.eqb_eq. lia.
Qed.
Lemma sha256_ascii s : isSHA256Hex s = true → ascii_text s ∧ len s = 64%nat.
Proof.
  unfold isSHA256Hex. intros [Hl%Nat.eqb_eq Hb]%andb_true_iff. split; [|done]. eapply ascii_forall; [|exact Hb]. intros b. unfold in_range.
  rewrite !orb_true_iff, !andb_true_iff, !N.leb_le. lia.
Qed.

Lemma clamp_range n : (0 <= clamp n <= maxSafeInteger)%Z.
Proof. unfold clamp, maxInvocationInteger, maxSafeInteger. lia. Qed.
Lemma clamp_id n : clamp (clamp n) = clamp n.
Proof. unfold clamp, maxInvocationInteger. lia. Qed.
Lemma representable_year t at_ : representable t = Some at_ → t = Some at_ ∧ year_in_range at_ = true.
Proof.
  unfold representable, year_in_range. destruct t as [t|]; [|done]. destruct (civil (t / day)%Z) as [[year m] d] eqn:Hc.
  destruct (_ || _) eqn:Hy; [done|]. intros [= <-]. split; [done|]. rewrite Hc. apply orb_false_iff in Hy as [?%Z.ltb_ge ?%Z.ltb_ge]. lia.
Qed.
Lemma representable_id t : representable (representable t) = representable t.
Proof. destruct (representable t) as [at_|] eqn:Ht; [|done]. by apply representable_year in Ht as Hy; destruct Hy as [-> _]. Qed.

Definition keep_tool (tools : list string) (tool : string) : list string :=
  if IsInvocationIdentifier tool && Nat.ltb (length tools) MaxPermissionDeniedTools then tools ++ [tool] else tools.

Lemma kept_tools l acc : Forall (λ t, IsInvocationIdentifier t = true) acc → (length acc <= MaxPermissionDeniedTools)%nat →
  Forall (λ t, IsInvocationIdentifier t = true) (fold_left keep_tool l acc) ∧ (length (fold_left keep_tool l acc) <= MaxPermissionDeniedTools)%nat.
Proof.
  revert acc. induction l as [|t l IH]; intros acc Ha Hl; simpl; [done|]. unfold keep_tool at 2 4. destruct (_ && _) eqn:Hk; [|by apply IH].
  apply andb_true_iff in Hk as [Ht Hlt%Nat.ltb_lt]. apply IH.
  - apply Forall_app. split; [done|]. by apply Forall_cons.
  - rewrite length_app. simpl. lia.
Qed.
Lemma kept_tools_id l acc : Forall (λ t, IsInvocationIdentifier t = true) l → (length acc + length l <= MaxPermissionDeniedTools)%nat →
  fold_left keep_tool l acc = acc ++ l.
Proof.
  revert acc. induction l as [|t l IH]; intros acc; simpl; [by rewrite app_nil_r|]. intros [Ht Hl]%Forall_cons Hle.
  unfold keep_tool at 2. rewrite Ht, (proj2 (Nat.ltb_lt _ _)) by lia. simpl. rewrite IH; [by rewrite <- app_assoc|done|].
  rewrite length_app. simpl. lia.
Qed.

(** ** Fields a canonical document can hold *)

Definition safe_fields (l : list (string * GoValue)) : Prop := Forall (λ f, validateIJSONValue f.2 = Ok tt) l.

Lemma safe_app l1 l2 : safe_fields l1 → safe_fields l2 → safe_fields (l1 ++ l2).
Proof. unfold safe_fields. rewrite Forall_app. done. Qed.
Lemma safe_omit b name v : validateIJSONValue v = Ok tt → safe_fields (omit_if b name v).
Proof. intros Hv. unfold omit_if, safe_fields. destruct b; [constructor|by repeat constructor]. Qed.
Lemma safe_string s : ascii_text s → validateIJSONValue (GString s) = Ok tt.
Proof. intros Hs. simpl. by rewrite ascii_valid. Qed.
Lemma safe_int z : (0 <= z <= maxSafeInteger)%Z → validateIJSONValue (GInt z) = Ok tt.
Proof.
  intros Hz. simpl. apply refuse_if_ok, orb_false_iff. rewrite !Z.ltb_ge. unfold maxSafeInteger in *. lia.
Qed.
Lemma safe_stamp name t : safe_fields (omit_none name stamp_value (representable t)).
Proof.
  unfold omit_none. destruct (representable t); [|constructor]. repeat constructor. apply safe_string, ascii_RFC3339Nano.
Qed.
Lemma safe_struct l : safe_fields l → validateIJSONValue (GStruct l) = Ok tt.
Proof. intros Hl. simpl. apply check_all_ok. intros f Hf. unfold safe_fields in Hl. rewrite Forall_forall in Hl. by apply Hl. Qed.

Lemma chosen_id (test : string → bool) s : (if test (if test s then s else "") then (if test s then s else "") else "") = if test s then s else "".
Proof. destruct (test s) eqn:Hs; [by rewrite Hs|by destruct (test "")]. Qed.

Section minimal.
Context (o : InvocationObservation).
Let m := MinimalInvocationObservation o.

Lemma minimal_tools : Forall (λ t, IsInvocationIdentifier t = true) m.(Observed_PermissionDeniedTools)
  ∧ (length m.(Observed_PermissionDeniedTools) <= MaxPermissionDeniedTools)%nat.
Proof. apply (kept_tools o.(Observed_PermissionDeniedTools) []); [constructor|vm_compute; lia]. Qed.

Lemma minimal_identifier name : ascii_text (if IsInvocationIdentifier name then name else "") ∧
  (len (if IsInvocationIdentifier name then name else "") <= maxPayloadFieldBytes)%nat.
Proof.
  destruct (IsInvocationIdentifier name) eqn:Hn; [|split; [constructor|vm_compute; lia]].
  destruct (identifier_ascii _ Hn) as (Ha & _ & Hl). split; [done|]. unfold MaxPermissionDeniedToolBytes, maxPayloadFieldBytes in *. lia.
Qed.
Lemma minimal_digest : ascii_text m.(Observed_PromptSHA256) ∧ (len m.(Observed_PromptSHA256) <= maxPayloadFieldBytes)%nat.
Proof.
  simpl. destruct (isSHA256Hex _) eqn:Hn; [|split; [constructor|vm_compute; lia]].
  destruct (sha256_ascii _ Hn) as [Ha Hl]. split; [done|]. rewrite Hl. unfold maxPayloadFieldBytes. lia.
Qed.

Lemma bounded_ok name value : (len value <= maxPayloadFieldBytes)%nat → bounded name value = Ok tt.
Proof. intros Hl. unfold bounded. apply refuse_if_ok. by apply Nat.ltb_ge. Qed.

Lemma minimal_texts name text : observation_texts m !! name = Some text → (len text <= maxPayloadFieldBytes)%nat.
Proof.
  intros Hin%elem_of_list_to_map_2. revert Hin. rewrite !elem_of_cons.
  pose proof (minimal_identifier o.(Observed_TerminationCause)) as [_ Ht]. pose proof (minimal_identifier o.(Observed_ProgressMode)) as [_ Hp].
  pose proof minimal_digest as [_ Hd].
  intros [[= -> ->]|[[= -> ->]|[[= -> ->]|[[= -> ->]|[[= -> ->]|[[= -> ->]|[[= -> ->]|[[= -> ->]|[[= -> ->]|Hn%not_elem_of_nil]]]]]]]]]; try done;
    simpl; unfold maxPayloadFieldBytes; lia.
Qed.

Lemma minimal_valid `{!MapRange} : validateInvocationObservation m = Ok tt.
Proof.
  destruct minimal_tools as [Htools Hlen]. unfold validateInvocationObservation. rewrite !refuse_if_then. split_and!; [done| |done|].
  - by apply Nat.ltb_ge.
  - apply errors_Join_ok. simpl. apply Forall_app. split.
    + apply Forall_forall. intros c (t & -> & Ht)%list_elem_of_fmap. rewrite Forall_forall in Htools. by rewrite (Htools t Ht).
    + apply Forall_forall. intros c ([name text] & -> & Hin)%list_elem_of_fmap. apply elem_of_range in Hin. simpl.
      by eapply bounded_ok, minimal_texts.
Qed.

Lemma minimal_safe : validateIJSONValue (observation_value m) = Ok tt.
Proof.
  destruct minimal_tools as [Htools _]. apply safe_struct.
  repeat first [apply safe_app | apply safe_stamp | apply safe_omit | by repeat constructor].
  all: try (apply safe_int, clamp_range).
  all: try (apply safe_string; first [apply minimal_digest|apply minimal_identifier|constructor]).
  simpl. apply check_all_ok. intros v (t & -> & Ht)%list_elem_of_fmap. rewrite Forall_forall in Htools.
  apply safe_string. by apply identifier_ascii, Htools.
Qed.
End minimal.

(** C28: The fallback of an invocation observation can always be recorded.  Whatever
    a provider reported, the minimal observation passes the payload checks and
    the canonical encoding, keeps only times that can be written, is marked as
    truncated, and reducing it again changes nothing. *)
Theorem MinimalInvocationObservation_recordable `{!MapRange} (o : InvocationObservation) :
  let m := MinimalInvocationObservation o in
  validateInvocationObservation m = Ok tt ∧ validateIJSONValue (observation_value m) = Ok tt
  ∧ (∀ t, t ∈ [m.(Observed_Deadline); m.(Observed_StartedAt); m.(Observed_CompletedAt)] → ∀ at_, t = Some at_ → year_in_range at_ = true)
  ∧ m.(Observed_Truncated) = true ∧ MinimalInvocationObservation m = m.
Proof.
  cbv zeta. destruct (minimal_tools o) as [Htools Hlen]. split_and!; [apply minimal_valid|apply minimal_safe| |done|].
  - intros t. rewrite !elem_of_cons. intros [->|[->|[->|Hn%not_elem_of_nil]]] at_ Hat; try done; by apply representable_year in Hat as [_ ?].
  - unfold MinimalInvocationObservation at 1. rewrite (kept_tools_id (Observed_PermissionDeniedTools _) []) by done.
    simpl. rewrite !clamp_id, !representable_id, !chosen_id. unfold MinimalInvocationObservation. f_equal.
Qed.
