(* ===== verification/PlanPayload.v ===== *)
(** The payloads of plan events ([runtime/event_payload.go],
    [plan_reasoning_validation.go], [operator_action_receipt.go]): how each is
    decoded and what is checked before it is appended. *)

From S2P Require Import Prelude GoStrings Json Domain Canonical Topo GoTime Plan Events Invocation.
From stdpp Require Import options.

(* ------------------------------------------------------------------ *)
(** * Records *)

Record PlanTemplateRef := MkTemplateRef {
  TemplateRef_ID : string;
  TemplateRef_Version : Z;
  TemplateRef_Digest : string
}.

Record PlanBudgetPayload := MkBudgetPayload {
  BudgetPayload_MaxChildRuns : Z;
  BudgetPayload_MaxConcurrency : Z;
  BudgetPayload_MaxProviderInvocations : Z;
  BudgetPayload_MaxWallSeconds : Z;
  BudgetPayload_MaxCostMicros : option Z
}.

Record PlanReasoningPayload := MkReasoning {
  Reasoning_AgentID : string;
  Reasoning_ProviderKind : string;
  Reasoning_VendorFamily : string;
  Reasoning_TrustMode : string;
  Reasoning_Model : string;
  Reasoning_ProfileID : string;
  Reasoning_InvocationMode : string;
  Reasoning_ProviderMode : string;
  Reasoning_WorkspaceDigestBefore : string;
  Reasoning_WorkspaceDigestAfter : string;
  Reasoning_WorkspaceUnchanged : bool;
  Reasoning_Invocation : option InvocationObservation;
  Reasoning_InvocationDroppedForSize : bool
}.

Record PlanSourceReferencePayload := MkSourceReference {
  SourceReference_Repository : string;
  SourceReference_Issue : Z;
  SourceReference_Digest : string;
  SourceReference_Available : bool;
  SourceReference_Detail : string
}.

Record PlanProposedPayload := MkProposed {
  Proposed_Revision : Z;
  Proposed_Digest : string;
  Proposed_ObjectiveDigest : string;
  Proposed_StageCount : Z;
  Proposed_AgentStageCount : Z;
  Proposed_Template : option PlanTemplateRef;
  Proposed_Budget : PlanBudgetPayload;
  Proposed_Reasoning : option PlanReasoningPayload;
  Proposed_ProposalID : string;
  Proposed_Origin : string;
  Proposed_References : list PlanSourceReferencePayload
}.

Record PlanAttemptIndependencePayload := MkAttemptIndependence {
  AttemptIndependence_Dimension : string;
  AttemptIndependence_DifferentFrom : list string
}.

Record PlanAttemptStagePayload := MkAttemptStage {
  AttemptStage_ID : string;
  AttemptStage_Kind : string;
  AttemptStage_Role : string;
  AttemptStage_DependsOn : list string;
  AttemptStage_Independence : option PlanAttemptIndependencePayload
}.

Record PlanAttemptEvidenceRef := MkAttemptEvidence {
  AttemptEvidence_Path : string;
  AttemptEvidence_SHA256 : string;
  AttemptEvidence_MediaType : string;
  AttemptEvidence_LocalOnly : bool
}.

Record PlanAttemptRefusedPayload := MkAttemptRefused {
  Refused_AttemptID : string;
  Refused_Revision : Z;
  Refused_Origin : string;
  Refused_Issue : Z;
  Refused_Subject : option Subject;
  Refused_PreviousSubject : option Subject;
  Refused_Reasoning : option PlanReasoningPayload;
  Refused_Stages : list PlanAttemptStagePayload;
  Refused_Errors : list string;
  Refused_Evidence : list PlanAttemptEvidenceRef;
  Refused_References : list PlanSourceReferencePayload
}.

Record PlanValidatedPayload := MkValidated {
  Validated_Revision : Z;
  Validated_Digest : string;
  Validated_Status : string;
  Validated_Errors : list string
}.

Record PlanDecisionPayload := MkDecisionPayload {
  Decided_Revision : Z;
  Decided_Digest : string;
  Decided_Operator : string;
  Decided_Note : string;
  Decided_AssignmentsDigest : string
}.

Record PlanStageAssignedPayload := MkStageAssigned {
  Assigned_StageID : string;
  Assigned_AssignmentID : string;
  Assigned_Role : string;
  Assigned_ProfileID : string;
  Assigned_ProfileVersion : Z;
  Assigned_ProfileDigest : string;
  Assigned_AgentID : string;
  Assigned_ProviderKind : string;
  Assigned_VendorFamily : string;
  Assigned_TrustMode : string;
  Assigned_InvocationMode : string;
  Assigned_RunID : string
}.

Record PlanRunStartedPayload := MkRunStarted {
  Started_StageID : string;
  Started_RunID : string
}.

Record PlanStageSettledPayload := MkStageSettled {
  Settled_StageID : string;
  Settled_Outcome : string;
  Settled_Reason : string;
  Settled_Revision : Z
}.

Record PlanStageReviewedPayload := MkStageReviewed {
  Reviewed_StageID : string;
  Reviewed_RunID : string;
  Reviewed_UpstreamStageID : string;
  Reviewed_UpstreamRunID : string;
  Reviewed_Candidate : string;
  Reviewed_Tree : string;
  Reviewed_Verdict : string;
  Reviewed_Reason : string;
  Reviewed_Findings : list string
}.

Record PlanGateSatisfiedPayload := MkGateSatisfied {
  Gated_StageID : string;
  Gated_Kind : string;
  Gated_Claims : list string;
  Gated_Evidence : Ref;
  Gated_Decision : Ref;
  Gated_HumanEvidenceID : string;
  Gated_ProvingRuns : list string;
  Gated_ProvenHeads : list string
}.

Record PlanBudgetConsumedPayload := MkBudgetConsumed {
  Charge_Key : string;
  Charge_StageID : string;
  Charge_RunID : string;
  Charge_ChildRuns : Z;
  Charge_ProviderInvocations : Z;
  Charge_WallSeconds : Z;
  Charge_CostMicros : option Z;
  Charge_CostKnown : bool
}.

Record PlanRevisionSupersededPayload := MkSuperseded {
  Superseded_FromRevision : Z;
  Superseded_ToRevision : Z;
  Superseded_ProposalID : string;
  Superseded_InvalidatedStages : list string
}.

Record OperatorActionReceipt := MkReceipt {
  Receipt_OperationID : string;
  Receipt_RequestDigest : string;
  Receipt_Action : string;
  Receipt_ControllerBinding : string;
  Receipt_PlanID : string;
  Receipt_Revision : Z;
  Receipt_PlanDigest : string;
  Receipt_Repository : string;
  Receipt_SourceIssue : Z;
  Receipt_RunID : string;
  Receipt_SourceRunID : string
}.

(* ------------------------------------------------------------------ *)
(** * Decoding *)

Definition subject_fields : Fields Subject := record MkSubject <&> text_field "repository" <&> text_field "revision".
Definition ref_fields : Fields Ref := record MkRef <&> text_field "id" <&> text_field "revision".
Definition template_ref_fields : Fields PlanTemplateRef :=
  record MkTemplateRef <&> text_field "id" <&> int_field "version" <&> text_field "digest".
Definition budget_fields : Fields PlanBudgetPayload :=
  record MkBudgetPayload <&> int_field "max_child_runs" <&> int_field "max_concurrency" <&> int_field "max_provider_invocations"
    <&> int_field "max_wall_seconds" <&> some_field 0%Z decode_int "max_cost_micros".
Definition reasoning_fields : Fields PlanReasoningPayload :=
  record MkReasoning <&> text_field "agent_id" <&> text_field "provider_kind" <&> text_field "vendor_family" <&> text_field "trust_mode"
    <&> text_field "model" <&> text_field "profile_id" <&> text_field "invocation_mode" <&> text_field "provider_mode"
    <&> text_field "workspace_digest_before" <&> text_field "workspace_digest_after" <&> flag_field "workspace_unchanged"
    <&> some_field no_observation (struct observation_fields) "invocation" <&> flag_field "invocation_dropped_for_size".
Definition source_reference_fields : Fields PlanSourceReferencePayload :=
  record MkSourceReference <&> text_field "repository" <&> int_field "issue" <&> text_field "digest" <&> flag_field "available"
    <&> text_field "detail".

Definition no_subject : Subject := MkSubject "" "".
Definition no_template_ref : PlanTemplateRef := MkTemplateRef "" 0 "".
Definition no_budget_payload : PlanBudgetPayload := MkBudgetPayload 0 0 0 0 None.
Definition no_reasoning : PlanReasoningPayload := MkReasoning "" "" "" "" "" "" "" "" "" "" false None false.
Definition no_source_reference : PlanSourceReferencePayload := MkSourceReference "" 0 "" false "".

Definition proposed_fields : Fields PlanProposedPayload :=
  record MkProposed <&> int_field "revision" <&> text_field "digest" <&> text_field "objective_digest" <&> int_field "stage_count"
    <&> int_field "agent_stage_count" <&> some_field no_template_ref (struct template_ref_fields) "template"
    <&> field no_budget_payload (struct budget_fields) "budget" <&> some_field no_reasoning (struct reasoning_fields) "reasoning"
    <&> text_field "proposal_id" <&> text_field "origin"
    <&> field [] (decode_list no_source_reference (struct source_reference_fields)) "references".

Definition no_independence : PlanAttemptIndependencePayload := MkAttemptIndependence "" [].
Definition no_attempt_stage : PlanAttemptStagePayload := MkAttemptStage "" "" "" [] None.
Definition no_evidence_ref : PlanAttemptEvidenceRef := MkAttemptEvidence "" "" "" false.
Definition attempt_independence_fields : Fields PlanAttemptIndependencePayload :=
  record MkAttemptIndependence <&> text_field "dimension" <&> texts_field "different_from".
Definition attempt_stage_fields : Fields PlanAttemptStagePayload :=
  record MkAttemptStage <&> text_field "id" <&> text_field "kind" <&> text_field "role" <&> texts_field "depends_on"
    <&> some_field no_independence (struct attempt_independence_fields) "independence".
Definition attempt_evidence_fields : Fields PlanAttemptEvidenceRef :=
  record MkAttemptEvidence <&> text_field "path" <&> text_field "sha256" <&> text_field "media_type" <&> flag_field "local_only".
Definition refused_fields : Fields PlanAttemptRefusedPayload :=
  record MkAttemptRefused <&> text_field "attempt_id" <&> int_field "revision" <&> text_field "origin" <&> int_field "issue"
    <&> some_field no_subject (struct subject_fields) "subject" <&> some_field no_subject (struct subject_fields) "previous_subject"
    <&> some_field no_reasoning (struct reasoning_fields) "reasoning"
    <&> field [] (decode_list no_attempt_stage (struct attempt_stage_fields)) "stages" <&> texts_field "errors"
    <&> field [] (decode_list no_evidence_ref (struct attempt_evidence_fields)) "evidence"
    <&> field [] (decode_list no_source_reference (struct source_reference_fields)) "references".

Definition validated_fields : Fields PlanValidatedPayload :=
  record MkValidated <&> int_field "revision" <&> text_field "digest" <&> text_field "status" <&> texts_field "errors".
Definition decision_fields : Fields PlanDecisionPayload :=
  record MkDecisionPayload <&> int_field "revision" <&> text_field "digest" <&> text_field "operator" <&> text_field "note"
    <&> text_field "assignments_digest".
Definition assigned_fields : Fields PlanStageAssignedPayload :=
  record MkStageAssigned <&> text_field "stage_id" <&> text_field "assignment_id" <&> text_field "role" <&> text_field "profile_id"
    <&> int_field "profile_version" <&> text_field "profile_digest" <&> text_field "agent_id" <&> text_field "provider_kind"
    <&> text_field "vendor_family" <&> text_field "trust_mode" <&> text_field "invocation_mode" <&> text_field "run_id".
Definition started_fields : Fields PlanRunStartedPayload := record MkRunStarted <&> text_field "stage_id" <&> text_field "run_id".
Definition settled_fields : Fields PlanStageSettledPayload :=
  record MkStageSettled <&> text_field "stage_id" <&> text_field "outcome" <&> text_field "reason" <&> int_field "revision".
Definition reviewed_fields : Fields PlanStageReviewedPayload :=
  record MkStageReviewed <&> text_field "stage_id" <&> text_field "run_id" <&> text_field "upstream_stage_id"
    <&> text_field "upstream_run_id" <&> text_field "candidate" <&> text_field "tree" <&> text_field "verdict" <&> text_field "reason"
    <&> texts_field "findings".
Definition gated_fields : Fields PlanGateSatisfiedPayload :=
  record MkGateSatisfied <&> text_field "stage_id" <&> text_field "kind" <&> texts_field "claims"
    <&> field no_ref (struct ref_fields) "evidence" <&> field no_ref (struct ref_fields) "decision" <&> text_field "human_evidence_id"
    <&> texts_field "proving_runs" <&> texts_field "proven_heads".
Definition charge_fields : Fields PlanBudgetConsumedPayload :=
  record MkBudgetConsumed <&> text_field "key" <&> text_field "stage_id" <&> text_field "run_id" <&> int_field "child_runs"
    <&> int_field "provider_invocations" <&> int_field "wall_seconds" <&> some_field 0%Z decode_int "cost_micros" <&> flag_field "cost_known".
Definition superseded_fields : Fields PlanRevisionSupersededPayload :=
  record MkSuperseded <&> int_field "from_revision" <&> int_field "to_revision" <&> text_field "proposal_id" <&> texts_field "invalidated_stages".
Definition receipt_fields : Fields OperatorActionReceipt :=
  record MkReceipt <&> text_field "operation_id" <&> text_field "request_digest" <&> text_field "action" <&> text_field "controller_binding"
    <&> text_field "plan_id" <&> int_field "revision" <&> text_field "plan_digest" <&> text_field "repository" <&> int_field "source_issue"
    <&> text_field "run_id" <&> text_field "source_run_id".

(** The zero value of each payload. *)
Definition no_proposed : PlanProposedPayload := MkProposed 0 "" "" 0 0 None no_budget_payload None "" "" [].
Definition no_refused : PlanAttemptRefusedPayload := MkAttemptRefused "" 0 "" 0 None None None [] [] [] [].
Definition no_validated : PlanValidatedPayload := MkValidated 0 "" "" [].
Definition no_decision_payload : PlanDecisionPayload := MkDecisionPayload 0 "" "" "" "".
Definition no_assigned : PlanStageAssignedPayload := MkStageAssigned "" "" "" "" 0 "" "" "" "" "" "" "".
Definition no_started : PlanRunStartedPayload := MkRunStarted "" "".
Definition no_settled : PlanStageSettledPayload := MkStageSettled "" "" "" 0.
Definition no_reviewed : PlanStageReviewedPayload := MkStageReviewed "" "" "" "" "" "" "" "" [].
Definition no_gated : PlanGateSatisfiedPayload := MkGateSatisfied "" "" [] no_ref no_ref "" [] [].
Definition no_charge : PlanBudgetConsumedPayload := MkBudgetConsumed "" "" "" 0 0 0 None false.
Definition no_superseded : PlanRevisionSupersededPayload := MkSuperseded 0 0 "" [].
Definition no_receipt : OperatorActionReceipt := MkReceipt "" "" "" "" "" 0 "" "" 0 "" "".

(* ------------------------------------------------------------------ *)
(** * What is checked before an append *)

Definition ProposalValid : string := "valid".
Definition ProposalRefused : string := "refused".
Definition OutcomeCompleted : string := "completed".
Definition OutcomeFailed : string := "failed".
Definition planStageInvalidated : string := "invalidated".
Definition StageReviewAccepted : string := "accepted".
Definition StageReviewBlocked : string := "blocked".

Definition ProposalOrigins : list string := ["initial_plan"; "planner_role_decomposition"; "operator_edit"; "remediation"].
Definition KnownProposalOrigin (origin : string) : bool := existsb (λ known, known ≟ origin) ProposalOrigins.

Definition validateSourceReferences (references : list PlanSourceReferencePayload) : Verdict :=
  refuse_if (Nat.ltb maxPayloadListItems (length references)) (ListTooLong "references" (length references)) ;?
  check_all (λ reference,
    errors_Join [bounded "references[].repository" reference.(SourceReference_Repository);
                 nonNegative "references[].issue" reference.(SourceReference_Issue);
                 bounded "references[].digest" reference.(SourceReference_Digest);
                 bounded "references[].detail" reference.(SourceReference_Detail)] ;?
    refuse_if (reference.(SourceReference_Available) && (reference.(SourceReference_Digest) ≟ "")) AvailableWithoutDigest ;?
    refuse_if (negb reference.(SourceReference_Available) && (reference.(SourceReference_Detail) ≟ "")) UnavailableWithoutReason) references.

Definition knownOrigin (origin : string) : Verdict :=
  required "origin" origin ;? refuse_if (negb (KnownProposalOrigin origin)) (UnknownProposalOrigin origin).

Definition validatePlanBudget (budget : PlanBudgetPayload) : Verdict :=
  refuse_if ((budget.(BudgetPayload_MaxChildRuns) <? 1) || (budget.(BudgetPayload_MaxConcurrency) <? 1)
             || (budget.(BudgetPayload_MaxProviderInvocations) <? 1))%Z
    (BudgetUnbounded budget.(BudgetPayload_MaxChildRuns) budget.(BudgetPayload_MaxConcurrency) budget.(BudgetPayload_MaxProviderInvocations)) ;?
  match budget.(BudgetPayload_MaxCostMicros) with
  | Some cost => refuse_if (cost <? 0)%Z (NegativeCostCeiling cost)
  | None => Ok tt
  end ;?
  nonNegative "max_wall_seconds" budget.(BudgetPayload_MaxWallSeconds).

Section checks.
Context `{!MapRange}.

Definition validateReasoningInvocation (o : option InvocationObservation) : Verdict :=
  match o with None => Ok tt | Some o => validateInvocationObservation o end.

Definition validatePlanReasoning (reasoning : option PlanReasoningPayload) : Verdict :=
  match reasoning with
  | None => Ok tt
  | Some r =>
      refuse_if (r.(Reasoning_InvocationMode) ≠? InvocationModeNonMutatingPlanning) (MutatingReasoning r.(Reasoning_InvocationMode)) ;?
      refuse_if (negb r.(Reasoning_WorkspaceUnchanged)) WorkspaceChanged ;?
      refuse_if (r.(Reasoning_WorkspaceDigestBefore) ≠? r.(Reasoning_WorkspaceDigestAfter)) WorkspaceDigestsDiffer ;?
      errors_Join [required "agent_id" r.(Reasoning_AgentID); required "provider_kind" r.(Reasoning_ProviderKind);
        required "trust_mode" r.(Reasoning_TrustMode); required "workspace_digest_before" r.(Reasoning_WorkspaceDigestBefore);
        required "workspace_digest_after" r.(Reasoning_WorkspaceDigestAfter); bounded "vendor_family" r.(Reasoning_VendorFamily);
        bounded "model" r.(Reasoning_Model); bounded "profile_id" r.(Reasoning_ProfileID);
        bounded "provider_mode" r.(Reasoning_ProviderMode); validateReasoningInvocation r.(Reasoning_Invocation)]
  end.

Definition check_proposed (p : PlanProposedPayload) : Verdict :=
  refuse_if (p.(Proposed_Revision) <? 1)%Z (RevisionNotPositive p.(Proposed_Revision)) ;?
  refuse_if (p.(Proposed_StageCount) <? 1)%Z (NoStages p.(Proposed_StageCount)) ;?
  refuse_if (p.(Proposed_StageCount) <? p.(Proposed_AgentStageCount))%Z (AgentStagesExceed p.(Proposed_AgentStageCount) p.(Proposed_StageCount)) ;?
  errors_Join [required "digest" p.(Proposed_Digest); required "objective_digest" p.(Proposed_ObjectiveDigest);
    knownOrigin p.(Proposed_Origin); bounded "proposal_id" p.(Proposed_ProposalID); validatePlanBudget p.(Proposed_Budget)] ;?
  match p.(Proposed_Template) with
  | Some t =>
      refuse_if (t.(TemplateRef_Version) <? 1)%Z (TemplateVersionNotPositive t.(TemplateRef_Version)) ;?
      errors_Join [required "template.id" t.(TemplateRef_ID); required "template.digest" t.(TemplateRef_Digest)]
  | None => Ok tt
  end ;?
  validateSourceReferences p.(Proposed_References) ;?
  validatePlanReasoning p.(Proposed_Reasoning).

Definition check_validated (p : PlanValidatedPayload) : Verdict :=
  refuse_if ((p.(Validated_Status) ≠? ProposalValid) && (p.(Validated_Status) ≠? ProposalRefused)) (UnknownValidationStatus p.(Validated_Status)) ;?
  refuse_if ((p.(Validated_Status) ≟ ProposalRefused) && bool_decide (p.(Validated_Errors) = [])) RefusalWithoutReason ;?
  refuse_if (p.(Validated_Revision) <? 1)%Z (RevisionNotPositive p.(Validated_Revision)) ;?
  if p.(Validated_Status) ≟ ProposalValid
  then errors_Join [required "digest" p.(Validated_Digest); boundedList "errors" p.(Validated_Errors)]
  else errors_Join [bounded "digest" p.(Validated_Digest); boundedList "errors" p.(Validated_Errors)].

Definition check_decision (p : PlanDecisionPayload) : Verdict :=
  refuse_if (p.(Decided_Revision) <? 1)%Z (RevisionNotPositive p.(Decided_Revision)) ;?
  errors_Join [required "digest" p.(Decided_Digest); required "operator" p.(Decided_Operator); bounded "note" p.(Decided_Note)].

Definition check_attempt_subject (name : string) (subject : option Subject) : Verdict :=
  match subject with
  | None => Ok tt
  | Some s => errors_Join [required (name +:+ ".repository") s.(Subject_Repository); required (name +:+ ".revision") s.(Subject_Revision)]
  end.

Definition check_attempt_stage (stage : PlanAttemptStagePayload) : Verdict :=
  errors_Join [required "stages[].id" stage.(AttemptStage_ID); required "stages[].kind" stage.(AttemptStage_Kind);
    bounded "stages[].role" stage.(AttemptStage_Role); boundedList "stages[].depends_on" stage.(AttemptStage_DependsOn)] ;?
  match stage.(AttemptStage_Independence) with
  | None => Ok tt
  | Some i => errors_Join [required "stages[].independence.dimension" i.(AttemptIndependence_Dimension);
                           boundedList "stages[].independence.different_from" i.(AttemptIndependence_DifferentFrom)]
  end.

Definition check_refused (p : PlanAttemptRefusedPayload) : Verdict :=
  refuse_if (p.(Refused_Revision) <? 1)%Z (RevisionNotPositive p.(Refused_Revision)) ;?
  refuse_if (bool_decide (p.(Refused_Errors) = [])) AttemptWithoutReason ;?
  errors_Join [required "attempt_id" p.(Refused_AttemptID); knownOrigin p.(Refused_Origin);
    boundedList "errors" p.(Refused_Errors); nonNegative "issue" p.(Refused_Issue)] ;?
  check_attempt_subject "subject" p.(Refused_Subject) ;?
  check_attempt_subject "previous_subject" p.(Refused_PreviousSubject) ;?
  refuse_if (Nat.ltb maxPayloadListItems (length p.(Refused_Stages))) (ListTooLong "stages" (length p.(Refused_Stages))) ;?
  check_all check_attempt_stage p.(Refused_Stages) ;?
  refuse_if (Nat.ltb maxPayloadListItems (length p.(Refused_Evidence))) TooMuchEvidence ;?
  check_all (λ evidence, errors_Join [required "evidence[].path" evidence.(AttemptEvidence_Path);
    required "evidence[].sha256" evidence.(AttemptEvidence_SHA256);
    bounded "evidence[].media_type" evidence.(AttemptEvidence_MediaType)]) p.(Refused_Evidence) ;?
  validateSourceReferences p.(Refused_References) ;?
  validatePlanReasoning p.(Refused_Reasoning).

Definition check_assigned (p : PlanStageAssignedPayload) : Verdict :=
  refuse_if (p.(Assigned_ProfileVersion) <? 1)%Z (ProfileVersionNotPositive p.(Assigned_ProfileVersion)) ;?
  refuse_if ((p.(Assigned_InvocationMode) ≠? InvocationModeMutating) && (p.(Assigned_InvocationMode) ≠? InvocationModeNonMutatingPlanning))
    (UnknownInvocationMode p.(Assigned_InvocationMode)) ;?
  refuse_if (negb (KnownRole p.(Assigned_Role))) (UnknownPayloadRole p.(Assigned_Role)) ;?
  errors_Join [required "stage_id" p.(Assigned_StageID); required "assignment_id" p.(Assigned_AssignmentID);
    required "profile_id" p.(Assigned_ProfileID); required "profile_digest" p.(Assigned_ProfileDigest);
    required "agent_id" p.(Assigned_AgentID); required "provider_kind" p.(Assigned_ProviderKind);
    required "vendor_family" p.(Assigned_VendorFamily); required "trust_mode" p.(Assigned_TrustMode); bounded "run_id" p.(Assigned_RunID)].

Definition check_started (p : PlanRunStartedPayload) : Verdict :=
  errors_Join [required "stage_id" p.(Started_StageID); required "run_id" p.(Started_RunID)].

Definition check_settled (p : PlanStageSettledPayload) : Verdict :=
  refuse_if (negb ([OutcomeCompleted; OutcomeFailed; planStageInvalidated] ∋? p.(Settled_Outcome))) (UnknownOutcome p.(Settled_Outcome)) ;?
  refuse_if (p.(Settled_Revision) <? 0)%Z (SettledRevision p.(Settled_Revision)) ;?
  refuse_if ((0 <? p.(Settled_Revision))%Z && (p.(Settled_Outcome) ≠? planStageInvalidated))
    (OutcomeCarriesRevision p.(Settled_Outcome) p.(Settled_Revision)) ;?
  errors_Join [required "stage_id" p.(Settled_StageID); bounded "reason" p.(Settled_Reason)].

Definition check_reviewed (p : PlanStageReviewedPayload) : Verdict :=
  refuse_if (negb ([StageReviewAccepted; StageReviewBlocked] ∋? p.(Reviewed_Verdict))) (UnknownVerdict p.(Reviewed_Verdict)) ;?
  errors_Join [required "stage_id" p.(Reviewed_StageID); required "run_id" p.(Reviewed_RunID);
    required "upstream_stage_id" p.(Reviewed_UpstreamStageID); required "upstream_run_id" p.(Reviewed_UpstreamRunID);
    required "candidate" p.(Reviewed_Candidate); required "tree" p.(Reviewed_Tree)] ;?
  refuse_if ((p.(Reviewed_Verdict) ≟ StageReviewAccepted) && Nat.ltb 0 (length p.(Reviewed_Findings)))
    (AcceptedWithFindings (length p.(Reviewed_Findings))) ;?
  refuse_if ((p.(Reviewed_Verdict) ≟ StageReviewBlocked) && Nat.eqb (length p.(Reviewed_Findings)) 0) BlockedWithoutFindings ;?
  errors_Join [bounded "reason" p.(Reviewed_Reason); boundedList "findings" p.(Reviewed_Findings)].

Definition check_gated (p : PlanGateSatisfiedPayload) : Verdict :=
  refuse_if ((p.(Gated_Kind) ≠? StageAssuranceGate) && (p.(Gated_Kind) ≠? StageHumanDecisionGate)) (UnknownGateKind p.(Gated_Kind)) ;?
  refuse_if ((p.(Gated_Evidence) ≟ no_ref) && (p.(Gated_Decision) ≟ no_ref) && (p.(Gated_HumanEvidenceID) ≟ "")) GateWithoutReference ;?
  errors_Join [required "stage_id" p.(Gated_StageID); boundedList "claims" p.(Gated_Claims); optionalRef "evidence" p.(Gated_Evidence);
    optionalRef "decision" p.(Gated_Decision); bounded "human_evidence_id" p.(Gated_HumanEvidenceID);
    boundedList "proving_runs" p.(Gated_ProvingRuns); boundedList "proven_heads" p.(Gated_ProvenHeads)].

Definition check_charge (p : PlanBudgetConsumedPayload) : Verdict :=
  refuse_if ((p.(Charge_ChildRuns) =? 0)%Z && (p.(Charge_ProviderInvocations) =? 0)%Z && (p.(Charge_WallSeconds) =? 0)%Z
             && bool_decide (p.(Charge_CostMicros) = None)) NoDelta ;?
  refuse_if (bool_decide (is_Some p.(Charge_CostMicros)) && negb p.(Charge_CostKnown)) CostNotStatedKnown ;?
  refuse_if (p.(Charge_CostKnown) && bool_decide (p.(Charge_CostMicros) = None)) KnownCostMissing ;?
  match p.(Charge_CostMicros) with Some cost => refuse_if (cost <? 0)%Z (NegativeCost cost) | None => Ok tt end ;?
  errors_Join [nonNegative "child_runs" p.(Charge_ChildRuns); nonNegative "provider_invocations" p.(Charge_ProviderInvocations);
    nonNegative "wall_seconds" p.(Charge_WallSeconds); bounded "key" p.(Charge_Key); bounded "stage_id" p.(Charge_StageID);
    bounded "run_id" p.(Charge_RunID)].

Definition check_superseded (p : PlanRevisionSupersededPayload) : Verdict :=
  refuse_if ((p.(Superseded_FromRevision) <? 1) || (p.(Superseded_ToRevision) <? 1))%Z
    (SupersessionNotPositive p.(Superseded_FromRevision) p.(Superseded_ToRevision)) ;?
  refuse_if (p.(Superseded_ToRevision) <=? p.(Superseded_FromRevision))%Z
    (NotEarlier p.(Superseded_FromRevision) p.(Superseded_ToRevision)) ;?
  errors_Join [bounded "proposal_id" p.(Superseded_ProposalID); boundedList "invalidated_stages" p.(Superseded_InvalidatedStages)].

(** ** Receipts *)

Definition ControlPlanRevise : string := "plan-revise".
Definition ControlResume : string := "resume".
Definition ControlRefresh : string := "refresh".

Definition byte_at (s : string) (i : nat) (b : N) : bool := bool_decide (bytes s !! i = Some b).
Definition lower_hex (b : N) : bool := in_range 0x30 0x39 b || in_range 0x61 0x66 b.
(** Decoding refuses what is not hexadecimal, the comparison with the lower
    case refuses capitals; [hex.DecodeString] wants an even number of digits. *)
Definition ValidActionReference (id digest : string) : bool :=
  if negb (Nat.eqb (len id) 36) || negb (byte_at id 8 45) || negb (byte_at id 13 45) || negb (byte_at id 18 45)
     || negb (byte_at id 23 45) || negb (Nat.eqb (len digest) 64) then false
  else let ds := List.filter (λ b, negb (b =? 45)%N) (bytes id) in
       Nat.even (length ds) && forallb lower_hex ds && forallb lower_hex (bytes digest).

(** [ParseGitHubRepo] finds an owner and a name. *)
Definition github_identity (identity : string) : bool :=
  match Split identity with [owner; name] => (owner ≠? "") && (name ≠? "") | _ => false end.

Definition validate_receipt (r : OperatorActionReceipt) : Verdict :=
  refuse_if (negb (ValidActionReference r.(Receipt_OperationID) r.(Receipt_RequestDigest)) || (r.(Receipt_ControllerBinding) ≟ ""))
    InvalidActionReference ;?
  if r.(Receipt_Action) ≟ ControlPlanRevise then
    refuse_if ((r.(Receipt_PlanID) ≟ "") || (r.(Receipt_Revision) <? 1)%Z
               || negb (ValidActionReference r.(Receipt_OperationID) r.(Receipt_PlanDigest)) || (r.(Receipt_RunID) ≠? "")
               || (r.(Receipt_SourceRunID) ≠? "")) InvalidPlanningSubject ;?
    refuse_if (negb (github_identity r.(Receipt_Repository)) || (r.(Receipt_SourceIssue) <? 1)%Z) InvalidPlanningSource
  else if (r.(Receipt_Action) ≟ ControlResume) || (r.(Receipt_Action) ≟ ControlRefresh) then
    refuse_if ((r.(Receipt_RunID) ≟ "") || (r.(Receipt_SourceRunID) ≟ "") || (r.(Receipt_PlanID) ≠? "") || negb (r.(Receipt_Revision) =? 0)%Z
               || (r.(Receipt_PlanDigest) ≠? "") || (r.(Receipt_Repository) ≠? "") || negb (r.(Receipt_SourceIssue) =? 0)%Z
               || ((r.(Receipt_Action) ≟ ControlResume) && (r.(Receipt_RunID) ≠? r.(Receipt_SourceRunID)))
               || ((r.(Receipt_Action) ≟ ControlRefresh) && (r.(Receipt_RunID) ≟ r.(Receipt_SourceRunID)))) InvalidRunSubject
  else Err UnsupportedReceiptAction.

Definition check_receipt (kind : string) (r : OperatorActionReceipt) : Verdict :=
  refuse_if (negb (Bool.eqb (kind ≟ EventPlanOperatorActionReceipt) (r.(Receipt_Action) ≟ ControlPlanRevise))) ReceiptStreamMismatch ;?
  validate_receipt r.

(** The registry of payloads, at the events of plans. *)
Definition planPayloads (kind : string) : option payloadValidator :=
  if kind ≟ EventPlanProposed then Some (payloadSchema (struct proposed_fields) no_proposed check_proposed)
  else if kind ≟ EventPlanValidated then Some (payloadSchema (struct validated_fields) no_validated check_validated)
  else if kind ≟ EventPlanApproved then Some (payloadSchema (struct decision_fields) no_decision_payload check_decision)
  else if kind ≟ EventPlanRejected then Some (payloadSchema (struct decision_fields) no_decision_payload check_decision)
  else if kind ≟ EventPlanAttemptRefused then Some (payloadSchema (struct refused_fields) no_refused check_refused)
  else if kind ≟ EventPlanStageAssigned then Some (payloadSchema (struct assigned_fields) no_assigned check_assigned)
  else if kind ≟ EventPlanRunStarted then Some (payloadSchema (struct started_fields) no_started check_started)
  else if kind ≟ EventPlanStageSettled then Some (payloadSchema (struct settled_fields) no_settled check_settled)
  else if kind ≟ EventPlanStageReviewed then Some (payloadSchema (struct reviewed_fields) no_reviewed check_reviewed)
  else if kind ≟ EventPlanGateSatisfied then Some (payloadSchema (struct gated_fields) no_gated check_gated)
  else if kind ≟ EventPlanBudgetConsumed then Some (payloadSchema (struct charge_fields) no_charge check_charge)
  else if kind ≟ EventPlanRevisionSuperseded then Some (payloadSchema (struct superseded_fields) no_superseded check_superseded)
  else if kind ≟ EventPlanOperatorActionReceipt
  then Some (payloadSchema (struct receipt_fields) no_receipt (check_receipt EventPlanOperatorActionReceipt))
  else None.
End checks.
