(* ===== verification/PlanJournal.v ===== *)
(** The plan reducer ([runtime/plan_projection.go]): a plan's state is a fold
    of its events. *)

From S2P Require Import Prelude GoStrings Json Domain Canonical Topo GoTime Plan Events Invocation PlanPayload.
From stdpp Require Import options.

(* ------------------------------------------------------------------ *)
(** * The projection *)

Definition PlanStagePending : string := "pending".
Definition PlanStageRunning : string := "running".
Definition PlanStageCompleted : string := "completed".
Definition PlanStageFailed : string := "failed".
Definition PlanStageInvalidated : string := "invalidated".
Definition PlanStageSatisfied : string := "satisfied".

Definition ApprovalPending : string := "pending".
Definition ApprovalApproved : string := "approved".
Definition ApprovalRejected : string := "rejected".

Record PlanGateSatisfaction := MkGate {
  Gate_Kind : string;
  Gate_Claims : list string;
  Gate_Evidence : Ref;
  Gate_Decision : Ref;
  Gate_HumanEvidenceID : string;
  Gate_ProvenHeads : list string
}.

Record PlanStageReview := MkStageReview {
  StageReview_RunID : string;
  StageReview_UpstreamStageID : string;
  StageReview_UpstreamRunID : string;
  StageReview_Candidate : string;
  StageReview_Tree : string;
  StageReview_Verdict : string;
  StageReview_Reason : string;
  StageReview_Findings : list string
}.

Record PlanStageProjection := MkStageProjection {
  Projected_StageID : string;
  Projected_State : string;
  Projected_Reason : string;
  Projected_AssignmentID : string;
  Projected_Role : string;
  Projected_ProfileID : string;
  Projected_ProfileVersion : Z;
  Projected_ProfileDigest : string;
  Projected_AgentID : string;
  Projected_ProviderKind : string;
  Projected_VendorFamily : string;
  Projected_TrustMode : string;
  Projected_InvocationMode : string;
  Projected_RunID : string;
  Projected_InvalidatedUnder : Z;
  Projected_Generation : Z;
  Projected_Gate : option PlanGateSatisfaction;
  Projected_Review : option PlanStageReview
}.

Record PlanApproval := MkApproval {
  Approval_Status : string;
  Approval_Revision : Z;
  Approval_Digest : string;
  Approval_Operator : string;
  Approval_Note : string;
  Approval_AssignmentsDigest : string
}.

Record PlanValidation := MkPlanValidation {
  PlanValidation_Revision : Z;
  PlanValidation_Digest : string;
  PlanValidation_Status : string;
  PlanValidation_Errors : list string
}.

Record PlanAttempt := MkPlanAttempt {
  PlanAttempt_AttemptID : string;
  PlanAttempt_Revision : Z;
  PlanAttempt_Origin : string;
  PlanAttempt_Issue : Z;
  PlanAttempt_Subject : option Subject;
  PlanAttempt_PreviousSubject : option Subject;
  PlanAttempt_Reasoning : option PlanReasoningPayload;
  PlanAttempt_Stages : list PlanAttemptStagePayload;
  PlanAttempt_Errors : list string;
  PlanAttempt_Evidence : list PlanAttemptEvidenceRef;
  PlanAttempt_References : list PlanSourceReferencePayload;
  PlanAttempt_RefusedAt : string
}.

Record PlanSupersession := MkSupersession {
  Supersession_FromRevision : Z;
  Supersession_ToRevision : Z;
  Supersession_ProposalID : string;
  Supersession_InvalidatedStages : list string
}.

(** What a plan consumed, in all, by stage and by run, with the keys counted. *)
Record PlanSnapshot := MkSnapshot {
  Snapshot_PlanID : string;
  Snapshot_Revision : Z;
  Snapshot_Digest : string;
  Snapshot_ObjectiveDigest : string;
  Snapshot_Reasoning : option PlanReasoningPayload;
  Snapshot_Approval : PlanApproval;
  Snapshot_Approved : PlanApproval;
  Snapshot_Rejected : gmap Z bool;
  Snapshot_RetiredRuns : list string;
  Snapshot_Governed : list Z;
  Snapshot_Validation : PlanValidation;
  Snapshot_Validations : gmap Z PlanValidation;
  Snapshot_References : list PlanSourceReferencePayload;
  Snapshot_Attempts : list PlanAttempt;
  Snapshot_Stages : gmap string PlanStageProjection;
  Snapshot_Superseded : list PlanSupersession;
  Snapshot_Consumed : PlanConsumption;
  Snapshot_StageConsumed : gmap string PlanConsumption;
  Snapshot_RunConsumed : gmap string PlanConsumption;
  Snapshot_Cursor : Cursor;
  Snapshot_consumedKeys : gset string;
  Snapshot_StateSHA256 : string
}.

Definition no_approval : PlanApproval := MkApproval "" 0 "" "" "" "".
Definition no_plan_validation : PlanValidation := MkPlanValidation 0 "" "" [].
Definition no_consumption : PlanConsumption := MkConsumption 0 0 0 None false.
Definition no_cursor : Cursor := MkCursor 0 "" "".

(** [PlanStageProjection{StageID: id, State: state}]. *)
Definition bare_stage (id state reason : string) (under generation : Z) : PlanStageProjection :=
  MkStageProjection id state reason "" "" "" 0 "" "" "" "" "" "" "" under generation None None.

(** Assignments to the fields a handler changes. *)
Definition stage_run (s : PlanStageProjection) (run state reason : string) (under : Z) : PlanStageProjection :=
  MkStageProjection s.(Projected_StageID) state reason s.(Projected_AssignmentID) s.(Projected_Role) s.(Projected_ProfileID)
    s.(Projected_ProfileVersion) s.(Projected_ProfileDigest) s.(Projected_AgentID) s.(Projected_ProviderKind) s.(Projected_VendorFamily)
    s.(Projected_TrustMode) s.(Projected_InvocationMode) run under s.(Projected_Generation) s.(Projected_Gate) s.(Projected_Review).
Definition stage_state (s : PlanStageProjection) (state reason : string) : PlanStageProjection :=
  stage_run s s.(Projected_RunID) state reason s.(Projected_InvalidatedUnder).
Definition stage_results (s : PlanStageProjection) (state : string) (gate : option PlanGateSatisfaction) (review : option PlanStageReview) : PlanStageProjection :=
  MkStageProjection s.(Projected_StageID) state s.(Projected_Reason) s.(Projected_AssignmentID) s.(Projected_Role) s.(Projected_ProfileID)
    s.(Projected_ProfileVersion) s.(Projected_ProfileDigest) s.(Projected_AgentID) s.(Projected_ProviderKind) s.(Projected_VendorFamily)
    s.(Projected_TrustMode) s.(Projected_InvocationMode) s.(Projected_RunID) s.(Projected_InvalidatedUnder) s.(Projected_Generation) gate review.
Definition stage_assigned (s : PlanStageProjection) (p : PlanStageAssignedPayload) : PlanStageProjection :=
  MkStageProjection s.(Projected_StageID) PlanStagePending s.(Projected_Reason) p.(Assigned_AssignmentID) p.(Assigned_Role) p.(Assigned_ProfileID)
    p.(Assigned_ProfileVersion) p.(Assigned_ProfileDigest) p.(Assigned_AgentID) p.(Assigned_ProviderKind) p.(Assigned_VendorFamily)
    p.(Assigned_TrustMode) p.(Assigned_InvocationMode) (if p.(Assigned_RunID) ≟ "" then s.(Projected_RunID) else p.(Assigned_RunID))
    s.(Projected_InvalidatedUnder) s.(Projected_Generation) s.(Projected_Gate) s.(Projected_Review).

(** Assignments to groups of the snapshot's fields. *)
Definition with_proposal (s : PlanSnapshot) (p : PlanProposedPayload) : PlanSnapshot :=
  MkSnapshot s.(Snapshot_PlanID) p.(Proposed_Revision) p.(Proposed_Digest) p.(Proposed_ObjectiveDigest) p.(Proposed_Reasoning)
    (MkApproval ApprovalPending p.(Proposed_Revision) p.(Proposed_Digest) "" "" "") s.(Snapshot_Approved) s.(Snapshot_Rejected)
    s.(Snapshot_RetiredRuns) s.(Snapshot_Governed) no_plan_validation s.(Snapshot_Validations) p.(Proposed_References) s.(Snapshot_Attempts)
    s.(Snapshot_Stages) s.(Snapshot_Superseded) s.(Snapshot_Consumed) s.(Snapshot_StageConsumed) s.(Snapshot_RunConsumed)
    s.(Snapshot_Cursor) s.(Snapshot_consumedKeys) s.(Snapshot_StateSHA256).
Definition with_validation (s : PlanSnapshot) (verdict : PlanValidation) : PlanSnapshot :=
  MkSnapshot s.(Snapshot_PlanID) s.(Snapshot_Revision) s.(Snapshot_Digest) s.(Snapshot_ObjectiveDigest) s.(Snapshot_Reasoning)
    s.(Snapshot_Approval) s.(Snapshot_Approved) s.(Snapshot_Rejected) s.(Snapshot_RetiredRuns) s.(Snapshot_Governed) verdict
    (<[verdict.(PlanValidation_Revision) := verdict]> s.(Snapshot_Validations)) s.(Snapshot_References) s.(Snapshot_Attempts)
    s.(Snapshot_Stages) s.(Snapshot_Superseded) s.(Snapshot_Consumed) s.(Snapshot_StageConsumed) s.(Snapshot_RunConsumed)
    s.(Snapshot_Cursor) s.(Snapshot_consumedKeys) s.(Snapshot_StateSHA256).
Definition with_attempts (s : PlanSnapshot) (attempts : list PlanAttempt) (superseded : list PlanSupersession) : PlanSnapshot :=
  MkSnapshot s.(Snapshot_PlanID) s.(Snapshot_Revision) s.(Snapshot_Digest) s.(Snapshot_ObjectiveDigest) s.(Snapshot_Reasoning)
    s.(Snapshot_Approval) s.(Snapshot_Approved) s.(Snapshot_Rejected) s.(Snapshot_RetiredRuns) s.(Snapshot_Governed)
    s.(Snapshot_Validation) s.(Snapshot_Validations) s.(Snapshot_References) attempts
    s.(Snapshot_Stages) superseded s.(Snapshot_Consumed) s.(Snapshot_StageConsumed) s.(Snapshot_RunConsumed)
    s.(Snapshot_Cursor) s.(Snapshot_consumedKeys) s.(Snapshot_StateSHA256).
Definition with_decision (s : PlanSnapshot) (approval approved : PlanApproval) (rejected : gmap Z bool) (governed : list Z) : PlanSnapshot :=
  MkSnapshot s.(Snapshot_PlanID) s.(Snapshot_Revision) s.(Snapshot_Digest) s.(Snapshot_ObjectiveDigest) s.(Snapshot_Reasoning)
    approval approved rejected s.(Snapshot_RetiredRuns) governed
    s.(Snapshot_Validation) s.(Snapshot_Validations) s.(Snapshot_References) s.(Snapshot_Attempts)
    s.(Snapshot_Stages) s.(Snapshot_Superseded) s.(Snapshot_Consumed) s.(Snapshot_StageConsumed) s.(Snapshot_RunConsumed)
    s.(Snapshot_Cursor) s.(Snapshot_consumedKeys) s.(Snapshot_StateSHA256).
Definition with_stages (s : PlanSnapshot) (stages : gmap string PlanStageProjection) (retired : list string) : PlanSnapshot :=
  MkSnapshot s.(Snapshot_PlanID) s.(Snapshot_Revision) s.(Snapshot_Digest) s.(Snapshot_ObjectiveDigest) s.(Snapshot_Reasoning)
    s.(Snapshot_Approval) s.(Snapshot_Approved) s.(Snapshot_Rejected) retired s.(Snapshot_Governed)
    s.(Snapshot_Validation) s.(Snapshot_Validations) s.(Snapshot_References) s.(Snapshot_Attempts)
    stages s.(Snapshot_Superseded) s.(Snapshot_Consumed) s.(Snapshot_StageConsumed) s.(Snapshot_RunConsumed)
    s.(Snapshot_Cursor) s.(Snapshot_consumedKeys) s.(Snapshot_StateSHA256).
Definition with_consumption (s : PlanSnapshot) (consumed : PlanConsumption) (stages runs : gmap string PlanConsumption) (keys : gset string) : PlanSnapshot :=
  MkSnapshot s.(Snapshot_PlanID) s.(Snapshot_Revision) s.(Snapshot_Digest) s.(Snapshot_ObjectiveDigest) s.(Snapshot_Reasoning)
    s.(Snapshot_Approval) s.(Snapshot_Approved) s.(Snapshot_Rejected) s.(Snapshot_RetiredRuns) s.(Snapshot_Governed)
    s.(Snapshot_Validation) s.(Snapshot_Validations) s.(Snapshot_References) s.(Snapshot_Attempts)
    s.(Snapshot_Stages) s.(Snapshot_Superseded) consumed stages runs
    s.(Snapshot_Cursor) keys s.(Snapshot_StateSHA256).
Definition with_cursor (s : PlanSnapshot) (cursor : Cursor) (digest : string) : PlanSnapshot :=
  MkSnapshot s.(Snapshot_PlanID) s.(Snapshot_Revision) s.(Snapshot_Digest) s.(Snapshot_ObjectiveDigest) s.(Snapshot_Reasoning)
    s.(Snapshot_Approval) s.(Snapshot_Approved) s.(Snapshot_Rejected) s.(Snapshot_RetiredRuns) s.(Snapshot_Governed)
    s.(Snapshot_Validation) s.(Snapshot_Validations) s.(Snapshot_References) s.(Snapshot_Attempts)
    s.(Snapshot_Stages) s.(Snapshot_Superseded) s.(Snapshot_Consumed) s.(Snapshot_StageConsumed) s.(Snapshot_RunConsumed)
    cursor s.(Snapshot_consumedKeys) digest.

(* ------------------------------------------------------------------ *)
(** * Queries *)

Definition Accepted (r : option PlanStageReview) (candidate tree : string) : bool :=
  match r with
  | Some r => (r.(StageReview_Verdict) ≟ StageReviewAccepted) && (r.(StageReview_Candidate) ≟ candidate) && (r.(StageReview_Tree) ≟ tree)
  | None => false
  end.
Definition Blocks (r : option PlanStageReview) (candidate tree : string) : bool :=
  match r with
  | Some r => (r.(StageReview_Verdict) ≟ StageReviewBlocked) && (r.(StageReview_Candidate) ≟ candidate) && (r.(StageReview_Tree) ≟ tree)
  | None => false
  end.

Definition GoverningHistory (s : PlanSnapshot) : list Z := s.(Snapshot_Governed).
Definition PreviousGoverning (s : PlanSnapshot) (revision : Z) : Z * bool :=
  fold_left (λ found governed, if ((governed <? revision) && (found.1 <? governed))%Z then (governed, true) else found)
    s.(Snapshot_Governed) (0%Z, false).
Definition ApprovedRevision (s : PlanSnapshot) : option Z :=
  if s.(Snapshot_Approved).(Approval_Status) ≠? ApprovalApproved then None else Some s.(Snapshot_Approved).(Approval_Revision).
Definition AwaitingDecision (s : PlanSnapshot) (revision : Z) : bool :=
  (0 <? revision)%Z && (s.(Snapshot_Revision) =? revision)%Z && (s.(Snapshot_Approval).(Approval_Status) ≟ ApprovalPending).
Definition ChildRuns `{!MapRange} (s : PlanSnapshot) : list string :=
  omap (λ id, match s.(Snapshot_Stages) !! id with
              | Some stage => if stage.(Projected_RunID) ≟ "" then None else Some stage.(Projected_RunID)
              | None => None
              end) (sorted_keys s.(Snapshot_Stages)) ++ s.(Snapshot_RetiredRuns).

(* ------------------------------------------------------------------ *)
(** * Applying an event *)

Inductive PlanError :=
  | ForeignEvent (kind : string)
  | InvalidSequence
  | BrokenChain
  | InvalidEventHash
  | EventArtifact (e : ArtifactError)
  | Undecodable (kind : string)
  | SatisfiedGateOwnsRun (stage run : string)
  | RunSatisfiedAsGate (stage run : string)
  | SnapshotRefused (e : CanonicalError).

Definition unmarshal {A} (kind : string) (d : Decoder A) (zero : A) (raw : option Json) : result PlanError A :=
  match raw with Some v => of_option (Undecodable kind) (Unmarshal d zero v) | None => Err (Undecodable kind) end.

(** [retire] and [stage]. *)
Definition retire (retired : list string) (runID : string) : list string :=
  if (runID ≟ "") || (retired ∋? runID) then retired else retired ++ [runID].
Definition stage_of (s : PlanSnapshot) (id : string) : PlanStageProjection :=
  default (bare_stage id PlanStagePending "" 0 0) (s.(Snapshot_Stages) !! id).
Definition put_stage (s : PlanSnapshot) (id : string) (stage : PlanStageProjection) : PlanSnapshot :=
  with_stages s (<[id := stage]> s.(Snapshot_Stages)) s.(Snapshot_RetiredRuns).

Definition add64 (a b : Z) : Z := wrap64 (a + b).
Definition add_counts (c : PlanConsumption) (p : PlanBudgetConsumedPayload) : PlanConsumption :=
  MkConsumption (add64 c.(Consumed_ChildRuns) p.(Charge_ChildRuns)) (add64 c.(Consumed_ProviderInvocations) p.(Charge_ProviderInvocations))
    (add64 c.(Consumed_WallSeconds) p.(Charge_WallSeconds)) c.(Consumed_CostMicros) c.(Consumed_CostKnown).
Definition add_cost (c : PlanConsumption) (p : PlanBudgetConsumedPayload) : PlanConsumption :=
  match p.(Charge_CostMicros) with
  | Some cost =>
      if p.(Charge_CostKnown)
      then MkConsumption c.(Consumed_ChildRuns) c.(Consumed_ProviderInvocations) c.(Consumed_WallSeconds)
             (Some (match c.(Consumed_CostMicros) with Some total => add64 cost total | None => cost end)) true
      else c
  | None => c
  end.
Definition charge_to (m : gmap string PlanConsumption) (id : string) (p : PlanBudgetConsumedPayload) : gmap string PlanConsumption :=
  if id ≟ "" then m else <[id := add_counts (default no_consumption (m !! id)) p]> m.

Definition reopenFailedStage (s : PlanSnapshot) (p : PlanBudgetConsumedPayload) : PlanSnapshot :=
  match s.(Snapshot_Stages) !! p.(Charge_StageID) with
  | None => s
  | Some stage =>
      if (p.(Charge_ChildRuns) =? 0)%Z || (p.(Charge_RunID) ≟ "") || (stage.(Projected_State) ≠? PlanStageFailed)
         || (stage.(Projected_RunID) ≟ p.(Charge_RunID)) then s
      else with_stages s (<[p.(Charge_StageID) := stage_run stage p.(Charge_RunID) PlanStageRunning "" stage.(Projected_InvalidatedUnder)]>
                            s.(Snapshot_Stages)) (retire s.(Snapshot_RetiredRuns) stage.(Projected_RunID))
  end.

Definition apply_decision (s : PlanSnapshot) (approve : bool) (p : PlanDecisionPayload) : PlanSnapshot :=
  let decision := MkApproval (if approve then ApprovalApproved else ApprovalRejected) p.(Decided_Revision) p.(Decided_Digest)
    p.(Decided_Operator) p.(Decided_Note) p.(Decided_AssignmentsDigest) in
  with_decision s decision
    (if approve && (s.(Snapshot_Approved).(Approval_Revision) <=? p.(Decided_Revision))%Z then decision else s.(Snapshot_Approved))
    (if approve then s.(Snapshot_Rejected) else <[p.(Decided_Revision) := true]> s.(Snapshot_Rejected))
    (if approve && negb (s.(Snapshot_Governed) ∋? p.(Decided_Revision)) then s.(Snapshot_Governed) ++ [p.(Decided_Revision)]
     else s.(Snapshot_Governed)).

Definition apply_refused (s : PlanSnapshot) (at_ : Z) (p : PlanAttemptRefusedPayload) : PlanSnapshot :=
  with_attempts s (s.(Snapshot_Attempts) ++ [MkPlanAttempt p.(Refused_AttemptID) p.(Refused_Revision) p.(Refused_Origin) p.(Refused_Issue)
    p.(Refused_Subject) p.(Refused_PreviousSubject) p.(Refused_Reasoning) p.(Refused_Stages) p.(Refused_Errors) p.(Refused_Evidence)
    p.(Refused_References) (RFC3339 at_)]) s.(Snapshot_Superseded).

Definition apply_started (s : PlanSnapshot) (p : PlanRunStartedPayload) : result PlanError PlanSnapshot :=
  let stage := stage_of s p.(Started_StageID) in
  refuse_if (bool_decide (is_Some stage.(Projected_Gate))) (SatisfiedGateOwnsRun p.(Started_StageID) p.(Started_RunID)) ;?
  Ok (put_stage s p.(Started_StageID) (stage_run stage p.(Started_RunID) PlanStageRunning "" 0)).

Definition apply_settled (s : PlanSnapshot) (p : PlanStageSettledPayload) : PlanSnapshot :=
  let id := p.(Settled_StageID) in
  let stage := stage_of s id in
  if p.(Settled_Outcome) ≟ OutcomeCompleted then put_stage s id (stage_state stage PlanStageCompleted p.(Settled_Reason))
  else if p.(Settled_Outcome) ≟ OutcomeFailed then put_stage s id (stage_state stage PlanStageFailed p.(Settled_Reason))
  else if (0 <? p.(Settled_Revision))%Z then
    with_stages s (<[id := bare_stage id PlanStageInvalidated p.(Settled_Reason) p.(Settled_Revision) (add64 stage.(Projected_Generation) 1)]>
                     s.(Snapshot_Stages)) (retire s.(Snapshot_RetiredRuns) stage.(Projected_RunID))
  else put_stage s id (stage_state stage PlanStageInvalidated p.(Settled_Reason)).

Definition apply_reviewed (s : PlanSnapshot) (p : PlanStageReviewedPayload) : PlanSnapshot :=
  let stage := stage_of s p.(Reviewed_StageID) in
  put_stage s p.(Reviewed_StageID) (stage_results stage stage.(Projected_State) stage.(Projected_Gate)
    (Some (MkStageReview p.(Reviewed_RunID) p.(Reviewed_UpstreamStageID) p.(Reviewed_UpstreamRunID) p.(Reviewed_Candidate) p.(Reviewed_Tree)
       p.(Reviewed_Verdict) p.(Reviewed_Reason) p.(Reviewed_Findings)))).

Definition apply_gated (s : PlanSnapshot) (p : PlanGateSatisfiedPayload) : result PlanError PlanSnapshot :=
  let stage := stage_of s p.(Gated_StageID) in
  refuse_if (stage.(Projected_RunID) ≠? "") (RunSatisfiedAsGate p.(Gated_StageID) stage.(Projected_RunID)) ;?
  Ok (put_stage s p.(Gated_StageID) (stage_results stage PlanStageSatisfied
    (Some (MkGate p.(Gated_Kind) p.(Gated_Claims) p.(Gated_Evidence) p.(Gated_Decision) p.(Gated_HumanEvidenceID) p.(Gated_ProvenHeads)))
    stage.(Projected_Review))).

(** A key counts once; a charge of a stage may reopen it. *)
Definition apply_charge (s : PlanSnapshot) (p : PlanBudgetConsumedPayload) : PlanSnapshot :=
  if (p.(Charge_Key) ≠? "") && bool_decide (p.(Charge_Key) ∈ s.(Snapshot_consumedKeys)) then s
  else
    let keys := if p.(Charge_Key) ≟ "" then s.(Snapshot_consumedKeys) else {[p.(Charge_Key)]} ∪ s.(Snapshot_consumedKeys) in
    let charged := with_consumption s (add_cost (add_counts s.(Snapshot_Consumed) p) p) (charge_to s.(Snapshot_StageConsumed) p.(Charge_StageID) p)
      (charge_to s.(Snapshot_RunConsumed) p.(Charge_RunID) p) keys in
    if p.(Charge_StageID) ≟ "" then charged else reopenFailedStage charged p.

(** Every named stage starts again; its run is retired. *)
Definition apply_superseded (s : PlanSnapshot) (p : PlanRevisionSupersededPayload) : PlanSnapshot :=
  fold_left (λ s id,
    with_stages s (<[id := bare_stage id PlanStageInvalidated ("superseded by revision " +:+ itoa p.(Superseded_ToRevision)) 0 0]> s.(Snapshot_Stages))
      (retire s.(Snapshot_RetiredRuns) (from_option Projected_RunID "" (s.(Snapshot_Stages) !! id))))
    p.(Superseded_InvalidatedStages)
    (with_attempts s s.(Snapshot_Attempts) (s.(Snapshot_Superseded)
      ++ [MkSupersession p.(Superseded_FromRevision) p.(Superseded_ToRevision) p.(Superseded_ProposalID) p.(Superseded_InvalidatedStages)])).

Definition apply_plan_event (s : PlanSnapshot) (e : EngineeringEvent) : result PlanError PlanSnapshot :=
  let kind := e.(Event_Type) in
  let raw := e.(Event_Payload) in
  if kind ≟ EventPlanProposed then
    let? p := unmarshal kind (struct proposed_fields) no_proposed raw in Ok (with_proposal s p)
  else if kind ≟ EventPlanValidated then
    let? p := unmarshal kind (struct validated_fields) no_validated raw in
    Ok (with_validation s (MkPlanValidation p.(Validated_Revision) p.(Validated_Digest) p.(Validated_Status) p.(Validated_Errors)))
  else if kind ≟ EventPlanAttemptRefused then
    let? p := unmarshal kind (struct refused_fields) no_refused raw in Ok (apply_refused s e.(Event_OccurredAt) p)
  else if (kind ≟ EventPlanApproved) || (kind ≟ EventPlanRejected) then
    let? p := unmarshal kind (struct decision_fields) no_decision_payload raw in Ok (apply_decision s (kind ≠? EventPlanRejected) p)
  else if kind ≟ EventPlanStageAssigned then
    let? p := unmarshal kind (struct assigned_fields) no_assigned raw in
    Ok (put_stage s p.(Assigned_StageID) (stage_assigned (stage_of s p.(Assigned_StageID)) p))
  else if kind ≟ EventPlanRunStarted then
    let? p := unmarshal kind (struct started_fields) no_started raw in apply_started s p
  else if kind ≟ EventPlanStageSettled then
    let? p := unmarshal kind (struct settled_fields) no_settled raw in Ok (apply_settled s p)
  else if kind ≟ EventPlanStageReviewed then
    let? p := unmarshal kind (struct reviewed_fields) no_reviewed raw in Ok (apply_reviewed s p)
  else if kind ≟ EventPlanGateSatisfied then
    let? p := unmarshal kind (struct gated_fields) no_gated raw in apply_gated s p
  else if kind ≟ EventPlanBudgetConsumed then
    let? p := unmarshal kind (struct charge_fields) no_charge raw in Ok (apply_charge s p)
  else if kind ≟ EventPlanRevisionSuperseded then
    let? p := unmarshal kind (struct superseded_fields) no_superseded raw in Ok (apply_superseded s p)
  else Ok s.

(* ------------------------------------------------------------------ *)
(** * The state digest *)

Definition map_value `{Countable K} {A} (key : K → string) (value : A → GoValue) (m : gmap K A) : GoValue :=
  GMap (sort_by fst ((λ kv, (key kv.1, value kv.2)) <$> map_to_list m)).
Definition omit_map `{Countable K} {A} (name : string) (key : K → string) (value : A → GoValue) (m : gmap K A) : list (string * GoValue) :=
  omit_if (Nat.eqb (size m) 0) name (map_value key value m).
Definition text_key (s : string) : string := s.

Definition reasoning_value (r : PlanReasoningPayload) : GoValue :=
  GStruct ([("agent_id", GString r.(Reasoning_AgentID)); ("provider_kind", GString r.(Reasoning_ProviderKind))]
    ++ omit_empty "vendor_family" r.(Reasoning_VendorFamily) ++ [("trust_mode", GString r.(Reasoning_TrustMode))]
    ++ omit_empty "model" r.(Reasoning_Model) ++ omit_empty "profile_id" r.(Reasoning_ProfileID)
    ++ [("invocation_mode", GString r.(Reasoning_InvocationMode))] ++ omit_empty "provider_mode" r.(Reasoning_ProviderMode)
    ++ [("workspace_digest_before", GString r.(Reasoning_WorkspaceDigestBefore));
        ("workspace_digest_after", GString r.(Reasoning_WorkspaceDigestAfter)); ("workspace_unchanged", GBool r.(Reasoning_WorkspaceUnchanged))]
    ++ omit_none "invocation" observation_value r.(Reasoning_Invocation)
    ++ omit_flag "invocation_dropped_for_size" r.(Reasoning_InvocationDroppedForSize)).
Definition approval_value (a : PlanApproval) : GoValue :=
  GStruct ([("status", GString a.(Approval_Status)); ("revision", GInt a.(Approval_Revision)); ("digest", GString a.(Approval_Digest))]
    ++ omit_empty "operator" a.(Approval_Operator) ++ omit_empty "note" a.(Approval_Note)
    ++ omit_empty "assignments_digest" a.(Approval_AssignmentsDigest)).
Definition plan_validation_value (v : PlanValidation) : GoValue :=
  GStruct ([("revision", GInt v.(PlanValidation_Revision)); ("digest", GString v.(PlanValidation_Digest));
    ("status", GString v.(PlanValidation_Status))] ++ omit_strings "errors" v.(PlanValidation_Errors)).
Definition source_reference_value (r : PlanSourceReferencePayload) : GoValue :=
  GStruct ([("repository", GString r.(SourceReference_Repository)); ("issue", GInt r.(SourceReference_Issue))]
    ++ omit_empty "digest" r.(SourceReference_Digest) ++ [("available", GBool r.(SourceReference_Available))]
    ++ omit_empty "detail" r.(SourceReference_Detail)).
Definition subject_value (s : Subject) : GoValue :=
  GStruct [("repository", GString s.(Subject_Repository)); ("revision", GString s.(Subject_Revision))].
Definition attempt_stage_value (s : PlanAttemptStagePayload) : GoValue :=
  GStruct ([("id", GString s.(AttemptStage_ID)); ("kind", GString s.(AttemptStage_Kind))] ++ omit_empty "role" s.(AttemptStage_Role)
    ++ omit_strings "depends_on" s.(AttemptStage_DependsOn)
    ++ omit_none "independence" (λ i, GStruct [("dimension", GString i.(AttemptIndependence_Dimension));
         ("different_from", GList (GString <$> i.(AttemptIndependence_DifferentFrom)))]) s.(AttemptStage_Independence)).
Definition attempt_evidence_value (e : PlanAttemptEvidenceRef) : GoValue :=
  GStruct ([("path", GString e.(AttemptEvidence_Path)); ("sha256", GString e.(AttemptEvidence_SHA256))]
    ++ omit_empty "media_type" e.(AttemptEvidence_MediaType) ++ omit_flag "local_only" e.(AttemptEvidence_LocalOnly)).
Definition attempt_value (a : PlanAttempt) : GoValue :=
  GStruct ([("attempt_id", GString a.(PlanAttempt_AttemptID)); ("revision", GInt a.(PlanAttempt_Revision)); ("origin", GString a.(PlanAttempt_Origin))]
    ++ omit_zero "issue" a.(PlanAttempt_Issue) ++ omit_none "subject" subject_value a.(PlanAttempt_Subject)
    ++ omit_none "previous_subject" subject_value a.(PlanAttempt_PreviousSubject) ++ omit_none "reasoning" reasoning_value a.(PlanAttempt_Reasoning)
    ++ omit_list "stages" attempt_stage_value a.(PlanAttempt_Stages) ++ [("errors", GList (GString <$> a.(PlanAttempt_Errors)))]
    ++ omit_list "evidence" attempt_evidence_value a.(PlanAttempt_Evidence)
    ++ omit_list "references" source_reference_value a.(PlanAttempt_References) ++ omit_empty "refused_at" a.(PlanAttempt_RefusedAt)).
Definition gate_value (g : PlanGateSatisfaction) : GoValue :=
  GStruct ([("kind", GString g.(Gate_Kind))] ++ omit_strings "claims" g.(Gate_Claims) ++ omit_ref "evidence" g.(Gate_Evidence)
    ++ omit_ref "decision" g.(Gate_Decision) ++ omit_empty "human_evidence_id" g.(Gate_HumanEvidenceID)
    ++ omit_strings "proven_heads" g.(Gate_ProvenHeads)).
Definition stage_review_value (r : PlanStageReview) : GoValue :=
  GStruct ([("run_id", GString r.(StageReview_RunID)); ("upstream_stage_id", GString r.(StageReview_UpstreamStageID));
    ("upstream_run_id", GString r.(StageReview_UpstreamRunID)); ("candidate", GString r.(StageReview_Candidate));
    ("tree", GString r.(StageReview_Tree)); ("verdict", GString r.(StageReview_Verdict))]
    ++ omit_empty "reason" r.(StageReview_Reason) ++ omit_strings "findings" r.(StageReview_Findings)).
Definition stage_value (s : PlanStageProjection) : GoValue :=
  GStruct ([("stage_id", GString s.(Projected_StageID)); ("state", GString s.(Projected_State))] ++ omit_empty "reason" s.(Projected_Reason)
    ++ omit_empty "assignment_id" s.(Projected_AssignmentID) ++ omit_empty "role" s.(Projected_Role) ++ omit_empty "profile_id" s.(Projected_ProfileID)
    ++ omit_zero "profile_version" s.(Projected_ProfileVersion) ++ omit_empty "profile_digest" s.(Projected_ProfileDigest)
    ++ omit_empty "agent_id" s.(Projected_AgentID) ++ omit_empty "provider_kind" s.(Projected_ProviderKind)
    ++ omit_empty "vendor_family" s.(Projected_VendorFamily) ++ omit_empty "trust_mode" s.(Projected_TrustMode)
    ++ omit_empty "invocation_mode" s.(Projected_InvocationMode) ++ omit_empty "run_id" s.(Projected_RunID)
    ++ omit_zero "invalidated_under" s.(Projected_InvalidatedUnder) ++ omit_zero "generation" s.(Projected_Generation)
    ++ omit_none "gate" gate_value s.(Projected_Gate) ++ omit_none "review" stage_review_value s.(Projected_Review)).
Definition supersession_value (s : PlanSupersession) : GoValue :=
  GStruct ([("from_revision", GInt s.(Supersession_FromRevision)); ("to_revision", GInt s.(Supersession_ToRevision));
    ("proposal_id", GString s.(Supersession_ProposalID))] ++ omit_strings "invalidated_stages" s.(Supersession_InvalidatedStages)).
Definition consumption_value (c : PlanConsumption) : GoValue :=
  GStruct ([("child_runs", GInt c.(Consumed_ChildRuns)); ("provider_invocations", GInt c.(Consumed_ProviderInvocations));
    ("wall_seconds", GInt c.(Consumed_WallSeconds))] ++ omit_none "cost_micros" GInt c.(Consumed_CostMicros)
    ++ [("cost_known", GBool c.(Consumed_CostKnown))]).
Definition cursor_value (c : Cursor) : GoValue :=
  GStruct ([("last_sequence", GInt c.(Cursor_LastSequence)); ("last_event_id", GString c.(Cursor_LastEventID))]
    ++ omit_empty "last_event_hash" c.(Cursor_LastEventHash)).

#[global] Instance PlanApproval_eq_dec : EqDecision PlanApproval.
Proof. solve_decision. Defined.
#[global] Instance PlanValidation_eq_dec : EqDecision PlanValidation.
Proof. solve_decision. Defined.

Definition snapshot_value (s : PlanSnapshot) : GoValue :=
  GStruct ([("plan_id", GString s.(Snapshot_PlanID)); ("revision", GInt s.(Snapshot_Revision)); ("digest", GString s.(Snapshot_Digest))]
    ++ omit_empty "objective_digest" s.(Snapshot_ObjectiveDigest) ++ omit_none "reasoning" reasoning_value s.(Snapshot_Reasoning)
    ++ [("approval", approval_value s.(Snapshot_Approval))]
    ++ omit_if (s.(Snapshot_Approved) ≟ no_approval) "approved" (approval_value s.(Snapshot_Approved))
    ++ omit_map "rejected" itoa GBool s.(Snapshot_Rejected) ++ omit_strings "retired_runs" s.(Snapshot_RetiredRuns)
    ++ omit_list "governed" GInt s.(Snapshot_Governed)
    ++ omit_if (s.(Snapshot_Validation) ≟ no_plan_validation) "validation" (plan_validation_value s.(Snapshot_Validation))
    ++ omit_map "validations" itoa plan_validation_value s.(Snapshot_Validations)
    ++ omit_list "references" source_reference_value s.(Snapshot_References) ++ omit_list "attempts" attempt_value s.(Snapshot_Attempts)
    ++ [("stages", map_value text_key stage_value s.(Snapshot_Stages))] ++ omit_list "superseded" supersession_value s.(Snapshot_Superseded)
    ++ [("consumed", consumption_value s.(Snapshot_Consumed))]
    ++ omit_map "stage_consumed" text_key consumption_value s.(Snapshot_StageConsumed)
    ++ omit_map "run_consumed" text_key consumption_value s.(Snapshot_RunConsumed)
    ++ [("journal_cursor", cursor_value s.(Snapshot_Cursor)); ("state_sha256", GString s.(Snapshot_StateSHA256))]).

Section reduce.
Context `{!Canonicalizer}.

Definition PlanStateDigest (s : PlanSnapshot) : result CanonicalError string := Digest (snapshot_value (with_cursor s no_cursor "")).

Definition empty_snapshot (planID : string) : PlanSnapshot :=
  MkSnapshot planID 0 "" "" None (MkApproval ApprovalPending 0 "" "" "" "") no_approval ∅ [] [] no_plan_validation ∅ [] [] ∅ [] no_consumption
    ∅ ∅ no_cursor ∅ "".

(** One pass of the loop: the link to the event before, the hash, the
    artifacts, the state. *)
Definition reduce_step (planID : string) (at_ : PlanSnapshot * option EngineeringEvent * Z) (e : EngineeringEvent) :
    result PlanError (PlanSnapshot * option EngineeringEvent * Z) :=
  let '(s, previous, i) := at_ in
  refuse_if (negb (planEventTypes ∋? e.(Event_Type))) (ForeignEvent e.(Event_Type)) ;?
  refuse_if ((e.(Event_PlanID) ≠? planID) || (e.(Event_RunID) ≠? "") || negb (e.(Event_Sequence) =? i + 1)%Z) InvalidSequence ;?
  refuse_if (match previous with
             | Some p => (e.(Event_PreviousEventID) ≠? p.(Event_ID)) || (e.(Event_PreviousEventHash) ≠? p.(Event_EventHash))
             | None => false
             end) BrokenChain ;?
  refuse_if (match EventDigest e with Ok hash => e.(Event_EventHash) ≠? hash | Err _ => true end) InvalidEventHash ;?
  check_all (λ artifact, wrap EventArtifact (ValidateArtifact artifact)) e.(Event_Artifacts) ;?
  let? s := apply_plan_event s e in
  Ok (with_cursor s (MkCursor e.(Event_Sequence) e.(Event_ID) e.(Event_EventHash)) s.(Snapshot_StateSHA256), Some e, (i + 1)%Z).

Definition reduce_events (planID : string) (events : list EngineeringEvent) : result PlanError (PlanSnapshot * option EngineeringEvent * Z) :=
  for_each (reduce_step planID) events (empty_snapshot planID, None, 0%Z).

Definition ReducePlan (planID : string) (events : list EngineeringEvent) : result PlanError PlanSnapshot :=
  let? r := reduce_events planID events in
  let? digest := wrap SnapshotRefused (PlanStateDigest r.1.1) in
  Ok (with_cursor r.1.1 r.1.1.(Snapshot_Cursor) digest).
End reduce.
