(* ===== verification/PlanJournalFacts.v ===== *)
(** What a reduced stream satisfies: its chain, that its state is a function of
    its events, that a budget is a sum over them, and that the hash at its end
    determines the whole of it. *)

From S2P Require Import Prelude GoStrings Sha256 Json Domain Canonical Topo GoTime Plan Events Invocation PlanPayload PlanJournal.
From stdpp Require Import sorting options.

(* ------------------------------------------------------------------ *)
(** * The events one by one *)

(** The payload of [e], read as the reducer reads it. *)
Definition carries {A} (d : Decoder A) (zero : A) (e : EngineeringEvent) (p : A) : Prop :=
  ∃ raw, e.(Event_Payload) = Some raw ∧ Unmarshal d zero raw = Some p.

Inductive applied (s : PlanSnapshot) (e : EngineeringEvent) : PlanSnapshot → Prop :=
  | on_proposed p : e.(Event_Type) = EventPlanProposed → carries (struct proposed_fields) no_proposed e p → applied s e (with_proposal s p)
  | on_validated p : e.(Event_Type) = EventPlanValidated → carries (struct validated_fields) no_validated e p →
      applied s e (with_validation s (MkPlanValidation p.(Validated_Revision) p.(Validated_Digest) p.(Validated_Status) p.(Validated_Errors)))
  | on_refused p : e.(Event_Type) = EventPlanAttemptRefused → carries (struct refused_fields) no_refused e p →
      applied s e (apply_refused s e.(Event_OccurredAt) p)
  | on_approved p : e.(Event_Type) = EventPlanApproved → carries (struct decision_fields) no_decision_payload e p → applied s e (apply_decision s true p)
  | on_rejected p : e.(Event_Type) = EventPlanRejected → carries (struct decision_fields) no_decision_payload e p → applied s e (apply_decision s false p)
  | on_assigned p : e.(Event_Type) = EventPlanStageAssigned → carries (struct assigned_fields) no_assigned e p →
      applied s e (put_stage s p.(Assigned_StageID) (stage_assigned (stage_of s p.(Assigned_StageID)) p))
  | on_started p t : e.(Event_Type) = EventPlanRunStarted → carries (struct started_fields) no_started e p → apply_started s p = Ok t → applied s e t
  | on_settled p : e.(Event_Type) = EventPlanStageSettled → carries (struct settled_fields) no_settled e p → applied s e (apply_settled s p)
  | on_reviewed p : e.(Event_Type) = EventPlanStageReviewed → carries (struct reviewed_fields) no_reviewed e p → applied s e (apply_reviewed s p)
  | on_gated p t : e.(Event_Type) = EventPlanGateSatisfied → carries (struct gated_fields) no_gated e p → apply_gated s p = Ok t → applied s e t
  | on_charge p : e.(Event_Type) = EventPlanBudgetConsumed → carries (struct charge_fields) no_charge e p → applied s e (apply_charge s p)
  | on_superseded p : e.(Event_Type) = EventPlanRevisionSuperseded → carries (struct superseded_fields) no_superseded e p → applied s e (apply_superseded s p)
  | on_receipt : e.(Event_Type) ∉ removelast planEventTypes → applied s e s.

Lemma unmarshal_ok {A} kind (d : Decoder A) zero raw p :
  unmarshal kind d zero raw = Ok p ↔ ∃ v, raw = Some v ∧ Unmarshal d zero v = Some p.
Proof. unfold unmarshal. destruct raw as [v|]; [rewrite of_option_ok|]; naive_solver. Qed.

Lemma apply_plan_event_inv s e t : apply_plan_event s e = Ok t → applied s e t.
Proof.
  unfold apply_plan_event. cbv zeta.
  case_bool_decide. { intros (p & Hp%unmarshal_ok & [= <-])%rbind_ok. by apply on_proposed. }
  case_bool_decide. { intros (p & Hp%unmarshal_ok & [= <-])%rbind_ok. by apply on_validated. }
  case_bool_decide. { intros (p & Hp%unmarshal_ok & [= <-])%rbind_ok. by apply on_refused. }
  case_bool_decide. { simpl. intros (p & Hp%unmarshal_ok & [= <-])%rbind_ok. rewrite bool_decide_eq_false_2 by (intros Hr; by rewrite Hr in *). by apply on_approved. }
  case_bool_decide. { simpl. intros (p & Hp%unmarshal_ok & [= <-])%rbind_ok. by apply on_rejected. }
  simpl. case_bool_decide. { intros (p & Hp%unmarshal_ok & [= <-])%rbind_ok. by apply on_assigned. }
  case_bool_decide. { intros (p & Hp%unmarshal_ok & Ht)%rbind_ok. by eapply on_started. }
  case_bool_decide. { intros (p & Hp%unmarshal_ok & [= <-])%rbind_ok. by apply on_settled. }
  case_bool_decide. { intros (p & Hp%unmarshal_ok & [= <-])%rbind_ok. by apply on_reviewed. }
  case_bool_decide. { intros (p & Hp%unmarshal_ok & Ht)%rbind_ok. by eapply on_gated. }
  case_bool_decide. { intros (p & Hp%unmarshal_ok & [= <-])%rbind_ok. by apply on_charge. }
  case_bool_decide. { intros (p & Hp%unmarshal_ok & [= <-])%rbind_ok. by apply on_superseded. }
  intros [= <-]. apply on_receipt. unfold planEventTypes. simpl. rewrite !not_elem_of_cons. split_and!; try done. apply not_elem_of_nil.
Qed.

(* ------------------------------------------------------------------ *)
(** * The chain *)

Section chain.
Context `{!Canonicalizer}.
Implicit Types (e : EngineeringEvent) (s : PlanSnapshot).

(** The event [e] follows [previous], of which there are [n]. *)
Record follows (planID : string) (previous : option EngineeringEvent) (n : Z) e : Prop := {
  follows_kind : e.(Event_Type) ∈ planEventTypes;
  follows_plan : e.(Event_PlanID) = planID;
  follows_run : e.(Event_RunID) = "";
  follows_sequence : e.(Event_Sequence) = (n + 1)%Z;
  follows_link : ∀ p, previous = Some p → e.(Event_PreviousEventID) = p.(Event_ID) ∧ e.(Event_PreviousEventHash) = p.(Event_EventHash);
  follows_hash : EventDigest e = Ok e.(Event_EventHash);
  follows_artifacts : check_all (λ a, wrap EventArtifact (ValidateArtifact a)) e.(Event_Artifacts) = Ok tt
}.

Definition cursor_of e : Cursor := MkCursor e.(Event_Sequence) e.(Event_ID) e.(Event_EventHash).

Lemma reduce_step_ok planID s previous n e s' previous' n' :
  reduce_step planID (s, previous, n) e = Ok (s', previous', n') ↔
  follows planID previous n e ∧ previous' = Some e ∧ n' = (n + 1)%Z
  ∧ ∃ t, apply_plan_event s e = Ok t ∧ s' = with_cursor t (cursor_of e) t.(Snapshot_StateSHA256).
Proof.
  unfold reduce_step. rewrite !refuse_if_then, check_then, rbind_ok, negb_false_iff, bool_decide_eq_true, !orb_false_iff, !negb_false_iff,
    !bool_decide_eq_true, Z.eqb_eq. split.
  - intros (Hk & ([Hp Hr] & Hs) & Hl & Hh & Ha & t & Ht & [= <- <- <-]). split_and!; [|done|done|by exists t]. split; try done.
    + intros p ->. apply orb_false_iff in Hl as [H1%negb_false_iff%bool_decide_eq_true H2%negb_false_iff%bool_decide_eq_true]. done.
    + destruct (EventDigest e); [|done]. apply negb_false_iff, bool_decide_eq_true in Hh. by rewrite Hh.
  - intros ([Hk Hp Hr Hs Hl Hh Ha] & -> & -> & t & Ht & ->). split_and!; try done.
    + destruct previous as [p|]; [|done]. destruct (Hl p eq_refl) as [-> ->]. by rewrite !bool_decide_eq_true_2.
    + rewrite Hh. by rewrite bool_decide_eq_true_2.
    + by exists t.
Qed.

Lemma reduce_snoc planID l e r :
  reduce_events planID (l ++ [e]) = Ok r ↔ ∃ x, reduce_events planID l = Ok x ∧ reduce_step planID x e = Ok r.
Proof.
  unfold reduce_events. rewrite for_each_app, rbind_ok. simpl. setoid_rewrite rbind_ok. naive_solver.
Qed.

(** The loop's counter and previous event are read off the list. *)
Lemma reduce_at planID l s previous n :
  reduce_events planID l = Ok (s, previous, n) → previous = last l ∧ n = Z.of_nat (length l)
  ∧ s.(Snapshot_Cursor) = from_option cursor_of no_cursor (last l).
Proof.
  destruct l as [|e l _] using rev_ind; [by intros [= <- <- <-]|].
  intros ([[s0 p0] n0] & Hl & (_ & -> & -> & t & _ & ->)%reduce_step_ok)%reduce_snoc. rewrite last_snoc, length_app. simpl.
  split_and!; [done| |done].
  assert (n0 = Z.of_nat (length l)) as ->; [|lia]. clear -Hl. revert s0 p0 n0 Hl.
  induction l as [|e' l IH] using rev_ind; intros s0 p0 n0; [by intros [= <- <- <-]|].
  intros ([[s1 p1] n1] & Hl & (_ & -> & -> & _)%reduce_step_ok)%reduce_snoc. rewrite length_app. simpl. rewrite (IH _ _ _ Hl). lia.
Qed.

Lemma reduce_snoc_ok planID l e s previous n :
  reduce_events planID (l ++ [e]) = Ok (s, previous, n) ↔
  ∃ s0, reduce_events planID l = Ok (s0, last l, Z.of_nat (length l)) ∧ follows planID (last l) (Z.of_nat (length l)) e
    ∧ previous = Some e ∧ n = (Z.of_nat (length l) + 1)%Z
    ∧ ∃ t, apply_plan_event s0 e = Ok t ∧ s = with_cursor t (cursor_of e) t.(Snapshot_StateSHA256).
Proof.
  rewrite reduce_snoc. split.
  - intros ([[s0 p0] n0] & Hl & (Hf & -> & -> & Ht)%reduce_step_ok). destruct (reduce_at _ _ _ _ _ Hl) as (-> & -> & _).
    exists s0. split_and!; done.
  - intros (s0 & Hl & Hf & -> & -> & Ht). exists (s0, last l, Z.of_nat (length l)). split; [done|]. by apply reduce_step_ok.
Qed.

(** Every event of a reduced stream follows those before it. *)
Lemma reduce_follows planID l r i e :
  reduce_events planID l = Ok r → l !! i = Some e → follows planID (last (take i l)) (Z.of_nat i) e.
Proof.
  revert r i. induction l as [|e' l IH] using rev_ind; intros [[s p] n] i; [done|].
  intros (s0 & Hl & Hf & _)%reduce_snoc_ok Hi. destruct (decide (i < length l)%nat) as [Hlt|Hge].
  - rewrite lookup_app_l in Hi by done. rewrite take_app_le by lia. by eapply IH.
  - apply lookup_lt_Some in Hi as Hlt. rewrite length_app in Hlt. simpl in Hlt. assert (i = length l) as -> by lia.
    rewrite lookup_app_r, Nat.sub_diag in Hi by done. injection Hi as ->. by rewrite take_app_length.
Qed.

Lemma reduce_prefix planID l l' r : reduce_events planID (l ++ l') = Ok r → ∃ r', reduce_events planID l = Ok r'.
Proof. unfold reduce_events. rewrite for_each_app, rbind_ok. naive_solver. Qed.

Lemma reduce_sequence planID l r i e : reduce_events planID l = Ok r → l !! i = Some e → e.(Event_Sequence) = (Z.of_nat i + 1)%Z.
Proof. intros Hl Hi. by destruct (reduce_follows _ _ _ _ _ Hl Hi). Qed.

(** ** Reducing *)

Lemma ReducePlan_ok planID l s :
  ReducePlan planID l = Ok s ↔
  ∃ t digest, reduce_events planID l = Ok (t, last l, Z.of_nat (length l)) ∧ PlanStateDigest t = Ok digest
    ∧ s = with_cursor t t.(Snapshot_Cursor) digest.
Proof.
  unfold ReducePlan. rewrite rbind_ok. split.
  - intros ([[t p] n] & Hl & (d & Hd%wrap_ok & [= <-])%rbind_ok). destruct (reduce_at _ _ _ _ _ Hl) as (-> & -> & _). by exists t, d.
  - intros (t & d & Hl & Hd & ->). eexists. split; [exact Hl|]. apply rbind_ok. exists d. split; [by apply wrap_ok|done].
Qed.

Lemma ReducePlan_reduce planID l s : ReducePlan planID l = Ok s → ∃ t, reduce_events planID l = Ok (t, last l, Z.of_nat (length l)).
Proof. intros (t & d & Hl & _)%ReducePlan_ok. eauto. Qed.

(** The hash and the state after an event decide nothing about the state. *)
Lemma apply_unsealed s e after hash : apply_plan_event s (with_hash (with_after e after) hash) = apply_plan_event s e.
Proof. done. Qed.
End chain.

(* ------------------------------------------------------------------ *)
(** * The end of a stream determines it *)

Section tamper.
Context `{!Canonicalizer}.

(** Two histories that part at an event, agree on everything after it, and
    whose two events there, different documents, have one digest. *)
Definition collide (e f : EngineeringEvent) : Prop :=
  with_hash e "" ≠ with_hash f "" ∧ ∃ d, EventDigest e = Ok d ∧ EventDigest f = Ok d.
Definition event_collision (l1 l2 : list EngineeringEvent) : Prop :=
  ∃ i e f, l1 !! i = Some e ∧ l2 !! i = Some f ∧ drop (S i) l1 = drop (S i) l2 ∧ collide e f.

#[global] Instance Artifact_eq_dec : EqDecision Artifact.
Proof. solve_decision. Defined.
#[global] Instance EngineeringEvent_eq_dec : EqDecision EngineeringEvent.
Proof. solve_decision. Defined.

Lemma same_hash e f d : EventDigest e = Ok d → EventDigest f = Ok d → e.(Event_EventHash) = f.(Event_EventHash) → e = f ∨ collide e f.
Proof.
  intros He Hf Hh. destruct (decide (with_hash e "" = with_hash f "")) as [Heq|Hne]; [|right; split; eauto].
  left. destruct e, f. unfold with_hash in Heq. simpl in *. clear He Hf. injection Heq as -> -> -> -> -> -> -> -> -> -> -> -> -> ->. by rewrite Hh.
Qed.

Lemma collision_snoc l1 l2 e : length l1 = length l2 → event_collision l1 l2 → event_collision (l1 ++ [e]) (l2 ++ [e]).
Proof.
  intros Hlen (i & a & b & Ha & Hb & Hd & Hc). pose proof (lookup_lt_Some _ _ _ Ha). pose proof (lookup_lt_Some _ _ _ Hb).
  exists i, a, b. split_and!; [by apply lookup_app_l_Some|by apply lookup_app_l_Some| |done].
  rewrite !drop_app_le by lia. by rewrite Hd.
Qed.

Lemma chain_determined planID l1 l2 r1 r2 :
  reduce_events planID l1 = Ok r1 → reduce_events planID l2 = Ok r2 → length l1 = length l2 →
  (Event_EventHash <$> last l1) = (Event_EventHash <$> last l2) → l1 = l2 ∨ event_collision l1 l2.
Proof.
  revert l2 r1 r2. induction l1 as [|e l1 IH] using rev_ind; intros l2 [[s1 p1] n1] [[s2 p2] n2] H1 H2 Hlen Hlast.
  { left. symmetry. by apply nil_length_inv. }
  destruct l2 as [|f l2 _] using rev_ind; [rewrite length_app in Hlen; simpl in Hlen; lia|].
  rewrite !length_app in Hlen. simpl in Hlen. rewrite !last_snoc in Hlast. simpl in Hlast. injection Hlast as Hlast.
  apply reduce_snoc_ok in H1 as (t1 & H1 & F1 & _). apply reduce_snoc_ok in H2 as (t2 & H2 & F2 & _).
  pose proof (follows_hash _ _ _ _ F1) as D1. pose proof (follows_hash _ _ _ _ F2) as D2.
  rewrite <- Hlast in D2. destruct (same_hash _ _ _ D1 D2 Hlast) as [->|Hc].
  2: { right. exists (length l1), e, f. split_and!; [by apply list_lookup_middle|apply list_lookup_middle; lia| |done].
       rewrite !drop_ge; [done|rewrite length_app; simpl; lia..]. }
  destruct (IH l2 _ _ H1 H2) as [->|Hc]; [lia| |by left|right; apply collision_snoc; [lia|done]].
  destruct (last l1) as [p|] eqn:L1, (last l2) as [q|] eqn:L2; simpl; [| | |done].
  - destruct (follows_link _ _ _ _ F1 p eq_refl) as [_ <-]. destruct (follows_link _ _ _ _ F2 q eq_refl) as [_ <-]. done.
  - apply last_None in L2 as ->. destruct l1; simpl in *; [done|lia].
  - apply last_None in L1 as ->. destruct l2; simpl in *; [done|lia].
Qed.

(** C23: A plan's history cannot be rewritten under its cursor.  Two histories
    that both replay and end in the same sequence number and event hash are the
    same event by event, or else, at the last place where they differ, the one
    has a different event from the other with the same digest: rewriting a
    history means finding a second event for the digest of one of its own. *)
Theorem ReducePlan_tamper_evident planID l1 l2 s1 s2 :
  ReducePlan planID l1 = Ok s1 → ReducePlan planID l2 = Ok s2 →
  s1.(Snapshot_Cursor) = s2.(Snapshot_Cursor) → l1 = l2 ∨ event_collision l1 l2.
Proof.
  intros (t1 & d1 & H1 & _ & ->)%ReducePlan_ok (t2 & d2 & H2 & _ & ->)%ReducePlan_ok. simpl.
  destruct (reduce_at _ _ _ _ _ H1) as (_ & _ & ->), (reduce_at _ _ _ _ _ H2) as (_ & _ & ->). intros Hc.
  destruct (last l1) as [e|] eqn:L1, (last l2) as [f|] eqn:L2; simpl in Hc.
  - assert (e.(Event_Sequence) = Z.of_nat (length l1)) as Se.
    { rewrite last_lookup in L1. apply (reduce_sequence _ _ _ _ _ H1) in L1 as ->. destruct l1; simpl in *; [done|lia]. }
    assert (f.(Event_Sequence) = Z.of_nat (length l2)) as Sf.
    { rewrite last_lookup in L2. apply (reduce_sequence _ _ _ _ _ H2) in L2 as ->. destruct l2; simpl in *; [done|lia]. }
    injection Hc as Hs _ Hh. eapply chain_determined; [exact H1|exact H2|lia|by rewrite L1, L2; simpl; f_equal].
  - injection Hc as Hs _ _. rewrite last_lookup in L1. apply (reduce_sequence _ _ _ _ _ H1) in L1. lia.
  - injection Hc as Hs _ _. rewrite last_lookup in L2. apply (reduce_sequence _ _ _ _ _ H2) in L2. lia.
  - apply last_None in L1 as ->, L2 as ->. by left.
Qed.
End tamper.

(* ------------------------------------------------------------------ *)
(** * What a plan consumed *)

(** The charge an event carries. *)
Definition charge_of (e : EngineeringEvent) : option PlanBudgetConsumedPayload :=
  if e.(Event_Type) ≟ EventPlanBudgetConsumed then raw ← e.(Event_Payload); Unmarshal (struct charge_fields) no_charge raw else None.

Definition repeated (counted : list PlanBudgetConsumedPayload) (p : PlanBudgetConsumedPayload) : bool :=
  (p.(Charge_Key) ≠? "") && ((Charge_Key <$> counted) ∋? p.(Charge_Key)).

(** The charges of a history: a key counts the first time only. *)
Definition count_charge (counted : list PlanBudgetConsumedPayload) (e : EngineeringEvent) : list PlanBudgetConsumedPayload :=
  match charge_of e with
  | Some p => if repeated counted p then counted else counted ++ [p]
  | None => counted
  end.
Definition counted_charges (l : list EngineeringEvent) : list PlanBudgetConsumedPayload := fold_left count_charge l [].

Lemma counted_snoc l e : counted_charges (l ++ [e]) =
  match charge_of e with
  | Some p => if repeated (counted_charges l) p then counted_charges l else counted_charges l ++ [p]
  | None => counted_charges l
  end.
Proof. unfold counted_charges. by rewrite fold_left_app. Qed.

Definition sum_of {A} (f : A → Z) (l : list A) : Z := foldr (λ x n, (f x + n)%Z) 0%Z l.
Lemma sum_of_app {A} (f : A → Z) l1 l2 : sum_of f (l1 ++ l2) = (sum_of f l1 + sum_of f l2)%Z.
Proof. induction l1 as [|x l1 IH]; simpl; lia. Qed.

Lemma add64_wrap a b : add64 (wrap64 a) b = wrap64 (a + b).
Proof.
  unfold add64, wrap64. f_equal.
  replace ((a + 2 ^ 63) mod 2 ^ 64 - 2 ^ 63 + b + 2 ^ 63)%Z with ((a + 2 ^ 63) mod 2 ^ 64 + b)%Z by lia.
  rewrite Zplus_mod_idemp_l. f_equal. lia.
Qed.

(** A counter of the plan says what was charged, modulo 64 bits. *)
Definition counts (c : PlanConsumption) (l : list PlanBudgetConsumedPayload) : Prop :=
  c.(Consumed_ChildRuns) = wrap64 (sum_of Charge_ChildRuns l)
  ∧ c.(Consumed_ProviderInvocations) = wrap64 (sum_of Charge_ProviderInvocations l)
  ∧ c.(Consumed_WallSeconds) = wrap64 (sum_of Charge_WallSeconds l).
Definition charged_to (of_ : PlanBudgetConsumedPayload → string) (id : string) (l : list PlanBudgetConsumedPayload) :
  list PlanBudgetConsumedPayload := List.filter (λ p, of_ p ≟ id) l.

Record budget_counts (s : PlanSnapshot) (l : list PlanBudgetConsumedPayload) : Prop := {
  counts_plan : counts s.(Snapshot_Consumed) l;
  counts_stage : ∀ id, id ≠ "" → counts (default no_consumption (s.(Snapshot_StageConsumed) !! id)) (charged_to Charge_StageID id l);
  counts_run : ∀ id, id ≠ "" → counts (default no_consumption (s.(Snapshot_RunConsumed) !! id)) (charged_to Charge_RunID id l);
  counts_keys : ∀ k, k ∈ s.(Snapshot_consumedKeys) ↔ k ≠ "" ∧ k ∈ Charge_Key <$> l
}.

Lemma counts_nil : counts no_consumption [].
Proof. by vm_compute. Qed.
Lemma counts_snoc c l p : counts c l → counts (add_counts c p) (l ++ [p]).
Proof.
  intros (H1 & H2 & H3). unfold counts. simpl. rewrite H1, H2, H3, !add64_wrap, !sum_of_app. simpl. by rewrite !Z.add_0_r.
Qed.
Lemma counts_cost c l p : counts c l → counts (add_cost c p) l.
Proof. unfold add_cost. destruct (Charge_CostMicros p); [|done]. by destruct (Charge_CostKnown p). Qed.

Lemma charged_to_snoc of_ id l p :
  charged_to of_ id (l ++ [p]) = charged_to of_ id l ++ (if of_ p ≟ id then [p] else []).
Proof. unfold charged_to. rewrite List.filter_app. simpl. by destruct (of_ p ≟ id). Qed.

Lemma counts_charge_to m of_ l p :
  (∀ id, id ≠ "" → counts (default no_consumption (m !! id)) (charged_to of_ id l)) →
  ∀ id, id ≠ "" → counts (default no_consumption (charge_to m (of_ p) p !! id)) (charged_to of_ id (l ++ [p])).
Proof.
  intros Hm id Hid. rewrite charged_to_snoc. unfold charge_to. destruct (decide (of_ p = id)) as [<-|Hne].
  - rewrite (bool_decide_eq_false_2 (of_ p = "")), bool_decide_eq_true_2 by done. rewrite lookup_insert_eq. simpl. by apply counts_snoc, Hm.
  - rewrite (bool_decide_eq_false_2 (of_ p = id)) by done. rewrite app_nil_r.
    destruct (of_ p ≟ ""); [by apply Hm|]. rewrite lookup_insert_ne by done. by apply Hm.
Qed.

(** ** Charges and the other events *)

Lemma fold_left_preserves {S A} (P : S → Prop) (f : S → A → S) l s : (∀ s a, P s → P (f s a)) → P s → P (fold_left f l s).
Proof. intros Hf. revert s. induction l as [|a l IH]; intros s Hs; simpl; auto. Qed.

Lemma reopen_budget s p l : budget_counts s l → budget_counts (reopenFailedStage s p) l.
Proof. intros [H1 H2 H3 H4]. unfold reopenFailedStage. destruct (_ !! _); [|by split]. destruct (_ || _); by split. Qed.

Lemma apply_charge_counts s p l :
  budget_counts s l → budget_counts (apply_charge s p) (if repeated l p then l else l ++ [p]).
Proof.
  intros Hb. pose proof Hb as [H1 H2 H3 H4]. unfold apply_charge.
  assert (((p.(Charge_Key) ≠? "") && bool_decide (p.(Charge_Key) ∈ s.(Snapshot_consumedKeys))) = repeated l p) as ->.
  { unfold repeated. destruct (decide (p.(Charge_Key) = "")) as [->|Hk]; [done|]. rewrite (bool_decide_eq_false_2 (_ = "")) by done. simpl.
    apply bool_decide_ext. rewrite H4. tauto. }
  destruct (repeated l p); [done|]. cbv zeta.
  match goal with |- context [if ?b then ?t else reopenFailedStage ?t ?p] => assert (budget_counts t (l ++ [p])) as Ht end;
    [|destruct (Charge_StageID p ≟ ""); [exact Ht|by apply reopen_budget]].
  split; simpl.
  - by apply counts_cost, counts_snoc.
  - by apply counts_charge_to.
  - by apply counts_charge_to.
  - intros k. rewrite fmap_app, elem_of_app. simpl. rewrite list_elem_of_singleton. destruct (decide (p.(Charge_Key) = "")) as [He|Hne].
    + rewrite bool_decide_eq_true_2, H4 by done. rewrite He. naive_solver.
    + rewrite bool_decide_eq_false_2 by done. rewrite elem_of_union, elem_of_singleton, H4. naive_solver.
Qed.

(** The state of a budget: everything but a charge leaves it. *)
Definition budget (s : PlanSnapshot) := (s.(Snapshot_Consumed), s.(Snapshot_StageConsumed), s.(Snapshot_RunConsumed), s.(Snapshot_consumedKeys)).
Lemma budget_counts_same s t l : budget t = budget s → budget_counts s l → budget_counts t l.
Proof. intros [= E1 E2 E3 E4] [H1 H2 H3 H4]. split; [by rewrite E1|by rewrite E2|by rewrite E3|by rewrite E4]. Qed.

Lemma superseded_budget s p : budget (apply_superseded s p) = budget s.
Proof.
  unfold apply_superseded. apply (fold_left_preserves (λ t, budget t = budget s)); [|done]. by intros t id <-.
Qed.
Lemma settled_budget s p : budget (apply_settled s p) = budget s.
Proof. unfold apply_settled. by repeat destruct (bool_decide _); try destruct (_ <? _)%Z. Qed.


Lemma applied_budget s e t : applied s e t →
  match charge_of e with Some p => t = apply_charge s p | None => budget t = budget s end.
Proof.
  unfold charge_of. intros Ha. destruct Ha as [p K Hp|p K Hp|p K Hp|p K Hp|p K Hp|p K Hp|p t K Hp Ht|p K Hp|p K Hp|p t K Hp Ht|p K Hp|p K Hp|K].
  7: unfold apply_started in Ht; apply refuse_if_then in Ht as [_ [= <-]].
  10: unfold apply_gated in Ht; apply refuse_if_then in Ht as [_ [= <-]].
  all: try (rewrite K; simpl; first [done|apply settled_budget|apply superseded_budget]).
  - rewrite K. simpl. destruct Hp as (raw & -> & Hp). simpl. by rewrite Hp.
  - rewrite bool_decide_eq_false_2; [done|]. intros Hk. apply K. rewrite Hk. apply (bool_decide_eq_true_1 _). vm_compute. reflexivity.
Qed.

Section consumption.
Context `{!Canonicalizer}.

Lemma reduce_counts planID l s previous n : reduce_events planID l = Ok (s, previous, n) → budget_counts s (counted_charges l).
Proof.
  revert s previous n. induction l as [|e l IH] using rev_ind; intros s previous n.
  { intros [= <- <- <-]. split; [by vm_compute|by intros; vm_compute|by intros; vm_compute|]. intros k. simpl. set_solver. }
  intros (s0 & Hl & _ & _ & _ & t & Ht & ->)%reduce_snoc_ok. specialize (IH _ _ _ Hl).
  apply apply_plan_event_inv, applied_budget in Ht. rewrite counted_snoc.
  apply (budget_counts_same t); [done|]. destruct (charge_of e) as [p|]; [subst t; by apply apply_charge_counts|by eapply budget_counts_same].
Qed.
End consumption.
