(* ===== verification/PlanStore.v ===== *)
(** Plans in the runtime's database ([runtime/plan_store.go]) and the one append
    of the journal ([runtime/journal.go]), with the charge of a remediation
    epoch ([runtime/remediation_epoch_charge_store.go]).

    A row is the document it was written as.  The payload of a stored event is
    the value it was appended with: the canonical text of a document denotes the
    same value. *)

From S2P Require Import Prelude GoStrings Json Domain Canonical Topo GoTime Plan Events Invocation PlanPayload PlanJournal.
From stdpp Require Import sorting options.

Record PlanRow := MkPlanRow {
  PlanRow_ID : string;
  PlanRow_Repository : string;
  PlanRow_CurrentRevision : Z;
  PlanRow_CreatedAt : Z;
  PlanRow_ConfigDigest : string;
  PlanRow_SourceIssue : Z
}.

Record EventRow := MkEventRow {
  EventRow_Event : EngineeringEvent;
  EventRow_StreamKind : string;
  EventRow_GlobalSequence : Z
}.

Record PlanTables := MkPlanTables {
  plans : gmap string PlanRow;
  plan_revisions : gmap (string * Z) EngineeringPlan;
  journal : list EventRow
}.
Definition set_plan_rows m db := MkPlanTables m db.(plan_revisions) db.(journal).
Definition set_plan_revisions m db := MkPlanTables db.(plans) m db.(journal).
Definition set_journal l db := MkPlanTables db.(plans) db.(plan_revisions) l.

Definition streamRun : string := "run".
Definition streamPlan : string := "plan".

Inductive PlanStoreError :=
  | EventIdentityMissing
  | PlanEventNamesRun (id run : string)
  | NotAPlanEvent (kind : string)
  | AllocatedByJournal
  | PayloadRejected (e : PayloadError)
  | PlanUnknown (id : string)
  | EventWithoutHash (id : string)
  | StreamRefused (e : PlanError)
  | EventUnhashable (e : CanonicalError)
  | ConstraintFailed
  | AttemptUndecodable
  | AttemptIdentityStated (id : string)
  | EpochAlreadyCharged
  | ChildRunCeiling (plan : string) (ceiling created : Z) (stage : string)
  | PlanIDMissing
  | PlanRevisionNotPositive (id : string) (revision : Z)
  | PlanDigestMissing (id : string) (revision : Z)
  | PlanUndigestible (e : CanonicalError)
  | PlanDigestDiffers (id : string) (revision : Z) (stated computed : string)
  | PlanRepositoryMissing (id : string)
  | PlanRevisionConflict (id : string) (revision : Z) (stored offered : string)
  | AttemptIdentityMissing
  | SourceNotAnIssue (issue : Z)
  | PlanMissing (id : string) (issue : Z)
  | SourceBound (id : string) (existing issue : Z).

(* ------------------------------------------------------------------ *)
(** * Plan rows and revisions *)

Section plans.
Context `{!Canonicalizer}.
Implicit Types (db : PlanTables).

Definition validatePlanIdentity (p : EngineeringPlan) : result PlanStoreError () :=
  refuse_if (p.(Plan_ID) ≟ "") PlanIDMissing ;?
  refuse_if (p.(Plan_Revision) <? 1)%Z (PlanRevisionNotPositive p.(Plan_ID) p.(Plan_Revision)) ;?
  refuse_if (p.(Plan_Digest) ≟ "") (PlanDigestMissing p.(Plan_ID) p.(Plan_Revision)) ;?
  let? computed := wrap PlanUndigestible (plan_ContentDigest p) in
  refuse_if (computed ≠? p.(Plan_Digest)) (PlanDigestDiffers p.(Plan_ID) p.(Plan_Revision) p.(Plan_Digest) computed) ;?
  refuse_if (p.(Plan_Subject).(Subject_Repository) ≟ "") (PlanRepositoryMissing p.(Plan_ID)).

(** [ClaimPlan]: whether this call stored the plan's first revision.  A row
    without a revision is an earlier refused attempt and is taken over. *)
Definition ClaimPlan (p : EngineeringPlan) (createdAt : Z) db : result PlanStoreError (bool * PlanTables) :=
  validatePlanIdentity p ;?
  let? _ := wrap PlanUndigestible (CanonicalJSON (plan_value p)) in
  let revisions := <[(p.(Plan_ID), p.(Plan_Revision)) := p]> db.(plan_revisions) in
  let store row := refuse_if (bool_decide (is_Some (db.(plan_revisions) !! (p.(Plan_ID), p.(Plan_Revision))))) ConstraintFailed ;?
    Ok (true, MkPlanTables (<[p.(Plan_ID) := row]> db.(plans)) revisions db.(journal)) in
  match db.(plans) !! p.(Plan_ID) with
  | None => store (MkPlanRow p.(Plan_ID) p.(Plan_Subject).(Subject_Repository) p.(Plan_Revision) createdAt "" 0)
  | Some row =>
      if (row.(PlanRow_CurrentRevision) =? 0)%Z
      then store (MkPlanRow row.(PlanRow_ID) p.(Plan_Subject).(Subject_Repository) p.(Plan_Revision) row.(PlanRow_CreatedAt)
                    row.(PlanRow_ConfigDigest) row.(PlanRow_SourceIssue))
      else Ok (false, db)
  end.

Definition ClaimPlanAttempt (planID repository : string) (createdAt : Z) db : result PlanStoreError (bool * PlanTables) :=
  refuse_if ((planID ≟ "") || (repository ≟ "")) AttemptIdentityMissing ;?
  match db.(plans) !! planID with
  | Some _ => Ok (false, db)
  | None => Ok (true, set_plan_rows (<[planID := MkPlanRow planID repository 0 createdAt "" 0]> db.(plans)) db)
  end.

Definition raise_revision (row : PlanRow) (revision : Z) : PlanRow :=
  if (row.(PlanRow_CurrentRevision) <? revision)%Z
  then MkPlanRow row.(PlanRow_ID) row.(PlanRow_Repository) revision row.(PlanRow_CreatedAt) row.(PlanRow_ConfigDigest) row.(PlanRow_SourceIssue)
  else row.

Definition PutPlanRevision (p : EngineeringPlan) db : result PlanStoreError (bool * PlanTables) :=
  validatePlanIdentity p ;?
  let? _ := wrap PlanUndigestible (CanonicalJSON (plan_value p)) in
  match db.(plan_revisions) !! (p.(Plan_ID), p.(Plan_Revision)) with
  | Some stored =>
      refuse_if (stored.(Plan_Digest) ≠? p.(Plan_Digest))
        (PlanRevisionConflict p.(Plan_ID) p.(Plan_Revision) stored.(Plan_Digest) p.(Plan_Digest)) ;?
      Ok (false, db)
  | None =>
      match db.(plans) !! p.(Plan_ID) with
      | None => Err (PlanUnknown p.(Plan_ID))
      | Some row => Ok (true, MkPlanTables (<[p.(Plan_ID) := raise_revision row p.(Plan_Revision)]> db.(plans))
                                (<[(p.(Plan_ID), p.(Plan_Revision)) := p]> db.(plan_revisions)) db.(journal))
      end
  end.

Definition PlanRevision db (id : string) (revision : Z) : option EngineeringPlan := db.(plan_revisions) !! (id, revision).
(** The method [Plan]. *)
Definition plan_at_highest db (id : string) : option EngineeringPlan :=
  row ← db.(plans) !! id; PlanRevision db id row.(PlanRow_CurrentRevision).

Definition rows_by_creation db : list PlanRow :=
  merge_sort (λ x y : PlanRow, (UnixNano x.(PlanRow_CreatedAt) < UnixNano y.(PlanRow_CreatedAt))%Z
    ∨ UnixNano x.(PlanRow_CreatedAt) = UnixNano y.(PlanRow_CreatedAt) ∧ String.le x.(PlanRow_ID) y.(PlanRow_ID))
    (map_to_list db.(plans)).*2.
Definition Plans db : list EngineeringPlan :=
  omap (λ row, PlanRevision db row.(PlanRow_ID) row.(PlanRow_CurrentRevision)) (rows_by_creation db).
Definition PlanIdentities db : list (string * string * Z * Z) :=
  (λ row, (row.(PlanRow_ID), row.(PlanRow_Repository), row.(PlanRow_CurrentRevision), row.(PlanRow_SourceIssue))) <$> rows_by_creation db.

Record ConfigDigest := MkConfigDigest {
  ConfigDigest_Global : string;
  ConfigDigest_Repository : string
}.
Definition BindPlanConfig (planID : string) (config : ConfigDigest) db : result PlanStoreError PlanTables :=
  let? digest := wrap PlanUndigestible (Digest (GStruct [("global", GString config.(ConfigDigest_Global));
    ("repository", GString config.(ConfigDigest_Repository))])) in
  match db.(plans) !! planID with
  | Some row =>
      if row.(PlanRow_ConfigDigest) ≟ ""
      then Ok (set_plan_rows (<[planID := MkPlanRow row.(PlanRow_ID) row.(PlanRow_Repository) row.(PlanRow_CurrentRevision)
                 row.(PlanRow_CreatedAt) digest row.(PlanRow_SourceIssue)]> db.(plans)) db)
      else Ok db
  | None => Ok db
  end.
Definition planConfig db (planID : string) : option string := PlanRow_ConfigDigest <$> db.(plans) !! planID.

Definition PlanSource db (planID : string) : option (string * Z) :=
  (λ row, (row.(PlanRow_Repository), row.(PlanRow_SourceIssue))) <$> db.(plans) !! planID.
Definition BindPlanSource (planID : string) (issue : Z) db : result PlanStoreError PlanTables :=
  refuse_if (issue <=? 0)%Z (SourceNotAnIssue issue) ;?
  match db.(plans) !! planID with
  | None => Err (PlanMissing planID issue)
  | Some row =>
      if (row.(PlanRow_SourceIssue) =? 0)%Z
      then Ok (set_plan_rows (<[planID := MkPlanRow row.(PlanRow_ID) row.(PlanRow_Repository) row.(PlanRow_CurrentRevision)
                 row.(PlanRow_CreatedAt) row.(PlanRow_ConfigDigest) issue]> db.(plans)) db)
      else refuse_if (row.(PlanRow_SourceIssue) ≠? issue) (SourceBound planID row.(PlanRow_SourceIssue) issue) ;? Ok db
  end.
End plans.

(* ------------------------------------------------------------------ *)
(** * The append *)

Definition sequence_le : relation EngineeringEvent := λ x y, (x.(Event_Sequence) <= y.(Event_Sequence))%Z.
#[export] Instance sequence_le_dec : RelDecision sequence_le.
Proof. intros x y. unfold sequence_le. apply _. Defined.

(** [queryPlanEvents]: a stream in the order of its sequence. *)
Definition stream_events (db : PlanTables) (planID : string) : list EngineeringEvent :=
  EventRow_Event <$> List.filter (λ row, (row.(EventRow_StreamKind) ≟ streamPlan) && (row.(EventRow_Event).(Event_PlanID) ≟ planID)) db.(journal).
Definition queryPlanEvents (db : PlanTables) (planID : string) : result PlanStoreError (list EngineeringEvent) :=
  let events := merge_sort sequence_le (stream_events db planID) in
  check_all (λ e, refuse_if (e.(Event_EventHash) ≟ "") (EventWithoutHash e.(Event_ID))) events ;? Ok events.

(** One hash-chained subject. *)
Record journalStream := MkStream {
  stream_bind : PlanTables → result PlanStoreError ();
  stream_read : PlanTables → result PlanStoreError (list EngineeringEvent);
  stream_digest : list EngineeringEvent → result PlanStoreError string;
  stream_insert : PlanTables → EngineeringEvent → Z → result PlanStoreError PlanTables;
  stream_allocate : option (list EngineeringEvent → EngineeringEvent → result PlanStoreError EngineeringEvent);
  stream_mutate : PlanTables → result PlanStoreError PlanTables
}.

Section append.
Context `{!MapRange, !Canonicalizer, !GoUnicode}.
Implicit Types (db : PlanTables) (e : EngineeringEvent).

Definition check_event (e : EngineeringEvent) : result PlanStoreError () :=
  wrap PayloadRejected (validateEventPayload (λ kind, planEventTypes ∋? kind) planPayloads e ;? rejectEmbeddedTranscript e).

Definition hash_event e : result PlanStoreError EngineeringEvent :=
  let? hash := wrap EventUnhashable (EventDigest e) in Ok (with_hash e hash).

Definition next_global_sequence db : Z :=
  (fold_left Z.max (EventRow_GlobalSequence <$> db.(journal)) 0 + 1)%Z.

(** The links of an event after the events [existing], with a hash that does
    not yet cover the state after it, then the state after it, then the hash. *)
Definition seal_event (digest : list EngineeringEvent → result PlanStoreError string) (existing : list EngineeringEvent) e :
    result PlanStoreError EngineeringEvent :=
  let? before := digest existing in
  let e := linked e (Z.of_nat (length existing) + 1) (from_option Event_ID "" (last existing)) (from_option Event_EventHash "" (last existing)) before in
  let? e := hash_event e in
  let? after := digest (existing ++ [e]) in
  hash_event (with_after e after).

Definition appendToStream e (stream : journalStream) db : result PlanStoreError (EngineeringEvent * PlanTables) :=
  refuse_if (negb (e.(Event_Sequence) =? 0)%Z || (e.(Event_PreviousEventID) ≠? "") || (e.(Event_PreviousEventHash) ≠? "")
             || (e.(Event_StateBefore) ≠? "") || (e.(Event_StateAfter) ≠? "") || (e.(Event_EventHash) ≠? "")) AllocatedByJournal ;?
  check_event e ;?
  stream.(stream_bind) db ;?
  let? existing := stream.(stream_read) db in
  let? e := match stream.(stream_allocate) with
            | Some allocate => let? e := allocate existing e in check_event e ;? Ok e
            | None => Ok e
            end in
  let? e := seal_event stream.(stream_digest) existing e in
  let? _ := wrap EventUnhashable (CanonicalJSON (event_value e)) in
  let? db := stream.(stream_insert) db e (next_global_sequence db) in
  let? db := stream.(stream_mutate) db in
  Ok (e, db).

(** ** Plan streams *)

Definition PendingAttemptID : string := "attempt-pending".
Definition PlanAttemptID (planID : string) (revision ordinal : Z) : string :=
  "attempt-" +:+ planID +:+ "-r" +:+ itoa revision +:+ "-" +:+ itoa ordinal.

Definition refused_value (p : PlanAttemptRefusedPayload) : GoValue :=
  GStruct ([("attempt_id", GString p.(Refused_AttemptID)); ("revision", GInt p.(Refused_Revision)); ("origin", GString p.(Refused_Origin))]
    ++ omit_zero "issue" p.(Refused_Issue) ++ omit_none "subject" subject_value p.(Refused_Subject)
    ++ omit_none "previous_subject" subject_value p.(Refused_PreviousSubject) ++ omit_none "reasoning" reasoning_value p.(Refused_Reasoning)
    ++ omit_list "stages" attempt_stage_value p.(Refused_Stages) ++ [("errors", GList (GString <$> p.(Refused_Errors)))]
    ++ omit_list "evidence" attempt_evidence_value p.(Refused_Evidence)
    ++ omit_list "references" source_reference_value p.(Refused_References)).
Definition with_attempt_id (p : PlanAttemptRefusedPayload) (id : string) : PlanAttemptRefusedPayload :=
  MkAttemptRefused id p.(Refused_Revision) p.(Refused_Origin) p.(Refused_Issue) p.(Refused_Subject) p.(Refused_PreviousSubject)
    p.(Refused_Reasoning) p.(Refused_Stages) p.(Refused_Errors) p.(Refused_Evidence) p.(Refused_References).

(** How many attempts at a revision there were, and this one. *)
Definition attempt_ordinal (s : PlanSnapshot) (revision : Z) : Z :=
  (Z.of_nat (length (List.filter (λ a, a.(PlanAttempt_Revision) =? revision)%Z s.(Snapshot_Attempts))) + 1)%Z.

Definition allocate_attempt (existing : list EngineeringEvent) e : result PlanStoreError EngineeringEvent :=
  let? p := of_option AttemptUndecodable (raw ← e.(Event_Payload); Unmarshal (struct refused_fields) no_refused raw) in
  refuse_if (p.(Refused_AttemptID) ≠? PendingAttemptID) (AttemptIdentityStated p.(Refused_AttemptID)) ;?
  let? snapshot := wrap StreamRefused (ReducePlan e.(Event_PlanID) existing) in
  let id := PlanAttemptID e.(Event_PlanID) p.(Refused_Revision) (attempt_ordinal snapshot p.(Refused_Revision)) in
  Ok (with_payload e (Some (marshal (refused_value (with_attempt_id p id))))).
Definition planAttemptAllocator e : option (list EngineeringEvent → EngineeringEvent → result PlanStoreError EngineeringEvent) :=
  if e.(Event_Type) ≠? EventPlanAttemptRefused then None else Some allocate_attempt.

(** The keys of the table: the id, and the stream with the sequence. *)
Definition row_conflicts e (row : EventRow) : bool :=
  (row.(EventRow_Event).(Event_ID) ≟ e.(Event_ID))
  || ((row.(EventRow_StreamKind) ≟ streamPlan) && (row.(EventRow_Event).(Event_RunID) ≟ "")
      && (row.(EventRow_Event).(Event_PlanID) ≟ e.(Event_PlanID)) && (row.(EventRow_Event).(Event_Sequence) =? e.(Event_Sequence))%Z).
Definition insert_plan_event db e (global : Z) : result PlanStoreError PlanTables :=
  refuse_if (existsb (row_conflicts e) db.(journal)) ConstraintFailed ;?
  Ok (set_journal (db.(journal) ++ [MkEventRow e streamPlan global]) db).

Definition bind_plan (planID : string) db : result PlanStoreError () :=
  refuse_if (bool_decide (db.(plans) !! planID = None)) (PlanUnknown planID).

Definition planStream e : journalStream :=
  MkStream (bind_plan e.(Event_PlanID)) (λ db, queryPlanEvents db e.(Event_PlanID))
    (λ events, let? s := wrap StreamRefused (ReducePlan e.(Event_PlanID) events) in Ok s.(Snapshot_StateSHA256))
    insert_plan_event (planAttemptAllocator e) (λ db, Ok db).

Definition AppendPlanEvent e db : result PlanStoreError (EngineeringEvent * PlanTables) :=
  refuse_if ((e.(Event_ID) ≟ "") || (e.(Event_PlanID) ≟ "")) EventIdentityMissing ;?
  refuse_if (e.(Event_RunID) ≠? "") (PlanEventNamesRun e.(Event_ID) e.(Event_RunID)) ;?
  refuse_if (negb (planEventTypes ∋? e.(Event_Type))) (NotAPlanEvent e.(Event_Type)) ;?
  appendToStream e (planStream e) db.

(** [ReplayPlan] from the journal, before it follows remediation epochs. *)
Definition replay_plan db (planID : string) : result PlanStoreError PlanSnapshot :=
  bind_plan planID db ;?
  let? events := queryPlanEvents db planID in
  wrap StreamRefused (ReducePlan planID events).

(** ** The charge of a remediation epoch *)

Record EpochCharge := MkEpochCharge {
  EpochCharge_PlanID : string;
  EpochCharge_StageID : string;
  EpochCharge_RunID : string;
  EpochCharge_At : Z;
  EpochCharge_MaxChildRuns : Z;
  EpochCharge_EnforceCeiling : bool
}.

Definition charge_value (p : PlanBudgetConsumedPayload) : GoValue :=
  GStruct (omit_empty "key" p.(Charge_Key) ++ omit_empty "stage_id" p.(Charge_StageID) ++ omit_empty "run_id" p.(Charge_RunID)
    ++ omit_zero "child_runs" p.(Charge_ChildRuns) ++ omit_zero "provider_invocations" p.(Charge_ProviderInvocations)
    ++ omit_zero "wall_seconds" p.(Charge_WallSeconds) ++ omit_none "cost_micros" GInt p.(Charge_CostMicros)
    ++ omit_flag "cost_known" p.(Charge_CostKnown)).

Definition allocate_charge (c : EpochCharge) (existing : list EngineeringEvent) e : result PlanStoreError EngineeringEvent :=
  let? s := wrap StreamRefused (ReducePlan c.(EpochCharge_PlanID) existing) in
  refuse_if (0 <? (default no_consumption (s.(Snapshot_RunConsumed) !! c.(EpochCharge_RunID))).(Consumed_ChildRuns))%Z EpochAlreadyCharged ;?
  refuse_if (c.(EpochCharge_EnforceCeiling) && (c.(EpochCharge_MaxChildRuns) <=? s.(Snapshot_Consumed).(Consumed_ChildRuns))%Z)
    (ChildRunCeiling c.(EpochCharge_PlanID) c.(EpochCharge_MaxChildRuns) s.(Snapshot_Consumed).(Consumed_ChildRuns) c.(EpochCharge_StageID)) ;?
  Ok e.

Definition charge_event (c : EpochCharge) (id : string) : EngineeringEvent :=
  MkEvent "0.1" id "" c.(EpochCharge_PlanID) 0 EventPlanBudgetConsumed c.(EpochCharge_At) "" "" ""
    (Some (marshal (charge_value (MkBudgetConsumed ("child_run:" +:+ c.(EpochCharge_RunID)) c.(EpochCharge_StageID)
       c.(EpochCharge_RunID) 1 0 0 None false)))) [] "" "" "".

(** [commitEpochCharge] under a fresh event id, with the writes of the batch
    and the epoch that are committed with it. *)
Definition commitEpochCharge (c : EpochCharge) (id : string) (alongside : PlanTables → result PlanStoreError PlanTables) db :
    result PlanStoreError PlanTables :=
  let e := charge_event c id in
  let stream := planStream e in
  let? r := appendToStream e (MkStream stream.(stream_bind) stream.(stream_read) stream.(stream_digest) stream.(stream_insert)
    (Some (allocate_charge c)) alongside) db in
  Ok r.2.

Definition ChargeRemediationEpoch (c : EpochCharge) (id : string) db : result PlanStoreError PlanTables :=
  match commitEpochCharge c id (λ db, Ok db) db with
  | Err EpochAlreadyCharged => Ok db
  | r => r
  end.
End append.
