(* ===== verification/PlanStoreFacts.v ===== *)
(** What the plan store keeps: every stream replays, its state is what the last
    event recorded, budgets only grow, revisions are immutable, an approval is
    never withdrawn, an epoch is charged once and under the ceiling. *)

From S2P Require Import Prelude GoStrings Sha256 Json Domain Canonical Topo GoTime Plan Events Invocation PlanPayload PlanJournal PlanJournalFacts PlanStore.
From stdpp Require Import sorting relations options.

(* ------------------------------------------------------------------ *)
(** * Payloads that were checked *)

#[export] Instance lenient_charge : Lenient (struct charge_fields).
Proof. unfold charge_fields. apply _. Qed.
#[export] Instance lenient_decision : Lenient (struct decision_fields).
Proof. unfold decision_fields. apply _. Qed.
#[export] Instance lenient_refused : Lenient (struct refused_fields).
Proof.
  unfold refused_fields, subject_fields, reasoning_fields, observation_fields, environment_fields, cache_fields, attempt_stage_fields,
    attempt_independence_fields, attempt_evidence_fields, source_reference_fields. apply _.
Qed.

(** A checked payload is decoded leniently to what was checked. *)
Lemma payloadSchema_carries {A} (d : Decoder A) zero check e p `{!Lenient d} :
  payloadSchema d zero check e.(Event_Payload) = Ok tt → carries d zero e p → check p = Ok tt.
Proof.
  unfold payloadSchema. intros Hc (raw & Hraw & Hp). rewrite Hraw in Hc. destruct (strict_decode d zero raw) as [q|] eqn:Hs; [|done].
  apply strict_Unmarshal in Hs; [|done]. rewrite Hp in Hs. by injection Hs as ->.
Qed.

Section checked.
Context `{!MapRange, !Canonicalizer, !GoUnicode}.

Lemma check_event_payload e v : check_event e = Ok tt → planPayloads e.(Event_Type) = Some v → v e.(Event_Payload) = Ok tt.
Proof.
  unfold check_event. rewrite wrap_ok, check_then. unfold validateEventPayload. intros [Hv _] Hk. rewrite Hk in Hv.
  by apply check_then in Hv as [_ Hv].
Qed.

Lemma checked_charge e p : check_event e = Ok tt → charge_of e = Some p → check_charge p = Ok tt.
Proof.
  unfold charge_of. case_bool_decide as Hk; [|done]. intros Hc (raw & Hraw & Hp)%bind_Some.
  eapply payloadSchema_carries; [apply _| |by exists raw]. apply (check_event_payload _ _ Hc). by rewrite Hk.
Qed.

Lemma checked_decision e p : check_event e = Ok tt → e.(Event_Type) = EventPlanApproved →
  carries (struct decision_fields) no_decision_payload e p → check_decision p = Ok tt.
Proof. intros Hc Hk Hp. eapply payloadSchema_carries; [apply _| |exact Hp]. apply (check_event_payload _ _ Hc). by rewrite Hk. Qed.

Lemma checked_refused e p : check_event e = Ok tt → e.(Event_Type) = EventPlanAttemptRefused →
  carries (struct refused_fields) no_refused e p → check_refused p = Ok tt.
Proof. intros Hc Hk Hp. eapply payloadSchema_carries; [apply _| |exact Hp]. apply (check_event_payload _ _ Hc). by rewrite Hk. Qed.
End checked.

(** What a checked charge adds. *)
Definition deltas (p : PlanBudgetConsumedPayload) : list Z := [p.(Charge_ChildRuns); p.(Charge_ProviderInvocations); p.(Charge_WallSeconds)].

Lemma check_charge_deltas p : check_charge p = Ok tt → Forall (λ n, (0 <= n)%Z) (deltas p).
Proof.
  unfold check_charge. rewrite !refuse_if_then, check_then, errors_Join_ok. intros (_ & _ & _ & _ & Hall).
  rewrite !Forall_cons in Hall. unfold nonNegative in Hall. rewrite !refuse_if_ok, !Z.ltb_ge in Hall.
  unfold deltas. rewrite !Forall_cons. naive_solver.
Qed.

Lemma decoded_charge raw p : Unmarshal (struct charge_fields) no_charge raw = Some p → Forall int64_range (deltas p).
Proof.
  unfold Unmarshal. destruct (struct charge_fields false raw no_charge).2 eqn:He; [done|]. intros [= <-]. clear He.
  assert (Forall int64_range (deltas no_charge)) as Hzero by (repeat constructor; vm_compute; intros [=]).
  destruct raw as [| | | | |ms]; try exact Hzero. unfold deltas, charge_fields.
  cbn [struct and_field no_fields read_fields fst Charge_ChildRuns Charge_ProviderInvocations Charge_WallSeconds].
  apply List.Forall_cons; [apply read_int_range|]. apply List.Forall_cons; [apply read_int_range|].
  apply List.Forall_cons; [apply read_int_range|done].
Qed.

(* ------------------------------------------------------------------ *)
(** * Recorded streams *)

Section recorded.
Context `{!MapRange, !Canonicalizer, !GoUnicode}.
Implicit Types (e : EngineeringEvent) (db : PlanTables).

Definition plan_digest planID (events : list EngineeringEvent) : result PlanStoreError string :=
  let? s := wrap StreamRefused (ReducePlan planID events) in Ok s.(Snapshot_StateSHA256).

(** A stream as appends leave it: each event was checked, and the stream
    reduced to the states the event states. *)
Inductive recorded (planID : string) : list EngineeringEvent → Prop :=
  | recorded_nil : recorded planID []
  | recorded_snoc l e s : recorded planID l → check_event e = Ok tt → ReducePlan planID (l ++ [e]) = Ok s →
      s.(Snapshot_StateSHA256) = e.(Event_StateAfter) → plan_digest planID l = Ok e.(Event_StateBefore) → recorded planID (l ++ [e]).

Lemma recorded_snoc_inv planID l e : recorded planID (l ++ [e]) →
  recorded planID l ∧ check_event e = Ok tt ∧ plan_digest planID l = Ok e.(Event_StateBefore)
  ∧ ∃ s, ReducePlan planID (l ++ [e]) = Ok s ∧ s.(Snapshot_StateSHA256) = e.(Event_StateAfter).
Proof.
  intros Hr. inversion Hr as [Heq|l' e' s Hl Hc Hs Hd Hb Heq]; [by apply app_cons_not_nil in Heq|].
  apply app_inj_tail in Heq as [-> ->]. eauto 6.
Qed.

Lemma recorded_prefix planID l l' : recorded planID (l ++ l') → recorded planID l.
Proof.
  induction l' as [|e l' IH] using rev_ind; [by rewrite app_nil_r|]. rewrite app_assoc. intros [Hr _]%recorded_snoc_inv. auto.
Qed.

Lemma recorded_checked planID l e : recorded planID l → e ∈ l → check_event e = Ok tt.
Proof.
  induction 1 as [|l e' s _ IH Hc _ _ _]; [by intros ?%not_elem_of_nil|].
  intros [?|Hl%list_elem_of_singleton]%elem_of_app; [auto|by subst].
Qed.

Lemma recorded_reduces planID l : recorded planID l → ∃ t, reduce_events planID l = Ok (t, last l, Z.of_nat (length l)).
Proof. destruct 1 as [|l e s _ _ Hs _ _]; [by eexists|]. by eapply ReducePlan_reduce. Qed.

(** ** No counter overflows *)

Lemma digest_safe s d : PlanStateDigest s = Ok d →
  safe_range s.(Snapshot_Consumed).(Consumed_ChildRuns) ∧ safe_range s.(Snapshot_Consumed).(Consumed_ProviderInvocations)
  ∧ safe_range s.(Snapshot_Consumed).(Consumed_WallSeconds).
Proof.
  unfold PlanStateDigest. rewrite Digest_ok. intros [Hv _].
  assert (validateIJSONValue (consumption_value s.(Snapshot_Consumed)) = Ok tt) as Hc.
  { eapply validate_member; [exact Hv|]. simpl Snapshot_Consumed. member. }
  split_and!; apply validate_GInt; eapply validate_member; try exact Hc; member.
Qed.

(** The three counters of a charge. *)
Definition counters : list (PlanBudgetConsumedPayload → Z) := [Charge_ChildRuns; Charge_ProviderInvocations; Charge_WallSeconds].

Lemma counted_checked planID l p : recorded planID l → p ∈ counted_charges l → Forall (λ n, (0 <= n < 2 ^ 63)%Z) (deltas p).
Proof.
  induction 1 as [|l e s _ IH Hc _ _ _]; [by intros ?%not_elem_of_nil|]. rewrite counted_snoc. destruct (charge_of e) as [q|] eqn:Hq; [|exact IH].
  destruct (repeated _ q); [exact IH|]. intros [Hp|Hp%list_elem_of_singleton]%elem_of_app; [by apply IH|subst q].
  pose proof (check_charge_deltas _ (checked_charge _ _ Hc Hq)) as Hnn. revert Hq. unfold charge_of. case_bool_decide; [|done].
  intros (raw & _ & Hu)%bind_Some. apply decoded_charge in Hu. apply Forall_forall. intros n Hn.
  rewrite Forall_forall in Hnn, Hu. specialize (Hnn n Hn). specialize (Hu n Hn). unfold int64_range in Hu. lia.
Qed.

Lemma counted_nonneg planID l f p : recorded planID l → f ∈ counters → p ∈ counted_charges l → (0 <= f p < 2 ^ 63)%Z.
Proof.
  intros Hr Hf Hp. pose proof (counted_checked _ _ _ Hr Hp) as Hd. unfold deltas in Hd. rewrite !Forall_cons in Hd.
  unfold counters in Hf. rewrite !elem_of_cons in Hf. destruct Hf as [->|[->|[->|Hf]]]; [tauto..|by apply not_elem_of_nil in Hf].
Qed.

Lemma sum_of_nonneg {A} (f : A → Z) l : (∀ x, x ∈ l → (0 <= f x)%Z) → (0 <= sum_of f l)%Z.
Proof.
  induction l as [|x l IH]; intros Hall; simpl; [lia|]. assert (0 <= f x)%Z by (apply Hall; left).
  assert (0 <= sum_of f l)%Z by (apply IH; intros y Hy; apply Hall; by right). lia.
Qed.
Lemma sum_of_filter {A} (f : A → Z) (keep : A → bool) l : (∀ x, x ∈ l → (0 <= f x)%Z) → (sum_of f (List.filter keep l) <= sum_of f l)%Z.
Proof.
  induction l as [|x l IH]; intros Hall; simpl; [lia|]. assert (0 <= f x)%Z by (apply Hall; left).
  assert (sum_of f (List.filter keep l) <= sum_of f l)%Z by (apply IH; intros y Hy; apply Hall; by right). destruct (keep x); simpl; lia.
Qed.

Lemma recorded_total planID l f : recorded planID l → f ∈ counters → (0 <= sum_of f (counted_charges l) <= maxSafeInteger)%Z.
Proof.
  intros Hr Hf. induction Hr as [|l e s Hl IH Hc Hs Hd Hb]; [by vm_compute|].
  assert (recorded planID (l ++ [e])) as Hr by (by eapply recorded_snoc).
  apply ReducePlan_ok in Hs as (t & d & Ht & Hdig & _). pose proof (reduce_counts _ _ _ _ _ Ht) as [Hplan _ _ _].
  assert (safe_range (wrap64 (sum_of f (counted_charges (l ++ [e]))))) as Hsafe.
  { destruct (digest_safe _ _ Hdig) as (S1 & S2 & S3), Hplan as (C1 & C2 & C3). unfold counters in Hf. rewrite !elem_of_cons in Hf.
    destruct Hf as [->|[->|[->|Hf]]]; [by rewrite <- C1|by rewrite <- C2|by rewrite <- C3|by apply not_elem_of_nil in Hf]. }
  assert (∀ p, p ∈ counted_charges (l ++ [e]) → (0 <= f p < 2 ^ 63)%Z) as Hnn by (intros p; by apply (counted_nonneg planID)).
  rewrite counted_snoc in Hsafe, Hnn |- *.
  destruct (charge_of e) as [q|]; [|done]. destruct (repeated _ q); [done|]. rewrite sum_of_app in Hsafe |- *. simpl in *. rewrite Z.add_0_r in *.
  assert (0 <= f q < 2 ^ 63)%Z by (apply Hnn, elem_of_app; right; by left).
  destruct (wrap64_safe _ _ IH ltac:(eassumption) Hsafe). lia.
Qed.

(** A counter of a recorded stream is the plain sum of what was charged. *)
Lemma recorded_counts planID l c charges :
  recorded planID l → counts c charges → (∃ keep, charges = List.filter keep (counted_charges l)) →
  c.(Consumed_ChildRuns) = sum_of Charge_ChildRuns charges ∧ c.(Consumed_ProviderInvocations) = sum_of Charge_ProviderInvocations charges
  ∧ c.(Consumed_WallSeconds) = sum_of Charge_WallSeconds charges.
Proof.
  intros Hr (C1 & C2 & C3) [keep ->]. rewrite C1, C2, C3.
  assert (∀ f, f ∈ counters → wrap64 (sum_of f (List.filter keep (counted_charges l))) = sum_of f (List.filter keep (counted_charges l))) as Hw.
  { intros f Hf. apply wrap64_small. assert (∀ x, x ∈ counted_charges l → (0 <= f x)%Z) as Hnn by (intros x Hx; by apply (counted_nonneg planID l)).
    split.
    - apply sum_of_nonneg. intros x Hx. apply list_elem_of_In, filter_In in Hx as [Hx%list_elem_of_In _]. by apply Hnn.
    - pose proof (sum_of_filter f keep _ Hnn). pose proof (recorded_total _ _ _ Hr Hf). lia. }
  split_and!; apply Hw; unfold counters; rewrite !elem_of_cons; auto.
Qed.
End recorded.

(* ------------------------------------------------------------------ *)
(** * An append extends a recorded stream *)

Section append.
Context `{!MapRange, !Canonicalizer, !GoUnicode}.
Implicit Types (e : EngineeringEvent) (db : PlanTables).

Lemma EventDigest_hash e hash : EventDigest (with_hash e hash) = EventDigest e.
Proof. by destruct e. Qed.

Lemma hash_event_ok e e' : hash_event e = Ok e' ↔ ∃ hash, EventDigest e = Ok hash ∧ e' = with_hash e hash.
Proof. unfold hash_event. rewrite rbind_ok. setoid_rewrite wrap_ok. naive_solver. Qed.

Lemma EventDigest_len e d : EventDigest e = Ok d → len d = 64%nat.
Proof. unfold EventDigest. rewrite check_then, refuse_if_then. intros (_ & _ & Hd). by eapply Digest_len. Qed.

(** ** Reading a stream *)

Lemma merge_sort_sorted l : StronglySorted sequence_le l → (∀ x y, x ∈ l → y ∈ l → sequence_le x y → sequence_le y x → x = y) →
  merge_sort sequence_le l = l.
Proof.
  intros Hs Hanti. apply (StronglySorted_unique_strong sequence_le).
  - intros x y. rewrite merge_sort_Permutation. apply Hanti.
  - apply StronglySorted_merge_sort; [intros x y z; unfold sequence_le; lia|intros x y; unfold sequence_le; lia].
  - done.
  - apply merge_sort_Permutation.
Qed.

Lemma StronglySorted_lookup {A} (R : relation A) l :
  (∀ i j x y, (i < j)%nat → l !! i = Some x → l !! j = Some y → R x y) → StronglySorted R l.
Proof.
  induction l as [|x l IH]; intros Hl; constructor.
  - apply IH. intros i j y z Hij Hy Hz. apply (Hl (S i) (S j)); [lia|done|done].
  - apply Forall_lookup. intros i y Hy. by apply (Hl 0%nat (S i)); [lia| |].
Qed.

(** A stream that reduces is read back as it is stored. *)
Lemma query_reduced db planID r : reduce_events planID (stream_events db planID) = Ok r → queryPlanEvents db planID = Ok (stream_events db planID).
Proof.
  intros Hr. unfold queryPlanEvents. cbv zeta. rewrite merge_sort_sorted.
  - apply check_then. split; [|done]. apply check_all_ok. intros e (i & Hi)%list_elem_of_lookup.
    apply refuse_if_ok, bool_decide_eq_false. intros He. pose proof (follows_hash _ _ _ _ (reduce_follows _ _ _ _ _ Hr Hi)) as Hd.
    rewrite He in Hd. by apply EventDigest_len in Hd.
  - apply StronglySorted_lookup. intros i j x y Hij Hx Hy. unfold sequence_le.
    rewrite (reduce_sequence _ _ _ _ _ Hr Hx), (reduce_sequence _ _ _ _ _ Hr Hy). lia.
  - intros x y (i & Hi)%list_elem_of_lookup (j & Hj)%list_elem_of_lookup. unfold sequence_le.
    rewrite (reduce_sequence _ _ _ _ _ Hr Hi), (reduce_sequence _ _ _ _ _ Hr Hj). intros. assert (i = j) as -> by lia.
    rewrite Hi in Hj. by injection Hj.
Qed.

(** ** Writing an event *)

Lemma plan_digest_ok planID l d : plan_digest planID l = Ok d ↔ ∃ s, ReducePlan planID l = Ok s ∧ d = s.(Snapshot_StateSHA256).
Proof. unfold plan_digest. rewrite rbind_ok. setoid_rewrite wrap_ok. naive_solver. Qed.

(** The event that closes a stream may be sealed again: the state it reduces
    to does not depend on the seal. *)
Lemma reduce_resealed planID l e after hash s :
  ReducePlan planID (l ++ [e]) = Ok s → EventDigest (with_after e after) = Ok hash →
  ∃ s', ReducePlan planID (l ++ [with_hash (with_after e after) hash]) = Ok s' ∧ s'.(Snapshot_StateSHA256) = s.(Snapshot_StateSHA256).
Proof.
  intros (t & d & Ht & Hd & ->)%ReducePlan_ok Hh.
  apply reduce_snoc_ok in Ht as (s0 & R0 & [Fk Fp Fr Fs Fl Fh Fa] & _ & _ & u & Hu & ->).
  set (e' := with_hash (with_after e after) hash).
  assert (follows planID (last l) (Z.of_nat (length l)) e') as Fe.
  { split; try done. }
  exists (with_cursor u (cursor_of e') d). split; [|done]. apply ReducePlan_ok. exists (with_cursor u (cursor_of e') u.(Snapshot_StateSHA256)), d.
  split_and!; [|exact Hd|done].
  apply reduce_snoc_ok. exists s0. split_and!; [exact R0|exact Fe|by rewrite last_snoc|rewrite length_app; simpl; lia|].
  exists u. split; [exact Hu|done].
Qed.

Lemma seal_event_ok planID l e e' : seal_event (plan_digest planID) l e = Ok e' →
  ∃ b s, ReducePlan planID (l ++ [e']) = Ok s ∧ s.(Snapshot_StateSHA256) = e'.(Event_StateAfter)
    ∧ plan_digest planID l = Ok b ∧ e'.(Event_StateBefore) = b
    ∧ with_hash (with_after e' "") "" = with_hash (with_after (linked e (Z.of_nat (length l) + 1)
        (from_option Event_ID "" (last l)) (from_option Event_EventHash "" (last l)) b) "") "".
Proof.
  unfold seal_event. intros (b & Hb & Hseal)%rbind_ok. apply rbind_ok in Hseal as (e1 & (h1 & Hh1 & ->)%hash_event_ok & Hseal).
  apply rbind_ok in Hseal as (a & (s & Hs & ->)%plan_digest_ok & (h2 & Hh2 & ->)%hash_event_ok).
  destruct (reduce_resealed _ _ _ _ _ _ Hs Hh2) as (s' & Hs' & Hsame). exists b, s'. split_and!; [exact Hs'|exact Hsame|exact Hb|done|done].
Qed.

(** What sealing leaves of an event. *)
Definition content e := (e.(Event_ID), e.(Event_RunID), e.(Event_PlanID), e.(Event_Type), e.(Event_OccurredAt), e.(Event_Payload), e.(Event_Artifacts)).

Lemma seal_event_content planID l e e' : seal_event (plan_digest planID) l e = Ok e' → content e' = content e.
Proof. intros (b & s & _ & _ & _ & _ & Heq)%seal_event_ok. exact (f_equal content Heq). Qed.

Lemma check_event_content e e' : content e' = content e → check_event e' = check_event e.
Proof. destruct e, e'. unfold content. simpl. intros [= -> -> -> -> -> -> ->]. done. Qed.

Definition allocates (stream : journalStream) (l : list EngineeringEvent) e e1 : Prop :=
  match stream.(stream_allocate) with Some allocate => allocate l e = Ok e1 | None => e1 = e end.

(** The part of an append that every plan stream shares. *)
Record appended (planID : string) (stream : journalStream) e db e' db' : Prop := {
  appended_known : is_Some (db.(plans) !! planID);
  appended_state : recorded planID (stream_events db planID ++ [e']);
  appended_content : ∃ e1, allocates stream (stream_events db planID) e e1 ∧ content e' = content e1;
  appended_row : ∃ global, db' = set_journal (db.(journal) ++ [MkEventRow e' streamPlan global]) db
}.

Lemma appendToStream_plan planID alloc mutate e db e' db' :
  let stream := MkStream (bind_plan planID) (λ db, queryPlanEvents db planID) (plan_digest planID) insert_plan_event alloc mutate in
  (∀ db db', mutate db = Ok db' → db' = db) → recorded planID (stream_events db planID) →
  appendToStream e stream db = Ok (e', db') → appended planID stream e db e' db'.
Proof.
  intros stream Hm Hr. unfold appendToStream. rewrite refuse_if_then, !check_then. intros (_ & Hc & Hb & Hrest).
  destruct (recorded_reduces _ _ Hr) as [t Ht].
  apply rbind_ok in Hrest as (existing & Hread & (e1 & He1 & (e2 & Hseal & (_ & _ & (db1 & Hins & (db2 & Hmut & [= <- <-])%rbind_ok)%rbind_ok)%rbind_ok)%rbind_ok)%rbind_ok).
  simpl in Hb, Hread, Hseal, Hins, Hmut. rewrite (query_reduced _ _ _ Ht) in Hread. injection Hread as <-. apply Hm in Hmut as ->.
  assert (allocates stream (stream_events db planID) e e1 ∧ check_event e1 = Ok tt) as [Hal Hc1].
  { unfold allocates. simpl. simpl in He1. destruct alloc as [a|]; [|by injection He1 as <-].
    apply rbind_ok in He1 as (e1' & Ha & (Hc' & [= <-])%check_then). done. }
  pose proof (seal_event_content _ _ _ _ Hseal) as Hcontent.
  apply seal_event_ok in Hseal as (b & s & Hs & Hd & Hb2 & Hb3 & _).
  unfold insert_plan_event in Hins. apply refuse_if_then in Hins as [_ [= <-]].
  split.
  - revert Hb. unfold bind_plan. rewrite refuse_if_ok, bool_decide_eq_false. by destruct (db.(plans) !! planID).
  - eapply recorded_snoc; [exact Hr| |exact Hs|exact Hd|by rewrite Hb3]. by rewrite (check_event_content _ _ Hcontent).
  - by exists e1.
  - by eexists.
Qed.

Lemma stream_events_snoc db e global planID :
  stream_events (set_journal (db.(journal) ++ [MkEventRow e streamPlan global]) db) planID
  = stream_events db planID ++ (if e.(Event_PlanID) ≟ planID then [e] else []).
Proof. unfold stream_events. simpl. rewrite List.filter_app, fmap_app. simpl. by destruct (_ ≟ planID). Qed.
End append.

(* ------------------------------------------------------------------ *)
(** * The store *)

Section system.
Context `{!MapRange, !Canonicalizer, !GoUnicode}.
Implicit Types (e : EngineeringEvent) (db : PlanTables) (p : EngineeringPlan).

(** What the runtime does to the plan tables.  An event of a run is a row the
    plan streams do not select; the epoch's own writes are in other tables. *)
Inductive store_step db : PlanTables → Prop :=
  | step_claim p at_ stored db' : ClaimPlan p at_ db = Ok (stored, db') → store_step db db'
  | step_attempt id repository at_ stored db' : ClaimPlanAttempt id repository at_ db = Ok (stored, db') → store_step db db'
  | step_revision p stored db' : PutPlanRevision p db = Ok (stored, db') → store_step db db'
  | step_config id config db' : BindPlanConfig id config db = Ok db' → store_step db db'
  | step_source id issue db' : BindPlanSource id issue db = Ok db' → store_step db db'
  | step_append e e' db' : AppendPlanEvent e db = Ok (e', db') → store_step db db'
  | step_charge c id alongside db' : (∀ db1 db2, alongside db1 = Ok db2 → db2 = db1) →
      commitEpochCharge c id alongside db = Ok db' → store_step db db'
  | step_run row : row.(EventRow_StreamKind) ≠ streamPlan → store_step db (set_journal (db.(journal) ++ [row]) db).

Definition empty_store : PlanTables := MkPlanTables ∅ ∅ [].
Definition reachable db : Prop := rtc store_step empty_store db.

(** ** Effects *)

(** What a step may write of the plan rows: a row stays, with its id, and never
    names an earlier revision; a revision is written once. *)
Record genuine (id : string) (revision : Z) p : Prop := {
  genuine_id : p.(Plan_ID) = id;
  genuine_revision : p.(Plan_Revision) = revision;
  genuine_positive : (1 <= revision)%Z;
  genuine_digest : plan_ContentDigest p = Ok p.(Plan_Digest)
}.

Lemma validatePlanIdentity_ok p : validatePlanIdentity p = Ok tt → genuine p.(Plan_ID) p.(Plan_Revision) p.
Proof.
  unfold validatePlanIdentity. rewrite !refuse_if_then. intros (_ & Hr%Z.ltb_ge & _ & (d & Hd%wrap_ok & (He & _)%refuse_if_then)%rbind_ok).
  split; [done|done|lia|]. by apply negb_false_iff, bool_decide_eq_true in He as ->.
Qed.

(** The rows against the revisions. *)
Record rows_ok db : Prop := {
  rows_named : ∀ id row, db.(plans) !! id = Some row → row.(PlanRow_ID) = id ∧ (0 <= row.(PlanRow_CurrentRevision))%Z;
  rows_genuine : ∀ id r p, db.(plan_revisions) !! (id, r) = Some p → genuine id r p;
  rows_highest : ∀ id r p, db.(plan_revisions) !! (id, r) = Some p →
    ∃ row, db.(plans) !! id = Some row ∧ (r <= row.(PlanRow_CurrentRevision))%Z;
  rows_current : ∀ id row, db.(plans) !! id = Some row → (0 < row.(PlanRow_CurrentRevision))%Z →
    is_Some (db.(plan_revisions) !! (id, row.(PlanRow_CurrentRevision)))
}.

(** A row is replaced by one of the same id and revision. *)
Lemma rows_update db id row row' : rows_ok db → db.(plans) !! id = Some row → row'.(PlanRow_ID) = id →
  row'.(PlanRow_CurrentRevision) = row.(PlanRow_CurrentRevision) → rows_ok (set_plan_rows (<[id := row']> db.(plans)) db).
Proof.
  intros [Hn Hg Hh Hc] Hrow Hid Hcur. destruct (Hn _ _ Hrow) as [_ Hpos]. split; simpl.
  - intros id0 row0 [[<- <-]|[_ ?]]%lookup_insert_Some; [by rewrite Hcur|by apply Hn].
  - exact Hg.
  - intros id0 r p (row0 & Hr & Hle)%Hh. destruct (decide (id0 = id)) as [->|].
    + rewrite Hrow in Hr. injection Hr as <-. exists row'. rewrite lookup_insert_eq, Hcur. done.
    + exists row0. by rewrite lookup_insert_ne.
  - intros id0 row0 [[<- <-]|[_ ?]]%lookup_insert_Some; [rewrite Hcur; by apply Hc|by apply Hc].
Qed.

(** A revision is added, and its row names the highest. *)
Lemma rows_store db id row r p : rows_ok db → db.(plan_revisions) !! (id, r) = None → genuine id r p → row.(PlanRow_ID) = id →
  (match db.(plans) !! id with Some old => row.(PlanRow_CurrentRevision) = Z.max old.(PlanRow_CurrentRevision) r
   | None => row.(PlanRow_CurrentRevision) = r end) →
  rows_ok (MkPlanTables (<[id := row]> db.(plans)) (<[(id, r) := p]> db.(plan_revisions)) db.(journal)).
Proof.
  intros [Hn Hg Hh Hc] Hnew Hp Hid Hcur. pose proof (genuine_positive _ _ _ Hp) as Hr.
  assert (0 <= row.(PlanRow_CurrentRevision) ∧ r <= row.(PlanRow_CurrentRevision))%Z as [Hpos Hle].
  { destruct (db.(plans) !! id) as [old|] eqn:Ho; [|lia]. apply Hn in Ho. lia. }
  split; simpl.
  - intros id0 row0 [[<- <-]|[_ ?]]%lookup_insert_Some; [done|by apply Hn].
  - intros id0 r0 p0 [[[= <- <-] <-]|[_ ?]]%lookup_insert_Some; [done|by apply Hg].
  - intros id0 r0 p0 [[[= <- <-] <-]|[Hne Hp0]]%lookup_insert_Some; [exists row; by rewrite lookup_insert_eq|].
    destruct (Hh _ _ _ Hp0) as (old & Ho & Hle0). destruct (decide (id0 = id)) as [->|].
    + exists row. rewrite lookup_insert_eq. rewrite Ho in Hcur. split; [done|lia].
    + exists old. by rewrite lookup_insert_ne.
  - intros id0 row0 [[<- <-]|[Hne Hrow]]%lookup_insert_Some Hp0.
    + destruct (db.(plans) !! id) as [old|] eqn:Ho; [|rewrite Hcur, lookup_insert_eq; eauto]. rewrite Hcur.
      destruct (Z.max_spec old.(PlanRow_CurrentRevision) r) as [[_ ->]|[Hlt ->]]; [rewrite lookup_insert_eq; eauto|].
      destruct (Hc _ _ Ho) as [q Hq]; [lia|]. rewrite lookup_insert_ne; [eauto|]. intros [= Heq]. rewrite <- Heq, Hnew in Hq. done.
    + destruct (Hc _ _ Hrow Hp0) as [q Hq]. rewrite lookup_insert_ne; [eauto|]. naive_solver.
Qed.

(** The plan rows and revisions a step leaves. *)
Record rows_kept db db' : Prop := {
  kept_ok : rows_ok db';
  kept_revisions : db.(plan_revisions) ⊆ db'.(plan_revisions);
  kept_rows : ∀ id row, db.(plans) !! id = Some row → ∃ row', db'.(plans) !! id = Some row' ∧
    (row.(PlanRow_CurrentRevision) <= row'.(PlanRow_CurrentRevision))%Z
}.

Lemma rows_kept_refl db : rows_ok db → rows_kept db db.
Proof. intros Hok. split; [done|done|]. intros id row Hr. exists row. split; [done|lia]. Qed.

Lemma rows_kept_journal db journal' : rows_ok db → rows_kept db (set_journal journal' db).
Proof.
  intros Hok. split; [by destruct Hok; split|done|]. intros id row Hr. exists row. split; [done|lia].
Qed.

Lemma rows_kept_update db id row row' : rows_ok db → db.(plans) !! id = Some row → row'.(PlanRow_ID) = id →
  row'.(PlanRow_CurrentRevision) = row.(PlanRow_CurrentRevision) → rows_kept db (set_plan_rows (<[id := row']> db.(plans)) db).
Proof.
  intros Hok Hrow Hid Hcur. split; [by eapply rows_update|done|]. intros id0 row0 Hr. simpl. destruct (decide (id0 = id)) as [->|].
  - rewrite Hrow in Hr. injection Hr as <-. exists row'. rewrite lookup_insert_eq, Hcur. split; [done|lia].
  - exists row0. rewrite lookup_insert_ne by done. split; [done|lia].
Qed.

Lemma rows_kept_store db id row r p : rows_ok db → db.(plan_revisions) !! (id, r) = None → genuine id r p → row.(PlanRow_ID) = id →
  (match db.(plans) !! id with Some old => row.(PlanRow_CurrentRevision) = Z.max old.(PlanRow_CurrentRevision) r
   | None => row.(PlanRow_CurrentRevision) = r end) →
  rows_kept db (MkPlanTables (<[id := row]> db.(plans)) (<[(id, r) := p]> db.(plan_revisions)) db.(journal)).
Proof.
  intros Hok Hnew Hp Hid Hcur. split; [by apply rows_store|by apply insert_subseteq|]. simpl. intros id0 row0 Hr0.
  destruct (decide (id0 = id)) as [->|].
  - exists row. rewrite Hr0 in Hcur. rewrite lookup_insert_eq. split; [done|lia].
  - exists row0. rewrite lookup_insert_ne by done. split; [done|lia].
Qed.

Lemma ClaimPlan_kept p at_ stored db db' : rows_ok db → ClaimPlan p at_ db = Ok (stored, db') → rows_kept db db'.
Proof.
  intros Hok. unfold ClaimPlan. rewrite check_then. intros (Hp%validatePlanIdentity_ok & (_ & _ & Hc)%rbind_ok). cbv zeta in Hc.
  pose proof (genuine_positive _ _ _ Hp) as Hpos.
  destruct (db.(plans) !! p.(Plan_ID)) as [row|] eqn:Hrow.
  - destruct (PlanRow_CurrentRevision row =? 0)%Z eqn:Hz; [|injection Hc as _ <-; by apply rows_kept_refl].
    apply Z.eqb_eq in Hz. apply refuse_if_then in Hc as (Hnew%bool_decide_eq_false%eq_None_not_Some & [= _ <-]).
    apply rows_kept_store; [done..| |]; rewrite ?Hrow; simpl; [by apply (rows_named _ Hok)|lia].
  - apply refuse_if_then in Hc as (Hnew%bool_decide_eq_false%eq_None_not_Some & [= _ <-]).
    apply rows_kept_store; rewrite ?Hrow; done.
Qed.

Lemma PutPlanRevision_kept p stored db db' : rows_ok db → PutPlanRevision p db = Ok (stored, db') → rows_kept db db'.
Proof.
  intros Hok. unfold PutPlanRevision. rewrite check_then. intros (Hp%validatePlanIdentity_ok & (_ & _ & Hc)%rbind_ok).
  destruct (db.(plan_revisions) !! _) as [q|] eqn:Hq.
  - apply refuse_if_then in Hc as [_ [= _ <-]]. by apply rows_kept_refl.
  - destruct (db.(plans) !! p.(Plan_ID)) as [row|] eqn:Hrow; [|done]. injection Hc as _ <-.
    destruct (rows_named _ Hok _ _ Hrow) as [Hid _].
    apply rows_kept_store; [done..| |]; rewrite ?Hrow; unfold raise_revision; destruct (Z.ltb_spec row.(PlanRow_CurrentRevision) p.(Plan_Revision)); simpl;
      try lia; done.
Qed.

Lemma Bind_kept id issue db db' : rows_ok db → BindPlanSource id issue db = Ok db' → rows_kept db db'.
Proof.
  intros Hok. unfold BindPlanSource. rewrite refuse_if_then. intros [_ Hc]. destruct (db.(plans) !! id) as [row|] eqn:Hrow; [|done].
  destruct (_ =? 0)%Z; [|apply refuse_if_then in Hc as [_ [= <-]]; by apply rows_kept_refl]. injection Hc as <-.
  eapply rows_kept_update; [done|exact Hrow|by apply (rows_named _ Hok _ _ Hrow)|done].
Qed.

Lemma BindConfig_kept id config db db' : rows_ok db → BindPlanConfig id config db = Ok db' → rows_kept db db'.
Proof.
  intros Hok. unfold BindPlanConfig. intros (d & _ & Hc)%rbind_ok. destruct (db.(plans) !! id) as [row|] eqn:Hrow; [|injection Hc as <-; by apply rows_kept_refl].
  destruct (_ ≟ ""); injection Hc as <-; [|by apply rows_kept_refl].
  eapply rows_kept_update; [done|exact Hrow|by apply (rows_named _ Hok _ _ Hrow)|done].
Qed.

Lemma Attempt_kept id repository at_ stored db db' : rows_ok db → ClaimPlanAttempt id repository at_ db = Ok (stored, db') → rows_kept db db'.
Proof.
  intros Hok. unfold ClaimPlanAttempt. rewrite refuse_if_then. intros [_ Hc]. destruct (db.(plans) !! id) as [row|] eqn:Hrow.
  { injection Hc as _ <-. by apply rows_kept_refl. }
  injection Hc as _ <-. pose proof Hok as [Hn Hg Hh Hcur]. split; simpl; [split; simpl|done|].
  - intros id0 row0 [[<- <-]|[_ ?]]%lookup_insert_Some; [done|by apply Hn].
  - exact Hg.
  - intros id0 r p (row0 & Hr0 & Hle)%Hh. exists row0. rewrite lookup_insert_ne by congruence. done.
  - intros id0 row0 [[<- <-]|[_ ?]]%lookup_insert_Some; [simpl; lia|by apply Hcur].
  - intros id0 row0 Hr0. exists row0. rewrite lookup_insert_ne by congruence. split; [done|lia].
Qed.

(** ** Streams *)

Record store_ok db : Prop := {
  ok_rows : rows_ok db;
  ok_streams : ∀ planID, recorded planID (stream_events db planID);
  ok_known : ∀ planID, stream_events db planID ≠ [] → is_Some (db.(plans) !! planID)
}.

(** What a step leaves of a store that was in order. *)
Record extends db db' : Prop := {
  extends_ok : store_ok db';
  extends_rows : rows_kept db db';
  extends_streams : ∀ planID, ∃ l, stream_events db' planID = stream_events db planID ++ l
}.

Lemma recorded_last planID l e : recorded planID (l ++ [e]) → e.(Event_PlanID) = planID.
Proof.
  intros (_ & _ & _ & s & (t & Ht)%ReducePlan_reduce & _)%recorded_snoc_inv. apply reduce_snoc_ok in Ht as (s0 & _ & Hf & _).
  by destruct Hf.
Qed.

Lemma rows_extend db db' : store_ok db → rows_kept db db' → db'.(journal) = db.(journal) → extends db db'.
Proof.
  intros [Hrows Hs Hk] Hkept Hj. assert (∀ planID, stream_events db' planID = stream_events db planID) as Heq.
  { intros planID. unfold stream_events. by rewrite Hj. }
  split; [split|done|].
  - by apply kept_ok in Hkept.
  - intros planID. rewrite Heq. apply Hs.
  - intros planID. rewrite Heq. intros (row & Hrow)%Hk. destruct (kept_rows _ _ Hkept _ _ Hrow) as (row' & -> & _). by eexists.
  - intros planID. exists []. by rewrite Heq, app_nil_r.
Qed.

Lemma appended_extend planID stream e db e' db' : store_ok db → appended planID stream e db e' db' →
  extends db db' ∧ (∀ id, stream_events db' id = stream_events db id ++ (if id ≟ planID then [e'] else [])).
Proof.
  intros [Hrows Hs Hk] [Hknown Hrec _ (global & ->)].
  pose proof (recorded_last _ _ _ Hrec) as Hid.
  assert (∀ id, stream_events (set_journal (db.(journal) ++ [MkEventRow e' streamPlan global]) db) id
    = stream_events db id ++ (if id ≟ planID then [e'] else [])) as Heq.
  { intros id. rewrite stream_events_snoc, Hid. f_equal. by rewrite (bool_decide_ext (planID = id) (id = planID)). }
  split; [|exact Heq]. split; [split|by apply rows_kept_journal|].
  - by apply (kept_ok db), rows_kept_journal.
  - intros id. rewrite Heq. case_bool_decide; [by subst|by rewrite app_nil_r].
  - intros id. rewrite Heq. case_bool_decide as Hi; [by subst|rewrite app_nil_r; apply Hk].
  - intros id. rewrite Heq. by eexists.
Qed.

Lemma AppendPlanEvent_appended e db e' db' : store_ok db → AppendPlanEvent e db = Ok (e', db') →
  appended e.(Event_PlanID) (planStream e) e db e' db'.
Proof.
  intros Hok. unfold AppendPlanEvent. rewrite !refuse_if_then. intros (_ & _ & _ & Ha).
  apply (appendToStream_plan e.(Event_PlanID) (planAttemptAllocator e) (λ db, Ok db)); [by intros ?? [= ->]|by apply ok_streams|exact Ha].
Qed.

Definition charge_stream (c : EpochCharge) (id : string) (alongside : PlanTables → result PlanStoreError PlanTables) : journalStream :=
  MkStream (bind_plan c.(EpochCharge_PlanID)) (λ db, queryPlanEvents db c.(EpochCharge_PlanID)) (plan_digest c.(EpochCharge_PlanID)) insert_plan_event
    (Some (allocate_charge c)) alongside.

Lemma commitEpochCharge_appended c id alongside db db' : store_ok db → (∀ db1 db2, alongside db1 = Ok db2 → db2 = db1) →
  commitEpochCharge c id alongside db = Ok db' →
  ∃ e', appended c.(EpochCharge_PlanID) (charge_stream c id alongside) (charge_event c id) db e' db'.
Proof.
  intros Hok Ha. unfold commitEpochCharge. cbv zeta. intros ([e' db1] & Hc & [= <-])%rbind_ok. exists e'.
  apply (appendToStream_plan c.(EpochCharge_PlanID) (Some (allocate_charge c)) alongside); [done|by apply ok_streams|exact Hc].
Qed.

Lemma run_extend db row : store_ok db → row.(EventRow_StreamKind) ≠ streamPlan → extends db (set_journal (db.(journal) ++ [row]) db).
Proof.
  intros [Hrows Hs Hk] Hrow. assert (∀ id, stream_events (set_journal (db.(journal) ++ [row]) db) id = stream_events db id) as Heq.
  { intros id. unfold stream_events. simpl. rewrite List.filter_app. simpl. rewrite bool_decide_eq_false_2 by done. by rewrite app_nil_r. }
  split; [split|by apply rows_kept_journal|].
  - by apply (kept_ok db), rows_kept_journal.
  - intros id. rewrite Heq. apply Hs.
  - intros id. rewrite Heq. apply Hk.
  - intros id. exists []. by rewrite Heq, app_nil_r.
Qed.

Lemma step_extends db db' : store_ok db → store_step db db' → extends db db'.
Proof.
  intros Hok Hstep. pose proof (ok_rows _ Hok) as Hrows.
  destruct Hstep as [p at_ stored db' Hs|id repository at_ stored db' Hs|p stored db' Hs|id config db' Hs|id issue db' Hs|e e' db' Hs|c id alongside db' Ha Hs|row Hrow].
  - apply rows_extend; [done|by eapply ClaimPlan_kept|]. unfold ClaimPlan in Hs. apply check_then in Hs as [_ (? & _ & Hs)%rbind_ok]. cbv zeta in Hs.
    destruct (_ !! _); [destruct (_ =? 0)%Z|]; try apply refuse_if_then in Hs as [_ Hs]; by injection Hs as _ <-.
  - apply rows_extend; [done|by eapply Attempt_kept|]. unfold ClaimPlanAttempt in Hs. apply refuse_if_then in Hs as [_ Hs].
    destruct (_ !! _); by injection Hs as _ <-.
  - apply rows_extend; [done|by eapply PutPlanRevision_kept|]. unfold PutPlanRevision in Hs. apply check_then in Hs as [_ (? & _ & Hs)%rbind_ok].
    destruct (_ !! _); [apply refuse_if_then in Hs as [_ Hs]; by injection Hs as _ <-|]. destruct (db.(plans) !! _); [by injection Hs as _ <-|done].
  - apply rows_extend; [done|by eapply BindConfig_kept|]. unfold BindPlanConfig in Hs. apply rbind_ok in Hs as (? & _ & Hs).
    destruct (_ !! _); [destruct (_ ≟ "")|]; by injection Hs as <-.
  - apply rows_extend; [done|by eapply Bind_kept|]. unfold BindPlanSource in Hs. apply refuse_if_then in Hs as [_ Hs].
    destruct (_ !! _); [|done]. destruct (_ =? 0)%Z; [|apply refuse_if_then in Hs as [_ Hs]]; by injection Hs as <-.
  - eapply appended_extend; [done|by apply AppendPlanEvent_appended].
  - apply commitEpochCharge_appended in Hs as [e' Hs]; [|done|done]. by eapply appended_extend.
  - by apply run_extend.
Qed.

Lemma store_extends_refl db : store_ok db → extends db db.
Proof. intros Hok. split; [done|by apply rows_kept_refl, ok_rows|]. intros planID. exists []. by rewrite app_nil_r. Qed.

Lemma store_extends_trans db1 db2 db3 : extends db1 db2 → extends db2 db3 → extends db1 db3.
Proof.
  intros [_ [_ R1 K1] S1] [Ok3 [Rok3 R2 K2] S2]. split; [done|split; [done|by etrans|]|].
  - intros id row (row2 & H2 & L2)%K1. destruct (K2 _ _ H2) as (row3 & H3 & L3). exists row3. split; [done|lia].
  - intros planID. destruct (S1 planID) as [l1 E1], (S2 planID) as [l2 E2]. exists (l1 ++ l2). by rewrite E2, E1, app_assoc.
Qed.

Lemma store_steps_extend db db' : store_ok db → rtc store_step db db' → extends db db'.
Proof.
  intros Hok Hsteps. induction Hsteps as [db|db db1 db2 Hs _ IH]; [by apply store_extends_refl|].
  pose proof (step_extends _ _ Hok Hs) as He. eapply store_extends_trans; [exact He|]. apply IH. by apply (extends_ok db).
Qed.

Lemma empty_ok : store_ok empty_store.
Proof.
  split; [split; simpl; intros *; try (rewrite lookup_empty; done); by intros ?%lookup_empty_Some|intros planID; apply recorded_nil|done].
Qed.
Lemma reachable_ok db : reachable db → store_ok db.
Proof. intros Hr. apply (extends_ok empty_store). by apply store_steps_extend; [apply empty_ok|]. Qed.
End system.
