(* ===== verification/PlanStoreLaws.v ===== *)
(** The laws of the plan store: what holds of every reachable store, whatever
    was appended to it and in whatever order. *)

From S2P Require Import Prelude GoStrings Sha256 Json Domain Canonical Topo GoTime Plan Events Invocation PlanPayload PlanJournal PlanJournalFacts PlanStore PlanStoreFacts.
From stdpp Require Import sorting relations options.

(* ------------------------------------------------------------------ *)
(** * Replay *)

Section replay.
Context `{!MapRange, !Canonicalizer, !GoUnicode}.
Implicit Types (e : EngineeringEvent) (db : PlanTables) (s : PlanSnapshot).

Lemma replay_ok db planID s : store_ok db →
  replay_plan db planID = Ok s ↔ is_Some (db.(plans) !! planID) ∧ ReducePlan planID (stream_events db planID) = Ok s.
Proof.
  intros Hok. destruct (recorded_reduces _ _ (ok_streams _ Hok planID)) as [t Ht].
  unfold replay_plan, bind_plan. rewrite refuse_if_then, rbind_ok, bool_decide_eq_false, (query_reduced _ _ _ Ht). split.
  - intros [Hn (l & [= <-] & Hs%wrap_ok)]. split; [|done]. by destruct (db.(plans) !! planID).
  - intros [[row ->] Hs]. split; [done|]. eexists. split; [done|]. by apply wrap_ok.
Qed.

Lemma replay_reduced db planID s : store_ok db → replay_plan db planID = Ok s →
  ∃ t, reduce_events planID (stream_events db planID) = Ok (t, last (stream_events db planID), Z.of_nat (length (stream_events db planID)))
    ∧ s = with_cursor t t.(Snapshot_Cursor) s.(Snapshot_StateSHA256).
Proof. intros Hok [_ (t & d & Ht & _ & ->)%ReducePlan_ok]%replay_ok; [|done]. by exists t. Qed.

(** C22: A plan can always be replayed.  In every store the runtime reaches, a plan
    that has history replays without error; the snapshot is at the last event
    of the history and its digest is the one that event recorded when it was
    appended. *)
Theorem plan_always_replays db planID e :
  reachable db → last (stream_events db planID) = Some e →
  ∃ s, replay_plan db planID = Ok s ∧ s.(Snapshot_StateSHA256) = e.(Event_StateAfter)
    ∧ s.(Snapshot_Cursor) = MkCursor (Z.of_nat (length (stream_events db planID))) e.(Event_ID) e.(Event_EventHash)
    ∧ plan_digest planID (removelast (stream_events db planID)) = Ok e.(Event_StateBefore).
Proof.
  intros Hr%reachable_ok Hlast. destruct (stream_events db planID) as [|e' l _] eqn:Hl using rev_ind; [done|].
  rewrite last_snoc in Hlast. injection Hlast as ->. rewrite removelast_last, length_app. simpl.
  pose proof (ok_streams _ Hr planID) as Hrec. rewrite Hl in Hrec. apply recorded_snoc_inv in Hrec as (_ & _ & Hb & s & Hs & Hd).
  exists s. split_and!; [|done| |done].
  - apply replay_ok; [done|]. split; [|by rewrite Hl]. apply (ok_known _ Hr). rewrite Hl. by destruct l.
  - apply ReducePlan_ok in Hs as (t & d & Ht & _ & ->). destruct (reduce_at _ _ _ _ _ Ht) as (_ & _ & Hc). simpl. rewrite Hc, last_snoc.
    simpl. unfold cursor_of. f_equal. rewrite (reduce_sequence _ _ _ (length l) e Ht) by by rewrite lookup_app_r, Nat.sub_diag. lia.
Qed.
End replay.

(* ------------------------------------------------------------------ *)
(** * Decisions *)

(** The revision an event approves. *)
Definition approval_of (e : EngineeringEvent) : option Z :=
  if e.(Event_Type) ≟ EventPlanApproved
  then Decided_Revision <$> (raw ← e.(Event_Payload); Unmarshal (struct decision_fields) no_decision_payload raw) else None.
Definition approvals (l : list EngineeringEvent) : list Z := omap approval_of l.

Lemma approvals_snoc l e : approvals (l ++ [e]) = approvals l ++ option_list (approval_of e).
Proof. unfold approvals. rewrite omap_app. simpl. by destruct (approval_of e). Qed.

Definition decisions (s : PlanSnapshot) := (s.(Snapshot_Approved), s.(Snapshot_Governed)).
Lemma reopened_decisions s p : decisions (reopenFailedStage s p) = decisions s.
Proof. unfold reopenFailedStage. destruct (_ !! _); [|done]. by destruct (_ || _). Qed.
Lemma charged_decisions s p : decisions (apply_charge s p) = decisions s.
Proof.
  unfold apply_charge. destruct (_ && _); [done|]. cbv zeta. destruct (Charge_StageID p ≟ ""); [done|]. by rewrite reopened_decisions.
Qed.
Lemma superseded_decisions s p : decisions (apply_superseded s p) = decisions s.
Proof. unfold apply_superseded. apply (fold_left_preserves (λ t, decisions t = decisions s)); [|done]. by intros t id <-. Qed.
Lemma settled_decisions s p : decisions (apply_settled s p) = decisions s.
Proof. unfold apply_settled. by repeat destruct (bool_decide _); try destruct (_ <? _)%Z. Qed.
Lemma rejected_decisions s p : decisions (apply_decision s false p) = decisions s.
Proof. done. Qed.

Lemma applied_decisions s e t : applied s e t →
  match approval_of e with
  | Some r => ∃ p, p.(Decided_Revision) = r ∧ t = apply_decision s true p
  | None => decisions t = decisions s
  end.
Proof.
  unfold approval_of. intros Ha. destruct Ha as [p K Hp|p K Hp|p K Hp|p K Hp|p K Hp|p K Hp|p t K Hp Ht|p K Hp|p K Hp|p t K Hp Ht|p K Hp|p K Hp|K].
  7: unfold apply_started in Ht; apply refuse_if_then in Ht as [_ [= <-]].
  10: unfold apply_gated in Ht; apply refuse_if_then in Ht as [_ [= <-]].
  all: try (rewrite K; simpl; first [done|apply settled_decisions|apply superseded_decisions|apply charged_decisions]).
  - rewrite K. simpl. destruct Hp as (raw & -> & Hp). simpl. rewrite Hp. simpl. by exists p.
  - rewrite bool_decide_eq_false_2; [done|]. intros Hk. apply K. rewrite Hk. apply (bool_decide_eq_true_1 _). vm_compute. reflexivity.
Qed.

(** The highest of a list of revisions, all positive. *)
Definition highest (r : Z) (l : list Z) : Prop := r ∈ l ∧ ∀ r', r' ∈ l → (r' <= r)%Z.

Record decided (s : PlanSnapshot) (l : list Z) : Prop := {
  decided_approved : match l with
                     | [] => s.(Snapshot_Approved) = no_approval
                     | _ => s.(Snapshot_Approved).(Approval_Status) = ApprovalApproved ∧ highest s.(Snapshot_Approved).(Approval_Revision) l
                     end;
  decided_governed : ∀ r, r ∈ s.(Snapshot_Governed) ↔ r ∈ l;
  decided_once : NoDup s.(Snapshot_Governed)
}.

Lemma decided_same s t l : decisions t = decisions s → decided s l → decided t l.
Proof. intros [= E1 E2] [D1 D2 D3]. split; [by rewrite E1|by rewrite E2|by rewrite E2]. Qed.

Lemma decided_approve s l p : decided s l → Forall (λ r, 1 <= r)%Z (l ++ [p.(Decided_Revision)]) →
  decided (apply_decision s true p) (l ++ [p.(Decided_Revision)]).
Proof.
  intros [D1 D2 D3] Hpos. set (r := p.(Decided_Revision)) in *. split.
  - assert ((∀ x, x ∈ l → x <= s.(Snapshot_Approved).(Approval_Revision))%Z
      ∧ ((s.(Snapshot_Approved).(Approval_Revision) <=? r)%Z = false → l ≠ [] ∧ s.(Snapshot_Approved).(Approval_Status) = ApprovalApproved
           ∧ s.(Snapshot_Approved).(Approval_Revision) ∈ l)) as [Hle Hold].
    { destruct l as [|x l]; [rewrite D1|by destruct D1 as (? & ? & ?)]. apply Forall_app in Hpos as [_ Hr]. apply Forall_cons in Hr as [Hr _].
      split; [by intros ? ?%not_elem_of_nil|]. intros Hf%Z.leb_gt. unfold no_approval in Hf. simpl in Hf. lia. }
    unfold apply_decision. simpl. fold r. destruct (_ <=? r)%Z eqn:Hb.
    + destruct (l ++ [r]) eqn:Happ; [by apply app_nil in Happ as [_ ?]|]. rewrite <- Happ. simpl. split; [done|]. split.
      * apply elem_of_app. right. by left.
      * intros x [Hx%Hle|Hx%list_elem_of_singleton]%elem_of_app; fold r; lia.
    + destruct (Hold eq_refl) as (Hne & Hs & Hin). destruct (l ++ [r]) eqn:Happ; [by apply app_nil in Happ as [_ ?]|]. rewrite <- Happ.
      split; [done|]. split; [apply elem_of_app; by left|]. intros x [Hx%Hle|Hx%list_elem_of_singleton]%elem_of_app; lia.
  - intros x. simpl. fold r. rewrite elem_of_app, list_elem_of_singleton, <- D2. case_bool_decide as Hin; simpl; [naive_solver|].
    by rewrite elem_of_app, list_elem_of_singleton.
  - simpl. fold r. case_bool_decide as Hin; simpl; [done|]. apply NoDup_app. split_and!; [done| |apply NoDup_singleton].
    intros x Hx ->%list_elem_of_singleton. done.
Qed.

Section decisions.
Context `{!MapRange, !Canonicalizer, !GoUnicode}.
Implicit Types (e : EngineeringEvent) (db : PlanTables) (s : PlanSnapshot).

Lemma approval_positive e r : check_event e = Ok tt → approval_of e = Some r → (1 <= r)%Z.
Proof.
  unfold approval_of. case_bool_decide as Hk; [|done]. intros Hc (p & (raw & Hraw & Hp)%bind_Some & ->)%fmap_Some.
  pose proof (checked_decision e p Hc Hk ltac:(by exists raw)) as Hd. unfold check_decision in Hd.
  apply refuse_if_then in Hd as [Hd _]. lia.
Qed.

Lemma recorded_positive planID l : recorded planID l → Forall (λ r, 1 <= r)%Z (approvals l).
Proof.
  induction 1 as [|l e s _ IH Hc _ _ _]; [constructor|]. rewrite approvals_snoc, Forall_app. split; [done|].
  destruct (approval_of e) as [r|] eqn:Hr; simpl; [|constructor]. constructor; [by eapply approval_positive|constructor].
Qed.

Lemma recorded_decided planID l s : recorded planID l → (∃ p n, reduce_events planID l = Ok (s, p, n)) → decided s (approvals l).
Proof.
  intros Hr. revert s. induction l as [|e l IH] using rev_ind; intros s (p & n & Hs).
  { injection Hs as <- <- <-. split; [done|done|constructor]. }
  pose proof (recorded_positive _ _ Hr) as Hpos. apply recorded_prefix in Hr. apply reduce_snoc_ok in Hs as (s0 & Hl & _ & _ & _ & t & Ht & ->).
  apply apply_plan_event_inv, applied_decisions in Ht. rewrite approvals_snoc in Hpos |- *. apply (decided_same t); [done|].
  pose proof (IH Hr s0 ltac:(eauto)) as Hd. destruct (approval_of e) as [r|]; simpl in *.
  - destruct Ht as (q & <- & ->). by apply decided_approve.
  - rewrite app_nil_r. by eapply decided_same.
Qed.

Lemma previous_governing (l : list Z) revision r0 b0 :
  let out := fold_left (λ found governed, if ((governed <? revision) && (found.1 <? governed))%Z then (governed, true) else found) l (r0, b0) in
  (r0 <= out.1)%Z ∧ (out = (r0, b0) ∨ out.2 = true ∧ out.1 ∈ l ∧ (out.1 < revision)%Z) ∧ (∀ r, r ∈ l → (r < revision)%Z → (r <= out.1)%Z).
Proof.
  revert r0 b0. induction l as [|x l IH]; intros r0 b0; simpl.
  { split_and!; [lia|by left|]. by intros r ?%not_elem_of_nil. }
  destruct (Z.ltb_spec x revision), (Z.ltb_spec r0 x); simpl.
  1: destruct (IH x true) as (Hle & Hout & Hall); split_and!; [lia| |].
  3-5: destruct (IH r0 b0) as (Hle & Hout & Hall); split_and!; [lia| |].
  all: try (intros r [->|Hr]%elem_of_cons ?; [lia|by apply Hall]).
  1: destruct Hout as [->|(Hb & Hin & Hlt)]; right; simpl; split_and!; [done|by left|done|done|by right|done].
  all: destruct Hout as [->|(Hb & Hin & Hlt)]; [by left|right; split_and!; [done|by right|done]].
Qed.

(** C24: Approval is monotone.  In every reachable store the revision a plan is
    governed by is the highest revision that was ever approved: a rejection,
    and an approval of an earlier revision, leave it.  The governing history
    names every approved revision once, and the one that governed before a
    revision is the highest approved below it. *)
Theorem approval_is_monotone db planID s :
  reachable db → replay_plan db planID = Ok s →
  let approved := approvals (stream_events db planID) in
  (∀ r, ApprovedRevision s = Some r ↔ highest r approved)
  ∧ (∀ r, r ∈ GoverningHistory s ↔ r ∈ approved) ∧ NoDup (GoverningHistory s)
  ∧ (∀ revision r, PreviousGoverning s revision = (r, true) ↔ highest r (List.filter (λ x, x <? revision)%Z approved)).
Proof.
  intros Hr%reachable_ok Hs. pose proof (ok_streams _ Hr planID) as Hrec. pose proof (recorded_positive _ _ Hrec) as Hpos.
  destruct (replay_reduced _ _ _ Hr Hs) as (t & Ht & ->). cbv zeta.
  destruct (recorded_decided _ _ t Hrec ltac:(eauto)) as [D1 D2 D3]. set (l := approvals (stream_events db planID)) in *.
  assert (∀ r r' m, highest r m → highest r' m → r = r') as Huniq.
  { intros r r' m [Hin Hle] [Hin' Hle']. apply Hle in Hin'. apply Hle' in Hin. lia. }
  split_and!; [|exact D2|exact D3|].
  - intros r. unfold ApprovedRevision. simpl. destruct l as [|x l'].
    + rewrite D1. split; [done|]. by intros [?%not_elem_of_nil _].
    + destruct D1 as [D1 Dh]. rewrite D1, bool_decide_eq_true_2 by done. simpl. split; [by intros [= <-]|]. intros Hh. f_equal. by eapply Huniq.
  - intros revision r. unfold PreviousGoverning. simpl.
    destruct (previous_governing t.(Snapshot_Governed) revision 0 false) as (Hle & Hout & Hall). cbv zeta in *.
    set (out := fold_left _ _ _) in *.
    assert (∀ x, x ∈ List.filter (λ x, x <? revision)%Z l ↔ x ∈ Snapshot_Governed t ∧ (x < revision)%Z) as Hf.
    { intros x. rewrite list_elem_of_In, filter_In, <- list_elem_of_In, D2, Z.ltb_lt. done. }
    split.
    + intros Heq. rewrite Heq in *. simpl in *. destruct Hout as [?|(_ & Hin & Hlt)]; [done|]. split; [by apply Hf|].
      intros x [Hx1 Hx2]%Hf. by apply Hall.
    + intros [[Hin Hlt]%Hf Hmax]. pose proof (Hall _ Hin Hlt) as Hge.
      assert (1 <= r)%Z by (rewrite Forall_forall in Hpos; by apply Hpos, D2).
      destruct Hout as [Heq|(Hb & Hin' & Hlt')]; [rewrite Heq in Hge; simpl in Hge; lia|].
      assert (out.1 <= r)%Z by (apply Hmax, Hf; done). destruct out as [o b]. simpl in *. subst b. f_equal. lia.
Qed.
End decisions.

(* ------------------------------------------------------------------ *)
(** * Revisions *)

Section revisions.
Context `{!MapRange, !Canonicalizer, !GoUnicode}.
Implicit Types (db : PlanTables) (p : EngineeringPlan).

(** C27: A plan revision is immutable.  A revision some reachable store holds is held
    unchanged by every later one; it is stored under its own plan and number
    and its digest is the digest of its content; and the plan a later store
    answers with is a stored revision at least as high. *)
Theorem plan_revisions_immutable db db' id revision p :
  reachable db → rtc store_step db db' → PlanRevision db id revision = Some p →
  PlanRevision db' id revision = Some p ∧ p.(Plan_ID) = id ∧ p.(Plan_Revision) = revision
  ∧ plan_ContentDigest p = Ok p.(Plan_Digest)
  ∧ ∃ q, plan_at_highest db' id = Some q ∧ q.(Plan_ID) = id ∧ (revision <= q.(Plan_Revision))%Z.
Proof.
  unfold PlanRevision. intros Hr%reachable_ok Hsteps Hp. pose proof (store_steps_extend _ _ Hr Hsteps) as [[Hrows _ _] [_ Hsub _] _].
  pose proof (lookup_weaken _ _ _ _ Hp Hsub) as Hp'. destruct (rows_genuine _ Hrows _ _ _ Hp') as [Hid Hrev Hpos Hd].
  split_and!; [done..|]. destruct (rows_highest _ Hrows _ _ _ Hp') as (row & Hrow & Hle).
  destruct (rows_current _ Hrows _ _ Hrow) as [q Hq]; [lia|]. exists q. unfold plan_at_highest, PlanRevision. rewrite Hrow. simpl.
  destruct (rows_genuine _ Hrows _ _ _ Hq) as [Hqid Hqrev _ _]. split_and!; [done|done|lia].
Qed.
End revisions.

(* ------------------------------------------------------------------ *)
(** * Budgets *)

(** [c] says exactly what [charges] add up to. *)
Definition exact_consumption (c : PlanConsumption) (charges : list PlanBudgetConsumedPayload) : Prop :=
  c.(Consumed_ChildRuns) = sum_of Charge_ChildRuns charges ∧ c.(Consumed_ProviderInvocations) = sum_of Charge_ProviderInvocations charges
  ∧ c.(Consumed_WallSeconds) = sum_of Charge_WallSeconds charges.
Definition consumed_of (m : gmap string PlanConsumption) (id : string) : PlanConsumption := default no_consumption (m !! id).
(** No counter of [c] is above that of [c']. *)
Definition no_less (c c' : PlanConsumption) : Prop :=
  (c.(Consumed_ChildRuns) <= c'.(Consumed_ChildRuns))%Z ∧ (c.(Consumed_ProviderInvocations) <= c'.(Consumed_ProviderInvocations))%Z
  ∧ (c.(Consumed_WallSeconds) <= c'.(Consumed_WallSeconds))%Z.

Lemma counted_prefix l l' : ∃ more, counted_charges (l ++ l') = counted_charges l ++ more.
Proof.
  induction l' as [|e l' [more IH]] using rev_ind; [exists []; by rewrite !app_nil_r|]. rewrite app_assoc, counted_snoc, IH.
  destruct (charge_of e) as [q|]; [|by exists more]. destruct (repeated _ q); [by exists more|]. exists (more ++ [q]). by rewrite app_assoc.
Qed.

Lemma filter_true {A} (l : list A) : List.filter (λ _, true) l = l.
Proof. by apply forallb_filter_id, forallb_forall. Qed.

Lemma counted_once l : NoDup (List.filter (λ key, key ≠? "") (Charge_Key <$> counted_charges l)).
Proof.
  induction l as [|e l IH] using rev_ind; [constructor|]. rewrite counted_snoc. destruct (charge_of e) as [q|]; [|done].
  destruct (repeated _ q) eqn:Hq; [done|]. rewrite fmap_app, List.filter_app. simpl. case_bool_decide as Hk; simpl; [by rewrite app_nil_r|].
  apply NoDup_app. split_and!; [done| |apply NoDup_singleton]. intros k Hin ->%list_elem_of_singleton.
  apply list_elem_of_In, filter_In in Hin as [Hin%list_elem_of_In _]. unfold repeated in Hq. rewrite !bool_decide_eq_false_2 in Hq by done.
  by rewrite bool_decide_eq_true_2 in Hq.
Qed.

Section budgets.
Context `{!MapRange, !Canonicalizer, !GoUnicode}.
Implicit Types (db : PlanTables) (s : PlanSnapshot).

(** A choice of the charges that count, for the plan, a stage or a run. *)
Definition chosen_counts (of_ : PlanSnapshot → PlanConsumption) (keep : PlanBudgetConsumedPayload → bool) : Prop :=
  ∀ s l, budget_counts s l → counts (of_ s) (List.filter keep l).

Lemma replay_counts db planID s : store_ok db → replay_plan db planID = Ok s →
  budget_counts s (counted_charges (stream_events db planID)).
Proof.
  intros Hok Hs. destruct (replay_reduced _ _ _ Hok Hs) as (t & Ht & ->). apply reduce_counts in Ht. by apply (budget_counts_same t).
Qed.

Lemma chosen_exact of_ keep db planID s : chosen_counts of_ keep → store_ok db → replay_plan db planID = Ok s →
  exact_consumption (of_ s) (List.filter keep (counted_charges (stream_events db planID))).
Proof.
  intros Hk Hok Hs. eapply (recorded_counts planID); [by apply ok_streams|by apply Hk, replay_counts|by exists keep].
Qed.

Lemma filter_no_less planID l a more f keep : recorded planID l → f ∈ counters → counted_charges l = a ++ more →
  (0 <= sum_of f (List.filter keep more))%Z.
Proof.
  intros Hr Hf Ha. apply sum_of_nonneg. intros x Hx. apply list_elem_of_In, filter_In in Hx as [Hx%list_elem_of_In _].
  apply (counted_nonneg planID l f x Hr Hf). rewrite Ha. apply elem_of_app. by right.
Qed.

Lemma chosen_no_less of_ keep db db' planID s s' : chosen_counts of_ keep → store_ok db → rtc store_step db db' →
  replay_plan db planID = Ok s → replay_plan db' planID = Ok s' → no_less (of_ s) (of_ s').
Proof.
  intros Hk Hok Hsteps Hs Hs'. pose proof (store_steps_extend _ _ Hok Hsteps) as [Hok' _ Hstreams]. destruct (Hstreams planID) as [l Hl].
  pose proof (chosen_exact _ _ _ _ _ Hk Hok Hs) as (E1 & E2 & E3). pose proof (chosen_exact _ _ _ _ _ Hk Hok' Hs') as (F1 & F2 & F3).
  destruct (counted_prefix (stream_events db planID) l) as [more Hmore]. rewrite <- Hl in Hmore.
  assert (∀ f, f ∈ counters → (sum_of f (List.filter keep (counted_charges (stream_events db planID)))
    <= sum_of f (List.filter keep (counted_charges (stream_events db' planID))))%Z) as Hle.
  { intros f Hf. rewrite Hmore, List.filter_app, sum_of_app.
    pose proof (filter_no_less planID _ _ more f keep (ok_streams _ Hok' planID) Hf Hmore). lia. }
  unfold no_less. rewrite E1, E2, E3, F1, F2, F3. unfold counters in Hle. split_and!; apply Hle; rewrite !elem_of_cons; auto.
Qed.

Lemma plan_chosen : chosen_counts Snapshot_Consumed (λ _, true).
Proof. intros s l [Hp _ _ _]. by rewrite filter_true. Qed.
Lemma stage_chosen id : id ≠ "" → chosen_counts (λ s, consumed_of s.(Snapshot_StageConsumed) id) (λ p, p.(Charge_StageID) ≟ id).
Proof. intros Hid s l [_ Hst _ _]. by apply Hst. Qed.
Lemma run_chosen id : id ≠ "" → chosen_counts (λ s, consumed_of s.(Snapshot_RunConsumed) id) (λ p, p.(Charge_RunID) ≟ id).
Proof. intros Hid s l [_ _ Hrun _]. by apply Hrun. Qed.

(** C25: A plan's budget is conserved.  In every reachable store each counter of a
    replayed plan, of each of its stages and of each of its runs (child runs,
    provider invocations and wall seconds; cost is not covered), is the sum of
    the charges that name it, a keyed charge counted once, within the integers
    a digest can state; and between that store and a later one no counter has
    gone down. *)
Theorem plan_budget_conserved db db' planID s s' :
  reachable db → rtc store_step db db' → replay_plan db planID = Ok s → replay_plan db' planID = Ok s' →
  let charges := counted_charges (stream_events db planID) in
  let stage t id := consumed_of t.(Snapshot_StageConsumed) id in
  let run t id := consumed_of t.(Snapshot_RunConsumed) id in
  (exact_consumption s.(Snapshot_Consumed) charges ∧ no_less s.(Snapshot_Consumed) s'.(Snapshot_Consumed))
  ∧ (∀ id, id ≠ "" → exact_consumption (stage s id) (charged_to Charge_StageID id charges) ∧ no_less (stage s id) (stage s' id))
  ∧ (∀ id, id ≠ "" → exact_consumption (run s id) (charged_to Charge_RunID id charges) ∧ no_less (run s id) (run s' id))
  ∧ (∀ f, f ∈ counters → (0 <= sum_of f charges <= maxSafeInteger)%Z)
  ∧ NoDup (List.filter (λ key, key ≠? "") (Charge_Key <$> charges)).
Proof.
  intros Hr%reachable_ok Hsteps Hs Hs'. cbv zeta. split_and!.
  - rewrite <- (filter_true (counted_charges _)). exact (chosen_exact _ _ _ _ _ plan_chosen Hr Hs).
  - exact (chosen_no_less _ _ _ _ _ _ _ plan_chosen Hr Hsteps Hs Hs').
  - intros id Hid. split; [exact (chosen_exact _ _ _ _ _ (stage_chosen id Hid) Hr Hs)|].
    exact (chosen_no_less _ _ _ _ _ _ _ (stage_chosen id Hid) Hr Hsteps Hs Hs').
  - intros id Hid. split; [exact (chosen_exact _ _ _ _ _ (run_chosen id Hid) Hr Hs)|].
    exact (chosen_no_less _ _ _ _ _ _ _ (run_chosen id Hid) Hr Hsteps Hs Hs').
  - intros f Hf. exact (recorded_total _ _ _ (ok_streams _ Hr planID) Hf).
  - apply counted_once.
Qed.
End budgets.

(* ------------------------------------------------------------------ *)
(** * The charge of a remediation epoch *)

(** What the charge of an epoch decodes to. *)
Definition epoch_charge (c : EpochCharge) : PlanBudgetConsumedPayload :=
  MkBudgetConsumed (json_text ("child_run:" +:+ c.(EpochCharge_RunID))) (json_text c.(EpochCharge_StageID)) (json_text c.(EpochCharge_RunID)) 1 0 0 None false.

Lemma charge_of_epoch c id : charge_of (charge_event c id) = Some (epoch_charge c).
Proof.
  unfold charge_of, charge_event. cbn [Event_Type Event_Payload]. rewrite bool_decide_eq_true_2 by done. simpl mbind.
  unfold charge_value, epoch_charge. cbn [Charge_Key Charge_StageID Charge_RunID Charge_ChildRuns Charge_ProviderInvocations Charge_WallSeconds Charge_CostMicros Charge_CostKnown].
  unfold omit_empty, omit_if.
  destruct (decide (EpochCharge_StageID c = "")) as [->|Hs]; [|rewrite (bool_decide_eq_false_2 (EpochCharge_StageID c = "")) by done];
  (destruct (decide (EpochCharge_RunID c = "")) as [->|Hr]; [|rewrite (bool_decide_eq_false_2 (EpochCharge_RunID c = "")) by done]);
  reflexivity.
Qed.

Lemma epoch_key c : (epoch_charge c).(Charge_Key) ≠ "".
Proof. done. Qed.

Section epochs.
Context `{!MapRange, !Canonicalizer, !GoUnicode}.
Implicit Types (db : PlanTables) (s : PlanSnapshot) (c : EpochCharge).

(** The state of a stream before and after one more event. *)
Lemma appended_replay planID stream e db e' db' s : store_ok db → appended planID stream e db e' db' → replay_plan db planID = Ok s →
  ∃ s' t t', replay_plan db' planID = Ok s' ∧ applied t e' t' ∧ budget t = budget s ∧ budget s' = budget t'.
Proof.
  intros Hok Ha Hs. destruct (appended_extend _ _ _ _ _ _ Hok Ha) as [[Hok' _ _] Heq].
  destruct (replay_reduced _ _ _ Hok Hs) as (t & Ht & ->). specialize (Heq planID). rewrite bool_decide_eq_true_2 in Heq by done.
  destruct Ha as [Hknown Hrec _ (g & ->)]. apply recorded_snoc_inv in Hrec as (_ & _ & _ & s' & Hs' & _).
  exists s'. pose proof Hs' as (u & d & Hu & _ & ->)%ReducePlan_ok.
  apply reduce_snoc_ok in Hu as (s0 & Hl & _ & _ & _ & v & Hv%apply_plan_event_inv & ->). rewrite Ht in Hl. injection Hl as <-.
  exists t, v. split_and!; [|exact Hv|done|done]. apply replay_ok; [done|]. split; [done|]. by rewrite Heq.
Qed.

Lemma rbind_err {E A B} (x : result E A) (k : A → result E B) err :
  rbind x k = Err err ↔ x = Err err ∨ ∃ a, x = Ok a ∧ k a = Err err.
Proof. destruct x; simpl; naive_solver. Qed.
Lemma wrap_err {E F A} (f : E → F) (x : result E A) err : wrap f x = Err err ↔ ∃ err', x = Err err' ∧ err = f err'.
Proof. destruct x; simpl; naive_solver. Qed.
Lemma refuse_if_err {E} b (err err' : E) : refuse_if b err = Err err' ↔ b = true ∧ err' = err.
Proof. destruct b; simpl; naive_solver. Qed.

(** Follow a refusal to the check it came from. *)
Ltac refused H :=
  repeat match type of H with
         | rbind _ _ = Err _ => apply rbind_err in H as [H|(? & ? & H)]
         | wrap _ _ = Err _ => apply wrap_err in H as (? & _ & H); discriminate H
         | refuse_if _ _ = Err _ => apply refuse_if_err in H as [_ H]; discriminate H
         | Ok _ = Err _ => discriminate H
         end.

Lemma hash_event_err e err : hash_event e = Err err → ∃ x, err = EventUnhashable x.
Proof. unfold hash_event. intros [Hh|(? & _ & Hh)]%rbind_err; [|done]. apply wrap_err in Hh as (x & _ & ->). by exists x. Qed.
Lemma plan_digest_err planID l err : plan_digest planID l = Err err → ∃ x, err = StreamRefused x.
Proof. unfold plan_digest. intros [Hh|(? & _ & Hh)]%rbind_err; [|done]. apply wrap_err in Hh as (x & _ & ->). by exists x. Qed.
Lemma seal_event_err planID l e err : seal_event (plan_digest planID) l e = Err err → err ≠ EpochAlreadyCharged.
Proof.
  unfold seal_event. intros [Hh|(b & _ & [Hh|(e1 & _ & [Hh|(a & _ & Hh)]%rbind_err)]%rbind_err)]%rbind_err ->.
  - by apply plan_digest_err in Hh as [? ?].
  - by apply hash_event_err in Hh as [? ?].
  - by apply plan_digest_err in Hh as [? ?].
  - by apply hash_event_err in Hh as [? ?].
Qed.

Lemma charged_already c id db : store_ok db → commitEpochCharge c id (λ db, Ok db) db = Err EpochAlreadyCharged →
  is_Some (db.(plans) !! c.(EpochCharge_PlanID))
  ∧ allocate_charge c (stream_events db c.(EpochCharge_PlanID)) (charge_event c id) = Err EpochAlreadyCharged.
Proof.
  intros Hok. destruct (recorded_reduces _ _ (ok_streams _ Hok c.(EpochCharge_PlanID))) as [t Ht].
  unfold commitEpochCharge. cbv zeta. intros [Hc|(? & _ & Hc)]%rbind_err; [|done]. unfold appendToStream in Hc.
  apply rbind_err in Hc as [Hc|(_ & _ & Hc)]; [refused Hc|].
  apply rbind_err in Hc as [Hc|(_ & _ & Hc)]; [unfold check_event in Hc; refused Hc|].
  apply rbind_err in Hc as [Hc|([] & Hb & Hc)]; [unfold planStream, bind_plan in Hc; simpl in Hc; refused Hc|].
  simpl in Hb, Hc. unfold bind_plan in Hb. apply refuse_if_ok, bool_decide_eq_false in Hb. rewrite (query_reduced _ _ _ Ht) in Hc. simpl in Hc.
  split; [by destruct (db.(plans) !! _)|].
  apply rbind_err in Hc as [Hc|(e1 & _ & Hc)].
  { apply rbind_err in Hc as [Hc|(e1 & _ & Hc)]; [done|]. unfold check_event in Hc. refused Hc. }
  apply rbind_err in Hc as [Hc|(e2 & _ & Hc)]; [by apply (seal_event_err c.(EpochCharge_PlanID)) in Hc|].
  unfold insert_plan_event in Hc. refused Hc.
Qed.

Definition run_charged s (run : string) : Z := (consumed_of s.(Snapshot_RunConsumed) run).(Consumed_ChildRuns).

Lemma epoch_cases c id db db' : store_ok db → ChargeRemediationEpoch c id db = Ok db' →
  ∃ s, replay_plan db c.(EpochCharge_PlanID) = Ok s ∧
   (db' = db ∧ (0 < run_charged s c.(EpochCharge_RunID))%Z
    ∨ (run_charged s c.(EpochCharge_RunID) <= 0)%Z
      ∧ (c.(EpochCharge_EnforceCeiling) = true → s.(Snapshot_Consumed).(Consumed_ChildRuns) < c.(EpochCharge_MaxChildRuns))%Z
      ∧ store_step db db' ∧ ∃ stream e', appended c.(EpochCharge_PlanID) stream (charge_event c id) db e' db' ∧ charge_of e' = Some (epoch_charge c)).
Proof.
  intros Hok. unfold ChargeRemediationEpoch. destruct (commitEpochCharge _ _ _ _) as [db1|err] eqn:Hc.
  - intros [= <-]. assert (store_step db db1) as Hstep by (eapply step_charge; [|exact Hc]; by intros ?? [= <-]).
    apply commitEpochCharge_appended in Hc as [e' Ha]; [|done|by intros ?? [= <-]].
    pose proof Ha as [Hknown _ (e1 & Hal & Hcontent) _]. unfold allocates in Hal. simpl in Hal. unfold allocate_charge in Hal.
    apply rbind_ok in Hal as (s & Hs%wrap_ok & Hal). rewrite !refuse_if_then in Hal. destruct Hal as (Hrun & Hceil & [= <-]).
    exists s. split; [by apply replay_ok|]. right. apply Z.ltb_ge in Hrun. split_and!; [exact Hrun| |done|].
    + intros He. rewrite He in Hceil. simpl in Hceil. lia.
    + eexists _, e'. split; [exact Ha|]. rewrite <- (charge_of_epoch c id). unfold charge_of. injection Hcontent as ? ? ? Hk ? Hp ?. by rewrite Hk, Hp.
  - destruct err; try done. intros [= <-]. apply charged_already in Hc as [Hknown Hal]; [|done]. unfold allocate_charge in Hal.
    apply rbind_err in Hal as [Hal|(s & Hs%wrap_ok & Hal)]; [refused Hal|].
    apply rbind_err in Hal as [Hal|(_ & _ & Hal)]; [|refused Hal]. apply refuse_if_err in Hal as [Hrun%Z.ltb_lt _].
    exists s. split; [by apply replay_ok|]. by left.
Qed.

(** Appending the charge of an epoch counts it unless its key was counted. *)
Lemma epoch_appended planID stream e db e' db' s s' c : store_ok db → appended planID stream e db e' db' →
  charge_of e' = Some (epoch_charge c) → replay_plan db planID = Ok s → replay_plan db' planID = Ok s' →
  if bool_decide ((epoch_charge c).(Charge_Key) ∈ Charge_Key <$> counted_charges (stream_events db planID)) then budget s' = budget s
  else s'.(Snapshot_Consumed).(Consumed_ChildRuns) = (s.(Snapshot_Consumed).(Consumed_ChildRuns) + 1)%Z.
Proof.
  intros Hok Ha Hc Hs Hs'. pose proof (counts_keys _ _ (replay_counts _ _ _ Hok Hs)) as Hkeys.
  destruct (appended_extend _ _ _ _ _ _ Hok Ha) as [[Hok' _ _] Heq].
  pose proof (chosen_exact _ _ _ _ _ plan_chosen Hok Hs) as (E1 & _ & _). pose proof (chosen_exact _ _ _ _ _ plan_chosen Hok' Hs') as (F1 & _ & _).
  rewrite filter_true in E1, F1. rewrite Heq, bool_decide_eq_true_2 in F1 by done. rewrite counted_snoc, Hc in F1.
  destruct (appended_replay _ _ _ _ _ _ _ Hok Ha Hs) as (s1 & t & t' & Hs1 & Hap & Ht & Ht'). rewrite Hs' in Hs1. injection Hs1 as <-.
  apply applied_budget in Hap. rewrite Hc in Hap. case_bool_decide as Hin.
  - rewrite Ht', <- Ht, Hap. unfold apply_charge. injection Ht as _ _ _ Hk. rewrite (bool_decide_eq_false_2 (_ = "")) by apply epoch_key.
    by rewrite Hk, bool_decide_eq_true_2 by (apply Hkeys; by split).
  - unfold repeated in F1. rewrite (bool_decide_eq_false_2 (_ = "")), (bool_decide_eq_false_2 (_ ∈ _)) in F1 by (done || apply epoch_key).
    simpl in F1. rewrite F1, E1, sum_of_app. simpl. lia.
Qed.

(** C26: The charge of a remediation epoch stays under the plan's ceiling.  A charge
    that succeeds for a run that has consumed a child run already writes nothing.
    For any other run it appends one charge of one child run; where the ceiling
    is enforced the plan was below it and stays at or below it; and the plan's
    consumption goes up by exactly one, unless the charge's key was counted
    before, when it stays. *)
Theorem epoch_charge_bounded c id db db' s s' :
  reachable db → ChargeRemediationEpoch c id db = Ok db' →
  replay_plan db c.(EpochCharge_PlanID) = Ok s → replay_plan db' c.(EpochCharge_PlanID) = Ok s' →
  let before := s.(Snapshot_Consumed).(Consumed_ChildRuns) in
  let after := s'.(Snapshot_Consumed).(Consumed_ChildRuns) in
  let stream := stream_events db c.(EpochCharge_PlanID) in
  (0 < run_charged s c.(EpochCharge_RunID) → db' = db)%Z
  ∧ (run_charged s c.(EpochCharge_RunID) <= 0 →
      (c.(EpochCharge_EnforceCeiling) = true → before < c.(EpochCharge_MaxChildRuns) ∧ after <= c.(EpochCharge_MaxChildRuns))
      ∧ (∃ e, stream_events db' c.(EpochCharge_PlanID) = stream ++ [e] ∧ charge_of e = Some (epoch_charge c))
      ∧ after = if bool_decide ((epoch_charge c).(Charge_Key) ∈ Charge_Key <$> counted_charges stream) then before else before + 1)%Z.
Proof.
  intros Hr%reachable_ok Hcharge Hs Hs'. cbv zeta. destruct (epoch_cases _ _ _ _ Hr Hcharge) as (t & Ht & Hcases).
  rewrite Hs in Ht. injection Ht as <-. destruct Hcases as [[-> Hpos]|(Hlow & Hceil & _ & stream & e' & Ha & Hc)]; [split; [done|lia]|].
  split; [lia|]. intros _. pose proof (epoch_appended _ _ _ _ _ _ _ _ _ Hr Ha Hc Hs Hs') as Hb.
  destruct (appended_extend _ _ _ _ _ _ Hr Ha) as [_ Hstream]. specialize (Hstream c.(EpochCharge_PlanID)). rewrite bool_decide_eq_true_2 in Hstream by done.
  split_and!; [|by exists e'|].
  - intros Hen. specialize (Hceil Hen). case_bool_decide; [injection Hb as -> _ _ _|rewrite Hb]; lia.
  - case_bool_decide; [by injection Hb as -> _ _ _|exact Hb].
Qed.

(** A remediation epoch is charged once.  After the charge of a run succeeded,
    retrying it at any later time, with any fresh event id, is accepted and
    leaves what the plan, its stages and its runs have consumed unchanged. *)
Theorem epoch_charged_once c id1 id2 db0 db1 db2 db3 s2 s3 :
  reachable db0 → c.(EpochCharge_RunID) ≠ "" →
  ChargeRemediationEpoch c id1 db0 = Ok db1 → rtc store_step db1 db2 → ChargeRemediationEpoch c id2 db2 = Ok db3 →
  replay_plan db2 c.(EpochCharge_PlanID) = Ok s2 → replay_plan db3 c.(EpochCharge_PlanID) = Ok s3 →
  s3.(Snapshot_Consumed) = s2.(Snapshot_Consumed) ∧ s3.(Snapshot_StageConsumed) = s2.(Snapshot_StageConsumed)
  ∧ s3.(Snapshot_RunConsumed) = s2.(Snapshot_RunConsumed).
Proof.
  intros Hr0%reachable_ok Hrun Hc1' Hsteps Hc2' Hs2 Hs3.
  assert (rtc store_step db0 db2) as Hs02.
  { destruct (epoch_cases _ _ _ _ Hr0 Hc1') as (? & _ & [[-> _]|(_ & _ & Hst & _)]); [done|by eapply rtc_l]. }
  pose proof (extends_ok _ _ (store_steps_extend _ _ Hr0 Hs02)) as Hr2.
  destruct (epoch_cases _ _ _ _ Hr2 Hc2') as (t2 & Ht2 & [[-> _]|(Hlow & _ & _ & stream & e' & Ha & Hc)]).
  { rewrite Hs2 in Hs3. by injection Hs3 as ->. }
  rewrite Hs2 in Ht2. injection Ht2 as <-.
  assert ((epoch_charge c).(Charge_Key) ∈ Charge_Key <$> counted_charges (stream_events db2 c.(EpochCharge_PlanID))) as Hin.
  { destruct (epoch_cases _ _ _ _ Hr0 Hc1') as (s0 & Hs0 & [[-> Hpos]|(_ & _ & Hst & stream1 & e1 & Ha1 & Hc1)]).
    - destruct (chosen_no_less _ _ _ _ _ _ _ (run_chosen _ Hrun) Hr0 Hsteps Hs0 Hs2) as (Hle & _ & _). unfold run_charged in *. lia.
    - destruct (appended_extend _ _ _ _ _ _ Hr0 Ha1) as [[Hr1 _ _] Heq]. specialize (Heq c.(EpochCharge_PlanID)). rewrite bool_decide_eq_true_2 in Heq by done.
      pose proof (store_steps_extend _ _ Hr1 Hsteps) as [_ _ Hstr]. destruct (Hstr c.(EpochCharge_PlanID)) as [l Hl].
      destruct (counted_prefix (stream_events db1 c.(EpochCharge_PlanID)) l) as [more Hmore]. rewrite Hl, Hmore, fmap_app, elem_of_app. left.
      rewrite Heq, counted_snoc, Hc1. destruct (repeated _ _) eqn:Hrep.
      + unfold repeated in Hrep. apply andb_true_iff in Hrep as [_ Hrep%bool_decide_eq_true]. done.
      + rewrite fmap_app, elem_of_app. right. by left. }
  pose proof (epoch_appended _ _ _ _ _ _ _ _ _ Hr2 Ha Hc Hs2 Hs3) as Hb. rewrite bool_decide_eq_true_2 in Hb by done.
  by injection Hb as -> -> -> _.
Qed.
End epochs.
