(* ===== verification/PlanStoreExample.v ===== *)
(** A plan in the store: claimed, approved, charged for an epoch, revised.  The
    laws of the store apply to it. *)

From S2P Require Import Prelude GoStrings Sha256 Json Domain Canonical Topo GoTime Plan Events Invocation PlanPayload PlanJournal PlanJournalFacts PlanStore PlanStoreFacts PlanStoreLaws.
From stdpp Require Import relations options.

(** A canonical text short enough to digest quickly. *)
Definition length_canonicalizer : Canonicalizer := {| canonical_json v := itoa (Z.of_nat (len (plain_json v))) |}.
#[local] Existing Instances range_forward length_canonicalizer ascii_unicode.

Definition draft_plan (revision : Z) : EngineeringPlan :=
  MkPlan "0.1" "plan" revision "" "change" (MkSubject "owner/repo" "base") (MkEnvelope 4 2 8 600 None) []
    (MkPlanProvenance "v0.1" (MkObjectRevision "model" "1") (MkObjectRevision "policy" "1") (MkObjectRevision "contract" "1") None None None "").
Definition stored_plan (revision : Z) : EngineeringPlan :=
  with_plan_digest (draft_plan revision) (ok_or "" (plan_ContentDigest (draft_plan revision))).
Definition first_plan : EngineeringPlan := Eval vm_compute in stored_plan 1.
Definition second_plan : EngineeringPlan := Eval vm_compute in stored_plan 2.

Definition plan_event (id kind : string) (payload : GoValue) : EngineeringEvent :=
  MkEvent "0.1" id "" "plan" 0 kind 0 "" "" "" (Some (marshal payload)) [] "" "" "".
Definition approve (id : string) (revision : Z) : EngineeringEvent :=
  plan_event id EventPlanApproved (GStruct [("revision", GInt revision); ("digest", GString "d"); ("operator", GString "alice")]).
Definition epoch : EpochCharge := MkEpochCharge "plan" "" "run-1" 0 1 true.

Definition after {A} (write : PlanTables → result PlanStoreError (A * PlanTables)) (db : PlanTables) : PlanTables :=
  match write db with Ok (_, db') => db' | Err _ => db end.

Definition claimed_store : PlanTables := Eval vm_compute in after (ClaimPlan first_plan 0) empty_store.
Definition approved_store : PlanTables := Eval vm_compute in after (AppendPlanEvent (approve "e1" 1)) claimed_store.
Definition charged_store : PlanTables := Eval vm_compute in ok_or approved_store (ChargeRemediationEpoch epoch "e2" approved_store).
Definition revised_store : PlanTables := Eval vm_compute in after (PutPlanRevision second_plan) charged_store.

(** ** The steps *)

Lemma claimed_step : store_step empty_store claimed_store.
Proof. apply (step_claim _ first_plan 0 true). vm_compute. reflexivity. Qed.
Lemma approved_step : store_step claimed_store approved_store.
Proof.
  apply (step_append _ (approve "e1" 1) (default (approve "" 0) (last (stream_events approved_store "plan")))). vm_compute. reflexivity.
Qed.
Lemma epoch_charges : ChargeRemediationEpoch epoch "e2" approved_store = Ok charged_store.
Proof. vm_compute. reflexivity. Qed.
Lemma charged_step : store_step approved_store charged_store.
Proof. apply (step_charge _ epoch "e2" (λ db, Ok db)); [by intros ?? [= ->]|]. vm_compute. reflexivity. Qed.
Lemma revised_step : store_step charged_store revised_store.
Proof. apply (step_revision _ second_plan true). vm_compute. reflexivity. Qed.

Lemma approved_reachable : reachable approved_store.
Proof. eapply rtc_r; [apply rtc_once, claimed_step|apply approved_step]. Qed.
Lemma charged_reachable : reachable charged_store.
Proof. eapply rtc_r; [apply approved_reachable|apply charged_step]. Qed.

Definition no_snapshot : PlanSnapshot := empty_snapshot "".
Definition approved_state : PlanSnapshot := Eval vm_compute in ok_or no_snapshot (replay_plan approved_store "plan").
Definition charged_state : PlanSnapshot := Eval vm_compute in ok_or no_snapshot (replay_plan charged_store "plan").
Lemma approved_replays : replay_plan approved_store "plan" = Ok approved_state.
Proof. vm_compute. reflexivity. Qed.
Lemma charged_replays : replay_plan charged_store "plan" = Ok charged_state.
Proof. vm_compute. reflexivity. Qed.

(** ** The laws at work *)

Definition last_charged : EngineeringEvent := Eval vm_compute in default (approve "" 0) (last (stream_events charged_store "plan")).

Lemma plan_always_replays_witness : ∃ s, replay_plan charged_store "plan" = Ok s ∧ s.(Snapshot_StateSHA256) = last_charged.(Event_StateAfter).
Proof.
  assert (last (stream_events charged_store "plan") = Some last_charged) as Hl by (vm_compute; reflexivity).
  destruct (plan_always_replays _ _ _ charged_reachable Hl) as (s & Hs & Hd & _). exists s. split; [exact Hs|exact Hd].
Defined.

Lemma approval_is_monotone_witness : ApprovedRevision charged_state = Some 1%Z ∧ 1%Z ∈ approvals (stream_events charged_store "plan").
Proof.
  assert (ApprovedRevision charged_state = Some 1%Z) as Ha by (vm_compute; reflexivity). split; [exact Ha|].
  destruct (approval_is_monotone _ _ _ charged_reachable charged_replays) as (Hr & _). by apply Hr.
Defined.

Lemma plan_revisions_immutable_witness : PlanRevision revised_store "plan" 1 = Some first_plan ∧ plan_ContentDigest first_plan = Ok first_plan.(Plan_Digest).
Proof.
  assert (PlanRevision charged_store "plan" 1 = Some first_plan) as Hp by (vm_compute; reflexivity).
  destruct (plan_revisions_immutable _ _ _ _ _ charged_reachable (rtc_once _ _ revised_step) Hp) as (Hk & _ & _ & Hd & _). split; [exact Hk|exact Hd].
Defined.

Lemma plan_budget_conserved_witness :
  no_less approved_state.(Snapshot_Consumed) charged_state.(Snapshot_Consumed) ∧ charged_state.(Snapshot_Consumed).(Consumed_ChildRuns) = 1%Z.
Proof.
  split; [|vm_compute; reflexivity].
  destruct (plan_budget_conserved _ _ _ _ _ approved_reachable (rtc_once _ _ charged_step) approved_replays charged_replays) as ([_ Hn] & _). exact Hn.
Defined.

Lemma epoch_charge_bounded_witness :
  charged_state.(Snapshot_Consumed).(Consumed_ChildRuns) = (approved_state.(Snapshot_Consumed).(Consumed_ChildRuns) + 1)%Z
  ∧ ∀ db', ChargeRemediationEpoch epoch "e3" charged_store = Ok db' → db' = charged_store.
Proof.
  split.
  - destruct (epoch_charge_bounded _ _ _ _ _ _ approved_reachable epoch_charges approved_replays charged_replays) as [_ Hnew].
    destruct Hnew as (_ & _ & Hone); [vm_compute; intros [=]|]. etransitivity; [exact Hone|]. vm_compute. reflexivity.
  - intros db' Hc. assert (ChargeRemediationEpoch epoch "e3" charged_store = Ok charged_store) as Hsame by (vm_compute; reflexivity).
    assert (db' = charged_store) as -> by (rewrite Hsame in Hc; injection Hc as <-; reflexivity).
    apply (epoch_charge_bounded epoch "e3" charged_store charged_store charged_state charged_state charged_reachable Hsame charged_replays charged_replays).
    vm_compute. reflexivity.
Defined.

Lemma epoch_charged_once_witness : ChargeRemediationEpoch epoch "e3" charged_store = Ok charged_store
  ∧ charged_state.(Snapshot_Consumed) = charged_state.(Snapshot_Consumed).
Proof.
  assert (ChargeRemediationEpoch epoch "e3" charged_store = Ok charged_store) as Hc by (vm_compute; reflexivity). split; [exact Hc|].
  eapply (epoch_charged_once epoch "e2" "e3" approved_store charged_store charged_store charged_store);
    [exact approved_reachable|done|exact epoch_charges|apply rtc_refl|exact Hc|exact charged_replays|exact charged_replays].
Defined.

(** This canonical text forgets what an event says, so a history can be forged
    under its cursor: the two events it takes collide. *)
Definition forged_approval : EngineeringEvent :=
  plan_event "e1" EventPlanApproved (GStruct [("revision", GInt 1); ("digest", GString "d"); ("operator", GString "mallo")]).
Definition forged_store : PlanTables := Eval vm_compute in after (AppendPlanEvent forged_approval) claimed_store.
Definition forged_state : PlanSnapshot := Eval vm_compute in ok_or no_snapshot (replay_plan forged_store "plan").

Lemma ReducePlan_tamper_evident_witness :
  stream_events approved_store "plan" ≠ stream_events forged_store "plan"
  ∧ event_collision (stream_events approved_store "plan") (stream_events forged_store "plan").
Proof.
  assert (ReducePlan "plan" (stream_events approved_store "plan") = Ok approved_state) as Hr by (vm_compute; reflexivity).
  assert (ReducePlan "plan" (stream_events forged_store "plan") = Ok forged_state) as Hf by (vm_compute; reflexivity).
  assert (stream_events approved_store "plan" ≠ stream_events forged_store "plan") as Hne by (vm_compute; intros [=]).
  split; [exact Hne|]. destruct (ReducePlan_tamper_evident "plan" _ _ _ _ Hr Hf eq_refl) as [Heq|Hc]; [destruct (Hne Heq)|exact Hc].
Defined.

(** ** What the reducer does not enforce *)

Definition gate_event : EngineeringEvent := plan_event "e1" EventPlanGateSatisfied
  (GStruct [("stage_id", GString "gate"); ("kind", GString StageHumanDecisionGate); ("human_evidence_id", GString "h")]).
Definition assign_event : EngineeringEvent := plan_event "e2" EventPlanStageAssigned
  (GStruct [("stage_id", GString "gate"); ("assignment_id", GString "a"); ("role", GString RoleReviewer); ("profile_id", GString "p");
    ("profile_version", GInt 1); ("profile_digest", GString "d"); ("agent_id", GString "w"); ("provider_kind", GString "k");
    ("vendor_family", GString "v"); ("trust_mode", GString "t"); ("invocation_mode", GString InvocationModeMutating); ("run_id", GString "run-1")]).
Definition start_event (id run : string) : EngineeringEvent := plan_event id EventPlanRunStarted
  (GStruct [("stage_id", GString "stage"); ("run_id", GString run)]).

Definition gated_store : PlanTables := Eval vm_compute in after (AppendPlanEvent assign_event) (after (AppendPlanEvent gate_event) claimed_store).
Definition restarted_store : PlanTables := Eval vm_compute in
  after (AppendPlanEvent (start_event "e2" "run-2")) (after (AppendPlanEvent (start_event "e1" "run-1")) claimed_store).

(** A gate that is satisfied can be given a run by an assignment. *)
Lemma satisfied_gate_owns_run :
  ∃ s stage, replay_plan gated_store "plan" = Ok s ∧ s.(Snapshot_Stages) !! "gate" = Some stage
    ∧ is_Some stage.(Projected_Gate) ∧ stage.(Projected_RunID) = "run-1".
Proof.
  exists (ok_or no_snapshot (replay_plan gated_store "plan")). eexists. split; [vm_compute; reflexivity|].
  split; [vm_compute; reflexivity|]. split; [eexists; reflexivity|reflexivity].
Qed.

(** A stage that is started again forgets the run it had: the plan no longer
    lists it. *)
Lemma restarted_stage_forgets_run :
  ∃ s, replay_plan restarted_store "plan" = Ok s ∧ ChildRuns s = ["run-2"].
Proof.
  exists (ok_or no_snapshot (replay_plan restarted_store "plan")). split; vm_compute; reflexivity.
Qed.
