(* ===== verification/PlanGraph.v ===== *)
(** The graph laws of plans and templates: [planning/graph.go].
    [validateStageGraph] refuses every stage graph a plan could not be executed
    as, for plans and templates alike. *)

From S2P Require Import Prelude GoStrings Domain Topo Reach WorkGraph Plan.
From stdpp Require Import relations options.

Record stageView := MkView {
  View_ID : string;
  View_Kind : string;
  View_Role : string;
  View_ExecutionKind : string;
  View_AcceptanceFeature : string;
  View_SubstitutesRole : string;
  View_DependsOn : list string;
  View_RequiredClaims : list string;
  View_Action : option Action;
  View_Independence : option IndependenceRequirement;
  View_RequiresCapabilities : list string;
  View_Profile : string;
  View_TrustRequirement : string
}.

#[export] Instance stageView_node : Node stageView := {| node_id := View_ID; node_deps := View_DependsOn |}.

Inductive GraphError :=
  | NoStages
  | StageIDRequired
  | DuplicateStage (id : string)
  | UnknownStageExecutionKind (id kind : string)
  | NoAlgorithm (id : string)
  | CompositionShape (id : string)
  | UnknownStageRole (id role : string)
  | UnknownStageCapability (id capability : string)
  | GateWithRole (id kind role : string)
  | GateWithWorkerRequirements (id kind : string)
  | GateWithIndependence (id kind : string)
  | AssuranceWithoutClaims (id : string)
  | DecisionOfNothing (id : string)
  | SubstitutionByGate (id kind role : string)
  | UnknownSubstitutedRole (id role : string)
  | UnknownStageKind (id kind : string)
  | StageSelfDependency (id : string)
  | StageDuplicateDependency (id dependency : string)
  | StageUnknownDependency (id dependency : string)
  | UnknownDimension (id dimension : string)
  | HumanIndependence (id : string)
  | IndependentOfNothing (id : string)
  | IndependentOfItself (id : string)
  | UnknownPeer (id other : string)
  | GatePeer (id other kind : string)
  | UnorderedPeer (id other : string)
  | StageCycle (unresolved : list string)
  | GraphOutOfFuel
  | InvalidFeature (id feature : string)
  | FeatureOutsideIntegration (id : string)
  | FeatureNotFinal (id : string)
  | SeveralFeatures (n : nat).

(** The planner's own copies of the orderings of the policy compiler. *)
Definition knownDimension (dimension : string) : bool := existsb (λ known, known ≟ dimension) IndependenceDimensions.

Fixpoint strength_of (dimensions : list string) (strength : Z) (dimension : string) : Z :=
  match dimensions with
  | [] => -1
  | known :: dimensions => if known ≟ dimension then strength else strength_of dimensions (strength + 1) dimension
  end.

Definition dimensionStrength (dimension : string) : Z := strength_of IndependenceDimensions 0 dimension.

Definition dependencyIndex (byID : gmap string stageView) : gmap string (list string) := View_DependsOn <$> byID.

Definition dependsOnTransitively (from to : string) (byID : gmap string stageView) : bool :=
  reaches (dependencyIndex byID) from to.

Definition validateExecutionKind (stage : stageView) : result GraphError () :=
  let kind := stage.(View_ExecutionKind) in
  refuse_if (negb (KnownExecutionKind kind)) (UnknownStageExecutionKind stage.(View_ID) kind) ;?
  if kind ≟ "" then Ok tt
  else
    refuse_if ((stage.(View_Kind) ≠? StageAgent) || (stage.(View_Role) ≟ RolePlanner)) (NoAlgorithm stage.(View_ID)) ;?
    refuse_if ((kind ≟ ExecutionKindIntegrationCompose)
               && ((stage.(View_Role) ≠? RoleIntegrator) || (length stage.(View_DependsOn) <? 2)))
      (CompositionShape stage.(View_ID)).

(** The [switch stage.Kind] of [validateStage]. *)
Definition validate_kind (stage : stageView) : result GraphError () :=
  let id := stage.(View_ID) in
  let kind := stage.(View_Kind) in
  if kind ≟ StageAgent then
    refuse_if (negb (KnownRole stage.(View_Role))) (UnknownStageRole id stage.(View_Role)) ;?
    check_all (λ capability, refuse_if (negb (KnownCapability capability)) (UnknownStageCapability id capability))
      stage.(View_RequiresCapabilities)
  else if (kind ≟ StageAssuranceGate) || (kind ≟ StageHumanDecisionGate) then
    refuse_if (stage.(View_Role) ≠? "") (GateWithRole id kind stage.(View_Role)) ;?
    refuse_if ((stage.(View_Profile) ≠? "") || (0 <? length stage.(View_RequiresCapabilities))
               || (stage.(View_TrustRequirement) ≠? "")) (GateWithWorkerRequirements id kind) ;?
    refuse_if (negb (bool_decide (stage.(View_Independence) = None))) (GateWithIndependence id kind) ;?
    refuse_if ((kind ≟ StageAssuranceGate) && (length stage.(View_RequiredClaims) =? 0)) (AssuranceWithoutClaims id) ;?
    refuse_if ((kind ≟ StageHumanDecisionGate) && (length stage.(View_RequiredClaims) =? 0)
               && bool_decide (stage.(View_Action) = None)) (DecisionOfNothing id) ;?
    if stage.(View_SubstitutesRole) ≟ "" then Ok tt
    else
      refuse_if (kind ≠? StageHumanDecisionGate) (SubstitutionByGate id kind stage.(View_SubstitutesRole)) ;?
      refuse_if (negb (KnownRole stage.(View_SubstitutesRole))) (UnknownSubstitutedRole id stage.(View_SubstitutesRole))
  else Err (UnknownStageKind id kind).

(** One dependency; the state is [seen]. *)
Definition validate_dependency (byID : gmap string stageView) (id : string) (seen : gset string) (dependency : string)
  : result GraphError (gset string) :=
  refuse_if (dependency ≟ id) (StageSelfDependency id) ;?
  refuse_if (bool_decide (dependency ∈ seen)) (StageDuplicateDependency id dependency) ;?
  refuse_if (bool_decide (byID !! dependency = None)) (StageUnknownDependency id dependency) ;?
  Ok ({[dependency]} ∪ seen).

Definition validate_peer (byID : gmap string stageView) (id other : string) : result GraphError () :=
  refuse_if (other ≟ id) (IndependentOfItself id) ;?
  let? peer := of_option (UnknownPeer id other) (byID !! other) in
  refuse_if (peer.(View_Kind) ≠? StageAgent) (GatePeer id other peer.(View_Kind)) ;?
  refuse_if (negb (dependsOnTransitively id other byID)) (UnorderedPeer id other).

Definition validate_independence (byID : gmap string stageView) (id : string) (independence : IndependenceRequirement)
  : result GraphError () :=
  let dimension := independence.(Independence_Dimension) in
  refuse_if (negb (knownDimension dimension)) (UnknownDimension id dimension) ;?
  refuse_if (dimension ≟ IndependenceHuman) (HumanIndependence id) ;?
  refuse_if (length independence.(Independence_DifferentFrom) =? 0) (IndependentOfNothing id) ;?
  check_all (validate_peer byID id) independence.(Independence_DifferentFrom).

Definition validateStage (byID : gmap string stageView) (stage : stageView) : result GraphError () :=
  validateExecutionKind stage ;?
  validate_kind stage ;?
  for_each (validate_dependency byID stage.(View_ID)) stage.(View_DependsOn) ∅ ;?
  match stage.(View_Independence) with
  | None => Ok tt
  | Some independence => validate_independence byID stage.(View_ID) independence
  end.

(** [settled] is the length of the order the loop takes. *)
Definition refuseCycles `{!MapRange} (stages : list stageView) : result GraphError () :=
  match kahn stages with
  | None => Err GraphOutOfFuel
  | Some (order, remaining) => refuse_if (negb (length order =? length stages)) (StageCycle (unresolved remaining))
  end.

Definition dependsOnStage (id ancestor : string) (byID : gmap string stageView) : bool :=
  dependsOn (dependencyIndex byID) id ancestor.

Definition downstreamIntegration (stageID : string) (stages : list stageView) (byID : gmap string stageView) : bool :=
  existsb (λ candidate, (candidate.(View_ID) ≠? stageID)
    && (candidate.(View_ExecutionKind) ≟ ExecutionKindIntegrationCompose)
    && dependsOnStage candidate.(View_ID) stageID byID) stages.

(** One stage of the loop of [validateAcceptanceFeature]; the state counts the
    carriers. *)
Definition validate_feature (stages : list stageView) (byID : gmap string stageView) (carriers : nat) (stage : stageView)
  : result GraphError nat :=
  let feature := stage.(View_AcceptanceFeature) in
  if feature ≟ "" then Ok carriers
  else
    refuse_if (negb (ValidAcceptanceFeature feature)) (InvalidFeature stage.(View_ID) feature) ;?
    refuse_if ((stage.(View_Kind) ≠? StageAgent) || (stage.(View_ExecutionKind) ≠? ExecutionKindIntegrationCompose))
      (FeatureOutsideIntegration stage.(View_ID)) ;?
    refuse_if (downstreamIntegration stage.(View_ID) stages byID) (FeatureNotFinal stage.(View_ID)) ;?
    Ok (S carriers).

Definition validateAcceptanceFeature (stages : list stageView) (byID : gmap string stageView) : result GraphError () :=
  let? carriers := for_each (validate_feature stages byID) stages 0 in
  refuse_if (1 <? carriers) (SeveralFeatures carriers).

Definition index_stage (byID : gmap string stageView) (stage : stageView) : result GraphError (gmap string stageView) :=
  refuse_if (blank stage.(View_ID)) StageIDRequired ;?
  refuse_if (negb (bool_decide (byID !! stage.(View_ID) = None))) (DuplicateStage stage.(View_ID)) ;?
  Ok (<[stage.(View_ID) := stage]> byID).

Definition validateStageGraph `{!MapRange} (stages : list stageView) : result GraphError () :=
  refuse_if (length stages =? 0) NoStages ;?
  let? byID := for_each index_stage stages ∅ in
  check_all (validateStage byID) stages ;?
  refuseCycles stages ;?
  validateAcceptanceFeature stages byID.

(* ------------------------------------------------------------------ *)
(** * What the laws say *)

(** The graph a list of stages is. *)
Definition stage_edge (stages : list stageView) : relation string := node_edge stages.

Definition stage_ids (stages : list stageView) : list string := View_ID <$> stages.

(** The shape of one stage on its own: who performs it, and that a gate
    states nothing of a worker. *)
Record valid_shape (s : stageView) : Prop := {
  shape_execution : s.(View_ExecutionKind) = "" ∨
    (s.(View_ExecutionKind) = ExecutionKindProvider ∨
       s.(View_ExecutionKind) = ExecutionKindIntegrationCompose
       ∧ s.(View_Role) = RoleIntegrator ∧ (2 <= length s.(View_DependsOn))%nat)
    ∧ s.(View_Kind) = StageAgent ∧ s.(View_Role) ≠ RolePlanner;
  shape_kind :
    (s.(View_Kind) = StageAgent ∧ s.(View_Role) ∈ EngineeringRoles
     ∧ ∀ c, c ∈ s.(View_RequiresCapabilities) → c ∈ EngineeringCapabilities)
    ∨ ((s.(View_Kind) = StageAssuranceGate ∧ s.(View_RequiredClaims) ≠ [] ∧ s.(View_SubstitutesRole) = ""
        ∨ s.(View_Kind) = StageHumanDecisionGate ∧ (s.(View_RequiredClaims) ≠ [] ∨ s.(View_Action) ≠ None)
          ∧ (s.(View_SubstitutesRole) = "" ∨ s.(View_SubstitutesRole) ∈ EngineeringRoles))
       ∧ s.(View_Role) = "" ∧ s.(View_Profile) = "" ∧ s.(View_RequiresCapabilities) = []
       ∧ s.(View_TrustRequirement) = "" ∧ s.(View_Independence) = None)
}.

(** An independence requirement names other agent stages that are upstream of
    the stage, in a dimension a worker can differ in. *)
Record valid_independence (stages : list stageView) (s : stageView) (i : IndependenceRequirement) : Prop := {
  independence_dimension : i.(Independence_Dimension) ∈ IndependenceDimensions ∧ i.(Independence_Dimension) ≠ IndependenceHuman;
  independence_peers : i.(Independence_DifferentFrom) ≠ [];
  independence_upstream : ∀ other, other ∈ i.(Independence_DifferentFrom) →
    other ≠ s.(View_ID) ∧ tc (stage_edge stages) s.(View_ID) other
    ∧ ∃ peer, peer ∈ stages ∧ peer.(View_ID) = other ∧ peer.(View_Kind) = StageAgent
}.

Record valid_stage (stages : list stageView) (s : stageView) : Prop := {
  stage_shape : valid_shape s;
  stage_dependencies : NoDup s.(View_DependsOn)
    ∧ ∀ d, d ∈ s.(View_DependsOn) → d ≠ s.(View_ID) ∧ d ∈ stage_ids stages;
  stage_independence : ∀ i, s.(View_Independence) = Some i → valid_independence stages s i
}.

(** A declared acceptance feature is carried by at most one stage, an
    integration that no other integration is downstream of. *)
Definition final_integration (stages : list stageView) (s : stageView) : Prop :=
  s.(View_Kind) = StageAgent ∧ s.(View_ExecutionKind) = ExecutionKindIntegrationCompose
  ∧ ∀ c, c ∈ stages → c.(View_ID) ≠ s.(View_ID) → c.(View_ExecutionKind) = ExecutionKindIntegrationCompose →
      ¬ tc (stage_edge stages) c.(View_ID) s.(View_ID).

Definition carries_feature (s : stageView) : Prop := s.(View_AcceptanceFeature) ≠ "".

Definition valid_features (stages : list stageView) : Prop :=
  (∀ s, s ∈ stages → carries_feature s →
     ValidAcceptanceFeature s.(View_AcceptanceFeature) = true ∧ final_integration stages s)
  ∧ (length (filter (λ s, View_AcceptanceFeature s ≠ "") stages) <= 1)%nat.

(* ------------------------------------------------------------------ *)
(** * Each check decides its law *)

Lemma existsb_known (x : string) l : existsb (λ known, known ≟ x) l = true ↔ x ∈ l.
Proof. rewrite existsb_elem. setoid_rewrite bool_decide_eq_true. naive_solver. Qed.

Lemma length_zero {A} (l : list A) : (length l =? 0)%nat = true ↔ l = [].
Proof. rewrite Nat.eqb_eq. apply length_zero_iff_nil. Qed.

Lemma validateExecutionKind_ok s :
  validateExecutionKind s = Ok tt ↔
    s.(View_ExecutionKind) = "" ∨
    (s.(View_ExecutionKind) = ExecutionKindProvider ∨
       s.(View_ExecutionKind) = ExecutionKindIntegrationCompose
       ∧ s.(View_Role) = RoleIntegrator ∧ (2 <= length s.(View_DependsOn))%nat)
    ∧ s.(View_Kind) = StageAgent ∧ s.(View_Role) ≠ RolePlanner.
Proof.
  unfold validateExecutionKind, KnownExecutionKind. rewrite check_then, refuse_if_ok, negb_false_iff, !orb_true_iff, !bool_decide_eq_true.
  case_bool_decide as He; [naive_solver|].
  rewrite check_then, !refuse_if_ok, orb_false_iff, negb_false_iff, andb_false_iff, orb_false_iff, negb_false_iff, Nat.ltb_ge.
  rewrite !bool_decide_eq_true, !bool_decide_eq_false.
  assert (View_ExecutionKind s = ExecutionKindProvider → View_ExecutionKind s ≠ ExecutionKindIntegrationCompose)
    by (intros ->; done). tauto.
Qed.

Lemma validate_kind_ok s :
  validate_kind s = Ok tt ↔
    (s.(View_Kind) = StageAgent ∧ s.(View_Role) ∈ EngineeringRoles
     ∧ ∀ c, c ∈ s.(View_RequiresCapabilities) → c ∈ EngineeringCapabilities)
    ∨ ((s.(View_Kind) = StageAssuranceGate ∧ s.(View_RequiredClaims) ≠ [] ∧ s.(View_SubstitutesRole) = ""
        ∨ s.(View_Kind) = StageHumanDecisionGate ∧ (s.(View_RequiredClaims) ≠ [] ∨ s.(View_Action) ≠ None)
          ∧ (s.(View_SubstitutesRole) = "" ∨ s.(View_SubstitutesRole) ∈ EngineeringRoles))
       ∧ s.(View_Role) = "" ∧ s.(View_Profile) = "" ∧ s.(View_RequiresCapabilities) = []
       ∧ s.(View_TrustRequirement) = "" ∧ s.(View_Independence) = None).
Proof.
  assert (StageAgent ≠ StageAssuranceGate) by done. assert (StageAgent ≠ StageHumanDecisionGate) by done.
  assert (StageAssuranceGate ≠ StageHumanDecisionGate) by done.
  unfold validate_kind. case_bool_decide as Ha.
  { rewrite check_then, refuse_if_ok, negb_false_iff, check_all_ok. setoid_rewrite refuse_if_ok. setoid_rewrite negb_false_iff.
    unfold KnownRole, KnownCapability. setoid_rewrite existsb_known. rewrite Ha. tauto. }
  destruct ((View_Kind s ≟ StageAssuranceGate) || (View_Kind s ≟ StageHumanDecisionGate)) eqn:Hg.
  2: { rewrite orb_false_iff, !bool_decide_eq_false in Hg. naive_solver. }
  rewrite orb_true_iff, !bool_decide_eq_true in Hg.
  rewrite !check_then, !refuse_if_ok, !orb_false_iff, !andb_false_iff, !negb_false_iff, !bool_decide_eq_true, !bool_decide_eq_false.
  rewrite Nat.ltb_ge, Nat.eqb_neq.
  assert (length (View_RequiresCapabilities s) <= 0 ↔ View_RequiresCapabilities s = [])%nat as ->
    by (rewrite Nat.le_0_r; apply length_zero_iff_nil).
  assert (length (View_RequiredClaims s) ≠ 0%nat ↔ View_RequiredClaims s ≠ []) as -> by (by rewrite length_zero_iff_nil).
  case_bool_decide as Hs.
  - destruct Hg as [Hg|Hg]; rewrite Hg; naive_solver.
  - rewrite check_then, !refuse_if_ok, !negb_false_iff, bool_decide_eq_true. unfold KnownRole. rewrite existsb_known.
    destruct Hg as [Hg|Hg]; rewrite Hg; naive_solver.
Qed.

Lemma knownDimension_ok d : knownDimension d = true ↔ d ∈ IndependenceDimensions.
Proof. apply existsb_known. Qed.

Section laws.
Variable stages : list stageView.
Hypothesis Hnodup : NoDup (stage_ids stages).
Let byID := by_key View_ID stages.
Set Default Proof Using "All".

Lemma lookup_stage id s : byID !! id = Some s ↔ s ∈ stages ∧ s.(View_ID) = id.
Proof. by apply (lookup_by_key View_ID). Qed.

Lemma stage_known id : byID !! id ≠ None ↔ id ∈ stage_ids stages.
Proof.
  rewrite not_eq_None_Some. unfold stage_ids. rewrite list_elem_of_fmap. split.
  - intros [s [Hs <-]%lookup_stage]. eauto.
  - intros (s & -> & Hs). exists s. by apply lookup_stage.
Qed.

Lemma dependsOnTransitively_ok from to : dependsOnTransitively from to byID = true ↔ tc (stage_edge stages) from to.
Proof. unfold dependsOnTransitively. rewrite reaches_spec. exact (tc_edge_by_key stages from to Hnodup). Qed.

Lemma dependsOnStage_ok id ancestor : dependsOnStage id ancestor byID = true ↔ tc (stage_edge stages) id ancestor.
Proof. unfold dependsOnStage. rewrite dependsOn_spec. exact (tc_edge_by_key stages id ancestor Hnodup). Qed.

Lemma validate_dependencies_ok id l :
  is_ok (for_each (validate_dependency byID id) l ∅) = true ↔
    NoDup l ∧ ∀ d, d ∈ l → d ≠ id ∧ d ∈ stage_ids stages.
Proof.
  rewrite is_ok_true, (for_each_distinct _ (λ d, d ≠ id ∧ d ∈ stage_ids stages)).
  { split; intros [Hn Hx]; (split; [done|]); intros d Hd;
      [by destruct (Hx d Hd)|split; [by apply Hx|apply not_elem_of_empty]]. }
  intros s x s'. unfold validate_dependency. rewrite !refuse_if_then, !bool_decide_eq_false, stage_known.
  split; [intros (? & ? & ? & [= <-])|intros ([? ?] & ? & ->)]; done.
Qed.

Lemma validate_peer_ok id other :
  validate_peer byID id other = Ok tt ↔
    other ≠ id ∧ tc (stage_edge stages) id other
    ∧ ∃ peer, peer ∈ stages ∧ peer.(View_ID) = other ∧ peer.(View_Kind) = StageAgent.
Proof.
  unfold validate_peer. rewrite refuse_if_then, bool_decide_eq_false, rbind_ok.
  setoid_rewrite of_option_ok. setoid_rewrite check_then. setoid_rewrite refuse_if_ok. setoid_rewrite negb_false_iff.
  setoid_rewrite dependsOnTransitively_ok. setoid_rewrite bool_decide_eq_true. setoid_rewrite lookup_stage. naive_solver.
Qed.

Lemma validate_independence_ok s i :
  validate_independence byID s.(View_ID) i = Ok tt ↔ valid_independence stages s i.
Proof.
  unfold validate_independence. rewrite !check_then, !refuse_if_ok, negb_false_iff, knownDimension_ok, check_all_ok.
  rewrite bool_decide_eq_false, Nat.eqb_neq, length_zero_iff_nil. setoid_rewrite validate_peer_ok.
  split; [intros (? & ? & ? & ?)|intros [[? ?] ? ?]]; [constructor|]; naive_solver.
Qed.

Lemma validateStage_ok s : validateStage byID s = Ok tt ↔ valid_stage stages s.
Proof.
  unfold validateStage. rewrite !check_then, validateExecutionKind_ok, validate_kind_ok, rbind_ok.
  pose proof (validate_dependencies_ok s.(View_ID) s.(View_DependsOn)) as Hd. rewrite is_ok_true in Hd.
  split.
  - intros (Hx & Hk & seen & Hs & Hi). destruct (proj1 Hd) as [Hn Hall]; [eauto|].
    split; [by split|done|]. intros i He. rewrite He in Hi. by apply validate_independence_ok.
  - intros [[Hx Hk] Hdep Hi]. split; [done|]. split; [done|]. destruct (proj2 Hd Hdep) as [seen Hs]. exists seen.
    split; [done|]. destruct (View_Independence s) as [i|]; [|done]. by apply validate_independence_ok, Hi.
Qed.

Lemma downstreamIntegration_ok id :
  downstreamIntegration id stages byID = false ↔
    ∀ c, c ∈ stages → c.(View_ID) ≠ id → c.(View_ExecutionKind) = ExecutionKindIntegrationCompose →
      ¬ tc (stage_edge stages) c.(View_ID) id.
Proof.
  unfold downstreamIntegration. rewrite <- not_true_iff_false, existsb_elem.
  setoid_rewrite andb_true_iff. setoid_rewrite andb_true_iff. setoid_rewrite negb_true_iff.
  setoid_rewrite bool_decide_eq_false. setoid_rewrite bool_decide_eq_true. setoid_rewrite dependsOnStage_ok. naive_solver.
Qed.

Lemma validate_feature_ok n s n' :
  validate_feature stages byID n s = Ok n' ↔
    (carries_feature s → ValidAcceptanceFeature s.(View_AcceptanceFeature) = true ∧ final_integration stages s)
    ∧ n' = (n + if decide (s.(View_AcceptanceFeature) ≠ "") then 1 else 0)%nat.
Proof.
  unfold validate_feature, carries_feature. destruct (bool_decide_reflect (View_AcceptanceFeature s = "")) as [He|He].
  { rewrite decide_False by tauto. rewrite Nat.add_0_r. naive_solver. }
  rewrite decide_True by done. rewrite !refuse_if_then, negb_false_iff, orb_false_iff, !negb_false_iff, !bool_decide_eq_true.
  rewrite downstreamIntegration_ok. unfold final_integration. rewrite Nat.add_1_r. naive_solver.
Qed.

Lemma validate_features_ok l n n' :
  for_each (validate_feature stages byID) l n = Ok n' ↔
    (∀ s, s ∈ l → carries_feature s →
       ValidAcceptanceFeature s.(View_AcceptanceFeature) = true ∧ final_integration stages s)
    ∧ n' = (n + length (filter (λ s, View_AcceptanceFeature s ≠ "") l))%nat.
Proof.
  revert n; induction l as [|s l IH]; intros n; simpl.
  { rewrite Nat.add_0_r. split; [intros [= <-]; split; [by intros s ?%not_elem_of_nil|done]|by intros [_ ->]]. }
  rewrite rbind_ok. setoid_rewrite validate_feature_ok. setoid_rewrite IH. setoid_rewrite elem_of_cons.
  assert (length (filter (λ s, View_AcceptanceFeature s ≠ "") (s :: l))
    = ((if decide (View_AcceptanceFeature s ≠ "") then 1 else 0)
       + length (filter (λ s, View_AcceptanceFeature s ≠ "") l)))%nat as -> by (rewrite filter_cons; by case_decide).
  split.
  - intros (m & (Hs & ->) & Hl & ->). split; [|lia]. intros x [->|Hx]; auto.
  - intros [Hall ->]. eexists. split; [split; [apply Hall; by left|done]|]. split; [|lia]. intros x Hx. apply Hall. by right.
Qed.

Lemma validateAcceptanceFeature_ok : validateAcceptanceFeature stages byID = Ok tt ↔ valid_features stages.
Proof.
  unfold validateAcceptanceFeature, valid_features. rewrite rbind_ok. setoid_rewrite validate_features_ok.
  setoid_rewrite refuse_if_ok. setoid_rewrite Nat.ltb_ge. simpl. naive_solver.
Qed.
End laws.

Lemma refuseCycles_ok `{!MapRange} stages :
  NoDup (stage_ids stages) → refuseCycles stages = Ok tt ↔ ranked stages.
Proof.
  intros Hnd. unfold refuseCycles. destruct (kahn_total stages) as (order & remaining & Hk & _). rewrite Hk.
  rewrite refuse_if_ok, negb_false_iff, Nat.eqb_eq, (kahn_full _ _ _ Hk). tauto.
Qed.

Lemma index_stages_ok stages byID :
  for_each index_stage stages ∅ = Ok byID ↔
    NoDup (stage_ids stages) ∧ (∀ s, s ∈ stages → blank s.(View_ID) = false) ∧ byID = by_key View_ID stages.
Proof.
  apply for_each_index. intros m x m'. unfold index_stage.
  rewrite !refuse_if_then, negb_false_iff, bool_decide_eq_true. naive_solver.
Qed.

Lemma validateStageGraph_ok `{!MapRange} stages :
  validateStageGraph stages = Ok tt ↔
    stages ≠ [] ∧ NoDup (stage_ids stages) ∧ (∀ s, s ∈ stages → blank s.(View_ID) = false)
    ∧ (∀ s, s ∈ stages → valid_stage stages s) ∧ ranked stages ∧ valid_features stages.
Proof.
  unfold validateStageGraph. rewrite refuse_if_then, Nat.eqb_neq, length_zero_iff_nil, rbind_ok.
  setoid_rewrite index_stages_ok. split.
  - intros (Hne & byID & (Hnd & Hb & ->) & Hs). rewrite !check_then, check_all_ok in Hs. destruct Hs as (Hs & Hc & Hf).
    split_and!; [done..| | |].
    + intros s Hin. by apply validateStage_ok, Hs.
    + by apply refuseCycles_ok.
    + by apply validateAcceptanceFeature_ok.
  - intros (Hne & Hnd & Hb & Hs & Hr & Hf). split; [done|]. eexists. split; [done|].
    rewrite !check_then, check_all_ok. split_and!.
    + intros s Hin. by apply validateStage_ok, Hs.
    + by apply refuseCycles_ok.
    + by apply validateAcceptanceFeature_ok.
Qed.

(** A stage graph a plan can be executed as. *)
Record valid_graph (stages : list stageView) : Prop := {
  graph_nonempty : stages ≠ [];
  graph_names : NoDup (stage_ids stages) ∧ ∀ s, s ∈ stages → blank s.(View_ID) = false;
  graph_stages : ∀ s, s ∈ stages → valid_stage stages s;
  graph_acyclic : ranked stages;
  graph_features : valid_features stages
}.

(** C34: The graph laws are decided exactly: a stage graph is admitted if and only
    if its stages have distinct names, each has the shape of its kind and
    depends on others of the graph, an independence requirement names agent
    stages strictly upstream, the dependencies are acyclic, and a declared
    acceptance feature sits on the one final integration. *)
Theorem validateStageGraph_iff `{!MapRange} stages : validateStageGraph stages = Ok tt ↔ valid_graph stages.
Proof.
  rewrite validateStageGraph_ok. split; [intros (? & ? & ? & ? & ? & ?); by constructor|].
  intros [? [? ?] ? ? ?]. done.
Qed.

(** In every order that puts each stage after its dependencies, the stages a
    stage must be independent of come before it: the obligation is always
    judged against work already assigned. *)
Theorem independence_resolved_before `{!MapRange} (stages : list stageView) order s i other l1 l2 :
  validateStageGraph stages = Ok tt →
  order ≡ₚ stage_ids stages → Topo.ordered stages order →
  s ∈ stages → s.(View_Independence) = Some i → other ∈ i.(Independence_DifferentFrom) →
  order = l1 ++ s.(View_ID) :: l2 → other ∈ l1.
Proof.
  intros (_ & _ & _ & Hs & _)%validateStageGraph_ok Hp Ho Hin Hi Hother He.
  destruct (stage_independence _ _ (Hs s Hin) i Hi) as [_ _ Hup]. destruct (Hup other Hother) as (_ & Ht & _).
  by eapply (tc_before stages).
Qed.

(* ------------------------------------------------------------------ *)
(** * Concrete graphs *)

Definition example_view (id kind role : string) (deps claims : list string) (i : option IndependenceRequirement) : stageView :=
  MkView id kind role "" "" "" deps claims None i [] "" "".

Definition example_views : list stageView :=
  [example_view "implementation" StageAgent RoleImplementer [] [] None;
   example_view "review" StageAgent RoleReviewer ["implementation"] []
     (Some (MkIndependence IndependenceVendorFamily ["implementation"] false));
   example_view "assurance" StageAssuranceGate "" ["review"] ["tests"] None].

Example example_views_valid : @validateStageGraph range_forward example_views = Ok tt.
Proof. vm_compute. reflexivity. Qed.

(** The same reviewer without the edge is refused, and so is a loop. *)
Example unordered_reviewer :
  @validateStageGraph range_forward
    [example_view "implementation" StageAgent RoleImplementer [] [] None;
     example_view "review" StageAgent RoleReviewer [] [] (Some (MkIndependence IndependenceVendorFamily ["implementation"] false))]
  = Err (UnorderedPeer "review" "implementation").
Proof. vm_compute. reflexivity. Qed.

Example looping_stages :
  @validateStageGraph range_forward
    [example_view "a" StageAgent RoleImplementer ["b"] [] None; example_view "b" StageAgent RoleTester ["a"] [] None;
     example_view "c" StageAgent RoleReviewer [] [] None]
  = Err (StageCycle ["a"; "b"]).
Proof. vm_compute. reflexivity. Qed.

Lemma independence_resolved_before_witness :
  @validateStageGraph range_forward example_views = Ok tt ∧ "implementation" ∈ ["implementation"].
Proof.
  split; [exact example_views_valid|].
  refine (@independence_resolved_before range_forward example_views ["implementation"; "review"; "assurance"]
    (example_view "review" StageAgent RoleReviewer ["implementation"] []
       (Some (MkIndependence IndependenceVendorFamily ["implementation"] false)))
    (MkIndependence IndependenceVendorFamily ["implementation"] false) "implementation" ["implementation"] ["assurance"]
    example_views_valid _ _ _ _ _ _).
  - reflexivity.
  - intros l1 l2 u Hu He d Hd.
    repeat (apply elem_of_cons in Hu as [->|Hu]; simpl in *; [|]); try by apply not_elem_of_nil in Hu.
    + by apply not_elem_of_nil in Hd.
    + apply list_elem_of_singleton in Hd as ->. destruct l1 as [|x l1]; [done|]. injection He as <- _. by left.
    + apply list_elem_of_singleton in Hd as ->. destruct l1 as [|x [|y l1]]; [done|done|]. injection He as <- <- _. right. by left.
  - right. by left.
  - reflexivity.
  - by left.
  - reflexivity.
Defined.
