(* ===== verification/PlanTemplate.v ===== *)
(** Plan templates: [planning/template.go].  A template is planning input: a
    stage graph under the shared laws whose only logic is a fact condition per
    stage. *)

From S2P Require Import Prelude GoStrings Domain Topo Reach WorkGraph Policy Plan PlanGraph.
From stdpp Require Import relations options.

#[export] Instance TemplateStage_node : Node TemplateStage :=
  {| node_id := Template_StageID; node_deps := Template_DependsOn |}.

Inductive TemplateError :=
  | TemplateGraphRefused (e : GraphError)
  | ConditionWithoutFact (stage : string)
  | ConditionValueUnknown (stage fact value : string).

Definition template_view (s : TemplateStage) : stageView :=
  MkView s.(Template_StageID) s.(Template_Kind) s.(Template_Role) s.(Template_ExecutionKind) "" "" s.(Template_DependsOn)
    s.(Template_RequiredClaims) s.(Template_Action) s.(Template_Independence) s.(Template_RequiresCapabilities)
    s.(Template_Profile) "".

Definition validate_when (s : TemplateStage) : result TemplateError () :=
  match s.(Template_When) with
  | None => Ok tt
  | Some condition =>
      refuse_if (condition.(When_Fact) ≟ "") (ConditionWithoutFact s.(Template_StageID)) ;?
      refuse_if ((condition.(When_Equals) ≠? FactTrue) && (condition.(When_Equals) ≠? FactFalse)
                 && (condition.(When_Equals) ≠? FactUnknown))
        (ConditionValueUnknown s.(Template_StageID) condition.(When_Fact) condition.(When_Equals))
  end.

Definition validateTemplateGraph `{!MapRange} (t : EngineeringPlanTemplate) : result TemplateError () :=
  wrap TemplateGraphRefused (validateStageGraph (template_view <$> t.(Template_Stages))) ;?
  check_all validate_when t.(Template_Stages).

(** One fact against the predicate: each [continue] of the loop is a test. *)
Definition fact_matches (condition : PolicyCondition) (fact : EngineeringFact) : bool :=
  if (fact.(Fact_Key) ≠? condition.(When_Fact)) || (fact.(Fact_Value) ≠? condition.(When_Equals)) then false
  else if match condition.(When_Stage) with Some stage => fact.(Fact_Stage) ≠? stage | None => false end then false
  else if match condition.(When_Confidence) with Some c => fact.(Fact_Confidence) ≠? c | None => false end then false
  else match condition.(When_Provenance) with
       | None => true
       | Some p =>
           if match p.(ProvenanceMatch_Type) with
              | Some t => fact.(Fact_Provenance).(FactProvenance_Type) ≠? t | None => false end then false
           else if match p.(ProvenanceMatch_Producer) with
                   | Some q => fact.(Fact_Provenance).(FactProvenance_Producer) ≠? q | None => false end then false
           else true
       end.

Definition matchesFact (condition : PolicyCondition) (facts : list EngineeringFact) : bool :=
  existsb (fact_matches condition) facts.

Definition selects (facts : list EngineeringFact) (s : TemplateStage) : bool :=
  match s.(Template_When) with None => true | Some condition => matchesFact condition facts end.

(** A selected stage without its references to stages that were not. *)
Definition keep_included (included : gset string) (s : TemplateStage) : TemplateStage :=
  MkTemplateStage s.(Template_StageID) s.(Template_Kind) s.(Template_Role) s.(Template_ExecutionKind) s.(Template_Objective)
    (filter (λ d, d ∈ included) s.(Template_DependsOn)) s.(Template_RequiresCapabilities)
    ((λ i, MkIndependence i.(Independence_Dimension) (filter (λ p, p ∈ included) i.(Independence_DifferentFrom))
        i.(Independence_HumanSubstitutionPermitted)) <$> s.(Template_Independence))
    s.(Template_Profile) s.(Template_ContextPolicy) s.(Template_When) s.(Template_RequiredClaims) s.(Template_Action).

Definition TemplateStagesFor (t : EngineeringPlanTemplate) (facts : list EngineeringFact) : list TemplateStage :=
  let selected := filter (λ s, selects facts s = true) t.(Template_Stages) in
  let included : gset string := list_to_set (Template_StageID <$> selected) in
  keep_included included <$> selected.

(* ------------------------------------------------------------------ *)
(** * Properties *)

(** A template conditions its stages by exactly the predicate the policy
    compiler applies to its rules. *)
Theorem matchesFact_policy condition facts : matchesFact condition facts = matchesAny condition facts.
Proof.
  unfold matchesFact, matchesAny. induction facts as [|fact facts IH]; simpl; [done|]. rewrite IH. f_equal.
  unfold fact_matches, matches_condition, differs.
  destruct (bool_decide (Fact_Key fact = _)), (bool_decide (Fact_Value fact = _)); simpl; [|done..].
  destruct (match When_Stage condition with Some _ => _ | None => _ end); simpl; [done|].
  destruct (match When_Confidence condition with Some _ => _ | None => _ end); simpl; [done|].
  destruct (When_Provenance condition) as [p|]; simpl; [|done].
  destruct (match ProvenanceMatch_Type p with Some _ => _ | None => _ end); simpl; [done|].
  by destruct (match ProvenanceMatch_Producer p with Some _ => _ | None => _ end).
Qed.

Lemma template_ids t : Template_StageID <$> t.(Template_Stages) = stage_ids (template_view <$> t.(Template_Stages)).
Proof. unfold stage_ids. by rewrite <- list_fmap_compose. Qed.

Lemma elem_of_selected t facts s :
  s ∈ TemplateStagesFor t facts ↔
  ∃ original, original ∈ t.(Template_Stages) ∧ selects facts original = true
    ∧ s = keep_included (list_to_set (Template_StageID <$> filter (λ s, selects facts s = true) t.(Template_Stages))) original.
Proof.
  unfold TemplateStagesFor. rewrite list_elem_of_fmap. setoid_rewrite list_elem_of_filter. naive_solver.
Qed.

Lemma selected_ids t facts :
  Template_StageID <$> TemplateStagesFor t facts
  = Template_StageID <$> filter (λ s, selects facts s = true) t.(Template_Stages).
Proof. unfold TemplateStagesFor. by rewrite <- list_fmap_compose. Qed.

(** A template that validates gives, for every set of facts, a closed graph:
    the stages whose condition matches, once each, with every dependency and
    every independence peer among them that the template states, no other,
    and no cycle. *)
Theorem TemplateStagesFor_closed `{!MapRange} t facts :
  validateTemplateGraph t = Ok tt →
  let selected := TemplateStagesFor t facts in
  let chosen := Template_StageID <$> selected in
  NoDup chosen ∧ ranked selected
  ∧ (∀ id, id ∈ chosen ↔ ∃ s, s ∈ t.(Template_Stages) ∧ s.(Template_StageID) = id ∧ selects facts s = true)
  ∧ (∀ a b, node_edge selected a b ↔ node_edge t.(Template_Stages) a b ∧ a ∈ chosen ∧ b ∈ chosen)
  ∧ ∀ s i peer, s ∈ selected → s.(Template_Independence) = Some i → peer ∈ i.(Independence_DifferentFrom) → peer ∈ chosen.
Proof.
  intros Hv selected chosen. subst chosen selected. unfold validateTemplateGraph in Hv.
  apply check_then in Hv as [Hg%wrap_ok _].
  apply validateStageGraph_ok in Hg as (_ & Hnd & _ & _ & [rank Hrank] & _). rewrite <- template_ids in Hnd.
  assert (∀ id, id ∈ Template_StageID <$> TemplateStagesFor t facts ↔
    ∃ s, s ∈ t.(Template_Stages) ∧ s.(Template_StageID) = id ∧ selects facts s = true) as Hids.
  { intros id. rewrite selected_ids, list_elem_of_fmap. setoid_rewrite list_elem_of_filter. naive_solver. }
  assert (∀ x, x ∈ (list_to_set (Template_StageID <$> filter (λ s, selects facts s = true) t.(Template_Stages)) : gset string)
    ↔ x ∈ Template_StageID <$> TemplateStagesFor t facts) as Hinc.
  { intros x. by rewrite elem_of_list_to_set, selected_ids. }
  split_and!; [| |done| |].
  - rewrite selected_ids. eapply sublist_NoDup; [exact Hnd|apply fmap_sublist, sublist_filter].
  - exists rank. intros s d (o & Ho & Hsel & ->)%elem_of_selected Hd. simpl in Hd. apply list_elem_of_filter in Hd as [Hin Hd].
    split; [by apply Hinc|]. destruct (Hrank (template_view o) d) as [_ ?]; [by apply list_elem_of_fmap_2|done|done].
  - intros a b. split.
    + intros (s & (o & Ho & Hsel & ->)%elem_of_selected & <- & Hb). simpl in *. apply list_elem_of_filter in Hb as [Hin Hb].
      split_and!; [by exists o|apply Hids; eauto|by apply Hinc].
    + intros ((o & Ho & <- & Hb) & Ha & Hbc). apply Hids in Ha as (o' & Ho' & He & Hsel).
      assert (o' = o) as -> by (by apply (NoDup_fmap_inj Template_StageID t.(Template_Stages))).
      eexists. split; [apply elem_of_selected; by exists o|]. split; [done|]. simpl. apply list_elem_of_filter.
      split; [by apply Hinc|done].
  - intros s i peer (o & Ho & Hsel & ->)%elem_of_selected Hi Hp. simpl in Hi.
    apply fmap_Some in Hi as (j & Hj & ->). simpl in Hp. apply list_elem_of_filter in Hp as [? _]. by apply Hinc.
Qed.

(* ------------------------------------------------------------------ *)
(** * A concrete template *)

Definition example_template_stage (id role : string) (deps : list string) (i : option IndependenceRequirement)
  (condition : option PolicyCondition) : TemplateStage :=
  MkTemplateStage id StageAgent role "" "" deps [] i "" "" condition [] None.

Definition example_template : EngineeringPlanTemplate :=
  MkTemplate "0.1" "reviewed-change" 1 "" ""
    [example_template_stage "implementation" RoleImplementer [] None None;
     example_template_stage "hardening" RoleTester ["implementation"] None
       (Some (MkPolicyCondition "authentication" FactTrue None None None));
     example_template_stage "review" RoleReviewer ["implementation"; "hardening"]
       (Some (MkIndependence IndependenceVendorFamily ["implementation"; "hardening"] false)) None]
    None (MkArtifactSource SourceOperatorFile "templates/reviewed-change.json").

Example without_hardening :
  Template_DependsOn <$> TemplateStagesFor example_template [] = [[]; ["implementation"]].
Proof. vm_compute. reflexivity. Qed.

Lemma TemplateStagesFor_closed_witness :
  @validateTemplateGraph range_forward example_template = Ok tt ∧ ranked (TemplateStagesFor example_template []).
Proof.
  assert (@validateTemplateGraph range_forward example_template = Ok tt) as Hv by (vm_compute; reflexivity).
  split; [exact Hv|]. exact (proj1 (proj2 (@TemplateStagesFor_closed range_forward example_template [] Hv))).
Defined.
