(* ===== verification/PlanValidate.v ===== *)
(** Plan validation: [planning/validate.go], the role catalogue of
    [planning/roles.go], the human substitution of
    [planning/human_substitution.go] and the gates [planning/publication_gates.go]
    offers.  A plan is judged against the obligations of its work contract, the
    operator's envelope and the revisions it follows. *)

From S2P Require Import Prelude GoStrings Sha256 Domain Canonical Topo Reach WorkGraph Plan PlanGraph.
From stdpp Require Import relations options.

(* ------------------------------------------------------------------ *)
(** * Roles *)

Definition roleCapabilities : gmap string (list string) := list_to_map
  [(RoleProductArchitect, [CapabilityRequirementsAnalysis]);
   (RoleSystemArchitect, [CapabilityArchitectureReasoning; CapabilityRepositoryAnalysis]);
   (RolePlanner, [CapabilityRequirementsAnalysis; CapabilityRepositoryAnalysis]);
   (RoleImplementer, [CapabilityCodeChange; CapabilityRepositoryAnalysis]);
   (RoleTester, [CapabilityVerification; CapabilityCodeChange]);
   (RoleSecurityReviewer, [CapabilitySecurityReview; CapabilityRepositoryAnalysis]);
   (RoleReviewer, [CapabilityRepositoryAnalysis]);
   (RoleIntegrator, [CapabilityCodeChange; CapabilityRepositoryAnalysis]);
   (RoleReleaseReviewer, [CapabilityRepositoryAnalysis])].

Definition RoleCapabilities (role : string) : list string :=
  let floor := default [] (roleCapabilities !! role) in
  filter (λ capability, capability ∈ floor) EngineeringCapabilities.

Definition ProducesMaterialChange (role : string) : bool :=
  (role ≟ RoleImplementer) || (role ≟ RoleTester) || (role ≟ RoleIntegrator).

Definition RequiredInvocationMode (role : string) : string :=
  if role ≟ RolePlanner then InvocationModeNonMutatingPlanning else InvocationModeMutating.

(** [trustStrength] of [planning/escalation.go]. *)
Definition trustStrength (trust : string) : Z :=
  if trust ≟ TrustRequirementProtected then 2
  else if trust ≟ TrustRequirementOperatorTrusted then 1
  else 0.

(* ------------------------------------------------------------------ *)
(** * Queries on stages, shared with the compiler *)

Definition is_agent (s : PlanStage) : bool := s.(Stage_Kind) ≟ StageAgent.

Definition is_producer (s : PlanStage) : bool := is_agent s && ProducesMaterialChange s.(Stage_Role).

Definition materialProducerStages (stages : list PlanStage) : list string :=
  sort_strings (Stage_ID <$> filter (λ s, is_producer s = true) stages).

Definition capabilityCovered (stages : list PlanStage) (capability : string) : bool :=
  existsb (λ s, is_agent s && (s.(Stage_RequiresCapabilities) ∋? capability)) stages.

Definition sameAction (left right : option Action) : bool := left ≟ right.

Definition stageRequires (s : PlanStage) (capability : string) : bool := s.(Stage_RequiresCapabilities) ∋? capability.

Definition humanSubstitute (stages : list PlanStage) (role : string) : option PlanStage :=
  snd <$> list_find (λ s, s.(Stage_Kind) = StageHumanDecisionGate ∧ s.(Stage_SubstitutesRole) = role) stages.

Definition roleStage (stages : list PlanStage) (role : string) : option PlanStage :=
  snd <$> list_find (λ s, s.(Stage_Kind) = StageAgent ∧ s.(Stage_Role) = role) stages.

Definition previousStage (stages : list PlanStage) (id : string) : option PlanStage :=
  snd <$> list_find (λ s, s.(Stage_ID) = id) stages.

(** The first stage of the gate's kind and action decides. *)
Definition gateCovered (stages : list PlanStage) (gate : GateRequirement) : bool :=
  match list_find (λ s, s.(Stage_Kind) = gate.(Gate_Kind) ∧ sameAction s.(Stage_Action) gate.(Gate_Action) = true) stages with
  | None => false
  | Some (_, s) => forallb (λ claim, s.(Stage_RequiredClaims) ∋? claim) gate.(Gate_RequiredClaims)
  end.

Definition planStageViews (p : EngineeringPlan) : list stageView :=
  (λ s, MkView s.(Stage_ID) s.(Stage_Kind) s.(Stage_Role) s.(Stage_ExecutionKind) s.(Stage_AcceptanceFeature)
     s.(Stage_SubstitutesRole) s.(Stage_DependsOn) s.(Stage_RequiredClaims) s.(Stage_Action) s.(Stage_Independence)
     s.(Stage_RequiresCapabilities) s.(Stage_Profile) s.(Stage_TrustRequirement)) <$> p.(Plan_Stages).

(* ------------------------------------------------------------------ *)
(** * Reasons *)

Inductive Reason :=
  | PlanIncomplete
  | SubjectIncomplete
  | ContractMismatch (stated compiled : ObjectRevision)
  | SubjectMismatch (plan contract : Subject)
  | GraphRefused (e : GraphError)
  | UndefinedClaim (stage kind claim : string)
  | AssuranceOfHumanApproval (stage claim : string)
  | PublicationWithoutHumanApproval (stage claim : string)
  | PublicationOfAnotherAction (stage : string) (action : Action)
  | PublicationClaimNotRequired (stage claim : string) (action : Action)
  | PublicationWithoutClaim (stage : string)
  | SubstitutionNotPermitted (stage role : string)
  | SubstitutionOfNothing (stage role : string)
  | RoleUnfulfilled (role statement : string)
  | CapabilityMissing (stage role capability : string)
  | TrustTooWeak (stage stated required : string)
  | IndependenceMissing (stage dimension : string)
  | IndependenceTooWeak (stage stated required : string)
  | ProducerNotNamed (stage producer : string)
  | SubstitutionSelfGranted (stage : string)
  | CapabilityUncovered (capability : string)
  | GateUncovered (kind statement : string)
  | TooManyChildRuns (plan ceiling : Z)
  | TooManyConcurrent (plan ceiling : Z)
  | TooManyInvocations (plan ceiling : Z)
  | TooManyWallSeconds (plan ceiling : Z)
  | TooManyCostMicros (plan ceiling : Z)
  | ChildRunsConsumed (plan consumed : Z)
  | InvocationsConsumed (plan consumed : Z)
  | WallSecondsConsumed (plan consumed : Z)
  | CostConsumed (plan consumed : Z)
  | MoreAgentsThanRuns (agents : nat) (runs : Z)
  | OtherPlan (previous plan : string)
  | RevisionNotLater (revision previous : Z)
  | ReplacedRevisionNotRecorded
  | RepositoryMoved (previous plan : string)
  | EscapesByBecomingGate (stage : string)
  | BecomesGateOfNothing (stage : string)
  | RoleChanged (stage before after : string)
  | TrustLowered (stage before after : string)
  | IndependenceDropped (stage : string)
  | IndependenceWeakened (stage before after : string)
  | SubstitutionGained (stage : string)
  | PeerDropped (stage peer : string)
  | IndependenceRemoved (stage dimension role : string)
  | TrustRemoved (stage trust role : string).

Inductive ValidationError := PlanInvalid (plan : string) (reasons : list Reason).

Definition reason_if (b : bool) (r : Reason) : list Reason := if b then [r] else [].

Record ValidationInput := MkValidationInput {
  Validate_Contract : EngineeringWorkContract;
  Validate_Envelope : PlanBudgetEnvelope;
  Validate_Previous : option EngineeringPlan;
  Validate_RatchetBaseline : option EngineeringPlan;
  Validate_Consumed : PlanConsumption
}.

(* ------------------------------------------------------------------ *)
(** * What a gate references *)

Definition publicationAction (a : Action) : bool :=
  (a.(Action_Type) ≟ "git.pull_request.create") || (a.(Action_Type) ≟ "git.pull_request.update")
  || (a.(Action_Type) ≟ "git.push").

(** The first publication action that requires the claim. *)
Definition publicationConditionForClaim (c : EngineeringWorkContract) (claim : string) : option Action :=
  Condition_Action ∘ snd <$> list_find (λ condition, publicationAction condition.(Condition_Action) = true
    ∧ claim ∈ condition.(Condition_RequiredClaims)) c.(Contract_AuthorityConditions).

Definition authorityConditionRequires (c : EngineeringWorkContract) (a : Action) (claim : string) : bool :=
  existsb (λ condition, (condition.(Condition_Action) ≟ a) && (condition.(Condition_RequiredClaims) ∋? claim))
    c.(Contract_AuthorityConditions).

(** [contract.RequiredClaims[claim].EvidenceClass]. *)
Definition claim_class (c : EngineeringWorkContract) (claim : string) : string :=
  default "" (RequiredClaim_EvidenceClass <$> c.(Contract_RequiredClaims) !! claim).

(** The three loops over the claims of one gate. *)
Definition claim_defined (c : EngineeringWorkContract) (s : PlanStage) (claim : string) : list Reason :=
  match c.(Contract_RequiredClaims) !! claim with
  | None => [UndefinedClaim s.(Stage_ID) s.(Stage_Kind) claim]
  | Some definition =>
      reason_if ((s.(Stage_Kind) ≟ StageAssuranceGate) && (definition.(RequiredClaim_EvidenceClass) ≟ human_approval))
        (AssuranceOfHumanApproval s.(Stage_ID) claim)
  end.

Definition claim_publishes (c : EngineeringWorkContract) (s : PlanStage) (claim : string) : list Reason :=
  match publicationConditionForClaim c claim with
  | None => []
  | Some action =>
      if claim_class c claim ≠? human_approval then [PublicationWithoutHumanApproval s.(Stage_ID) claim]
      else reason_if (negb (bool_decide (s.(Stage_Action) = Some action))) (PublicationOfAnotherAction s.(Stage_ID) action)
  end.

Definition claim_authorizes (c : EngineeringWorkContract) (s : PlanStage) (action : Action) (claim : string) : list Reason :=
  if claim_class c claim ≠? human_approval then [PublicationWithoutHumanApproval s.(Stage_ID) claim]
  else reason_if (negb (authorityConditionRequires c action claim)) (PublicationClaimNotRequired s.(Stage_ID) claim action).

Definition gate_reasons (c : EngineeringWorkContract) (s : PlanStage) : list Reason :=
  if s.(Stage_Kind) ≟ StageAgent then []
  else if c.(Contract_ID) ≟ "" then []
  else
    let claims := s.(Stage_RequiredClaims) in
    (claims ≫= claim_defined c s)
    ++ if s.(Stage_Kind) ≟ StageHumanDecisionGate then
         (claims ≫= claim_publishes c s)
         ++ match s.(Stage_Action) with
            | Some action =>
                if publicationAction action then
                  (claims ≫= claim_authorizes c s action)
                  ++ reason_if (length claims =? 0) (PublicationWithoutClaim s.(Stage_ID))
                else []
            | None => []
            end
       else [].

(* ------------------------------------------------------------------ *)
(** * Obligations of the contract *)

Definition substitution_reasons (requirement : RoleRequirement) (s : PlanStage) : list Reason :=
  if negb (match requirement.(Role_Independence) with
           | Some i => i.(Independence_HumanSubstitutionPermitted) | None => false end)
  then [SubstitutionNotPermitted s.(Stage_ID) requirement.(Role_Role)]
  else reason_if (length s.(Stage_RequiredClaims) =? 0) (SubstitutionOfNothing s.(Stage_ID) requirement.(Role_Role)).

Definition independence_reasons (producers : list string) (s : PlanStage) (required : IndependenceRequirement) : list Reason :=
  match s.(Stage_Independence) with
  | None => [IndependenceMissing s.(Stage_ID) required.(Independence_Dimension)]
  | Some i =>
      if (dimensionStrength i.(Independence_Dimension) <? dimensionStrength required.(Independence_Dimension))%Z
      then [IndependenceTooWeak s.(Stage_ID) i.(Independence_Dimension) required.(Independence_Dimension)]
      else (producers ≫= λ producer, if producer ≟ s.(Stage_ID) then []
              else reason_if (negb (i.(Independence_DifferentFrom) ∋? producer)) (ProducerNotNamed s.(Stage_ID) producer))
        ++ reason_if (i.(Independence_HumanSubstitutionPermitted)
                      && negb required.(Independence_HumanSubstitutionPermitted)) (SubstitutionSelfGranted s.(Stage_ID))
  end.

Definition role_reasons (stages : list PlanStage) (requirement : RoleRequirement) : list Reason :=
  match roleStage stages requirement.(Role_Role) with
  | None =>
      match humanSubstitute stages requirement.(Role_Role) with
      | Some s => substitution_reasons requirement s
      | None => [RoleUnfulfilled requirement.(Role_Role) requirement.(Role_Statement)]
      end
  | Some s =>
      (requirement.(Role_Capabilities) ≫= λ capability,
         reason_if (negb (stageRequires s capability)) (CapabilityMissing s.(Stage_ID) requirement.(Role_Role) capability))
      ++ reason_if (trustStrength s.(Stage_TrustRequirement) <? trustStrength requirement.(Role_TrustRequirement))%Z
           (TrustTooWeak s.(Stage_ID) s.(Stage_TrustRequirement) requirement.(Role_TrustRequirement))
      ++ match requirement.(Role_Independence) with
         | None => []
         | Some required => independence_reasons (materialProducerStages stages) s required
         end
  end.

Definition unmetObligations (stages : list PlanStage) (requirements : PlanRequirements) : list Reason :=
  (requirements.(PlanRequirements_Roles) ≫= role_reasons stages)
  ++ (requirements.(PlanRequirements_Capabilities) ≫= λ capability,
        reason_if (negb (capabilityCovered stages capability)) (CapabilityUncovered capability))
  ++ (requirements.(PlanRequirements_Gates) ≫= λ gate,
        reason_if (negb (gateCovered stages gate)) (GateUncovered gate.(Gate_Kind) gate.(Gate_Statement))).

(* ------------------------------------------------------------------ *)
(** * The operator's envelope *)

Definition ceiling_reason (ceiling plan : Z) (r : Z → Z → Reason) : list Reason :=
  reason_if ((0 <? ceiling) && (ceiling <? plan))%Z (r plan ceiling).

Definition agent_count (stages : list PlanStage) : nat := length (filter (λ s, is_agent s = true) stages).

Definition envelopeViolations (stages : list PlanStage) (envelope ceiling : PlanBudgetEnvelope) (consumed : PlanConsumption)
  : list Reason :=
  ceiling_reason ceiling.(Envelope_MaxChildRuns) envelope.(Envelope_MaxChildRuns) TooManyChildRuns
  ++ ceiling_reason ceiling.(Envelope_MaxConcurrency) envelope.(Envelope_MaxConcurrency) TooManyConcurrent
  ++ ceiling_reason ceiling.(Envelope_MaxProviderInvocations) envelope.(Envelope_MaxProviderInvocations) TooManyInvocations
  ++ ceiling_reason ceiling.(Envelope_MaxWallSeconds) envelope.(Envelope_MaxWallSeconds) TooManyWallSeconds
  ++ match ceiling.(Envelope_MaxCostMicros), envelope.(Envelope_MaxCostMicros) with
     | Some c, Some e => reason_if (c <? e)%Z (TooManyCostMicros e c)
     | _, _ => []
     end
  ++ reason_if (envelope.(Envelope_MaxChildRuns) <? consumed.(Consumed_ChildRuns))%Z
       (ChildRunsConsumed envelope.(Envelope_MaxChildRuns) consumed.(Consumed_ChildRuns))
  ++ reason_if (envelope.(Envelope_MaxProviderInvocations) <? consumed.(Consumed_ProviderInvocations))%Z
       (InvocationsConsumed envelope.(Envelope_MaxProviderInvocations) consumed.(Consumed_ProviderInvocations))
  ++ reason_if ((0 <? envelope.(Envelope_MaxWallSeconds))
                && (envelope.(Envelope_MaxWallSeconds) <? consumed.(Consumed_WallSeconds)))%Z
       (WallSecondsConsumed envelope.(Envelope_MaxWallSeconds) consumed.(Consumed_WallSeconds))
  ++ match envelope.(Envelope_MaxCostMicros), consumed.(Consumed_CostMicros) with
     | Some e, Some c => reason_if (consumed.(Consumed_CostKnown) && (e <? c)%Z) (CostConsumed e c)
     | _, _ => []
     end
  ++ reason_if (envelope.(Envelope_MaxChildRuns) <? Z.of_nat (agent_count stages))%Z
       (MoreAgentsThanRuns (agent_count stages) envelope.(Envelope_MaxChildRuns)).

(* ------------------------------------------------------------------ *)
(** * The revisions a plan follows *)

Definition revisionIdentityViolations (plan previous : EngineeringPlan) : list Reason :=
  reason_if (plan.(Plan_ID) ≠? previous.(Plan_ID)) (OtherPlan previous.(Plan_ID) plan.(Plan_ID))
  ++ reason_if (plan.(Plan_Revision) <=? previous.(Plan_Revision))%Z
       (RevisionNotLater plan.(Plan_Revision) previous.(Plan_Revision))
  ++ reason_if (negb (bool_decide (plan.(Plan_Provenance).(PlanProvenance_PreviousRevision) = Some previous.(Plan_Revision))))
       ReplacedRevisionNotRecorded
  ++ reason_if (plan.(Plan_Subject).(Subject_Repository) ≠? previous.(Plan_Subject).(Subject_Repository))
       (RepositoryMoved previous.(Plan_Subject).(Subject_Repository) plan.(Plan_Subject).(Subject_Repository)).

Definition substitutionPermitted (s : PlanStage) : bool :=
  match s.(Stage_Independence) with Some i => i.(Independence_HumanSubstitutionPermitted) | None => false end.

(** A replacement still names every peer the removed stage named, for the
    peers that remain stages. *)
Definition carriesPeers (stages : list PlanStage) (replacement removed : list string) : bool :=
  forallb (λ peer, bool_decide (previousStage stages peer = None) || (replacement ∋? peer)) removed.

Definition roleCarriesIndependence (stages : list PlanStage) (before : PlanStage) (i : IndependenceRequirement) : bool :=
  existsb (λ s,
    (i.(Independence_HumanSubstitutionPermitted) && (s.(Stage_Kind) ≟ StageHumanDecisionGate)
       && (s.(Stage_SubstitutesRole) ≟ before.(Stage_Role)))
    || match s.(Stage_Independence) with
       | None => false
       | Some j =>
           (s.(Stage_Role) ≟ before.(Stage_Role))
           && negb (dimensionStrength j.(Independence_Dimension) <? dimensionStrength i.(Independence_Dimension))%Z
           && carriesPeers stages j.(Independence_DifferentFrom) i.(Independence_DifferentFrom)
       end) stages.

Definition roleCarriesTrust (stages : list PlanStage) (role trust : string) (permitted : bool) : bool :=
  existsb (λ s,
    (permitted && (s.(Stage_Kind) ≟ StageHumanDecisionGate) && (s.(Stage_SubstitutesRole) ≟ role))
    || ((s.(Stage_Role) ≟ role) && (trustStrength trust <=? trustStrength s.(Stage_TrustRequirement))%Z)) stages.

(** A stage that keeps its id. *)
Definition kept_independence (stages : list PlanStage) (s : PlanStage) (before : IndependenceRequirement) : list Reason :=
  match s.(Stage_Independence) with
  | None => [IndependenceDropped s.(Stage_ID)]
  | Some i =>
      if (dimensionStrength i.(Independence_Dimension) <? dimensionStrength before.(Independence_Dimension))%Z
      then [IndependenceWeakened s.(Stage_ID) before.(Independence_Dimension) i.(Independence_Dimension)]
      else if negb before.(Independence_HumanSubstitutionPermitted) && i.(Independence_HumanSubstitutionPermitted)
      then [SubstitutionGained s.(Stage_ID)]
      else before.(Independence_DifferentFrom) ≫= λ peer,
        match previousStage stages peer with
        | None => []
        | Some _ => reason_if (negb (i.(Independence_DifferentFrom) ∋? peer)) (PeerDropped s.(Stage_ID) peer)
        end
  end.

Definition kept_stage (stages : list PlanStage) (baseline : list PlanStage) (s : PlanStage) : list Reason :=
  match previousStage baseline s.(Stage_ID) with
  | None => []
  | Some before =>
      if (before.(Stage_Kind) ≟ StageAgent) && (s.(Stage_Kind) ≟ StageHumanDecisionGate) then
        reason_if (negb (substitutionPermitted before)) (EscapesByBecomingGate s.(Stage_ID))
        ++ reason_if (length s.(Stage_RequiredClaims) =? 0) (BecomesGateOfNothing s.(Stage_ID))
      else
        reason_if ((before.(Stage_Kind) ≟ StageAgent) && (s.(Stage_Kind) ≟ StageAgent)
                   && (before.(Stage_Role) ≠? s.(Stage_Role)))
          (RoleChanged s.(Stage_ID) before.(Stage_Role) s.(Stage_Role))
        ++ reason_if (trustStrength s.(Stage_TrustRequirement) <? trustStrength before.(Stage_TrustRequirement))%Z
             (TrustLowered s.(Stage_ID) before.(Stage_TrustRequirement) s.(Stage_TrustRequirement))
        ++ match before.(Stage_Independence) with
           | None => []
           | Some i => kept_independence stages s i
           end
  end.

(** A stage of the baseline that is gone. *)
Definition removed_stage (stages : list PlanStage) (before : PlanStage) : list Reason :=
  match previousStage stages before.(Stage_ID) with
  | Some _ => []
  | None =>
      match before.(Stage_Independence) with
      | None => []
      | Some i => reason_if (negb (roleCarriesIndependence stages before i))
                    (IndependenceRemoved before.(Stage_ID) i.(Independence_Dimension) before.(Stage_Role))
      end
      ++ reason_if ((before.(Stage_Kind) ≟ StageAgent) && (0 <? trustStrength before.(Stage_TrustRequirement))%Z
                    && negb (roleCarriesTrust stages before.(Stage_Role) before.(Stage_TrustRequirement)
                               (substitutionPermitted before)))
           (TrustRemoved before.(Stage_ID) before.(Stage_TrustRequirement) before.(Stage_Role))
  end.

Definition revisionPrivilegeViolations (plan baseline : EngineeringPlan) : list Reason :=
  (plan.(Plan_Stages) ≫= kept_stage plan.(Plan_Stages) baseline.(Plan_Stages))
  ++ (baseline.(Plan_Stages) ≫= removed_stage plan.(Plan_Stages)).

(* ------------------------------------------------------------------ *)
(** * Validate *)

Definition contract_reasons (plan : EngineeringPlan) (c : EngineeringWorkContract) : list Reason :=
  if c.(Contract_ID) ≟ "" then []
  else reason_if (plan.(Plan_Provenance).(PlanProvenance_Contract) ≠? contract_revision c)
         (ContractMismatch plan.(Plan_Provenance).(PlanProvenance_Contract) (contract_revision c))
    ++ reason_if (c.(Contract_Subject) ≠? plan.(Plan_Subject)) (SubjectMismatch plan.(Plan_Subject) c.(Contract_Subject)).

Definition reasons `{!MapRange} (plan : EngineeringPlan) (input : ValidationInput) : list Reason :=
  let c := input.(Validate_Contract) in
  reason_if ((plan.(Plan_ID) ≟ "") || (plan.(Plan_Revision) <? 1)%Z || (plan.(Plan_Objective) ≟ "")) PlanIncomplete
  ++ reason_if ((plan.(Plan_Subject).(Subject_Repository) ≟ "") || (plan.(Plan_Subject).(Subject_Revision) ≟ ""))
       SubjectIncomplete
  ++ contract_reasons plan c
  ++ match validateStageGraph (planStageViews plan) with Ok _ => [] | Err e => [GraphRefused e] end
  ++ (plan.(Plan_Stages) ≫= gate_reasons c)
  ++ match c.(Contract_PlanRequirements) with
     | None => []
     | Some requirements => unmetObligations plan.(Plan_Stages) requirements
     end
  ++ envelopeViolations plan.(Plan_Stages) plan.(Plan_BudgetEnvelope) input.(Validate_Envelope) input.(Validate_Consumed)
  ++ match input.(Validate_Previous) with None => [] | Some previous => revisionIdentityViolations plan previous end
  ++ match input.(Validate_RatchetBaseline) with
     | None => []
     | Some baseline => revisionPrivilegeViolations plan baseline
     end.

(** [planning.Validate]: every reason is reported, not the first. *)
Definition validate_plan `{!MapRange} (plan : EngineeringPlan) (input : ValidationInput) : result ValidationError () :=
  let reasons := reasons plan input in
  if 0 <? length reasons then Err (PlanInvalid plan.(Plan_ID) reasons) else Ok tt.

(* ------------------------------------------------------------------ *)
(** * Empty reason lists *)

Lemma reason_if_nil b r : reason_if b r = [] ↔ b = false.
Proof. by destruct b. Qed.

Lemma bind_nil {A B} (f : A → list B) l : l ≫= f = [] ↔ ∀ x, x ∈ l → f x = [].
Proof.
  induction l as [|x l IH]; csimpl.
  - split; [by intros _ x ?%not_elem_of_nil|done].
  - rewrite app_nil, IH. setoid_rewrite elem_of_cons. naive_solver.
Qed.

Create HintDb reasons.
#[export] Hint Rewrite reason_if_nil @bind_nil @app_nil andb_false_iff orb_false_iff negb_false_iff negb_true_iff
  bool_decide_eq_true bool_decide_eq_false Z.ltb_ge Z.leb_gt Nat.eqb_neq Nat.ltb_ge : reasons.

Lemma find_some {A} (P : A → Prop) `{!∀ x, Decision (P x)} (l : list A) x :
  snd <$> list_find P l = Some x → x ∈ l ∧ P x.
Proof.
  intros ([i y] & (Hl & HP & _)%list_find_Some & ->)%fmap_Some. by apply list_elem_of_lookup_2 in Hl.
Qed.

Lemma find_none {A} (P : A → Prop) `{!∀ x, Decision (P x)} (l : list A) x :
  snd <$> list_find P l = None → x ∈ l → ¬ P x.
Proof. intros Hn%fmap_None%list_find_None. rewrite Forall_forall in Hn. auto. Qed.

Lemma find_exists {A} (P : A → Prop) `{!∀ x, Decision (P x)} (l : list A) x :
  x ∈ l → P x → is_Some (snd <$> list_find P l).
Proof.
  intros Hx HP. destruct (snd <$> list_find P l) eqn:Hf; [eauto|]. exfalso. by eapply find_none.
Qed.

Lemma previousStage_some stages id s : previousStage stages id = Some s → s ∈ stages ∧ s.(Stage_ID) = id.
Proof. exact (find_some (λ x, x.(Stage_ID) = id) stages s). Qed.

Lemma previousStage_in stages s :
  NoDup (Stage_ID <$> stages) → s ∈ stages → previousStage stages s.(Stage_ID) = Some s.
Proof.
  intros Hnd Hs. destruct (find_exists (λ x, x.(Stage_ID) = s.(Stage_ID)) stages s Hs eq_refl) as [x Hx].
  pose proof Hx as [Hin He]%find_some. unfold previousStage. rewrite Hx. f_equal. by eapply NoDup_fmap_inj.
Qed.

Lemma previousStage_none stages id : previousStage stages id = None ↔ id ∉ Stage_ID <$> stages.
Proof.
  rewrite list_elem_of_fmap. split.
  - intros Hn (s & -> & Hs). by eapply (find_none _ _ _ Hn).
  - intros Hni. destruct (previousStage stages id) as [s|] eqn:Hs; [|done]. apply previousStage_some in Hs as [? <-].
    exfalso. eauto.
Qed.

Lemma validate_plan_ok `{!MapRange} plan input : validate_plan plan input = Ok tt ↔ reasons plan input = [].
Proof.
  unfold validate_plan. rewrite <- length_zero_iff_nil. destruct (0 <? _)%nat eqn:Hl.
  - apply Nat.ltb_lt in Hl. split; [done|lia].
  - apply Nat.ltb_ge in Hl. split; [lia|done].
Qed.

Lemma reasons_nil `{!MapRange} plan input :
  reasons plan input = [] ↔
    (plan.(Plan_ID) ≠ "" ∧ (1 <= plan.(Plan_Revision))%Z ∧ plan.(Plan_Objective) ≠ "")
    ∧ (plan.(Plan_Subject).(Subject_Repository) ≠ "" ∧ plan.(Plan_Subject).(Subject_Revision) ≠ "")
    ∧ contract_reasons plan input.(Validate_Contract) = []
    ∧ validateStageGraph (planStageViews plan) = Ok tt
    ∧ (∀ s, s ∈ plan.(Plan_Stages) → gate_reasons input.(Validate_Contract) s = [])
    ∧ (∀ r, input.(Validate_Contract).(Contract_PlanRequirements) = Some r → unmetObligations plan.(Plan_Stages) r = [])
    ∧ envelopeViolations plan.(Plan_Stages) plan.(Plan_BudgetEnvelope) input.(Validate_Envelope) input.(Validate_Consumed) = []
    ∧ (∀ previous, input.(Validate_Previous) = Some previous → revisionIdentityViolations plan previous = [])
    ∧ (∀ baseline, input.(Validate_RatchetBaseline) = Some baseline → revisionPrivilegeViolations plan baseline = []).
Proof.
  unfold reasons. rewrite !app_nil, !reason_if_nil, !orb_false_iff, !bool_decide_eq_false, Z.ltb_ge, bind_nil.
  destruct (validateStageGraph _) as [[]|e]; destruct (Contract_PlanRequirements _); destruct (Validate_Previous _);
    destruct (Validate_RatchetBaseline _); naive_solver.
Qed.

(* ------------------------------------------------------------------ *)
(** * Obligations *)

(** A worker stage that meets what the policy asks of its role. *)
Record fulfils (stages : list PlanStage) (r : RoleRequirement) (s : PlanStage) : Prop := {
  fulfils_role : s.(Stage_Kind) = StageAgent ∧ s.(Stage_Role) = r.(Role_Role);
  fulfils_capabilities : ∀ c, c ∈ r.(Role_Capabilities) → c ∈ s.(Stage_RequiresCapabilities);
  fulfils_trust : (trustStrength r.(Role_TrustRequirement) <= trustStrength s.(Stage_TrustRequirement))%Z;
  fulfils_independence : ∀ required, r.(Role_Independence) = Some required →
    ∃ i, s.(Stage_Independence) = Some i
      ∧ (dimensionStrength required.(Independence_Dimension) <= dimensionStrength i.(Independence_Dimension))%Z
      ∧ (∀ p, p ∈ stages → is_producer p = true → p.(Stage_ID) ≠ s.(Stage_ID) →
           p.(Stage_ID) ∈ i.(Independence_DifferentFrom))
      ∧ (i.(Independence_HumanSubstitutionPermitted) = true → required.(Independence_HumanSubstitutionPermitted) = true)
}.

(** A person in place of the worker, where the policy allows it. *)
Definition substituted (r : RoleRequirement) (s : PlanStage) : Prop :=
  s.(Stage_Kind) = StageHumanDecisionGate ∧ s.(Stage_SubstitutesRole) = r.(Role_Role) ∧ s.(Stage_RequiredClaims) ≠ []
  ∧ ∃ i, r.(Role_Independence) = Some i ∧ i.(Independence_HumanSubstitutionPermitted) = true.

Lemma elem_of_producers stages id :
  id ∈ materialProducerStages stages ↔ ∃ p, p ∈ stages ∧ is_producer p = true ∧ p.(Stage_ID) = id.
Proof.
  unfold materialProducerStages. rewrite elem_of_sort_strings, list_elem_of_fmap.
  setoid_rewrite list_elem_of_filter. naive_solver.
Qed.

Lemma independence_reasons_nil stages s required :
  independence_reasons (materialProducerStages stages) s required = [] ↔
  ∃ i, s.(Stage_Independence) = Some i
    ∧ (dimensionStrength required.(Independence_Dimension) <= dimensionStrength i.(Independence_Dimension))%Z
    ∧ (∀ p, p ∈ stages → is_producer p = true → p.(Stage_ID) ≠ s.(Stage_ID) →
         p.(Stage_ID) ∈ i.(Independence_DifferentFrom))
    ∧ (i.(Independence_HumanSubstitutionPermitted) = true → required.(Independence_HumanSubstitutionPermitted) = true).
Proof.
  unfold independence_reasons. destruct (Stage_Independence s) as [i|]; [|naive_solver].
  destruct (_ <? _)%Z eqn:Hd; [apply Z.ltb_lt in Hd; split; [done|]; intros (? & [= <-] & ? & _); lia|].
  apply Z.ltb_ge in Hd. rewrite app_nil, bind_nil, reason_if_nil, andb_false_iff, negb_false_iff.
  setoid_rewrite elem_of_producers. split.
  - intros [Hp Hs]. exists i. split_and!; [done..| |].
    + intros p Hp1 Hp2 Hne. specialize (Hp _ (ex_intro _ p (conj Hp1 (conj Hp2 eq_refl)))). simpl in Hp.
      rewrite bool_decide_false in Hp by done. by rewrite reason_if_nil, negb_false_iff, bool_decide_eq_true in Hp.
    + intros Ht. destruct Hs as [Hs|?]; [congruence|done].
  - intros (? & [= <-] & _ & Hp & Hs). split.
    + intros id (p & Hp1 & Hp2 & <-). case_bool_decide; [done|]. rewrite reason_if_nil, negb_false_iff, bool_decide_eq_true. auto.
    + destruct (Independence_HumanSubstitutionPermitted i); auto.
Qed.

Lemma substitution_reasons_nil r s :
  substitution_reasons r s = [] ↔
  s.(Stage_RequiredClaims) ≠ [] ∧ ∃ i, r.(Role_Independence) = Some i ∧ i.(Independence_HumanSubstitutionPermitted) = true.
Proof.
  unfold substitution_reasons. destruct (Role_Independence r) as [i|]; simpl; [|split; [done|by intros (_ & ? & ? & _)]].
  destruct (Independence_HumanSubstitutionPermitted i) eqn:Hp; simpl.
  - rewrite reason_if_nil, Nat.eqb_neq, length_zero_iff_nil. split; [by eauto|by intros [? _]].
  - split; [done|]. intros (_ & ? & [= <-] & ?). congruence.
Qed.

Lemma role_reasons_nil stages r :
  role_reasons stages r = [] →
  ∃ s, s ∈ stages ∧ (fulfils stages r s ∨ substituted r s).
Proof.
  unfold role_reasons. destruct (roleStage stages _) as [s|] eqn:Hs.
  - apply find_some in Hs as [Hin [Hk Hr]]. rewrite !app_nil, bind_nil, reason_if_nil, Z.ltb_ge.
    intros (Hc & Ht & Hi). exists s. split; [done|]. left. split; [done| |done|].
    + intros c Hcap. specialize (Hc c Hcap). unfold stageRequires in Hc. by rewrite reason_if_nil, negb_false_iff, bool_decide_eq_true in Hc.
    + intros required Hreq. rewrite Hreq in Hi. by apply independence_reasons_nil.
  - destruct (humanSubstitute stages _) as [s|] eqn:Hh; [|done]. apply find_some in Hh as [Hin [Hk Hr]].
    intros [? ?]%substitution_reasons_nil. exists s. split; [done|]. by right.
Qed.

Lemma gateCovered_true stages gate :
  gateCovered stages gate = true →
  ∃ s, s ∈ stages ∧ s.(Stage_Kind) = gate.(Gate_Kind) ∧ s.(Stage_Action) = gate.(Gate_Action)
    ∧ ∀ c, c ∈ gate.(Gate_RequiredClaims) → c ∈ s.(Stage_RequiredClaims).
Proof.
  unfold gateCovered. destruct (list_find _ stages) as [[i s]|] eqn:Hf; [|done].
  apply list_find_Some in Hf as (Hl & (Hk & Ha%bool_decide_eq_true) & _). apply list_elem_of_lookup_2 in Hl.
  rewrite forallb_elem. setoid_rewrite bool_decide_eq_true. eauto 6.
Qed.

Lemma capabilityCovered_true stages c :
  capabilityCovered stages c = true ↔
  ∃ s, s ∈ stages ∧ s.(Stage_Kind) = StageAgent ∧ c ∈ s.(Stage_RequiresCapabilities).
Proof.
  unfold capabilityCovered, is_agent. rewrite existsb_elem. setoid_rewrite andb_true_iff.
  by setoid_rewrite bool_decide_eq_true.
Qed.

(** C17: Policy wins: a plan that validates meets every plan-shaped obligation of
    its contract.  Each required role has a worker with the capabilities, the
    trust and the independence the policy asks, from every other material
    producer, or a person where the policy itself permits one; each required
    capability is held by a worker and each required gate is present with its
    claims. *)
Theorem validate_obligations `{!MapRange} plan input requirements :
  validate_plan plan input = Ok tt →
  input.(Validate_Contract).(Contract_PlanRequirements) = Some requirements →
  (∀ r, r ∈ requirements.(PlanRequirements_Roles) →
     ∃ s, s ∈ plan.(Plan_Stages) ∧ (fulfils plan.(Plan_Stages) r s ∨ substituted r s))
  ∧ (∀ c, c ∈ requirements.(PlanRequirements_Capabilities) →
       ∃ s, s ∈ plan.(Plan_Stages) ∧ s.(Stage_Kind) = StageAgent ∧ c ∈ s.(Stage_RequiresCapabilities))
  ∧ ∀ g, g ∈ requirements.(PlanRequirements_Gates) →
      ∃ s, s ∈ plan.(Plan_Stages) ∧ s.(Stage_Kind) = g.(Gate_Kind) ∧ s.(Stage_Action) = g.(Gate_Action)
        ∧ ∀ c, c ∈ g.(Gate_RequiredClaims) → c ∈ s.(Stage_RequiredClaims).
Proof.
  intros (_ & _ & _ & _ & _ & Hu & _)%validate_plan_ok%reasons_nil Hr. specialize (Hu _ Hr).
  unfold unmetObligations in Hu. rewrite !app_nil, !bind_nil in Hu. destruct Hu as (H1 & H2 & H3). split_and!.
  - intros r Hin. by apply role_reasons_nil, H1.
  - intros c Hin. specialize (H2 c Hin). rewrite reason_if_nil, negb_false_iff in H2. by apply capabilityCovered_true.
  - intros g Hin. specialize (H3 g Hin). rewrite reason_if_nil, negb_false_iff in H3. by apply gateCovered_true.
Qed.

(* ------------------------------------------------------------------ *)
(** * The envelope *)

(** Within the operator's ceiling, where the operator states one, and not
    below what has been spent already.  A zero wall bound is no bound, and a
    cost is compared only where both sides know it. *)
Record within (stages : list PlanStage) (e ceiling : PlanBudgetEnvelope) (consumed : PlanConsumption) : Prop := {
  within_runs : (0 < ceiling.(Envelope_MaxChildRuns) → e.(Envelope_MaxChildRuns) <= ceiling.(Envelope_MaxChildRuns))%Z;
  within_concurrency :
    (0 < ceiling.(Envelope_MaxConcurrency) → e.(Envelope_MaxConcurrency) <= ceiling.(Envelope_MaxConcurrency))%Z;
  within_invocations : (0 < ceiling.(Envelope_MaxProviderInvocations) →
    e.(Envelope_MaxProviderInvocations) <= ceiling.(Envelope_MaxProviderInvocations))%Z;
  within_wall :
    (0 < ceiling.(Envelope_MaxWallSeconds) → e.(Envelope_MaxWallSeconds) <= ceiling.(Envelope_MaxWallSeconds))%Z;
  within_cost : ∀ c x, ceiling.(Envelope_MaxCostMicros) = Some c → e.(Envelope_MaxCostMicros) = Some x → (x <= c)%Z;
  spent_runs : (consumed.(Consumed_ChildRuns) <= e.(Envelope_MaxChildRuns))%Z;
  spent_invocations : (consumed.(Consumed_ProviderInvocations) <= e.(Envelope_MaxProviderInvocations))%Z;
  spent_wall :
    (0 < e.(Envelope_MaxWallSeconds) → consumed.(Consumed_WallSeconds) <= e.(Envelope_MaxWallSeconds))%Z;
  spent_cost : ∀ x c, e.(Envelope_MaxCostMicros) = Some x → consumed.(Consumed_CostMicros) = Some c →
    consumed.(Consumed_CostKnown) = true → (c <= x)%Z;
  agents_run : (Z.of_nat (agent_count stages) <= e.(Envelope_MaxChildRuns))%Z
}.

Lemma ceiling_reason_nil ceiling plan r : ceiling_reason ceiling plan r = [] ↔ (0 < ceiling → plan <= ceiling)%Z.
Proof. unfold ceiling_reason. rewrite reason_if_nil, andb_false_iff, !Z.ltb_ge. lia. Qed.

(** The budget check decides exactly that the plan's envelope is within the
    operator's ceiling, covers what is consumed, and allows a run for every
    worker stage. *)
Theorem envelopeViolations_iff stages e ceiling consumed :
  envelopeViolations stages e ceiling consumed = [] ↔ within stages e ceiling consumed.
Proof.
  unfold envelopeViolations.
  rewrite !app_nil, !ceiling_reason_nil, !reason_if_nil, andb_false_iff, !Z.ltb_ge.
  assert (∀ (o1 o2 : option Z) (f : Z → Z → bool) r,
    match o1, o2 with Some a, Some b => reason_if (f a b) (r a b) | _, _ => [] end = []
    ↔ ∀ a b, o1 = Some a → o2 = Some b → f a b = false) as Hcost.
  { intros [a|] [b|] f r; rewrite ?reason_if_nil; naive_solver. }
  rewrite (Hcost _ _ (λ c x, (c <? x)%Z) (λ c x, TooManyCostMicros x c)).
  rewrite (Hcost _ _ (λ x c, consumed.(Consumed_CostKnown) && (x <? c)%Z) CostConsumed).
  setoid_rewrite andb_false_iff. setoid_rewrite Z.ltb_ge. split.
  - intros (? & ? & ? & ? & Hc & ? & ? & Hw & Hk & ?). split; try done; [lia|].
    intros x c Hx Hcc Hkn. destruct (Hk x c Hx Hcc) as [?|?]; [congruence|done].
  - intros [? ? ? ? ? ? ? Hw Hk ?]. split_and!; try done; [lia|]. intros x c Hx Hcc.
    destruct (Consumed_CostKnown consumed) eqn:Hkn; [right|by left]. by apply (Hk x c).
Qed.

(** No bound at all passes under a bound of the operator. *)
Example unbounded_wall_passes :
  envelopeViolations [] (MkEnvelope 1 1 1 0 None) (MkEnvelope 1 1 1 60 (Some 5%Z)) (MkConsumption 0 0 0 None false) = [].
Proof. reflexivity. Qed.

(* ------------------------------------------------------------------ *)
(** * The ratchet *)

(** An independence requirement no weaker than another, for the peers that
    are still stages. *)
Definition no_weaker (ids : list string) (before after : IndependenceRequirement) : Prop :=
  (dimensionStrength before.(Independence_Dimension) <= dimensionStrength after.(Independence_Dimension))%Z
  ∧ ∀ peer, peer ∈ before.(Independence_DifferentFrom) → peer ∈ ids → peer ∈ after.(Independence_DifferentFrom).

(** A stage that keeps its id keeps what it is, or becomes the human decision
    its own requirement permits. *)
Definition keeps (ids : list string) (before after : PlanStage) : Prop :=
  if bool_decide (before.(Stage_Kind) = StageAgent ∧ after.(Stage_Kind) = StageHumanDecisionGate) then
    substitutionPermitted before = true ∧ after.(Stage_RequiredClaims) ≠ []
  else
    (before.(Stage_Kind) = StageAgent → after.(Stage_Kind) = StageAgent → after.(Stage_Role) = before.(Stage_Role))
    ∧ (trustStrength before.(Stage_TrustRequirement) <= trustStrength after.(Stage_TrustRequirement))%Z
    ∧ ∀ i, before.(Stage_Independence) = Some i →
        ∃ j, after.(Stage_Independence) = Some j ∧ no_weaker ids i j
          ∧ (j.(Independence_HumanSubstitutionPermitted) = true → i.(Independence_HumanSubstitutionPermitted) = true).

(** A stage of the same role, or a permitted person, takes over what a removed
    stage carried. *)
Definition takes_over (ids : list string) (before after : PlanStage) : Prop :=
  (substitutionPermitted before = true ∧ after.(Stage_Kind) = StageHumanDecisionGate
   ∧ after.(Stage_SubstitutesRole) = before.(Stage_Role))
  ∨ (after.(Stage_Role) = before.(Stage_Role)
     ∧ ∀ i, before.(Stage_Independence) = Some i → ∃ j, after.(Stage_Independence) = Some j ∧ no_weaker ids i j).

Record tightens (plan baseline : EngineeringPlan) : Prop := {
  tightens_kept : ∀ s before, s ∈ plan.(Plan_Stages) → previousStage baseline.(Plan_Stages) s.(Stage_ID) = Some before →
    keeps (Stage_ID <$> plan.(Plan_Stages)) before s;
  tightens_removed : ∀ before i, before ∈ baseline.(Plan_Stages) → before.(Stage_ID) ∉ Stage_ID <$> plan.(Plan_Stages) →
    before.(Stage_Independence) = Some i →
    ∃ s, s ∈ plan.(Plan_Stages) ∧ takes_over (Stage_ID <$> plan.(Plan_Stages)) before s;
  tightens_trust : ∀ before, before ∈ baseline.(Plan_Stages) → before.(Stage_ID) ∉ Stage_ID <$> plan.(Plan_Stages) →
    before.(Stage_Kind) = StageAgent → (0 < trustStrength before.(Stage_TrustRequirement))%Z →
    ∃ s, s ∈ plan.(Plan_Stages) ∧
      ((substitutionPermitted before = true ∧ s.(Stage_Kind) = StageHumanDecisionGate
        ∧ s.(Stage_SubstitutesRole) = before.(Stage_Role))
       ∨ s.(Stage_Role) = before.(Stage_Role)
         ∧ (trustStrength before.(Stage_TrustRequirement) <= trustStrength s.(Stage_TrustRequirement))%Z)
}.

Lemma kept_independence_nil stages s i :
  kept_independence stages s i = [] ↔
  ∃ j, s.(Stage_Independence) = Some j ∧ no_weaker (Stage_ID <$> stages) i j
    ∧ (j.(Independence_HumanSubstitutionPermitted) = true → i.(Independence_HumanSubstitutionPermitted) = true).
Proof.
  unfold kept_independence, no_weaker. destruct (Stage_Independence s) as [j|]; [|split; [done|by intros (? & ? & _)]].
  destruct (_ <? _)%Z eqn:Hd; [apply Z.ltb_lt in Hd; split; [done|]; intros (? & [= <-] & [? _] & _); lia|].
  apply Z.ltb_ge in Hd.
  destruct (negb _ && _) eqn:Hp.
  { apply andb_true_iff in Hp as [Hp1%negb_true_iff Hp2]. split; [done|]. intros (? & [= <-] & _ & Hx). specialize (Hx Hp2). congruence. }
  assert (Independence_HumanSubstitutionPermitted j = true → Independence_HumanSubstitutionPermitted i = true) as Hperm
    by (intros Hj; rewrite Hj, andb_true_r in Hp; by apply negb_false_iff).
  rewrite bind_nil. split.
  - intros Hall. exists j. split_and!; [done|done| |done]. intros peer Hpeer Hids. specialize (Hall peer Hpeer). simpl in Hall.
    destruct (previousStage stages peer) eqn:Hs; [by rewrite reason_if_nil, negb_false_iff, bool_decide_eq_true in Hall|].
    by apply previousStage_none in Hs.
  - intros (? & [= <-] & [_ Hall] & _) peer Hpeer. destruct (previousStage stages peer) as [x|] eqn:Hs; [|done].
    rewrite reason_if_nil, negb_false_iff, bool_decide_eq_true. apply Hall; [done|].
    apply previousStage_some in Hs as [? <-]. by apply list_elem_of_fmap_2.
Qed.

Lemma kept_stage_nil stages baseline s :
  kept_stage stages baseline s = [] ↔
  ∀ before, previousStage baseline s.(Stage_ID) = Some before → keeps (Stage_ID <$> stages) before s.
Proof.
  unfold kept_stage, keeps. destruct (previousStage baseline _) as [before|]; [|split; [by intros _ ? ?|done]].
  rewrite (forall_some before), bool_decide_and. destruct (_ && _).
  - rewrite app_nil, !reason_if_nil, negb_false_iff, Nat.eqb_neq, length_zero_iff_nil.
    done.
  - rewrite !app_nil, !reason_if_nil, !andb_false_iff, negb_false_iff, !bool_decide_eq_false, bool_decide_eq_true, Z.ltb_ge.
    assert (match Stage_Independence before with Some i => kept_independence stages s i | None => [] end = []
      ↔ ∀ i, Stage_Independence before = Some i → ∃ j, Stage_Independence s = Some j ∧ no_weaker (Stage_ID <$> stages) i j
          ∧ (j.(Independence_HumanSubstitutionPermitted) = true → i.(Independence_HumanSubstitutionPermitted) = true)) as ->.
    { destruct (Stage_Independence before) as [i|]; [|done].
      by rewrite kept_independence_nil, (forall_some i). }
    assert ((Stage_Kind before ≠ StageAgent ∨ Stage_Kind s ≠ StageAgent) ∨ Stage_Role before = Stage_Role s
      ↔ (Stage_Kind before = StageAgent → Stage_Kind s = StageAgent → Stage_Role s = Stage_Role before)) as ->.
    { destruct (decide (Stage_Kind before = StageAgent)), (decide (Stage_Kind s = StageAgent)),
        (decide (Stage_Role before = Stage_Role s)); split; intros; try tauto; try congruence. right. symmetry. auto. }
    done.
Qed.

Lemma carriesPeers_ok stages replacement removed :
  carriesPeers stages replacement removed = true ↔
  ∀ peer, peer ∈ removed → peer ∈ Stage_ID <$> stages → peer ∈ replacement.
Proof.
  unfold carriesPeers. rewrite forallb_elem. apply forall_proper. intros peer.
  rewrite orb_true_iff, !bool_decide_eq_true, previousStage_none.
  destruct (decide (peer ∈ Stage_ID <$> stages)); tauto.
Qed.

Lemma roleCarriesIndependence_ok stages before i :
  before.(Stage_Independence) = Some i → roleCarriesIndependence stages before i = true →
  ∃ s, s ∈ stages ∧ takes_over (Stage_ID <$> stages) before s.
Proof.
  intros Hb. unfold roleCarriesIndependence. rewrite existsb_elem. intros (s & Hs & Hc). exists s. split; [done|].
  unfold takes_over, substitutionPermitted. rewrite Hb. apply orb_true_iff in Hc as [Hc|Hc].
  - left. rewrite !andb_true_iff, !bool_decide_eq_true in Hc. by destruct Hc as [[? ?] ?].
  - right. destruct (Stage_Independence s) as [j|]; [|done].
    rewrite !andb_true_iff, negb_true_iff, Z.ltb_ge, bool_decide_eq_true, carriesPeers_ok in Hc.
    destruct Hc as [[Hr Hd] Hp]. split; [done|]. intros ? [= <-]. by exists j.
Qed.

Lemma roleCarriesTrust_ok stages role trust permitted :
  roleCarriesTrust stages role trust permitted = true ↔
  ∃ s, s ∈ stages ∧
    ((permitted = true ∧ s.(Stage_Kind) = StageHumanDecisionGate ∧ s.(Stage_SubstitutesRole) = role)
     ∨ s.(Stage_Role) = role ∧ (trustStrength trust <= trustStrength s.(Stage_TrustRequirement))%Z).
Proof.
  unfold roleCarriesTrust. rewrite existsb_elem. setoid_rewrite orb_true_iff. setoid_rewrite andb_true_iff.
  setoid_rewrite andb_true_iff. setoid_rewrite bool_decide_eq_true. setoid_rewrite Z.leb_le.
  split; intros (s & Hs & Hc); exists s; tauto.
Qed.

Lemma removed_stage_nil stages before :
  removed_stage stages before = [] → before.(Stage_ID) ∉ Stage_ID <$> stages →
  (∀ i, before.(Stage_Independence) = Some i → ∃ s, s ∈ stages ∧ takes_over (Stage_ID <$> stages) before s)
  ∧ (before.(Stage_Kind) = StageAgent → (0 < trustStrength before.(Stage_TrustRequirement))%Z →
     ∃ s, s ∈ stages ∧
       ((substitutionPermitted before = true ∧ s.(Stage_Kind) = StageHumanDecisionGate
         ∧ s.(Stage_SubstitutesRole) = before.(Stage_Role))
        ∨ s.(Stage_Role) = before.(Stage_Role)
          ∧ (trustStrength before.(Stage_TrustRequirement) <= trustStrength s.(Stage_TrustRequirement))%Z)).
Proof.
  unfold removed_stage. intros Hr Hn%previousStage_none. rewrite Hn, app_nil, reason_if_nil in Hr. destruct Hr as [Hi Ht].
  split.
  - intros i He. rewrite He, reason_if_nil, negb_false_iff in Hi. by eapply roleCarriesIndependence_ok.
  - intros Hk Hpos. rewrite !andb_false_iff, bool_decide_eq_false, Z.ltb_ge, negb_false_iff in Ht.
    destruct Ht as [[?|?]|Ht]; [done|lia|]. by apply roleCarriesTrust_ok in Ht.
Qed.

Lemma revisionPrivilegeViolations_tightens plan baseline :
  revisionPrivilegeViolations plan baseline = [] → tightens plan baseline.
Proof.
  unfold revisionPrivilegeViolations. rewrite app_nil, !bind_nil. intros [Hk Hr]. split.
  - intros s before Hs. by apply kept_stage_nil, Hk.
  - intros before i Hb Hn. by apply (removed_stage_nil _ _ (Hr before Hb) Hn).
  - intros before Hb Hn. by apply (removed_stage_nil _ _ (Hr before Hb) Hn).
Qed.

(** The privilege ratchet: a plan that validates against the last approved
    revision weakens no stage it keeps, neither in trust nor in independence
    nor by gaining a substitution, and every obligation of a stage it removes
    is carried by a stage of the same role or by a person its own requirement
    permitted. *)
Theorem validate_ratchet `{!MapRange} plan input baseline :
  validate_plan plan input = Ok tt → input.(Validate_RatchetBaseline) = Some baseline → tightens plan baseline.
Proof.
  intros (_ & _ & _ & _ & _ & _ & _ & _ & Hr)%validate_plan_ok%reasons_nil Hb.
  by apply revisionPrivilegeViolations_tightens, Hr.
Qed.

(** A worker stage of a plan. *)
Definition worker (plan : EngineeringPlan) (id : string) (s : PlanStage) : Prop :=
  previousStage plan.(Plan_Stages) id = Some s ∧ s.(Stage_Kind) = StageAgent.

(** [new] is approved after [old], the stage [id] stays a worker and the
    stages [stay] stay in the plan. *)
Definition approved `{!MapRange} (id : string) (stay : list string) (old new : EngineeringPlan) : Prop :=
  (∃ input, input.(Validate_RatchetBaseline) = Some old ∧ validate_plan new input = Ok tt)
  ∧ (∃ s, worker new id s) ∧ stay ⊆ Stage_ID <$> new.(Plan_Stages).

(** C16: Over any number of approved revisions, a stage that stays a worker keeps
    its role, and its trust, its independence dimension and the stages it must
    differ from never get weaker. *)
Theorem ratchet_chain `{!MapRange} id stay first last s :
  rtc (approved id stay) first last → worker first id s →
  ∃ s', worker last id s' ∧ s'.(Stage_Role) = s.(Stage_Role)
    ∧ (trustStrength s.(Stage_TrustRequirement) <= trustStrength s'.(Stage_TrustRequirement))%Z
    ∧ ∀ i, s.(Stage_Independence) = Some i →
        ∃ j, s'.(Stage_Independence) = Some j ∧ no_weaker stay i j
          ∧ (j.(Independence_HumanSubstitutionPermitted) = true → i.(Independence_HumanSubstitutionPermitted) = true).
Proof.
  intros Hs. revert s. induction Hs as [p|p q r ((input & Hb & Hv) & (s1 & [Hf1 Hk1]) & Hstay) _ IH]; intros s [Hf Hk].
  { exists s. split; [done|]. split; [done|]. split; [reflexivity|]. intros i Hi. by exists i. }
  apply validate_plan_ok, reasons_nil in Hv as (_ & _ & _ & _ & _ & _ & _ & _ & Hr).
  apply Hr, revisionPrivilegeViolations_tightens in Hb as [Hkept _ _].
  pose proof (previousStage_some _ _ _ Hf1) as [Hin1 Hid1]. rewrite <- Hid1 in Hf.
  specialize (Hkept s1 s Hin1 Hf). unfold keeps in Hkept.
  rewrite bool_decide_false in Hkept by (rewrite Hk1; by intros [_ ?]). destruct Hkept as (Hrole & Htrust & Hind).
  destruct (IH s1 (conj Hf1 Hk1)) as (s' & Hw & Hr' & Ht' & Hi'). exists s'.
  split_and!; [done|rewrite Hr'; auto|lia|]. intros i Hi. destruct (Hind i Hi) as (j & Hj & [Hd Hp] & Hsub).
  destruct (Hi' j Hj) as (k & Hk2 & [Hd2 Hp2] & Hsub2). exists k. split_and!; [done| |auto].
  split; [lia|]. intros peer Hpeer Hst. apply Hp2; [|done]. by apply Hp, Hstay.
Qed.

(* ------------------------------------------------------------------ *)
(** * Publication gates *)

Record PublicationGate := MkPublicationGate {
  PublicationGate_Action : Action;
  PublicationGate_Claims : list string
}.

(** The claims of one condition a person answers, bound to this action. *)
Definition publication_claims (c : EngineeringWorkContract) (condition : AuthorityCondition) : list string :=
  filter (λ claim, claim_class c claim = human_approval
    ∧ default (MkAction "" "") (publicationConditionForClaim c claim) = condition.(Condition_Action))
    condition.(Condition_RequiredClaims).

Definition PublicationGates (c : EngineeringWorkContract) : list PublicationGate :=
  omap (λ condition,
    if publicationAction condition.(Condition_Action) then
      let claims := publication_claims c condition in
      if 0 <? length claims then Some (MkPublicationGate condition.(Condition_Action) claims) else None
    else None) c.(Contract_AuthorityConditions).

Lemma authorityConditionRequires_ok c a claim :
  authorityConditionRequires c a claim = true ↔
  ∃ condition, condition ∈ c.(Contract_AuthorityConditions) ∧ condition.(Condition_Action) = a
    ∧ claim ∈ condition.(Condition_RequiredClaims).
Proof.
  unfold authorityConditionRequires. rewrite existsb_elem. setoid_rewrite andb_true_iff.
  by setoid_rewrite bool_decide_eq_true.
Qed.

(** What validation asks of a claim of a publication gate. *)
Lemma claim_reasons_nil c s action claim :
  s.(Stage_Kind) = StageHumanDecisionGate → s.(Stage_Action) = Some action → publicationAction action = true →
  (claim_defined c s claim = [] ∧ claim_publishes c s claim = [] ∧ claim_authorizes c s action claim = []) ↔
  claim_class c claim = human_approval ∧ authorityConditionRequires c action claim = true
  ∧ publicationConditionForClaim c claim = Some action.
Proof.
  intros Hk Ha Hp. unfold claim_defined, claim_publishes, claim_authorizes. rewrite Ha.
  destruct (bool_decide_reflect (claim_class c claim = human_approval)) as [Hc|Hc]; simpl.
  2: { split; [by intros (_ & _ & ?)|by intros [? _]]. }
  destruct (Contract_RequiredClaims c !! claim) as [def|] eqn:Hd.
  2: { unfold claim_class in Hc. rewrite Hd in Hc. done. }
  rewrite Hk, !reason_if_nil, negb_false_iff. rewrite (bool_decide_false (StageHumanDecisionGate = StageAssuranceGate)) by done.
  simpl. destruct (publicationConditionForClaim c claim) as [a|] eqn:Hpub.
  - rewrite reason_if_nil, negb_false_iff, bool_decide_eq_true. naive_solver.
  - split; [|naive_solver]. intros (_ & _ & Hr). exfalso.
    apply authorityConditionRequires_ok in Hr as (cond & Hin & <- & Hx).
    unfold publicationConditionForClaim in Hpub. apply fmap_None, list_find_None in Hpub.
    rewrite Forall_forall in Hpub. by apply (Hpub cond Hin).
Qed.

Lemma elem_of_PublicationGates c g :
  g ∈ PublicationGates c ↔ ∃ condition, condition ∈ c.(Contract_AuthorityConditions)
    ∧ publicationAction condition.(Condition_Action) = true ∧ publication_claims c condition ≠ []
    ∧ g = MkPublicationGate condition.(Condition_Action) (publication_claims c condition).
Proof.
  unfold PublicationGates. rewrite list_elem_of_omap. apply exist_proper. intros condition.
  destruct (publicationAction _); [|naive_solver]. destruct (0 <? _)%nat eqn:Hl.
  - apply Nat.ltb_lt in Hl. assert (publication_claims c condition ≠ []) by (intros He; rewrite He in Hl; simpl in Hl; lia).
    naive_solver.
  - apply Nat.ltb_ge in Hl. assert (publication_claims c condition = []) by (apply length_zero_iff_nil; lia). naive_solver.
Qed.

(** The gates offered are the gates accepted: under a contract with one
    condition per action, a human decision stage for a publication action
    passes validation exactly when a listed gate has that action and lists
    every claim of the stage. *)
Theorem PublicationGates_exact c s action :
  c.(Contract_ID) ≠ "" → NoDup (Condition_Action <$> c.(Contract_AuthorityConditions)) →
  s.(Stage_Kind) = StageHumanDecisionGate → s.(Stage_Action) = Some action → publicationAction action = true →
  gate_reasons c s = [] ↔
    s.(Stage_RequiredClaims) ≠ []
    ∧ ∃ g, g ∈ PublicationGates c ∧ g.(PublicationGate_Action) = action
        ∧ ∀ claim, claim ∈ s.(Stage_RequiredClaims) → claim ∈ g.(PublicationGate_Claims).
Proof.
  intros Hid Hnd Hk Ha Hp. unfold gate_reasons. rewrite Hk, Ha, Hp.
  rewrite (bool_decide_false (StageHumanDecisionGate = StageAgent)), (bool_decide_false (Contract_ID c = "")) by done.
  rewrite bool_decide_true, !app_nil, !bind_nil, reason_if_nil, Nat.eqb_neq, length_zero_iff_nil by done.
  assert ((∀ x, x ∈ Stage_RequiredClaims s → claim_defined c s x = []) ∧ (∀ x, x ∈ Stage_RequiredClaims s → claim_publishes c s x = [])
      ∧ (∀ x, x ∈ Stage_RequiredClaims s → claim_authorizes c s action x = [])
    ↔ ∀ x, x ∈ Stage_RequiredClaims s → claim_class c x = human_approval ∧ authorityConditionRequires c action x = true
        ∧ publicationConditionForClaim c x = Some action) as Hall.
  { setoid_rewrite <- (claim_reasons_nil c s action _ Hk Ha Hp). naive_solver. }
  assert (∀ P Q R N : Prop, P ∧ Q ∧ R ∧ N ↔ (P ∧ Q ∧ R) ∧ N) as Hassoc by tauto.
  rewrite Hassoc, Hall. clear Hall Hassoc. split.
  - intros [Hall Hne]. split; [done|]. destruct (Stage_RequiredClaims s) as [|x l] eqn:Hl; [done|]. rewrite <- Hl in *.
    assert (x ∈ Stage_RequiredClaims s) as Hx by (rewrite Hl; by left).
    destruct (Hall x Hx) as (_ & (cond & Hin & Hca & Hxc)%authorityConditionRequires_ok & _).
    assert (∀ claim, claim ∈ Stage_RequiredClaims s → claim ∈ publication_claims c cond) as Hsub.
    { intros claim Hcl.
      destruct (Hall claim Hcl) as (Hclass & (cond' & Hin' & Hca' & ?)%authorityConditionRequires_ok & Hpub).
      unfold publication_claims. rewrite list_elem_of_filter, Hpub. simpl. split; [by rewrite Hca|].
      by rewrite (NoDup_fmap_inj Condition_Action _ cond cond' Hnd Hin Hin' ltac:(congruence)). }
    exists (MkPublicationGate cond.(Condition_Action) (publication_claims c cond)). split_and!; [|done|done].
    apply elem_of_PublicationGates. exists cond. split_and!; [done|by rewrite Hca| |done].
    intros He. specialize (Hsub x Hx). rewrite He in Hsub. by apply not_elem_of_nil in Hsub.
  - intros (Hne & g & (cond & Hin & Hpc & _ & ->)%elem_of_PublicationGates & Hact & Hsub). simpl in Hact, Hsub.
    split; [|done]. intros x Hx. specialize (Hsub x Hx). unfold publication_claims in Hsub.
    apply list_elem_of_filter in Hsub as [[Hclass Hbound] Hxc]. split; [done|]. split.
    + apply authorityConditionRequires_ok. by exists cond.
    + destruct (find_exists (λ condition, publicationAction condition.(Condition_Action) = true
        ∧ x ∈ condition.(Condition_RequiredClaims)) _ cond Hin (conj Hpc Hxc)) as [y Hy].
      unfold publicationConditionForClaim in *. destruct (list_find _ _) as [[n z]|] eqn:Hf; [|done].
      simpl in *. by rewrite Hbound, Hact.
Qed.

(* ------------------------------------------------------------------ *)
(** * A person in place of a worker *)

Inductive SubstitutionError :=
  | NoSuchStage (plan stage : string)
  | NotAnAgentStage (stage kind : string)
  | SubstitutionNotCarried (stage : string)
  | NothingToDecide.

(** [mergeStrings] of [planning/compiler.go]. *)
Definition mergeStrings (existing added : list string) : list string :=
  sorted_unique (filter (λ value, value ≠ "") (existing ++ added)).

Definition human_gate `{!GoUnicode} (existing : PlanStage) (claims : list string) (i : IndependenceRequirement) : PlanStage :=
  MkStage existing.(Stage_ID) StageHumanDecisionGate "" "" "" "" existing.(Stage_DependsOn) [] None "" "" "" ""
    (mergeStrings existing.(Stage_RequiredClaims) claims) None existing.(Stage_Role) no_budget
    ("operator decision: no eligible worker is independent of " +:+ GoStrings.Join i.(Independence_DifferentFrom) ", "
       +:+ " in dimension " +:+ Quote i.(Independence_Dimension)
       +:+ ", and policy permits an independent human review in its place").

(** The loop rewrites every stage of that id; distinct names are a graph law,
    so it is the one stage whose requirement was read. *)
Definition SubstituteHumanReview `{!GoUnicode} (plan : EngineeringPlan) (stageID : string) (claims : list string)
  : result SubstitutionError (list PlanStage) :=
  let? stage := of_option (NoSuchStage plan.(Plan_ID) stageID) (plan_stage plan stageID) in
  refuse_if (stage.(Stage_Kind) ≠? StageAgent) (NotAnAgentStage stageID stage.(Stage_Kind)) ;?
  let? i := of_option (SubstitutionNotCarried stageID) stage.(Stage_Independence) in
  refuse_if (negb i.(Independence_HumanSubstitutionPermitted)) (SubstitutionNotCarried stageID) ;?
  refuse_if (length claims =? 0) NothingToDecide ;?
  Ok ((λ existing, if existing.(Stage_ID) ≠? stageID then existing
         else human_gate existing claims (default i existing.(Stage_Independence))) <$> plan.(Plan_Stages)).

Lemma SubstituteHumanReview_ok `{!GoUnicode} plan id claims stages :
  SubstituteHumanReview plan id claims = Ok stages →
  ∃ s i, s ∈ plan.(Plan_Stages) ∧ s.(Stage_ID) = id ∧ s.(Stage_Kind) = StageAgent
    ∧ s.(Stage_Independence) = Some i ∧ i.(Independence_HumanSubstitutionPermitted) = true ∧ claims ≠ []
    ∧ stages = (λ x, if x.(Stage_ID) ≠? id then x else human_gate x claims (default i x.(Stage_Independence)))
                 <$> plan.(Plan_Stages).
Proof.
  unfold SubstituteHumanReview. intros (s & [Hin Hid]%of_option_ok%find_some & [Hk Hs]%check_then)%rbind_ok.
  apply rbind_ok in Hs as (i & Hi%of_option_ok & Hs). rewrite !check_then in Hs. destruct Hs as (Hp & Hc & [= <-]).
  autorewrite with go in Hk, Hp, Hc. apply Nat.eqb_neq in Hc. exists s, i. split_and!; try done. by intros ->.
Qed.

Lemma substituted_ids `{!GoUnicode} (stages : list PlanStage) id claims i :
  Stage_ID <$> ((λ x, if x.(Stage_ID) ≠? id then x else human_gate x claims (default i x.(Stage_Independence))) <$> stages)
  = Stage_ID <$> stages.
Proof.
  rewrite <- list_fmap_compose. apply list_fmap_ext. intros _ x _. simpl. by case_bool_decide.
Qed.

(** The operator's answer passes the ratchet: putting a person in place of a
    worker whose requirement permits it, with at least one named claim,
    replaces that stage alone, keeps every dependency, fulfils its role by a
    substitution, and no privilege rule refuses the new revision. *)
Theorem SubstituteHumanReview_ratchet `{!GoUnicode} plan id claims stages claim next :
  NoDup (Stage_ID <$> plan.(Plan_Stages)) → SubstituteHumanReview plan id claims = Ok stages →
  claim ∈ claims → claim ≠ "" → next.(Plan_Stages) = stages →
  revisionPrivilegeViolations next plan = []
  ∧ (Stage_ID <$> stages) = (Stage_ID <$> plan.(Plan_Stages))
  ∧ (Stage_DependsOn <$> stages) = (Stage_DependsOn <$> plan.(Plan_Stages))
  ∧ ∃ before after, before ∈ plan.(Plan_Stages) ∧ after ∈ stages ∧ before.(Stage_ID) = id ∧ after.(Stage_ID) = id
      ∧ claim ∈ after.(Stage_RequiredClaims) ∧ after.(Stage_SubstitutesRole) = before.(Stage_Role)
      ∧ ∀ s, s ∈ stages → s.(Stage_ID) ≠ id → s ∈ plan.(Plan_Stages).
Proof.
  intros Hnd (s & i & Hin & Hid & Hk & Hi & Hp & Hne & ->)%SubstituteHumanReview_ok Hcl Hcne Hnext.
  assert (∀ x j, claim ∈ (human_gate x claims j).(Stage_RequiredClaims)) as Hclaim.
  { intros x j. simpl. unfold mergeStrings. rewrite elem_of_sorted_unique, list_elem_of_filter, elem_of_app. auto. }
  split_and!.
  - unfold revisionPrivilegeViolations. rewrite Hnext, app_nil, !bind_nil. split.
    + intros y (x & -> & Hx)%list_elem_of_fmap. apply kept_stage_nil. intros before. rewrite substituted_ids.
      assert ((if x.(Stage_ID) ≠? id then x else human_gate x claims (default i x.(Stage_Independence))).(Stage_ID) = x.(Stage_ID)) as ->
        by (by case_bool_decide).
      rewrite (previousStage_in _ x Hnd Hx). intros [= <-]. unfold keeps. destruct (bool_decide_reflect (x.(Stage_ID) = id)) as [Hxid|Hxid]; simpl.
      * assert (x = s) as -> by (apply (NoDup_fmap_inj Stage_ID plan.(Plan_Stages)); [done|done|done|congruence]). rewrite bool_decide_true by done.
        unfold substitutionPermitted. rewrite Hi. split; [done|]. intros He. specialize (Hclaim s i).
        simpl in *. rewrite He in Hclaim. by apply not_elem_of_nil in Hclaim.
      * rewrite bool_decide_false by (intros [He1 He2]; rewrite He1 in He2; done). split_and!; [done|lia|].
        intros j Hj. exists j. split_and!; [done| |done]. by split.
    + intros before Hb. unfold removed_stage.
      destruct (previousStage _ before.(Stage_ID)) eqn:Hn; [done|]. apply previousStage_none in Hn.
      rewrite substituted_ids in Hn. by destruct Hn; apply list_elem_of_fmap_2.
  - apply substituted_ids.
  - rewrite <- list_fmap_compose. apply list_fmap_ext. intros _ x _. simpl. by case_bool_decide.
  - exists s, (human_gate s claims (default i s.(Stage_Independence))). split_and!; try done.
    + apply list_elem_of_fmap. exists s. split; [|done]. by rewrite bool_decide_true.
    + intros y (x & -> & Hx)%list_elem_of_fmap. by case_bool_decide.
Qed.

(* ------------------------------------------------------------------ *)
(** * Concrete plans *)

Definition vendor_independence (permitted : bool) : IndependenceRequirement :=
  MkIndependence IndependenceVendorFamily ["implementation"] permitted.

Definition example_implementation : PlanStage :=
  MkStage "implementation" StageAgent RoleImplementer "" "" "change" [] (RoleCapabilities RoleImplementer) None "" "" "" ""
    [] None "" no_budget "".

Definition example_review (trust : string) : PlanStage :=
  MkStage "review" StageAgent RoleReviewer "" "" "review" ["implementation"] (RoleCapabilities RoleReviewer)
    (Some (vendor_independence true)) trust "" "" "" [] None "" no_budget "".

Definition push : Action := MkAction "git.push" "main".

Definition example_publication : PlanStage :=
  new_stage "publish" StageHumanDecisionGate "" ["review"] ["approved"] (Some push) "".

Definition example_contract : EngineeringWorkContract :=
  MkContract "0.1" "contract" "1" "change" [] (MkSubject "owner/repo" "base") (MkContractScope StagePredicted [] []) [] ∅ ∅
    (<["approved" := MkRequiredClaim human_approval false]> (<["tests" := MkRequiredClaim "test" false]> ∅)) [] []
    [MkAuthorityCondition push ["approved"]]
    (Some (MkPlanRequirements
       [MkRoleRequirement RoleReviewer [] (Some (MkIndependence IndependenceProviderKind [] true)) "" "review"] []
       [MkGateRequirement StageHumanDecisionGate ["approved"] (Some push) "a person publishes"]))
    (MkContractProvenance (MkObjectRevision "model" "1") (MkObjectRevision "policy" "1") "compiler-v0.1" None).

Definition example_envelope : PlanBudgetEnvelope := MkEnvelope 4 2 8 600 None.

Definition example_plan (revision : Z) (trust : string) : EngineeringPlan :=
  MkPlan "0.1" "plan" revision "" "change" (MkSubject "owner/repo" "base") example_envelope
    [example_implementation; example_review trust; example_publication]
    (MkPlanProvenance "plan-compiler-v0.1" (MkObjectRevision "model" "1") (MkObjectRevision "policy" "1")
       (contract_revision example_contract) None None None "").

Definition nothing_consumed : PlanConsumption := MkConsumption 0 0 0 None false.

Definition example_input (baseline : option EngineeringPlan) : ValidationInput :=
  MkValidationInput example_contract example_envelope None baseline nothing_consumed.

Lemma validate_obligations_witness :
  @validate_plan range_forward (example_plan 1 "") (example_input None) = Ok tt
  ∧ ∃ s, s ∈ (example_plan 1 "").(Plan_Stages) ∧ s.(Stage_Kind) = StageHumanDecisionGate ∧ s.(Stage_Action) = Some push.
Proof.
  assert (@validate_plan range_forward (example_plan 1 "") (example_input None) = Ok tt) as Hv by (vm_compute; reflexivity).
  split; [exact Hv|].
  destruct (@validate_obligations range_forward _ _ _ Hv eq_refl) as (_ & _ & Hg).
  destruct (Hg (MkGateRequirement StageHumanDecisionGate ["approved"] (Some push) "a person publishes")) as (s & Hs & Hk & Ha & _);
    [by left|]. exists s. split; [exact Hs|]. split; [exact Hk|exact Ha].
Defined.

Lemma ratchet_step :
  @validate_plan range_forward (example_plan 2 TrustRequirementProtected) (example_input (Some (example_plan 1 "operator_trusted"))) = Ok tt.
Proof. vm_compute. reflexivity. Qed.

Lemma validate_ratchet_witness :
  tightens (example_plan 2 TrustRequirementProtected) (example_plan 1 "operator_trusted").
Proof. exact (@validate_ratchet range_forward _ _ _ ratchet_step eq_refl). Defined.

Lemma ratchet_chain_witness :
  ∃ s', worker (example_plan 2 TrustRequirementProtected) "review" s' ∧ s'.(Stage_Role) = RoleReviewer.
Proof.
  assert (rtc (@approved range_forward "review" ["implementation"]) (example_plan 1 "operator_trusted")
    (example_plan 2 TrustRequirementProtected)) as Hc.
  { apply rtc_once. split; [exists (example_input (Some (example_plan 1 "operator_trusted"))); split; [reflexivity|exact ratchet_step]|]. split.
    - exists (example_review TrustRequirementProtected). split; reflexivity.
    - intros x Hx. apply list_elem_of_singleton in Hx as ->. simpl. by left. }
  destruct (@ratchet_chain range_forward _ _ _ _ (example_review "operator_trusted") Hc) as (s' & Hw & Hr & _).
  { split; reflexivity. }
  exists s'. split; [exact Hw|exact Hr].
Defined.

Lemma PublicationGates_exact_witness :
  gate_reasons example_contract example_publication = []
  ∧ ∃ g, g ∈ PublicationGates example_contract ∧ g.(PublicationGate_Action) = push.
Proof.
  assert (gate_reasons example_contract example_publication = []) as Hg by (vm_compute; reflexivity).
  split; [exact Hg|].
  apply (PublicationGates_exact example_contract example_publication push) in Hg as (_ & g & Hin & Ha & _).
  - exists g. split; [exact Hin|exact Ha].
  - discriminate.
  - apply NoDup_singleton.
  - reflexivity.
  - reflexivity.
  - reflexivity.
Defined.

Lemma SubstituteHumanReview_ratchet_witness :
  ∃ stages, @SubstituteHumanReview ascii_unicode (example_plan 1 "") "review" ["approved"] = Ok stages
    ∧ (Stage_ID <$> stages) = ["implementation"; "review"; "publish"].
Proof.
  assert (is_ok (@SubstituteHumanReview ascii_unicode (example_plan 1 "") "review" ["approved"]) = true)
    as (stages & Hs)%is_ok_true by (vm_compute; reflexivity).
  exists stages. split; [exact Hs|].
  destruct (@SubstituteHumanReview_ratchet ascii_unicode (example_plan 1 "") "review" ["approved"] stages "approved"
    (MkPlan "" "" 2 "" "" (MkSubject "" "") example_envelope stages (example_plan 1 "").(Plan_Provenance)))
    as (_ & Hi & _); [|exact Hs|by left|discriminate|reflexivity|exact Hi].
  apply (bool_decide_eq_true_1 _). reflexivity.
Defined.
