(* ===== verification/PlanCompiler.v ===== *)
(** The plan compiler: [planning/compiler.go], with the acceptance feature of
    [planning/acceptance_feature.go] and the profile preference of
    [planning/profile_preference.go].  Stages start from a proposal, a template
    or the minimum, gain what the policy obliges, are completed, ordered and
    budgeted, and pass [validate_plan]. *)

From S2P Require Import Prelude GoStrings Sha256 Domain Canonical Topo Reach WorkGraph Plan PlanGraph PlanTemplate PlanValidate.
From stdpp Require Import relations options.

Definition CompilerVersion : string := "plan-compiler-v0.1".
Definition stageImplementation : string := "implementation".
Definition stageAssurance : string := "assurance".

Record PlanCompileInput := MkPlanCompileInput {
  Input_PlanID : string;
  Input_Revision : Z;
  Input_Objective : string;
  Input_Subject : Subject;
  Input_Contract : EngineeringWorkContract;
  Input_Model : ProjectModel;
  Input_Facts : list EngineeringFact;
  Input_Template : option EngineeringPlanTemplate;
  Input_PreferredProfile : string;
  Input_Envelope : PlanBudgetEnvelope;
  Input_Proposed : list PlanStage;
  Input_Reasoning : option PlanReasoningProvenance;
  Input_Previous : option EngineeringPlan;
  Input_RatchetBaseline : option EngineeringPlan;
  Input_Consumed : PlanConsumption;
  Input_ProposalID : string;
  Input_AcceptanceFeature : string
}.

Inductive CompileError :=
  | PlanIDRequired
  | RevisionStartsAtOne (revision : Z)
  | PlanObjectiveRequired
  | PlanSubjectIncomplete
  | ContractRevisionRequired
  | ContractGovernsAnother (contract plan : string)
  | RevisesAnotherPlan (plan previous : string)
  | RevisionDoesNotFollow (revision previous : Z)
  | FeatureNotDeclared (stage feature : string)
  | UnboundProducerIndependence (plan stage role source : string)
  | IndependentOnlyOfItself (plan stage : string)
  | NoProducerToDifferFrom (plan stage dimension : string)
  | FeatureNameInvalid (feature : string)
  | FeatureAmbiguous (feature first second : string)
  | FeatureUncarried (feature : string)
  | EnvelopeRequired
  | TooFewChildRuns (agents : nat) (allowed : Z)
  | TooFewInvocations (agents : nat) (allowed : Z)
  | PlanRefused (e : ValidationError)
  | PlanDigestRefused (e : CanonicalError)
  | PlanSchemaRefused.

(* ------------------------------------------------------------------ *)
(** * Helpers *)

(** [sort.Strings] of the keys of a set. *)
Definition sortedKeysOf (s : gset string) : list string := sort_strings (elements s).

Definition mergeCapabilities (existing added : list string) : list string :=
  filter (λ capability, capability ∈ existing ++ added) EngineeringCapabilities.

Definition stage_names (stages : list PlanStage) : list string := Stage_ID <$> stages.

(** [for suffix := 2; ; suffix++]: one candidate more than there are stages is
    enough, see [uniqueStageID_fresh]. *)
Fixpoint next_suffix (fuel : nat) (taken : gset string) (base : string) (suffix : Z) : string :=
  let candidate := base +:+ "-" +:+ itoa suffix in
  match fuel with
  | O => candidate
  | S fuel => if bool_decide (candidate ∈ taken) then next_suffix fuel taken base (suffix + 1) else candidate
  end.

Definition uniqueStageID (stages : list PlanStage) (base : string) : string :=
  let taken : gset string := list_to_set (stage_names stages) in
  if negb (bool_decide (base ∈ taken)) then base else next_suffix (length stages) taken base 2.

(** [strings.ReplaceAll(s, "_", "-")]. *)
Definition dashed (s : string) : string := of_bytes ((λ b, if (b =? 0x5F)%N then 0x2D%N else b) <$> bytes s).

Definition stageIDForRole (stages : list PlanStage) (role : string) : string := uniqueStageID stages (dashed role).

Definition stageIDForGate (stages : list PlanStage) (kind : string) : string :=
  uniqueStageID stages (if kind ≟ StageHumanDecisionGate then "human-decision" else "assurance").

Definition agentStages (stages : list PlanStage) : list string :=
  sort_strings (Stage_ID <$> filter (λ s, is_agent s = true) stages).

Definition firstProducerIndex (stages : list PlanStage) : option nat :=
  match list_find (λ s, is_producer s = true) stages with
  | Some (i, _) => Some i
  | None => fst <$> list_find (λ s, is_agent s = true) stages
  end.

(** The last stage of a name wins, as in [index[stage.ID] = ...]. *)
Definition stages_by_id (stages : list PlanStage) : gmap string PlanStage :=
  fold_left (λ byID s, <[s.(Stage_ID) := s]> byID) stages ∅.

(** [dependencyIndex] of [planning/compiler.go]. *)
Definition stage_dependencies (stages : list PlanStage) : gmap string (list string) :=
  Stage_DependsOn <$> stages_by_id stages.

(** Never a producer downstream of the stage. *)
Definition producersExcept (stages : list PlanStage) (self : string) : list string :=
  filter (λ id, id ≠ self ∧ reaches (stage_dependencies stages) id self = false) (materialProducerStages stages).

Definition assuranceClaims `{!MapRange} (c : EngineeringWorkContract) : list string :=
  sort_strings (filter (λ kv, kv.2.(RequiredClaim_EvidenceClass) ≠ human_approval) (range c.(Contract_RequiredClaims))).*1.

(* ------------------------------------------------------------------ *)
(** * The stages a plan starts from *)

Definition compile_validate (input : PlanCompileInput) : result CompileError () :=
  refuse_if (blank input.(Input_PlanID)) PlanIDRequired ;?
  refuse_if (input.(Input_Revision) <? 1)%Z (RevisionStartsAtOne input.(Input_Revision)) ;?
  refuse_if (blank input.(Input_Objective)) PlanObjectiveRequired ;?
  refuse_if ((input.(Input_Subject).(Subject_Repository) ≟ "") || (input.(Input_Subject).(Subject_Revision) ≟ ""))
    PlanSubjectIncomplete ;?
  refuse_if ((input.(Input_Contract).(Contract_ID) ≟ "") || (input.(Input_Contract).(Contract_Revision) ≟ ""))
    ContractRevisionRequired ;?
  refuse_if (input.(Input_Contract).(Contract_Subject).(Subject_Repository) ≠? input.(Input_Subject).(Subject_Repository))
    (ContractGovernsAnother input.(Input_Contract).(Contract_Subject).(Subject_Repository)
       input.(Input_Subject).(Subject_Repository)) ;?
  match input.(Input_Previous) with
  | None => Ok tt
  | Some previous =>
      refuse_if (previous.(Plan_ID) ≠? input.(Input_PlanID)) (RevisesAnotherPlan input.(Input_PlanID) previous.(Plan_ID)) ;?
      refuse_if (input.(Input_Revision) <=? previous.(Plan_Revision))%Z
        (RevisionDoesNotFollow input.(Input_Revision) previous.(Plan_Revision))
  end.

Definition drop_echo (declared : string) (s : PlanStage) : result CompileError PlanStage :=
  let feature := s.(Stage_AcceptanceFeature) in
  if feature ≟ "" then Ok s
  else if feature ≟ declared then Ok (stage_with_feature s "")
  else Err (FeatureNotDeclared s.(Stage_ID) feature).

Definition withoutEchoedAcceptanceFeature (proposed : list PlanStage) (declared : string)
  : result CompileError (list PlanStage) := try_map (drop_echo declared) proposed.

Definition template_stage (t : EngineeringPlanTemplate) (s : TemplateStage) : PlanStage :=
  MkStage s.(Template_StageID) s.(Template_Kind) s.(Template_Role) s.(Template_ExecutionKind) "" s.(Template_Objective)
    s.(Template_DependsOn) s.(Template_RequiresCapabilities) s.(Template_Independence) "" "" s.(Template_Profile)
    s.(Template_ContextPolicy) s.(Template_RequiredClaims) s.(Template_Action) "" no_budget
    ("requested by plan template " +:+ t.(Template_ID)).

Definition templateStages (t : EngineeringPlanTemplate) (facts : list EngineeringFact) : list PlanStage :=
  template_stage t <$> TemplateStagesFor t facts.

Definition minimal_stages `{!MapRange} (input : PlanCompileInput) : list PlanStage :=
  stage_with_objective (new_stage stageImplementation StageAgent RoleImplementer [] [] None
    "the objective requires a change, and nothing in policy or a template asked for more") input.(Input_Objective)
  :: let claims := assuranceClaims input.(Input_Contract) in
     if 0 <? length claims then
       [new_stage stageAssurance StageAssuranceGate "" [stageImplementation] claims None
          "the work contract already requires this evidence; the gate references it and creates no run"]
     else [].

Definition baseStages `{!MapRange} (input : PlanCompileInput) : result CompileError (list PlanStage) :=
  let? proposed := withoutEchoedAcceptanceFeature input.(Input_Proposed) input.(Input_AcceptanceFeature) in
  if 0 <? length proposed then Ok proposed
  else match input.(Input_Template) with
       | Some t => Ok (templateStages t input.(Input_Facts))
       | None => Ok (minimal_stages input)
       end.

(* ------------------------------------------------------------------ *)
(** * Policy obligations *)

Definition proposed_source : string := "proposed for this stage".
Definition policy_source : string := "required by EngineeringPolicy".

Definition unboundProducerIndependence (planID : string) (s : PlanStage) (source : string) : CompileError :=
  UnboundProducerIndependence planID s.(Stage_ID) s.(Stage_Role) source.

(** The stages to differ from: what is stated, and on a stage that produces
    nothing the material producers. *)
Definition independent_from (existing : option IndependenceRequirement) (required : IndependenceRequirement)
  (producers : list string) (s : PlanStage) : gset string :=
  list_to_set (match existing with Some i => i.(Independence_DifferentFrom) | None => [] end)
  ∪ list_to_set required.(Independence_DifferentFrom)
  ∪ (if ProducesMaterialChange s.(Stage_Role) then ∅ else list_to_set producers).

Definition strengthenIndependence (existing : option IndependenceRequirement) (required : IndependenceRequirement)
  (producers : list string) (s : PlanStage) (planID : string) : result CompileError IndependenceRequirement :=
  let dimension := match existing with
    | Some i => if (dimensionStrength required.(Independence_Dimension) <? dimensionStrength i.(Independence_Dimension))%Z
                then i.(Independence_Dimension) else required.(Independence_Dimension)
    | None => required.(Independence_Dimension) end in
  let from := independent_from existing required producers s in
  refuse_if (ProducesMaterialChange s.(Stage_Role) && bool_decide (from = ∅)) (unboundProducerIndependence planID s policy_source) ;?
  let namedOnlyItself := bool_decide (from = {[s.(Stage_ID)]}) in
  let from := from ∖ {[s.(Stage_ID)]} in
  if bool_decide (from = ∅) then
    if namedOnlyItself then Err (IndependentOnlyOfItself planID s.(Stage_ID))
    else if negb (ProducesMaterialChange s.(Stage_Role)) then Err (NoProducerToDifferFrom planID s.(Stage_ID) dimension)
    else Err (unboundProducerIndependence planID s policy_source)
  else Ok (MkIndependence dimension (sortedKeysOf from) required.(Independence_HumanSubstitutionPermitted)).

(** The stage that performs the role, or one more stage. *)
Definition with_role_stage (stages : list PlanStage) (r : RoleRequirement) : list PlanStage * nat :=
  match list_find (λ s, s.(Stage_Kind) = StageAgent ∧ s.(Stage_Role) = r.(Role_Role)) stages with
  | Some (i, _) => (stages, i)
  | None =>
      (stages ++ [new_stage (stageIDForRole stages r.(Role_Role)) StageAgent r.(Role_Role) (materialProducerStages stages) []
                    None (policy_source +:+ ": " +:+ r.(Role_Statement))], length stages)
  end.

(** The stage after the obligation. *)
Definition oblige (stages : list PlanStage) (r : RoleRequirement) (planID : string) (s : PlanStage)
  : result CompileError PlanStage :=
  let s := stage_with_capabilities s (mergeCapabilities s.(Stage_RequiresCapabilities) r.(Role_Capabilities)) in
  let s := if (trustStrength s.(Stage_TrustRequirement) <? trustStrength r.(Role_TrustRequirement))%Z
           then stage_with_trust s r.(Role_TrustRequirement) else s in
  let? s := match r.(Role_Independence) with
    | None => Ok s
    | Some required =>
        let? strengthened := strengthenIndependence s.(Stage_Independence) required (producersExcept stages s.(Stage_ID)) s planID in
        Ok (stage_with_independence s (Some strengthened))
    end in
  Ok (if s.(Stage_Rationale) ≟ "" then stage_with_rationale s (policy_source +:+ ": " +:+ r.(Role_Statement)) else s).

Definition applyRoleObligation (planID : string) (stages : list PlanStage) (r : RoleRequirement)
  : result CompileError (list PlanStage) :=
  let '(stages, index) := with_role_stage stages r in
  match stages !! index with
  | None => Ok stages
  | Some s => let? s := oblige stages r planID s in Ok (<[index := s]> stages)
  end.

Definition apply_capability (stages : list PlanStage) (capability : string) : list PlanStage :=
  if capabilityCovered stages capability then stages
  else match firstProducerIndex stages with
       | None => stages
       | Some index => alter (λ s, stage_with_capabilities s (mergeCapabilities s.(Stage_RequiresCapabilities) [capability])) index stages
       end.

Definition applyCapabilityObligations (stages : list PlanStage) (capabilities : list string) : list PlanStage :=
  fold_left apply_capability capabilities stages.

Definition gate_matches (gate : GateRequirement) (s : PlanStage) : Prop :=
  s.(Stage_Kind) = gate.(Gate_Kind) ∧ sameAction s.(Stage_Action) gate.(Gate_Action) = true.

#[export] Instance gate_matches_dec gate s : Decision (gate_matches gate s).
Proof. unfold gate_matches. apply _. Defined.

Section compile.
Context `{!MapRange}.

Definition applyGateObligation (c : EngineeringWorkContract) (stages : list PlanStage) (gate : GateRequirement) : list PlanStage :=
  let claims := if (length gate.(Gate_RequiredClaims) =? 0) && (gate.(Gate_Kind) ≟ StageAssuranceGate)
                then assuranceClaims c else gate.(Gate_RequiredClaims) in
  match list_find (gate_matches gate) stages with
  | Some (i, s) => <[i := stage_with_claims s (mergeStrings s.(Stage_RequiredClaims) claims)]> stages
  | None => stages ++ [new_stage (stageIDForGate stages gate.(Gate_Kind)) gate.(Gate_Kind) "" (agentStages stages) claims
              gate.(Gate_Action) (policy_source +:+ ": " +:+ gate.(Gate_Statement))]
  end.

Definition applyPolicyObligations (stages : list PlanStage) (requirements : PlanRequirements) (c : EngineeringWorkContract)
  (planID : string) : result CompileError (list PlanStage) :=
  let? stages := for_each (applyRoleObligation planID) requirements.(PlanRequirements_Roles) stages in
  Ok (fold_left (applyGateObligation c) requirements.(PlanRequirements_Gates)
        (applyCapabilityObligations stages requirements.(PlanRequirements_Capabilities))).

Definition preferProfile (stages : list PlanStage) (profile : string) : list PlanStage :=
  if profile ≟ "" then stages
  else (λ s, if is_agent s && (s.(Stage_Profile) ≟ "") then stage_with_profile s profile else s) <$> stages.

Definition ensureAssuranceGate (stages : list PlanStage) (c : EngineeringWorkContract) : list PlanStage :=
  let claims := assuranceClaims c in
  if length claims =? 0 then stages
  else if existsb (λ s, s.(Stage_Kind) ≟ StageAssuranceGate) stages then stages
  else let producers := agentStages stages in
  if length producers =? 0 then stages
  else stages ++ [new_stage (uniqueStageID stages stageAssurance) StageAssuranceGate "" producers claims None
         "the work contract requires this evidence; the gate references it and creates no run"].

(* ------------------------------------------------------------------ *)
(** * Defaults and canonical form *)

Definition withIndependencePeers (dependencies peers : list string) : list string :=
  fold_left (λ dependencies peer, if dependencies ∋? peer then dependencies else dependencies ++ [peer]) peers dependencies.

(** An independence requirement that names nobody names the producers. *)
Definition bind_independence (planID : string) (stages : list PlanStage) (s : PlanStage) : result CompileError PlanStage :=
  match s.(Stage_Independence) with
  | Some i =>
      if length i.(Independence_DifferentFrom) =? 0 then
        refuse_if (ProducesMaterialChange s.(Stage_Role)) (unboundProducerIndependence planID s proposed_source) ;?
        Ok (stage_with_independence s (Some (MkIndependence i.(Independence_Dimension) (producersExcept stages s.(Stage_ID))
              i.(Independence_HumanSubstitutionPermitted))))
      else Ok s
  | None => Ok s
  end.

Definition fill_stage (input : PlanCompileInput) (stages : list PlanStage) (s : PlanStage) : result CompileError PlanStage :=
  if negb (is_agent s) then
    Ok (if (s.(Stage_Kind) ≟ StageAssuranceGate) && (length s.(Stage_RequiredClaims) =? 0)
        then stage_with_claims s (assuranceClaims input.(Input_Contract)) else s)
  else
    let s := stage_with_capabilities s (mergeCapabilities s.(Stage_RequiresCapabilities) (RoleCapabilities s.(Stage_Role))) in
    let? s := bind_independence input.(Input_PlanID) stages s in
    let s := match s.(Stage_Independence) with
      | Some i => stage_with_deps s (withIndependencePeers s.(Stage_DependsOn) i.(Independence_DifferentFrom))
      | None => s end in
    let s := if s.(Stage_InvocationMode) ≟ "" then stage_with_mode s (RequiredInvocationMode s.(Stage_Role)) else s in
    Ok (if s.(Stage_Objective) ≟ "" then stage_with_objective s input.(Input_Objective) else s).

(** [stages[i] = stage] as the loop goes: later stages see the earlier ones
    completed. *)
Definition fill_at (input : PlanCompileInput) (stages : list PlanStage) (i : nat) : result CompileError (list PlanStage) :=
  match stages !! i with
  | None => Ok stages
  | Some s => let? s := fill_stage input stages s in Ok (<[i := s]> stages)
  end.

Definition fillStageDefaults (stages : list PlanStage) (input : PlanCompileInput) : result CompileError (list PlanStage) :=
  for_each (fill_at input) (seq 0 (length stages)) stages.

Definition canonicalOrder (stages : list PlanStage) : list PlanStage :=
  let byID := stages_by_id stages in
  if existsb (λ s, existsb (λ d, bool_decide (byID !! d = None)) s.(Stage_DependsOn)) stages then stages
  else match kahn stages with
       | None => stages
       | Some (order, _) =>
           if negb (length order =? length stages) then stages
           else (λ s, stage_with_deps s (sort_strings s.(Stage_DependsOn))) <$> omap (λ id, byID !! id) order
       end.

(* ------------------------------------------------------------------ *)
(** * The acceptance feature *)

Definition feature_view (s : PlanStage) : stageView :=
  MkView s.(Stage_ID) s.(Stage_Kind) "" s.(Stage_ExecutionKind) "" "" s.(Stage_DependsOn) [] None None [] "" "".

Definition views_by_id (views : list stageView) : gmap string stageView :=
  fold_left (λ byID v, <[v.(View_ID) := v]> byID) views ∅.

(** The loop that looks for the one final integration; the state is its
    index and name. *)
Definition final_step (feature : string) (views : list stageView) (byID : gmap string stageView)
  (final : option (nat * string)) (entry : nat * PlanStage) : result CompileError (option (nat * string)) :=
  let '(i, s) := entry in
  if (s.(Stage_Kind) ≠? StageAgent) || (s.(Stage_ExecutionKind) ≠? ExecutionKindIntegrationCompose) then Ok final
  else if downstreamIntegration s.(Stage_ID) views byID then Ok final
  else match final with
       | Some (_, first) => Err (FeatureAmbiguous feature first s.(Stage_ID))
       | None => Ok (Some (i, s.(Stage_ID)))
       end.

Definition bindAcceptanceFeature (stages : list PlanStage) (feature : string) : result CompileError (list PlanStage) :=
  if feature ≟ "" then Ok stages
  else
    refuse_if (negb (ValidAcceptanceFeature feature)) (FeatureNameInvalid feature) ;?
    let views := feature_view <$> stages in
    let? final := for_each (final_step feature views (views_by_id views)) (imap pair stages) None in
    match final with
    | None => Err (FeatureUncarried feature)
    | Some (i, _) => Ok (alter (λ s, stage_with_feature s feature) i stages)
    end.

(* ------------------------------------------------------------------ *)
(** * Budgets *)

Definition minPositive (ceiling proposal : Z) : Z :=
  if ((0 <? proposal) && (proposal <? ceiling))%Z then proposal else ceiling.

Definition tighten (ceiling proposal : PlanBudgetEnvelope) : PlanBudgetEnvelope :=
  MkEnvelope (minPositive ceiling.(Envelope_MaxChildRuns) proposal.(Envelope_MaxChildRuns))
    (minPositive ceiling.(Envelope_MaxConcurrency) proposal.(Envelope_MaxConcurrency))
    (minPositive ceiling.(Envelope_MaxProviderInvocations) proposal.(Envelope_MaxProviderInvocations))
    (minPositive ceiling.(Envelope_MaxWallSeconds) proposal.(Envelope_MaxWallSeconds))
    (match ceiling.(Envelope_MaxCostMicros), proposal.(Envelope_MaxCostMicros) with
     | Some c, Some p => Some (if (p <? c)%Z then p else c)
     | c, _ => c
     end).

Definition resolveEnvelope (input : PlanCompileInput) (stages : list PlanStage) : result CompileError PlanBudgetEnvelope :=
  let envelope := input.(Input_Envelope) in
  refuse_if ((envelope.(Envelope_MaxChildRuns) <=? 0) || (envelope.(Envelope_MaxConcurrency) <=? 0)
             || (envelope.(Envelope_MaxProviderInvocations) <=? 0))%Z EnvelopeRequired ;?
  let envelope := match input.(Input_Template) with
    | Some t => match t.(Template_BudgetEnvelope) with Some e => tighten envelope e | None => envelope end
    | None => envelope end in
  let agents := agent_count stages in
  refuse_if (envelope.(Envelope_MaxChildRuns) <? Z.of_nat agents)%Z (TooFewChildRuns agents envelope.(Envelope_MaxChildRuns)) ;?
  refuse_if (envelope.(Envelope_MaxProviderInvocations) <? Z.of_nat agents)%Z
    (TooFewInvocations agents envelope.(Envelope_MaxProviderInvocations)) ;?
  Ok envelope.

(** Go's [/] truncates towards zero. *)
Definition share_of (total : Z) (agents : nat) : Z := Z.quot total (Z.of_nat agents).

Definition share_stage (invocations wall : Z) (s : PlanStage) : PlanStage :=
  if negb (is_agent s) then s
  else
    let b := s.(Stage_Budget) in
    let n := b.(Budget_MaxProviderInvocations) in
    let w := b.(Budget_MaxWallSeconds) in
    stage_with_budget s (MkStageBudget b.(Budget_MaxExecutionAttempts)
      (if ((n <=? 0) || (invocations <? n))%Z then invocations else n)
      (if ((0 <? wall) && ((w <=? 0) || (wall <? w)))%Z then wall else w)).

Definition shareBudget (stages : list PlanStage) (envelope : PlanBudgetEnvelope) : list PlanStage :=
  let agents := agent_count stages in
  if agents =? 0 then stages
  else
    let share := share_of envelope.(Envelope_MaxProviderInvocations) agents in
    let invocations := if (share <? 1)%Z then 1%Z else share in
    let wall := if (0 <? envelope.(Envelope_MaxWallSeconds))%Z then share_of envelope.(Envelope_MaxWallSeconds) agents else 0%Z in
    share_stage invocations wall <$> stages.

(* ------------------------------------------------------------------ *)
(** * Compile *)

Definition compiled_stages (input : PlanCompileInput) : result CompileError (list PlanStage) :=
  let requirements := default (MkPlanRequirements [] [] []) input.(Input_Contract).(Contract_PlanRequirements) in
  let? stages := baseStages input in
  let? stages := applyPolicyObligations stages requirements input.(Input_Contract) input.(Input_PlanID) in
  let stages := preferProfile stages input.(Input_PreferredProfile) in
  let stages := ensureAssuranceGate stages input.(Input_Contract) in
  let? stages := fillStageDefaults stages input in
  bindAcceptanceFeature (canonicalOrder stages) input.(Input_AcceptanceFeature).

Definition plan_of (input : PlanCompileInput) (envelope : PlanBudgetEnvelope) (stages : list PlanStage) : EngineeringPlan :=
  MkPlan SchemaVersion input.(Input_PlanID) input.(Input_Revision) "" input.(Input_Objective) input.(Input_Subject) envelope stages
    (MkPlanProvenance CompilerVersion
       (MkObjectRevision input.(Input_Model).(Model_ID) input.(Input_Model).(Model_Revision))
       input.(Input_Contract).(Contract_Provenance).(Provenance_Policy) (contract_revision input.(Input_Contract))
       ((λ t, MkTemplateRef t.(Template_ID) t.(Template_Version) t.(Template_Digest)) <$> input.(Input_Template))
       input.(Input_Reasoning) (Plan_Revision <$> input.(Input_Previous)) input.(Input_ProposalID)).

Definition validation_of (input : PlanCompileInput) : ValidationInput :=
  MkValidationInput input.(Input_Contract) input.(Input_Envelope) input.(Input_Previous) input.(Input_RatchetBaseline)
    input.(Input_Consumed).

(** [planning.Compile]. *)
Definition compile_plan `{!Canonicalizer, !PlanSchema} (input : PlanCompileInput) : result CompileError EngineeringPlan :=
  compile_validate input ;?
  let? stages := compiled_stages input in
  let? envelope := resolveEnvelope input stages in
  let plan := plan_of input envelope (shareBudget stages envelope) in
  wrap PlanRefused (validate_plan plan (validation_of input)) ;?
  let? digest := wrap PlanDigestRefused (plan_ContentDigest plan) in
  let plan := with_plan_digest plan digest in
  refuse_if (negb (schema_EngineeringPlan plan)) PlanSchemaRefused ;?
  Ok plan.
End compile.
