(* ===== verification/PlanCompilerFacts.v ===== *)
(** What the plan compiler guarantees: fresh stage names, the canonical order,
    the shares of the budget, what the policy adds, and the compiled plan as a
    whole. *)

From S2P Require Import Prelude GoStrings Sha256 Domain Canonical Topo Reach WorkGraph Plan PlanGraph PlanTemplate PlanValidate PlanCompiler.
From stdpp Require Import relations options.

(* ------------------------------------------------------------------ *)
(** * Fresh names *)

Definition candidate (base : string) (suffix : Z) : string := base +:+ "-" +:+ itoa suffix.

Lemma candidate_inj base a b : (0 <= a)%Z → (0 <= b)%Z → candidate base a = candidate base b → a = b.
Proof.
  unfold candidate. intros Ha Hb He. apply itoa_inj; [done..|].
  by apply (inj (String.append base)), (inj (String.append "-")) in He.
Qed.

(** A name that is taken means every candidate before it is taken too. *)
Lemma next_suffix_taken fuel taken base suffix :
  next_suffix fuel taken base suffix ∈ taken →
  ∀ j, (j <= fuel)%nat → candidate base (suffix + Z.of_nat j) ∈ taken.
Proof.
  revert suffix; induction fuel as [|fuel IH]; intros suffix; simpl; fold (candidate base suffix).
  - intros Hin j Hj. assert (j = 0%nat) as -> by lia. by rewrite Z.add_0_r.
  - case_bool_decide as Ht; [|done]. intros Hin [|j] Hj; [by rewrite Z.add_0_r|].
    replace (suffix + Z.of_nat (S j))%Z with (suffix + 1 + Z.of_nat j)%Z by lia. apply IH; [done|lia].
Qed.

(** The name given to a stage the compiler adds is new to the plan, so the
    search for one ends. *)
Theorem uniqueStageID_fresh stages base : uniqueStageID stages base ∉ stage_names stages.
Proof.
  unfold uniqueStageID. case_bool_decide as Hb; simpl; [|by rewrite elem_of_list_to_set in Hb].
  intros Hin. assert (∀ id, id ∈ (list_to_set (stage_names stages) : gset string) ↔ id ∈ stage_names stages) as Hs
    by (intros id; apply elem_of_list_to_set).
  apply Hs in Hin. pose proof (next_suffix_taken _ _ _ _ Hin) as Hall.
  set (l := (λ j, candidate base (2 + Z.of_nat j)) <$> seq 0 (S (length stages))).
  assert (length l <= length (stage_names stages))%nat as Hl.
  { apply submseteq_length, NoDup_submseteq.
    - unfold l. apply NoDup_fmap_2_strong; [|apply NoDup_seq]. intros x y _ _ He%candidate_inj; lia.
    - intros x (j & -> & Hj%elem_of_seq)%list_elem_of_fmap. apply Hs, Hall. lia. }
  unfold l, stage_names in Hl. rewrite !length_fmap, length_seq in Hl. lia.
Qed.

(* ------------------------------------------------------------------ *)
(** * The budget *)

(** A sum over the worker stages. *)
Definition worker_sum (f : PlanStage → Z) (stages : list PlanStage) : Z :=
  foldr Z.add 0%Z (f <$> filter (λ s, is_agent s = true) stages).

Lemma is_agent_share n w s : is_agent (share_stage n w s) = is_agent s.
Proof. unfold share_stage. destruct (is_agent s) eqn:Ha; simpl; [|done]. by destruct s. Qed.

Lemma agent_count_share n w stages : agent_count (share_stage n w <$> stages) = agent_count stages.
Proof.
  unfold agent_count. induction stages as [|s l IH]; [done|]. csimpl. rewrite !filter_cons, is_agent_share.
  case_decide; simpl; congruence.
Qed.

Lemma share_budget n w s :
  is_agent s = true →
  (share_stage n w s).(Stage_Budget).(Budget_MaxProviderInvocations)
    = (let b := s.(Stage_Budget).(Budget_MaxProviderInvocations) in if ((b <=? 0) || (n <? b))%Z then n else b)
  ∧ (share_stage n w s).(Stage_Budget).(Budget_MaxWallSeconds)
    = (let b := s.(Stage_Budget).(Budget_MaxWallSeconds) in if ((0 <? w) && ((b <=? 0) || (w <? b)))%Z then w else b).
Proof. intros Ha. unfold share_stage. rewrite Ha. by destruct s. Qed.

Lemma share_positive n w s :
  (0 < n)%Z → is_agent s = true → (0 < (share_stage n w s).(Stage_Budget).(Budget_MaxProviderInvocations) <= n)%Z.
Proof.
  intros Hn Ha. destruct (share_budget n w s Ha) as [-> _]. cbv zeta.
  destruct (Z.leb_spec s.(Stage_Budget).(Budget_MaxProviderInvocations) 0); simpl; [lia|].
  destruct (Z.ltb_spec n s.(Stage_Budget).(Budget_MaxProviderInvocations)); lia.
Qed.

Lemma worker_sum_le f n stages :
  (∀ s, s ∈ stages → is_agent s = true → (f s <= n)%Z) →
  (worker_sum f stages <= n * Z.of_nat (agent_count stages))%Z.
Proof.
  unfold worker_sum, agent_count. induction stages as [|s l IH]; intros Hf; [simpl; lia|].
  assert (∀ s, s ∈ l → is_agent s = true → (f s <= n)%Z) as Hl by (intros; apply Hf; [by right|done]).
  rewrite filter_cons. case_decide as Ha; [|by apply IH]. cbn [fmap list_fmap foldr length].
  specialize (IH Hl). specialize (Hf s ltac:(by left) Ha). rewrite Nat2Z.inj_succ, Z.mul_succ_r. lia.
Qed.

Lemma agent_count_pos s stages : s ∈ stages → is_agent s = true → (0 < agent_count stages)%nat.
Proof.
  intros Hin Ha. unfold agent_count. destruct (filter _ stages) as [|x l] eqn:Hf; simpl; [|lia].
  assert (s ∈ filter (λ s, is_agent s = true) stages) as Hx by (by apply list_elem_of_filter).
  rewrite Hf in Hx. by apply not_elem_of_nil in Hx.
Qed.

(** A share is positive and the shares add up to no more than the total. *)
Lemma share_of_bounds total n :
  (0 < Z.of_nat n <= total)%Z → (1 <= share_of total n)%Z ∧ (share_of total n * Z.of_nat n <= total)%Z.
Proof.
  intros [Hn Ht]. unfold share_of. split.
  - apply Z.quot_le_lower_bound; lia.
  - rewrite Z.mul_comm. apply Z.mul_quot_le; lia.
Qed.

Lemma share_stage_only n w s : share_stage n w s = stage_with_budget s (share_stage n w s).(Stage_Budget).
Proof. unfold share_stage. destruct (is_agent s); by destruct s. Qed.

(** What each worker of the shared plan is given. *)
Lemma elem_of_shareBudget stages e t :
  t ∈ shareBudget stages e → is_agent t = true →
  ∃ s, s ∈ stages ∧ is_agent s = true ∧
    let n := Z.max 1 (share_of e.(Envelope_MaxProviderInvocations) (agent_count stages)) in
    let w := if (0 <? e.(Envelope_MaxWallSeconds))%Z then share_of e.(Envelope_MaxWallSeconds) (agent_count stages) else 0%Z in
    t = share_stage n w s.
Proof.
  unfold shareBudget. destruct (agent_count stages =? 0)%nat eqn:Hc.
  { intros Hin Ha. apply Nat.eqb_eq in Hc. pose proof (agent_count_pos t stages Hin Ha). lia. }
  intros (s & -> & Hs)%list_elem_of_fmap. rewrite is_agent_share. intros Ha. exists s. split_and!; [done..|].
  f_equal. destruct (Z.ltb_spec (share_of e.(Envelope_MaxProviderInvocations) (agent_count stages)) 1); lia.
Qed.

Lemma shareBudget_count stages e : agent_count (shareBudget stages e) = agent_count stages.
Proof. unfold shareBudget. destruct (_ =? 0)%nat; [done|]. apply agent_count_share. Qed.

Lemma shareBudget_only stages e :
  shareBudget stages e = zip_with (λ s t, stage_with_budget s t.(Stage_Budget)) stages (shareBudget stages e).
Proof.
  unfold shareBudget. destruct (_ =? 0)%nat.
  - induction stages as [|s l IH]; [done|]. simpl. rewrite <- IH. f_equal. by destruct s.
  - generalize (agent_count stages); intros k. induction stages as [|s l IH]; [done|]. simpl. f_equal; [apply share_stage_only|].
    exact IH.
Qed.

(** Each worker's share of the budget is positive, and the shares together
    stay within the plan's envelope: the invocations always, the wall time
    when the envelope has a second for every worker.  Nothing else of a stage
    changes. *)
Theorem shareBudget_bounds stages e :
  (Z.of_nat (agent_count stages) <= e.(Envelope_MaxProviderInvocations))%Z →
  let shared := shareBudget stages e in
  let invocations s := s.(Stage_Budget).(Budget_MaxProviderInvocations) in
  let wall s := s.(Stage_Budget).(Budget_MaxWallSeconds) in
  (∀ s, s ∈ shared → is_agent s = true → (0 < invocations s)%Z)
  ∧ (worker_sum invocations shared <= e.(Envelope_MaxProviderInvocations))%Z
  ∧ ((0 < Z.of_nat (agent_count stages) <= e.(Envelope_MaxWallSeconds))%Z →
       (∀ s, s ∈ shared → is_agent s = true → (0 < wall s)%Z)
       ∧ (worker_sum wall shared <= e.(Envelope_MaxWallSeconds))%Z)
  ∧ shared = zip_with (λ s t, stage_with_budget s t.(Stage_Budget)) stages shared.
Proof.
  intros Hmax. cbv zeta. set (n := Z.max 1 (share_of e.(Envelope_MaxProviderInvocations) (agent_count stages))).
  assert (∀ t, t ∈ shareBudget stages e → is_agent t = true →
    (0 < t.(Stage_Budget).(Budget_MaxProviderInvocations) <= n)%Z) as Hn.
  { intros t Ht Ha. destruct (elem_of_shareBudget _ _ _ Ht Ha) as (s & _ & Hs & ->). fold n.
    apply share_positive; [lia|done]. }
  split_and!; [intros; by apply Hn| | |apply shareBudget_only].
  - etrans; [apply (worker_sum_le _ n); intros; by apply Hn|]. rewrite shareBudget_count. unfold n.
    destruct (decide (agent_count stages = 0%nat)) as [->|Hz]; [lia|].
    destruct (share_of_bounds e.(Envelope_MaxProviderInvocations) (agent_count stages)); [lia|].
    by rewrite Z.max_r by lia.
  - intros Hw. destruct (share_of_bounds _ _ Hw) as [Hw1 Hw2].
    assert (∀ t, t ∈ shareBudget stages e → is_agent t = true →
      (0 < t.(Stage_Budget).(Budget_MaxWallSeconds) <= share_of e.(Envelope_MaxWallSeconds) (agent_count stages))%Z) as Hb.
    { intros t Ht Ha. destruct (elem_of_shareBudget _ _ _ Ht Ha) as (s & _ & Hs & ->). fold n.
      rewrite (proj2 (Z.ltb_lt 0 e.(Envelope_MaxWallSeconds))) by lia.
      destruct (share_budget n (share_of e.(Envelope_MaxWallSeconds) (agent_count stages)) s Hs) as [_ ->]. cbv zeta.
      rewrite (proj2 (Z.ltb_lt 0 (share_of _ _))) by lia. simpl.
      destruct (Z.leb_spec s.(Stage_Budget).(Budget_MaxWallSeconds) 0); simpl; [lia|].
      destruct (Z.ltb_spec (share_of e.(Envelope_MaxWallSeconds) (agent_count stages)) s.(Stage_Budget).(Budget_MaxWallSeconds)); lia. }
    split; [intros; by apply Hb|].
    etrans; [apply (worker_sum_le _ (share_of e.(Envelope_MaxWallSeconds) (agent_count stages))); intros; by apply Hb|].
    by rewrite shareBudget_count.
Qed.

(* ------------------------------------------------------------------ *)
(** * The canonical order *)

Lemma stages_by_id_lookup stages id s :
  NoDup (stage_names stages) → stages_by_id stages !! id = Some s ↔ s ∈ stages ∧ s.(Stage_ID) = id.
Proof.
  unfold stages_by_id.
  enough (∀ m : gmap string PlanStage, NoDup (stage_names stages) →
    fold_left (λ byID s, <[s.(Stage_ID) := s]> byID) stages m !! id = Some s ↔
      s ∈ stages ∧ s.(Stage_ID) = id ∨ id ∉ stage_names stages ∧ m !! id = Some s) as Hg.
  { intros Hnd. rewrite Hg by done. rewrite lookup_empty. naive_solver. }
  unfold stage_names. induction stages as [|t l IH]; intros m; simpl.
  { intros _. split; [|by intros [[?%not_elem_of_nil _]|[_ ?]]]. intros ?. right. split; [apply not_elem_of_nil|done]. }
  intros [Ht Hnd]%NoDup_cons. rewrite IH by done. rewrite !elem_of_cons. split.
  - intros [[? ?]|[Hn Hl]]; [by left; split; [right|]|]. apply lookup_insert_Some in Hl as [[<- <-]|[Hne Hl]].
    + left. split; [by left|done].
    + right. split; [|done]. intros [->|?]; done.
  - intros [[[->|Hs] <-]|[Hn Hl]].
    + right. split; [done|apply lookup_insert_eq].
    + by left.
    + right. split; [tauto|]. rewrite lookup_insert_ne; [done|]. intros He. apply Hn. by left.
Qed.

Definition sorted_dependencies (s : PlanStage) : PlanStage := stage_with_deps s (sort_strings s.(Stage_DependsOn)).

(** With distinct names and acyclic dependencies the order is the one of
    [kahn]. *)
Lemma canonicalOrder_ordered `{!MapRange} stages :
  NoDup (stage_names stages) → ranked stages →
  ∃ order remaining, kahn stages = Some (order, remaining) ∧ order ≡ₚ stage_names stages ∧ Topo.ordered stages order
    ∧ canonicalOrder stages = sorted_dependencies <$> omap (λ id, stages_by_id stages !! id) order.
Proof.
  intros Hnd Hr. assert (NoDup (node_ids stages)) as Hni by exact Hnd. destruct (kahn_total stages) as (order & remaining & Hk & _). exists order, remaining.
  pose proof (kahn_complete _ _ _ Hni Hr Hk) as Hp. destruct (kahn_ordered _ _ _ Hni Hk) as (Ho & _).
  split_and!; [done..|]. unfold canonicalOrder. rewrite Hk, (Permutation_length Hp). unfold node_ids. rewrite length_fmap, Nat.eqb_refl.
  destruct (existsb _ stages) eqn:He; [|done]. exfalso.
  apply existsb_elem in He as (s & Hs & (d & Hd & Hx)%existsb_elem). rewrite bool_decide_eq_true in Hx.
  destruct Hr as [rank Hr]. destruct (Hr s d Hs Hd) as [(u & -> & Hu)%list_elem_of_fmap _].
  assert (stages_by_id stages !! u.(Stage_ID) = Some u) as Hl by (by apply stages_by_id_lookup).
  simpl in Hx. congruence.
Qed.

(** Looking the stages of an order up gives back those stages. *)
Lemma omap_stages_by_id stages order :
  NoDup (stage_names stages) → (∀ id, id ∈ order → id ∈ stage_names stages) →
  stage_names (omap (λ id, stages_by_id stages !! id) order) = order
  ∧ ∀ s, s ∈ omap (λ id, stages_by_id stages !! id) order ↔ s ∈ stages ∧ s.(Stage_ID) ∈ order.
Proof.
  intros Hnd Ho. split.
  - induction order as [|id l IH]; [done|]. assert (id ∈ id :: l) as (s & -> & Hs)%Ho%list_elem_of_fmap by by left.
    csimpl. assert (stages_by_id stages !! s.(Stage_ID) = Some s) as -> by (by apply stages_by_id_lookup).
    csimpl. f_equal. apply IH. intros. apply Ho. by right.
  - intros s. rewrite list_elem_of_omap. setoid_rewrite stages_by_id_lookup; [|done..]. naive_solver.
Qed.

Lemma sorted_dependencies_names stages : stage_names (sorted_dependencies <$> stages) = stage_names stages.
Proof. unfold stage_names. rewrite <- list_fmap_compose. apply list_fmap_ext. intros _ s _. by destruct s. Qed.

(** Every stage comes after the stages it depends on. *)
Definition dependencies_first (stages : list PlanStage) : Prop :=
  ∀ l1 s l2, stages = l1 ++ s :: l2 → ∀ d, d ∈ s.(Stage_DependsOn) → d ∈ stage_names l1.

Lemma canonicalOrder_dependencies `{!MapRange} stages :
  NoDup (stage_names stages) → ranked stages → dependencies_first (canonicalOrder stages).
Proof.
  intros Hnd Hr. destruct (canonicalOrder_ordered stages Hnd Hr) as (order & remaining & Hk & Hp & Ho & Hc).
  destruct (omap_stages_by_id stages order Hnd) as [Hn Hin]; [intros id; by rewrite Hp|].
  rewrite Hc. intros l1 t l2 Hs d Hd.
  apply fmap_app_inv in Hs as (m1 & m2 & -> & (s & m & -> & -> & ->)%symmetry%fmap_cons_inv & Hs).
  rewrite sorted_dependencies_names.
  assert (Stage_DependsOn (sorted_dependencies s) = sort_strings s.(Stage_DependsOn)) as Hd' by by destruct s.
  rewrite Hd', elem_of_sort_strings in Hd.
  assert (order = stage_names m1 ++ s.(Stage_ID) :: stage_names m) as He by (rewrite <- Hn, Hs; unfold stage_names; by rewrite fmap_app).
  refine (Ho _ _ s _ He d Hd). apply Hin. rewrite Hs. apply elem_of_app. right. by left.
Qed.

(** C39: Plans state their stages one way.  For stages with distinct names and
    acyclic dependencies, whatever order they come in, the result lists the same stages, each after the stages it depends on, and is
    the same list. *)
Theorem canonicalOrder_canonical `{!MapRange} stages :
  NoDup (stage_names stages) → ranked stages →
  canonicalOrder stages ≡ₚ sorted_dependencies <$> stages
  ∧ dependencies_first (canonicalOrder stages)
  ∧ ∀ stages', stages' ≡ₚ stages → canonicalOrder stages' = canonicalOrder stages.
Proof.
  intros Hnd Hr. split_and!; [|by apply canonicalOrder_dependencies|];
    destruct (canonicalOrder_ordered stages Hnd Hr) as (order & remaining & Hk & Hp & Ho & Hc); rewrite Hc.
  - destruct (omap_stages_by_id stages order Hnd) as [Hn Hin]; [intros id; by rewrite Hp|]. f_equiv. apply NoDup_Permutation.
    + apply (NoDup_fmap_1 Stage_ID). fold (stage_names (omap (λ id, stages_by_id stages !! id) order)). by rewrite Hn, Hp.
    + by apply (NoDup_fmap_1 Stage_ID).
    + intros s. rewrite Hin, Hp. unfold stage_names. rewrite list_elem_of_fmap. naive_solver.
  - intros stages' Hp'. assert (NoDup (stage_names stages')) as Hnd' by (unfold stage_names; by rewrite Hp').
    assert (ranked stages') as Hr'.
    { destruct Hr as [rank Hr]. exists rank. intros u d Hu Hd. unfold node_ids. rewrite Hp' in Hu |- *. by apply Hr. }
    destruct (canonicalOrder_ordered stages' Hnd' Hr') as (order' & remaining' & Hk' & _ & _ & Hc').
    rewrite (kahn_permute stages' stages) in Hk' by done. rewrite Hk in Hk'. injection Hk' as <- <-.
    rewrite Hc'. f_equal. apply list_omap_ext, Forall_Forall2_diag, Forall_forall.
    intros id _. apply option_eq. intros s.
    rewrite !stages_by_id_lookup by done. by rewrite Hp'.
Qed.

(* ------------------------------------------------------------------ *)
(** * The envelope *)

(** An envelope no wider than the operator's ceiling. *)
Record narrower (e ceiling : PlanBudgetEnvelope) : Prop := {
  narrower_runs : (0 < e.(Envelope_MaxChildRuns) <= ceiling.(Envelope_MaxChildRuns))%Z;
  narrower_concurrency : (0 < e.(Envelope_MaxConcurrency) <= ceiling.(Envelope_MaxConcurrency))%Z;
  narrower_invocations : (0 < e.(Envelope_MaxProviderInvocations) <= ceiling.(Envelope_MaxProviderInvocations))%Z;
  narrower_wall : (e.(Envelope_MaxWallSeconds) <= ceiling.(Envelope_MaxWallSeconds))%Z;
  narrower_cost : ∀ c, ceiling.(Envelope_MaxCostMicros) = Some c →
    ∃ m, e.(Envelope_MaxCostMicros) = Some m ∧ (m <= c)%Z
}.

Lemma minPositive_bounds c p :
  (minPositive c p <= c)%Z ∧ ((0 < c)%Z → (0 < minPositive c p)%Z).
Proof. unfold minPositive. destruct (Z.ltb_spec 0 p), (Z.ltb_spec p c); simpl; lia. Qed.

Lemma tighten_narrower c p :
  (0 < c.(Envelope_MaxChildRuns))%Z → (0 < c.(Envelope_MaxConcurrency))%Z → (0 < c.(Envelope_MaxProviderInvocations))%Z →
  narrower (tighten c p) c.
Proof.
  intros H1 H2 H3. split; simpl.
  - pose proof (minPositive_bounds c.(Envelope_MaxChildRuns) p.(Envelope_MaxChildRuns)). lia.
  - pose proof (minPositive_bounds c.(Envelope_MaxConcurrency) p.(Envelope_MaxConcurrency)). lia.
  - pose proof (minPositive_bounds c.(Envelope_MaxProviderInvocations) p.(Envelope_MaxProviderInvocations)). lia.
  - apply minPositive_bounds.
  - intros m ->. destruct (Envelope_MaxCostMicros p) as [q|]; [|by exists m].
    eexists; split; [done|]. destruct (Z.ltb_spec q m); lia.
Qed.

Lemma resolveEnvelope_ok input stages e :
  resolveEnvelope input stages = Ok e →
  narrower e input.(Input_Envelope)
  ∧ (Z.of_nat (agent_count stages) <= e.(Envelope_MaxChildRuns))%Z
  ∧ (Z.of_nat (agent_count stages) <= e.(Envelope_MaxProviderInvocations))%Z.
Proof.
  unfold resolveEnvelope. rewrite !refuse_if_then, !orb_false_iff, !Z.leb_gt, !Z.ltb_ge.
  intros ([[H1 H2] H3] & Hr & Hi & [= <-]). split; [|done].
  assert (narrower input.(Input_Envelope) input.(Input_Envelope)) by (split; [lia..|intros c ->; by exists c]).
  destruct (Input_Template input) as [t|]; [|done]. destruct (Template_BudgetEnvelope t) as [p|]; [|done].
  by apply tighten_narrower.
Qed.

(* ------------------------------------------------------------------ *)
(** * The compiled plan *)

(** What of the stages the order is about. *)
Definition stage_pairs (stages : list PlanStage) : list (string * list string) :=
  (λ s, (s.(Stage_ID), s.(Stage_DependsOn))) <$> stages.

Lemma stage_pairs_names stages : (stage_pairs stages).*1 = stage_names stages.
Proof. unfold stage_pairs. by rewrite <- list_fmap_compose. Qed.

Lemma dependencies_first_pairs l l' : stage_pairs l = stage_pairs l' → dependencies_first l → dependencies_first l'.
Proof.
  intros He Hf m1 t m2 -> d Hd. unfold stage_pairs in He at 2. rewrite fmap_app, fmap_cons in He.
  apply fmap_app_inv in He as (l1 & l2 & H1 & (s & k & Hs & _ & ->)%symmetry%fmap_cons_inv & ->).
  fold (stage_pairs l1) (stage_pairs m1) in H1. rewrite <- stage_pairs_names, H1, stage_pairs_names.
  injection Hs as _ Hs. eapply (Hf l1 s k); [done|]. by rewrite <- Hs.
Qed.

Lemma dependencies_first_ordered stages :
  NoDup (stage_names stages) → dependencies_first stages → Topo.ordered stages (stage_names stages).
Proof.
  intros Hnd Hf l1 l2 u Hu He d Hd. apply list_elem_of_split in Hu as (m1 & m2 & Hs).
  rewrite Hs in He, Hnd. unfold stage_names in He, Hnd. rewrite fmap_app, fmap_cons in He, Hnd.
  assert (Stage_ID <$> m1 = l1) as <-; [|by eapply (Hf m1 u m2)].
  apply NoDup_app in Hnd as (_ & Hn1 & [Hn2 _]%NoDup_cons).
  apply app_eq_app in He as [k [[H1 H2]|[H1 H2]]]; simpl in *.
  - destruct k as [|x k]; [by rewrite app_nil_r in H1|]. simpl in H2. injection H2 as <- H2.
    exfalso. eapply (Hn1 (node_id u)); [|by left]. rewrite H1. apply elem_of_app. right. by left.
  - destruct k as [|x k]; [by rewrite app_nil_r in H1|]. simpl in H2. injection H2 as <- H2.
    exfalso. apply Hn2. rewrite H2. apply elem_of_app. right. by left.
Qed.

Lemma canonicalOrder_cases `{!MapRange} stages :
  NoDup (stage_names stages) ∧ ranked stages ∨ canonicalOrder stages = stages.
Proof.
  unfold canonicalOrder. destruct (existsb _ _); [by right|].
  destruct (kahn_total stages) as (order & remaining & Hk & _). rewrite Hk.
  destruct (length order =? length stages)%nat eqn:Hl; [|by right]. left. apply Nat.eqb_eq in Hl.
  by apply (kahn_full _ _ _ Hk) in Hl.
Qed.

Lemma canonicalOrder_first `{!MapRange} stages :
  NoDup (stage_names (canonicalOrder stages)) → ranked (canonicalOrder stages) → dependencies_first (canonicalOrder stages).
Proof.
  intros Hnd Hr. assert (NoDup (stage_names stages) ∧ ranked stages) as [Hnd' Hr'].
  { destruct (canonicalOrder_cases stages) as [|He]; [done|]. by rewrite He in Hnd, Hr. }
  by apply canonicalOrder_dependencies.
Qed.

Lemma bindAcceptanceFeature_pairs `{!MapRange} stages feature bound :
  bindAcceptanceFeature stages feature = Ok bound → stage_pairs bound = stage_pairs stages.
Proof.
  unfold bindAcceptanceFeature. case_bool_decide; [by intros [= <-]|].
  intros [_ ([[i name]|] & _ & Hb)%rbind_ok]%refuse_if_then; [|done]. injection Hb as <-. unfold stage_pairs.
  apply list_eq. intros j. rewrite !list_lookup_fmap. destruct (decide (i = j)) as [<-|Hne].
  - rewrite list_lookup_alter_eq. destruct (stages !! i) as [t|]; [|done]. by destruct t.
  - by rewrite list_lookup_alter_ne.
Qed.

Lemma shareBudget_pairs stages e : stage_pairs (shareBudget stages e) = stage_pairs stages.
Proof.
  unfold shareBudget. destruct (_ =? 0)%nat; [done|]. unfold stage_pairs. rewrite <- list_fmap_compose.
  apply list_fmap_ext. intros _ s _. simpl. unfold share_stage. destruct (is_agent s); by destruct s.
Qed.

Lemma compile_plan_ok `{!MapRange, !Canonicalizer, !PlanSchema} input plan :
  compile_plan input = Ok plan →
  ∃ filled bound, bindAcceptanceFeature (canonicalOrder filled) input.(Input_AcceptanceFeature) = Ok bound
    ∧ resolveEnvelope input bound = Ok plan.(Plan_BudgetEnvelope)
    ∧ plan.(Plan_Stages) = shareBudget bound plan.(Plan_BudgetEnvelope)
    ∧ plan = with_plan_digest (plan_of input plan.(Plan_BudgetEnvelope) plan.(Plan_Stages)) plan.(Plan_Digest)
    ∧ validate_plan plan (validation_of input) = Ok tt
    ∧ plan_ContentDigest plan = Ok plan.(Plan_Digest)
    ∧ schema_EngineeringPlan plan = true.
Proof.
  unfold compile_plan. intros [_ (bound & Hs & (e & He & Hc)%rbind_ok)%rbind_ok]%check_then.
  apply check_then in Hc as [Hv (digest & Hd%wrap_ok & [Hx%negb_false_iff [= <-]]%refuse_if_then)%rbind_ok].
  apply wrap_ok in Hv. unfold compiled_stages in Hs.
  apply rbind_ok in Hs as (base & _ & (obliged & _ & (filled & _ & Hb)%rbind_ok)%rbind_ok).
  exists filled, bound. split_and!; [exact Hb|exact He|done|done| |exact Hd|exact Hx].
  apply validate_plan_ok in Hv. by apply validate_plan_ok.
Qed.

Definition view_pairs (views : list stageView) : list (string * list string) :=
  (λ v, (v.(View_ID), v.(View_DependsOn))) <$> views.

Lemma planStageViews_pairs plan : view_pairs (planStageViews plan) = stage_pairs plan.(Plan_Stages).
Proof. unfold view_pairs, planStageViews, stage_pairs. by rewrite <- list_fmap_compose. Qed.

Lemma planStageViews_names plan : stage_ids (planStageViews plan) = stage_names plan.(Plan_Stages).
Proof. unfold stage_ids, planStageViews, stage_names. by rewrite <- list_fmap_compose. Qed.

(** A plan the graph laws admit has a graph of its own stages. *)
Lemma admitted_ranked `{!MapRange} plan stages :
  validateStageGraph (planStageViews plan) = Ok tt → stage_pairs plan.(Plan_Stages) = stage_pairs stages →
  NoDup (stage_names stages) ∧ ranked stages.
Proof.
  intros (_ & Hnd & _ & _ & [rank Hr] & _)%validateStageGraph_ok Hp. rewrite planStageViews_names in Hnd.
  assert (stage_names plan.(Plan_Stages) = stage_names stages) as Hn by (by rewrite <- !stage_pairs_names, Hp).
  rewrite Hn in Hnd. split; [done|]. exists rank. intros u d Hu Hd.
  assert ((u.(Stage_ID), u.(Stage_DependsOn)) ∈ view_pairs (planStageViews plan)) as (v & [= Hv1 Hv2] & Hv)%list_elem_of_fmap.
  { rewrite planStageViews_pairs, Hp. by apply (list_elem_of_fmap_2 (λ s, (s.(Stage_ID), s.(Stage_DependsOn)))). }
  destruct (Hr v d Hv) as [Hin Hlt]; [simpl; by rewrite <- Hv2|]. simpl in *. rewrite Hv1. split; [|done].
  change (d ∈ stage_ids (planStageViews plan)) in Hin. by rewrite planStageViews_names, Hn in Hin.
Qed.

(** C15: What [Compile] returns is a plan the validator accepts, identified by the
    digest of its own content, inside the operator's envelope, with every
    stage after what it depends on and after the stages it must differ from,
    and every worker given a positive part of the invocations. *)
Theorem compile_plan_sound `{!MapRange, !Canonicalizer, !PlanSchema} input plan :
  compile_plan input = Ok plan →
  validate_plan plan (validation_of input) = Ok tt
  ∧ plan_ContentDigest plan = Ok plan.(Plan_Digest) ∧ schema_EngineeringPlan plan = true
  ∧ narrower plan.(Plan_BudgetEnvelope) input.(Input_Envelope)
  ∧ dependencies_first plan.(Plan_Stages)
  ∧ (∀ l1 s l2 i other, plan.(Plan_Stages) = l1 ++ s :: l2 → s.(Stage_Independence) = Some i →
       other ∈ i.(Independence_DifferentFrom) → other ∈ stage_names l1)
  ∧ (∀ s, s ∈ plan.(Plan_Stages) → is_agent s = true → (0 < s.(Stage_Budget).(Budget_MaxProviderInvocations))%Z).
Proof.
  intros (filled & bound & Hb & He & Hs & _ & Hv & Hd & Hx)%compile_plan_ok.
  destruct (resolveEnvelope_ok _ _ _ He) as (Hn & _ & Hi).
  pose proof Hv as (_ & _ & _ & Hg & _)%validate_plan_ok%reasons_nil.
  assert (stage_pairs plan.(Plan_Stages) = stage_pairs (canonicalOrder filled)) as Hp.
  { rewrite Hs, shareBudget_pairs. by eapply bindAcceptanceFeature_pairs. }
  assert (dependencies_first plan.(Plan_Stages)) as Hf.
  { eapply dependencies_first_pairs; [symmetry; exact Hp|]. by apply canonicalOrder_first; eapply admitted_ranked. }
  split_and!; [done..| |].
  - intros l1 s l2 i other Hsplit Hind Ho. apply validateStageGraph_ok in Hg as (_ & Hnd & _ & Hst & _).
    rewrite planStageViews_names in Hnd. pose proof (dependencies_first_ordered _ Hnd Hf) as Hord.
    assert (Topo.ordered (planStageViews plan) (stage_names plan.(Plan_Stages))) as Hvo.
    { intros k1 k2 v (t & -> & Ht)%list_elem_of_fmap. apply (Hord k1 k2 t Ht). }
    assert (s ∈ plan.(Plan_Stages)) as Hin by (rewrite Hsplit; apply elem_of_app; right; by left).
    eapply list_elem_of_fmap_2 in Hin. destruct (stage_independence _ _ (Hst _ Hin) i Hind) as [_ _ Hup].
    destruct (Hup other Ho) as (_ & Ht & _). refine (tc_before _ _ _ _ Hvo _ Ht _ (stage_names l2) _).
    + by rewrite <- planStageViews_names.
    + rewrite Hsplit. unfold stage_names. by rewrite fmap_app.
  - rewrite Hs. intros s Hin Ha. destruct (elem_of_shareBudget _ _ _ Hin Ha) as (t & _ & Ht & ->).
    apply share_positive; [lia|done].
Qed.

(* ------------------------------------------------------------------ *)
(** * Concrete plans *)

Definition obliging_contract (roles : list RoleRequirement) : EngineeringWorkContract :=
  MkContract "0.1" "contract" "1" "change" [] (MkSubject "owner/repo" "base") (MkContractScope StagePredicted [] []) [] ∅ ∅
    (<["tests" := MkRequiredClaim "test" false]> ∅) [] [] [] (Some (MkPlanRequirements roles [] []))
    (MkContractProvenance (MkObjectRevision "model" "1") (MkObjectRevision "policy" "1") "compiler-v0.1" None).

Definition compile_input (roles : list RoleRequirement) (wall : Z) : PlanCompileInput :=
  MkPlanCompileInput "plan" 1 "change" (MkSubject "owner/repo" "base") (obliging_contract roles)
    (MkProjectModel "0.1" "model" "1" (MkSubject "owner/repo" "base") None None None) [] None "" (MkEnvelope 6 2 12 wall None)
    [] None None None nothing_consumed "" "".

Definition independent_reviewer : RoleRequirement :=
  MkRoleRequirement RoleReviewer [] (Some (MkIndependence IndependenceVendorFamily [] false)) "" "an independent review".
Definition required_tester : RoleRequirement := MkRoleRequirement RoleTester [] None "" "tests are written".

Definition compile_example (roles : list RoleRequirement) (wall : Z) : result CompileError EngineeringPlan :=
  @compile_plan range_forward plain_canonicalizer any_plan (compile_input roles wall).

Definition compiled_graph (compiled : result CompileError EngineeringPlan) : option (list (string * list string)) :=
  match compiled with Ok plan => Some (stage_pairs plan.(Plan_Stages)) | Err _ => None end.

Example compile_reviewed :
  compiled_graph (compile_example [independent_reviewer] 600) =
    Some [("implementation", []); ("assurance", ["implementation"]); ("reviewer", ["implementation"])].
Proof. vm_compute. reflexivity. Qed.

(** The reviewer is bound to the producers the plan has when its obligation is
    applied: a producer a later obligation adds is not among them, and the
    validator then refuses the plan the compiler built. *)
Example compile_reviewer_before_tester :
  compile_example [independent_reviewer; required_tester] 600
  = Err (PlanRefused (PlanInvalid "plan" [ProducerNotNamed "reviewer" "tester"])).
Proof. vm_compute. reflexivity. Qed.

Example compile_tester_before_reviewer :
  is_ok (compile_example [required_tester; independent_reviewer] 600) = true.
Proof. vm_compute. reflexivity. Qed.

(** The gate of the minimal plan does not wait for the producer the policy
    adds. *)
Example compile_gate_before_producer :
  compiled_graph (compile_example [required_tester] 600) =
    Some [("implementation", []); ("assurance", ["implementation"]); ("tester", ["implementation"])].
Proof. vm_compute. reflexivity. Qed.

(** With fewer seconds than workers nobody has a wall bound. *)
Example compile_unbounded_wall :
  match compile_example [independent_reviewer] 1 with
  | Ok plan => (λ s, s.(Stage_Budget).(Budget_MaxWallSeconds)) <$> plan.(Plan_Stages)
  | Err _ => []
  end = [0; 0; 0]%Z.
Proof. vm_compute. reflexivity. Qed.

Definition two_workers : list PlanStage :=
  [new_stage "implementation" StageAgent RoleImplementer [] [] None ""; new_stage "gate" StageAssuranceGate "" [] ["tests"] None "";
   new_stage "review" StageAgent RoleReviewer ["implementation"] [] None ""].

Lemma shareBudget_bounds_witness :
  (worker_sum (λ s, s.(Stage_Budget).(Budget_MaxProviderInvocations)) (shareBudget two_workers (MkEnvelope 2 1 5 7 None)) <= 5)%Z
  ∧ (worker_sum (λ s, s.(Stage_Budget).(Budget_MaxWallSeconds)) (shareBudget two_workers (MkEnvelope 2 1 5 7 None)) <= 7)%Z.
Proof.
  destruct (shareBudget_bounds two_workers (MkEnvelope 2 1 5 7 None)) as (_ & Hi & Hw & _); [vm_compute; discriminate|].
  split; [exact Hi|]. apply Hw. vm_compute. split; [reflexivity|discriminate].
Defined.

Lemma canonicalOrder_canonical_witness :
  @canonicalOrder range_forward (rev two_workers) = @canonicalOrder range_forward two_workers
  ∧ dependencies_first (@canonicalOrder range_forward two_workers).
Proof.
  destruct (@canonicalOrder_canonical range_forward two_workers) as (_ & Hd & Hp).
  - apply (bool_decide_eq_true_1 _). reflexivity.
  - exists (λ id, if id ≟ "review" then 1%nat else 0%nat). intros u d Hu Hd.
    repeat (apply elem_of_cons in Hu as [->|Hu]; simpl in *; [try by apply not_elem_of_nil in Hd|]);
      [|by apply not_elem_of_nil in Hu].
    apply list_elem_of_singleton in Hd as ->. split; [by left|]. vm_compute. lia.
  - split; [|exact Hd]. apply Hp. symmetry. apply Permutation_rev.
Defined.

Lemma compile_plan_sound_witness :
  ∃ plan, compile_example [independent_reviewer] 600 = Ok plan
    ∧ @validate_plan range_forward plan (validation_of (compile_input [independent_reviewer] 600)) = Ok tt
    ∧ dependencies_first plan.(Plan_Stages).
Proof.
  assert (is_ok (compile_example [independent_reviewer] 600) = true) as (plan & Hp)%is_ok_true by (vm_compute; reflexivity).
  exists plan. split; [exact Hp|].
  destruct (@compile_plan_sound range_forward plain_canonicalizer any_plan _ plan Hp) as (Hv & _ & _ & _ & Hd & _).
  split; [exact Hv|exact Hd].
Defined.
