(* ===== verification/PlanObligations.v ===== *)
(** What the policy adds to a plan in [planning/compiler.go]: the obligations
    only strengthen stages or add them; what a role asks for against the plan it
    is applied to, and every capability and gate, is met when the loop ends. *)

From S2P Require Import Prelude GoStrings Domain Plan Reach PlanGraph PlanValidate PlanCompiler.
From stdpp Require Import relations options.

(* ------------------------------------------------------------------ *)
(** * Strengthening *)

(** An independence requirement that asks for no less; a stage never differs
    from itself. *)
Definition no_weaker_for (id : string) (before after : IndependenceRequirement) : Prop :=
  (dimensionStrength before.(Independence_Dimension) <= dimensionStrength after.(Independence_Dimension))%Z
  ∧ ∀ peer, peer ∈ before.(Independence_DifferentFrom) → peer ≠ id → peer ∈ after.(Independence_DifferentFrom).

(** The same work, with at least the same demands.  Capabilities outside the
    known vocabulary and empty claims are not demands. *)
Record strengthened (before after : PlanStage) : Prop := {
  strengthened_work : after.(Stage_ID) = before.(Stage_ID) ∧ after.(Stage_Kind) = before.(Stage_Kind)
    ∧ after.(Stage_Role) = before.(Stage_Role) ∧ after.(Stage_DependsOn) = before.(Stage_DependsOn)
    ∧ after.(Stage_Action) = before.(Stage_Action) ∧ after.(Stage_Objective) = before.(Stage_Objective)
    ∧ after.(Stage_ExecutionKind) = before.(Stage_ExecutionKind);
  strengthened_capabilities : ∀ c, c ∈ before.(Stage_RequiresCapabilities) → c ∈ EngineeringCapabilities →
    c ∈ after.(Stage_RequiresCapabilities);
  strengthened_trust : (trustStrength before.(Stage_TrustRequirement) <= trustStrength after.(Stage_TrustRequirement))%Z;
  strengthened_independence : ∀ i, before.(Stage_Independence) = Some i →
    ∃ j, after.(Stage_Independence) = Some j ∧ no_weaker_for before.(Stage_ID) i j;
  strengthened_claims : ∀ c, c ∈ before.(Stage_RequiredClaims) → c ≠ "" → c ∈ after.(Stage_RequiredClaims)
}.

#[export] Instance no_weaker_for_preorder id : PreOrder (no_weaker_for id).
Proof.
  split; [by intros i; split|]. intros i j k [H1 H2] [H3 H4]. split; [lia|]. intros p Hp Hne. by apply H4; [apply H2|].
Qed.

#[export] Instance strengthened_preorder : PreOrder strengthened.
Proof.
  split.
  - intros s. split; [done|done|done| |done]. intros i Hi. by exists i.
  - intros s t u [(Ha1 & Ha2 & Ha3 & Ha4 & Ha5 & Ha6 & Ha7) Hb Hc Hd He] [(Hf1 & Hf2 & Hf3 & Hf4 & Hf5 & Hf6 & Hf7) Hg Hh Hi Hj].
    split; [split_and!; congruence|by auto|lia| |by auto].
    intros i Hs. destruct (Hd i Hs) as (j & Ht & Hw). destruct (Hi j Ht) as (k & Hu & Hw').
    exists k. split; [done|]. rewrite Ha1 in Hw'. by etrans.
Qed.

(** The stages stay where they are, none weaker, and others may follow. *)
Definition grows (before after : list PlanStage) : Prop :=
  ∃ kept added, after = kept ++ added ∧ Forall2 strengthened before kept.

#[export] Instance grows_preorder : PreOrder grows.
Proof.
  split; [intros l; exists l, []; by rewrite app_nil_r|].
  intros l1 ? ? (k1 & a1 & -> & H1) (k2 & a2 & -> & H2). apply Forall2_app_inv_l in H2 as (m1 & m2 & H2 & _ & ->).
  exists m1, (m2 ++ a2). rewrite <- app_assoc. split; [done|]. by etrans.
Qed.

Lemma grows_app l added : grows l (l ++ added).
Proof. by exists l, added. Qed.

Lemma grows_insert l i s s' : l !! i = Some s → strengthened s s' → grows l (<[i := s']> l).
Proof.
  intros Hl Hs. exists (<[i := s']> l), []. rewrite app_nil_r. split; [done|].
  rewrite <- (list_insert_id l i s) at 1 by done. by apply Forall2_insert.
Qed.

Lemma grows_alter f l i : (∀ s, strengthened s (f s)) → grows l (alter f i l).
Proof.
  intros Hf. exists (alter f i l), []. rewrite app_nil_r. split; [done|]. apply Forall2_lookup. intros j.
  destruct (decide (i = j)) as [<-|Hne].
  - rewrite list_lookup_alter_eq. destruct (l !! i); by constructor.
  - rewrite list_lookup_alter_ne by done. destruct (l !! j); by constructor.
Qed.

Lemma grows_elem l l' s : grows l l' → s ∈ l → ∃ s', s' ∈ l' ∧ strengthened s s'.
Proof.
  intros (k & a & -> & Hf) Hs. apply list_elem_of_lookup in Hs as [i Hi].
  destruct (Forall2_lookup_l _ _ _ _ _ Hf Hi) as (s' & Hk & Hss). exists s'. split; [|done].
  apply elem_of_app. left. by eapply list_elem_of_lookup_2.
Qed.

Lemma grows_fold {A} (f : list PlanStage → A → list PlanStage) l stages :
  (∀ stages x, grows stages (f stages x)) → grows stages (fold_left f l stages).
Proof. intros Hf. revert stages; induction l as [|x l IH]; intros stages; simpl; [done|]. etrans; [apply Hf|apply IH]. Qed.

(* ------------------------------------------------------------------ *)
(** * Each obligation *)

Lemma elem_of_mergeCapabilities c l1 l2 :
  c ∈ mergeCapabilities l1 l2 ↔ (c ∈ l1 ∨ c ∈ l2) ∧ c ∈ EngineeringCapabilities.
Proof. unfold mergeCapabilities. by rewrite list_elem_of_filter, elem_of_app. Qed.

Lemma elem_of_sortedKeysOf x s : x ∈ sortedKeysOf s ↔ x ∈ s.
Proof. unfold sortedKeysOf. by rewrite elem_of_sort_strings, elem_of_elements. Qed.

(** The stronger dimension, every stage either side names, and the material
    producers; never the stage itself, and never nobody. *)
Lemma strengthenIndependence_ok existing required producers s planID i :
  strengthenIndependence existing required producers s planID = Ok i →
  (∀ e, existing = Some e → no_weaker_for s.(Stage_ID) e i) ∧ no_weaker_for s.(Stage_ID) required i
  ∧ (ProducesMaterialChange s.(Stage_Role) = false → ∀ p, p ∈ producers → p ≠ s.(Stage_ID) → p ∈ i.(Independence_DifferentFrom))
  ∧ s.(Stage_ID) ∉ i.(Independence_DifferentFrom) ∧ i.(Independence_DifferentFrom) ≠ []
  ∧ i.(Independence_HumanSubstitutionPermitted) = required.(Independence_HumanSubstitutionPermitted).
Proof.
  unfold strengthenIndependence. intros [_ H]%refuse_if_then.
  set (from := independent_from existing required producers s) in *.
  destruct (bool_decide_reflect (from ∖ {[s.(Stage_ID)]} = ∅)) as [He|He].
  { case_bool_decide; [done|]. by destruct (ProducesMaterialChange _). }
  injection H as <-. simpl. setoid_rewrite elem_of_sortedKeysOf.
  assert (∀ p, p ∈ from ↔ (∃ e, existing = Some e ∧ p ∈ e.(Independence_DifferentFrom)) ∨ p ∈ required.(Independence_DifferentFrom)
    ∨ ProducesMaterialChange s.(Stage_Role) = false ∧ p ∈ producers) as Hfrom.
  { intros p. unfold from, independent_from. rewrite !elem_of_union, elem_of_list_to_set.
    destruct existing as [e|], (ProducesMaterialChange _); rewrite ?elem_of_list_to_set, ?elem_of_empty; set_solver. }
  split_and!.
  - intros e ->. split; simpl; [destruct (Z.ltb_spec (dimensionStrength required.(Independence_Dimension)) (dimensionStrength e.(Independence_Dimension))); lia|].
    intros p Hp Hne. apply elem_of_sortedKeysOf, elem_of_difference. rewrite Hfrom. set_solver.
  - split; simpl.
    + destruct existing as [e|]; [|done].
      destruct (Z.ltb_spec (dimensionStrength required.(Independence_Dimension)) (dimensionStrength e.(Independence_Dimension))); lia.
    + intros p Hp Hne. apply elem_of_sortedKeysOf, elem_of_difference. rewrite Hfrom. set_solver.
  - intros Hm p Hp Hne. apply elem_of_difference. rewrite Hfrom. set_solver.
  - set_solver.
  - intros Hn. apply He. apply set_eq. intros x. rewrite <- elem_of_sortedKeysOf, Hn. set_solver.
  - done.
Qed.

(** A worker that answers a role requirement in a plan: unless its own role
    produces, it is to differ from every material producer of the plan that does
    not itself wait for it, as well as from whom the requirement names. *)
Definition waits_for (plan : list PlanStage) : relation string := tc (edge (stage_dependencies plan)).
Record role_met (plan : list PlanStage) (r : RoleRequirement) (s : PlanStage) : Prop := {
  role_met_work : s.(Stage_Kind) = StageAgent ∧ s.(Stage_Role) = r.(Role_Role);
  role_met_capabilities : ∀ c, c ∈ r.(Role_Capabilities) → c ∈ EngineeringCapabilities → c ∈ s.(Stage_RequiresCapabilities);
  role_met_trust : (trustStrength r.(Role_TrustRequirement) <= trustStrength s.(Stage_TrustRequirement))%Z;
  role_met_independence : ∀ required, r.(Role_Independence) = Some required →
    ∃ i, s.(Stage_Independence) = Some i ∧ no_weaker_for s.(Stage_ID) required i
      ∧ (ProducesMaterialChange r.(Role_Role) = false → ∀ p, p ∈ materialProducerStages plan → p ≠ s.(Stage_ID) →
           ¬ waits_for plan p s.(Stage_ID) → p ∈ i.(Independence_DifferentFrom))
}.

Lemma role_met_strengthened plan r s s' : role_met plan r s → strengthened s s' → role_met plan r s'.
Proof.
  intros [[Hk Hr] Hc Ht Hi] [(Ha1 & Ha2 & Ha3 & _) Hb Hd He _]. split; [by rewrite Ha2, Ha3|by auto|lia|].
  intros required Hq. destruct (Hi required Hq) as (i & Hs & Hw & Hp). destruct (He i Hs) as (j & Hj & Hw').
  exists j. rewrite Ha1. split_and!; [done|by etrans|]. intros Hm p Hin Hne Hnw. apply Hw'; [by apply Hp|done].
Qed.

(** A plan that grows keeps its producers. *)
Lemma producers_grow l l' : grows l l' → materialProducerStages l ⊆ materialProducerStages l'.
Proof.
  intros Hg p (s & Hs & Hp & <-)%elem_of_producers. destruct (grows_elem _ _ _ Hg Hs) as (t & Ht & [(Hid & Hk & Hr & _) _ _ _ _]).
  apply elem_of_producers. exists t. split_and!; [done| |done]. unfold is_producer, is_agent in *. by rewrite Hk, Hr.
Qed.

(** The loop in four steps, each a change of one field. *)
Lemma strengthened_capabilities_with s l : strengthened s (stage_with_capabilities s (mergeCapabilities s.(Stage_RequiresCapabilities) l)).
Proof.
  destruct s. split; simpl; [done| |done| |done].
  - intros c ? ?. apply elem_of_mergeCapabilities. auto.
  - intros i Hi. by exists i.
Qed.

Lemma strengthened_claims_with s l : strengthened s (stage_with_claims s (mergeStrings s.(Stage_RequiredClaims) l)).
Proof.
  destruct s. split; simpl; [done|done|done| |].
  - intros i Hi. by exists i.
  - intros c Hc Hne. unfold mergeStrings. rewrite elem_of_sorted_unique, list_elem_of_filter, elem_of_app. auto.
Qed.

Lemma strengthened_trust_with s trust :
  (trustStrength s.(Stage_TrustRequirement) <= trustStrength trust)%Z → strengthened s (stage_with_trust s trust).
Proof. destruct s. intros Ht. split; simpl in *; [done|done|done| |done]. intros i Hi. by exists i. Qed.

Lemma strengthened_independence_with s i :
  (∀ e, s.(Stage_Independence) = Some e → no_weaker_for s.(Stage_ID) e i) → strengthened s (stage_with_independence s (Some i)).
Proof. destruct s. intros Hi. split; simpl in *; [done|done|done| |done]. intros e He. exists i. auto. Qed.

Lemma strengthened_rationale_with s rationale : strengthened s (stage_with_rationale s rationale).
Proof. destruct s. split; simpl; [done|done|done| |done]. intros i Hi. by exists i. Qed.

(** Raising the trust to what the role requires. *)
Definition raise_trust (s : PlanStage) (trust : string) : PlanStage :=
  if (trustStrength s.(Stage_TrustRequirement) <? trustStrength trust)%Z then stage_with_trust s trust else s.

Lemma raise_trust_ok s trust :
  strengthened s (raise_trust s trust)
  ∧ (trustStrength trust <= trustStrength (raise_trust s trust).(Stage_TrustRequirement))%Z.
Proof.
  unfold raise_trust. destruct (Z.ltb_spec (trustStrength s.(Stage_TrustRequirement)) (trustStrength trust)).
  - split; [apply strengthened_trust_with; lia|by destruct s].
  - split; [done|lia].
Qed.

Lemma oblige_ok stages r planID s s' :
  oblige stages r planID s = Ok s' →
  strengthened s s' ∧ (s.(Stage_Kind) = StageAgent ∧ s.(Stage_Role) = r.(Role_Role) → role_met stages r s').
Proof.
  unfold oblige. set (s1 := stage_with_capabilities s _). fold (raise_trust s1 r.(Role_TrustRequirement)).
  set (s2 := raise_trust s1 _). intros (s3 & Hi & [= <-])%rbind_ok.
  assert (strengthened s s1) as H01 by apply strengthened_capabilities_with.
  destruct (raise_trust_ok s1 r.(Role_TrustRequirement)) as [H12 Htrust]. fold s2 in H12, Htrust.
  assert (strengthened s2 s3 ∧ ∀ required, r.(Role_Independence) = Some required →
    ∃ i, s3.(Stage_Independence) = Some i ∧ no_weaker_for s3.(Stage_ID) required i
      ∧ (ProducesMaterialChange s2.(Stage_Role) = false → ∀ p, p ∈ producersExcept stages s.(Stage_ID) → p ≠ s.(Stage_ID) → p ∈ i.(Independence_DifferentFrom))) as [H23 Hind].
  { destruct (Role_Independence r) as [required|]; [|injection Hi as <-; split; [done|by intros ? ?]].
    apply rbind_ok in Hi as (i & Hi & [= <-]). destruct (strengthened_work _ _ (transitivity H01 H12)) as (Hid & _). rewrite Hid in Hi.
    apply strengthenIndependence_ok in Hi as (He & Hr & Hp & _).
    split; [by apply strengthened_independence_with|]. intros ? [= <-]. exists i. rewrite Hid in Hp.
    split_and!; [by destruct s2|by destruct s2|exact Hp]. }
  assert (strengthened s3 (if s3.(Stage_Rationale) ≟ "" then stage_with_rationale s3 (policy_source +:+ ": " +:+ r.(Role_Statement)) else s3))
    as H34 by (case_bool_decide; [apply strengthened_rationale_with|done]).
  assert (strengthened s s3) as H03 by (do 2 (etrans; [done|]); done). split; [by etrans|].
  intros Hw. eapply role_met_strengthened; [|exact H34]. split.
  - destruct (strengthened_work _ _ H03) as (_ & -> & -> & _). done.
  - intros c Hc Hk. apply (strengthened_capabilities _ _ H23 c); [|done].
    apply (strengthened_capabilities _ _ H12 c); [|done].
    unfold s1. destruct s; simpl. apply elem_of_mergeCapabilities. auto.
  - pose proof (strengthened_trust _ _ H23). lia.
  - destruct (strengthened_work _ _ (transitivity H01 H12)) as (_ & _ & Hrole & _). destruct Hw as [_ Hw], (strengthened_work _ _ H03) as (Hid & _). rewrite Hrole, Hw in Hind. intros required Hq. destruct (Hind required Hq) as (i' & ? & ? & Hp).
    exists i'. split_and!; [done..|]. rewrite Hid. intros Hm p Hin Hne Hnw. apply Hp; [done| |done]. unfold producersExcept. apply list_elem_of_filter.
    split; [|done]. split; [done|]. apply not_true_iff_false. by rewrite reaches_spec.
Qed.

Lemma with_role_stage_ok stages r stages' i :
  with_role_stage stages r = (stages', i) →
  grows stages stages' ∧ ∃ s, stages' !! i = Some s ∧ s.(Stage_Kind) = StageAgent ∧ s.(Stage_Role) = r.(Role_Role).
Proof.
  unfold with_role_stage. destruct (list_find _ stages) as [[j s]|] eqn:Hf; intros [= <- <-].
  - apply list_find_Some in Hf as (Hl & [? ?] & _). split; [done|eauto].
  - split; [apply grows_app|]. rewrite list_lookup_middle by done. by eexists.
Qed.

Lemma applyRoleObligation_ok planID stages r stages' :
  applyRoleObligation planID stages r = Ok stages' →
  grows stages stages' ∧ ∃ s, s ∈ stages' ∧ role_met (with_role_stage stages r).1 r s.
Proof.
  unfold applyRoleObligation. destruct (with_role_stage stages r) as [l i] eqn:Hw.
  apply with_role_stage_ok in Hw as (Hg & s & Hl & Hw). rewrite Hl.
  intros (s' & [Hs Hm]%oblige_ok & [= <-])%rbind_ok. split; [etrans; [exact Hg|by eapply grows_insert]|].
  exists s'. split; [|by apply Hm]. apply (list_elem_of_lookup_2 _ i), list_lookup_insert_eq. by eapply lookup_lt_Some.
Qed.

(** A capability some worker must have; a plan without workers has nobody to
    ask. *)
Definition capability_met (capability : string) (stages : list PlanStage) : Prop :=
  ∃ s, s ∈ stages ∧ s.(Stage_Kind) = StageAgent ∧ capability ∈ s.(Stage_RequiresCapabilities).

Lemma apply_capability_grows stages capability : grows stages (apply_capability stages capability).
Proof.
  unfold apply_capability. destruct (capabilityCovered _ _); [done|]. destruct (firstProducerIndex _); [|done].
  apply grows_alter. intros s. apply strengthened_capabilities_with.
Qed.

Lemma firstProducerIndex_ok stages s :
  s ∈ stages → s.(Stage_Kind) = StageAgent →
  ∃ i t, firstProducerIndex stages = Some i ∧ stages !! i = Some t ∧ t.(Stage_Kind) = StageAgent.
Proof.
  intros Hs Hk. unfold firstProducerIndex. destruct (list_find (λ s, is_producer s = true) stages) as [[i t]|] eqn:Hf.
  - apply list_find_Some in Hf as (Hl & [Ha _]%andb_true_iff & _). apply bool_decide_eq_true in Ha. eauto.
  - destruct (list_find (λ s, is_agent s = true) stages) as [[i t]|] eqn:Hg; simpl.
    + apply list_find_Some in Hg as (Hl & Ha%bool_decide_eq_true & _). eauto.
    + exfalso. apply list_find_None in Hg. rewrite Forall_forall in Hg. apply (Hg s Hs). by apply bool_decide_eq_true.
Qed.

Lemma apply_capability_met stages capability s :
  s ∈ stages → s.(Stage_Kind) = StageAgent → capability ∈ EngineeringCapabilities →
  capability_met capability (apply_capability stages capability).
Proof.
  intros Hs Hk Hc. unfold apply_capability. destruct (capabilityCovered stages capability) eqn:Hcov.
  - unfold capabilityCovered in Hcov. apply existsb_elem in Hcov as (t & Ht & [Ha Hin]%andb_true_iff).
    apply bool_decide_eq_true in Ha, Hin. by exists t.
  - destruct (firstProducerIndex_ok stages s Hs Hk) as (i & t & -> & Hl & Ht).
    exists (stage_with_capabilities t (mergeCapabilities t.(Stage_RequiresCapabilities) [capability])). split_and!.
    + apply (list_elem_of_lookup_2 _ i). by rewrite list_lookup_alter_eq, Hl.
    + by destruct t.
    + destruct t; simpl. apply elem_of_mergeCapabilities. split; [right; by left|done].
Qed.

Lemma capability_met_grows capability stages stages' :
  capability ∈ EngineeringCapabilities → grows stages stages' → capability_met capability stages → capability_met capability stages'.
Proof.
  intros Hc Hg (s & Hs & Hk & Hin). destruct (grows_elem _ _ _ Hg Hs) as (t & Ht & [(_ & Hk' & _) Hcap _ _ _]).
  exists t. split_and!; [done|congruence|by apply Hcap].
Qed.

(** A gate of the required kind and action that asks for the required
    evidence. *)
Definition gate_met (gate : GateRequirement) (s : PlanStage) : Prop :=
  s.(Stage_Kind) = gate.(Gate_Kind) ∧ s.(Stage_Action) = gate.(Gate_Action)
  ∧ ∀ c, c ∈ gate.(Gate_RequiredClaims) → c ≠ "" → c ∈ s.(Stage_RequiredClaims).

Lemma gate_met_strengthened gate s s' : gate_met gate s → strengthened s s' → gate_met gate s'.
Proof.
  intros (Hk & Ha & Hc) [(_ & Hk' & _ & _ & Ha' & _) _ _ _ Hcl]. unfold gate_met. rewrite Hk', Ha'. auto.
Qed.

Section gates.
Context `{!MapRange}.

Lemma applyGateObligation_ok c stages gate :
  grows stages (applyGateObligation c stages gate) ∧ ∃ s, s ∈ applyGateObligation c stages gate ∧ gate_met gate s.
Proof.
  unfold applyGateObligation.
  set (claims := if (length gate.(Gate_RequiredClaims) =? 0)%nat && (gate.(Gate_Kind) ≟ StageAssuranceGate)
                 then assuranceClaims c else gate.(Gate_RequiredClaims)).
  assert (∀ x, x ∈ gate.(Gate_RequiredClaims) → x ∈ claims) as Hcl.
  { intros x Hx. unfold claims. destruct (Gate_RequiredClaims gate); [by apply not_elem_of_nil in Hx|done]. }
  destruct (list_find (gate_matches gate) stages) as [[i s]|] eqn:Hf.
  - apply list_find_Some in Hf as (Hl & [Hk Ha%bool_decide_eq_true] & _).
    split; [eapply grows_insert; [done|apply strengthened_claims_with]|].
    exists (stage_with_claims s (mergeStrings s.(Stage_RequiredClaims) claims)). split.
    + apply (list_elem_of_lookup_2 _ i), list_lookup_insert_eq. by eapply lookup_lt_Some.
    + destruct s; simpl in *. split_and!; [done..|]. simpl. intros x Hx Hne. unfold mergeStrings.
      rewrite elem_of_sorted_unique, list_elem_of_filter, elem_of_app. auto.
  - split; [apply grows_app|]. eexists. split; [apply elem_of_app; right; by left|]. unfold gate_met. simpl. auto.
Qed.

Lemma applyPolicyObligations_split stages requirements c planID stages' :
  applyPolicyObligations stages requirements c planID = Ok stages' →
  ∃ staffed, for_each (applyRoleObligation planID) requirements.(PlanRequirements_Roles) stages = Ok staffed
    ∧ stages' = fold_left (applyGateObligation c) requirements.(PlanRequirements_Gates)
                  (applyCapabilityObligations staffed requirements.(PlanRequirements_Capabilities)).
Proof. intros (staffed & Hs & [= <-])%rbind_ok. eauto. Qed.

(** A fold that establishes a fact at an element keeps it to the end, when
    the fact survives growth. *)
Lemma fold_establish {A} (f : list PlanStage → A → list PlanStage) (Q : list PlanStage → Prop) l stages x :
  (∀ stages y, grows stages (f stages y)) → (∀ s s', grows s s' → Q s → Q s') →
  (∀ s, grows stages s → Q (f s x)) → x ∈ l → Q (fold_left f l stages).
Proof.
  intros Hg Hq He. revert stages He; induction l as [|y l IH]; intros stages He Hx; [by apply not_elem_of_nil in Hx|].
  simpl. apply elem_of_cons in Hx as [->|Hx].
  - eapply Hq; [by apply grows_fold|]. by apply He.
  - apply IH; [|done]. intros s Hs. apply He. etrans; [apply Hg|done].
Qed.

(** C18: Policy only adds to a plan.  Every stage the plan starts from is still
    there, in its place, for the same work, and asks for no less.  For every
    required role the plan at the end has a worker that asks for the known
    capabilities, the trust and the independence required, and, where an
    independent role does not itself produce, is to differ from every material
    producer the plan had when that role was applied (those it started from
    among them) and that does not itself wait for the worker; a producer that a
    later role adds is not named, see the findings.  Every required capability and gate is met at the end. *)
Theorem policy_obligations_strengthen stages requirements c planID stages' :
  applyPolicyObligations stages requirements c planID = Ok stages' →
  grows stages stages'
  ∧ (∀ before r after, requirements.(PlanRequirements_Roles) = before ++ r :: after →
       ∃ at_ s, for_each (applyRoleObligation planID) before stages = Ok at_ ∧ s ∈ stages' ∧
         let plan := (with_role_stage at_ r).1 in
         materialProducerStages stages ⊆ materialProducerStages plan ∧ role_met plan r s)
  ∧ (∀ capability, capability ∈ requirements.(PlanRequirements_Capabilities) → capability ∈ EngineeringCapabilities →
       (∃ s, s ∈ stages ∧ s.(Stage_Kind) = StageAgent) ∨ requirements.(PlanRequirements_Roles) ≠ [] →
       capability_met capability stages')
  ∧ (∀ gate, gate ∈ requirements.(PlanRequirements_Gates) → ∃ s, s ∈ stages' ∧ gate_met gate s).
Proof.
  intros (staffed & Hs & ->)%applyPolicyObligations_split.
  set (capable := applyCapabilityObligations staffed _).
  assert (grows staffed capable) as Hg2 by apply grows_fold, apply_capability_grows.
  assert (∀ l, grows l (fold_left (applyGateObligation c) requirements.(PlanRequirements_Gates) l)) as Hg3
    by (intros l; apply grows_fold; intros; apply applyGateObligation_ok).
  assert (∀ l l1 l2, for_each (applyRoleObligation planID) l l1 = Ok l2 → grows l1 l2) as Hloop.
  { intros l l1 l2 Hl. eapply (for_each_inv _ (grows l1)); [done| |exact Hl]. intros x s1 s2 _ Hg [Hg' _]%applyRoleObligation_ok. by etrans. }
  assert (grows stages staffed) as Hg1 by (by eapply Hloop).
  assert (∀ before r after, requirements.(PlanRequirements_Roles) = before ++ r :: after →
    ∃ at_ s, for_each (applyRoleObligation planID) before stages = Ok at_ ∧ s ∈ staffed ∧ role_met (with_role_stage at_ r).1 r s) as Hroles.
  { intros before r after Hr. rewrite Hr, for_each_app in Hs. apply rbind_ok in Hs as (at_ & Hat & Hs). simpl in Hs. apply rbind_ok in Hs as (mid & Hmid & Hs).
    apply applyRoleObligation_ok in Hmid as (_ & s & Hin & Hm). destruct (grows_elem _ _ _ (Hloop _ _ _ Hs) Hin) as (t & ? & ?).
    exists at_, t. split_and!; [done..|by eapply role_met_strengthened]. }
  split_and!.
  - etrans; [exact Hg1|]. etrans; [exact Hg2|apply Hg3].
  - intros before r after Hr. destruct (Hroles _ _ _ Hr) as (at_ & s & Hat & Hin & Hm). destruct (grows_elem _ _ s (transitivity Hg2 (Hg3 capable)) Hin) as (t & ? & ?).
    exists at_, t. cbv zeta. split_and!; [done..| |by eapply role_met_strengthened].
    apply producers_grow. etrans; [by eapply Hloop|]. destruct (with_role_stage at_ r) as [l i] eqn:Hw. by apply with_role_stage_ok in Hw as [? _].
  - intros capability Hc Hk Hw. eapply capability_met_grows; [done|apply Hg3|].
    assert (∃ s, s ∈ staffed ∧ s.(Stage_Kind) = StageAgent) as (s & Hin & Hks).
    { destruct Hw as [(s & Hin & Hks)|Hne].
      - destruct (grows_elem _ _ _ Hg1 Hin) as (t & ? & [(_ & ? & _) _ _ _ _]). exists t. split; [done|congruence].
      - destruct (PlanRequirements_Roles requirements) as [|r rs]; [done|]. destruct (Hroles [] r rs eq_refl) as (_ & s & _ & ? & [[? _] _ _ _]). eauto. }
    eapply (fold_establish _ (capability_met capability)); [apply apply_capability_grows| | |exact Hc].
    + intros l l'. by apply capability_met_grows.
    + intros l Hg. destruct (grows_elem _ _ _ Hg Hin) as (t & ? & [(_ & Hkt & _) _ _ _ _]).
      eapply apply_capability_met; [done|congruence|done].
  - intros gate Hgate. eapply (fold_establish _ (λ l, ∃ s, s ∈ l ∧ gate_met gate s)); [|  | |exact Hgate].
    + intros. apply applyGateObligation_ok.
    + intros l l' Hg (s & Hin & Hm). destruct (grows_elem _ _ _ Hg Hin) as (t & ? & ?). exists t.
      split; [done|by eapply gate_met_strengthened].
    + intros l _. apply applyGateObligation_ok.
Qed.
End gates.

(* ------------------------------------------------------------------ *)
(** * A concrete policy *)

Definition started : list PlanStage :=
  [new_stage "implementation" StageAgent RoleImplementer [] [] None ""; new_stage "assurance" StageAssuranceGate "" ["implementation"] ["tests"] None ""].

Definition reviewing_policy : PlanRequirements :=
  MkPlanRequirements
    [MkRoleRequirement RoleReviewer ["review_code"] (Some (MkIndependence IndependenceProviderKind [] true)) TrustRequirementProtected "review"]
    ["write_tests"] [MkGateRequirement StageAssuranceGate ["lint"] None "lint"].

Definition example_obliged : result CompileError (list PlanStage) :=
  @applyPolicyObligations range_forward started reviewing_policy example_contract "plan".

Lemma policy_obligations_strengthen_witness :
  ∃ stages, example_obliged = Ok stages ∧ grows started stages
    ∧ (∃ s i, s ∈ stages ∧ s.(Stage_Role) = RoleReviewer ∧ s.(Stage_Independence) = Some i ∧ "implementation" ∈ i.(Independence_DifferentFrom))
    ∧ ∃ s, s ∈ stages ∧ s.(Stage_Kind) = StageAssuranceGate ∧ "lint" ∈ s.(Stage_RequiredClaims).
Proof.
  assert (is_ok example_obliged = true) as (stages & Hs)%is_ok_true by (vm_compute; reflexivity).
  exists stages. split; [exact Hs|].
  destruct (@policy_obligations_strengthen range_forward started reviewing_policy example_contract "plan" stages Hs) as (Hg & Hrole & _ & Hgate).
  split; [exact Hg|]. split.
  - destruct (Hrole [] _ [] eq_refl) as (at_ & s & Hat & Hin & _ & [[_ Hr] _ _ Hi]). injection Hat as <-. destruct (Hi _ eq_refl) as (i & Hs_i & _ & Hp).
    exists s, i. split; [exact Hin|]. split; [exact Hr|]. split; [exact Hs_i|]. apply Hp; [reflexivity| |  |].
    + apply elem_of_producers. eexists. split; [left|by split].
    + intros Heq. assert (Hw : s.(Stage_Role) = RoleImplementer ∨ s.(Stage_Role) = "") ; [|rewrite Hr in Hw; destruct Hw; discriminate].
      revert Hin Heq. clear -Hs. vm_compute in Hs. injection Hs as <-. intros Hin Heq.
      rewrite !elem_of_cons, elem_of_nil in Hin. destruct Hin as [-> |[-> |[-> |[]]]]; [by left|discriminate Heq|discriminate Heq].
    + intros Hw%reaches_spec. revert Hw Hin Hr. clear -Hs. vm_compute in Hs. injection Hs as <-. intros Hw Hin Hr.
      rewrite !elem_of_cons, elem_of_nil in Hin. destruct Hin as [-> |[-> |[-> |[]]]]; [discriminate Hr|discriminate Hr|]. vm_compute in Hw. discriminate Hw.
  - destruct (Hgate (MkGateRequirement StageAssuranceGate ["lint"] None "lint")) as (s & Hin & Hk & _ & Hc); [by left|].
    exists s. split; [exact Hin|]. split; [exact Hk|]. apply Hc; [by left|discriminate].
Defined.
