(* ===== verification/Agents.v ===== *)
(** Operator-owned agents: the records of [domain/plan.go] that describe
    profiles, instruction packs, context policies and workers, the escalation
    law of [planning/escalation.go] and the registry of
    [planning/registry.go] over documents already read and decoded. *)

From S2P Require Import Prelude GoStrings Sha256 Domain Canonical WorkGraph Plan PlanGraph PlanTemplate PlanValidate.
From stdpp Require Import options.

(* ------------------------------------------------------------------ *)
(** * Records *)

Definition ContextObjective : string := "objective".
Definition ContextAcceptanceCriteria : string := "acceptance_criteria".
Definition ContextObligations : string := "obligations".
Definition ContextPermissions : string := "permissions".
Definition ContextProhibitions : string := "prohibitions".
Definition ContextProjectFacts : string := "project_model_facts".
Definition ContextArchitectureNotes : string := "architecture_notes".
Definition ContextPolicyExcerpts : string := "policy_excerpts".
Definition ContextRepositoryPaths : string := "repository_paths".
Definition ContextUpstreamOutputs : string := "upstream_stage_outputs".
Definition ContextCandidateDiff : string := "candidate_diff".
Definition ContextPriorFindings : string := "prior_findings".
Definition ContextProducerReasoning : string := "producer_reasoning".

Definition ContextClasses : list string :=
  [ContextObjective; ContextAcceptanceCriteria; ContextObligations; ContextPermissions; ContextProhibitions;
   ContextProjectFacts; ContextArchitectureNotes; ContextPolicyExcerpts; ContextRepositoryPaths; ContextUpstreamOutputs;
   ContextCandidateDiff; ContextPriorFindings; ContextProducerReasoning].

Definition RequiredContextClasses : list string :=
  [ContextObjective; ContextAcceptanceCriteria; ContextObligations; ContextPermissions; ContextProhibitions].

Record InstructionPack := MkPack {
  Pack_SchemaVersion : string;
  Pack_ID : string;
  Pack_Revision : string;
  Pack_Digest : string;
  Pack_Source : ArtifactSource;
  Pack_Instructions : list string
}.

Record ContextPolicy := MkContextPolicy {
  ContextPolicy_SchemaVersion : string;
  ContextPolicy_ID : string;
  ContextPolicy_Revision : string;
  ContextPolicy_Digest : string;
  ContextPolicy_Source : ArtifactSource;
  ContextPolicy_Include : list string;
  ContextPolicy_Exclude : list string
}.

Record ProfileConstraints := MkConstraints {
  Constraints_MaxWallSeconds : option Z;
  Constraints_MaxExecutionAttempts : option Z;
  Constraints_MaxProviderInvocations : option Z;
  Constraints_DenyPermissionBypass : bool
}.

Record AgentProfile := MkProfile {
  Profile_SchemaVersion : string;
  Profile_ID : string;
  Profile_Version : Z;
  Profile_Digest : string;
  Profile_ExecutionAgent : string;
  Profile_Model : string;
  Profile_Capabilities : list string;
  Profile_Instructions : list string;
  Profile_ContextPolicy : string;
  Profile_TrustRequirement : string;
  Profile_Constraints : ProfileConstraints;
  Profile_Source : ArtifactSource
}.

Record ExecutionAgentDescriptor := MkAgent {
  Agent_ID : string;
  Agent_ProviderKind : string;
  Agent_VendorFamily : string;
  Agent_TrustMode : string;
  Agent_Model : string;
  Agent_Capabilities : list string;
  Agent_InvocationModes : list string;
  Agent_Available : bool;
  Agent_Detail : string;
  Agent_Unattended : bool;
  Agent_StructuredVerdicts : bool
}.

Definition ProducesStructuredVerdicts (d : ExecutionAgentDescriptor) : bool := d.(Agent_StructuredVerdicts).

Definition SupportsInvocationMode (d : ExecutionAgentDescriptor) (mode : string) : bool :=
  existsb (λ supported, supported ≟ mode) d.(Agent_InvocationModes).

Record PackRef := MkPackRef { PackRef_ID : string; PackRef_Revision : string; PackRef_Digest : string }.

Record ProfileBinding := MkProfileBinding {
  Binding_ID : string;
  Binding_Version : Z;
  Binding_Digest : string;
  Binding_Instructions : list PackRef;
  Binding_ContextPolicy : option PackRef;
  Binding_Capabilities : list string;
  Binding_TrustRequirement : string;
  Binding_Constraints : option ProfileConstraints
}.

#[export] Instance ArtifactSource_eq : EqDecision ArtifactSource.
Proof. solve_decision. Defined.
#[export] Instance ProfileConstraints_eq : EqDecision ProfileConstraints.
Proof. solve_decision. Defined.
#[export] Instance ContextPolicy_eq : EqDecision ContextPolicy.
Proof. solve_decision. Defined.
#[export] Instance PackRef_eq : EqDecision PackRef.
Proof. solve_decision. Defined.

Definition no_constraints : ProfileConstraints := MkConstraints None None None false.

(* ------------------------------------------------------------------ *)
(** * Content identity *)

(** A slice without [omitempty] is a JSON list; the source's nil slices
    are empty lists here. *)
Definition source_value (s : ArtifactSource) : GoValue :=
  GStruct [("type", GString s.(Source_Type)); ("location", GString s.(Source_Location))].

Definition pack_value (p : InstructionPack) : GoValue :=
  GStruct [("schema_version", GString p.(Pack_SchemaVersion)); ("id", GString p.(Pack_ID));
    ("revision", GString p.(Pack_Revision)); ("digest", GString p.(Pack_Digest)); ("source", source_value p.(Pack_Source));
    ("instructions", strings_value p.(Pack_Instructions))].

Definition context_policy_value (p : ContextPolicy) : GoValue :=
  GStruct ([("schema_version", GString p.(ContextPolicy_SchemaVersion)); ("id", GString p.(ContextPolicy_ID));
    ("revision", GString p.(ContextPolicy_Revision)); ("digest", GString p.(ContextPolicy_Digest));
    ("source", source_value p.(ContextPolicy_Source))]
    ++ omit_strings "include" p.(ContextPolicy_Include) ++ omit_strings "exclude" p.(ContextPolicy_Exclude)).

Definition constraints_value (c : ProfileConstraints) : GoValue :=
  GStruct (omit_none "max_wall_seconds" GInt c.(Constraints_MaxWallSeconds)
    ++ omit_none "max_execution_attempts" GInt c.(Constraints_MaxExecutionAttempts)
    ++ omit_none "max_provider_invocations" GInt c.(Constraints_MaxProviderInvocations)
    ++ omit_if (negb c.(Constraints_DenyPermissionBypass)) "deny_permission_bypass" (GBool c.(Constraints_DenyPermissionBypass))).

Definition profile_value (p : AgentProfile) : GoValue :=
  GStruct ([("schema_version", GString p.(Profile_SchemaVersion)); ("id", GString p.(Profile_ID));
    ("version", GInt p.(Profile_Version)); ("digest", GString p.(Profile_Digest));
    ("execution_agent", GString p.(Profile_ExecutionAgent))]
    ++ omit_empty "model" p.(Profile_Model)
    ++ [("capabilities", strings_value p.(Profile_Capabilities))]
    ++ omit_strings "instructions" p.(Profile_Instructions) ++ omit_empty "context_policy" p.(Profile_ContextPolicy)
    ++ [("trust_requirement", GString p.(Profile_TrustRequirement))]
    ++ omit_if (bool_decide (p.(Profile_Constraints) = no_constraints)) "constraints" (constraints_value p.(Profile_Constraints))
    ++ [("source", source_value p.(Profile_Source))]).

Definition condition_value (c : PolicyCondition) : GoValue :=
  GStruct ([("fact", GString c.(When_Fact));
    ("equals", if c.(When_Equals) ≟ FactTrue then GBool true else if c.(When_Equals) ≟ FactFalse then GBool false
               else GString c.(When_Equals))]
    ++ omit_none "stage" GString c.(When_Stage) ++ omit_none "confidence" GString c.(When_Confidence)
    ++ omit_none "provenance" (λ p, GStruct (omit_none "type" GString p.(ProvenanceMatch_Type)
         ++ omit_none "producer" GString p.(ProvenanceMatch_Producer))) c.(When_Provenance)).

Definition template_stage_value (s : TemplateStage) : GoValue :=
  GStruct ([("id", GString s.(Template_StageID)); ("kind", GString s.(Template_Kind))]
    ++ omit_empty "role" s.(Template_Role) ++ omit_empty "execution_kind" s.(Template_ExecutionKind)
    ++ omit_empty "objective" s.(Template_Objective) ++ omit_strings "depends_on" s.(Template_DependsOn)
    ++ omit_strings "requires_capabilities" s.(Template_RequiresCapabilities)
    ++ omit_none "independence" independence_value s.(Template_Independence) ++ omit_empty "profile" s.(Template_Profile)
    ++ omit_empty "context_policy" s.(Template_ContextPolicy) ++ omit_none "when" condition_value s.(Template_When)
    ++ omit_strings "required_claims" s.(Template_RequiredClaims) ++ omit_none "action" action_value s.(Template_Action)).

Definition template_value (t : EngineeringPlanTemplate) : GoValue :=
  GStruct ([("schema_version", GString t.(Template_SchemaVersion)); ("id", GString t.(Template_ID));
    ("version", GInt t.(Template_Version)); ("digest", GString t.(Template_Digest))]
    ++ omit_empty "description" t.(Template_Description)
    ++ [("stages", GList (template_stage_value <$> t.(Template_Stages)))]
    ++ omit_none "budget_envelope" envelope_value t.(Template_BudgetEnvelope)
    ++ [("source", source_value t.(Template_Source))]).

Section digests.
Context `{!Canonicalizer}.

Definition pack_ContentDigest (p : InstructionPack) : result CanonicalError string :=
  Digest (pack_value (MkPack p.(Pack_SchemaVersion) p.(Pack_ID) p.(Pack_Revision) "" p.(Pack_Source) p.(Pack_Instructions))).

Definition context_policy_ContentDigest (p : ContextPolicy) : result CanonicalError string :=
  Digest (context_policy_value (MkContextPolicy p.(ContextPolicy_SchemaVersion) p.(ContextPolicy_ID)
    p.(ContextPolicy_Revision) "" p.(ContextPolicy_Source) p.(ContextPolicy_Include) p.(ContextPolicy_Exclude))).

Definition profile_with_digest (p : AgentProfile) (digest : string) : AgentProfile :=
  MkProfile p.(Profile_SchemaVersion) p.(Profile_ID) p.(Profile_Version) digest p.(Profile_ExecutionAgent) p.(Profile_Model)
    p.(Profile_Capabilities) p.(Profile_Instructions) p.(Profile_ContextPolicy) p.(Profile_TrustRequirement)
    p.(Profile_Constraints) p.(Profile_Source).

Definition profile_ContentDigest (p : AgentProfile) : result CanonicalError string :=
  Digest (profile_value (profile_with_digest p "")).

Definition template_ContentDigest (t : EngineeringPlanTemplate) : result CanonicalError string :=
  Digest (template_value (MkTemplate t.(Template_SchemaVersion) t.(Template_ID) t.(Template_Version) ""
    t.(Template_Description) t.(Template_Stages) t.(Template_BudgetEnvelope) t.(Template_Source))).
End digests.

(* ------------------------------------------------------------------ *)
(** * Escalation *)

Inductive EscalationDetail :=
  | AgentNotConfigured
  | TrustAboveAdapter (required held : string)
  | CapabilitiesNotHeld (missing : list string)
  | NoCapability
  | NotOperatorOwned (source : string).

Record EscalationError := MkEscalation {
  Escalation_Profile : string;
  Escalation_Agent : string;
  Escalation_Detail : EscalationDetail
}.

Definition operatorOwned (source : ArtifactSource) : bool :=
  (source.(Source_Type) ≟ SourceOperatorConfig) || (source.(Source_Type) ≟ SourceOperatorFile).

Definition RefuseEscalation (profile : AgentProfile) (agent : ExecutionAgentDescriptor) : result EscalationError () :=
  let refuse detail := MkEscalation profile.(Profile_ID) agent.(Agent_ID) detail in
  let missing := filter (λ c, c ∉ agent.(Agent_Capabilities)) profile.(Profile_Capabilities) in
  refuse_if (trustStrength agent.(Agent_TrustMode) <? trustStrength profile.(Profile_TrustRequirement))%Z
    (refuse (TrustAboveAdapter profile.(Profile_TrustRequirement) agent.(Agent_TrustMode))) ;?
  refuse_if (0 <? length missing) (refuse (CapabilitiesNotHeld missing)) ;?
  refuse_if (length profile.(Profile_Capabilities) =? 0) (refuse NoCapability) ;?
  refuse_if (negb (operatorOwned profile.(Profile_Source))) (refuse (NotOperatorOwned profile.(Profile_Source).(Source_Type))).

(** Instruction content must be operator-owned. *)
Definition RefusePackEscalation (pack : InstructionPack) : result (string * string) () :=
  refuse_if (negb (operatorOwned pack.(Pack_Source))) (pack.(Pack_ID), pack.(Pack_Source).(Source_Type)).

(** The last descriptor of an id wins, as in [byID[agent.ID] = agent]. *)
Definition agentsByID (agents : list ExecutionAgentDescriptor) : gmap string ExecutionAgentDescriptor :=
  fold_left (λ byID agent, <[agent.(Agent_ID) := agent]> byID) agents ∅.

Definition bindProfile (profile : AgentProfile) (byID : gmap string ExecutionAgentDescriptor) : result EscalationError () :=
  let? agent := of_option (MkEscalation profile.(Profile_ID) profile.(Profile_ExecutionAgent) AgentNotConfigured)
                  (byID !! profile.(Profile_ExecutionAgent)) in
  RefuseEscalation profile agent.

(* ------------------------------------------------------------------ *)
(** * The registry *)

Record Registry := MkRegistry {
  Registry_dir : string;
  Registry_packs : gmap string InstructionPack;
  Registry_contexts : gmap string ContextPolicy;
  Registry_profiles : gmap string AgentProfile;
  Registry_templates : gmap string EngineeringPlanTemplate
}.

Inductive RegistryError :=
  | DeclaresAnotherID (path declared file : string)
  | ArtifactDigestRefused (path : string) (e : CanonicalError)
  | StatedDigestDiffers (path stated computed : string)
  | ArtifactRefused (path : string)
  | ErasesRequiredContext (path class : string)
  | OmitsRequiredContext (path class : string)
  | IncludesReasoning (path : string)
  | TemplateRefused (path : string) (e : TemplateError)
  | PackMissing (path pack : string)
  | PolicyMissing (path policy : string)
  | StageProfileMissing (path stage profile : string)
  | StagePolicyMissing (path stage policy : string)
  | NotInstalled (kind id : string).

(** What the shared sealing shape needs of an artifact: the closures
    [prepare], [digest] and [fill] of each [seal] function, and
    [domain.Encode] on the type, which the JSON Schema decides. *)
Class Artifact (T : Type) := {
  artifact_id : T → string;
  artifact_stated : T → string;
  artifact_prepare : string → T → T;
  artifact_digest : T → result CanonicalError string;
  artifact_fill : string → ArtifactSource → T → T;
  artifact_encodes : T → bool
}.

(** [sealed] after the document is decoded. *)
Definition sealed `{!Artifact T} (path id : string) (document : T) : result RegistryError T :=
  let artifact := artifact_prepare id document in
  refuse_if ((artifact_id document ≠? "") && (artifact_id document ≠? id)) (DeclaresAnotherID path (artifact_id document) id) ;?
  let source := MkArtifactSource SourceOperatorFile path in
  let artifact := artifact_fill "" source artifact in
  let? computed := wrap (ArtifactDigestRefused path) (artifact_digest artifact) in
  refuse_if ((artifact_stated document ≠? "") && (artifact_stated document ≠? computed))
    (StatedDigestDiffers path (artifact_stated document) computed) ;?
  let artifact := artifact_fill computed source artifact in
  refuse_if (negb (artifact_encodes artifact)) (ArtifactRefused path) ;?
  Ok artifact.

(** [domain.Encode] on the planning artifacts. *)
Class ArtifactSchemas := {
  encodes_pack : InstructionPack → bool;
  encodes_context_policy : ContextPolicy → bool;
  encodes_profile : AgentProfile → bool;
  encodes_template : EngineeringPlanTemplate → bool
}.

Definition any_artifact : ArtifactSchemas :=
  {| encodes_pack _ := true; encodes_context_policy _ := true; encodes_profile _ := true; encodes_template _ := true |}.

Section registry.
Context `{!MapRange, !Canonicalizer, !ArtifactSchemas}.

#[export] Instance InstructionPack_artifact : Artifact InstructionPack := {|
  artifact_id := Pack_ID;
  artifact_stated := Pack_Digest;
  artifact_prepare id p := MkPack SchemaVersion id (if p.(Pack_Revision) ≟ "" then "1" else p.(Pack_Revision))
    p.(Pack_Digest) p.(Pack_Source) p.(Pack_Instructions);
  artifact_digest := pack_ContentDigest;
  artifact_fill digest source p :=
    MkPack p.(Pack_SchemaVersion) p.(Pack_ID) p.(Pack_Revision) digest source p.(Pack_Instructions);
  artifact_encodes := encodes_pack
|}.

#[export] Instance ContextPolicy_artifact : Artifact ContextPolicy := {|
  artifact_id := ContextPolicy_ID;
  artifact_stated := ContextPolicy_Digest;
  artifact_prepare id p := MkContextPolicy SchemaVersion id
    (if p.(ContextPolicy_Revision) ≟ "" then "1" else p.(ContextPolicy_Revision)) p.(ContextPolicy_Digest)
    p.(ContextPolicy_Source) p.(ContextPolicy_Include) p.(ContextPolicy_Exclude);
  artifact_digest := context_policy_ContentDigest;
  artifact_fill digest source p := MkContextPolicy p.(ContextPolicy_SchemaVersion) p.(ContextPolicy_ID)
    p.(ContextPolicy_Revision) digest source p.(ContextPolicy_Include) p.(ContextPolicy_Exclude);
  artifact_encodes := encodes_context_policy
|}.

#[export] Instance AgentProfile_artifact : Artifact AgentProfile := {|
  artifact_id := Profile_ID;
  artifact_stated := Profile_Digest;
  artifact_prepare id p := MkProfile SchemaVersion id (if (p.(Profile_Version) =? 0)%Z then 1%Z else p.(Profile_Version))
    p.(Profile_Digest) p.(Profile_ExecutionAgent) p.(Profile_Model) p.(Profile_Capabilities) p.(Profile_Instructions)
    p.(Profile_ContextPolicy)
    (if p.(Profile_TrustRequirement) ≟ "" then TrustRequirementOperatorTrusted else p.(Profile_TrustRequirement))
    p.(Profile_Constraints) p.(Profile_Source);
  artifact_digest := profile_ContentDigest;
  artifact_fill digest source p := MkProfile p.(Profile_SchemaVersion) p.(Profile_ID) p.(Profile_Version) digest
    p.(Profile_ExecutionAgent) p.(Profile_Model) p.(Profile_Capabilities) p.(Profile_Instructions) p.(Profile_ContextPolicy)
    p.(Profile_TrustRequirement) p.(Profile_Constraints) source;
  artifact_encodes := encodes_profile
|}.

#[export] Instance Template_artifact : Artifact EngineeringPlanTemplate := {|
  artifact_id := Template_ID;
  artifact_stated := Template_Digest;
  artifact_prepare id t := MkTemplate SchemaVersion id (if (t.(Template_Version) =? 0)%Z then 1%Z else t.(Template_Version))
    t.(Template_Digest) t.(Template_Description) t.(Template_Stages) t.(Template_BudgetEnvelope) t.(Template_Source);
  artifact_digest := template_ContentDigest;
  artifact_fill digest source t := MkTemplate t.(Template_SchemaVersion) t.(Template_ID) t.(Template_Version) digest
    t.(Template_Description) t.(Template_Stages) t.(Template_BudgetEnvelope) source;
  artifact_encodes := encodes_template
|}.

Definition sealPack (path id : string) (document : InstructionPack) : result RegistryError InstructionPack :=
  sealed path id document.

Definition refuseErasureOfRequiredContext (path : string) (p : ContextPolicy) : result RegistryError () :=
  check_all (λ class, refuse_if (RequiredContextClasses ∋? class) (ErasesRequiredContext path class)) p.(ContextPolicy_Exclude) ;?
  if length p.(ContextPolicy_Include) =? 0 then Ok tt
  else
    check_all (λ class, refuse_if (negb (p.(ContextPolicy_Include) ∋? class)) (OmitsRequiredContext path class))
      RequiredContextClasses ;?
    refuse_if (p.(ContextPolicy_Include) ∋? ContextProducerReasoning) (IncludesReasoning path).

Definition sealContextPolicy (path id : string) (document : ContextPolicy) : result RegistryError ContextPolicy :=
  let? policy := sealed path id document in
  refuseErasureOfRequiredContext path policy ;? Ok policy.

Definition sealProfile (path id : string) (document : AgentProfile) : result RegistryError AgentProfile :=
  sealed path id document.

Definition sealTemplate (path id : string) (document : EngineeringPlanTemplate) : result RegistryError EngineeringPlanTemplate :=
  let? t := sealed path id document in
  wrap (TemplateRefused path) (validateTemplateGraph t) ;? Ok t.

(* ------------------------------------------------------------------ *)
(** ** Lookups *)

Definition ProfileIDs (r : Registry) : list string := sorted_keys r.(Registry_profiles).
Definition TemplateIDs (r : Registry) : list string := sorted_keys r.(Registry_templates).

Definition registry_Profile (r : Registry) (id : string) : result RegistryError AgentProfile :=
  of_option (NotInstalled "profile" id) (r.(Registry_profiles) !! id).

Definition Profiles (r : Registry) : list AgentProfile := omap (λ id, r.(Registry_profiles) !! id) (ProfileIDs r).

Definition registry_Template (r : Registry) (id : string) : result RegistryError EngineeringPlanTemplate :=
  of_option (NotInstalled "plan template" id) (r.(Registry_templates) !! id).

Definition registry_Pack (r : Registry) (id : string) : result RegistryError InstructionPack :=
  of_option (NotInstalled "instruction pack" id) (r.(Registry_packs) !! id).

Definition registry_ContextPolicy (r : Registry) (id : string) : result RegistryError ContextPolicy :=
  of_option (NotInstalled "context policy" id) (r.(Registry_contexts) !! id).

Definition Instructions (r : Registry) (profile : AgentProfile) : result RegistryError (list string) :=
  for_each (λ instructions id, let? pack := registry_Pack r id in Ok (instructions ++ pack.(Pack_Instructions)))
    profile.(Profile_Instructions) [].

Definition profileConstraints (c : ProfileConstraints) : option ProfileConstraints :=
  if bool_decide (c = no_constraints) then None else Some c.

Definition direct_binding (p : AgentProfile) (instructions : list PackRef) (policy : option PackRef) : ProfileBinding :=
  MkProfileBinding p.(Profile_ID) p.(Profile_Version) p.(Profile_Digest) instructions policy p.(Profile_Capabilities)
    p.(Profile_TrustRequirement) (profileConstraints p.(Profile_Constraints)).

Definition Binding (r : Registry) (p : AgentProfile) : result RegistryError ProfileBinding :=
  let? instructions := try_map (λ id, let? pack := registry_Pack r id in
    Ok (MkPackRef pack.(Pack_ID) pack.(Pack_Revision) pack.(Pack_Digest))) p.(Profile_Instructions) in
  if p.(Profile_ContextPolicy) ≟ "" then Ok (direct_binding p instructions None)
  else
    let? policy := registry_ContextPolicy r p.(Profile_ContextPolicy) in
    Ok (direct_binding p instructions
          (Some (MkPackRef policy.(ContextPolicy_ID) policy.(ContextPolicy_Revision) policy.(ContextPolicy_Digest)))).

(** [Registry.Bind]: every installed profile against the workforce. *)
Definition Bind (r : Registry) (agents : list ExecutionAgentDescriptor) : result EscalationError () :=
  check_all (λ profile, bindProfile profile (agentsByID agents)) (Profiles r).

(* ------------------------------------------------------------------ *)
(** ** Loading *)

(** [filepath.Join(dir, kind, id+".json")] of a directory that is itself
    clean and a kind and id without separators. *)
Definition pathFor (r : Registry) (kind id : string) : string := r.(Registry_dir) +:+ "/" +:+ kind +:+ "/" +:+ id +:+ ".json".

Definition profile_references (r : Registry) (id : string) : result RegistryError () :=
  match r.(Registry_profiles) !! id with
  | None => Ok tt
  | Some p =>
      check_all (λ pack, refuse_if (bool_decide (r.(Registry_packs) !! pack = None)) (PackMissing (pathFor r "profiles" id) pack))
        p.(Profile_Instructions) ;?
      refuse_if ((p.(Profile_ContextPolicy) ≠? "") && bool_decide (r.(Registry_contexts) !! p.(Profile_ContextPolicy) = None))
        (PolicyMissing (pathFor r "profiles" id) p.(Profile_ContextPolicy))
  end.

Definition stage_references (r : Registry) (path : string) (s : TemplateStage) : result RegistryError () :=
  refuse_if ((s.(Template_Profile) ≠? "") && bool_decide (r.(Registry_profiles) !! s.(Template_Profile) = None))
    (StageProfileMissing path s.(Template_StageID) s.(Template_Profile)) ;?
  refuse_if ((s.(Template_ContextPolicy) ≠? "") && bool_decide (r.(Registry_contexts) !! s.(Template_ContextPolicy) = None))
    (StagePolicyMissing path s.(Template_StageID) s.(Template_ContextPolicy)).

Definition template_references (r : Registry) (id : string) : result RegistryError () :=
  match r.(Registry_templates) !! id with
  | None => Ok tt
  | Some t => check_all (stage_references r (pathFor r "templates" id)) t.(Template_Stages)
  end.

Definition registry_validateReferences (r : Registry) : result RegistryError () :=
  check_all (profile_references r) (ProfileIDs r) ;?
  check_all (template_references r) (TemplateIDs r).

(** One subdirectory: path, file name without [.json] and decoded document of
    every file [loadEach] visits. *)
Definition loadEach {T} (seal : string → string → T → result RegistryError T) (files : list (string * string * T))
  : result RegistryError (gmap string T) :=
  for_each (λ installed '(path, id, document), let? artifact := seal path id document in Ok (<[id := artifact]> installed)) files ∅.

(** [LoadRegistry] over a directory that exists and was read. *)
Definition LoadRegistry (dir : string) (packs : list (string * string * InstructionPack))
  (contexts : list (string * string * ContextPolicy)) (profiles : list (string * string * AgentProfile))
  (templates : list (string * string * EngineeringPlanTemplate)) : result RegistryError Registry :=
  let? packs := loadEach sealPack packs in
  let? contexts := loadEach sealContextPolicy contexts in
  let? profiles := loadEach sealProfile profiles in
  let? templates := loadEach sealTemplate templates in
  let registry := MkRegistry dir packs contexts profiles templates in
  registry_validateReferences registry ;? Ok registry.
End registry.

(* ------------------------------------------------------------------ *)
(** * Escalation, stated *)

(** A profile that narrows its worker: no more trust than the adapter holds,
    some capabilities, all of them the worker's, written by the operator. *)
Record narrows (p : AgentProfile) (a : ExecutionAgentDescriptor) : Prop := {
  narrows_trust : (trustStrength p.(Profile_TrustRequirement) <= trustStrength a.(Agent_TrustMode))%Z;
  narrows_capabilities : p.(Profile_Capabilities) ≠ [] ∧ p.(Profile_Capabilities) ⊆ a.(Agent_Capabilities);
  narrows_source : p.(Profile_Source).(Source_Type) = SourceOperatorConfig ∨ p.(Profile_Source).(Source_Type) = SourceOperatorFile
}.

Lemma operatorOwned_ok s :
  operatorOwned s = true ↔ s.(Source_Type) = SourceOperatorConfig ∨ s.(Source_Type) = SourceOperatorFile.
Proof. unfold operatorOwned. by rewrite orb_true_iff, !bool_decide_eq_true. Qed.

Lemma RefuseEscalation_ok p a : RefuseEscalation p a = Ok tt ↔ narrows p a.
Proof.
  unfold RefuseEscalation. rewrite !refuse_if_then, refuse_if_ok, negb_false_iff, operatorOwned_ok, Z.ltb_ge, Nat.ltb_ge, Nat.eqb_neq.
  rewrite length_zero_iff_nil, Nat.le_0_r, length_zero_iff_nil.
  assert (filter (λ c, c ∉ a.(Agent_Capabilities)) p.(Profile_Capabilities) = [] ↔ p.(Profile_Capabilities) ⊆ a.(Agent_Capabilities)) as ->.
  { split.
    - intros Hf c Hc. destruct (decide (c ∈ a.(Agent_Capabilities))); [done|]. exfalso.
      assert (c ∈ filter (λ c, c ∉ a.(Agent_Capabilities)) p.(Profile_Capabilities)) as Hx by (by apply list_elem_of_filter).
      rewrite Hf in Hx. by apply not_elem_of_nil in Hx.
    - intros Hs. apply list_filter_none. intros c Hc Hn. by apply Hn, Hs. }
  split; [intros (? & ? & ? & ?); by split|intros [? [? ?] ?]; done].
Qed.

Lemma agentsByID_lookup agents id a :
  agentsByID agents !! id = Some a → a ∈ agents ∧ a.(Agent_ID) = id.
Proof.
  unfold agentsByID.
  enough (∀ m : gmap string ExecutionAgentDescriptor, fold_left (λ byID agent, <[agent.(Agent_ID) := agent]> byID) agents m !! id = Some a →
    (a ∈ agents ∧ a.(Agent_ID) = id) ∨ m !! id = Some a) as Hg.
  { intros Hl. destruct (Hg _ Hl) as [?|He]; [done|]. by rewrite lookup_empty in He. }
  induction agents as [|b l IH]; intros m; cbn [fold_left]; [by right|].
  intros [[? ?]|Hl]%IH; [left; split; [by right|done]|].
  apply lookup_insert_Some in Hl as [[<- <-]|[_ ?]]; [left; split; [by left|done]|by right].
Qed.

(* ------------------------------------------------------------------ *)
(** * The registry, stated *)

(** The laws of an artifact type: the identity and the digest are members the
    loader owns, and the digest does not read itself. *)
Class ArtifactLaws (T : Type) `{!Artifact T} := {
  artifact_prepare_id : ∀ id d s (x : T), artifact_id (artifact_fill d s (artifact_prepare id x)) = id;
  artifact_fill_stated : ∀ d s (x : T), artifact_stated (artifact_fill d s x) = d;
  artifact_fill_fill : ∀ d s d' s' (x : T), artifact_fill d s (artifact_fill d' s' x) = artifact_fill d s x;
  artifact_prepared : ∀ id d s (x : T),
    artifact_prepare id (artifact_fill d s (artifact_prepare id x)) = artifact_fill d s (artifact_prepare id x);
  artifact_digest_fill : ∀ d d' s (x : T), artifact_digest (artifact_fill d s x) = artifact_digest (artifact_fill d' s x)
}.

Section laws.
Context `{!Canonicalizer, !ArtifactSchemas}.

Ltac artifact_laws := split;
  [by intros ? ? ? []|by intros ? ? []|by intros ? ? ? ? []
  |intros ? ? ? []; simpl; f_equal;
     repeat match goal with
     | |- context [(?v =? 0)%Z] => is_var v; destruct (Z.eqb_spec v 0)
     | |- context [bool_decide (?v = "")] => is_var v; destruct (bool_decide_reflect (v = ""))
     end; simpl; try done; first [by rewrite bool_decide_false|by rewrite (proj2 (Z.eqb_neq _ _))]
  |by intros ? ? ? []].

#[export] Instance InstructionPack_laws : ArtifactLaws InstructionPack.
Proof. artifact_laws. Qed.
#[export] Instance ContextPolicy_laws : ArtifactLaws ContextPolicy.
Proof. artifact_laws. Qed.
#[export] Instance AgentProfile_laws : ArtifactLaws AgentProfile.
Proof. artifact_laws. Qed.
#[export] Instance Template_laws : ArtifactLaws EngineeringPlanTemplate.
Proof. artifact_laws. Qed.
End laws.

Lemma own_name (a : string) : (a ≠? "") && (a ≠? a) = false.
Proof. rewrite andb_false_iff, !negb_false_iff, !bool_decide_eq_true. by right. Qed.

Section sealing.
Context `{!Artifact T, !ArtifactLaws T}.
Set Default Proof Using "All".

Lemma sealed_ok path id (document a : T) :
  sealed path id document = Ok a →
  artifact_id a = id ∧ artifact_digest a = Ok (artifact_stated a) ∧ artifact_encodes a = true
  ∧ a = artifact_fill (artifact_stated a) (MkArtifactSource SourceOperatorFile path) (artifact_prepare id document).
Proof.
  unfold sealed. intros [_ (d & Hd%wrap_ok & [_ [Hs%negb_false_iff [= <-]]%refuse_if_then]%refuse_if_then)%rbind_ok]%refuse_if_then.
  rewrite !artifact_fill_fill in *. rewrite artifact_prepare_id, artifact_fill_stated, (artifact_digest_fill d "").
  done.
Qed.

(** Sealing is stable: the document the loader completed, written back to its
    own file, loads as itself. *)
Lemma sealed_again path id (document a : T) : sealed path id document = Ok a → sealed path id a = Ok a.
Proof.
  intros Hs. destruct (sealed_ok _ _ _ _ Hs) as (Hid & Hd & He & Ha).
  unfold sealed. rewrite Hid, own_name. simpl.
  assert (artifact_prepare id a = a) as Hp by (rewrite Ha; apply artifact_prepared). rewrite Hp.
  assert (∀ d s, artifact_fill d s a = artifact_fill d s (artifact_prepare id document)) as Hf
    by (intros d s; rewrite Ha; by rewrite artifact_fill_fill).
  rewrite Hf, (artifact_digest_fill _ (artifact_stated a)), <- Ha, Hd. simpl. rewrite own_name. simpl.
  rewrite artifact_fill_fill, <- Ha, He. done.
Qed.
End sealing.

Section loaded.
Context `{!MapRange, !Canonicalizer, !ArtifactSchemas}.

Lemma loadEach_inv {T} (seal : string → string → T → result RegistryError T) (P : string → string → T → Prop) files installed :
  loadEach seal files = Ok installed →
  (∀ path id document a, seal path id document = Ok a → P path id a) →
  ∀ id a, installed !! id = Some a → ∃ path, P path id a.
Proof.
  unfold loadEach. intros Hl HP.
  eapply (for_each_inv _ (λ m : gmap string T, ∀ id a, m !! id = Some a → ∃ path, P path id a)); [|  |exact Hl].
  - intros id a. by rewrite lookup_empty.
  - intros [[path id] document] m m' _ IH (a & Ha & [= <-])%rbind_ok id' a' [[<- <-]|[_ ?]]%lookup_insert_Some; [|by apply IH].
    exists path. by eapply HP.
Qed.

(** What an installed artifact is: it carries the name of its file, comes from
    an operator file and is identified by its own content. *)
Definition genuine_profile (id : string) (p : AgentProfile) : Prop :=
  p.(Profile_ID) = id ∧ p.(Profile_Source).(Source_Type) = SourceOperatorFile
  ∧ profile_ContentDigest p = Ok p.(Profile_Digest) ∧ encodes_profile p = true.

Definition genuine_pack (id : string) (p : InstructionPack) : Prop :=
  p.(Pack_ID) = id ∧ p.(Pack_Source).(Source_Type) = SourceOperatorFile
  ∧ pack_ContentDigest p = Ok p.(Pack_Digest) ∧ encodes_pack p = true.

(** A policy narrows: it keeps the governance envelope and asks for nobody's
    reasoning. *)
Definition genuine_policy (id : string) (p : ContextPolicy) : Prop :=
  p.(ContextPolicy_ID) = id ∧ p.(ContextPolicy_Source).(Source_Type) = SourceOperatorFile
  ∧ context_policy_ContentDigest p = Ok p.(ContextPolicy_Digest) ∧ encodes_context_policy p = true
  ∧ (∀ class, class ∈ RequiredContextClasses → class ∉ p.(ContextPolicy_Exclude))
  ∧ (p.(ContextPolicy_Include) ≠ [] →
       (∀ class, class ∈ RequiredContextClasses → class ∈ p.(ContextPolicy_Include))
       ∧ ContextProducerReasoning ∉ p.(ContextPolicy_Include)).

Definition genuine_template (id : string) (t : EngineeringPlanTemplate) : Prop :=
  t.(Template_ID) = id ∧ t.(Template_Source).(Source_Type) = SourceOperatorFile
  ∧ template_ContentDigest t = Ok t.(Template_Digest) ∧ encodes_template t = true ∧ validateTemplateGraph t = Ok tt.

Lemma refuseErasure_ok path p :
  refuseErasureOfRequiredContext path p = Ok tt →
  (∀ class, class ∈ RequiredContextClasses → class ∉ p.(ContextPolicy_Exclude))
  ∧ (p.(ContextPolicy_Include) ≠ [] →
       (∀ class, class ∈ RequiredContextClasses → class ∈ p.(ContextPolicy_Include))
       ∧ ContextProducerReasoning ∉ p.(ContextPolicy_Include)).
Proof.
  unfold refuseErasureOfRequiredContext. rewrite check_then, check_all_ok. setoid_rewrite refuse_if_ok. setoid_rewrite bool_decide_eq_false.
  intros [He Hi]. split; [intros class Hc Hx; by apply (He class)|]. intros Hne.
  destruct (length _ =? 0)%nat eqn:Hl; [by apply Nat.eqb_eq, length_zero_iff_nil in Hl|].
  rewrite check_then, check_all_ok, refuse_if_ok, bool_decide_eq_false in Hi. destruct Hi as [Hi Hr]. split; [|done].
  intros class Hc. specialize (Hi class Hc). by rewrite refuse_if_ok, negb_false_iff, bool_decide_eq_true in Hi.
Qed.

Lemma sealProfile_genuine path id document p : sealProfile path id document = Ok p → genuine_profile id p.
Proof. intros (? & ? & ? & Ha)%sealed_ok. split_and!; [done| |done|done]. by rewrite Ha. Qed.

Lemma sealPack_genuine path id document p : sealPack path id document = Ok p → genuine_pack id p.
Proof. intros (? & ? & ? & Ha)%sealed_ok. split_and!; [done| |done|done]. by rewrite Ha. Qed.

Lemma sealContextPolicy_genuine path id document p : sealContextPolicy path id document = Ok p → genuine_policy id p.
Proof.
  intros (q & (? & ? & ? & Ha)%sealed_ok & [[? ?]%refuseErasure_ok [= <-]]%check_then)%rbind_ok.
  split_and!; [done| |done..]. by rewrite Ha.
Qed.

Lemma sealTemplate_genuine path id document t : sealTemplate path id document = Ok t → genuine_template id t.
Proof.
  intros (q & (? & ? & ? & Ha)%sealed_ok & [?%wrap_ok [= <-]]%check_then)%rbind_ok.
  split_and!; [done| |done..]. by rewrite Ha.
Qed.

(** Every name an artifact refers to is installed. *)
Definition closed_registry (r : Registry) : Prop :=
  (∀ id p, r.(Registry_profiles) !! id = Some p →
     (∀ pack, pack ∈ p.(Profile_Instructions) → is_Some (r.(Registry_packs) !! pack))
     ∧ (p.(Profile_ContextPolicy) ≠ "" → is_Some (r.(Registry_contexts) !! p.(Profile_ContextPolicy))))
  ∧ (∀ id t s, r.(Registry_templates) !! id = Some t → s ∈ t.(Template_Stages) →
       (s.(Template_Profile) ≠ "" → is_Some (r.(Registry_profiles) !! s.(Template_Profile)))
       ∧ (s.(Template_ContextPolicy) ≠ "" → is_Some (r.(Registry_contexts) !! s.(Template_ContextPolicy)))).

Lemma missing_check {A} (name : string) (o : option A) :
  (name ≠? "") && bool_decide (o = None) = false ↔ (name ≠ "" → is_Some o).
Proof.
  rewrite andb_false_iff, negb_false_iff, bool_decide_eq_true, bool_decide_eq_false, not_eq_None_Some.
  destruct (decide (name = "")); tauto.
Qed.

Lemma registry_references_ok r : registry_validateReferences r = Ok tt ↔ closed_registry r.
Proof.
  unfold registry_validateReferences, closed_registry. rewrite check_then, !check_all_ok.
  unfold ProfileIDs, TemplateIDs. setoid_rewrite elem_of_sorted_keys. f_equiv.
  - split.
    + intros Hc id p Hp. specialize (Hc id ltac:(eauto)). unfold profile_references in Hc. rewrite Hp in Hc.
      rewrite check_then, check_all_ok, refuse_if_ok, missing_check in Hc. destruct Hc as [Hc ?]. split; [|done].
      intros pack Hin. specialize (Hc pack Hin). by rewrite refuse_if_ok, bool_decide_eq_false, not_eq_None_Some in Hc.
    + intros Hc id [p Hp]. unfold profile_references. rewrite Hp. destruct (Hc id p Hp) as [Hpk Hcp].
      rewrite check_then, check_all_ok, refuse_if_ok, missing_check. split; [|done].
      intros pack Hin. rewrite refuse_if_ok, bool_decide_eq_false, not_eq_None_Some. by apply Hpk.
  - split.
    + intros Hc id t s Ht Hs. specialize (Hc id ltac:(eauto)). unfold template_references in Hc. rewrite Ht, check_all_ok in Hc.
      specialize (Hc s Hs). unfold stage_references in Hc. by rewrite check_then, !refuse_if_ok, !missing_check in Hc.
    + intros Hc id [t Ht]. unfold template_references. rewrite Ht, check_all_ok. intros s Hs.
      unfold stage_references. rewrite check_then, !refuse_if_ok, !missing_check. by apply (Hc id t s).
Qed.

Lemma try_map_total {E A B} (f : A → result E B) l : (∀ x, x ∈ l → ∃ y, f x = Ok y) → ∃ k, try_map f l = Ok k.
Proof.
  induction l as [|x l IH]; intros Hf; simpl; [by eexists|]. destruct (Hf x ltac:(by left)) as [y ->].
  destruct IH as [k ->]; [intros z Hz; apply Hf; by right|]. simpl. by eexists.
Qed.

(** C32: A registry that loads holds only what the operator wrote: every artifact
    is genuine, every name they use is installed, and so every installed
    profile can be bound to the exact packs and policy it names. *)
Theorem LoadRegistry_sound dir packs contexts profiles templates r :
  LoadRegistry dir packs contexts profiles templates = Ok r →
  (∀ id p, r.(Registry_profiles) !! id = Some p → genuine_profile id p ∧ ∃ b, Binding r p = Ok b)
  ∧ (∀ id p, r.(Registry_packs) !! id = Some p → genuine_pack id p)
  ∧ (∀ id p, r.(Registry_contexts) !! id = Some p → genuine_policy id p)
  ∧ (∀ id t, r.(Registry_templates) !! id = Some t → genuine_template id t)
  ∧ closed_registry r.
Proof.
  unfold LoadRegistry.
  intros (pks & Hpk & (ctx & Hctx & (pfs & Hpf & (tms & Htm & [Hr [= <-]]%check_then)%rbind_ok)%rbind_ok)%rbind_ok)%rbind_ok.
  apply registry_references_ok in Hr. split_and!; simpl; [|..|done].
  - intros id p Hp. split.
    + destruct (loadEach_inv _ (λ _, genuine_profile) _ _ Hpf sealProfile_genuine id p Hp) as [_ Hg]. done.
    + destruct Hr as [Hr _]. destruct (Hr id p Hp) as [Hpks Hcp]. simpl in *. unfold Binding.
      destruct (try_map_total (λ id, let? pack := registry_Pack (MkRegistry dir pks ctx pfs tms) id in
        Ok (MkPackRef pack.(Pack_ID) pack.(Pack_Revision) pack.(Pack_Digest))) p.(Profile_Instructions)) as [refs ->].
      { intros pack Hin. destruct (Hpks pack Hin) as [q Hq]. unfold registry_Pack. simpl. rewrite Hq. by eexists. }
      simpl. destruct (bool_decide_reflect (Profile_ContextPolicy p = "")) as [|Hne]; [by eexists|].
      destruct (Hcp Hne) as [q Hq]. unfold registry_ContextPolicy. simpl. rewrite Hq. by eexists.
  - intros id p Hp. by destruct (loadEach_inv _ (λ _, genuine_pack) _ _ Hpk sealPack_genuine id p Hp) as [_ Hg].
  - intros id p Hp. by destruct (loadEach_inv _ (λ _, genuine_policy) _ _ Hctx sealContextPolicy_genuine id p Hp) as [_ Hg].
  - intros id t Ht. by destruct (loadEach_inv _ (λ _, genuine_template) _ _ Htm sealTemplate_genuine id t Ht) as [_ Hg].
Qed.

(** C33: Writing back what the loader completed changes nothing: each kind of
    artifact, sealed from its own sealed form under its own name, is itself,
    with the same digest and the same source. *)
Theorem seal_roundtrip path id :
  (∀ document p, sealPack path id document = Ok p → sealPack path id p = Ok p)
  ∧ (∀ document p, sealContextPolicy path id document = Ok p → sealContextPolicy path id p = Ok p)
  ∧ (∀ document p, sealProfile path id document = Ok p → sealProfile path id p = Ok p)
  ∧ (∀ document t, sealTemplate path id document = Ok t → sealTemplate path id t = Ok t).
Proof.
  split_and!; intros document p; try apply sealed_again; unfold sealContextPolicy, sealTemplate;
    intros (q & Hq%sealed_again & [Hc [= <-]]%check_then)%rbind_ok; rewrite Hq; simpl; by rewrite Hc.
Qed.
End loaded.

(* ------------------------------------------------------------------ *)
(** * A concrete registry *)

Definition unstated_source : ArtifactSource := MkArtifactSource "" "".

Definition example_pack : InstructionPack := MkPack "" "" "" "" unstated_source ["write a test first"].
Definition example_policy : ContextPolicy := MkContextPolicy "" "" "" "" unstated_source [] [ContextArchitectureNotes].
Definition example_profile : AgentProfile :=
  MkProfile "" "" 0 "" "coder" "" (RoleCapabilities RoleImplementer) ["tests"] "narrow" "" no_constraints unstated_source.

Definition example_registry : result RegistryError Registry :=
  @LoadRegistry range_forward plain_canonicalizer any_artifact "/zenchron" [("tests.json", "tests", example_pack)]
    [("narrow.json", "narrow", example_policy)] [("careful.json", "careful", example_profile)]
    [("reviewed-change.json", "reviewed-change", example_template)].

Lemma LoadRegistry_sound_witness :
  ∃ r, example_registry = Ok r ∧ "careful" ∈ @ProfileIDs range_forward r ∧ closed_registry r
    ∧ ∀ p, r.(Registry_profiles) !! "careful" = Some p → p.(Profile_TrustRequirement) = TrustRequirementOperatorTrusted ∧ p.(Profile_ID) = "careful".
Proof.
  assert (is_ok example_registry = true) as (r & Hr)%is_ok_true by (vm_compute; reflexivity).
  assert (example_registry = Ok r → @ProfileIDs range_forward r = ["careful"]
    ∧ (Profile_TrustRequirement <$> r.(Registry_profiles) !! "careful") = Some TrustRequirementOperatorTrusted) as Hids.
  { destruct example_registry as [r'|] eqn:He; [|discriminate]. injection 1 as <-. clear Hr. revert He. vm_compute. intros [= <-]. done. }
  destruct (Hids Hr) as [Hi Ht]. exists r. split; [exact Hr|]. rewrite Hi. split; [by left|].
  destruct (@LoadRegistry_sound range_forward plain_canonicalizer any_artifact "/zenchron" _ _ _ _ r Hr) as (Hp & _ & _ & _ & Hc).
  split; [exact Hc|]. intros p Hl. rewrite Hl in Ht. injection Ht as Ht. split; [exact Ht|].
  destruct (Hp "careful" p Hl) as [(? & _) _]. assumption.
Defined.

Lemma seal_roundtrip_witness :
  let seal := @sealProfile plain_canonicalizer any_artifact "careful.json" "careful" in
  ∃ p, seal example_profile = Ok p ∧ p ≠ example_profile ∧ seal p = Ok p.
Proof.
  cbv zeta. assert (is_ok (@sealProfile plain_canonicalizer any_artifact "careful.json" "careful" example_profile) = true)
    as (p & Hp)%is_ok_true by (vm_compute; reflexivity).
  exists p. split; [exact Hp|]. split.
  - intros ->. apply sealed_ok in Hp as (Hid & _). discriminate.
  - destruct (@seal_roundtrip range_forward plain_canonicalizer any_artifact "careful.json" "careful") as (_ & _ & Hs & _).
    exact (Hs example_profile p Hp).
Defined.
