(* ===== verification/Context.v ===== *)
(** The context a worker receives: [planning/context.go].  A table says which
    classes a role may see, the operator's policy narrows it, and the
    governance envelope of the contract is always there. *)

From S2P Require Import Prelude GoStrings Domain WorkGraph Plan PlanValidate Agents.
From stdpp Require Import options.

Record UpstreamOutput := MkUpstream {
  Upstream_StageID : string;
  Upstream_RunID : string;
  Upstream_Candidate : string;
  Upstream_Tree : string;
  Upstream_Summary : string
}.

Record IndependenceBinding := MkIndependenceBinding {
  IndependenceBinding_Dimension : string;
  IndependenceBinding_DifferentFrom : list string;
  IndependenceBinding_Class : string;
  IndependenceBinding_OtherClasses : list string;
  IndependenceBinding_SatisfiedBy : string
}.

Record ContextPack := MkContext {
  Context_Objective : string;
  Context_AcceptanceCriteria : list string;
  Context_Obligations : list string;
  Context_Permissions : list string;
  Context_Prohibitions : list string;
  Context_Facts : list string;
  Context_ArchitectureNotes : list string;
  Context_PolicyExcerpts : list string;
  Context_RepositoryPaths : list string;
  Context_UpstreamOutputs : list UpstreamOutput;
  Context_Included : list string;
  Context_Excluded : list string
}.

Record ContextInput := MkContextInput {
  ContextInput_Stage : PlanStage;
  ContextInput_Role : string;
  ContextInput_PlanObjective : string;
  ContextInput_PlanStages : list PlanStage;
  ContextInput_Contract : EngineeringWorkContract;
  ContextInput_Model : ProjectModel;
  ContextInput_Facts : list EngineeringFact;
  ContextInput_Policy : option ContextPolicy;
  ContextInput_Upstream : list UpstreamOutput;
  ContextInput_Independence : list IndependenceBinding
}.

Inductive ContextRefusal :=
  | RoleWithoutSelection (role : string)
  | ExcludesRequired (policy class : string)
  | RequestsReasoning (policy : string)
  | NoObjective
  | NoAcceptance.

Inductive ContextError := ContextRefused (stage : string) (detail : ContextRefusal).

(* ------------------------------------------------------------------ *)
(** * Which classes a role sees *)

Definition producer_classes : list string :=
  [ContextProjectFacts; ContextArchitectureNotes; ContextRepositoryPaths; ContextUpstreamOutputs; ContextPriorFindings].
Definition reviewer_classes : list string :=
  [ContextProjectFacts; ContextPolicyExcerpts; ContextUpstreamOutputs; ContextCandidateDiff].
Definition architect_classes : list string := [ContextProjectFacts; ContextArchitectureNotes; ContextRepositoryPaths].

Definition roleContextClasses (role : string) : option (list string) :=
  if (role ≟ RoleImplementer) || (role ≟ RoleIntegrator) || (role ≟ RoleTester) then Some producer_classes
  else if (role ≟ RoleReviewer) || (role ≟ RoleSecurityReviewer) || (role ≟ RoleReleaseReviewer) then Some reviewer_classes
  else if (role ≟ RoleSystemArchitect) || (role ≟ RoleProductArchitect) then Some architect_classes
  else if role ≟ RolePlanner then Some [ContextProjectFacts; ContextRepositoryPaths]
  else None.

Definition requestsProducerReasoning (policy : ContextPolicy) : bool :=
  existsb (λ class, class ≟ ContextProducerReasoning) policy.(ContextPolicy_Include).

Definition selectClasses (optional : list string) (policy : option ContextPolicy) : result ContextRefusal (gset string) :=
  let required : gset string := list_to_set RequiredContextClasses in
  let selected : gset string := required ∪ list_to_set optional in
  match policy with
  | None => Ok (selected ∖ {[ContextProducerReasoning]})
  | Some policy =>
      check_all (λ class, refuse_if (bool_decide (class ∈ required)) (ExcludesRequired policy.(ContextPolicy_ID) class))
        policy.(ContextPolicy_Exclude) ;?
      let selected := if 0 <? length policy.(ContextPolicy_Include)
        then required ∪ (list_to_set policy.(ContextPolicy_Include) ∩ selected) else selected in
      let selected := selected ∖ list_to_set policy.(ContextPolicy_Exclude) in
      refuse_if (requestsProducerReasoning policy) (RequestsReasoning policy.(ContextPolicy_ID)) ;?
      Ok (selected ∖ {[ContextProducerReasoning]})
  end.

Definition RoleContextClasses (role : string) (policy : option ContextPolicy) : result ContextRefusal (gset string) :=
  let? optional := of_option (RoleWithoutSelection role) (roleContextClasses role) in
  selectClasses optional policy.

(* ------------------------------------------------------------------ *)
(** * Statements *)

Definition sortedUniqueStrings (values : list string) : list string :=
  sorted_unique (filter (λ value, blank value = false) values).

Definition sortedUpstream (outputs : list UpstreamOutput) : list UpstreamOutput := sort_by Upstream_StageID outputs.

Definition independence_statement (stageID : string) (b : IndependenceBinding) : string :=
  let peers := GoStrings.Join (sortedUniqueStrings b.(IndependenceBinding_DifferentFrom)) ", " in
  "This stage (" +:+ stageID +:+ ") is the independent leg for " +:+ peers +:+ ": its producer differs in the "
  +:+ b.(IndependenceBinding_Dimension) +:+ " dimension, and the work of stage " +:+ peers
  +:+ " may not be treated as its own evidence.".

Definition independenceStatements (stageID : string) (bindings : list IndependenceBinding) : list string :=
  independence_statement stageID <$> bindings.

Definition actionStatements (actions : list Action) : list string :=
  sortedUniqueStrings ((λ a, a.(Action_Type) +:+ ":" +:+ a.(Action_Target)) <$> actions).

Definition fact_statement (f : EngineeringFact) : string :=
  f.(Fact_Key) +:+ " = " +:+ f.(Fact_Value) +:+ " (" +:+ f.(Fact_Stage) +:+ ", " +:+ f.(Fact_Confidence) +:+ " confidence, from "
  +:+ f.(Fact_Provenance).(FactProvenance_Type) +:+ " " +:+ f.(Fact_Provenance).(FactProvenance_Producer) +:+ ")".

Definition factStatements (facts : list EngineeringFact) : list string := sortedUniqueStrings (fact_statement <$> facts).

Definition claim_excerpt (kv : string * RequiredClaim) : string :=
  "Claim " +:+ kv.1 +:+ " requires evidence of class " +:+ kv.2.(RequiredClaim_EvidenceClass)
  +:+ (if kv.2.(RequiredClaim_Independent) then ", independent of the change producer." else ".").

(** A line of the plan a reviewer is shown. *)
Definition stage_line (s : PlanStage) : string :=
  s.(Stage_ID) +:+ " (" +:+ s.(Stage_Kind) +:+ ", role=" +:+ s.(Stage_Role) +:+ ", execution=" +:+ s.(Stage_ExecutionKind)
  +:+ ", depends_on=" +:+ GoStrings.Join s.(Stage_DependsOn) "," +:+ "): " +:+ s.(Stage_Objective).

Definition newline : string := one_byte 10.

Section context.
Context `{!MapRange}.

Definition requirementStatements (requirements : gmap string Requirement) : list string :=
  sortedUniqueStrings ((λ kv, kv.2.(Requirement_Statement)) <$> range requirements).

Definition boundary_note (kv : string * CriticalBoundary) : string :=
  "Critical boundary " +:+ kv.1 +:+ " (" +:+ kv.2.(CriticalBoundary_Type) +:+ ") covers "
  +:+ GoStrings.Join (sortedUniqueStrings kv.2.(CriticalBoundary_Paths)) ", " +:+ ".".

Definition architectureNotes (c : EngineeringWorkContract) (m : ProjectModel) : list string :=
  sortedUniqueStrings (requirementStatements c.(Contract_Invariants)
    ++ match m.(Model_CriticalBoundaries) with Some boundaries => boundary_note <$> range boundaries | None => [] end).

Definition policyExcerpts (c : EngineeringWorkContract) (m : ProjectModel) : list string :=
  sortedUniqueStrings ((claim_excerpt <$> range c.(Contract_RequiredClaims))
    ++ match c.(Contract_PlanRequirements) with
       | Some r => (Role_Statement <$> r.(PlanRequirements_Roles)) ++ (Gate_Statement <$> r.(PlanRequirements_Gates))
       | None => []
       end
    ++ match m.(Model_PolicyProfiles) with
       | Some profiles => (λ p, "The project declares policy profile " +:+ p +:+ ".") <$> profiles
       | None => []
       end).

(* ------------------------------------------------------------------ *)
(** * The pack *)

Definition is_reviewer (role : string) : bool :=
  (role ≟ RoleReviewer) || (role ≟ RoleSecurityReviewer) || (role ≟ RoleReleaseReviewer).

Definition context_objective (input : ContextInput) : string :=
  let objective := TrimSpace input.(ContextInput_Stage).(Stage_Objective) in
  let objective := if objective ≟ "" then TrimSpace input.(ContextInput_Contract).(Contract_Objective) else objective in
  let reviewer := is_reviewer input.(ContextInput_Role) in
  let objective := if reviewer && negb (blank input.(ContextInput_PlanObjective))
    then "Plan objective:" +:+ newline +:+ TrimSpace input.(ContextInput_PlanObjective) +:+ newline +:+ newline
         +:+ "Review objective:" +:+ newline +:+ objective
    else objective in
  if reviewer && (0 <? length input.(ContextInput_PlanStages))
  then objective +:+ newline +:+ newline +:+ "Approved plan stages:" +:+ newline
       +:+ GoStrings.Join (stage_line <$> input.(ContextInput_PlanStages)) newline
  else objective.

(** [if selected[class] { ... }]. *)
Definition when_selected {A} (selected : gset string) (class : string) (l : list A) : list A :=
  if bool_decide (class ∈ selected) then l else [].

Definition CompileContext (input : ContextInput) : result ContextError ContextPack :=
  let refuse detail := ContextRefused input.(ContextInput_Stage).(Stage_ID) detail in
  let c := input.(ContextInput_Contract) in
  let? selected := wrap refuse (RoleContextClasses input.(ContextInput_Role) input.(ContextInput_Policy)) in
  let objective := context_objective input in
  refuse_if (objective ≟ "") (refuse NoObjective) ;?
  let acceptance := sortedUniqueStrings c.(Contract_AcceptanceIntent) in
  refuse_if (length acceptance =? 0) (refuse NoAcceptance) ;?
  Ok (MkContext objective acceptance
        (sortedUniqueStrings (requirementStatements c.(Contract_Obligations)
           ++ independenceStatements input.(ContextInput_Stage).(Stage_ID) input.(ContextInput_Independence)))
        (actionStatements c.(Contract_Permissions)) (actionStatements c.(Contract_Prohibitions))
        (when_selected selected ContextProjectFacts (factStatements input.(ContextInput_Facts)))
        (when_selected selected ContextArchitectureNotes (architectureNotes c input.(ContextInput_Model)))
        (when_selected selected ContextPolicyExcerpts (policyExcerpts c input.(ContextInput_Model)))
        (when_selected selected ContextRepositoryPaths (sortedUniqueStrings c.(Contract_Scope).(Scope_AllowedPaths)))
        (when_selected selected ContextUpstreamOutputs (sortedUpstream input.(ContextInput_Upstream)))
        (filter (λ class, class ∈ selected) ContextClasses) (filter (λ class, class ∉ selected) ContextClasses)).
End context.

(* ------------------------------------------------------------------ *)
(** * What a worker is shown *)

(** The classes a role sees through a policy: the envelope always, the row of
    the role as far as the policy includes it and does not exclude it. *)
Definition sees (role : string) (policy : option ContextPolicy) (class : string) : Prop :=
  class ∈ RequiredContextClasses
  ∨ (∃ optional, roleContextClasses role = Some optional ∧ class ∈ optional)
    ∧ ∀ p, policy = Some p →
        class ∉ p.(ContextPolicy_Exclude) ∧ (p.(ContextPolicy_Include) ≠ [] → class ∈ p.(ContextPolicy_Include)).

Lemma role_classes_open role optional class :
  roleContextClasses role = Some optional → class ∈ optional → class ≠ ContextProducerReasoning ∧ class ∉ RequiredContextClasses.
Proof.
  unfold roleContextClasses. intros Hr Hc.
  assert (∀ l, optional = l → bool_decide (Forall (λ c, c ≠ ContextProducerReasoning ∧ c ∉ RequiredContextClasses) l) = true →
    class ≠ ContextProducerReasoning ∧ class ∉ RequiredContextClasses) as Hall.
  { intros l -> Hl%bool_decide_eq_true. by eapply Forall_forall in Hl. }
  repeat (destruct (_ || _) in Hr; [injection Hr as <-; by eapply Hall|]).
  case_bool_decide; [|done]. injection Hr as <-. by eapply Hall.
Qed.

Lemma RoleContextClasses_ok role policy selected :
  RoleContextClasses role policy = Ok selected →
  (∀ class, class ∈ selected ↔ sees role policy class) ∧ ContextProducerReasoning ∉ selected.
Proof.
  unfold RoleContextClasses. intros (optional & Ho%of_option_ok & Hs)%rbind_ok.
  pose proof (λ class, role_classes_open role optional class Ho) as Hopen.
  assert (ContextProducerReasoning ∉ RequiredContextClasses) as Hpr by (by apply (bool_decide_eq_true_1 _)).
  assert (∀ a b : gset string, @Ok ContextRefusal _ a = Ok b → a = b) as Hinj by (by intros ? ? [= ->]).
  unfold selectClasses in Hs. destruct policy as [p|].
  - apply check_then in Hs as [He Hs]. apply refuse_if_then in Hs as [Hq <-%Hinj]. rewrite check_all_ok in He.
    setoid_rewrite refuse_if_ok in He. setoid_rewrite bool_decide_eq_false in He. setoid_rewrite elem_of_list_to_set in He.
    split; [|set_solver]. intros class. unfold sees. rewrite Ho.
    rewrite !elem_of_difference, elem_of_list_to_set, elem_of_singleton.
    assert (class ∈ (if (0 <? length p.(ContextPolicy_Include))%nat
        then list_to_set RequiredContextClasses ∪ (list_to_set p.(ContextPolicy_Include) ∩ (list_to_set RequiredContextClasses ∪ list_to_set optional))
        else list_to_set RequiredContextClasses ∪ list_to_set optional : gset string)
      ↔ class ∈ RequiredContextClasses ∨ class ∈ optional ∧ (p.(ContextPolicy_Include) ≠ [] → class ∈ p.(ContextPolicy_Include))) as ->.
    { destruct (0 <? _)%nat eqn:Hl.
      - apply Nat.ltb_lt in Hl. assert (p.(ContextPolicy_Include) ≠ []) by (intros Hn; rewrite Hn in Hl; simpl in Hl; lia).
        rewrite !elem_of_union, elem_of_intersection, elem_of_union, !elem_of_list_to_set. tauto.
      - apply Nat.ltb_ge in Hl. assert (p.(ContextPolicy_Include) = []) as -> by (apply length_zero_iff_nil; lia).
        rewrite elem_of_union, !elem_of_list_to_set. tauto. }
    split.
    + intros [[[Hr|[Hr Hi]] Hx] Hne]; [by left|right]. split; [eauto|]. intros ? [= <-]. done.
    + intros [Hr|[(? & [= <-] & Hr) Hp]].
      * split; [split; [by left|intros Hx; by apply (He class)]|]. intros ->. by apply Hpr.
      * destruct (Hp p eq_refl) as [Hx Hi]. split; [split; [by right|done]|by apply Hopen].
  - apply Hinj in Hs as <-. split; [|set_solver]. intros class. unfold sees. rewrite Ho, elem_of_difference, elem_of_union, !elem_of_list_to_set, elem_of_singleton. split.
    + intros [[?|?] _]; [by left|right; split; [eauto|done]].
    + intros [Hr|[(? & [= <-] & Hr) _]]; (split; [auto|]); [intros He; by rewrite He in Hr|by apply Hopen].
Qed.

Lemma elem_of_sortedUniqueStrings x l : x ∈ sortedUniqueStrings l ↔ x ∈ l ∧ blank x = false.
Proof. unfold sortedUniqueStrings. rewrite elem_of_sorted_unique, list_elem_of_filter. tauto. Qed.

#[export] Instance sortedUniqueStrings_proper : Proper ((≡ₚ) ==> (=)) sortedUniqueStrings.
Proof. intros l1 l2 Hl. unfold sortedUniqueStrings. apply sorted_unique_proper. by rewrite Hl. Qed.

Lemma when_selected_elem {A} selected class (l : list A) x : x ∈ when_selected selected class l ↔ class ∈ selected ∧ x ∈ l.
Proof.
  unfold when_selected. destruct (bool_decide_reflect (class ∈ selected)); [tauto|].
  split; [by intros ?%not_elem_of_nil|by intros [? _]].
Qed.

(** A context is refused exactly for a role without a row, a policy that
    touches the envelope or asks for reasoning, no objective or no acceptance
    criterion. *)
Lemma CompileContext_ok `{!MapRange} input pack :
  CompileContext input = Ok pack →
  ∃ selected, RoleContextClasses input.(ContextInput_Role) input.(ContextInput_Policy) = Ok selected
    ∧ context_objective input ≠ "" ∧ sortedUniqueStrings input.(ContextInput_Contract).(Contract_AcceptanceIntent) ≠ []
    ∧ pack.(Context_Objective) = context_objective input
    ∧ pack.(Context_AcceptanceCriteria) = sortedUniqueStrings input.(ContextInput_Contract).(Contract_AcceptanceIntent)
    ∧ pack.(Context_Obligations) = sortedUniqueStrings (requirementStatements input.(ContextInput_Contract).(Contract_Obligations)
        ++ independenceStatements input.(ContextInput_Stage).(Stage_ID) input.(ContextInput_Independence))
    ∧ pack.(Context_Permissions) = actionStatements input.(ContextInput_Contract).(Contract_Permissions)
    ∧ pack.(Context_Prohibitions) = actionStatements input.(ContextInput_Contract).(Contract_Prohibitions)
    ∧ pack.(Context_Facts) = when_selected selected ContextProjectFacts (factStatements input.(ContextInput_Facts))
    ∧ pack.(Context_ArchitectureNotes) = when_selected selected ContextArchitectureNotes
        (architectureNotes input.(ContextInput_Contract) input.(ContextInput_Model))
    ∧ pack.(Context_PolicyExcerpts) = when_selected selected ContextPolicyExcerpts
        (policyExcerpts input.(ContextInput_Contract) input.(ContextInput_Model))
    ∧ pack.(Context_RepositoryPaths) = when_selected selected ContextRepositoryPaths
        (sortedUniqueStrings input.(ContextInput_Contract).(Contract_Scope).(Scope_AllowedPaths))
    ∧ pack.(Context_UpstreamOutputs) = when_selected selected ContextUpstreamOutputs (sortedUpstream input.(ContextInput_Upstream))
    ∧ pack.(Context_Included) = filter (λ class, class ∈ selected) ContextClasses
    ∧ pack.(Context_Excluded) = filter (λ class, class ∉ selected) ContextClasses.
Proof.
  unfold CompileContext. intros (selected & Hs%wrap_ok & [Ho [Ha [= <-]]%refuse_if_then]%refuse_if_then)%rbind_ok.
  rewrite bool_decide_eq_false in Ho. rewrite Nat.eqb_neq, length_zero_iff_nil in Ha. exists selected. done.
Qed.

(** An action is never a blank statement: it holds a colon. *)
Lemma action_not_blank a : blank (a.(Action_Type) +:+ ":" +:+ a.(Action_Target)) = false.
Proof.
  apply (not_blank 58); [done|]. rewrite !bytes_app, !elem_of_app. right. left. by left.
Qed.

(** Whatever the operator's policy says, a worker is told the whole governance
    envelope: every stated obligation, every permission and prohibition, and
    what finishing means.  Beyond it a section is filled only with a class its
    role sees through the policy, what it was and was not given is recorded
    exactly, and nobody is given a producer's reasoning. *)
Theorem CompileContext_envelope `{!MapRange} input pack :
  CompileContext input = Ok pack →
  let c := input.(ContextInput_Contract) in
  let visible := sees input.(ContextInput_Role) input.(ContextInput_Policy) in
  (∀ id r, c.(Contract_Obligations) !! id = Some r → blank r.(Requirement_Statement) = false →
     r.(Requirement_Statement) ∈ pack.(Context_Obligations))
  ∧ (∀ a, a ∈ c.(Contract_Permissions) → a.(Action_Type) +:+ ":" +:+ a.(Action_Target) ∈ pack.(Context_Permissions))
  ∧ (∀ a, a ∈ c.(Contract_Prohibitions) → a.(Action_Type) +:+ ":" +:+ a.(Action_Target) ∈ pack.(Context_Prohibitions))
  ∧ pack.(Context_Objective) ≠ "" ∧ pack.(Context_AcceptanceCriteria) ≠ []
  ∧ (pack.(Context_Facts) ≠ [] → visible ContextProjectFacts)
  ∧ (pack.(Context_ArchitectureNotes) ≠ [] → visible ContextArchitectureNotes)
  ∧ (pack.(Context_PolicyExcerpts) ≠ [] → visible ContextPolicyExcerpts)
  ∧ (pack.(Context_RepositoryPaths) ≠ [] → visible ContextRepositoryPaths)
  ∧ (pack.(Context_UpstreamOutputs) ≠ [] → visible ContextUpstreamOutputs)
  ∧ (∀ class, class ∈ pack.(Context_Included) ↔ class ∈ ContextClasses ∧ visible class)
  ∧ (∀ class, class ∈ pack.(Context_Excluded) ↔ class ∈ ContextClasses ∧ class ∉ pack.(Context_Included))
  ∧ ContextProducerReasoning ∈ pack.(Context_Excluded).
Proof.
  intros (selected & Hs & Ho & Ha & H1 & H2 & H3 & H4 & H5 & H6 & H7 & H8 & H9 & H10 & H11 & H12)%CompileContext_ok.
  apply RoleContextClasses_ok in Hs as [Hs Hr]. cbv zeta.
  assert (∀ A class (l : list A), when_selected selected class l ≠ [] → sees input.(ContextInput_Role) input.(ContextInput_Policy) class) as Hw.
  { intros A class l Hl. apply Hs. unfold when_selected in Hl. by case_bool_decide. }
  assert (∀ l a, a ∈ l → a.(Action_Type) +:+ ":" +:+ a.(Action_Target) ∈ actionStatements l) as Hact.
  { intros l a Hl. apply elem_of_sortedUniqueStrings. split; [by apply (list_elem_of_fmap_2 (λ a, a.(Action_Type) +:+ ":" +:+ a.(Action_Target)))|apply action_not_blank]. }
  rewrite H1, H2, H3, H4, H5, H6, H7, H8, H9, H10, H11, H12. split_and!; try (by apply Hact); try (by apply Hw); try done.
  - intros id r Hr' Hb. apply elem_of_sortedUniqueStrings. split; [|done]. apply elem_of_app. left.
    apply elem_of_sortedUniqueStrings. split; [|done]. apply (list_elem_of_fmap_2 (λ kv, kv.2.(Requirement_Statement)) _ (id, r)).
    by apply elem_of_range.
  - intros class. rewrite list_elem_of_filter, Hs. tauto.
  - intros class. rewrite !list_elem_of_filter. destruct (decide (class ∈ selected)); tauto.
  - apply list_elem_of_filter. split; [done|]. by apply (bool_decide_eq_true_1 _).
Qed.

(** A context does not depend on the order in which the maps of a contract and
    a model are iterated. *)
Theorem CompileContext_deterministic (R1 R2 : MapRange) input : @CompileContext R1 input = @CompileContext R2 input.
Proof.
  assert (∀ m, @requirementStatements R1 m = @requirementStatements R2 m) as Hr.
  { intros m. unfold requirementStatements. by rewrite (@range_perm R1), (@range_perm R2). }
  assert (∀ c m, @architectureNotes R1 c m = @architectureNotes R2 c m) as Ha.
  { intros c m. unfold architectureNotes. rewrite Hr. destruct (Model_CriticalBoundaries m); [|done].
    by rewrite (@range_perm R1), (@range_perm R2). }
  assert (∀ c m, @policyExcerpts R1 c m = @policyExcerpts R2 c m) as Hp.
  { intros c m. unfold policyExcerpts. by rewrite (@range_perm R1), (@range_perm R2). }
  unfold CompileContext. by rewrite Hr, Ha, Hp.
Qed.

(* ------------------------------------------------------------------ *)
(** * A concrete context *)

Definition accepting_contract : EngineeringWorkContract :=
  MkContract "0.1" "contract" "1" "change" ["the tests pass"] (MkSubject "owner/repo" "base")
    (MkContractScope StagePredicted ["src"] []) [] ∅
    (<["o1" := MkRequirement "keep the interface" [] true]> ∅)
    (<["tests" := MkRequiredClaim "test" false]> ∅) [MkAction "repo.write" "src"] [push] [] None
    example_contract.(Contract_Provenance).

Definition bare_model : ProjectModel := MkProjectModel "0.1" "model" "1" (MkSubject "owner/repo" "base") None None None.

(** A policy that hides the architecture notes. *)
Definition narrowing_policy : ContextPolicy :=
  MkContextPolicy "0.1" "narrow" "1" "" (MkArtifactSource SourceOperatorFile "narrow.json") [] [ContextArchitectureNotes].

Definition example_context_input : ContextInput :=
  MkContextInput example_implementation RoleImplementer "change" [] accepting_contract bare_model [] (Some narrowing_policy) [] [].

Lemma CompileContext_envelope_witness :
  ∃ pack, @CompileContext range_forward example_context_input = Ok pack
    ∧ "keep the interface" ∈ pack.(Context_Obligations) ∧ pack.(Context_ArchitectureNotes) = []
    ∧ ContextProducerReasoning ∈ pack.(Context_Excluded).
Proof.
  assert (is_ok (@CompileContext range_forward example_context_input) = true) as (pack & Hp)%is_ok_true by (vm_compute; reflexivity).
  exists pack. split; [exact Hp|].
  destruct (@CompileContext_envelope range_forward example_context_input pack Hp)
    as (Ho & _ & _ & _ & _ & _ & Hn & _ & _ & _ & _ & _ & Hr).
  split; [exact (Ho "o1" (MkRequirement "keep the interface" [] true) eq_refl eq_refl)|]. split; [|exact Hr].
  destruct (Context_ArchitectureNotes pack) as [|note notes]; [reflexivity|]. exfalso.
  destruct (Hn ltac:(discriminate)) as [Hx|[_ Hx]].
  - by apply (bool_decide_eq_true_2 _) in Hx.
  - destruct (Hx _ eq_refl) as [Hx' _]. apply Hx'. by left.
Defined.
