(* ===== verification/Resolver.v ===== *)
(** Assignment of the stages of a plan to workers: [planning/resolver.go].
    Profiles are tried in order, every rejection is recorded, and an
    independence obligation is judged against the workers already assigned. *)

From S2P Require Import Prelude GoStrings Sha256 Domain Canonical WorkGraph Plan PlanGraph PlanValidate Agents Context.
From stdpp Require Import options.

(* ------------------------------------------------------------------ *)
(** * Records *)

Record AgentBinding := MkAgentBinding {
  AgentBinding_ID : string;
  AgentBinding_ProviderKind : string;
  AgentBinding_VendorFamily : string;
  AgentBinding_TrustMode : string;
  AgentBinding_Model : string
}.

Record CandidateEvaluation := MkEvaluation {
  Evaluation_Profile : string;
  Evaluation_Agent : string;
  Evaluation_Eligible : bool;
  Evaluation_Reasons : list string
}.

Record ResolutionExplanation := MkExplanation {
  Explanation_Considered : list CandidateEvaluation;
  Explanation_Selected : string;
  Explanation_Reason : string
}.

Record AgentAssignment := MkAssignment {
  Assignment_SchemaVersion : string;
  Assignment_ID : string;
  Assignment_Plan : PlanRef;
  Assignment_StageID : string;
  Assignment_Role : string;
  Assignment_RequiredCapabilities : list string;
  Assignment_Profile : ProfileBinding;
  Assignment_Agent : AgentBinding;
  Assignment_InvocationMode : string;
  Assignment_TrustRequirement : string;
  Assignment_Contract : ObjectRevision;
  Assignment_Context : ContextPack;
  Assignment_Budget : StageBudget;
  Assignment_Independence : list IndependenceBinding;
  Assignment_Selection : ResolutionExplanation;
  Assignment_RunID : string
}.

Definition IndependenceSatisfiedByWorker : string := "independent_worker".

Definition BlockNoEligibleProfile : string := "no_eligible_profile".
Definition BlockInvocationMode : string := "invocation_mode_unavailable".
Definition BlockVerdictProtocol : string := "verdict_protocol_unavailable".
Definition BlockIndependence : string := "independence_shortage".
Definition BlockUnavailable : string := "agent_unavailable".
Definition BlockMissingArtifact : string := "artifact_not_installed".

Record Blocked := MkBlocked {
  Blocked_StageID : string;
  Blocked_Role : string;
  Blocked_Kind : string;
  Blocked_Reason : string;
  Blocked_Explain : ResolutionExplanation;
  Blocked_HumanSubstitutionPermitted : bool
}.

Record Resolution := MkResolution {
  Resolution_Assignments : list AgentAssignment;
  Resolution_Blocked : list Blocked
}.

Record ResolveInput := MkResolveInput {
  Resolve_Plan : EngineeringPlan;
  Resolve_Registry : Registry;
  Resolve_Agents : list ExecutionAgentDescriptor;
  Resolve_Contract : EngineeringWorkContract;
  Resolve_Model : ProjectModel;
  Resolve_Facts : list EngineeringFact;
  Resolve_Upstream : gmap string (list UpstreamOutput);
  Resolve_DefaultAgent : string;
  Resolve_Frozen : gmap string AgentAssignment;
  Resolve_Authorized : gmap string AgentAssignment
}.

Inductive ResolveError :=
  | ProfileDigestRefused (e : CanonicalError)
  | PolicyNotInstalled (e : RegistryError)
  | ContextNotCompiled (e : ContextError)
  | AssignmentInvalid (stage : string).

(** [domain.Encode] of an assignment, which the JSON Schema decides. *)
Class AssignmentSchema := { encodes_assignment : AgentAssignment → bool }.

Definition any_assignment : AssignmentSchema := {| encodes_assignment _ := true |}.

(** [Resolution.Assignment]. *)
Definition resolution_Assignment (r : Resolution) (stageID : string) : option AgentAssignment :=
  snd <$> list_find (λ a, a.(Assignment_StageID) = stageID) r.(Resolution_Assignments).

(* ------------------------------------------------------------------ *)
(** * Readiness details *)

(** [strings.ToValidUTF8(s, "")] on bytes: a byte no rune starts at is
    dropped. *)
Definition drop_invalid (l : list N) : list N := replace_invalid [] l.

(** [utf8.RuneStart]. *)
Definition RuneStart (b : N) : bool := negb (cont b).

(** The loop that moves the cut back to the start of a rune, at most three
    bytes; [budget] counts what [back] has left. *)
Fixpoint rune_cut (budget : nat) (detail : list N) (cut : nat) : nat :=
  match budget with
  | O => cut
  | S budget =>
      if (0 <? cut) && negb (RuneStart (default 0%N (detail !! cut))) then rune_cut budget detail (cut - 1) else cut
  end.

Definition boundedReason (detail : string) : string :=
  let raw := trim_bytes (bytes detail) in
  let detail := drop_invalid raw in
  if (length detail =? 0) && (0 <? length raw) then "the reported readiness detail was not readable text"
  else if length detail =? 0 then "no readiness detail was reported"
  else if 200 <? length detail then
    let cut := rune_cut 3 detail 200 in
    of_bytes (take (if negb (RuneStart (default 0%N (detail !! cut))) then 200 else cut) detail)
  else of_bytes detail.

(* ------------------------------------------------------------------ *)
(** * Classes *)

Definition unknown_class : string := "unknown".

Definition independenceClass (dimension : string) (p : AgentProfile) (a : ExecutionAgentDescriptor) : string :=
  if dimension ≟ IndependenceAgentProfile then p.(Profile_ID) +:+ "@" +:+ p.(Profile_Digest)
  else if dimension ≟ IndependenceExecutionAgent then a.(Agent_ID)
  else if dimension ≟ IndependenceProviderKind then a.(Agent_ProviderKind)
  else if dimension ≟ IndependenceVendorFamily then a.(Agent_VendorFamily)
  else unknown_class.

Definition assignedIndependenceClass (dimension : string) (a : AgentAssignment) : string :=
  if dimension ≟ IndependenceAgentProfile then a.(Assignment_Profile).(Binding_ID) +:+ "@" +:+ a.(Assignment_Profile).(Binding_Digest)
  else if dimension ≟ IndependenceExecutionAgent then a.(Assignment_Agent).(AgentBinding_ID)
  else if dimension ≟ IndependenceProviderKind then a.(Assignment_Agent).(AgentBinding_ProviderKind)
  else if dimension ≟ IndependenceVendorFamily then a.(Assignment_Agent).(AgentBinding_VendorFamily)
  else unknown_class.

Definition dimensionNoun (dimension : string) : string :=
  if dimension ≟ IndependenceAgentProfile then "profile"
  else if dimension ≟ IndependenceExecutionAgent then "agent"
  else if dimension ≟ IndependenceProviderKind then "provider kind"
  else if dimension ≟ IndependenceVendorFamily then "vendor family"
  else "class".

Definition profileAdvertises (p : AgentProfile) (capability : string) : bool :=
  existsb (λ held, held ≟ capability) p.(Profile_Capabilities).

Definition effectiveTrust (s : PlanStage) (p : AgentProfile) : string :=
  if (trustStrength s.(Stage_TrustRequirement) <? trustStrength p.(Profile_TrustRequirement))%Z then p.(Profile_TrustRequirement)
  else if s.(Stage_TrustRequirement) ≟ "" then TrustRequirementOperatorTrusted
  else s.(Stage_TrustRequirement).

Definition effectiveModel (p : AgentProfile) (a : ExecutionAgentDescriptor) : string :=
  if negb (blank p.(Profile_Model)) then p.(Profile_Model) else a.(Agent_Model).

(** [x != nil && *x > 0 && ...]. *)
Definition stated_positive (o : option Z) : option Z :=
  match o with Some n => if (0 <? n)%Z then Some n else None | None => None end.

Definition tightened_wall (wall : option Z) (b : StageBudget) : StageBudget :=
  match stated_positive wall with
  | Some n => if ((b.(Budget_MaxWallSeconds) <=? 0) || (n <? b.(Budget_MaxWallSeconds)))%Z
              then MkStageBudget b.(Budget_MaxExecutionAttempts) b.(Budget_MaxProviderInvocations) n else b
  | None => b
  end.

Definition tightened_total (total : option Z) (b : StageBudget) : StageBudget :=
  match stated_positive total with
  | Some n => if ((b.(Budget_MaxProviderInvocations) <=? 0) || (n <? b.(Budget_MaxProviderInvocations)))%Z
              then MkStageBudget b.(Budget_MaxExecutionAttempts) n b.(Budget_MaxWallSeconds) else b
  | None => b
  end.

Definition tightened_attempts (attempts : option Z) (b : StageBudget) : StageBudget :=
  let with_attempts n := MkStageBudget n b.(Budget_MaxProviderInvocations) b.(Budget_MaxWallSeconds) in
  match stated_positive attempts with
  | Some n =>
      if (0 <? b.(Budget_MaxExecutionAttempts))%Z then
        if (n <? b.(Budget_MaxExecutionAttempts))%Z then with_attempts n else b
      else if ((b.(Budget_MaxProviderInvocations) <=? 0) || (n <=? b.(Budget_MaxProviderInvocations)))%Z then with_attempts n
      else b
  | None => b
  end.

Definition tightenedByProfile (b : StageBudget) (c : ProfileConstraints) : StageBudget :=
  tightened_attempts c.(Constraints_MaxExecutionAttempts)
    (tightened_total c.(Constraints_MaxProviderInvocations) (tightened_wall c.(Constraints_MaxWallSeconds) b)).

Definition preferred (candidate : AgentProfile) (candidateAgent : ExecutionAgentDescriptor) (current : AgentProfile)
  (currentAgent : ExecutionAgentDescriptor) (s : PlanStage) (defaultAgent : string) : bool :=
  let by_id := String.ltb candidate.(Profile_ID) current.(Profile_ID) in
  if s.(Stage_Profile) ≠? "" then
    (candidate.(Profile_ID) ≟ s.(Stage_Profile)) && (current.(Profile_ID) ≠? s.(Stage_Profile))
  else if (defaultAgent ≠? "") && (candidateAgent.(Agent_ID) ≠? currentAgent.(Agent_ID)) then
    if candidateAgent.(Agent_ID) ≟ defaultAgent then true
    else if currentAgent.(Agent_ID) ≟ defaultAgent then false
    else by_id
  else by_id.

Definition selectionReason (s : PlanStage) (p : AgentProfile) (a : ExecutionAgentDescriptor) (defaultAgent : string) : string :=
  if s.(Stage_Profile) ≟ p.(Profile_ID) then "the plan pinned this profile and it is eligible"
  else if a.(Agent_ID) ≟ defaultAgent then "eligible, and backed by the operator's default agent"
  else "the first eligible profile in deterministic order".

Definition assignmentID (plan : EngineeringPlan) (s : PlanStage) : string :=
  "assignment-" +:+ plan.(Plan_ID) +:+ "-r" +:+ itoa plan.(Plan_Revision) +:+ "-" +:+ s.(Stage_ID).

Definition independenceBindings (s : PlanStage) (assigned : gmap string AgentAssignment) (a : ExecutionAgentDescriptor)
  (p : AgentProfile) : list IndependenceBinding :=
  match s.(Stage_Independence) with
  | None => []
  | Some i =>
      let dimension := i.(Independence_Dimension) in
      [MkIndependenceBinding dimension i.(Independence_DifferentFrom) (independenceClass dimension p a)
         (sortedUniqueStrings (omap (λ other, assignedIndependenceClass dimension <$> assigned !! other)
            i.(Independence_DifferentFrom)))
         IndependenceSatisfiedByWorker]
  end.

Definition with_upstream (a : AgentAssignment) (upstream : list UpstreamOutput) : AgentAssignment :=
  let c := a.(Assignment_Context) in
  MkAssignment a.(Assignment_SchemaVersion) a.(Assignment_ID) a.(Assignment_Plan) a.(Assignment_StageID) a.(Assignment_Role)
    a.(Assignment_RequiredCapabilities) a.(Assignment_Profile) a.(Assignment_Agent) a.(Assignment_InvocationMode)
    a.(Assignment_TrustRequirement) a.(Assignment_Contract)
    (MkContext c.(Context_Objective) c.(Context_AcceptanceCriteria) c.(Context_Obligations) c.(Context_Permissions)
       c.(Context_Prohibitions) c.(Context_Facts) c.(Context_ArchitectureNotes) c.(Context_PolicyExcerpts)
       c.(Context_RepositoryPaths) upstream c.(Context_Included) c.(Context_Excluded))
    a.(Assignment_Budget) a.(Assignment_Independence) a.(Assignment_Selection) a.(Assignment_RunID).

Definition rebindUpstream (a : AgentAssignment) (upstream : list UpstreamOutput) : AgentAssignment :=
  with_upstream a (if a.(Assignment_Context).(Context_Included) ∋? ContextUpstreamOutputs then sortedUpstream upstream else []).

(* ------------------------------------------------------------------ *)
(** * Eligibility *)

Section resolver.
Context `{!GoUnicode}.

Definition escalation_text (e : EscalationError) : string :=
  "profile " +:+ Quote e.(Escalation_Profile) +:+ " may not escalate agent " +:+ Quote e.(Escalation_Agent) +:+ ": "
  +:+ match e.(Escalation_Detail) with
      | AgentNotConfigured => "no such agent is configured; a profile specializes a worker the operator already registered and can never introduce one"
      | TrustAboveAdapter required held => "it requires " +:+ Quote required +:+ " execution trust while the agent's adapter is "
          +:+ Quote held +:+ "; a trust mode is a property of the adapter and no configuration can raise it"
      | CapabilitiesNotHeld missing => "it advertises capabilities the agent does not hold (" +:+ GoStrings.Join missing ", "
          +:+ "); a profile may narrow the agent's capability set and never extend it"
      | NoCapability => "it advertises no capability at all, so no stage could ever be eligible for it"
      | NotOperatorOwned source => "its definition claims source " +:+ Quote source +:+ ", which is not operator-owned"
      end.

(** The first peer that breaks the obligation, if any. *)
Fixpoint peer_violation (dimension mine : string) (assigned : gmap string AgentAssignment) (peers : list string) : option string :=
  match peers with
  | [] => None
  | other :: peers =>
      match assigned !! other with
      | None => Some ("independence in dimension " +:+ Quote dimension +:+ " cannot be proven: stage " +:+ Quote other
                      +:+ " has no resolved worker")
      | Some a =>
          let theirs := assignedIndependenceClass dimension a in
          if (mine ≟ "") || (theirs ≟ "") || (mine ≟ unknown_class) || (theirs ≟ unknown_class) then
            Some ("independence in dimension " +:+ Quote dimension +:+ " cannot be proven against stage " +:+ Quote other
                  +:+ ": one side's class is unknown")
          else if mine ≟ theirs then
            Some (dimensionNoun dimension +:+ " " +:+ Quote mine +:+ " is not independent of stage " +:+ Quote other
                  +:+ " in dimension " +:+ Quote dimension)
          else peer_violation dimension mine assigned peers
      end
  end.

Definition independenceViolation (s : PlanStage) (p : AgentProfile) (a : ExecutionAgentDescriptor)
  (assigned : gmap string AgentAssignment) : option string :=
  match s.(Stage_Independence) with
  | None => None
  | Some i => peer_violation i.(Independence_Dimension) (independenceClass i.(Independence_Dimension) p a) assigned
                i.(Independence_DifferentFrom)
  end.

(** Reason and kind of each refused check, in the order the code appends
    them. *)
Definition eligibility (s : PlanStage) (p : AgentProfile) (a : ExecutionAgentDescriptor)
  (assigned : gmap string AgentAssignment) : list (string * string) :=
  match RefuseEscalation p a with
  | Err e => [(escalation_text e, BlockNoEligibleProfile)]
  | Ok _ =>
      let required := effectiveTrust s p in
      ((λ c, ("profile does not advertise " +:+ c, BlockNoEligibleProfile))
         <$> filter (λ c, profileAdvertises p c = false) s.(Stage_RequiresCapabilities))
      ++ (if (trustStrength a.(Agent_TrustMode) <? trustStrength required)%Z
          then [("agent trust " +:+ Quote a.(Agent_TrustMode) +:+ " is below the required " +:+ Quote required, BlockNoEligibleProfile)]
          else [])
      ++ (if (s.(Stage_InvocationMode) ≠? "") && negb (SupportsInvocationMode a s.(Stage_InvocationMode))
          then [("agent cannot perform a " +:+ Quote s.(Stage_InvocationMode) +:+ " invocation", BlockInvocationMode)] else [])
      ++ (if is_agent s && ProducesReviewVerdict s.(Stage_Role) && negb (ProducesStructuredVerdicts a)
          then [("agent cannot return the structured reviewer verdict this role must produce", BlockVerdictProtocol)] else [])
      ++ (if negb a.(Agent_Available)
          then [("agent is not currently available: " +:+ boundedReason a.(Agent_Detail), BlockUnavailable)] else [])
      ++ match independenceViolation s p a assigned with
         | Some violation => [(violation, BlockIndependence)]
         | None => []
         end
  end.

(* ------------------------------------------------------------------ *)
(** * Blocked stages *)

Definition blockReason (kind : string) (s : PlanStage) : string :=
  if kind ≟ BlockIndependence then
    let i := default (MkIndependence "" [] false) s.(Stage_Independence) in
    "no eligible worker is independent of " +:+ GoStrings.Join i.(Independence_DifferentFrom) ", " +:+ " in dimension "
    +:+ Quote i.(Independence_Dimension) +:+ "; assigning the same one would silently degrade a required independence class"
  else if kind ≟ BlockInvocationMode then
    "no configured agent can perform a " +:+ Quote s.(Stage_InvocationMode)
    +:+ " invocation, and a provider is never degraded into a more permissive mode"
  else if kind ≟ BlockVerdictProtocol then
    "no configured agent can return the structured verdict a reviewer stage must produce, and a review that emits only prose would leave this stage unable ever to settle"
  else if kind ≟ BlockUnavailable then
    "every eligible worker is currently unavailable; readiness is an observation, so this clears when the agent does"
  else "no installed profile can perform role " +:+ Quote s.(Stage_Role) +:+ " with the required capabilities".

(** The strongest kind that was met. *)
Definition blocked_kind (kinds : gset string) : string :=
  if bool_decide (BlockIndependence ∈ kinds) then BlockIndependence
  else if bool_decide (BlockInvocationMode ∈ kinds) then BlockInvocationMode
  else if bool_decide (BlockVerdictProtocol ∈ kinds) then BlockVerdictProtocol
  else if bool_decide (BlockUnavailable ∈ kinds) then BlockUnavailable
  else BlockNoEligibleProfile.

Definition blocked (s : PlanStage) (considered : list CandidateEvaluation) (kinds : gset string) : Blocked :=
  let kind := blocked_kind kinds in
  let reason := blockReason kind s in
  MkBlocked s.(Stage_ID) s.(Stage_Role) kind reason (MkExplanation considered "" reason)
    (match s.(Stage_Independence) with
     | Some i => if kind ≟ BlockIndependence then i.(Independence_HumanSubstitutionPermitted) else false
     | None => false
     end).

Section resolve.
Context `{!MapRange, !Canonicalizer, !AssignmentSchema}.

Definition DirectProfile (a : ExecutionAgentDescriptor) : result ResolveError AgentProfile :=
  let profile := MkProfile SchemaVersion a.(Agent_ID) 1 "" a.(Agent_ID) a.(Agent_Model) a.(Agent_Capabilities) [] ""
    a.(Agent_TrustMode) no_constraints (MkArtifactSource SourceOperatorConfig ("agents." +:+ a.(Agent_ID))) in
  let? digest := wrap ProfileDigestRefused (profile_ContentDigest profile) in
  Ok (profile_with_digest profile digest).

Definition candidateProfiles (input : ResolveInput) : result ResolveError (list AgentProfile) :=
  let installed := Profiles input.(Resolve_Registry) in
  let specialized : gset string := list_to_set (Profile_ExecutionAgent <$> installed) in
  let? direct := try_map DirectProfile (filter (λ a, a.(Agent_ID) ∉ specialized) input.(Resolve_Agents)) in
  Ok (sort_by Profile_ID (installed ++ direct)).

(** The state of the loop over the profiles. *)
Record Search := MkSearch {
  Search_Considered : list CandidateEvaluation;
  Search_Selected : option (AgentProfile * ExecutionAgentDescriptor);
  Search_BlockedBy : gset string
}.

Definition consider (input : ResolveInput) (s : PlanStage) (assigned : gmap string AgentAssignment)
  (agents : gmap string ExecutionAgentDescriptor) (search : Search) (p : AgentProfile) : Search :=
  let '(MkSearch considered selected blockedBy) := search in
  if (s.(Stage_Profile) ≠? "") && (p.(Profile_ID) ≠? s.(Stage_Profile)) then search
  else
    let evaluation eligible reasons := MkEvaluation p.(Profile_ID) p.(Profile_ExecutionAgent) eligible reasons in
    match agents !! p.(Profile_ExecutionAgent) with
    | None => MkSearch (considered ++ [evaluation false ["agent " +:+ p.(Profile_ExecutionAgent) +:+ " is not configured"]])
                selected ({[BlockNoEligibleProfile]} ∪ blockedBy)
    | Some a =>
        let refusals := eligibility s p a assigned in
        if 0 <? length refusals then
          MkSearch (considered ++ [evaluation false refusals.*1]) selected (list_to_set refusals.*2 ∪ blockedBy)
        else
          MkSearch (considered ++ [evaluation true []])
            (match selected with
             | None => Some (p, a)
             | Some (q, b) => if preferred p a q b s input.(Resolve_DefaultAgent) then Some (p, a) else selected
             end) blockedBy
    end.

Definition search_profiles (input : ResolveInput) (s : PlanStage) (profiles : list AgentProfile)
  (assigned : gmap string AgentAssignment) : Search :=
  fold_left (consider input s assigned (agentsByID input.(Resolve_Agents))) profiles (MkSearch [] None ∅).

Definition contextPolicyFor (input : ResolveInput) (s : PlanStage) (p : AgentProfile) : result ResolveError (option ContextPolicy) :=
  let id := if s.(Stage_ContextPolicy) ≟ "" then p.(Profile_ContextPolicy) else s.(Stage_ContextPolicy) in
  if id ≟ "" then Ok None
  else let? policy := wrap PolicyNotInstalled (registry_ContextPolicy input.(Resolve_Registry) id) in Ok (Some policy).

(** The assignment of a stage to the selected worker. *)
Definition assignment_of (input : ResolveInput) (s : PlanStage) (assigned : gmap string AgentAssignment)
  (considered : list CandidateEvaluation) (p : AgentProfile) (a : ExecutionAgentDescriptor) (pack : ContextPack) : AgentAssignment :=
  let plan := input.(Resolve_Plan) in
  MkAssignment SchemaVersion (assignmentID plan s) (MkPlanRef plan.(Plan_ID) plan.(Plan_Revision) plan.(Plan_Digest))
    s.(Stage_ID) s.(Stage_Role) s.(Stage_RequiresCapabilities)
    (match Binding input.(Resolve_Registry) p with Ok b => b | Err _ => direct_binding p [] None end)
    (MkAgentBinding a.(Agent_ID) a.(Agent_ProviderKind) a.(Agent_VendorFamily) a.(Agent_TrustMode) (effectiveModel p a))
    s.(Stage_InvocationMode) (effectiveTrust s p) (contract_revision input.(Resolve_Contract)) pack
    (tightenedByProfile s.(Stage_Budget) p.(Profile_Constraints)) (independenceBindings s assigned a p)
    (MkExplanation considered p.(Profile_ID) (selectionReason s p a input.(Resolve_DefaultAgent))) "".

Definition resolveStage (input : ResolveInput) (s : PlanStage) (profiles : list AgentProfile)
  (assigned : gmap string AgentAssignment) : result ResolveError (AgentAssignment + Blocked) :=
  let search := search_profiles input s profiles assigned in
  match search.(Search_Selected) with
  | None => Ok (inr (blocked s search.(Search_Considered) search.(Search_BlockedBy)))
  | Some (p, a) =>
      let? policy := contextPolicyFor input s p in
      let? pack := wrap ContextNotCompiled (CompileContext
        (MkContextInput s s.(Stage_Role) input.(Resolve_Plan).(Plan_Objective) input.(Resolve_Plan).(Plan_Stages)
           input.(Resolve_Contract) input.(Resolve_Model) input.(Resolve_Facts) policy
           (default [] (input.(Resolve_Upstream) !! s.(Stage_ID))) (independenceBindings s assigned a p))) in
      let assignment := assignment_of input s assigned search.(Search_Considered) p a pack in
      refuse_if (negb (encodes_assignment assignment)) (AssignmentInvalid s.(Stage_ID)) ;?
      Ok (inl assignment)
  end.

Definition missingArtifact (input : ResolveInput) (s : PlanStage) : string :=
  if (s.(Stage_Profile) ≠? "") && negb (is_ok (registry_Profile input.(Resolve_Registry) s.(Stage_Profile))) then
    "the stage pins agent profile " +:+ Quote s.(Stage_Profile) +:+ " and it is not installed"
  else if (s.(Stage_ContextPolicy) ≠? "") && negb (is_ok (registry_ContextPolicy input.(Resolve_Registry) s.(Stage_ContextPolicy))) then
    "the stage names context policy " +:+ Quote s.(Stage_ContextPolicy) +:+ " and it is not installed"
  else "".

(** The state of the loop over the stages: [assigned] and the resolution. *)
Definition resolve_step (input : ResolveInput) (profiles : list AgentProfile)
  (state : gmap string AgentAssignment * Resolution) (s : PlanStage) : result ResolveError (gmap string AgentAssignment * Resolution) :=
  let '(assigned, MkResolution assignments blocked) := state in
  let assign a := (<[s.(Stage_ID) := a]> assigned, MkResolution (assignments ++ [a]) blocked) in
  if negb (is_agent s) then Ok state
  else match input.(Resolve_Frozen) !! s.(Stage_ID) with
  | Some frozen => Ok (assign frozen)
  | None =>
      match input.(Resolve_Authorized) !! s.(Stage_ID) with
      | Some authorized => Ok (assign (rebindUpstream authorized (default [] (input.(Resolve_Upstream) !! s.(Stage_ID)))))
      | None =>
          let missing := missingArtifact input s in
          if missing ≠? "" then
            Ok (assigned, MkResolution assignments
                  (blocked ++ [MkBlocked s.(Stage_ID) s.(Stage_Role) BlockMissingArtifact missing (MkExplanation [] "" "") false]))
          else
            let? outcome := resolveStage input s profiles assigned in
            match outcome with
            | inl a => Ok (assign a)
            | inr b => Ok (assigned, MkResolution assignments (blocked ++ [b]))
            end
      end
  end.

Definition Resolve (input : ResolveInput) : result ResolveError Resolution :=
  let? profiles := candidateProfiles input in
  let? state := for_each (resolve_step input profiles) input.(Resolve_Plan).(Plan_Stages)
                  (input.(Resolve_Frozen), MkResolution [] []) in
  Ok state.2.
End resolve.
End resolver.
