(* ===== verification/ResolverFacts.v ===== *)
(** What the resolver guarantees: which stages keep the assignment they bring,
    and of the others who is eligible, which eligible worker is
    chosen, that every stage is accounted for, that assigned workers are
    separated as the plan demands, and the bounds it keeps. *)

From S2P Require Import Prelude GoStrings Domain Canonical WorkGraph Plan PlanGraph PlanValidate Agents Context Resolver.
From stdpp Require Import options.

(* ------------------------------------------------------------------ *)
(** * Eligibility *)

(** A class that says something. *)
Definition known_class (class : string) : Prop := class ≠ "" ∧ class ≠ unknown_class.

(** The worker differs, provably, from every worker the obligation names. *)
Definition separated (i : IndependenceRequirement) (mine : string) (assigned : gmap string AgentAssignment) : Prop :=
  ∀ other, other ∈ i.(Independence_DifferentFrom) →
    ∃ b, assigned !! other = Some b
      ∧ known_class mine ∧ known_class (assignedIndependenceClass i.(Independence_Dimension) b)
      ∧ mine ≠ assignedIndependenceClass i.(Independence_Dimension) b.

Record eligible (s : PlanStage) (p : AgentProfile) (a : ExecutionAgentDescriptor) (assigned : gmap string AgentAssignment) : Prop := {
  eligible_narrows : narrows p a;
  eligible_capabilities : ∀ c, c ∈ s.(Stage_RequiresCapabilities) → c ∈ p.(Profile_Capabilities);
  eligible_trust : (trustStrength (effectiveTrust s p) <= trustStrength a.(Agent_TrustMode))%Z;
  eligible_mode : s.(Stage_InvocationMode) ≠ "" → s.(Stage_InvocationMode) ∈ a.(Agent_InvocationModes);
  eligible_verdict : s.(Stage_Kind) = StageAgent → ProducesReviewVerdict s.(Stage_Role) = true → a.(Agent_StructuredVerdicts) = true;
  eligible_available : a.(Agent_Available) = true;
  eligible_separated : ∀ i, s.(Stage_Independence) = Some i →
    separated i (independenceClass i.(Independence_Dimension) p a) assigned
}.

Section eligibility.
Context `{!GoUnicode}.

Lemma peer_violation_none i mine assigned peers :
  peer_violation i.(Independence_Dimension) mine assigned peers = None ↔
  ∀ other, other ∈ peers → ∃ b, assigned !! other = Some b
      ∧ known_class mine ∧ known_class (assignedIndependenceClass i.(Independence_Dimension) b)
      ∧ mine ≠ assignedIndependenceClass i.(Independence_Dimension) b.
Proof.
  induction peers as [|other peers IH]; simpl; [split; [by intros _ ? ?%not_elem_of_nil|done]|].
  setoid_rewrite elem_of_cons. destruct (assigned !! other) as [b|] eqn:Hb.
  2: { split; [done|]. intros Hall. destruct (Hall other ltac:(by left)) as (? & ? & _). congruence. }
  destruct (_ || _) eqn:Hk.
  { split; [done|]. intros Hall. destruct (Hall other ltac:(by left)) as (c & Hc & [? ?] & [? ?] & _).
    rewrite Hb in Hc. injection Hc as <-. rewrite !orb_true_iff, !bool_decide_eq_true in Hk. naive_solver. }
  rewrite !orb_false_iff, !bool_decide_eq_false in Hk. destruct Hk as [[[? ?] ?] ?].
  destruct (bool_decide_reflect (mine = assignedIndependenceClass i.(Independence_Dimension) b)) as [He|He].
  { split; [done|]. intros Hall. destruct (Hall other ltac:(by left)) as (c & Hc & _ & _ & Hne).
    rewrite Hb in Hc. injection Hc as <-. done. }
  rewrite IH. split; [|by auto]. intros Hall x [->|Hx]; [|by apply Hall]. exists b. by split_and!.
Qed.

Lemma independenceViolation_none s p a assigned :
  independenceViolation s p a assigned = None ↔
  ∀ i, s.(Stage_Independence) = Some i → separated i (independenceClass i.(Independence_Dimension) p a) assigned.
Proof.
  unfold independenceViolation. destruct (Stage_Independence s) as [i|]; [|split; [by intros _ ? ?|done]].
  rewrite peer_violation_none, forall_some. done.
Qed.

Lemma if_nil {A} (b : bool) (l : list A) : l ≠ [] → (if b then l else []) = [] ↔ b = false.
Proof. destruct b; naive_solver. Qed.

(** The checks refuse nobody who is eligible and let nobody else through. *)
Lemma eligibility_nil s p a assigned : eligibility s p a assigned = [] ↔ eligible s p a assigned.
Proof.
  unfold eligibility. destruct (RefuseEscalation p a) as [[]|e] eqn:Hr.
  2: { split; [done|]. intros [Hn _ _ _ _ _ _]. apply RefuseEscalation_ok in Hn. congruence. }
  apply RefuseEscalation_ok in Hr. rewrite !app_nil, !if_nil by done.
  assert (∀ c, profileAdvertises p c = true ↔ c ∈ p.(Profile_Capabilities)) as Hadv.
  { intros c. unfold profileAdvertises. rewrite existsb_elem. setoid_rewrite bool_decide_eq_true. naive_solver. }
  assert (((λ c, ("profile does not advertise " +:+ c, BlockNoEligibleProfile))
     <$> filter (λ c, profileAdvertises p c = false) s.(Stage_RequiresCapabilities)) = []
    ↔ ∀ c, c ∈ s.(Stage_RequiresCapabilities) → c ∈ p.(Profile_Capabilities)) as ->.
  { split.
    - intros Hf%fmap_nil_inv c Hc. apply Hadv. destruct (profileAdvertises p c) eqn:He; [done|]. exfalso.
      assert (c ∈ filter (λ c, profileAdvertises p c = false) s.(Stage_RequiresCapabilities)) as Hx by (by apply list_elem_of_filter).
      rewrite Hf in Hx. by apply not_elem_of_nil in Hx.
    - intros Hall. rewrite list_filter_none; [done|]. intros c Hc. rewrite (proj2 (Hadv c)); [done|by apply Hall]. }
  assert (match independenceViolation s p a assigned with Some v => [(v, BlockIndependence)] | None => [] end = []
    ↔ independenceViolation s p a assigned = None) as -> by (destruct (independenceViolation s p a assigned); done).
  rewrite independenceViolation_none, Z.ltb_ge, negb_false_iff, !andb_false_iff, !negb_false_iff, bool_decide_eq_true.
  unfold ProducesStructuredVerdicts, is_agent. rewrite bool_decide_eq_false.
  assert (SupportsInvocationMode a s.(Stage_InvocationMode) = true ↔ s.(Stage_InvocationMode) ∈ a.(Agent_InvocationModes)) as ->.
  { unfold SupportsInvocationMode. rewrite existsb_elem. setoid_rewrite bool_decide_eq_true. naive_solver. }
  split.
  - intros (Hc & Ht & Hm & Hv & Ha & Hi). split; [done..| | |done|done].
    + intros Hne. by destruct Hm.
    + intros Hk Hp. destruct Hv as [[?|Hv]|?]; [done|congruence|done].
  - intros [_ Hc Ht Hm Hv Ha Hi]. split_and!; [done|done| | |done|done].
    + destruct (decide (s.(Stage_InvocationMode) = "")); auto.
    + destruct (decide (s.(Stage_Kind) = StageAgent)); [|auto]. destruct (ProducesReviewVerdict _); auto.
Qed.
End eligibility.

(* ------------------------------------------------------------------ *)
(** * The selection *)

Lemma ltb_le a b : String.ltb a b = false ↔ String.le b a.
Proof.
  unfold String.le, String.leb, String.ltb. rewrite (String.compare_antisym a b).
  destruct (String.compare b a); simpl; split; done.
Qed.

Lemma ltb_negtrans a b c : String.ltb a b = false → String.ltb c b = true → String.ltb a c = false.
Proof.
  rewrite !ltb_le. intros Hab Hcb. etrans; [|exact Hab].
  destruct (total String.le c b) as [?|Hle]; [done|]. apply ltb_le in Hle. congruence.
Qed.

(** Preference is a strict weak order on the candidates a pin lets through. *)
Lemma preferred_negtrans s d q b p a p' a' :
  (s.(Stage_Profile) ≠ "" → p.(Profile_ID) = s.(Stage_Profile)) →
  preferred q b p a s d = false → preferred p' a' p a s d = true → preferred q b p' a' s d = false.
Proof.
  intros Hpin. unfold preferred. destruct (bool_decide_reflect (s.(Stage_Profile) = "")) as [|Hne]; simpl.
  - destruct (bool_decide_reflect (d = "")); simpl; [apply ltb_negtrans|].
    destruct (bool_decide_reflect (b.(Agent_ID) = a.(Agent_ID))) as [e1|], (bool_decide_reflect (a'.(Agent_ID) = a.(Agent_ID))) as [e2|],
      (bool_decide_reflect (b.(Agent_ID) = a'.(Agent_ID))) as [e3|]; simpl; try (by rewrite ?e1, ?e2, ?e3 in *; congruence);
      repeat case_bool_decide; try done; try congruence; apply ltb_negtrans.
  - intros _ [_ Hx]%andb_true_iff. rewrite negb_true_iff, bool_decide_eq_false in Hx. by destruct (Hx (Hpin Hne)).
Qed.

Lemma preferred_irrefl s d p a : preferred p a p a s d = false.
Proof.
  unfold preferred. destruct (bool_decide_reflect (s.(Stage_Profile) = "")); simpl.
  - rewrite (bool_decide_true (a.(Agent_ID) = a.(Agent_ID))) by done. rewrite andb_false_r. by apply ltb_le.
  - destruct (bool_decide (p.(Profile_ID) = s.(Stage_Profile))); done.
Qed.

Section search.
Context `{!GoUnicode}.
Variables (input : ResolveInput) (s : PlanStage) (assigned : gmap string AgentAssignment).
Let agents := agentsByID input.(Resolve_Agents).

(** The profiles a pin leaves in play. *)
Definition in_play (p : AgentProfile) : Prop := s.(Stage_Profile) = "" ∨ p.(Profile_ID) = s.(Stage_Profile).

#[local] Instance in_play_dec p : Decision (in_play p).
Proof. unfold in_play. apply _. Defined.

(** A profile with the worker it names. *)
Definition candidate (profiles : list AgentProfile) (p : AgentProfile) (a : ExecutionAgentDescriptor) : Prop :=
  p ∈ profiles ∧ in_play p ∧ agents !! p.(Profile_ExecutionAgent) = Some a ∧ eligible s p a assigned.

(** What is recorded of one profile. *)
Definition recorded (p : AgentProfile) (e : CandidateEvaluation) : Prop :=
  e.(Evaluation_Profile) = p.(Profile_ID) ∧ e.(Evaluation_Agent) = p.(Profile_ExecutionAgent)
  ∧ (e.(Evaluation_Eligible) = true ↔ ∃ a, agents !! p.(Profile_ExecutionAgent) = Some a ∧ eligible s p a assigned)
  ∧ (e.(Evaluation_Eligible) = false → e.(Evaluation_Reasons) ≠ []).

Record search_inv (profiles : list AgentProfile) (search : Search) : Prop := {
  search_recorded : Forall2 recorded (filter in_play profiles) search.(Search_Considered);
  search_none : search.(Search_Selected) = None → ∀ p a, ¬ candidate profiles p a;
  search_some : ∀ p a, search.(Search_Selected) = Some (p, a) → candidate profiles p a
    ∧ ∀ q b, candidate profiles q b → preferred q b p a s input.(Resolve_DefaultAgent) = false
}.
Set Default Proof Using "All".

Lemma in_play_test p : (s.(Stage_Profile) ≠? "") && (p.(Profile_ID) ≠? s.(Stage_Profile)) = false ↔ in_play p.
Proof. unfold in_play. by rewrite andb_false_iff, !negb_false_iff, !bool_decide_eq_true. Qed.

Lemma candidate_snoc profiles p q b :
  candidate (profiles ++ [p]) q b ↔ candidate profiles q b ∨ candidate [p] q b.
Proof. unfold candidate. rewrite elem_of_app. tauto. Qed.

Lemma consider_inv profiles search p :
  search_inv profiles search → search_inv (profiles ++ [p]) (consider input s assigned agents search p).
Proof.
  intros [Hrec Hnone Hsome]. destruct search as [considered selected kinds]; simpl in *. unfold consider.
  destruct ((s.(Stage_Profile) ≠? "") && (p.(Profile_ID) ≠? s.(Stage_Profile))) eqn:Hp.
  { assert (¬ in_play p) as Hn by (rewrite <- in_play_test; congruence).
    assert (∀ q b, ¬ candidate [p] q b) as Hq by (by intros q b (->%list_elem_of_singleton & ? & _)).
    split; simpl.
    - rewrite filter_app, filter_cons_False, app_nil_r by done. exact Hrec.
    - intros Hs q b [Hc|Hc]%candidate_snoc; [by apply (Hnone Hs q b)|by apply (Hq q b)].
    - intros q b Hs. destruct (Hsome q b Hs) as [Hc Hbest]. split; [apply candidate_snoc; by left|].
      intros q' b' [Hc'|Hc']%candidate_snoc; [by apply Hbest|by apply Hq in Hc']. }
  apply in_play_test in Hp.
  assert (filter in_play (profiles ++ [p]) = filter in_play profiles ++ [p]) as Hfil
    by (by rewrite filter_app, filter_cons_True).
  destruct (agents !! p.(Profile_ExecutionAgent)) as [a|] eqn:Ha.
  2: { assert (∀ q b, ¬ candidate [p] q b) as Hq by (intros q b (->%list_elem_of_singleton & _ & Hx & _); congruence).
    split; simpl.
    - rewrite Hfil. apply Forall2_app; [done|]. constructor; [|done]. split_and!; [done|done| |done]. simpl.
      split; [done|]. intros (b & Hb & _). congruence.
    - intros Hs q b [Hc|Hc]%candidate_snoc; [by apply (Hnone Hs q b)|by apply (Hq q b)].
    - intros q b Hs. destruct (Hsome q b Hs) as [Hc Hbest]. split; [apply candidate_snoc; by left|].
      intros q' b' [Hc'|Hc']%candidate_snoc; [by apply Hbest|by apply Hq in Hc']. }
  destruct (0 <? length (eligibility s p a assigned))%nat eqn:Hl.
  { apply Nat.ltb_lt in Hl. assert (¬ eligible s p a assigned) as Hn.
    { rewrite <- eligibility_nil. intros He. rewrite He in Hl. simpl in Hl. lia. }
    assert (∀ q b, ¬ candidate [p] q b) as Hq by (intros q b (->%list_elem_of_singleton & _ & Hx & ?); congruence).
    split; simpl.
    - rewrite Hfil. apply Forall2_app; [done|]. constructor; [|done]. split_and!; [done|done| |]; simpl.
      + split; [done|]. intros (b & Hb & ?). congruence.
      + intros _ Hnil%fmap_nil_inv. rewrite Hnil in Hl. simpl in Hl. lia.
    - intros Hs q b [Hc|Hc]%candidate_snoc; [by apply (Hnone Hs q b)|by apply (Hq q b)].
    - intros q b Hs. destruct (Hsome q b Hs) as [Hc Hbest]. split; [apply candidate_snoc; by left|].
      intros q' b' [Hc'|Hc']%candidate_snoc; [by apply Hbest|by apply Hq in Hc']. }
  apply Nat.ltb_ge in Hl. assert (eligible s p a assigned) as He.
  { apply eligibility_nil, length_zero_iff_nil. lia. }
  assert (candidate [p] p a) as Hcp by (by split_and!; [left| | |]).
  assert (∀ q b, candidate [p] q b → q = p ∧ b = a) as Huniq.
  { intros q b (->%list_elem_of_singleton & _ & Hx & _). split; congruence. }
  split; simpl.
  - rewrite Hfil. apply Forall2_app; [done|]. constructor; [|done]. split_and!; [done|done| |done]. simpl. naive_solver.
  - destruct selected as [[q b]|]; [|done]. destruct (preferred _ _ _ _ _ _); done.
  - intros p' a'. destruct selected as [[q b]|].
    + destruct (Hsome q b eq_refl) as [Hc Hbest]. destruct (preferred p a q b s _) eqn:Hpref.
      * intros [= <- <-]. split; [apply candidate_snoc; by right|]. intros q' b' [Hc'|[-> ->]%Huniq]%candidate_snoc.
        -- eapply preferred_negtrans; [|by apply Hbest|exact Hpref]. intros Hne. destruct Hc as (_ & [?|?] & _); done.
        -- apply preferred_irrefl.
      * intros [= <- <-]. split; [apply candidate_snoc; by left|]. intros q' b' [Hc'|[-> ->]%Huniq]%candidate_snoc; [by apply Hbest|done].
    + intros [= <- <-]. split; [apply candidate_snoc; by right|]. intros q' b' [Hc'|[-> ->]%Huniq]%candidate_snoc;
        [by apply Hnone in Hc'|apply preferred_irrefl].
Qed.

Lemma search_profiles_inv profiles : search_inv profiles (search_profiles input s profiles assigned).
Proof.
  unfold search_profiles. fold agents. enough (∀ past search, search_inv past search →
    search_inv (past ++ profiles) (fold_left (consider input s assigned agents) profiles search)) as Hg.
  { apply (Hg []). split; simpl; [done|intros _ p a (Hx & _); by apply not_elem_of_nil in Hx|done]. }
  induction profiles as [|p l IH]; intros past search Hs; cbn [fold_left]; [by rewrite app_nil_r|].
  rewrite (app_assoc past [p] l : past ++ p :: l = _). by apply IH, consider_inv.
Qed.
End search.

(* ------------------------------------------------------------------ *)
(** * The run over the stages *)

Definition Outcome : Type := PlanStage * (AgentAssignment + Blocked).

(** The workers known after some outcomes: the frozen ones and those
    assigned. *)
Definition workers (frozen : gmap string AgentAssignment) (outcomes : list Outcome) : gmap string AgentAssignment :=
  fold_left (λ m o, match o.2 with inl a => <[o.1.(Stage_ID) := a]> m | inr _ => m end) outcomes frozen.

Definition resolution_of (outcomes : list Outcome) : Resolution :=
  MkResolution (omap (λ o, match o.2 with inl a => Some a | inr _ => None end) outcomes)
    (omap (λ o, match o.2 with inl _ => None | inr b => Some b end) outcomes).

Section run.
Context `{!GoUnicode, !MapRange, !Canonicalizer, !AssignmentSchema}.

(** What decides one stage. *)
Definition decided (input : ResolveInput) (profiles : list AgentProfile) (known : gmap string AgentAssignment) (o : Outcome) : Prop :=
  let s := o.1 in
  match input.(Resolve_Frozen) !! s.(Stage_ID), input.(Resolve_Authorized) !! s.(Stage_ID) with
  | Some frozen, _ => o.2 = inl frozen
  | None, Some authorized => o.2 = inl (rebindUpstream authorized (default [] (input.(Resolve_Upstream) !! s.(Stage_ID))))
  | None, None =>
      if missingArtifact input s ≟ "" then resolveStage input s profiles known = Ok o.2
      else o.2 = inr (MkBlocked s.(Stage_ID) s.(Stage_Role) BlockMissingArtifact (missingArtifact input s) (MkExplanation [] "" "") false)
  end.

(** Every worker stage has one outcome, in the order of the plan, decided
    against the workers known by then. *)
Record run (input : ResolveInput) (profiles : list AgentProfile) (stages : list PlanStage) (outcomes : list Outcome) : Prop := {
  run_stages : outcomes.*1 = filter (λ s, is_agent s = true) stages;
  run_decided : ∀ before o after, outcomes = before ++ o :: after →
    decided input profiles (workers input.(Resolve_Frozen) before) o
}.

Lemma workers_snoc frozen outcomes o :
  workers frozen (outcomes ++ [o])
  = match o.2 with inl a => <[o.1.(Stage_ID) := a]> (workers frozen outcomes) | inr _ => workers frozen outcomes end.
Proof. unfold workers. by rewrite fold_left_app. Qed.

Lemma resolution_of_snoc outcomes o :
  resolution_of (outcomes ++ [o])
  = match o.2 with
    | inl a => MkResolution ((resolution_of outcomes).(Resolution_Assignments) ++ [a]) (resolution_of outcomes).(Resolution_Blocked)
    | inr b => MkResolution (resolution_of outcomes).(Resolution_Assignments) ((resolution_of outcomes).(Resolution_Blocked) ++ [b])
    end.
Proof. unfold resolution_of. rewrite !omap_app. simpl. destruct (o.2); simpl; by rewrite ?app_nil_r. Qed.

Lemma run_snoc input profiles stages outcomes s o :
  run input profiles stages outcomes → is_agent s = true → decided input profiles (workers input.(Resolve_Frozen) outcomes) (s, o) →
  run input profiles (stages ++ [s]) (outcomes ++ [(s, o)]).
Proof.
  intros [Hs Hd] Ha Ho. split.
  - by rewrite fmap_app, Hs, filter_app, filter_cons_True.
  - intros before o' after He. destruct after as [|x after _] using rev_ind.
    + apply app_inj_tail in He as [<- <-]. exact Ho.
    + rewrite app_comm_cons, app_assoc in He. apply app_inj_tail in He as [-> _]. by eapply Hd.
Qed.

Lemma resolve_run input profiles stages state :
  for_each (resolve_step input profiles) stages (input.(Resolve_Frozen), MkResolution [] []) = Ok state →
  ∃ outcomes, run input profiles stages outcomes ∧ state = (workers input.(Resolve_Frozen) outcomes, resolution_of outcomes).
Proof.
  apply (for_each_ind (resolve_step input profiles) (λ done state, ∃ outcomes, run input profiles done outcomes
    ∧ state = (workers input.(Resolve_Frozen) outcomes, resolution_of outcomes))).
  { exists []. split; [|done]. split; [done|]. by intros [|? ?] ? ?. }
  intros past s rest s1 s2 _ (outcomes & Hrun & ->) Hstep. unfold resolve_step in Hstep.
  destruct (resolution_of outcomes) as [assignments blocked] eqn:Hro.
  destruct (is_agent s) eqn:Ha; simpl in Hstep.
  2: { injection Hstep as <-. exists outcomes. rewrite Hro. split; [|done]. destruct Hrun as [Hs Hd]. split; [|done].
       rewrite filter_app, filter_cons_False, app_nil_r; [done|congruence]. }
  assert (∀ o, decided input profiles (workers input.(Resolve_Frozen) outcomes) (s, o) →
    s2 = (match o with inl a => <[s.(Stage_ID) := a]> (workers input.(Resolve_Frozen) outcomes) | inr _ => workers input.(Resolve_Frozen) outcomes end,
          match o with inl a => MkResolution (assignments ++ [a]) blocked | inr b => MkResolution assignments (blocked ++ [b]) end) →
    ∃ outcomes, run input profiles (past ++ [s]) outcomes
      ∧ s2 = (workers input.(Resolve_Frozen) outcomes, resolution_of outcomes)) as Hdone.
  { intros o Ho ->. exists (outcomes ++ [(s, o)]). split; [by apply run_snoc|]. rewrite workers_snoc, resolution_of_snoc, Hro. by destruct o. }
  unfold decided in Hdone. simpl in Hdone.
  destruct (input.(Resolve_Frozen) !! s.(Stage_ID)) as [frozen|]; [by injection Hstep as <-; apply (Hdone (inl frozen))|].
  destruct (input.(Resolve_Authorized) !! s.(Stage_ID)) as [authorized|];
    [by injection Hstep as <-; eapply (Hdone (inl _))|].
  destruct (bool_decide_reflect (missingArtifact input s = "")) as [|Hm]; simpl in Hstep.
  - apply rbind_ok in Hstep as ([a|b] & Hr & [= <-]); [by apply (Hdone (inl a))|by apply (Hdone (inr b))].
  - injection Hstep as <-. by eapply (Hdone (inr _)).
Qed.

Lemma Resolve_run input r :
  Resolve input = Ok r →
  ∃ profiles outcomes, candidateProfiles input = Ok profiles
    ∧ run input profiles input.(Resolve_Plan).(Plan_Stages) outcomes ∧ r = resolution_of outcomes.
Proof.
  unfold Resolve. intros (profiles & Hp & (state & Hs & [= <-])%rbind_ok)%rbind_ok.
  apply resolve_run in Hs as (outcomes & Hrun & ->). by exists profiles, outcomes.
Qed.

Lemma workers_lookup frozen outcomes id b :
  workers frozen outcomes !! id = Some b →
  frozen !! id = Some b ∨ ∃ s, (s, inl b) ∈ outcomes ∧ s.(Stage_ID) = id.
Proof.
  induction outcomes as [|[s o] l IH] using rev_ind; [by left|]. rewrite workers_snoc. simpl. setoid_rewrite elem_of_app.
  destruct o as [a|c]; [|intros [?|(t & ? & ?)]%IH; [by left|right; eauto]].
  intros [[<- <-]|[_ [?|(t & ? & ?)]%IH]]%lookup_insert_Some; [|by left|right; eauto].
  right. exists s. split; [right; by left|done].
Qed.

(** The stage resolves to a selected candidate and a compiled context, or is
    blocked with every candidate refused. *)
Lemma resolveStage_ok input s profiles known o :
  resolveStage input s profiles known = Ok o →
  match o with
  | inl a => ∃ p w policy considered, candidate input s known profiles p w
      ∧ (∀ q b, candidate input s known profiles q b → preferred q b p w s input.(Resolve_DefaultAgent) = false)
      ∧ contextPolicyFor input s p = Ok policy
      ∧ CompileContext (MkContextInput s s.(Stage_Role) input.(Resolve_Plan).(Plan_Objective) input.(Resolve_Plan).(Plan_Stages)
           input.(Resolve_Contract) input.(Resolve_Model) input.(Resolve_Facts) policy
           (default [] (input.(Resolve_Upstream) !! s.(Stage_ID))) (independenceBindings s known w p)) = Ok a.(Assignment_Context)
      ∧ Forall2 (recorded input s known) (filter (in_play s) profiles) considered
      ∧ a = assignment_of input s known considered p w a.(Assignment_Context)
      ∧ encodes_assignment a = true
  | inr b => (∀ p w, ¬ candidate input s known profiles p w)
      ∧ b.(Blocked_StageID) = s.(Stage_ID) ∧ b.(Blocked_Kind) ≠ BlockMissingArtifact
      ∧ Forall2 (recorded input s known) (filter (in_play s) profiles) b.(Blocked_Explain).(Explanation_Considered)
  end.
Proof.
  unfold resolveStage. destruct (search_profiles_inv input s known profiles) as [Hrec Hnone Hsome].
  destruct (Search_Selected _) as [[p w]|] eqn:Hs.
  - intros (policy & Hp & (pack & Hc%wrap_ok & [He%negb_false_iff [= <-]]%refuse_if_then)%rbind_ok)%rbind_ok.
    destruct (Hsome p w eq_refl) as [Hcand Hbest]. exists p, w, policy. eexists. by split_and!.
  - intros [= <-]. split_and!; [by apply Hnone|done| |exact Hrec]. simpl. unfold blocked_kind. repeat case_bool_decide; done.
Qed.
End run.

(** What one resolved stage is given. *)
Lemma assigned_class input s known considered p w pack dimension :
  assignedIndependenceClass dimension (assignment_of input s known considered p w pack) = independenceClass dimension p w.
Proof.
  unfold assignedIndependenceClass, independenceClass. simpl.
  assert (∀ b, Binding input.(Resolve_Registry) p = Ok b → b.(Binding_ID) = p.(Profile_ID) ∧ b.(Binding_Digest) = p.(Profile_Digest)) as Hb.
  { intros b (refs & _ & Hb)%rbind_ok. case_bool_decide; [by injection Hb as <-|].
    apply rbind_ok in Hb as (policy & _ & [= <-]). done. }
  destruct (Binding _ p) as [b|]; [|done]. destruct (Hb b eq_refl) as [-> ->]. done.
Qed.

(** A bound narrowed by a stated one. *)
Lemma narrowed o bound r :
  (match stated_positive o with Some n => if ((bound <=? 0) || (n <? bound))%Z then n else bound | None => bound end) = r →
  ((0 < bound → 0 < r <= bound) ∧ (∀ n, o = Some n → 0 < n → 0 < r <= n))%Z.
Proof.
  unfold stated_positive. intros <-. destruct o as [m|]; [|split; [lia|done]]. destruct (Z.ltb_spec 0 m).
  - destruct (Z.leb_spec bound 0); simpl; [split; [lia|intros ? [= <-]; lia]|].
    destruct (Z.ltb_spec m bound); (split; [lia|intros ? [= <-]; lia]).
  - split; [lia|intros ? [= <-]; lia].
Qed.

Lemma tightened_wall_ok o b :
  tightened_wall o b = MkStageBudget b.(Budget_MaxExecutionAttempts) b.(Budget_MaxProviderInvocations)
    (match stated_positive o with
     | Some n => if ((b.(Budget_MaxWallSeconds) <=? 0) || (n <? b.(Budget_MaxWallSeconds)))%Z then n else b.(Budget_MaxWallSeconds)
     | None => b.(Budget_MaxWallSeconds) end).
Proof. unfold tightened_wall. destruct b, (stated_positive o); [|done]. simpl. by destruct (_ || _). Qed.

Lemma tightened_total_ok o b :
  tightened_total o b = MkStageBudget b.(Budget_MaxExecutionAttempts)
    (match stated_positive o with
     | Some n => if ((b.(Budget_MaxProviderInvocations) <=? 0) || (n <? b.(Budget_MaxProviderInvocations)))%Z then n
                 else b.(Budget_MaxProviderInvocations)
     | None => b.(Budget_MaxProviderInvocations) end) b.(Budget_MaxWallSeconds).
Proof. unfold tightened_total. destruct b, (stated_positive o); [|done]. simpl. by destruct (_ || _). Qed.

Lemma tightened_attempts_ok o b :
  let r := tightened_attempts o b in
  r.(Budget_MaxProviderInvocations) = b.(Budget_MaxProviderInvocations) ∧ r.(Budget_MaxWallSeconds) = b.(Budget_MaxWallSeconds)
  ∧ (0 < b.(Budget_MaxExecutionAttempts) → 0 < r.(Budget_MaxExecutionAttempts) <= b.(Budget_MaxExecutionAttempts))%Z
  ∧ (b.(Budget_MaxExecutionAttempts) <= 0 → 0 < r.(Budget_MaxExecutionAttempts) → 0 < b.(Budget_MaxProviderInvocations) →
       r.(Budget_MaxExecutionAttempts) <= b.(Budget_MaxProviderInvocations))%Z
  ∧ (∀ n, o = Some n → 0 < n → 0 < r.(Budget_MaxExecutionAttempts) <= n ∨ 0 < b.(Budget_MaxProviderInvocations) < n)%Z.
Proof.
  unfold tightened_attempts, stated_positive. destruct o as [n|]; [|split_and!; [done..|lia|lia|done]].
  destruct (Z.ltb_spec 0 n); [|split_and!; [done..|lia|lia|intros ? [= <-] ?; lia]].
  destruct (Z.ltb_spec 0 b.(Budget_MaxExecutionAttempts)).
  - destruct (Z.ltb_spec n b.(Budget_MaxExecutionAttempts)); simpl; (split_and!; [done..|lia|lia|intros ? [= <-] ?; lia]).
  - destruct (Z.leb_spec b.(Budget_MaxProviderInvocations) 0), (Z.leb_spec n b.(Budget_MaxProviderInvocations)); simpl;
      (split_and!; [done..|lia|lia|intros ? [= <-] ?; lia]).
Qed.

(** A budget narrowed by the constraints of a profile: a bound the stage states
    is never raised nor lifted, a bound the profile states is kept to (a retry
    bound it introduces, unless the total is below it, and then fits in the
    total). *)
Record budget_narrowed (b : StageBudget) (c : ProfileConstraints) (r : StageBudget) : Prop := {
  narrowed_wall : (0 < b.(Budget_MaxWallSeconds) → 0 < r.(Budget_MaxWallSeconds) <= b.(Budget_MaxWallSeconds))%Z;
  narrowed_total : (0 < b.(Budget_MaxProviderInvocations) → 0 < r.(Budget_MaxProviderInvocations) <= b.(Budget_MaxProviderInvocations))%Z;
  narrowed_attempts : (0 < b.(Budget_MaxExecutionAttempts) → 0 < r.(Budget_MaxExecutionAttempts) <= b.(Budget_MaxExecutionAttempts))%Z;
  narrowed_to_wall n : c.(Constraints_MaxWallSeconds) = Some n → (0 < n → 0 < r.(Budget_MaxWallSeconds) <= n)%Z;
  narrowed_to_total n : c.(Constraints_MaxProviderInvocations) = Some n → (0 < n → 0 < r.(Budget_MaxProviderInvocations) <= n)%Z;
  narrowed_to_attempts n : c.(Constraints_MaxExecutionAttempts) = Some n →
    (0 < n → 0 < r.(Budget_MaxExecutionAttempts) <= n ∨ 0 < r.(Budget_MaxProviderInvocations) < n)%Z;
  narrowed_retries : (b.(Budget_MaxExecutionAttempts) <= 0 → 0 < r.(Budget_MaxExecutionAttempts) → 0 < r.(Budget_MaxProviderInvocations) →
    r.(Budget_MaxExecutionAttempts) <= r.(Budget_MaxProviderInvocations))%Z
}.

Lemma tightenedByProfile_narrows b c : budget_narrowed b c (tightenedByProfile b c).
Proof.
  unfold tightenedByProfile. rewrite tightened_wall_ok, tightened_total_ok. simpl.
  match goal with |- context [tightened_attempts ?o ?b'] => pose proof (tightened_attempts_ok o b') as (Htotal & Hwall & Ha & Hn & Hto) end.
  simpl in *. destruct (narrowed c.(Constraints_MaxWallSeconds) b.(Budget_MaxWallSeconds) _ eq_refl) as [Hw1 Hw2].
  destruct (narrowed c.(Constraints_MaxProviderInvocations) b.(Budget_MaxProviderInvocations) _ eq_refl) as [Ht1 Ht2].
  by split; rewrite ?Htotal, ?Hwall.
Qed.

Section claims.
Context `{!GoUnicode, !MapRange, !Canonicalizer, !AssignmentSchema}.

(** ** What a stage brings with it *)

(** The assignment a stage already has: the one it runs under, or the one that
    was approved for it, bound to the accepted output it is given now. *)
Definition carried (input : ResolveInput) (s : PlanStage) : option AgentAssignment :=
  match input.(Resolve_Frozen) !! s.(Stage_ID) with
  | Some frozen => Some frozen
  | None => (λ a, rebindUpstream a (default [] (input.(Resolve_Upstream) !! s.(Stage_ID)))) <$> input.(Resolve_Authorized) !! s.(Stage_ID)
  end.

(** What the stage names is installed. *)
Definition installed (input : ResolveInput) (s : PlanStage) : Prop :=
  (s.(Stage_Profile) ≠ "" → is_ok (registry_Profile input.(Resolve_Registry) s.(Stage_Profile)) = true)
  ∧ (s.(Stage_ContextPolicy) ≠ "" → is_ok (registry_ContextPolicy input.(Resolve_Registry) s.(Stage_ContextPolicy)) = true).

Lemma missingArtifact_none input s : missingArtifact input s = "" ↔ installed input s.
Proof.
  unfold missingArtifact, installed. destruct (bool_decide_reflect (s.(Stage_Profile) = "")) as [->|Hp], (is_ok (registry_Profile input.(Resolve_Registry) s.(Stage_Profile))) eqn:Hip;
    destruct (bool_decide_reflect (s.(Stage_ContextPolicy) = "")) as [->|Hc], (is_ok (registry_ContextPolicy input.(Resolve_Registry) s.(Stage_ContextPolicy))) eqn:Hic; cbn [negb andb]; naive_solver.
Qed.

(** What was decided of a stage, by what it brings with it. *)
Lemma decided_cases input profiles known s o : decided input profiles known (s, o) →
  match carried input s with
  | Some a => o = inl a
  | None =>
      (installed input s → resolveStage input s profiles known = Ok o)
      ∧ (¬ installed input s → o = inr (MkBlocked s.(Stage_ID) s.(Stage_Role) BlockMissingArtifact (missingArtifact input s) (MkExplanation [] "" "") false))
  end.
Proof.
  unfold decided, carried. cbn [fst snd]. destruct (input.(Resolve_Frozen) !! s.(Stage_ID)) as [frozen|]; [done|].
  destruct (input.(Resolve_Authorized) !! s.(Stage_ID)) as [authorized|]; [done|]. cbn. rewrite <- missingArtifact_none.
  destruct (bool_decide_reflect (missingArtifact input s = "")); done.
Qed.

Lemma decided_assigned input profiles known s a : decided input profiles known (s, inl a) → carried input s = None →
  resolveStage input s profiles known = Ok (inl a).
Proof.
  intros Hd%decided_cases Hc. rewrite Hc in Hd. destruct Hd as [Hi Hn]. apply Hi.
  destruct (bool_decide_reflect (missingArtifact input s = "")) as [Hm|Hm]; [by apply missingArtifact_none|]. rewrite missingArtifact_none in Hm. by specialize (Hn Hm).
Qed.

(** C19: No worker is chosen beside one it must differ from.  Each worker stage
    of the plan has one outcome.  A stage that brings an assignment with it,
    frozen because it runs or approved by an earlier resolution, keeps it,
    unchecked here.  Any other stage that is assigned with an independence
    obligation has, for every stage the obligation names, a worker already fixed
    whose class in that dimension is known and different from its own. *)
Theorem Resolve_independent input r :
  Resolve input = Ok r →
  ∃ outcomes, outcomes.*1 = filter (λ s, is_agent s = true) input.(Resolve_Plan).(Plan_Stages) ∧ r = resolution_of outcomes
    ∧ (∀ s o a, (s, o) ∈ outcomes → carried input s = Some a → o = inl a)
    ∧ ∀ s a i other, (s, inl a) ∈ outcomes → carried input s = None →
        s.(Stage_Independence) = Some i → other ∈ i.(Independence_DifferentFrom) →
        ∃ b, (input.(Resolve_Frozen) !! other = Some b ∨ ∃ t, (t, inl b) ∈ outcomes ∧ t.(Stage_ID) = other)
          ∧ let class := assignedIndependenceClass i.(Independence_Dimension) in
            known_class (class a) ∧ known_class (class b) ∧ class a ≠ class b.
Proof.
  intros (profiles & outcomes & _ & [Hs Hd] & ->)%Resolve_run. exists outcomes. split_and!; [done..| |].
  { intros s o a (before & after & He)%list_elem_of_split Hc. specialize (Hd before _ after He). apply decided_cases in Hd. by rewrite Hc in Hd. }
  intros s a i other (before & after & He)%list_elem_of_split Hc Hi Ho. specialize (Hd before _ after He).
  apply decided_assigned in Hd; [|done]. apply resolveStage_ok in Hd as (p & w & policy & considered & (_ & _ & _ & Hel) & _ & _ & _ & _ & Heq & _).
  destruct (eligible_separated _ _ _ _ Hel i Hi other Ho) as (b & Hb & ? & ? & ?). exists b. split.
  - apply workers_lookup in Hb as [?|(t & Ht & ?)]; [by left|]. right. exists t. split; [|done].
    rewrite He. apply elem_of_app. by left.
  - cbv zeta. rewrite Heq, assigned_class. done.
Qed.

(** C20: A stage that brings no assignment with it (none it runs under, none an
    earlier resolution had approved) is assigned only to a worker that can do
    it: a profile that narrows a registered, available worker, that has every
    capability the stage requires, in a mode and with a trust no weaker than
    stage and profile ask for.  Its budget keeps every bound the stage and the
    profile state: a stated bound on wall time, invocations or attempts is never
    raised nor lifted, and a retry bound the profile introduces fits in the
    total. *)
Theorem Resolve_eligible input r :
  Resolve input = Ok r →
  ∃ profiles outcomes, candidateProfiles input = Ok profiles ∧ r = resolution_of outcomes
    ∧ outcomes.*1 = filter (λ s, is_agent s = true) input.(Resolve_Plan).(Plan_Stages)
    ∧ ∀ s a, (s, inl a) ∈ outcomes → carried input s = None →
        ∃ p w, p ∈ profiles ∧ w ∈ input.(Resolve_Agents) ∧ p.(Profile_ExecutionAgent) = w.(Agent_ID)
          ∧ narrows p w ∧ w.(Agent_Available) = true
          ∧ (s.(Stage_Profile) ≠ "" → p.(Profile_ID) = s.(Stage_Profile))
          ∧ (∀ c, c ∈ s.(Stage_RequiresCapabilities) → c ∈ w.(Agent_Capabilities))
          ∧ (s.(Stage_InvocationMode) ≠ "" → s.(Stage_InvocationMode) ∈ w.(Agent_InvocationModes))
          ∧ (trustStrength s.(Stage_TrustRequirement) <= trustStrength a.(Assignment_TrustRequirement)
             <= trustStrength w.(Agent_TrustMode))%Z
          ∧ a.(Assignment_StageID) = s.(Stage_ID) ∧ a.(Assignment_Agent).(AgentBinding_ID) = w.(Agent_ID)
          ∧ budget_narrowed s.(Stage_Budget) p.(Profile_Constraints) a.(Assignment_Budget).
Proof.
  intros (profiles & outcomes & Hp & [Hs Hd] & ->)%Resolve_run. exists profiles, outcomes. split_and!; [done..|].
  intros s a (before & after & He)%list_elem_of_split Hc. specialize (Hd before _ after He). apply decided_assigned in Hd; [|done].
  apply resolveStage_ok in Hd as (p & w & policy & considered & (Hin & Hplay & Hw & Hel) & _ & _ & _ & _ & Heq & _).
  apply agentsByID_lookup in Hw as [Hw1 Hw2]. destruct Hel as [Hn Hcaps Ht Hm Hv Hav _].
  exists p, w. rewrite Heq. simpl. split_and!; try done.
  - intros Hne. by destruct Hplay.
  - intros c Hcap. apply (narrows_capabilities _ _ Hn). by apply Hcaps.
  - unfold effectiveTrust. destruct (Z.ltb_spec (trustStrength s.(Stage_TrustRequirement)) (trustStrength p.(Profile_TrustRequirement))); [lia|].
    destruct (bool_decide_reflect (s.(Stage_TrustRequirement) = "")) as [->|]; [|lia]. vm_compute. done.
  - apply tightenedByProfile_narrows.
Qed.

(** C21: A stage with an eligible worker is never left waiting.  A stage that
    brings an assignment with it keeps it; one that names a profile or a context
    policy that is not installed is blocked for that, with no profile
    considered; any other stage is assigned when some worker is eligible, to an
    eligible worker no eligible worker is preferred to, and when it is left
    blocked it records every profile in play, each with the reasons it was
    refused for. *)
Theorem Resolve_live input r :
  Resolve input = Ok r →
  ∃ profiles outcomes, candidateProfiles input = Ok profiles ∧ r = resolution_of outcomes
    ∧ outcomes.*1 = filter (λ s, is_agent s = true) input.(Resolve_Plan).(Plan_Stages)
    ∧ ∀ before s o after, outcomes = before ++ (s, o) :: after →
        let known := workers input.(Resolve_Frozen) before in
        (∀ a, carried input s = Some a → o = inl a)
        ∧ (carried input s = None → ¬ installed input s → ∃ b, o = inr b ∧ b.(Blocked_StageID) = s.(Stage_ID) ∧ b.(Blocked_Kind) = BlockMissingArtifact
             ∧ b.(Blocked_Reason) = missingArtifact input s ∧ b.(Blocked_Explain).(Explanation_Considered) = [])
        ∧ (carried input s = None → installed input s →
             (∀ p w, candidate input s known profiles p w →
                ∃ a q v, o = inl a ∧ candidate input s known profiles q v
                  ∧ a.(Assignment_Agent).(AgentBinding_ID) = v.(Agent_ID) ∧ preferred p w q v s input.(Resolve_DefaultAgent) = false)
             ∧ (∀ b, o = inr b → b.(Blocked_Kind) ≠ BlockMissingArtifact
                  ∧ Forall2 (λ p e, e.(Evaluation_Profile) = p.(Profile_ID) ∧ e.(Evaluation_Eligible) = false ∧ e.(Evaluation_Reasons) ≠ [])
                    (filter (in_play s) profiles) b.(Blocked_Explain).(Explanation_Considered))).
Proof.
  intros (profiles & outcomes & Hp & [Hs Hd] & ->)%Resolve_run. exists profiles, outcomes. split_and!; [done..|].
  intros before s o after He known. specialize (Hd before _ after He). apply decided_cases in Hd. fold known in Hd. split_and!.
  { intros a Hc. by rewrite Hc in Hd. }
  { intros Hc Hn. rewrite Hc in Hd. destruct Hd as [_ Hd]. specialize (Hd Hn). subst o. by eexists. }
  intros Hc Hi. rewrite Hc in Hd. destruct Hd as [Hd _]. specialize (Hd Hi). apply resolveStage_ok in Hd. split.
  - intros p w Hcand. destruct o as [a|b]; [|by destruct Hd as [Hn _]; apply Hn in Hcand].
    destruct Hd as (q & v & policy & considered & Hq & Hbest & _ & _ & _ & Heq & _). exists a, q, v. rewrite Heq. auto.
  - intros b ->. destruct Hd as (Hn & _ & Hkind & Hrec). split; [done|]. rewrite Forall2_lookup. intros i. rewrite Forall2_lookup in Hrec. specialize (Hrec i).
    destruct (filter (in_play s) profiles !! i) as [p|] eqn:Hfi; inversion Hrec as [? e (He1 & _ & He3 & He4) E1 E2|]; constructor.
    split; [done|]. destruct (Evaluation_Eligible e) eqn:Hel; [|auto]. exfalso.
    apply list_elem_of_lookup_2, list_elem_of_filter in Hfi as [Hplay Hin].
    destruct (proj1 He3 eq_refl) as (w & Hw & Hw'). by apply (Hn p w).
Qed.
End claims.

(* ------------------------------------------------------------------ *)
(** * The bound on a reason *)

(** A rune: a byte that starts one and at most three that continue it. *)
Definition rune (r : list N) : Prop :=
  ∃ b t, r = b :: t ∧ (length t <= 3)%nat ∧ RuneStart b = true ∧ Forall (λ c, RuneStart c = false) t.

Lemma utf8_2_rune b0 b1 : utf8_2 b0 b1 = true → rune [b0; b1].
Proof.
  unfold utf8_2, in_range. rewrite !andb_true_iff, !N.leb_le. intros [[? ?] Hc]. exists b0, [b1]. unfold RuneStart. split_and!; [done|simpl; lia| |].
  - unfold cont, in_range. rewrite negb_true_iff, andb_false_iff, !N.leb_gt. lia.
  - repeat constructor. by rewrite Hc.
Qed.

Lemma in_range_cont lo hi b : (128 <= lo)%N → (hi <= 191)%N → in_range lo hi b = true → cont b = true.
Proof. unfold cont, in_range. rewrite !andb_true_iff, !N.leb_le. lia. Qed.

Lemma utf8_3_rune b0 b1 b2 : utf8_3 b0 b1 b2 = true → rune [b0; b1; b2].
Proof.
  unfold utf8_3. rewrite andb_true_iff. intros [H Hc].
  assert ((224 <= b0)%N ∧ cont b1 = true) as [H0 H1].
  { rewrite !orb_true_iff, !andb_true_iff, orb_true_iff, !N.eqb_eq in H.
    destruct H as [[[-> H]|[[H|H] ?]]|[-> H]]; (split; [|done || (eapply in_range_cont; [| |exact H]; lia)]);
      try lia; unfold in_range in H; rewrite andb_true_iff, !N.leb_le in H; lia. }
  exists b0, [b1; b2]. unfold RuneStart. split_and!; [done|simpl; lia| |repeat constructor; by rewrite ?H1, ?Hc].
  unfold cont, in_range. rewrite negb_true_iff, andb_false_iff, !N.leb_gt. lia.
Qed.

Lemma utf8_4_rune b0 b1 b2 b3 : utf8_4 b0 b1 b2 b3 = true → rune [b0; b1; b2; b3].
Proof.
  unfold utf8_4. rewrite !andb_true_iff. intros [[H Hc2] Hc3].
  assert ((240 <= b0)%N ∧ cont b1 = true) as [H0 H1].
  { rewrite !orb_true_iff, !andb_true_iff, !N.eqb_eq in H.
    destruct H as [[[-> H]|[H ?]]|[-> H]]; (split; [|done || (eapply in_range_cont; [| |exact H]; lia)]);
      try lia; unfold in_range in H; rewrite andb_true_iff, !N.leb_le in H; lia. }
  exists b0, [b1; b2; b3]. unfold RuneStart. split_and!; [done|simpl; lia| |repeat constructor; by rewrite ?H1, ?Hc2, ?Hc3].
  unfold cont, in_range. rewrite negb_true_iff, andb_false_iff, !N.leb_gt. lia.
Qed.

(** A rune that can stand in front of any text. *)
Definition utf8_rune (r : list N) : Prop := rune r ∧ ∀ rest, valid_utf8 (r ++ rest) = valid_utf8 rest.

(** Valid text is a sequence of runes. *)
Lemma valid_utf8_runes l : valid_utf8 l = true → ∃ rs, l = mjoin rs ∧ Forall utf8_rune rs.
Proof.
  induction l as [l IH] using (induction_ltof1 _ length). unfold ltof in IH.
  assert (∀ r l', l = r ++ l' → (0 < length r)%nat → utf8_rune r → valid_utf8 l' = true → ∃ rs, l = mjoin rs ∧ Forall utf8_rune rs) as Hgo.
  { intros r l' -> Hr Hu (rs & -> & Hrs)%IH; [|rewrite length_app; lia]. exists (r :: rs). split; [done|by constructor]. }
  destruct l as [|b0 l0]; [by exists []|]. simpl. destruct (b0 <? 0x80)%N eqn:Hb.
  { intros Hv. apply (Hgo [b0] l0); [done|simpl; lia| |done]. split; [|intros rest; simpl; by rewrite Hb].
    exists b0, []. split_and!; [done|simpl; lia| |done]. unfold RuneStart, cont, in_range. apply N.ltb_lt in Hb.
    rewrite negb_true_iff, andb_false_iff, !N.leb_gt. lia. }
  destruct l0 as [|b1 l1]; [done|]. destruct (utf8_2 b0 b1) eqn:H2.
  { intros Hv. apply (Hgo [b0; b1] l1); [done|simpl; lia| |done]. split; [by apply utf8_2_rune|]. intros rest. simpl. by rewrite Hb, H2. }
  destruct l1 as [|b2 l2]; [done|]. destruct (utf8_3 b0 b1 b2) eqn:H3.
  { intros Hv. apply (Hgo [b0; b1; b2] l2); [done|simpl; lia| |done]. split; [by apply utf8_3_rune|].
    intros rest. simpl. by rewrite Hb, H2, H3. }
  destruct l2 as [|b3 l3]; [done|]. intros [H4 Hv]%andb_true_iff.
  apply (Hgo [b0; b1; b2; b3] l3); [done|simpl; lia| |done]. split; [by apply utf8_4_rune|].
  intros rest. simpl. by rewrite Hb, H2, H3, H4.
Qed.

Lemma drop_invalid_valid l : valid_utf8 (drop_invalid l) = true ∧ ∀ b, b ∈ drop_invalid l → b ∈ l.
Proof.
  unfold drop_invalid.
  induction l as [l IH] using (induction_ltof1 _ length). unfold ltof in IH.
  destruct l as [|b0 l0]; [done|]. simpl.
  destruct (b0 <? 0x80)%N eqn:Hb.
  { destruct (IH l0) as [Hv Hi]; [simpl; lia|]. simpl. rewrite Hb. split; [done|]. set_solver. }
  destruct (IH l0) as [Hv0 Hi0]; [simpl; lia|].
  destruct l0 as [|b1 l1]; [split; [done|set_solver]|]. destruct (utf8_2 b0 b1) eqn:H2.
  { destruct (IH l1) as [Hv Hi]; [simpl; lia|]. simpl. rewrite Hb, H2. split; [done|]. set_solver. }
  destruct l1 as [|b2 l2]; [split; [done|set_solver]|]. destruct (utf8_3 b0 b1 b2) eqn:H3.
  { destruct (IH l2) as [Hv Hi]; [simpl; lia|]. simpl. rewrite Hb, H2, H3. split; [done|]. set_solver. }
  destruct l2 as [|b3 l3]; [split; [done|set_solver]|]. destruct (utf8_4 b0 b1 b2 b3) eqn:H4; [|split; [done|set_solver]].
  destruct (IH l3) as [Hv Hi]; [simpl; lia|]. simpl. rewrite Hb, H2, H3, H4. split; [done|]. set_solver.
Qed.

(** Text cut where a rune starts stays valid, and a rune starts within three
    bytes before any byte. *)
Lemma cut_valid l n b : valid_utf8 l = true → l !! n = Some b → RuneStart b = true → valid_utf8 (take n l) = true.
Proof.
  intros (rs & -> & Hrs)%valid_utf8_runes. revert n. induction Hrs as [|r rs [(x & t & -> & Ht & Hx & Hc) Hv] Hrs IH]; intros n; [done|].
  change (mjoin ((x :: t) :: rs)) with ((x :: t) ++ mjoin rs). intros [Hl|[Hge Hl]]%lookup_app_Some Hb.
  - destruct n as [|n]; [done|]. simpl in Hl. apply list_elem_of_lookup_2 in Hl. rewrite Forall_forall in Hc.
    rewrite (Hc b Hl) in Hb. done.
  - rewrite take_app_ge by done. rewrite Hv. by apply IH.
Qed.

Lemma rune_start_near l n : valid_utf8 l = true → (n < length l)%nat →
  ∃ k b, (k <= 3)%nat ∧ (k <= n)%nat ∧ l !! (n - k)%nat = Some b ∧ RuneStart b = true.
Proof.
  intros (rs & -> & Hrs)%valid_utf8_runes. revert n. induction Hrs as [|r rs [(x & t & -> & Ht & Hx & Hc) Hv] Hrs IH]; intros n; [simpl; lia|].
  change (mjoin ((x :: t) :: rs)) with ((x :: t) ++ mjoin rs). rewrite length_app. intros Hn.
  destruct (decide (n < length (x :: t))%nat) as [Hlt|Hge].
  - exists n, x. rewrite Nat.sub_diag. simpl in *. split_and!; [lia|lia|done|done].
  - destruct (IH (n - length (x :: t))%nat) as (k & b & Hk & Hkn & Hl & Hb); [lia|]. exists k, b. split_and!; [done|lia| |done].
    rewrite lookup_app_r by lia. by replace (n - k - length (x :: t))%nat with (n - length (x :: t) - k)%nat by lia.
Qed.

Lemma rune_cut_ok detail cut budget :
  (cut < length detail)%nat →
  (∃ k b, (k <= budget)%nat ∧ (k <= cut)%nat ∧ detail !! (cut - k)%nat = Some b ∧ RuneStart b = true) →
  ∃ b, detail !! rune_cut budget detail cut = Some b ∧ RuneStart b = true ∧ (rune_cut budget detail cut <= cut)%nat.
Proof.
  revert cut; induction budget as [|budget IH]; intros cut Hlen (k & b & Hk & Hkc & Hl & Hb); simpl.
  { assert (k = 0%nat) as -> by lia. rewrite Nat.sub_0_r in Hl. eauto. }
  destruct (lookup_lt_is_Some_2 detail cut Hlen) as [c Hc]. rewrite Hc. simpl. destruct (RuneStart c) eqn:Hs; simpl.
  { rewrite andb_false_r. by exists c. }
  destruct k as [|k]; [rewrite Nat.sub_0_r in Hl; congruence|].
  rewrite (proj2 (Nat.ltb_lt 0 cut)) by lia. simpl.
  destruct (IH (cut - 1)%nat) as (d & Hd & Hds & Hle); [lia| |exists d; split_and!; [done|done|lia]].
  exists k, b. split_and!; [lia|lia| |done]. by replace (cut - 1 - k)%nat with (cut - S k)%nat by lia.
Qed.

Lemma rune_cut_near budget detail cut : (cut - budget <= rune_cut budget detail cut)%nat.
Proof.
  revert cut; induction budget as [|budget IH]; intros cut; simpl; [lia|]. destruct (_ && _); [|lia]. specialize (IH (cut - 1)%nat). lia.
Qed.

Lemma trim_left_incl sp2 sp3 l b : b ∈ trim_left sp2 sp3 l → b ∈ l.
Proof.
  induction l as [l IH] using (induction_ltof1 _ length). unfold ltof in IH.
  destruct l as [|b0 l0]; [done|]. simpl.
  destruct (space_1 b0); [intros Hx; right; apply IH; [simpl; lia|done]|].
  destruct l0 as [|b1 l1]; [done|]. destruct (sp2 b0 b1); [intros Hx; do 2 right; apply IH; [simpl; lia|done]|].
  destruct l1 as [|b2 l2]; [done|]. destruct (sp3 b0 b1 b2); [intros Hx; do 3 right; apply IH; [simpl; lia|done]|done].
Qed.

Lemma trim_bytes_incl l b : b ∈ trim_bytes l → b ∈ l.
Proof. unfold trim_bytes. by intros ?%elem_of_reverse%trim_left_incl%elem_of_reverse%trim_left_incl. Qed.

Lemma bytes_small s b : b ∈ bytes s → (b < 256)%N.
Proof. intros (c & -> & _)%list_elem_of_fmap. apply Ascii.N_ascii_bounded. Qed.

Lemma of_bytes_len l : len (of_bytes l) = length l.
Proof. unfold of_bytes. induction l as [|b l IH]; [done|]. cbn. f_equal. exact IH. Qed.

(** A readiness detail of any length and any bytes becomes a reason: some
    text, at most two hundred bytes of it, and valid UTF-8. *)
Theorem boundedReason_bounds detail :
  boundedReason detail ≠ "" ∧ (len (boundedReason detail) <= 200)%nat ∧ ValidString (boundedReason detail) = true.
Proof.
  unfold boundedReason. set (l := drop_invalid (trim_bytes (bytes detail))).
  destruct (drop_invalid_valid (trim_bytes (bytes detail))) as [Hv Hin]. fold l in Hv, Hin.
  assert (∀ n, bytes (of_bytes (take n l)) = take n l) as Hbytes.
  { intros n. apply bytes_of_bytes, Forall_forall. intros b (i & Hb & _)%elem_of_take.
    eapply bytes_small, trim_bytes_incl, Hin, list_elem_of_lookup_2, Hb. }
  assert (∀ n, valid_utf8 (take n l) = true → (0 < length (take n l))%nat → (length (take n l) <= 200)%nat →
    of_bytes (take n l) ≠ "" ∧ (len (of_bytes (take n l)) <= 200)%nat ∧ ValidString (of_bytes (take n l)) = true) as Hgo.
  { intros n Hn Hp Hl. unfold ValidString. rewrite Hbytes, of_bytes_len. split_and!; [|done|done].
    intros He. rewrite <- of_bytes_len, He in Hp. simpl in Hp. lia. }
  destruct (length l =? 0)%nat eqn:Hz; cbn [andb].
  { destruct (0 <? _)%nat; (split_and!; [done|apply Nat.leb_le; vm_compute; reflexivity|vm_compute; reflexivity]). }
  apply Nat.eqb_neq in Hz. destruct (Nat.ltb_spec 200 (length l)) as [Hlong|Hshort].
  2: { rewrite <- (take_ge l (length l)) by lia. apply Hgo; rewrite take_ge by lia; [done|lia|done]. }
  destruct (rune_start_near l 200 Hv Hlong) as (k & b & Hk & Hkn & Hl & Hb).
  destruct (rune_cut_ok l 200 3 Hlong) as (c & Hc & Hcs & Hle); [by exists k, b|].
  rewrite Hc. change (default 0%N (Some c)) with c. rewrite Hcs. cbn [negb]. apply Hgo.
  - by eapply cut_valid.
  - rewrite length_take. assert (197 <= rune_cut 3 l 200)%nat; [|lia].
    exact (rune_cut_near 3 l 200).
  - rewrite length_take. lia.
Qed.

(* ------------------------------------------------------------------ *)
(** * A concrete resolution *)

(** A worker of each vendor, configured as themselves: no registry. *)
Definition example_agent (id vendor : string) : ExecutionAgentDescriptor :=
  MkAgent id "cli" vendor TrustRequirementOperatorTrusted "" (RoleCapabilities RoleImplementer ++ RoleCapabilities RoleReviewer) []
    true "" true true.

Definition no_registry : Registry := MkRegistry "" ∅ ∅ ∅ ∅.

Definition example_resolve : ResolveInput :=
  MkResolveInput (example_plan 1 "") no_registry [example_agent "one" "first"; example_agent "two" "second"] accepting_contract
    bare_model [] ∅ "two" ∅ ∅.

Definition resolved : result ResolveError Resolution :=
  @Resolve ascii_unicode range_forward plain_canonicalizer any_assignment example_resolve.

(** Both stages are assigned, the producer to the default worker. *)
Lemma resolved_ok : ∃ r, resolved = Ok r
  ∧ (λ a, (a.(Assignment_StageID), a.(Assignment_Agent).(AgentBinding_ID))) <$> r.(Resolution_Assignments)
    = [("implementation", "two"); ("review", "one")] ∧ r.(Resolution_Blocked) = [].
Proof. vm_compute. eexists. done. Qed.

Lemma two_assigned outcomes :
  outcomes.*1 = filter (λ s, is_agent s = true) (example_plan 1 "").(Plan_Stages) →
  (resolution_of outcomes).(Resolution_Blocked) = [] →
  ∃ a b, outcomes = [(example_implementation, inl a); (example_review "", inl b)].
Proof.
  assert (filter (λ s, is_agent s = true) (example_plan 1 "").(Plan_Stages) = [example_implementation; example_review ""]) as -> by done.
  intros Hs Hb. destruct outcomes as [|[s [a|a]] [|[t [b|b]] [|]]]; try discriminate. injection Hs as -> ->. by exists a, b.
Qed.

Lemma Resolve_independent_witness :
  ∃ r a b, resolved = Ok r ∧ r.(Resolution_Assignments) = [a; b]
    ∧ a.(Assignment_Agent).(AgentBinding_VendorFamily) ≠ b.(Assignment_Agent).(AgentBinding_VendorFamily).
Proof.
  destruct resolved_ok as (r & Hr & _ & Hb).
  destruct (@Resolve_independent ascii_unicode range_forward plain_canonicalizer any_assignment example_resolve r Hr)
    as (outcomes & Hs & -> & _ & Hi).
  destruct (two_assigned outcomes Hs Hb) as (a & b & ->).
  destruct (Hi (example_review "") b (vendor_independence true) "implementation") as (c & [Hf|(t & Ht & Hid)] & _ & _ & Hne);
    [right; left|reflexivity|reflexivity|left|discriminate|].
  exists (resolution_of [(example_implementation, inl a); (example_review "", inl b)]), a, b. split; [exact Hr|]. split; [reflexivity|].
  apply elem_of_cons in Ht as [[= -> ->]|[[= -> ->]|[]%elem_of_nil]%elem_of_cons]; [|discriminate]. intros He. apply Hne. exact (eq_sym He).
Defined.

Lemma Resolve_eligible_witness :
  ∃ r a b w, resolved = Ok r ∧ r.(Resolution_Assignments) = [a; b]
    ∧ w ∈ example_resolve.(Resolve_Agents) ∧ b.(Assignment_Agent).(AgentBinding_ID) = w.(Agent_ID) ∧ w.(Agent_Available) = true.
Proof.
  destruct resolved_ok as (r & Hr & _ & Hb).
  destruct (@Resolve_eligible ascii_unicode range_forward plain_canonicalizer any_assignment example_resolve _ Hr)
    as (profiles & outcomes & _ & -> & Hs & Hall).
  destruct (two_assigned outcomes Hs Hb) as (a & b & ->).
  destruct (Hall (example_review "") b) as (p & w & _ & Hw & _ & _ & Hav & _ & _ & _ & _ & _ & Hid & _);
    [right; left|reflexivity|].
  exists (resolution_of [(example_implementation, inl a); (example_review "", inl b)]), a, b, w.
  split; [exact Hr|]. split; [reflexivity|]. split; [exact Hw|]. split; [exact Hid|exact Hav].
Defined.

(** The default worker can implement. *)
Lemma default_candidate profiles :
  @candidateProfiles range_forward plain_canonicalizer example_resolve = Ok profiles →
  ∃ p, candidate example_resolve example_implementation (workers ∅ []) profiles p (example_agent "two" "second").
Proof.
  intros Hp.
  set (fits p := bool_decide (p.(Profile_ExecutionAgent) = "two")
    && (length (@eligibility ascii_unicode example_implementation p (example_agent "two" "second") (workers ∅ [])) =? 0)).
  assert (match @candidateProfiles range_forward plain_canonicalizer example_resolve with Ok l => existsb fits l | Err _ => false end = true)
    as Hx by (vm_compute; reflexivity).
  rewrite Hp, existsb_elem in Hx. destruct Hx as (p & Hin & [Ha%bool_decide_eq_true Hl%Nat.eqb_eq%nil_length_inv]%andb_true_iff).
  exists p. split_and!; [done|by left|by rewrite Ha|]. by apply (@eligibility_nil ascii_unicode).
Qed.

Lemma Resolve_live_witness :
  ∃ r a rest q v profiles, resolved = Ok r ∧ r.(Resolution_Assignments) = a :: rest
    ∧ candidate example_resolve example_implementation (workers ∅ []) profiles q v
    ∧ a.(Assignment_Agent).(AgentBinding_ID) = v.(Agent_ID).
Proof.
  destruct resolved_ok as (r & Hr & _ & Hb).
  destruct (@Resolve_live ascii_unicode range_forward plain_canonicalizer any_assignment example_resolve _ Hr)
    as (profiles & outcomes & Hp & -> & Hs & Hall).
  destruct (two_assigned outcomes Hs Hb) as (a & b & ->).
  destruct (Hall [] example_implementation (inl a) [(example_review "", inl b)] eq_refl) as (_ & _ & Hc).
  destruct (Hc eq_refl) as [Hlive _]; [by split|]. clear Hc. rename Hlive into Hc.
  destruct (default_candidate profiles Hp) as [p Hpc].
  destruct (Hc p _ Hpc) as (a' & q & v & [= <-] & Hq & Hid & _).
  exists (resolution_of [(example_implementation, inl a); (example_review "", inl b)]), a, [b], q, v, profiles.
  split; [exact Hr|]. split; [reflexivity|]. split; [exact Hq|exact Hid].
Defined.
