(* ===== verification/UnitContext.v ===== *)
(** The product context of a unit's execution: [runtime/product_context.go]
    and [runtime/work_unit_context.go].  A unit is pinned to a context when its
    batch is written, and an invocation of it, in any epoch, is given that
    context again, none when its policy admits none, or refused.

    The reads of one call see one database: each is a query of its own in the
    source, but the tables only gain rows, and the write of the batch checks
    the association again in its own transaction. *)

From S2P Require Import Prelude GoStrings Sha256 Domain Canonical Item WorkGraph Projection Handoff GoTime Product Knowledge ProductContext Batch Database ProductStore ProductStoreFacts ProductStoreExample Plan Agents Context Resolver Frames.
From stdpp Require Import relations options.

(* ------------------------------------------------------------------ *)
(** * Bindings *)

Record CandidateRef := MkCandidateRef {
  Candidate_RunID : string;
  Candidate_StageID : string;
  Candidate_Revision : string;
  Candidate_Tree : string
}.

Record RunPlanProduct := MkRunPlanProduct {
  PlanProduct_GraphID : string;
  PlanProduct_Pin : ContextPin
}.

Record RunPlanBinding := MkRunPlanBinding {
  Binding_PlanID : string;
  Binding_Revision : Z;
  Binding_PlanDigest : string;
  Binding_StageID : string;
  Binding_AssignmentID : string;
  Binding_BaseRevision : string;
  Binding_UpstreamCandidate : option CandidateRef;
  Binding_Generation : Z;
  Binding_StageBudget : StageBudget;
  Binding_Product : option RunPlanProduct
}.

Inductive UnitError :=
  | UnitStoreFailed (e : StoreError)
  | UnitContextUncompiled (unit : string) (e : RequestError StoreError)
  | UnitContextUnpinned (e : PinError)
  | EpochWithoutActivation (unit : string)
  | EpochWithoutPin (unit product : string)
  | PinWithoutAssociation (unit graph : string)
  | AssociatedWithoutPin (graph product unit : string)
  | UnitGraphMissing (graph : string)
  | RunBoundGraphUnbound (plan graph : string)
  | PlanBindingDiffers
  | RepositoryNotPinned (graph repository product : string)
  | UnitSelectionRefused (e : ContextRefusal)
  | UnitMissing (graph unit : string)
  | UnitContextUnresolved (unit : string) (e : ResolveContextError StoreError)
  | RunBatchMissing (run batch : string)
  | UpstreamDiffFailed (e : string).

(* ------------------------------------------------------------------ *)
(** * Admission *)

Section unit.
Context `{!MapRange, !Canonicalizer, !GoUnicode}.
Implicit Types (db : Database).

Definition unitContextRequest (productID : string) (origin : BatchOrigin) : ContextRequest :=
  MkRequest productID ScopeProduct (WorkUnitOwnerRef origin.(Origin_GraphID) origin.(Origin_UnitID)) "" None.

Definition with_pin (b : Batch) (p : option ContextPin) : Batch :=
  MkBatch b.(Batch_SchemaVersion) b.(Batch_ID) b.(Batch_Repository) b.(Batch_AgentID) b.(Batch_RequestedBy) b.(Batch_CreatedAt)
    b.(Batch_Items) b.(Batch_Origin) p.

Definition inheritProductPin db (b : Batch) (origin : BatchOrigin) (productID : string) : result UnitError Batch :=
  let? activation := of_option (EpochWithoutActivation origin.(Origin_UnitID))
    (WorkUnitActivations db origin.(Origin_GraphID) !! origin.(Origin_UnitID)) in
  let? first := wrap UnitStoreFailed (OrchestrationBatch db activation.(Activation_BatchID)) in
  let pin := first ≫= Batch_Product in
  refuse_if ((Pin_ProductID <$> pin) ≠? Some productID) (EpochWithoutPin origin.(Origin_UnitID) productID) ;?
  Ok (with_pin b pin).

Definition pinProductContext db (b : Batch) : result UnitError Batch :=
  match b.(Batch_Origin) with
  | None => Ok b
  | Some origin =>
      match AssociatedProduct db origin.(Origin_GraphID) with
      | None => Ok b
      | Some productID =>
          if (0 <? origin.(Origin_Epoch))%Z then inheritProductPin db b origin productID
          else
            let? compiled := wrap (UnitContextUncompiled origin.(Origin_UnitID))
              (compile_product_context (store_of db) (unitContextRequest productID origin)) in
            let? pin := wrap UnitContextUnpinned (NewContextPin compiled) in
            Ok (with_pin b (Some pin))
      end
  end.

Definition planStageProduct db (graphID stageID : string) : result UnitError (option RunPlanProduct) :=
  match AssociatedProduct db graphID with
  | None => Ok None
  | Some productID =>
      let? compiled := wrap (UnitContextUncompiled stageID)
        (compile_product_context (store_of db) (unitContextRequest productID (MkBatchOrigin graphID stageID [] "" 0 ""))) in
      let? pin := wrap UnitContextUnpinned (NewContextPin compiled) in
      Ok (Some (MkRunPlanProduct graphID pin))
  end.

(* ------------------------------------------------------------------ *)
(** * Execution *)

Definition requireGraphPlanBinding (g : WorkGraph) (binding : option RunPlanBinding) : result UnitError () :=
  match binding with
  | None => Ok tt
  | Some binding =>
      match g.(Graph_ObjectivePlan) with
      | None => Err (RunBoundGraphUnbound binding.(Binding_PlanID) g.(Graph_ID))
      | Some bound =>
          refuse_if ((bound.(PlanRef_ID) ≠? binding.(Binding_PlanID)) || (bound.(PlanRef_Revision) ≠? binding.(Binding_Revision))
            || (bound.(PlanRef_Digest) ≠? binding.(Binding_PlanDigest))) PlanBindingDiffers
      end
  end.

Definition receivesProductContext (g : WorkGraph) (unitID : string) (assignment : option AgentAssignment) : result UnitError bool :=
  match assignment with
  | Some a => Ok (a.(Assignment_Context).(Context_Included) ∋? ContextProjectFacts)
  | None =>
      match find (λ u, u.(Unit_ID) ≟ unitID) g.(Graph_Units) with
      | None => Err (UnitMissing g.(Graph_ID) unitID)
      | Some u =>
          let? classes := wrap UnitSelectionRefused (RoleContextClasses u.(Unit_Role) None) in
          Ok (bool_decide (ContextProjectFacts ∈ classes))
      end
  end.

Definition unitProductContext db (plan : option RunPlanBinding) (origin : BatchOrigin) (pin : option ContextPin)
    (assignment : option AgentAssignment) : result UnitError (option ProductContext) :=
  match AssociatedProduct db origin.(Origin_GraphID), pin with
  | None, Some _ => Err (PinWithoutAssociation origin.(Origin_UnitID) origin.(Origin_GraphID))
  | None, None => Ok None
  | Some productID, None => Err (AssociatedWithoutPin origin.(Origin_GraphID) productID origin.(Origin_UnitID))
  | Some productID, Some pin =>
      let? graph := wrap UnitStoreFailed (currentWorkGraphTx db origin.(Origin_GraphID)) in
      let? graph := of_option (UnitGraphMissing origin.(Origin_GraphID)) graph in
      requireGraphPlanBinding graph plan ;?
      refuse_if (negb (pin.(Pin_Repositories) ∋? graph.(Graph_Repository)))
        (RepositoryNotPinned graph.(Graph_ID) graph.(Graph_Repository) productID) ;?
      let? entitled := receivesProductContext graph origin.(Origin_UnitID) assignment in
      if entitled then
        let? resolved := wrap (UnitContextUnresolved origin.(Origin_UnitID))
          (resolve_pin pin (store_of db) (unitContextRequest productID origin)) in
        Ok (Some resolved)
      else Ok None
  end.

Definition executionProductContext (compiled : option ProductContext) : option ExecutionProduct :=
  (λ c : ProductContext, MkExecutionProduct c.(Compiled_ProductID)
     (match c.(Compiled_Configuration) with Some k => k.(Configuration_Revision) | None => 0 end)
     c.(Compiled_Repositories)
     (match c.(Compiled_Configuration) with Some k => k.(Configuration_Settings) | None => ∅ end)
     ((λ e, MkProductKnowledge e.(Entry_ID) e.(Entry_Scope) e.(Entry_Provenance).(Provenance_Type) e.(Entry_Statement))
        <$> c.(Compiled_Knowledge))) <$> compiled.

(** What the git store of the candidates answers: whether the directory of a
    run is there, the base its run records, and the diff it reads, empty where
    it cannot. *)
Record CandidateStore := MkCandidateStore {
  candidate_dir_exists : string → bool;
  run_base : string → result string (option string);
  readCandidateDiff : string → string → string → string * bool
}.

Definition withUpstreamDiff (git : CandidateStore) (c : UpstreamContext) : result UnitError UpstreamContext :=
  if (c.(UpContext_RunID) ≟ "") || (c.(UpContext_Commit) ≟ "") || negb (git.(candidate_dir_exists) c.(UpContext_RunID)) then Ok c
  else
    let? base := wrap UpstreamDiffFailed (git.(run_base) c.(UpContext_RunID)) in
    let diff := git.(readCandidateDiff) c.(UpContext_RunID) (default "" base) c.(UpContext_Commit) in
    Ok (if diff.1 ≠? "" then
          MkUpstreamContext c.(UpContext_StageID) c.(UpContext_RunID) c.(UpContext_Commit) c.(UpContext_Tree) c.(UpContext_Handoff)
            diff.1 diff.2 c.(UpContext_Assurance)
        else c).

Definition upstream_of_input (input : WorkUnitInput) : UpstreamContext :=
  MkUpstreamContext input.(Input_UnitID) input.(Input_Output).(Output_RunID) input.(Input_Output).(Output_CandidateRevision)
    input.(Input_Output).(Output_CandidateTree)
    (Some (MkUpstreamHandoff input.(Input_Output).(Output_HandoffID) input.(Input_Output).(Output_Outcome) input.(Input_Output).(Output_Summary)
             input.(Input_Output).(Output_Unresolved) input.(Input_Output).(Output_RecommendedNext))) "" false [].

(** [workUnitContext]. *)
Record WorkUnitContext := MkWorkUnitContext {
  UnitContext_Upstream : list UpstreamContext;
  UnitContext_Product : option ExecutionProduct
}.

(** A plan stage run without a batch carries its pin on its plan binding. *)
Definition planStageProductContext db (plan : option RunPlanBinding) (assignment : option AgentAssignment) : result UnitError WorkUnitContext :=
  match plan ≫= Binding_Product, plan with
  | Some product, Some binding =>
      let origin := MkBatchOrigin product.(PlanProduct_GraphID) binding.(Binding_StageID) [] "" 0 "" in
      let? compiled := unitProductContext db plan origin (Some product.(PlanProduct_Pin)) assignment in
      Ok (MkWorkUnitContext [] (executionProductContext compiled))
  | _, _ => Ok (MkWorkUnitContext [] None)
  end.

(** [workUnit] of a run, by its batch and its plan binding. *)
Definition workUnit (git : CandidateStore) db (runID : string) (batchID : option string) (plan : option RunPlanBinding)
    (assignment : option AgentAssignment) : result UnitError WorkUnitContext :=
  if default "" batchID ≟ "" then planStageProductContext db plan assignment
  else
    let batchID := default "" batchID in
    let? found := wrap UnitStoreFailed (OrchestrationBatch db batchID) in
    let? batch := of_option (RunBatchMissing runID batchID) found in
    match batch.(Batch_Origin) with
    | None => Ok (MkWorkUnitContext [] None)
    | Some origin =>
        let? compiled := unitProductContext db plan origin batch.(Batch_Product) assignment in
        let? upstream := try_map (λ input, withUpstreamDiff git (upstream_of_input input)) origin.(Origin_Inputs) in
        Ok (MkWorkUnitContext upstream (executionProductContext compiled))
    end.

(* ------------------------------------------------------------------ *)
(** * A unit keeps the context it was admitted with *)

(** The form in which a pinned context is given. *)
Definition frozen (c : ProductContext) : ProductContext :=
  MkProductContext c.(Compiled_ProductID) c.(Compiled_Scope) (sortedCopy c.(Compiled_Repositories)) c.(Compiled_Configuration)
    (sort_by Entry_ID c.(Compiled_Knowledge)).

(** Whether an execution may be given the context at all: its graph is there,
    is the one its run was approved for, is in a repository of the product, and
    the worker's context policy admits project facts. *)
Definition delivery db (plan : option RunPlanBinding) (origin : BatchOrigin) (product : string) (repositories : list string)
    (assignment : option AgentAssignment) : result UnitError bool :=
  let? graph := wrap UnitStoreFailed (currentWorkGraphTx db origin.(Origin_GraphID)) in
  let? graph := of_option (UnitGraphMissing origin.(Origin_GraphID)) graph in
  requireGraphPlanBinding graph plan ;?
  refuse_if (negb (repositories ∋? graph.(Graph_Repository))) (RepositoryNotPinned graph.(Graph_ID) graph.(Graph_Repository) product) ;?
  receivesProductContext graph origin.(Origin_UnitID) assignment.

Lemma unitProductContext_delivery db plan origin p assignment product :
  AssociatedProduct db origin.(Origin_GraphID) = Some product →
  unitProductContext db plan origin (Some p) assignment
  = let? entitled := delivery db plan origin product p.(Pin_Repositories) assignment in
    if entitled then
      let? resolved := wrap (UnitContextUnresolved origin.(Origin_UnitID))
        (resolve_pin p (store_of db) (unitContextRequest product origin)) in Ok (Some resolved)
    else Ok None.
Proof.
  unfold unitProductContext, delivery. intros ->. destruct (currentWorkGraphTx _ _) as [[g|]|]; simpl; [|done..].
  destruct (requireGraphPlanBinding g plan); simpl; [|done]. by destruct (negb _).
Qed.

Lemma associated_later db db' graph product :
  extends db db' → AssociatedProduct db graph = Some product → AssociatedProduct db' graph = Some product.
Proof.
  unfold AssociatedProduct. rewrite !fmap_Some. intros He (row & Hr & ->). exists row. split; [|done].
  eapply lookup_weaken; [exact Hr|apply He].
Qed.

(** A remediation epoch is given the pin its unit was admitted with. *)
Lemma epoch_inherits db b b' origin product :
  b.(Batch_Origin) = Some origin → (0 < origin.(Origin_Epoch))%Z → AssociatedProduct db origin.(Origin_GraphID) = Some product →
  pinProductContext db b = Ok b' →
  ∃ activation first pin, WorkUnitActivations db origin.(Origin_GraphID) !! origin.(Origin_UnitID) = Some activation
    ∧ OrchestrationBatch db activation.(Activation_BatchID) = Ok (Some first)
    ∧ first.(Batch_Product) = Some pin ∧ pin.(Pin_ProductID) = product ∧ b'.(Batch_Product) = Some pin.
Proof.
  intros Ho He Ha. unfold pinProductContext. rewrite Ho, Ha, (proj2 (Z.ltb_lt 0 _) He). unfold inheritProductPin.
  intros (activation & Hact%of_option_ok & (first & Hf%wrap_ok & [Hp%negb_false_iff%bool_decide_eq_true [= <-]]%refuse_if_then)%rbind_ok)%rbind_ok.
  destruct first as [first|]; [|done]. simpl in *. apply fmap_Some in Hp as (pin & Hpin & ->). exists activation, first, pin. done.
Qed.

(** The same unit of the same graph, in whatever epoch. *)
Definition same_unit (o o' : BatchOrigin) : Prop := o.(Origin_GraphID) = o'.(Origin_GraphID) ∧ o.(Origin_UnitID) = o'.(Origin_UnitID).

(** C29: The batch that admits a unit of a product's graph is written with the
    identity of the context compiled for exactly that unit, and a batch of a
    later remediation epoch of the unit inherits it from the unit's first batch.
    In whatever state the store then is, an execution of the unit in any epoch
    that is given a product context is given exactly that context (unless a pin
    of fewer of its entries has the same SHA-256 identity), and one that is
    given none is one its context policy does not admit; anything else is
    refused.  Where what the product learned since is dated after what it knew,
    which the store does not enforce, it is never refused on account of the
    context: resolution succeeds. *)
Theorem admitted_unit_context db b b' origin product :
  reachable db → b.(Batch_Origin) = Some origin → (origin.(Origin_Epoch) <= 0)%Z →
  AssociatedProduct db origin.(Origin_GraphID) = Some product → pinProductContext db b = Ok b' →
  ∃ c p, compile_product_context (store_of db) (unitContextRequest product origin) = Ok c
    ∧ b'.(Batch_Product) = Some p
    ∧ (∀ db' later later' origin' activation, rtc step db db' →
         later.(Batch_Origin) = Some origin' → same_unit origin' origin → (0 < origin'.(Origin_Epoch))%Z →
         WorkUnitActivations db' origin.(Origin_GraphID) !! origin.(Origin_UnitID) = Some activation →
         OrchestrationBatch db' activation.(Activation_BatchID) = Ok (Some b') →
         pinProductContext db' later = Ok later' → later'.(Batch_Product) = Some p)
    ∧ (∀ db' plan origin' assignment, rtc step db db' → same_unit origin' origin →
         let given := unitProductContext db' plan origin' (Some p) assignment in
         let admitted := delivery db' plan origin' product (frozen c).(Compiled_Repositories) assignment in
         (∀ r, given = Ok (Some r) → admitted = Ok true ∧ (r = frozen c ∨ pin_collision p))
         ∧ (given = Ok None → admitted = Ok false)
         ∧ (appended db db' product → given = let? entitled := admitted in Ok (if entitled then Some (frozen c) else None))).
Proof.
  intros Hr Ho He Ha. unfold pinProductContext at 1. rewrite Ho, Ha, (proj2 (Z.ltb_ge 0 _) He).
  intros (c & Hc%wrap_ok & (p & Hp%wrap_ok & [= <-])%rbind_ok)%rbind_ok. exists c, p. split_and!; [exact Hc|done| |].
  - intros db' later later' origin' activation Hs Ho' [Hg Hu] He' Hact Hfirst Hlater.
    assert (AssociatedProduct db' origin'.(Origin_GraphID) = Some product) as Ha' by (rewrite Hg; by eapply associated_later, Ha; apply steps_extend).
    destruct (epoch_inherits _ _ _ _ _ Ho' He' Ha' Hlater) as (activation' & first & pin & Hact' & Hfirst' & Hpin & _ & ->).
    rewrite Hg, Hu, Hact in Hact'. injection Hact' as <-. rewrite Hfirst in Hfirst'. by injection Hfirst' as <-.
  - intros db' plan origin' assignment Hs [Hg Hu].
    set (given := unitProductContext db' plan origin' (Some p) assignment). set (admitted := delivery db' plan origin' product _ assignment).
    assert (AssociatedProduct db' origin'.(Origin_GraphID) = Some product) as Ha' by (rewrite Hg; by eapply associated_later, Ha; apply steps_extend).
    assert (given = let? entitled := admitted in if entitled then
      let? resolved := wrap (UnitContextUnresolved origin'.(Origin_UnitID)) (resolve_pin p (store_of db') (unitContextRequest product origin)) in Ok (Some resolved) else Ok None) as ->.
    { unfold given, admitted. rewrite (unitProductContext_delivery _ _ _ _ _ product) by done.
      pose proof (proj1 (NewContextPin_ok _ _) Hp) as (_ & _ & _ & _ & -> & _ & _). unfold unitContextRequest. by rewrite Hg, Hu. }
    split_and!.
    + intros r ([] & Hadm & Hres)%rbind_ok; [|done]. split; [exact Hadm|]. apply rbind_ok in Hres as (r' & Hres%wrap_ok & [= <-]).
      exact (pinned_context_exact _ _ _ _ _ _ Hr Hs Hc Hp Hres).
    + intros ([] & Hadm & Hres)%rbind_ok; [by apply rbind_ok in Hres as (? & _ & ?)|exact Hadm].
    + intros Happ. rewrite (pinned_context_stable _ _ (unitContextRequest product origin) _ _ Hr Hs Happ Hc Hp). by destruct admitted as [[]|].
Qed.

(* ------------------------------------------------------------------ *)
(** * A unit sees its own product *)

(** A resolved context is part of what its request may see. *)
Lemma resolve_pin_sound {E} (p : ContextPin) (store : Store E) `{!StoreLaws store} request c :
  resolve_pin p store request = Ok c →
  c.(Compiled_ProductID) = request.(Request_ProductID)
  ∧ ∀ e, e ∈ c.(Compiled_Knowledge) → e.(Entry_ProductID) = request.(Request_ProductID) ∧ visible request e.
Proof.
  unfold resolve_pin. rewrite !check_then. intros (_ & _ & (c0 & Hc%wrap_ok & [_ (r & _ & [_ [= <-]]%refuse_if_then)%rbind_ok]%check_then)%rbind_ok).
  split; [by apply compiled_product in Hc|]. simpl. intros e He. rewrite elem_of_sort_by, list_elem_of_filter in He. destruct He as [_ He].
  destruct (compiled_knowledge _ _ _ _ Hc He) as (Hp & Hv & _). split; [exact Hp|]. by destruct Hv; [eapply visible_own|eapply visible_widely|eapply visible_unit|eapply visible_feature].
Qed.

(** Whoever executes a unit is told of its own product only, and only what was
    promoted: to everybody, or to exactly this unit.  A discovery nobody
    promoted, another unit's, or another product's is never in it. *)
Theorem unit_context_isolated db plan origin pin assignment c e :
  reachable db → unitProductContext db plan origin pin assignment = Ok (Some c) → e ∈ c.(Compiled_Knowledge) →
  AssociatedProduct db origin.(Origin_GraphID) = Some e.(Entry_ProductID) ∧ promoted e
  ∧ (e.(Entry_AudienceRef) = ""
     ∨ e.(Entry_Scope) = ScopeWorkUnit ∧ e.(Entry_AudienceRef) = WorkUnitOwnerRef origin.(Origin_GraphID) origin.(Origin_UnitID)).
Proof.
  intros Hwf%reachable_wf Hu He. pose proof (store_laws _ Hwf) as Hlaws.
  destruct (AssociatedProduct db _) as [product|] eqn:Ha; [|unfold unitProductContext in Hu; rewrite Ha in Hu; by destruct pin].
  destruct pin as [p|]; [|unfold unitProductContext in Hu; by rewrite Ha in Hu].
  rewrite (unitProductContext_delivery _ _ _ _ _ _ Ha) in Hu. apply rbind_ok in Hu as (entitled & _ & Hu). destruct entitled; [|done].
  apply rbind_ok in Hu as (r & Hr%wrap_ok & [= ->]). destruct (resolve_pin_sound _ _ _ _ Hr) as [_ Hall].
  destruct (Hall e He) as [-> Hv]. split; [done|]. destruct Hv as [Hraw| | |]; [done|auto..|done].
Qed.
End unit.

(* ------------------------------------------------------------------ *)
(** * A unit in use *)

#[local] Existing Instances range_forward plain_canonicalizer ascii_unicode.

Definition example_admitted : Batch := with_pin example_batch None.

Definition example_pinned : Batch := ok_or example_admitted (pinProductContext example_database example_admitted).

Lemma example_pinned_ok : pinProductContext example_database example_admitted = Ok example_pinned.
Proof. apply ok_or_eq. vm_compute. reflexivity. Qed.

Lemma admitted_unit_context_witness :
  ∃ c, unitProductContext later_database None example_unit_origin example_pinned.(Batch_Product) None = Ok (Some c)
    ∧ length c.(Compiled_Knowledge) = 1%nat.
Proof.
  assert (AssociatedProduct example_database (Origin_GraphID example_unit_origin) = Some example_product.(Product_ID)) as Ha
    by (vm_compute; reflexivity).
  destruct (admitted_unit_context example_database example_admitted example_pinned example_unit_origin example_product.(Product_ID)
    example_reachable eq_refl ltac:(done) Ha example_pinned_ok) as (c & p & Hc & Hpin & _ & Hlater).
  destruct (Hlater later_database None example_unit_origin None later_steps ltac:(by split)) as (_ & _ & Hgiven).
  exists (frozen c). rewrite Hpin, Hgiven by (apply appended_now_ok; vm_compute; reflexivity).
  assert (c = ok_or (MkProductContext "" "" [] None []) (compile_product_context (store_of example_database)
    (unitContextRequest example_product.(Product_ID) example_unit_origin))) as -> by (by rewrite Hc).
  split; vm_compute; reflexivity.
Defined.

Definition example_delivered : option ProductContext :=
  ok_or None (unitProductContext later_database None example_unit_origin example_pinned.(Batch_Product) None).

Lemma unit_context_isolated_witness :
  promoted example_promotion.1 ∧ example_promotion.1.(Entry_AudienceRef) = "".
Proof.
  assert (unitProductContext later_database None example_unit_origin example_pinned.(Batch_Product) None
    = Ok (Some (default (MkProductContext "" "" [] None []) example_delivered))) as Hu by (vm_compute; reflexivity).
  assert (example_promotion.1 ∈ (default (MkProductContext "" "" [] None []) example_delivered).(Compiled_Knowledge)) as He
    by (apply (bool_decide_eq_true_1 _); vm_compute; reflexivity).
  destruct (unit_context_isolated later_database None example_unit_origin _ None _ _ later_reachable Hu He) as (_ & Hp & [Ha|[Hs _]]);
    [exact (conj Hp Ha)|]. exfalso. revert Hs. apply (bool_decide_eq_false_1 _). vm_compute. reflexivity.
Defined.
