(* ===== verification/Operation.v ===== *)
(** The operation of a run ([runtime/runtime.go]), the capacity it takes
    ([runtime/capacity.go]), when it may be leased, and what each call of the
    scheduler makes of its row ([runtime/scheduler.go]). *)

From S2P Require Import Prelude GoStrings Json Domain Canonical GoTime Plan Events.
From stdpp Require Import options.

(* ------------------------------------------------------------------ *)
(** * Records *)

Record OperationFailure := MkFailure {
  Failure_Classification : string;
  Failure_Code : string;
  Failure_CheckPath : list N;
  Failure_Signature : string;
  Failure_BindingSHA256 : string;
  Failure_BindingScope : string;
  Failure_BindingError : string
}.

Record Lease := MkLease {
  Lease_Owner : string;
  Lease_HeartbeatAt : Z;
  Lease_ExpiresAt : Z;
  Lease_Grant : string
}.

Record InactivitySuspension := MkSuspension {
  Suspension_Since : Z;
  Suspension_AttemptIdentity : Z;
  Suspension_Owner : string
}.

Record RunOperation := MkOperation {
  Op_Failure : option OperationFailure;
  Op_RetryNotBefore : Z;
  Op_RetryDisposition : string;
  Op_SchemaVersion : string;
  Op_ID : string;
  Op_RunID : string;
  Op_Kind : string;
  Op_IdempotencyKey : string;
  Op_State : string;
  Op_Attempt : Z;
  Op_AttemptIdentity : Z;
  Op_MaxAttempts : Z;
  Op_DependsOn : list string;
  Op_InputStateSHA256 : string;
  Op_Lease : option Lease;
  Op_Result : option Json;
  Op_CreatedAt : Z;
  Op_StartedAt : option Z;
  Op_LastProgressAt : option Z;
  Op_WallBudget : Z;
  Op_ConsumedExecution : Z;
  Op_LastAttemptExecution : Z;
  Op_ActiveSince : option Z;
  Op_Deadline : option Z;
  Op_DeadlineBound : string;
  Op_NoProgressBudget : Z;
  Op_NoProgressKey : string;
  Op_ProgressRecorderOpen : bool;
  Op_InactivitySuspension : option InactivitySuspension;
  Op_CancelRequested : bool
}.

Definition Pending : string := "pending".
Definition Leased : string := "leased".
Definition Running : string := "running".
Definition Succeeded : string := "succeeded".
Definition OperationFailed : string := "failed".
Definition OperationCancelled : string := "cancelled".
Definition Unknown : string := "unknown".

(** Assignments to the fields of a row. *)
Section setters.
Implicit Types (op : RunOperation).

Definition set_state (v : string) op : RunOperation :=
  MkOperation op.(Op_Failure) op.(Op_RetryNotBefore) op.(Op_RetryDisposition) op.(Op_SchemaVersion) op.(Op_ID)
    op.(Op_RunID) op.(Op_Kind) op.(Op_IdempotencyKey) v op.(Op_Attempt) op.(Op_AttemptIdentity) op.(Op_MaxAttempts)
    op.(Op_DependsOn) op.(Op_InputStateSHA256) op.(Op_Lease) op.(Op_Result) op.(Op_CreatedAt) op.(Op_StartedAt)
    op.(Op_LastProgressAt) op.(Op_WallBudget) op.(Op_ConsumedExecution) op.(Op_LastAttemptExecution)
    op.(Op_ActiveSince) op.(Op_Deadline) op.(Op_DeadlineBound) op.(Op_NoProgressBudget) op.(Op_NoProgressKey)
    op.(Op_ProgressRecorderOpen) op.(Op_InactivitySuspension) op.(Op_CancelRequested).
Definition set_schema (v : string) op : RunOperation :=
  MkOperation op.(Op_Failure) op.(Op_RetryNotBefore) op.(Op_RetryDisposition) v op.(Op_ID) op.(Op_RunID) op.(Op_Kind)
    op.(Op_IdempotencyKey) op.(Op_State) op.(Op_Attempt) op.(Op_AttemptIdentity) op.(Op_MaxAttempts) op.(Op_DependsOn)
    op.(Op_InputStateSHA256) op.(Op_Lease) op.(Op_Result) op.(Op_CreatedAt) op.(Op_StartedAt) op.(Op_LastProgressAt)
    op.(Op_WallBudget) op.(Op_ConsumedExecution) op.(Op_LastAttemptExecution) op.(Op_ActiveSince) op.(Op_Deadline)
    op.(Op_DeadlineBound) op.(Op_NoProgressBudget) op.(Op_NoProgressKey) op.(Op_ProgressRecorderOpen)
    op.(Op_InactivitySuspension) op.(Op_CancelRequested).
Definition set_id (v : string) op : RunOperation :=
  MkOperation op.(Op_Failure) op.(Op_RetryNotBefore) op.(Op_RetryDisposition) op.(Op_SchemaVersion) v op.(Op_RunID)
    op.(Op_Kind) op.(Op_IdempotencyKey) op.(Op_State) op.(Op_Attempt) op.(Op_AttemptIdentity) op.(Op_MaxAttempts)
    op.(Op_DependsOn) op.(Op_InputStateSHA256) op.(Op_Lease) op.(Op_Result) op.(Op_CreatedAt) op.(Op_StartedAt)
    op.(Op_LastProgressAt) op.(Op_WallBudget) op.(Op_ConsumedExecution) op.(Op_LastAttemptExecution)
    op.(Op_ActiveSince) op.(Op_Deadline) op.(Op_DeadlineBound) op.(Op_NoProgressBudget) op.(Op_NoProgressKey)
    op.(Op_ProgressRecorderOpen) op.(Op_InactivitySuspension) op.(Op_CancelRequested).
Definition set_attempt (v : Z) op : RunOperation :=
  MkOperation op.(Op_Failure) op.(Op_RetryNotBefore) op.(Op_RetryDisposition) op.(Op_SchemaVersion) op.(Op_ID)
    op.(Op_RunID) op.(Op_Kind) op.(Op_IdempotencyKey) op.(Op_State) v op.(Op_AttemptIdentity) op.(Op_MaxAttempts)
    op.(Op_DependsOn) op.(Op_InputStateSHA256) op.(Op_Lease) op.(Op_Result) op.(Op_CreatedAt) op.(Op_StartedAt)
    op.(Op_LastProgressAt) op.(Op_WallBudget) op.(Op_ConsumedExecution) op.(Op_LastAttemptExecution)
    op.(Op_ActiveSince) op.(Op_Deadline) op.(Op_DeadlineBound) op.(Op_NoProgressBudget) op.(Op_NoProgressKey)
    op.(Op_ProgressRecorderOpen) op.(Op_InactivitySuspension) op.(Op_CancelRequested).
Definition set_identity (v : Z) op : RunOperation :=
  MkOperation op.(Op_Failure) op.(Op_RetryNotBefore) op.(Op_RetryDisposition) op.(Op_SchemaVersion) op.(Op_ID)
    op.(Op_RunID) op.(Op_Kind) op.(Op_IdempotencyKey) op.(Op_State) op.(Op_Attempt) v op.(Op_MaxAttempts)
    op.(Op_DependsOn) op.(Op_InputStateSHA256) op.(Op_Lease) op.(Op_Result) op.(Op_CreatedAt) op.(Op_StartedAt)
    op.(Op_LastProgressAt) op.(Op_WallBudget) op.(Op_ConsumedExecution) op.(Op_LastAttemptExecution)
    op.(Op_ActiveSince) op.(Op_Deadline) op.(Op_DeadlineBound) op.(Op_NoProgressBudget) op.(Op_NoProgressKey)
    op.(Op_ProgressRecorderOpen) op.(Op_InactivitySuspension) op.(Op_CancelRequested).
Definition set_max_attempts (v : Z) op : RunOperation :=
  MkOperation op.(Op_Failure) op.(Op_RetryNotBefore) op.(Op_RetryDisposition) op.(Op_SchemaVersion) op.(Op_ID)
    op.(Op_RunID) op.(Op_Kind) op.(Op_IdempotencyKey) op.(Op_State) op.(Op_Attempt) op.(Op_AttemptIdentity) v
    op.(Op_DependsOn) op.(Op_InputStateSHA256) op.(Op_Lease) op.(Op_Result) op.(Op_CreatedAt) op.(Op_StartedAt)
    op.(Op_LastProgressAt) op.(Op_WallBudget) op.(Op_ConsumedExecution) op.(Op_LastAttemptExecution)
    op.(Op_ActiveSince) op.(Op_Deadline) op.(Op_DeadlineBound) op.(Op_NoProgressBudget) op.(Op_NoProgressKey)
    op.(Op_ProgressRecorderOpen) op.(Op_InactivitySuspension) op.(Op_CancelRequested).
Definition set_lease (v : option Lease) op : RunOperation :=
  MkOperation op.(Op_Failure) op.(Op_RetryNotBefore) op.(Op_RetryDisposition) op.(Op_SchemaVersion) op.(Op_ID)
    op.(Op_RunID) op.(Op_Kind) op.(Op_IdempotencyKey) op.(Op_State) op.(Op_Attempt) op.(Op_AttemptIdentity)
    op.(Op_MaxAttempts) op.(Op_DependsOn) op.(Op_InputStateSHA256) v op.(Op_Result) op.(Op_CreatedAt)
    op.(Op_StartedAt) op.(Op_LastProgressAt) op.(Op_WallBudget) op.(Op_ConsumedExecution) op.(Op_LastAttemptExecution)
    op.(Op_ActiveSince) op.(Op_Deadline) op.(Op_DeadlineBound) op.(Op_NoProgressBudget) op.(Op_NoProgressKey)
    op.(Op_ProgressRecorderOpen) op.(Op_InactivitySuspension) op.(Op_CancelRequested).
Definition set_created (v : Z) op : RunOperation :=
  MkOperation op.(Op_Failure) op.(Op_RetryNotBefore) op.(Op_RetryDisposition) op.(Op_SchemaVersion) op.(Op_ID)
    op.(Op_RunID) op.(Op_Kind) op.(Op_IdempotencyKey) op.(Op_State) op.(Op_Attempt) op.(Op_AttemptIdentity)
    op.(Op_MaxAttempts) op.(Op_DependsOn) op.(Op_InputStateSHA256) op.(Op_Lease) op.(Op_Result) v op.(Op_StartedAt)
    op.(Op_LastProgressAt) op.(Op_WallBudget) op.(Op_ConsumedExecution) op.(Op_LastAttemptExecution)
    op.(Op_ActiveSince) op.(Op_Deadline) op.(Op_DeadlineBound) op.(Op_NoProgressBudget) op.(Op_NoProgressKey)
    op.(Op_ProgressRecorderOpen) op.(Op_InactivitySuspension) op.(Op_CancelRequested).
Definition set_started (v : option Z) op : RunOperation :=
  MkOperation op.(Op_Failure) op.(Op_RetryNotBefore) op.(Op_RetryDisposition) op.(Op_SchemaVersion) op.(Op_ID)
    op.(Op_RunID) op.(Op_Kind) op.(Op_IdempotencyKey) op.(Op_State) op.(Op_Attempt) op.(Op_AttemptIdentity)
    op.(Op_MaxAttempts) op.(Op_DependsOn) op.(Op_InputStateSHA256) op.(Op_Lease) op.(Op_Result) op.(Op_CreatedAt) v
    op.(Op_LastProgressAt) op.(Op_WallBudget) op.(Op_ConsumedExecution) op.(Op_LastAttemptExecution)
    op.(Op_ActiveSince) op.(Op_Deadline) op.(Op_DeadlineBound) op.(Op_NoProgressBudget) op.(Op_NoProgressKey)
    op.(Op_ProgressRecorderOpen) op.(Op_InactivitySuspension) op.(Op_CancelRequested).
Definition set_active (v : option Z) op : RunOperation :=
  MkOperation op.(Op_Failure) op.(Op_RetryNotBefore) op.(Op_RetryDisposition) op.(Op_SchemaVersion) op.(Op_ID)
    op.(Op_RunID) op.(Op_Kind) op.(Op_IdempotencyKey) op.(Op_State) op.(Op_Attempt) op.(Op_AttemptIdentity)
    op.(Op_MaxAttempts) op.(Op_DependsOn) op.(Op_InputStateSHA256) op.(Op_Lease) op.(Op_Result) op.(Op_CreatedAt)
    op.(Op_StartedAt) op.(Op_LastProgressAt) op.(Op_WallBudget) op.(Op_ConsumedExecution) op.(Op_LastAttemptExecution)
    v op.(Op_Deadline) op.(Op_DeadlineBound) op.(Op_NoProgressBudget) op.(Op_NoProgressKey)
    op.(Op_ProgressRecorderOpen) op.(Op_InactivitySuspension) op.(Op_CancelRequested).
Definition set_key (v : string) op : RunOperation :=
  MkOperation op.(Op_Failure) op.(Op_RetryNotBefore) op.(Op_RetryDisposition) op.(Op_SchemaVersion) op.(Op_ID)
    op.(Op_RunID) op.(Op_Kind) op.(Op_IdempotencyKey) op.(Op_State) op.(Op_Attempt) op.(Op_AttemptIdentity)
    op.(Op_MaxAttempts) op.(Op_DependsOn) op.(Op_InputStateSHA256) op.(Op_Lease) op.(Op_Result) op.(Op_CreatedAt)
    op.(Op_StartedAt) op.(Op_LastProgressAt) op.(Op_WallBudget) op.(Op_ConsumedExecution) op.(Op_LastAttemptExecution)
    op.(Op_ActiveSince) op.(Op_Deadline) op.(Op_DeadlineBound) op.(Op_NoProgressBudget) v op.(Op_ProgressRecorderOpen)
    op.(Op_InactivitySuspension) op.(Op_CancelRequested).
Definition set_progress (v : option Z) op : RunOperation :=
  MkOperation op.(Op_Failure) op.(Op_RetryNotBefore) op.(Op_RetryDisposition) op.(Op_SchemaVersion) op.(Op_ID)
    op.(Op_RunID) op.(Op_Kind) op.(Op_IdempotencyKey) op.(Op_State) op.(Op_Attempt) op.(Op_AttemptIdentity)
    op.(Op_MaxAttempts) op.(Op_DependsOn) op.(Op_InputStateSHA256) op.(Op_Lease) op.(Op_Result) op.(Op_CreatedAt)
    op.(Op_StartedAt) v op.(Op_WallBudget) op.(Op_ConsumedExecution) op.(Op_LastAttemptExecution) op.(Op_ActiveSince)
    op.(Op_Deadline) op.(Op_DeadlineBound) op.(Op_NoProgressBudget) op.(Op_NoProgressKey) op.(Op_ProgressRecorderOpen)
    op.(Op_InactivitySuspension) op.(Op_CancelRequested).
Definition set_recorder (v : bool) op : RunOperation :=
  MkOperation op.(Op_Failure) op.(Op_RetryNotBefore) op.(Op_RetryDisposition) op.(Op_SchemaVersion) op.(Op_ID)
    op.(Op_RunID) op.(Op_Kind) op.(Op_IdempotencyKey) op.(Op_State) op.(Op_Attempt) op.(Op_AttemptIdentity)
    op.(Op_MaxAttempts) op.(Op_DependsOn) op.(Op_InputStateSHA256) op.(Op_Lease) op.(Op_Result) op.(Op_CreatedAt)
    op.(Op_StartedAt) op.(Op_LastProgressAt) op.(Op_WallBudget) op.(Op_ConsumedExecution) op.(Op_LastAttemptExecution)
    op.(Op_ActiveSince) op.(Op_Deadline) op.(Op_DeadlineBound) op.(Op_NoProgressBudget) op.(Op_NoProgressKey) v
    op.(Op_InactivitySuspension) op.(Op_CancelRequested).
Definition set_suspension (v : option InactivitySuspension) op : RunOperation :=
  MkOperation op.(Op_Failure) op.(Op_RetryNotBefore) op.(Op_RetryDisposition) op.(Op_SchemaVersion) op.(Op_ID)
    op.(Op_RunID) op.(Op_Kind) op.(Op_IdempotencyKey) op.(Op_State) op.(Op_Attempt) op.(Op_AttemptIdentity)
    op.(Op_MaxAttempts) op.(Op_DependsOn) op.(Op_InputStateSHA256) op.(Op_Lease) op.(Op_Result) op.(Op_CreatedAt)
    op.(Op_StartedAt) op.(Op_LastProgressAt) op.(Op_WallBudget) op.(Op_ConsumedExecution) op.(Op_LastAttemptExecution)
    op.(Op_ActiveSince) op.(Op_Deadline) op.(Op_DeadlineBound) op.(Op_NoProgressBudget) op.(Op_NoProgressKey)
    op.(Op_ProgressRecorderOpen) v op.(Op_CancelRequested).
Definition set_cancel (v : bool) op : RunOperation :=
  MkOperation op.(Op_Failure) op.(Op_RetryNotBefore) op.(Op_RetryDisposition) op.(Op_SchemaVersion) op.(Op_ID)
    op.(Op_RunID) op.(Op_Kind) op.(Op_IdempotencyKey) op.(Op_State) op.(Op_Attempt) op.(Op_AttemptIdentity)
    op.(Op_MaxAttempts) op.(Op_DependsOn) op.(Op_InputStateSHA256) op.(Op_Lease) op.(Op_Result) op.(Op_CreatedAt)
    op.(Op_StartedAt) op.(Op_LastProgressAt) op.(Op_WallBudget) op.(Op_ConsumedExecution) op.(Op_LastAttemptExecution)
    op.(Op_ActiveSince) op.(Op_Deadline) op.(Op_DeadlineBound) op.(Op_NoProgressBudget) op.(Op_NoProgressKey)
    op.(Op_ProgressRecorderOpen) op.(Op_InactivitySuspension) v.
Definition set_consumed (v : Z) op : RunOperation :=
  MkOperation op.(Op_Failure) op.(Op_RetryNotBefore) op.(Op_RetryDisposition) op.(Op_SchemaVersion) op.(Op_ID)
    op.(Op_RunID) op.(Op_Kind) op.(Op_IdempotencyKey) op.(Op_State) op.(Op_Attempt) op.(Op_AttemptIdentity)
    op.(Op_MaxAttempts) op.(Op_DependsOn) op.(Op_InputStateSHA256) op.(Op_Lease) op.(Op_Result) op.(Op_CreatedAt)
    op.(Op_StartedAt) op.(Op_LastProgressAt) op.(Op_WallBudget) v op.(Op_LastAttemptExecution) op.(Op_ActiveSince)
    op.(Op_Deadline) op.(Op_DeadlineBound) op.(Op_NoProgressBudget) op.(Op_NoProgressKey) op.(Op_ProgressRecorderOpen)
    op.(Op_InactivitySuspension) op.(Op_CancelRequested).
Definition set_last_execution (v : Z) op : RunOperation :=
  MkOperation op.(Op_Failure) op.(Op_RetryNotBefore) op.(Op_RetryDisposition) op.(Op_SchemaVersion) op.(Op_ID)
    op.(Op_RunID) op.(Op_Kind) op.(Op_IdempotencyKey) op.(Op_State) op.(Op_Attempt) op.(Op_AttemptIdentity)
    op.(Op_MaxAttempts) op.(Op_DependsOn) op.(Op_InputStateSHA256) op.(Op_Lease) op.(Op_Result) op.(Op_CreatedAt)
    op.(Op_StartedAt) op.(Op_LastProgressAt) op.(Op_WallBudget) op.(Op_ConsumedExecution) v op.(Op_ActiveSince)
    op.(Op_Deadline) op.(Op_DeadlineBound) op.(Op_NoProgressBudget) op.(Op_NoProgressKey) op.(Op_ProgressRecorderOpen)
    op.(Op_InactivitySuspension) op.(Op_CancelRequested).
Definition set_retry (v0 : Z) (v1 : string) op : RunOperation :=
  MkOperation op.(Op_Failure) v0 v1 op.(Op_SchemaVersion) op.(Op_ID) op.(Op_RunID) op.(Op_Kind) op.(Op_IdempotencyKey)
    op.(Op_State) op.(Op_Attempt) op.(Op_AttemptIdentity) op.(Op_MaxAttempts) op.(Op_DependsOn)
    op.(Op_InputStateSHA256) op.(Op_Lease) op.(Op_Result) op.(Op_CreatedAt) op.(Op_StartedAt) op.(Op_LastProgressAt)
    op.(Op_WallBudget) op.(Op_ConsumedExecution) op.(Op_LastAttemptExecution) op.(Op_ActiveSince) op.(Op_Deadline)
    op.(Op_DeadlineBound) op.(Op_NoProgressBudget) op.(Op_NoProgressKey) op.(Op_ProgressRecorderOpen)
    op.(Op_InactivitySuspension) op.(Op_CancelRequested).
Definition set_deadline (v0 : option Z) (v1 : string) op : RunOperation :=
  MkOperation op.(Op_Failure) op.(Op_RetryNotBefore) op.(Op_RetryDisposition) op.(Op_SchemaVersion) op.(Op_ID)
    op.(Op_RunID) op.(Op_Kind) op.(Op_IdempotencyKey) op.(Op_State) op.(Op_Attempt) op.(Op_AttemptIdentity)
    op.(Op_MaxAttempts) op.(Op_DependsOn) op.(Op_InputStateSHA256) op.(Op_Lease) op.(Op_Result) op.(Op_CreatedAt)
    op.(Op_StartedAt) op.(Op_LastProgressAt) op.(Op_WallBudget) op.(Op_ConsumedExecution) op.(Op_LastAttemptExecution)
    op.(Op_ActiveSince) v0 v1 op.(Op_NoProgressBudget) op.(Op_NoProgressKey) op.(Op_ProgressRecorderOpen)
    op.(Op_InactivitySuspension) op.(Op_CancelRequested).
End setters.

Definition no_operation : RunOperation :=
  MkOperation None 0 "" "" "" "" "" "" "" 0 0 0 [] "" None None 0 None None 0 0 0 None None "" 0 "" false None false.

(* ------------------------------------------------------------------ *)
(** * The document of an operation *)

(** [base64.StdEncoding]. *)
Definition base64_alphabet : list N := bytes "ABCDEFGHIJKLMNOPQRSTUVWXYZabcdefghijklmnopqrstuvwxyz0123456789+/".
Definition sextet (n : N) : N := nth (N.to_nat (N.land n 63)) base64_alphabet 61%N.
Fixpoint base64_bytes (l : list N) : list N :=
  match l with
  | a :: b :: c :: rest =>
      let n := (a * 65536 + b * 256 + c)%N in
      sextet (N.shiftr n 18) :: sextet (N.shiftr n 12) :: sextet (N.shiftr n 6) :: sextet n :: base64_bytes rest
  | [a; b] => let n := (a * 65536 + b * 256)%N in [sextet (N.shiftr n 18); sextet (N.shiftr n 12); sextet (N.shiftr n 6); 61%N]
  | [a] => let n := (a * 65536)%N in [sextet (N.shiftr n 18); sextet (N.shiftr n 12); 61%N; 61%N]
  | [] => []
  end.
Definition base64 (l : list N) : string := of_bytes (base64_bytes l).

Definition sextet_value (b : N) : option N :=
  if in_range 0x41 0x5A b then Some (b - 65)%N
  else if in_range 0x61 0x7A b then Some (b - 71)%N
  else if in_range 0x30 0x39 b then Some (b + 4)%N
  else if (b =? 43)%N then Some 62%N else if (b =? 47)%N then Some 63%N else None.
Fixpoint base64_decode (l : list N) : option (list N) :=
  match l with
  | [] => Some []
  | a :: b :: c :: d :: rest =>
      x ← sextet_value a; y ← sextet_value b;
      match rest, (c =? 61)%N, (d =? 61)%N with
      | [], true, true => Some [(x * 4 + N.shiftr y 4)%N]
      | [], false, true => z ← sextet_value c; Some [(x * 4 + N.shiftr y 4)%N; (N.land y 15 * 16 + N.shiftr z 2)%N]
      | _, _, _ =>
          z ← sextet_value c; w ← sextet_value d; tail ← base64_decode rest;
          Some ((x * 4 + N.shiftr y 4)%N :: (N.land y 15 * 16 + N.shiftr z 2)%N :: (N.land z 3 * 64 + w)%N :: tail)
      end
  | _ => None
  end.
Definition decode_bytes : Decoder (list N) := λ _ v old,
  match v with
  | JString s => match base64_decode (List.filter (λ b, negb ((b =? 10) || (b =? 13))%N) (bytes s)) with
                 | Some l => (l, false) | None => (old, true) end
  | JNull => ([], false)
  | _ => (old, true)
  end.

Example base64_text : base64 (bytes "ab") = "YWI=" ∧ base64_decode (bytes "YWI=") = Some (bytes "ab").
Proof. vm_compute. done. Qed.

Definition time_value (t : Z) : GoValue := GString (RFC3339Nano t).

Definition failure_value (f : OperationFailure) : GoValue :=
  GStruct ([("classification", GString f.(Failure_Classification)); ("code", GString f.(Failure_Code))]
    ++ omit_empty "check_path_base64" (base64 f.(Failure_CheckPath))
    ++ [("signature", GString f.(Failure_Signature)); ("binding_sha256", GString f.(Failure_BindingSHA256))]
    ++ omit_empty "binding_scope" f.(Failure_BindingScope) ++ omit_empty "binding_error" f.(Failure_BindingError)).
Definition lease_value (l : Lease) : GoValue :=
  GStruct ([("owner", GString l.(Lease_Owner)); ("heartbeat_at", time_value l.(Lease_HeartbeatAt));
      ("expires_at", time_value l.(Lease_ExpiresAt))] ++ omit_empty "grant" l.(Lease_Grant)).
Definition suspension_value (s : InactivitySuspension) : GoValue :=
  GStruct [("since", time_value s.(Suspension_Since)); ("attempt_identity", GInt s.(Suspension_AttemptIdentity));
    ("owner", GString s.(Suspension_Owner))].

Definition operation_value (op : RunOperation) : GoValue :=
  GStruct (omit_none "failure" failure_value op.(Op_Failure)
    ++ omit_if (op.(Op_RetryNotBefore) =? 0)%Z "retry_not_before" (time_value op.(Op_RetryNotBefore))
    ++ omit_empty "retry_disposition" op.(Op_RetryDisposition)
    ++ [("schema_version", GString op.(Op_SchemaVersion)); ("id", GString op.(Op_ID)); ("run_id", GString op.(Op_RunID));
        ("kind", GString op.(Op_Kind)); ("idempotency_key", GString op.(Op_IdempotencyKey)); ("state", GString op.(Op_State));
        ("attempt", GInt op.(Op_Attempt))]
    ++ omit_zero "attempt_identity" op.(Op_AttemptIdentity) ++ [("max_attempts", GInt op.(Op_MaxAttempts))]
    ++ omit_strings "depends_on" op.(Op_DependsOn) ++ [("input_state_sha256", GString op.(Op_InputStateSHA256))]
    ++ omit_none "lease" lease_value op.(Op_Lease) ++ omit_none "result" GRaw op.(Op_Result)
    ++ [("created_at", time_value op.(Op_CreatedAt))]
    ++ omit_none "started_at" time_value op.(Op_StartedAt) ++ omit_none "last_progress_at" time_value op.(Op_LastProgressAt)
    ++ omit_zero "wall_budget" op.(Op_WallBudget) ++ omit_zero "consumed_execution" op.(Op_ConsumedExecution)
    ++ omit_zero "last_attempt_execution" op.(Op_LastAttemptExecution) ++ omit_none "active_since" time_value op.(Op_ActiveSince)
    ++ omit_none "deadline" time_value op.(Op_Deadline) ++ omit_empty "deadline_bound" op.(Op_DeadlineBound)
    ++ omit_zero "no_progress_budget" op.(Op_NoProgressBudget) ++ omit_empty "no_progress_key" op.(Op_NoProgressKey)
    ++ omit_flag "progress_recorder_open" op.(Op_ProgressRecorderOpen)
    ++ omit_none "inactivity_suspension" suspension_value op.(Op_InactivitySuspension)
    ++ omit_flag "cancel_requested" op.(Op_CancelRequested)).

(** The instants written into it: [json.Marshal] refuses a year outside four
    digits. *)
Definition of_pointer {A} (o : option A) : list A := match o with Some a => [a] | None => [] end.
Definition operation_times (op : RunOperation) : list Z :=
  [op.(Op_RetryNotBefore); op.(Op_CreatedAt)]
  ++ from_option (λ l, [l.(Lease_HeartbeatAt); l.(Lease_ExpiresAt)]) [] op.(Op_Lease)
  ++ of_pointer op.(Op_StartedAt) ++ of_pointer op.(Op_LastProgressAt) ++ of_pointer op.(Op_ActiveSince) ++ of_pointer op.(Op_Deadline)
  ++ from_option (λ s, [s.(Suspension_Since)]) [] op.(Op_InactivitySuspension).

Definition encodeOperation `{!Canonicalizer} (op : RunOperation) : result CanonicalError string :=
  validateIJSONValue (operation_value op) ;?
  refuse_if (negb (forallb year_in_range (operation_times op))) Unencodable ;?
  CanonicalJSON (operation_value op).

(** [json.Unmarshal] into a [RunOperation]. *)
Definition no_failure : OperationFailure := MkFailure "" "" [] "" "" "" "".
Definition no_lease : Lease := MkLease "" 0 0 "".
Definition no_suspension : InactivitySuspension := MkSuspension 0 0 "".
Definition failure_fields : Fields OperationFailure :=
  record MkFailure <&> text_field "classification" <&> text_field "code" <&> field [] decode_bytes "check_path_base64"
    <&> text_field "signature" <&> text_field "binding_sha256" <&> text_field "binding_scope" <&> text_field "binding_error".
Definition time_field : string → Fields Z := field 0%Z decode_time.
Definition stamp_field : string → Fields (option Z) := some_field 0%Z decode_time.
Definition lease_fields : Fields Lease :=
  record MkLease <&> text_field "owner" <&> time_field "heartbeat_at" <&> time_field "expires_at" <&> text_field "grant".
Definition suspension_fields : Fields InactivitySuspension :=
  record MkSuspension <&> time_field "since" <&> int_field "attempt_identity" <&> text_field "owner".
(** A [json.RawMessage] keeps what is there, a null included. *)
Definition decode_raw : Decoder (option Json) := λ _ v _, (Some v, false).
Definition operation_fields : Fields RunOperation :=
  record MkOperation <&> some_field no_failure (struct failure_fields) "failure" <&> time_field "retry_not_before"
    <&> text_field "retry_disposition" <&> text_field "schema_version" <&> text_field "id" <&> text_field "run_id" <&> text_field "kind"
    <&> text_field "idempotency_key" <&> text_field "state" <&> int_field "attempt" <&> int_field "attempt_identity"
    <&> int_field "max_attempts" <&> texts_field "depends_on" <&> text_field "input_state_sha256"
    <&> some_field no_lease (struct lease_fields) "lease" <&> field None decode_raw "result" <&> time_field "created_at"
    <&> stamp_field "started_at" <&> stamp_field "last_progress_at" <&> int_field "wall_budget" <&> int_field "consumed_execution"
    <&> int_field "last_attempt_execution" <&> stamp_field "active_since" <&> stamp_field "deadline" <&> text_field "deadline_bound"
    <&> int_field "no_progress_budget" <&> text_field "no_progress_key" <&> flag_field "progress_recorder_open"
    <&> some_field no_suspension (struct suspension_fields) "inactivity_suspension" <&> flag_field "cancel_requested".

(* ------------------------------------------------------------------ *)
(** * Capacity *)

Definition OpSourceObserve : string := "source.observe".
Definition OpContractCompile : string := "contract.compile".
Definition OpCandidateCreate : string := "candidate.create".
Definition OpExecutionInvoke : string := "execution.invoke".
Definition OpRemediationGofmt : string := "remediation.gofmt".
Definition OpCandidateCommit : string := "candidate.commit".
Definition OpAssuranceGo : string := "assurance.go".
Definition OpAssuranceSemantic : string := "assurance.semantic".
Definition OpAuthorityEvaluate : string := "authority.evaluate".
Definition OpBaseIntegrate : string := "base.integrate".
Definition OpIntegrationCompose : string := "integration.compose".
Definition OpIntegrationHandoffAdmit : string := "integration.handoff_admit".
Definition OpCandidatePush : string := "candidate.push".
Definition OpPullRequestCreate : string := "pull_request.create".
Definition OpPullRequestUpdate : string := "pull_request.update".
Definition OpGitHubObserve : string := "github.observe".
Definition OpHandoffRepair : string := "handoff.repair".

Definition CapacityWork : string := "work".
Definition CapacityObservation : string := "observation".
Definition CapacityVerification : string := "verification".

Definition operationCapacityClasses : list (string * string) :=
  [(OpSourceObserve, CapacityObservation); (OpGitHubObserve, CapacityObservation); (OpContractCompile, CapacityWork);
   (OpCandidateCreate, CapacityWork); (OpExecutionInvoke, CapacityWork); (OpRemediationGofmt, CapacityWork);
   (OpCandidateCommit, CapacityWork); (OpAssuranceGo, CapacityWork); (OpAssuranceSemantic, CapacityWork);
   (OpAuthorityEvaluate, CapacityWork); (OpBaseIntegrate, CapacityWork); (OpIntegrationCompose, CapacityWork);
   (OpIntegrationHandoffAdmit, CapacityWork); (OpCandidatePush, CapacityWork); (OpPullRequestCreate, CapacityWork);
   (OpPullRequestUpdate, CapacityWork); (OpHandoffRepair, CapacityWork)].
Definition OperationCapacityClass (kind : string) : string :=
  default CapacityWork ((list_to_map operationCapacityClasses : gmap string string) !! kind).
Definition observationKindList : list string :=
  sort_strings (omap (λ c, if c.2 ≟ CapacityObservation then Some c.1 else None) operationCapacityClasses).

Definition verificationKinds : list string := [OpAssuranceGo].
Definition consumesVerification (kind : string) : bool := verificationKinds ∋? kind.

(** A leased or running row that carries its lease. *)
Definition is_active (op : RunOperation) : bool :=
  match op.(Op_Lease) with Some _ => (op.(Op_State) ≟ Leased) || (op.(Op_State) ≟ Running) | None => false end.
Definition holdsVerificationSlot (op : RunOperation) : bool := is_active op && consumesVerification op.(Op_Kind).

Definition defaultMaxConcurrentRuns : Z := 1.
Definition DefaultMaxConcurrentVerifications : Z := 2.
Definition DefaultMaxConcurrentObservations : Z := 2.
Definition resolveMaxConcurrentVerifications (ceiling : Z) : Z :=
  if (ceiling <=? 0)%Z then DefaultMaxConcurrentVerifications else ceiling.
Definition resolveMaxConcurrentObservations (ceiling : Z) : Z :=
  if (ceiling <=? 0)%Z then DefaultMaxConcurrentObservations else ceiling.
Definition resolveMaxConcurrentRuns (requested operatorAuthorized : Z) : Z :=
  let ceiling := if (operatorAuthorized <=? 0)%Z then defaultMaxConcurrentRuns else operatorAuthorized in
  if ((requested <=? 0) || (ceiling <? requested))%Z then ceiling else requested.

(* ------------------------------------------------------------------ *)
(** * Budgets and eligibility *)

Definition StableOperationKey (runID kind : string) (bindings : list string) : string :=
  Join ([runID; kind] ++ sort_strings bindings) ":".

Section eligibility.
Implicit Types (op : RunOperation) (now : Z).

Definition CanAcquire op now (ownerAlive : bool) : bool :=
  if (now <? op.(Op_RetryNotBefore))%Z then false
  else if (op.(Op_State) ≟ Succeeded) || (op.(Op_State) ≟ OperationCancelled) then false
  else match op.(Op_Lease) with
       | None => true
       | Some lease => negb ownerAlive && negb (now <? lease.(Lease_ExpiresAt))%Z
       end.

Definition OperationElapsed op now : Z :=
  match op.(Op_ActiveSince) with
  | Some since => if (since <? now)%Z then wrap64 (op.(Op_ConsumedExecution) + Sub now since) else op.(Op_ConsumedExecution)
  | None => op.(Op_ConsumedExecution)
  end.
Definition OperationRemaining op now : Z :=
  if (op.(Op_WallBudget) <=? 0)%Z then 0
  else let remaining := wrap64 (op.(Op_WallBudget) - OperationElapsed op now) in
       if (0 <? remaining)%Z then remaining else 0.
Definition OperationExpired op now : bool := ((0 <? op.(Op_WallBudget)) && (OperationRemaining op now <=? 0))%Z.
Definition NoProgressExceeded op now : bool :=
  match op.(Op_LastProgressAt) with
  | Some at_ => ((0 <? op.(Op_NoProgressBudget)) && (at_ <=? now) && (op.(Op_NoProgressBudget) <? Sub now at_))%Z
  | None => false
  end.
Definition budget_state op now : string :=
  if OperationExpired op now || NoProgressExceeded op now then Unknown else op.(Op_State).

(** A missing row reads as the zero operation. *)
Definition dependenciesSatisfied op (all : gmap string RunOperation) : bool :=
  forallb (λ id, from_option Op_State "" (all !! id) ≟ Succeeded) op.(Op_DependsOn).
Definition leasable op (all : gmap string RunOperation) now (ownerAlive : bool) : bool :=
  dependenciesSatisfied op all && (op.(Op_Attempt) <? op.(Op_MaxAttempts))%Z && negb op.(Op_CancelRequested)
  && CanAcquire op now ownerAlive.

(** The queue order of every store. *)
Definition queued_before : relation RunOperation := λ x y,
  (x.(Op_CreatedAt) < y.(Op_CreatedAt))%Z ∨ x.(Op_CreatedAt) = y.(Op_CreatedAt) ∧ String.le x.(Op_ID) y.(Op_ID).
#[global] Instance queued_before_dec : RelDecision queued_before.
Proof. intros x y. unfold queued_before. apply _. Defined.
Definition sortOperations (operations : list RunOperation) : list RunOperation := merge_sort queued_before operations.
End eligibility.

(* ------------------------------------------------------------------ *)
(** * What a call makes of a row *)

Definition BoundRunActiveWork : string := "run_active_work".
Record AttemptLimit := MkLimit {
  Limit_Within : Z;
  Limit_Bound : string
}.

Record ProviderProgress := MkProviderProgress {
  Progress_Key : string;
  Progress_Age : Z;
  Progress_Suspended : bool;
  Progress_SuspendedAge : Z;
  Progress_Final : bool
}.

Section changes.
Implicit Types (op : RunOperation) (now : Z).

Definition planned op id now : RunOperation :=
  let op := set_id id op in
  let op := set_created now (set_state Pending (set_schema SchemaVersion op)) in
  if (op.(Op_MaxAttempts) <=? 0)%Z then set_max_attempts 1 op else op.

Definition retired op : RunOperation := set_lease None (set_state OperationFailed op).
Definition leased op (lease : Lease) : RunOperation := set_lease (Some lease) (set_state Leased op).

(** An attempt nobody settled is charged for the time since it began, but for
    its wait for verification capacity. *)
Definition charge_orphan op now (waiting : Z) : RunOperation :=
  match op.(Op_ActiveSince) with
  | Some since =>
      let orphaned := wrap64 (Sub now since - waiting) in
      if (0 <? orphaned)%Z
      then set_last_execution orphaned (set_consumed (wrap64 (op.(Op_ConsumedExecution) + orphaned)) op)
      else op
  | None => op
  end.
Definition begin_attempt op now : RunOperation :=
  let op := set_identity (wrap64 (op.(Op_AttemptIdentity) + 1)) (set_attempt (wrap64 (op.(Op_Attempt) + 1)) (set_state Running op)) in
  set_suspension None (set_key "" (set_started (Some now) op)).
Definition begin_progress (abandoned : bool) op now : RunOperation :=
  match abandoned, op.(Op_LastProgressAt) with
  | true, Some _ => op
  | _, _ => set_recorder false (set_progress (Some now) op)
  end.
Definition budget_deadline op now : RunOperation :=
  if (0 <? op.(Op_WallBudget))%Z
  then set_deadline (Some (now + Z.max 0 (wrap64 (op.(Op_WallBudget) - op.(Op_ConsumedExecution))))%Z) op.(Op_DeadlineBound) op
  else op.
Definition limit_deadline (limit : option AttemptLimit) op now : RunOperation :=
  let op := set_deadline op.(Op_Deadline) "" op in
  match limit with
  | None => op
  | Some limit =>
      let deadline := (now + Z.max limit.(Limit_Within) 0)%Z in
      match op.(Op_Deadline) with
      | Some current => if (current <? deadline)%Z then set_deadline (Some current) BoundRunActiveWork op
                        else set_deadline (Some deadline) limit.(Limit_Bound) op
      | None => set_deadline (Some deadline) limit.(Limit_Bound) op
      end
  end.
Definition started (limit : option AttemptLimit) op now (waiting : Z) : RunOperation :=
  let abandoned := bool_decide (is_Some op.(Op_ActiveSince)) in
  let op := charge_orphan (begin_attempt op now) now waiting in
  let op := set_active (Some now) (begin_progress abandoned op now) in
  limit_deadline limit (budget_deadline op now) now.

Definition renewed op now (duration : Z) : RunOperation :=
  match op.(Op_Lease) with
  | Some lease => set_lease (Some (MkLease lease.(Lease_Owner) now (now + duration)%Z lease.(Lease_Grant))) op
  | None => op
  end.

Definition progressed (owner : string) op now (attempt : Z) (progress : ProviderProgress) : RunOperation :=
  if (op.(Op_State) ≠? Running) || negb (op.(Op_AttemptIdentity) =? attempt)%Z then op
  else
    let op :=
      if (progress.(Progress_Key) ≠? "") && (progress.(Progress_Key) ≠? op.(Op_NoProgressKey)) then
        let at_ := (now - Z.max progress.(Progress_Age) 0)%Z in
        let at_ := match op.(Op_LastProgressAt) with Some last => if (at_ <? last)%Z then last else at_ | None => at_ end in
        set_progress (Some at_) (set_key progress.(Progress_Key) op)
      else op in
    let op := set_recorder (negb progress.(Progress_Final)) op in
    set_suspension (if progress.(Progress_Suspended)
      then Some (MkSuspension (now - Z.max progress.(Progress_SuspendedAge) 0)%Z attempt owner) else None) op.

Definition attempt_ended now (endedAt : Z) : Z := if negb (endedAt =? 0)%Z && (endedAt <? now)%Z then endedAt else now.
Definition settle op (ended wait : Z) : RunOperation :=
  match op.(Op_ActiveSince) with
  | Some since =>
      let spent := Z.max 0 (wrap64 (Sub ended since - wait)) in
      set_active None (set_last_execution spent (set_consumed (wrap64 (op.(Op_ConsumedExecution) + spent)) op))
  | None => op
  end.
Definition finished (state : string) (retryAt : Z) (disposition : string) op (ended wait : Z) : RunOperation :=
  let op := set_lease None (set_retry retryAt disposition (set_state state op)) in
  set_recorder false (set_suspension None (set_deadline None "" (settle op ended wait))).

Definition reserved op (identity : Z) : RunOperation :=
  if (op.(Op_AttemptIdentity) <? identity)%Z then set_identity identity op else op.

Definition restored (refundExecution : bool) op : RunOperation :=
  let op := if (0 <? op.(Op_Attempt))%Z then set_attempt (op.(Op_Attempt) - 1) op else op in
  let op := set_started None (set_lease None op) in
  let op := if refundExecution then set_consumed (Z.max 0 (wrap64 (op.(Op_ConsumedExecution) - op.(Op_LastAttemptExecution)))) op else op in
  set_deadline None "" (set_active None (set_last_execution 0 op)).

Definition cancelled op : RunOperation := set_cancel true op.
Definition released op : RunOperation := set_lease None op.
End changes.
