(* ===== verification/Permit.v ===== *)
(** The nested grants of verification capacity ([runtime/verification_permit.go],
    [runtime/review_verification_claim.go]) and the wait for it that an attempt
    is not charged for ([runtime/verification_wait.go]). *)

From S2P Require Import Prelude GoStrings Json Domain Canonical GoTime Plan Events Operation.
From stdpp Require Import options.

(* ------------------------------------------------------------------ *)
(** * Records *)

(** [execution.AttemptRef]. *)
Record ExecutionAttemptRef := MkAttemptRef {
  AttemptRef_RunID : string;
  AttemptRef_OperationID : string;
  AttemptRef_Attempt : Z
}.
#[global] Instance ExecutionAttemptRef_eq_dec : EqDecision ExecutionAttemptRef.
Proof. solve_decision. Defined.

Record VerificationSandbox := MkSandbox {
  Sandbox_Image : string;
  Sandbox_StateDir : string;
  Sandbox_Endpoint : string
}.
#[global] Instance VerificationSandbox_eq_dec : EqDecision VerificationSandbox.
Proof. solve_decision. Defined.

Definition VerificationWaiting : string := "waiting".
Definition VerificationGranted : string := "granted".
Definition VerificationReleased : string := "released".

Record VerificationPermit := MkPermit {
  Permit_ID : string;
  Permit_Parent : ExecutionAttemptRef;
  Permit_ControllerOwner : string;
  Permit_ToolOwner : string;
  Permit_State : string;
  Permit_RequestedAt : Z;
  Permit_GrantedAt : option Z;
  Permit_ReleasedAt : option Z;
  Permit_ExpiresAt : Z;
  Permit_Sandbox : option VerificationSandbox;
  Permit_ToolLockDir : string
}.

Record ReviewVerificationClaim := MkClaim {
  Claim_ID : string;
  Claim_ControllerOwner : string;
  Claim_RunID : string;
  Claim_RequestedAt : Z;
  Claim_ExpiresAt : Z
}.

(* ------------------------------------------------------------------ *)
(** * Validation *)

(** What [url.Parse] answers about a host, of the standard library's
    [net/url], whose parser is not repeated here: the scheme, whether a user,
    a query or a fragment is there, the host and the path. *)
Record ParsedURL := MkURL {
  URL_Scheme : string;
  URL_User : bool;
  URL_RawQuery : string;
  URL_Fragment : string;
  URL_Host : string;
  URL_Path : string
}.
Class URLParser := { url_parse : string → option ParsedURL }.

Inductive PermitError :=
  | RunBlank
  | AuthorizingOperationBlank
  | AttemptNotPositive (operation : string) (attempt : Z)
  | SandboxIncomplete
  | EndpointInvalid
  | EndpointScheme (scheme : string)
  | PermitIncomplete
  | WaitingCarriesTimes
  | GrantedTimes
  | ReleasedWithoutEnd
  | PermitStateUnknown
  | GrantedBeforeRequest
  | ReleasedBeforeExecution
  | ClaimIncomplete.

Definition attempt_Validate (a : ExecutionAttemptRef) : result PermitError () :=
  refuse_if (blank a.(AttemptRef_RunID)) RunBlank ;?
  refuse_if (blank a.(AttemptRef_OperationID)) AuthorizingOperationBlank ;?
  refuse_if (a.(AttemptRef_Attempt) <? 1)%Z (AttemptNotPositive a.(AttemptRef_OperationID) a.(AttemptRef_Attempt)).

Section validation.
Context `{!URLParser}.

(** [DockerEndpoint.identity]. *)
Definition endpoint_identity (host : string) : result PermitError string :=
  if host ≟ "" then Ok "local-default"
  else match url_parse host with
  | None => Err EndpointInvalid
  | Some u =>
      refuse_if (u.(URL_User) || (u.(URL_RawQuery) ≠? "") || (u.(URL_Fragment) ≠? "")) EndpointInvalid ;?
      (if u.(URL_Scheme) ≟ "tcp" then refuse_if ((u.(URL_Host) ≟ "") || (u.(URL_Path) ≠? "")) EndpointInvalid
       else if u.(URL_Scheme) ≟ "unix" then refuse_if ((u.(URL_Host) ≠? "") || negb (HasPrefix u.(URL_Path) "/")) EndpointInvalid
       else Err (EndpointScheme u.(URL_Scheme))) ;?
      Ok host
  end.

(** [a.Before(b)] of a pointer that may be nil. *)
Definition pointer_before (a : option Z) (b : Z) : bool := match a with Some t => (t <? b)%Z | None => false end.

Definition permit_validate (p : VerificationPermit) : result PermitError () :=
  match p.(Permit_Sandbox) with
  | Some sandbox =>
      refuse_if ((sandbox.(Sandbox_Image) ≟ "") || (sandbox.(Sandbox_StateDir) ≟ "")) SandboxIncomplete ;?
      let? _ := endpoint_identity sandbox.(Sandbox_Endpoint) in Ok tt
  | None => Ok tt
  end ;?
  attempt_Validate p.(Permit_Parent) ;?
  refuse_if ((p.(Permit_ID) ≟ "") || (p.(Permit_ControllerOwner) ≟ "") || (p.(Permit_ToolOwner) ≟ "")
    || (p.(Permit_RequestedAt) =? 0)%Z || (p.(Permit_ExpiresAt) <? p.(Permit_RequestedAt))%Z) PermitIncomplete ;?
  (if p.(Permit_State) ≟ VerificationWaiting then
     refuse_if (bool_decide (is_Some p.(Permit_GrantedAt)) || bool_decide (is_Some p.(Permit_ReleasedAt))) WaitingCarriesTimes
   else if p.(Permit_State) ≟ VerificationGranted then
     refuse_if (negb (bool_decide (is_Some p.(Permit_GrantedAt))) || bool_decide (is_Some p.(Permit_ReleasedAt))) GrantedTimes
   else if p.(Permit_State) ≟ VerificationReleased then
     refuse_if (negb (bool_decide (is_Some p.(Permit_ReleasedAt)))) ReleasedWithoutEnd
   else Err PermitStateUnknown) ;?
  refuse_if (pointer_before p.(Permit_GrantedAt) p.(Permit_RequestedAt)) GrantedBeforeRequest ;?
  refuse_if (pointer_before p.(Permit_ReleasedAt) p.(Permit_RequestedAt)
    || match p.(Permit_GrantedAt) with Some granted => pointer_before p.(Permit_ReleasedAt) granted | None => false end)
    ReleasedBeforeExecution.
End validation.

Definition claim_validate (c : ReviewVerificationClaim) : result PermitError () :=
  refuse_if ((c.(Claim_ID) ≟ "") || (c.(Claim_ControllerOwner) ≟ "") || (c.(Claim_RunID) ≟ "")
    || (c.(Claim_RequestedAt) =? 0)%Z || (c.(Claim_ExpiresAt) <? c.(Claim_RequestedAt))%Z) ClaimIncomplete.

(** When the transition into the state of a permit happened. *)
Definition permit_time (p : VerificationPermit) : Z :=
  match p.(Permit_ReleasedAt), p.(Permit_GrantedAt) with
  | Some at_, _ => at_
  | None, Some at_ => at_
  | None, None => p.(Permit_RequestedAt)
  end.
Definition verificationPermitID (parent : ExecutionAttemptRef) (toolID : string) : string :=
  StableOperationKey parent.(AttemptRef_RunID) "verification.tool"
    [parent.(AttemptRef_OperationID); itoa parent.(AttemptRef_Attempt); toolID].

(* ------------------------------------------------------------------ *)
(** * Documents *)

Definition attempt_ref_value (a : ExecutionAttemptRef) : GoValue :=
  GStruct [("RunID", GString a.(AttemptRef_RunID)); ("OperationID", GString a.(AttemptRef_OperationID)); ("Attempt", GInt a.(AttemptRef_Attempt))].
Definition sandbox_value (s : VerificationSandbox) : GoValue :=
  GStruct [("image", GString s.(Sandbox_Image)); ("state_dir", GString s.(Sandbox_StateDir));
    ("endpoint", GStruct [("Host", GString s.(Sandbox_Endpoint))])].
Definition permit_value (p : VerificationPermit) : GoValue :=
  GStruct ([("id", GString p.(Permit_ID)); ("parent", attempt_ref_value p.(Permit_Parent));
      ("controller_owner", GString p.(Permit_ControllerOwner)); ("tool_owner", GString p.(Permit_ToolOwner));
      ("state", GString p.(Permit_State)); ("requested_at", time_value p.(Permit_RequestedAt))]
    ++ omit_none "granted_at" time_value p.(Permit_GrantedAt) ++ omit_none "released_at" time_value p.(Permit_ReleasedAt)
    ++ [("expires_at", time_value p.(Permit_ExpiresAt))]
    ++ omit_none "sandbox" sandbox_value p.(Permit_Sandbox) ++ omit_empty "tool_lock_dir" p.(Permit_ToolLockDir)).
Definition permit_times (p : VerificationPermit) : list Z :=
  [p.(Permit_RequestedAt); p.(Permit_ExpiresAt)] ++ of_pointer p.(Permit_GrantedAt) ++ of_pointer p.(Permit_ReleasedAt).
Definition claim_value (c : ReviewVerificationClaim) : GoValue :=
  GStruct [("id", GString c.(Claim_ID)); ("controller_owner", GString c.(Claim_ControllerOwner)); ("run_id", GString c.(Claim_RunID));
    ("requested_at", time_value c.(Claim_RequestedAt)); ("expires_at", time_value c.(Claim_ExpiresAt))].

(** A document is refused when [encoding/json] refuses one of its instants. *)
Definition encode_with `{!Canonicalizer} (v : GoValue) (times : list Z) : result CanonicalError string :=
  validateIJSONValue v ;? refuse_if (negb (forallb year_in_range times)) Unencodable ;? CanonicalJSON v.

Definition no_attempt_ref : ExecutionAttemptRef := MkAttemptRef "" "" 0.
Definition no_sandbox : VerificationSandbox := MkSandbox "" "" "".
Definition no_permit : VerificationPermit := MkPermit "" no_attempt_ref "" "" "" 0 None None 0 None "".
(** A field is named as its key folds: the key of [RunID] is [RunID]. *)
Definition attempt_ref_fields : Fields ExecutionAttemptRef :=
  record MkAttemptRef <&> text_field "runid" <&> text_field "operationid" <&> int_field "attempt".
Definition sandbox_fields : Fields VerificationSandbox :=
  record MkSandbox <&> text_field "image" <&> text_field "state_dir"
    <&> field "" (struct (record (λ host : string, host) <&> text_field "host")) "endpoint".
Definition permit_fields : Fields VerificationPermit :=
  record MkPermit <&> text_field "id" <&> field no_attempt_ref (struct attempt_ref_fields) "parent" <&> text_field "controller_owner"
    <&> text_field "tool_owner" <&> text_field "state" <&> time_field "requested_at" <&> stamp_field "granted_at"
    <&> stamp_field "released_at" <&> time_field "expires_at" <&> some_field no_sandbox (struct sandbox_fields) "sandbox"
    <&> text_field "tool_lock_dir".

(** [decodeJSON]: nothing is not a document. *)
Definition decodeJSON {A} (d : Decoder A) (zero : A) (raw : option Json) : option A :=
  match raw with Some v => Unmarshal d zero v | None => None end.

(* ------------------------------------------------------------------ *)
(** * Waiting for capacity *)

Definition EventVerificationPermitChanged : string := "verification.permit_changed".
Definition EventOperationBefore : string := "operation.before".
Definition EventOperationAfter : string := "operation.after".
Definition EventRunCompleted : string := "run.completed".
Definition EventRunFailed : string := "run.failed".
Definition EventRunCancelled : string := "run.cancelled".
Definition EventRunPaused : string := "run.paused".
Definition EventRunUnpaused : string := "run.unpaused".

Record WaitState := MkWait {
  wait_tools : gmap string VerificationPermit;
  wait_opened : Z;
  wait_excluded : Z
}.

Definition closeWait (since until : Z) (s : WaitState) (at_ : Z) : WaitState :=
  if (s.(wait_opened) =? 0)%Z then s
  else
    let start := if (s.(wait_opened) <? since)%Z then since else s.(wait_opened) in
    let stop := if (until <? at_)%Z then until else at_ in
    MkWait s.(wait_tools) 0 (if (start <? stop)%Z then wrap64 (s.(wait_excluded) + Sub stop start) else s.(wait_excluded)).

Definition drop_tools (gone : VerificationPermit → bool) (tools : gmap string VerificationPermit) : gmap string VerificationPermit :=
  filter (λ t, gone t.2 = false) tools.

(** The tools after an event, [None] where the loop goes on to the next one. *)
Definition wait_tools_after (operationID : string) (tools : gmap string VerificationPermit) (event : EngineeringEvent) :
    option (gmap string VerificationPermit) :=
  let of_event p := p.(Permit_Parent).(AttemptRef_OperationID) ≟ event.(Event_OperationID) in
  if event.(Event_Type) ≟ EventVerificationPermitChanged then
    p ← decodeJSON (struct permit_fields) no_permit event.(Event_Payload);
    if (operationID ≠? "") && (p.(Permit_Parent).(AttemptRef_OperationID) ≠? operationID) then None
    else if p.(Permit_State) ≟ VerificationReleased then Some (delete p.(Permit_ID) tools)
    else Some (<[p.(Permit_ID) := p]> tools)
  else if event.(Event_Type) ≟ EventOperationAfter then Some (drop_tools of_event tools)
  else if event.(Event_Type) ≟ EventOperationBefore then
    op ← decodeJSON (struct operation_fields) no_operation event.(Event_Payload);
    Some (drop_tools (λ p, of_event p && negb (p.(Permit_Parent).(AttemptRef_Attempt) =? op.(Op_AttemptIdentity))%Z) tools)
  else if [EventRunCompleted; EventRunFailed; EventRunCancelled] ∋? event.(Event_Type) then Some ∅
  else None.

Definition some_tool (state : string) (tools : gmap string VerificationPermit) : bool :=
  existsb (λ p, p.(Permit_State) ≟ state) (map_to_list tools).*2.

Definition wait_step (operationID : string) (since until : Z) (s : WaitState) (event : EngineeringEvent) : WaitState :=
  match wait_tools_after operationID s.(wait_tools) event with
  | None => s
  | Some tools =>
      let s := MkWait tools s.(wait_opened) s.(wait_excluded) in
      if negb (some_tool VerificationWaiting tools) || some_tool VerificationGranted tools
      then closeWait since until s event.(Event_OccurredAt)
      else if (s.(wait_opened) =? 0)%Z then MkWait tools event.(Event_OccurredAt) s.(wait_excluded) else s
  end.

Fixpoint wait_loop (operationID : string) (since until : Z) (events : list EngineeringEvent) (s : WaitState) : WaitState :=
  match events with
  | [] => s
  | event :: events =>
      if (until <? event.(Event_OccurredAt))%Z then s
      else wait_loop operationID since until events (wait_step operationID since until s event)
  end.

Definition verificationWait (events : list EngineeringEvent) (operationID : string) (since until : Z) : Z :=
  (closeWait since until (wait_loop operationID since until events (MkWait ∅ 0 0)) until).(wait_excluded).
