(* ===== verification/Scheduler.v ===== *)
(** The scheduler ([runtime/scheduler.go], [driver_leases.go],
    [capacity_wait.go], and its methods of [verification_permit.go],
    [verification_wait.go] and [review_verification_claim.go]) as programs of
    atomic calls, and the two stores the calls are made on.

    Drivers of several processes run these methods at once; what is atomic is a
    call of the store, of the clock, of the liveness probe and of the process's
    own record of its grants.  A method is therefore a tree of calls, and
    [SchedulerFacts] runs any number of them interleaved. *)

From S2P Require Import Prelude GoStrings Json Domain Canonical GoTime Plan Events Operation Permit.
From stdpp Require Import options.

(* ------------------------------------------------------------------ *)
(** * Programs *)

Inductive StoreError :=
  | IOFailed
  | OperationIDRequired
  | AcquireIncomplete
  | Undigestible (e : CanonicalError)
  | PermitInvalid (e : PermitError)
  | TransitionInvalid
  | CeilingBelowOne
  | ClaimInvalid (e : PermitError).

Inductive action :=
  | Now
  | Alive (owner : string)
  | LockAlive (dir owner : string)
  | RandText
  | IssueGrant
  | ReleaseGrant (grant : string)
  | GrantAbandoned (grant : string)
  | ReconcileSandbox (p : VerificationPermit)
  | Operations (runID : string)
  | AllOperations
  | ReadOperation (id : string)
  | OperationByIdempotencyKey (runID key : string)
  | PutOperation (op : RunOperation) (expected : Z)
  | AcquireOperation (op : RunOperation) (expected maxRuns maxObservations maxVerifications : Z)
  | VerificationPermits
  | ReadPermit (id : string)
  | TransitionVerificationPermit (p : VerificationPermit) (expected ceiling : Z)
  | ReadEvents (runID : string)
  | ReviewVerificationClaims
  | ClaimReviewVerificationSlot (claim : ReviewVerificationClaim) (maxRuns maxVerifications : Z)
  | ReleaseReviewVerificationClaim (id : string).

Definition answer (c : action) : Type :=
  match c with
  | Now => Z
  | Alive _ | LockAlive _ _ | GrantAbandoned _ => bool
  | RandText | IssueGrant => string
  | ReleaseGrant _ => ()
  | ReconcileSandbox _ => result StoreError ()
  | Operations _ | AllOperations => result StoreError (list RunOperation)
  | ReadOperation _ => result StoreError (option (RunOperation * Z))
  | OperationByIdempotencyKey _ _ => result StoreError (option RunOperation)
  | PutOperation _ _ | AcquireOperation _ _ _ _ _ => result StoreError (Z * bool)
  | VerificationPermits => result StoreError (list VerificationPermit)
  | ReadPermit _ => result StoreError (option (VerificationPermit * Z))
  | TransitionVerificationPermit _ _ _ => result StoreError bool
  | ReadEvents _ => result StoreError (list EngineeringEvent)
  | ReviewVerificationClaims => result StoreError (list ReviewVerificationClaim)
  | ClaimReviewVerificationSlot _ _ _ => result StoreError bool
  | ReleaseReviewVerificationClaim _ => result StoreError ()
  end.

Inductive prog (A : Type) :=
  | Ret (a : A)
  | Act (c : action) (k : answer c → prog A).
Global Arguments Ret {A} a.
Global Arguments Act {A} c k.

Fixpoint pbind {A B} (p : prog A) (k : A → prog B) : prog B :=
  match p with
  | Ret a => k a
  | Act c f => Act c (λ r, pbind (f r) k)
  end.

Definition ask (c : action) : prog (answer c) := Act c Ret.
Notation "'do' x := p 'in' k" := (pbind p (λ x, k))
  (at level 10, x pattern, p at level 100, k at level 200, format "'[v' 'do'  x  :=  p  'in'  '/' k ']'") : go_scope.

Inductive SchedulerError :=
  | StoreFailed (e : StoreError)
  | PlanIncomplete
  | KeyBelongsTo (kind : string)
  | OperationExists (id : string)
  | OperationNotFound (id : string)
  | ChangedConcurrently (id : string)
  | NotLeasedByScheduler
  | LeaseNotOwned
  | NotTerminal
  | NotActive
  | NotFailed
  | StoreWithoutPermits
  | StoreWithoutClaims
  | AttemptRefused (e : PermitError)
  | ToolIdentityMissing
  | ParentUnavailable
  | ControllerDead
  | RequestNotOwned
  | ParentNotRunning
  | PermitNotOwned
  | ExecutionAlive
  | CleanupUncertain (e : StoreError)
  | ReclaimFailed (e : SchedulerError)
  | ReleaseUnfinished.

(** A call whose error the method returns. *)
Definition pwrap {A} (p : prog (result StoreError A)) : prog (result SchedulerError A) :=
  do r := p in Ret (wrap StoreFailed r).
Definition rpbind {A B} (p : prog (result SchedulerError A)) (k : A → prog (result SchedulerError B)) : prog (result SchedulerError B) :=
  do r := p in match r with Ok a => k a | Err e => Ret (Err e) end.
Notation "'let!' x := p 'in' k" := (rpbind p (λ x, k))
  (at level 10, x pattern, p at level 100, k at level 200, format "'[v' 'let!'  x  :=  p  'in'  '/' k ']'") : go_scope.
Definition refuse_when (b : bool) (e : SchedulerError) : prog (result SchedulerError ()) := Ret (refuse_if b e).
Definition done_with {A} (a : A) : prog (result SchedulerError A) := Ret (Ok a).

(** [for _, x := range l { ... }] whose body may return. *)
Fixpoint each {A} (f : A → prog (result SchedulerError ())) (l : list A) : prog (result SchedulerError ()) :=
  match l with
  | [] => done_with ()
  | x :: l => let! _ := f x in each f l
  end.

(** [Scheduler_Store] is [s.Store != nil], [Scheduler_Permits] and
    [Scheduler_Claims] whether the store passes the type assertions to the
    stores of permits and claims, [Scheduler_Drivers] is [s.Drivers != nil]. *)
Record Scheduler := MkScheduler {
  Scheduler_Store : bool;
  Scheduler_Permits : bool;
  Scheduler_Claims : bool;
  Scheduler_Owner : string;
  Scheduler_LeaseDuration : Z;
  Scheduler_MaxConcurrentRuns : Z;
  Scheduler_MaxConcurrentObservations : Z;
  Scheduler_MaxConcurrentVerifications : Z;
  Scheduler_Drivers : bool
}.

Definition minute : Z := 60 * second.
Definition defaults (s : Scheduler) : Scheduler :=
  MkScheduler s.(Scheduler_Store) s.(Scheduler_Permits) s.(Scheduler_Claims) s.(Scheduler_Owner)
    (if (s.(Scheduler_LeaseDuration) <=? 0)%Z then minute else s.(Scheduler_LeaseDuration))
    (if (s.(Scheduler_MaxConcurrentRuns) <=? 0)%Z then defaultMaxConcurrentRuns else s.(Scheduler_MaxConcurrentRuns))
    (resolveMaxConcurrentObservations s.(Scheduler_MaxConcurrentObservations))
    (resolveMaxConcurrentVerifications s.(Scheduler_MaxConcurrentVerifications)) s.(Scheduler_Drivers).

(* ------------------------------------------------------------------ *)
(** * Changing one row *)

Definition transitionAttempts : nat := 3.

Fixpoint transition_loop (attempts : nat) (id : string) (change : RunOperation → Z → prog (result SchedulerError RunOperation)) :
    prog (result SchedulerError RunOperation) :=
  match attempts with
  | O => Ret (Err (ChangedConcurrently id))
  | S attempts =>
      let! row := pwrap (ask (ReadOperation id)) in
      match row with
      | None => Ret (Err (OperationNotFound id))
      | Some (op, revision) =>
          do now := ask Now in
          let! op' := change op now in
          let! written := pwrap (ask (PutOperation op' revision)) in
          if written.2 then done_with op' else transition_loop attempts id change
      end
  end.
Definition transition (id : string) (change : RunOperation → Z → prog (result SchedulerError RunOperation)) :
    prog (result SchedulerError RunOperation) := transition_loop transitionAttempts id change.

Definition operationVerificationWait (s : Scheduler) (op : RunOperation) (until : Z) : prog (result SchedulerError Z) :=
  match s.(Scheduler_Permits), op.(Op_ActiveSince) with
  | true, Some since =>
      let! events := pwrap (ask (ReadEvents op.(Op_RunID))) in
      done_with (verificationWait events op.(Op_ID) since until)
  | _, _ => done_with 0%Z
  end.

Definition lease_owner (op : RunOperation) : option string := Lease_Owner <$> op.(Op_Lease).

Definition start_change (s : Scheduler) (limit : option AttemptLimit) (op : RunOperation) (now : Z) : prog (result SchedulerError RunOperation) :=
  let! _ := refuse_when ((op.(Op_State) ≠? Leased) || (lease_owner op ≠? Some s.(Scheduler_Owner))) NotLeasedByScheduler in
  let! waiting := operationVerificationWait s op now in
  done_with (started limit op now waiting).
Definition StartWithin (s : Scheduler) (id : string) (limit : option AttemptLimit) := transition id (start_change s limit).
Definition Start (s : Scheduler) (id : string) := StartWithin s id None.

Definition heartbeat_change (s : Scheduler) (op : RunOperation) (now : Z) : prog (result SchedulerError RunOperation) :=
  let! _ := refuse_when (lease_owner op ≠? Some s.(Scheduler_Owner)) LeaseNotOwned in
  done_with (renewed op now (defaults s).(Scheduler_LeaseDuration)).
Definition Heartbeat (s : Scheduler) (id : string) := transition id (heartbeat_change s).

Definition RecordProviderProgress (s : Scheduler) (id : string) (attempt : Z) (progress : ProviderProgress) :=
  transition id (λ op now, done_with (progressed s.(Scheduler_Owner) op now attempt progress)).

Definition finish_change (s : Scheduler) (state : string) (retryAt : Z) (disposition : string) (endedAt : Z)
    (op : RunOperation) (now : Z) : prog (result SchedulerError RunOperation) :=
  let! _ := refuse_when ((op.(Op_State) ≠? Leased) && (op.(Op_State) ≠? Running)) NotActive in
  let ended := attempt_ended now endedAt in
  let! wait := operationVerificationWait s op ended in
  done_with (finished state retryAt disposition op ended wait).
Definition finishAt (s : Scheduler) (id state : string) (retryAt : Z) (disposition : string) (endedAt : Z) :=
  if [Succeeded; OperationFailed; OperationCancelled; Unknown] ∋? state
  then transition id (finish_change s state retryAt disposition endedAt) else Ret (Err NotTerminal).
Definition Finish (s : Scheduler) (id state : string) := finishAt s id state 0 "" 0.

Definition ReserveAttemptIdentity (id : string) (identity : Z) := transition id (λ op _, done_with (reserved op identity)).

Definition restore_change (refundExecution : bool) (op : RunOperation) (_ : Z) : prog (result SchedulerError RunOperation) :=
  let! _ := refuse_when (op.(Op_State) ≠? OperationFailed) NotFailed in
  done_with (restored refundExecution op).
Definition RestoreAttempt (id : string) (refundExecution : bool) := transition id (restore_change refundExecution).

Definition RequestCancel (id : string) := transition id (λ op _, done_with (cancelled op)).

Definition BudgetState (op : RunOperation) : prog string := do now := ask Now in Ret (budget_state op now).

(** [Reconcile]: the answer of the reconciler, [None] when there is none. *)
Definition Reconcile (s : Scheduler) (op : RunOperation) (reconciler : option (result () string)) :=
  match reconciler with
  | Some (Ok state) => Finish s op.(Op_ID) state
  | _ => Finish s op.(Op_ID) Unknown
  end.

(* ------------------------------------------------------------------ *)
(** * Planning an operation *)

Definition adoptPlanned (prior : RunOperation) (kind : string) : result SchedulerError (RunOperation * bool) :=
  refuse_if (prior.(Op_Kind) ≠? kind) (KeyBelongsTo prior.(Op_Kind)) ;? Ok (prior, false).

Definition plan_operation (s : Scheduler) (op : RunOperation) : prog (result SchedulerError (RunOperation * bool)) :=
  let! _ := refuse_when (negb s.(Scheduler_Store) || (op.(Op_RunID) ≟ "") || (op.(Op_Kind) ≟ "") || (op.(Op_IdempotencyKey) ≟ "")) PlanIncomplete in
  let! prior := pwrap (ask (OperationByIdempotencyKey op.(Op_RunID) op.(Op_IdempotencyKey))) in
  match prior with
  | Some prior => Ret (adoptPlanned prior op.(Op_Kind))
  | None =>
      let id := if op.(Op_ID) ≟ "" then StableOperationKey op.(Op_RunID) op.(Op_Kind) [op.(Op_IdempotencyKey)] else op.(Op_ID) in
      do now := ask Now in
      let op := planned op id now in
      let! created := pwrap (ask (PutOperation op 0)) in
      if created.2 then done_with (op, true)
      else
        let! prior := pwrap (ask (OperationByIdempotencyKey op.(Op_RunID) op.(Op_IdempotencyKey))) in
        match prior with
        | None => Ret (Err (OperationExists op.(Op_ID)))
        | Some prior => Ret (adoptPlanned prior op.(Op_Kind))
        end
  end.

(* ------------------------------------------------------------------ *)
(** * The grants of this process *)

Record DriverLeases := MkDrivers {
  Drivers_prefix : string;
  Drivers_next : Z;
  Drivers_held : gset string
}.
Definition drivers_issue (d : DriverLeases) : string * DriverLeases :=
  let next := ((d.(Drivers_next) + 1) mod 2 ^ 64)%Z in
  let grant := d.(Drivers_prefix) +:+ itoa next in
  (grant, MkDrivers d.(Drivers_prefix) next ({[grant]} ∪ d.(Drivers_held))).
Definition drivers_release (d : DriverLeases) (grant : string) : DriverLeases :=
  MkDrivers d.(Drivers_prefix) d.(Drivers_next) (d.(Drivers_held) ∖ {[grant]}).
Definition drivers_abandoned (d : DriverLeases) (grant : string) : bool :=
  HasPrefix grant d.(Drivers_prefix) && negb (bool_decide (grant ∈ d.(Drivers_held))).

(** Without a record: a random grant, nothing to release, nothing to vouch for. *)
Definition issue (s : Scheduler) : prog string := if s.(Scheduler_Drivers) then ask IssueGrant else ask RandText.
Definition release_grant (s : Scheduler) (grant : string) : prog () := if s.(Scheduler_Drivers) then ask (ReleaseGrant grant) else Ret tt.
Definition grant_abandoned (s : Scheduler) (grant : string) : prog bool := if s.(Scheduler_Drivers) then ask (GrantAbandoned grant) else Ret false.

Definition stranded (s : Scheduler) (op : RunOperation) : prog bool :=
  match op.(Op_Lease) with
  | None => Ret false
  | Some lease =>
      if (lease.(Lease_Owner) ≠? s.(Scheduler_Owner)) || ((op.(Op_State) ≠? Leased) && (op.(Op_State) ≠? Running)) then Ret false
      else grant_abandoned s lease.(Lease_Grant)
  end.

Definition Relinquish (s : Scheduler) (id : string) (granted : Lease) : prog (result SchedulerError ()) :=
  do r := (let! row := pwrap (ask (ReadOperation id)) in
    match row with
    | None => done_with ()
    | Some (op, revision) =>
        if (granted.(Lease_Grant) ≟ "") || (Lease_Grant <$> op.(Op_Lease) ≠? Some granted.(Lease_Grant))
           || ((op.(Op_State) ≠? Leased) && (op.(Op_State) ≠? Running)) then done_with ()
        else let! _ := pwrap (ask (PutOperation (released op) revision)) in done_with ()
    end) in
  do _ := release_grant s granted.(Lease_Grant) in Ret r.

Definition is_abandoned (s : Scheduler) (now : Z) (op : RunOperation) : prog bool :=
  match op.(Op_Lease) with
  | None => Ret false
  | Some lease =>
      do alive := ask (Alive lease.(Lease_Owner)) in
      if CanAcquire op now alive then Ret true else stranded s op
  end.

Definition reclaimAbandoned (s : Scheduler) (candidate : RunOperation) (now : Z) : prog (result SchedulerError bool) :=
  do gone := is_abandoned s now candidate in
  if negb gone then done_with false
  else
    let! row := pwrap (ask (ReadOperation candidate.(Op_ID))) in
    match row with
    | None => done_with false
    | Some (op, revision) =>
        if (op.(Op_State) ≠? Leased) && (op.(Op_State) ≠? Running) then done_with true
        else
          do gone := is_abandoned s now op in
          if negb gone then done_with false
          else let! written := pwrap (ask (PutOperation (released op) revision)) in done_with written.2
    end.

(* ------------------------------------------------------------------ *)
(** * Verification capacity *)

Definition verificationOwnerAlive (p : VerificationPermit) : prog bool :=
  if p.(Permit_ToolLockDir) ≠? "" then ask (LockAlive p.(Permit_ToolLockDir) p.(Permit_ToolOwner)) else ask (Alive p.(Permit_ToolOwner)).

Definition permit_state (p : VerificationPermit) (state : string) (granted released : option Z) (expires : Z) : VerificationPermit :=
  MkPermit p.(Permit_ID) p.(Permit_Parent) p.(Permit_ControllerOwner) p.(Permit_ToolOwner) state p.(Permit_RequestedAt)
    granted released expires p.(Permit_Sandbox) p.(Permit_ToolLockDir).
Definition permit_granted (p : VerificationPermit) (now duration : Z) : VerificationPermit :=
  permit_state p VerificationGranted (Some now) p.(Permit_ReleasedAt) (now + duration)%Z.
Definition permit_released (p : VerificationPermit) (now : Z) : VerificationPermit :=
  permit_state p VerificationReleased p.(Permit_GrantedAt) (Some now) p.(Permit_ExpiresAt).

Definition requestVerification (s : Scheduler) (parent : ExecutionAttemptRef) (toolID toolOwner : string)
    (sandbox : option VerificationSandbox) (lockDir : string) : prog (result SchedulerError VerificationPermit) :=
  let s := defaults s in
  let! _ := Ret (wrap AttemptRefused (attempt_Validate parent)) in
  let! _ := refuse_when ((toolID ≟ "") || (toolOwner ≟ "")) ToolIdentityMissing in
  let! _ := refuse_when (negb s.(Scheduler_Permits)) StoreWithoutPermits in
  do now := ask Now in
  let p := MkPermit (verificationPermitID parent toolID) parent s.(Scheduler_Owner) toolOwner VerificationWaiting now None None
    (now + s.(Scheduler_LeaseDuration))%Z sandbox lockDir in
  let! ok := pwrap (ask (TransitionVerificationPermit p 0 s.(Scheduler_MaxConcurrentVerifications))) in
  let! _ := refuse_when (negb ok) ParentUnavailable in
  done_with p.
Definition RequestVerification (s : Scheduler) (parent : ExecutionAttemptRef) (toolID toolOwner : string) :=
  requestVerification s parent toolID toolOwner None "".

(** The loop of [ReleaseVerification] reads the permit until the transition is
    made or found made.  The code sets no bound on it; here it goes round as
    often as [rounds] says, and what is shown holds whatever that is. *)
Class Rounds := rounds : nat.
Fixpoint release_loop (attempts : nat) (s : Scheduler) (request : VerificationPermit) : prog (result SchedulerError ()) :=
  match attempts with
  | O => Ret (Err ReleaseUnfinished)
  | S attempts =>
      let! row := pwrap (ask (ReadPermit request.(Permit_ID))) in
      match row with
      | None => Ret (Err PermitNotOwned)
      | Some (p, revision) =>
          if (p.(Permit_ToolOwner) ≠? request.(Permit_ToolOwner)) || (p.(Permit_Parent) ≠? request.(Permit_Parent)) then Ret (Err PermitNotOwned)
          else if p.(Permit_State) ≟ VerificationReleased then done_with ()
          else
            do alive := (if p.(Permit_State) ≟ VerificationGranted then verificationOwnerAlive p else Ret false) in
            if (alive : bool) then Ret (Err ExecutionAlive)
            else
              do now := ask Now in
              let! ok := pwrap (ask (TransitionVerificationPermit (permit_released p now) revision s.(Scheduler_MaxConcurrentVerifications))) in
              if (ok : bool) then done_with () else release_loop attempts s request
      end
  end.
Definition ReleaseVerification `{!Rounds} (s : Scheduler) (request : VerificationPermit) : prog (result SchedulerError ()) :=
  let s := defaults s in
  let! _ := refuse_when (negb s.(Scheduler_Permits)) StoreWithoutPermits in
  release_loop rounds s request.

Definition reclaimVerificationPermit `{!Rounds} (s : Scheduler) (p : VerificationPermit) : prog (result SchedulerError ()) :=
  if p.(Permit_State) ≟ VerificationReleased then done_with ()
  else
    do now := ask Now in
    if (now <? p.(Permit_ExpiresAt))%Z then done_with ()
    else
      do alive := verificationOwnerAlive p in
      if (alive : bool) then done_with ()
      else
        do cleaned := match p.(Permit_Sandbox) with Some _ => ask (ReconcileSandbox p) | None => Ret (Ok ()) end in
        match cleaned with
        | Err e => Ret (Err (CleanupUncertain e))
        | Ok _ => do r := ReleaseVerification s p in Ret (wrap ReclaimFailed r)
        end.
Definition reclaimVerificationPermits `{!Rounds} (s : Scheduler) : prog (result SchedulerError ()) :=
  if negb s.(Scheduler_Permits) then done_with ()
  else
    let! permits := pwrap (ask VerificationPermits) in
    each (λ p, do r := reclaimVerificationPermit s p in
               match r with Err (CleanupUncertain _) => done_with () | _ => Ret r end) permits.

Definition VerificationCleanupPending (s : Scheduler) (runID : string) : prog (result SchedulerError bool) :=
  if negb s.(Scheduler_Permits) then done_with false
  else
    let! permits := pwrap (ask VerificationPermits) in
    done_with (existsb (λ p, (p.(Permit_Parent).(AttemptRef_RunID) ≟ runID) && (p.(Permit_State) ≟ VerificationGranted)) permits).

Definition VerificationSaturated (s : Scheduler) (runID : string) : prog (result SchedulerError bool) :=
  let s := defaults s in
  let! all := pwrap (ask AllOperations) in
  let verifying : gset string :=
    list_to_set (Op_RunID <$> List.filter (λ op, (op.(Op_RunID) ≠? runID) && holdsVerificationSlot op) all) in
  let! nested := (if s.(Scheduler_Permits) then
      let! permits := pwrap (ask VerificationPermits) in
      done_with (length (List.filter (λ p, p.(Permit_State) ≟ VerificationGranted) permits))
    else done_with 0%nat) in
  let! reviewing := (if s.(Scheduler_Claims) then
      let! claims := pwrap (ask ReviewVerificationClaims) in done_with (length claims)
    else done_with 0%nat) in
  done_with (s.(Scheduler_MaxConcurrentVerifications) <=? Z.of_nat (size verifying + nested + reviewing))%Z.

Definition AcquireVerification `{!Rounds} (s : Scheduler) (request : VerificationPermit) : prog (result SchedulerError bool) :=
  let s := defaults s in
  let! _ := reclaimVerificationPermits s in
  do alive := ask (Alive s.(Scheduler_Owner)) in
  let! _ := refuse_when (negb alive) ControllerDead in
  let! _ := refuse_when (negb s.(Scheduler_Permits)) StoreWithoutPermits in
  let! row := pwrap (ask (ReadPermit request.(Permit_ID))) in
  match row with
  | None => Ret (Err RequestNotOwned)
  | Some (p, revision) =>
      let! _ := refuse_when ((p.(Permit_ToolOwner) ≠? request.(Permit_ToolOwner)) || (p.(Permit_ControllerOwner) ≠? s.(Scheduler_Owner))
        || (p.(Permit_Parent) ≠? request.(Permit_Parent)) || (p.(Permit_State) ≠? VerificationWaiting)) RequestNotOwned in
      let! parent := pwrap (ask (ReadOperation p.(Permit_Parent).(AttemptRef_OperationID))) in
      do now := ask Now in
      let running := match parent with
        | None => false
        | Some (op, _) =>
            (op.(Op_State) ≟ Running) && (lease_owner op ≟ Some s.(Scheduler_Owner)) && negb op.(Op_CancelRequested)
            && (op.(Op_RunID) ≟ p.(Permit_Parent).(AttemptRef_RunID)) && (op.(Op_AttemptIdentity) =? p.(Permit_Parent).(AttemptRef_Attempt))%Z
            && match op.(Op_Deadline) with Some deadline => (now <? deadline)%Z | None => true end
        end in
      let! _ := refuse_when (negb running) ParentNotRunning in
      let! full := VerificationSaturated s p.(Permit_Parent).(AttemptRef_RunID) in
      if (full : bool) then done_with false
      else pwrap (ask (TransitionVerificationPermit (permit_granted p now s.(Scheduler_LeaseDuration)) revision
                         s.(Scheduler_MaxConcurrentVerifications)))
  end.

Definition reclaimReviewVerificationClaims (s : Scheduler) : prog (result SchedulerError ()) :=
  if negb s.(Scheduler_Claims) then done_with ()
  else
    let! claims := pwrap (ask ReviewVerificationClaims) in
    do now := ask Now in
    each (λ claim,
      if (now <? claim.(Claim_ExpiresAt))%Z then done_with ()
      else
        do alive := ask (Alive claim.(Claim_ControllerOwner)) in
        if (alive : bool) then done_with () else pwrap (ask (ReleaseReviewVerificationClaim claim.(Claim_ID)))) claims.

Definition reviewVerificationClaimTTL : Z := 15 * minute.
Definition claimReviewVerificationSlot (s : Scheduler) (owner runID : string) (ttl : Z) :
    prog (result SchedulerError (option ReviewVerificationClaim)) :=
  let s := defaults s in
  let! _ := refuse_when (negb s.(Scheduler_Claims)) StoreWithoutClaims in
  let ttl := if (ttl <? reviewVerificationClaimTTL)%Z then reviewVerificationClaimTTL else ttl in
  let! _ := reclaimReviewVerificationClaims s in
  do now := ask Now in
  do text := ask RandText in
  let claim := MkClaim ("review-verification-" +:+ text) owner runID now (now + ttl)%Z in
  let! claimed := pwrap (ask (ClaimReviewVerificationSlot claim s.(Scheduler_MaxConcurrentRuns) s.(Scheduler_MaxConcurrentVerifications))) in
  done_with (if (claimed : bool) then Some claim else None).
Definition releaseReviewVerificationSlot (s : Scheduler) (id : string) : prog (result SchedulerError ()) :=
  let! _ := refuse_when (negb s.(Scheduler_Claims)) StoreWithoutClaims in
  pwrap (ask (ReleaseReviewVerificationClaim id)).

(* ------------------------------------------------------------------ *)
(** * Leasing the next operation *)

Definition by_id (ops : list RunOperation) : gmap string RunOperation :=
  fold_left (λ m op, <[op.(Op_ID) := op]> m) ops ∅.

Fixpoint lease_first (s : Scheduler) (all : gmap string RunOperation) (now : Z) (candidates : list RunOperation) :
    prog (result SchedulerError (option RunOperation)) :=
  match candidates with
  | [] => done_with None
  | candidate :: candidates =>
      let! row := pwrap (ask (ReadOperation candidate.(Op_ID))) in
      match row with
      | None => lease_first s all now candidates
      | Some (op, revision) =>
          do alive := match op.(Op_Lease) with Some lease => ask (Alive lease.(Lease_Owner)) | None => Ret false end in
          if negb (leasable op all now alive) then lease_first s all now candidates
          else if OperationExpired op now then
            let! _ := pwrap (ask (PutOperation (retired op) revision)) in
            lease_first s all now candidates
          else
            do grant := issue s in
            let op := leased op (MkLease s.(Scheduler_Owner) now (now + s.(Scheduler_LeaseDuration))%Z grant) in
            do acquired := ask (AcquireOperation op revision s.(Scheduler_MaxConcurrentRuns)
              s.(Scheduler_MaxConcurrentObservations) s.(Scheduler_MaxConcurrentVerifications)) in
            match acquired with
            | Err e => do _ := release_grant s grant in Ret (Err (StoreFailed e))
            | Ok (_, false) => do _ := release_grant s grant in lease_first s all now candidates
            | Ok (_, true) => done_with (Some op)
            end
      end
  end.

Definition Next `{!Rounds} (s : Scheduler) (runID : string) : prog (result SchedulerError (option RunOperation)) :=
  let s := defaults s in
  let! _ := reclaimVerificationPermits s in
  let! _ := reclaimReviewVerificationClaims s in
  let! pending := VerificationCleanupPending s runID in
  if (pending : bool) then done_with None
  else
    let! ops := pwrap (ask (Operations runID)) in
    let! allOperations := pwrap (ask AllOperations) in
    do now := ask Now in
    let! _ := each (λ op,
      if is_active op then let! _ := reclaimAbandoned s op now in done_with () else done_with ()) allOperations in
    lease_first s (by_id ops) now ops.

Record CapacityWait := MkCapacityWait {
  CapacityWait_Class : string;
  CapacityWait_Ceiling : Z
}.
Definition ReasonWorkCapacity : string := "work_capacity_unavailable".
Definition ReasonObservationCapacity : string := "observation_capacity_unavailable".
Definition ReasonVerificationCapacity : string := "verification_capacity_unavailable".
Definition capacity_reason (w : CapacityWait) : string :=
  if w.(CapacityWait_Class) ≟ CapacityWork then ReasonWorkCapacity
  else if w.(CapacityWait_Class) ≟ CapacityObservation then ReasonObservationCapacity
  else if w.(CapacityWait_Class) ≟ CapacityVerification then ReasonVerificationCapacity else "".
Definition capacity_valid (w : CapacityWait) (reason : string) : bool :=
  negb ((w.(CapacityWait_Ceiling) <=? 0)%Z || (capacity_reason w ≟ "") || (capacity_reason w ≠? reason)).

Definition class_ceiling (s : Scheduler) (kind : string) : Z :=
  if OperationCapacityClass kind ≟ CapacityObservation then s.(Scheduler_MaxConcurrentObservations) else s.(Scheduler_MaxConcurrentRuns).

Definition CapacityBlocked (s : Scheduler) (op : RunOperation) : prog (result SchedulerError (option CapacityWait)) :=
  let s := defaults s in
  let! all := pwrap (ask AllOperations) in
  let class := OperationCapacityClass op.(Op_Kind) in
  let operations := by_id all in
  if existsb (λ current, is_active current && (current.(Op_RunID) ≟ op.(Op_RunID))) all then done_with None
  else
    let held : gset string := list_to_set (Op_RunID <$>
      List.filter (λ current, is_active current && (OperationCapacityClass current.(Op_Kind) ≟ class)) all) in
    do now := ask Now in
    match operations !! op.(Op_ID) with
    | None => done_with None
    | Some current =>
        if negb (leasable current operations now false) || OperationExpired current now then done_with None
        else if (class_ceiling s op.(Op_Kind) <=? Z.of_nat (size held))%Z
        then done_with (Some (MkCapacityWait class (class_ceiling s op.(Op_Kind))))
        else if consumesVerification op.(Op_Kind) then
          let! saturated := VerificationSaturated s op.(Op_RunID) in
          done_with (if (saturated : bool) then Some (MkCapacityWait CapacityVerification s.(Scheduler_MaxConcurrentVerifications)) else None)
        else done_with None
    end.
