(* ===== verification/OperationStore.v ===== *)
(** What the scheduler relies on of a store, and the two stores: the durable
    one ([runtime/sqlite_store.go], [verification_permit_sqlite.go],
    [review_verification_claim.go], [pause.go]) and the in-process one of
    [runtime/scheduler.go]. *)

From S2P Require Import Prelude GoStrings Json Domain Canonical GoTime Plan Events Operation Permit Scheduler.
From stdpp Require Import options.

(* ------------------------------------------------------------------ *)
(** * The table the stores present *)

(** A row with its revision, the run of every review that holds a claim, the
    run of every granted permit. *)
Record Table := MkTable {
  t_rows : gmap string (RunOperation * Z);
  t_claims : gmap string string;
  t_granted : gmap string string
}.

Section occupancy.
Implicit Types (T : Table).

Definition runs_where (keep : RunOperation → bool) T : gset string :=
  list_to_set (Op_RunID <$> List.filter keep (map_to_list T.(t_rows)).*2.*1).
Definition claim_runs T : gset string := list_to_set (map_to_list T.(t_claims)).*2.
Definition class_holder (class : string) (op : RunOperation) : bool := is_active op && (OperationCapacityClass op.(Op_Kind) ≟ class).

(** The runs at work: those with an active work operation or a review. *)
Definition work_runs T : gset string := runs_where (class_holder CapacityWork) T ∪ claim_runs T.
Definition observation_runs T : gset string := runs_where (class_holder CapacityObservation) T.
Definition verification_load T : Z :=
  Z.of_nat (size (runs_where holdsVerificationSlot T) + size T.(t_granted) + size T.(t_claims)).
Definition verification_beside (run : string) T : Z :=
  Z.of_nat (size (runs_where holdsVerificationSlot T ∖ {[run]}) + size T.(t_granted) + size T.(t_claims)).

Definition put_row op (revision : Z) T : Table := MkTable (<[op.(Op_ID) := (op, revision)]> T.(t_rows)) T.(t_claims) T.(t_granted).

Definition key_free op T : Prop :=
  ∀ id prior revision, T.(t_rows) !! id = Some (prior, revision) →
    ¬ (prior.(Op_RunID) = op.(Op_RunID) ∧ prior.(Op_IdempotencyKey) = op.(Op_IdempotencyKey)).

(** A successful write: of a row that is not there, or of the row at the
    revision expected. *)
Definition put_applies op (expected : Z) T : Prop :=
  if (expected =? 0)%Z then T.(t_rows) !! op.(Op_ID) = None ∧ key_free op T
  else ∃ old, T.(t_rows) !! op.(Op_ID) = Some (old, expected).

Definition class_within op (maxRuns maxObservations : Z) T : Prop :=
  if OperationCapacityClass op.(Op_Kind) ≟ CapacityObservation
  then (Z.of_nat (size (observation_runs T ∖ {[op.(Op_RunID)]})) < maxObservations)%Z
  else (Z.of_nat (size (work_runs T ∖ {[op.(Op_RunID)]})) < maxRuns)%Z.

Record acquire_applies op (expected maxRuns maxObservations maxVerifications : Z) T : Prop := {
  acquire_row : ∃ old, T.(t_rows) !! op.(Op_ID) = Some (old, expected);
  acquire_alone : ∀ id other revision, T.(t_rows) !! id = Some (other, revision) → id ≠ op.(Op_ID) →
    other.(Op_RunID) = op.(Op_RunID) → is_active other = false;
  acquire_class : class_within op maxRuns maxObservations T;
  acquire_tools : ∀ permit, T.(t_granted) !! permit ≠ Some op.(Op_RunID);
  acquire_verification : consumesVerification op.(Op_Kind) = true → (verification_beside op.(Op_RunID) T < maxVerifications)%Z
}.

Record claim_applies (claim : ReviewVerificationClaim) (maxRuns maxVerifications : Z) T : Prop := {
  claim_new : T.(t_claims) !! claim.(Claim_ID) = None;
  claim_work : (Z.of_nat (size (work_runs T ∖ {[claim.(Claim_RunID)]})) < maxRuns)%Z;
  claim_verification : (verification_load T < maxVerifications)%Z
}.
Definition put_claim (claim : ReviewVerificationClaim) T : Table :=
  MkTable T.(t_rows) (<[claim.(Claim_ID) := claim.(Claim_RunID)]> T.(t_claims)) T.(t_granted).
Definition drop_claim (id : string) T : Table := MkTable T.(t_rows) (delete id T.(t_claims)) T.(t_granted).

(** A transition of a permit grants it under the ceiling, or takes the grant
    away, or changes neither. *)
Definition permit_applies (p : VerificationPermit) (ceiling : Z) T T' : Prop :=
  if p.(Permit_State) ≟ VerificationGranted then
    (verification_load T < ceiling)%Z ∧ T' = MkTable T.(t_rows) T.(t_claims) (<[p.(Permit_ID) := p.(Permit_Parent).(AttemptRef_RunID)]> T.(t_granted))
  else if p.(Permit_State) ≟ VerificationReleased then T' = MkTable T.(t_rows) T.(t_claims) (delete p.(Permit_ID) T.(t_granted))
  else T' = T.
End occupancy.

(** A call that reports success has happened; one that reports an error may
    have; any other has not. *)
Definition attempted {A} (r : result StoreError A) (done : A → Prop) (T T' : Table) (applies : Table → Prop) : Prop :=
  (applies T' ∧ (∀ a, r = Ok a → done a)) ∨ (T' = T ∧ ∀ a, r = Ok a → ¬ done a).

(** What every call means for the table. *)
Definition table_call (c : action) : Table → answer c → Table → Prop :=
  match c with
  | Operations runID => λ T r T', T' = T ∧ ∀ l, r = Ok l → ∀ op, op ∈ l ↔ op.(Op_RunID) = runID ∧ ∃ revision, T.(t_rows) !! op.(Op_ID) = Some (op, revision)
  | AllOperations => λ T r T', T' = T ∧ ∀ l, r = Ok l → ∀ op, op ∈ l ↔ ∃ revision, T.(t_rows) !! op.(Op_ID) = Some (op, revision)
  | ReadOperation id => λ T r T', T' = T ∧ ∀ o, r = Ok o → o = T.(t_rows) !! id
  | OperationByIdempotencyKey runID key => λ T r T', T' = T ∧ ∀ o, r = Ok o →
      match o with
      | Some op => op.(Op_RunID) = runID ∧ op.(Op_IdempotencyKey) = key ∧ ∃ revision, T.(t_rows) !! op.(Op_ID) = Some (op, revision)
      | None => ∀ id op revision, T.(t_rows) !! id = Some (op, revision) → ¬ (op.(Op_RunID) = runID ∧ op.(Op_IdempotencyKey) = key)
      end
  | PutOperation op expected => λ T r T',
      attempted r (λ w, w.2 = true) T T' (λ T', put_applies op expected T ∧ T' = put_row op (expected + 1) T)
  | AcquireOperation op expected maxRuns maxObservations maxVerifications => λ T r T',
      attempted r (λ w, w.2 = true) T T' (λ T', acquire_applies op expected maxRuns maxObservations maxVerifications T
        ∧ T' = put_row op (expected + 1) T)
  | TransitionVerificationPermit p expected ceiling => λ T r T',
      attempted r (λ b, b = true) T T' (permit_applies p ceiling T)
  | ClaimReviewVerificationSlot claim maxRuns maxVerifications => λ T r T',
      attempted r (λ b, b = true) T T' (λ T', claim_applies claim maxRuns maxVerifications T ∧ T' = put_claim claim T)
  | ReleaseReviewVerificationClaim id => λ T r T', attempted r (λ _, True) T T' (λ T', T' = drop_claim id T)
  | _ => λ T _ T', T' = T
  end.

(** The calls the scheduler makes: a row is written under its own run and key. *)
Definition same_identity (old op : RunOperation) : Prop :=
  op.(Op_ID) = old.(Op_ID) ∧ op.(Op_RunID) = old.(Op_RunID) ∧ op.(Op_IdempotencyKey) = old.(Op_IdempotencyKey).
Definition proper_call (c : action) (T : Table) : Prop :=
  match c with
  | PutOperation op expected => expected = 0%Z ∨ ∀ old, T.(t_rows) !! op.(Op_ID) = Some (old, expected) → same_identity old op
  | AcquireOperation op expected _ _ _ => ∀ old, T.(t_rows) !! op.(Op_ID) = Some (old, expected) → same_identity old op
  | _ => True
  end.

(** A store: how a call may change it, what the rest of the runtime may change
    beside it, what table it presents and which contents it can hold. *)
Class OperationStore (St : Type) := {
  serves (c : action) : St → answer c → St → Prop;
  drifts : St → St → Prop;
  present : St → Table;
  store_ok : St → Prop;
  storable : RunOperation → Prop
}.

(** What the scheduler relies on: a call means for the table what it should,
    and nothing else changes the table. *)
Class OperationStoreLaws (St : Type) `{!OperationStore St} := {
  rows_named st id op revision : store_ok st → (present st).(t_rows) !! id = Some (op, revision) → op.(Op_ID) = id;
  serves_table c st r st' : store_ok st → proper_call c (present st) → serves c st r st' →
    store_ok st' ∧ table_call c (present st) r (present st');
  drifts_table st st' : store_ok st → drifts st st' → store_ok st' ∧ present st' = present st;
  rows_storable st id op revision : store_ok st → (present st).(t_rows) !! id = Some (op, revision) → storable op
}.

(** A store that holds no row whose counters are beyond what JSON can say. *)
Definition safe_counters (op : RunOperation) : Prop :=
  safe_range op.(Op_Attempt) ∧ safe_range op.(Op_AttemptIdentity) ∧ safe_range op.(Op_MaxAttempts) ∧ safe_range op.(Op_WallBudget)
  ∧ safe_range op.(Op_ConsumedExecution) ∧ safe_range op.(Op_LastAttemptExecution).
Class SafeStore (St : Type) `{!OperationStore St} := storable_safe op : storable op → safe_counters op.

(* ------------------------------------------------------------------ *)
(** * The durable store *)

Record OperationRow := MkOperationRow {
  OperationRow_RunID : string;
  OperationRow_Kind : string;
  OperationRow_Key : string;
  OperationRow_Created : Z;
  OperationRow_Revision : Z;
  OperationRow_Document : RunOperation
}.

(** The tables the statements read: of a run its disposition, of the journal
    the streams of runs. *)
Record RuntimeDB := MkRuntimeDB {
  run_operations : gmap string OperationRow;
  runs : gmap string string;
  run_events : list EngineeringEvent;
  verification_permits : gmap string (VerificationPermit * Z);
  review_verification_claims : gmap string ReviewVerificationClaim
}.

Section sqlite.
Context `{!Canonicalizer, !URLParser}.
Implicit Types (db : RuntimeDB) (op : RunOperation).

Definition set_operations m db := MkRuntimeDB m db.(runs) db.(run_events) db.(verification_permits) db.(review_verification_claims).
Definition set_permits m db := MkRuntimeDB db.(run_operations) db.(runs) db.(run_events) m db.(review_verification_claims).
Definition set_claims m db := MkRuntimeDB db.(run_operations) db.(runs) db.(run_events) db.(verification_permits) m.
Definition set_events l db := MkRuntimeDB db.(run_operations) db.(runs) l db.(verification_permits) db.(review_verification_claims).

(** [ORDER BY created_unix_nano ASC, id ASC]. *)
Definition row_before : relation (string * OperationRow) := λ x y,
  (x.2.(OperationRow_Created) < y.2.(OperationRow_Created))%Z
  ∨ x.2.(OperationRow_Created) = y.2.(OperationRow_Created) ∧ String.le x.1 y.1.
#[export] Instance row_before_dec : RelDecision row_before.
Proof. intros x y. unfold row_before. apply _. Defined.
Definition select_operations (keep : OperationRow → bool) db : list RunOperation :=
  (λ row, row.2.(OperationRow_Document)) <$> merge_sort row_before (List.filter (λ row, keep row.2) (map_to_list db.(run_operations))).
Definition sqlite_Operations (runID : string) db : list RunOperation := select_operations (λ row, row.(OperationRow_RunID) ≟ runID) db.
Definition sqlite_AllOperations db : list RunOperation := select_operations (λ _, true) db.
Definition sqlite_Operation (id : string) db : option (RunOperation * Z) :=
  (λ row, (row.(OperationRow_Document), row.(OperationRow_Revision))) <$> db.(run_operations) !! id.
Definition sqlite_OperationByIdempotencyKey (runID key : string) db : option RunOperation :=
  head ((λ row, row.2.(OperationRow_Document)) <$>
    List.filter (λ row, (row.2.(OperationRow_RunID) ≟ runID) && (row.2.(OperationRow_Key) ≟ key)) (map_to_list db.(run_operations))).

Definition sqlite_PutOperation op (expected : Z) db : result StoreError (Z * bool) * RuntimeDB :=
  if op.(Op_ID) ≟ "" then (Err OperationIDRequired, db)
  else match encodeOperation op with
  | Err e => (Err (Undigestible e), db)
  | Ok _ =>
      if (expected =? 0)%Z then
        if existsb (λ row, (row.1 ≟ op.(Op_ID)) || ((row.2.(OperationRow_RunID) ≟ op.(Op_RunID)) && (row.2.(OperationRow_Key) ≟ op.(Op_IdempotencyKey))))
             (map_to_list db.(run_operations))
        then (Ok (0%Z, false), db)
        else (Ok (1%Z, true), set_operations (<[op.(Op_ID) := MkOperationRow op.(Op_RunID) op.(Op_Kind) op.(Op_IdempotencyKey)
               (UnixNano op.(Op_CreatedAt)) 1 op]> db.(run_operations)) db)
      else match db.(run_operations) !! op.(Op_ID) with
      | Some row =>
          if (row.(OperationRow_Revision) =? expected)%Z
          then (Ok ((expected + 1)%Z, true), set_operations (<[op.(Op_ID) := MkOperationRow row.(OperationRow_RunID) row.(OperationRow_Kind)
                 row.(OperationRow_Key) row.(OperationRow_Created) (row.(OperationRow_Revision) + 1) op]> db.(run_operations)) db)
          else (Ok (0%Z, false), db)
      | None => (Ok (0%Z, false), db)
      end
  end.

Definition terminalDispositions : list string := ["completed"; "failed"; "cancelled"].
Definition terminal_run db (runID : string) : bool :=
  match db.(runs) !! runID with Some disposition => terminalDispositions ∋? disposition | None => false end.

(** The latest of the two pause events of a run. *)
Definition later_event (a : option EngineeringEvent) (e : EngineeringEvent) : option EngineeringEvent :=
  match a with Some a => if (a.(Event_Sequence) <? e.(Event_Sequence))%Z then Some e else Some a | None => Some e end.
Definition run_paused db (runID : string) : bool :=
  match fold_left later_event (List.filter (λ e, (e.(Event_RunID) ≟ runID) && ([EventRunPaused; EventRunUnpaused] ∋? e.(Event_Type))) db.(run_events)) None with
  | Some e => e.(Event_Type) ≟ EventRunPaused
  | None => false
  end.

(** [COUNT(DISTINCT run_id)]. *)
Definition count_runs (keep : OperationRow → bool) db : Z :=
  Z.of_nat (size (list_to_set (OperationRow_RunID <$> List.filter keep (map_to_list db.(run_operations)).*2) : gset string)).
Definition row_active (row : OperationRow) : bool := is_active row.(OperationRow_Document).
Definition row_observes (row : OperationRow) : bool := observationKindList ∋? row.(OperationRow_Document).(Op_Kind).
Definition permit_held (p : VerificationPermit) : bool := p.(Permit_State) ≟ VerificationGranted.
Definition verificationCount db : Z :=
  (count_runs (λ row, row_active row && (verificationKinds ∋? row.(OperationRow_Document).(Op_Kind))) db
   + Z.of_nat (length (List.filter permit_held (map_to_list db.(verification_permits)).*2.*1))
   + Z.of_nat (size db.(review_verification_claims)))%Z.
Definition reviewClaimRunCount (excludeRunID : string) db : Z :=
  Z.of_nat (size (list_to_set (List.filter (λ run, run ≠? excludeRunID) (Claim_RunID <$> (map_to_list db.(review_verification_claims)).*2)) : gset string)).
Definition classCount (excludeRunID : string) (observing : bool) db : Z :=
  count_runs (λ row, (row.(OperationRow_RunID) ≠? excludeRunID) && row_active row && Bool.eqb (row_observes row) observing) db.
Definition workCount (excludeRunID : string) db : Z := (classCount excludeRunID false db + reviewClaimRunCount excludeRunID db)%Z.

Definition acquire_admits op (expected maxRuns maxObservations maxVerifications : Z) db (row : OperationRow) : bool :=
  let observing := OperationCapacityClass op.(Op_Kind) ≟ CapacityObservation in
  let ceiling := if observing then maxObservations else maxRuns in
  (row.(OperationRow_Revision) =? expected)%Z
  && negb (existsb (λ other, (other.2.(OperationRow_RunID) ≟ op.(Op_RunID)) && (other.1 ≠? op.(Op_ID)) && row_active other.2) (map_to_list db.(run_operations)))
  && negb (terminal_run db op.(Op_RunID))
  && negb (run_paused db row.(OperationRow_RunID))
  && negb (existsb (λ p, permit_held p && (p.(Permit_Parent).(AttemptRef_RunID) ≟ row.(OperationRow_RunID))) (map_to_list db.(verification_permits)).*2.*1)
  && (classCount op.(Op_RunID) observing db + (if observing then 0 else reviewClaimRunCount op.(Op_RunID) db) <? ceiling)%Z
  && (negb (consumesVerification op.(Op_Kind)) || (verificationCount db <? maxVerifications)%Z).

Definition sqlite_AcquireOperation op (expected maxRuns maxObservations maxVerifications : Z) db : result StoreError (Z * bool) * RuntimeDB :=
  if (op.(Op_ID) ≟ "") || (expected <=? 0)%Z then (Err AcquireIncomplete, db)
  else match encodeOperation op, db.(run_operations) !! op.(Op_ID) with
  | Err e, _ => (Err (Undigestible e), db)
  | Ok _, Some row =>
      if acquire_admits op expected maxRuns maxObservations maxVerifications db row
      then (Ok ((expected + 1)%Z, true), set_operations (<[op.(Op_ID) := MkOperationRow row.(OperationRow_RunID) row.(OperationRow_Kind)
             row.(OperationRow_Key) row.(OperationRow_Created) (row.(OperationRow_Revision) + 1) op]> db.(run_operations)) db)
      else (Ok (0%Z, false), db)
  | Ok _, None => (Ok (0%Z, false), db)
  end.

(** ** Reviews *)

Definition sqlite_ClaimReviewVerificationSlot (claim : ReviewVerificationClaim) (maxRuns maxVerifications : Z) db : result StoreError bool * RuntimeDB :=
  match claim_validate claim, encode_with (claim_value claim) [claim.(Claim_RequestedAt); claim.(Claim_ExpiresAt)] with
  | Err e, _ => (Err (ClaimInvalid e), db)
  | Ok _, encoded =>
      if (maxRuns <? 1)%Z || (maxVerifications <? 1)%Z then (Err CeilingBelowOne, db)
      else match encoded with
      | Err e => (Err (Undigestible e), db)
      | Ok _ =>
          if (verificationCount db <? maxVerifications)%Z && (workCount claim.(Claim_RunID) db <? maxRuns)%Z then
            match db.(review_verification_claims) !! claim.(Claim_ID) with
            | Some _ => (Err IOFailed, db)
            | None => (Ok true, set_claims (<[claim.(Claim_ID) := claim]> db.(review_verification_claims)) db)
            end
          else (Ok false, db)
      end
  end.
Definition sqlite_ReleaseReviewVerificationClaim (id : string) db : result StoreError () * RuntimeDB :=
  (Ok (), set_claims (delete id db.(review_verification_claims)) db).

(** ** Permits *)

Definition read_permit (id : string) (p : VerificationPermit) : result StoreError () :=
  wrap PermitInvalid (permit_validate p) ;? refuse_if (p.(Permit_ID) ≠? id) IOFailed.
Definition sqlite_VerificationPermits db : result StoreError (list VerificationPermit) :=
  let rows := sort_by fst (List.filter (λ row, row.2.1.(Permit_State) ≠? VerificationReleased) (map_to_list db.(verification_permits))) in
  check_all (λ row, read_permit row.1 row.2.1) rows ;? Ok ((λ row, row.2.1) <$> rows).
Definition sqlite_VerificationPermit (id : string) db : result StoreError (option (VerificationPermit * Z)) :=
  match db.(verification_permits) !! id with
  | None => Ok None
  | Some row => read_permit id row.1 ;? Ok (Some row)
  end.

(** [verificationParentSQL]. *)
Definition parent_running (p : VerificationPermit) db : bool :=
  match db.(run_operations) !! p.(Permit_Parent).(AttemptRef_OperationID) with
  | None => false
  | Some row =>
      let op := row.(OperationRow_Document) in
      (row.(OperationRow_RunID) ≟ p.(Permit_Parent).(AttemptRef_RunID)) && (op.(Op_State) ≟ Running)
      && (lease_owner op ≟ Some p.(Permit_ControllerOwner)) && (op.(Op_AttemptIdentity) =? p.(Permit_Parent).(AttemptRef_Attempt))%Z
      && negb op.(Op_CancelRequested)
  end && negb (terminal_run db p.(Permit_Parent).(AttemptRef_RunID)).

Definition permit_update_matches (p : VerificationPermit) (expected : Z) (row : VerificationPermit * Z) : bool :=
  (row.2 =? expected)%Z && (row.1.(Permit_ToolOwner) ≟ p.(Permit_ToolOwner)) && (row.1.(Permit_ControllerOwner) ≟ p.(Permit_ControllerOwner))
  && (row.1.(Permit_Parent) ≟ p.(Permit_Parent)) && (row.1.(Permit_ToolLockDir) ≟ p.(Permit_ToolLockDir)) && (row.1.(Permit_Sandbox) ≟ p.(Permit_Sandbox)).

(** The statement of a transition, [None] when it changes no row. *)
Definition permit_mutation (p : VerificationPermit) (expected ceiling : Z) db : option RuntimeDB :=
  let allowed := if p.(Permit_State) ≟ VerificationReleased then true else parent_running p db in
  if (expected =? 0)%Z then
    if allowed && bool_decide (db.(verification_permits) !! p.(Permit_ID) = None)
    then Some (set_permits (<[p.(Permit_ID) := (p, 1%Z)]> db.(verification_permits)) db) else None
  else
    row ← db.(verification_permits) !! p.(Permit_ID);
    let granting := p.(Permit_State) ≟ VerificationGranted in
    if permit_update_matches p expected row && allowed
       && (negb granting || ((row.1.(Permit_State) ≟ VerificationWaiting) && (verificationCount db <? ceiling)%Z))
    then Some (set_permits (<[p.(Permit_ID) := (p, (expected + 1)%Z)]> db.(verification_permits)) db) else None.

Definition permit_event (p : VerificationPermit) : EngineeringEvent :=
  MkEvent SchemaVersion (p.(Permit_ID) +:+ "/" +:+ p.(Permit_State)) p.(Permit_Parent).(AttemptRef_RunID) "" 0 EventVerificationPermitChanged
    (permit_time p) p.(Permit_Parent).(AttemptRef_OperationID) "" "" (Some (marshal (permit_value p))) [] "" "" "".
(** An event of the journal is one that was offered to it, with its links and
    its digests. *)
Definition sealed_from (offered e : EngineeringEvent) : Prop :=
  ∃ sequence id hash before after self, e = with_hash (with_after (linked offered sequence id hash before) after) self.

Definition check_transition (p : VerificationPermit) (expected ceiling : Z) : result StoreError () :=
  wrap PermitInvalid (permit_validate p) ;?
  refuse_if ((expected <? 0)%Z || negb (Bool.eqb (expected =? 0)%Z (p.(Permit_State) ≟ VerificationWaiting)) || (ceiling <? 1)%Z) TransitionInvalid ;?
  let? _ := wrap Undigestible (encode_with (permit_value p) (permit_times p)) in Ok tt.

(** The transition and its observation in the journal are one transaction.
    Whether the journal takes the event is for its own checks to say; an event
    that is there already loses the race. *)
Inductive transitions (p : VerificationPermit) (expected ceiling : Z) db : result StoreError bool → RuntimeDB → Prop :=
  | transition_invalid e : check_transition p expected ceiling = Err e → transitions p expected ceiling db (Err e) db
  | transition_refused e : check_transition p expected ceiling = Ok tt → transitions p expected ceiling db (Err e) db
  | transition_lost : check_transition p expected ceiling = Ok tt →
      permit_mutation p expected ceiling db = None ∨ (∃ e, e ∈ db.(run_events) ∧ e.(Event_ID) = (permit_event p).(Event_ID)) →
      transitions p expected ceiling db (Ok false) db
  | transition_made db' e r : check_transition p expected ceiling = Ok tt → permit_mutation p expected ceiling db = Some db' →
      sealed_from (permit_event p) e → r = Ok true ∨ r = Err IOFailed →
      transitions p expected ceiling db r (set_events (db.(run_events) ++ [e]) db').

(** ** The store *)

(** A statement runs, or fails without its effect, or fails to report it. *)
Definition executed {A} (outcome : result StoreError A * RuntimeDB) db (r : result StoreError A) db' : Prop :=
  (r = outcome.1 ∧ db' = outcome.2) ∨ (r = Err IOFailed ∧ (db' = db ∨ db' = outcome.2)).
Definition queried {A} (outcome : result StoreError A) db (r : result StoreError A) db' : Prop := (r = outcome ∨ r = Err IOFailed) ∧ db' = db.
Definition run_stream (runID : string) db : list EngineeringEvent := List.filter (λ e, e.(Event_RunID) ≟ runID) db.(run_events).

Definition sqlite_serves (c : action) : RuntimeDB → answer c → RuntimeDB → Prop :=
  match c with
  | Operations runID => λ db, queried (Ok (sqlite_Operations runID db)) db
  | AllOperations => λ db, queried (Ok (sqlite_AllOperations db)) db
  | ReadOperation id => λ db, queried (Ok (sqlite_Operation id db)) db
  | OperationByIdempotencyKey runID key => λ db, queried (Ok (sqlite_OperationByIdempotencyKey runID key db)) db
  | PutOperation op expected => λ db, executed (sqlite_PutOperation op expected db) db
  | AcquireOperation op expected maxRuns maxObservations maxVerifications => λ db,
      executed (sqlite_AcquireOperation op expected maxRuns maxObservations maxVerifications db) db
  | VerificationPermits => λ db, queried (sqlite_VerificationPermits db) db
  | ReadPermit id => λ db, queried (sqlite_VerificationPermit id db) db
  | TransitionVerificationPermit p expected ceiling => λ db, transitions p expected ceiling db
  | ReadEvents runID => λ db, queried (Ok (run_stream runID db)) db
  | ReviewVerificationClaims => λ db, queried (Ok (map_to_list db.(review_verification_claims)).*2) db
  | ClaimReviewVerificationSlot claim maxRuns maxVerifications => λ db,
      executed (sqlite_ClaimReviewVerificationSlot claim maxRuns maxVerifications db) db
  | ReleaseReviewVerificationClaim id => λ db, executed (sqlite_ReleaseReviewVerificationClaim id db) db
  | _ => λ db _ db', db' = db
  end.

(** Beside the scheduler the runtime writes runs and appends to the journal. *)
Definition sqlite_drifts db db' : Prop := ∃ runs' more, db' = MkRuntimeDB db.(run_operations) runs' (db.(run_events) ++ more)
  db.(verification_permits) db.(review_verification_claims).

Definition sqlite_present db : Table :=
  MkTable ((λ row, (row.(OperationRow_Document), row.(OperationRow_Revision))) <$> db.(run_operations))
    (Claim_RunID <$> db.(review_verification_claims))
    (omap (λ row, if permit_held row.1 then Some row.1.(Permit_Parent).(AttemptRef_RunID) else None) db.(verification_permits)).

(** The columns of a row repeat its document, and it is numbered from one. *)
Record sqlite_ok db : Prop := {
  row_columns id row : db.(run_operations) !! id = Some row → row.(OperationRow_Document).(Op_ID) = id
    ∧ row.(OperationRow_Document).(Op_RunID) = row.(OperationRow_RunID) ∧ row.(OperationRow_Document).(Op_IdempotencyKey) = row.(OperationRow_Key);
  row_encoded id row : db.(run_operations) !! id = Some row → is_ok (encodeOperation row.(OperationRow_Document)) = true;
  permit_named id p revision : db.(verification_permits) !! id = Some (p, revision) → p.(Permit_ID) = id;
  row_addressed id row : db.(run_operations) !! id = Some row → id ≠ "" ∧ (0 < row.(OperationRow_Revision))%Z
}.

#[export] Instance sqlite_store : OperationStore RuntimeDB := {|
  serves := sqlite_serves; drifts := sqlite_drifts; present := sqlite_present; store_ok := sqlite_ok;
  storable op := is_ok (encodeOperation op) = true |}.
End sqlite.

(* ------------------------------------------------------------------ *)
(** * The in-process store *)

Record MemoryOperationStore := MkMemory {
  operations : gmap string RunOperation;
  revisions : gmap string Z
}.

Section memory.
Implicit Types (m : MemoryOperationStore) (op : RunOperation).

Definition put_memory op (revision : Z) m : MemoryOperationStore :=
  MkMemory (<[op.(Op_ID) := op]> m.(operations)) (<[op.(Op_ID) := revision]> m.(revisions)).
Definition memory_PutOperation op (expected : Z) m : (Z * bool) * MemoryOperationStore :=
  let revision := default 0%Z (m.(revisions) !! op.(Op_ID)) in
  let exists_ := bool_decide (is_Some (m.(revisions) !! op.(Op_ID))) in
  if (if (expected =? 0)%Z
      then exists_ || existsb (λ prior, (prior.(Op_RunID) ≟ op.(Op_RunID)) && (prior.(Op_IdempotencyKey) ≟ op.(Op_IdempotencyKey))) (map_to_list m.(operations)).*2
      else negb exists_ || negb (revision =? expected)%Z)
  then ((0%Z, false), m) else (((revision + 1)%Z, true), put_memory op (revision + 1) m).

Definition memory_AcquireOperation op (expected maxRuns maxObservations maxVerifications : Z) m : result StoreError (Z * bool) * MemoryOperationStore :=
  if (op.(Op_ID) ≟ "") || (expected <=? 0)%Z then (Err AcquireIncomplete, m)
  else if m.(revisions) !! op.(Op_ID) ≠? Some expected then (Ok (0%Z, false), m)
  else
    let class := OperationCapacityClass op.(Op_Kind) in
    let ceiling := if class ≟ CapacityObservation then maxObservations else maxRuns in
    let others := List.filter (λ o, (o.2.(Op_RunID) ≠? op.(Op_RunID)) && is_active o.2) (map_to_list m.(operations)) in
    let driven : gset string := list_to_set (Op_RunID <$> List.filter (λ o, OperationCapacityClass o.(Op_Kind) ≟ class) others.*2) in
    let verifying : gset string := list_to_set (Op_RunID <$> List.filter holdsVerificationSlot others.*2) in
    if existsb (λ o, (o.2.(Op_RunID) ≟ op.(Op_RunID)) && (o.1 ≠? op.(Op_ID)) && is_active o.2) (map_to_list m.(operations)) then (Ok (0%Z, false), m)
    else if (ceiling <=? Z.of_nat (size driven))%Z || (consumesVerification op.(Op_Kind) && (maxVerifications <=? Z.of_nat (size verifying))%Z)
    then (Ok (0%Z, false), m)
    else (Ok ((expected + 1)%Z, true), put_memory op (expected + 1) m).

Definition memory_list (keep : RunOperation → bool) m : list RunOperation := sortOperations (List.filter keep (map_to_list m.(operations)).*2).
Definition memory_Operation (id : string) m : option (RunOperation * Z) :=
  op ← m.(operations) !! id; Some (op, default 0%Z (m.(revisions) !! id)).
Definition memory_OperationByIdempotencyKey (runID key : string) m : option RunOperation :=
  head (List.filter (λ op, (op.(Op_RunID) ≟ runID) && (op.(Op_IdempotencyKey) ≟ key)) (map_to_list m.(operations)).*2).

(** It holds operations and nothing else. *)
Definition memory_serves (c : action) : MemoryOperationStore → answer c → MemoryOperationStore → Prop :=
  match c with
  | Operations runID => λ m r m', r = Ok (memory_list (λ op, op.(Op_RunID) ≟ runID) m) ∧ m' = m
  | AllOperations => λ m r m', r = Ok (memory_list (λ _, true) m) ∧ m' = m
  | ReadOperation id => λ m r m', r = Ok (memory_Operation id m) ∧ m' = m
  | OperationByIdempotencyKey runID key => λ m r m', r = Ok (memory_OperationByIdempotencyKey runID key m) ∧ m' = m
  | PutOperation op expected => λ m r m', let outcome := memory_PutOperation op expected m in r = Ok outcome.1 ∧ m' = outcome.2
  | AcquireOperation op expected maxRuns maxObservations maxVerifications => λ m r m',
      let outcome := memory_AcquireOperation op expected maxRuns maxObservations maxVerifications m in r = outcome.1 ∧ m' = outcome.2
  | TransitionVerificationPermit _ _ _ | ClaimReviewVerificationSlot _ _ _ | ReleaseReviewVerificationClaim _ => λ _ _ _, False
  | _ => λ m _ m', m' = m
  end.
Definition memory_present m : Table :=
  MkTable (map_imap (λ id op, Some (op, default 0%Z (m.(revisions) !! id))) m.(operations)) ∅ ∅.
Record memory_ok m : Prop := {
  memory_named id op : m.(operations) !! id = Some op → op.(Op_ID) = id;
  memory_domain id : is_Some (m.(revisions) !! id) ↔ is_Some (m.(operations) !! id)
}.

#[export] Instance memory_store : OperationStore MemoryOperationStore := {|
  serves := memory_serves; drifts := λ m m', m' = m; present := memory_present; store_ok := memory_ok; storable _ := True |}.
End memory.
