(* ===== verification/OperationStoreFacts.v ===== *)
(** Both stores are stores the scheduler can rely on. *)

From S2P Require Import Prelude GoStrings Json Domain Canonical GoTime Plan Events Operation Permit Scheduler OperationStore.
From stdpp Require Import options.

(** The branch of a write that is refused. *)
Ltac refused := split; [done|right; split; [reflexivity|intros ? [=]; subst; discriminate]].

(** ** Sets of runs *)

Lemma elem_of_filter_true {A} (f : A → bool) (l : list A) x : x ∈ List.filter f l ↔ x ∈ l ∧ f x = true.
Proof. rewrite !list_elem_of_In. apply filter_In. Qed.

#[global] Instance filter_Permutation_proper {A} (f : A → bool) : Proper ((≡ₚ) ==> (≡ₚ)) (List.filter f).
Proof.
  induction 1 as [|x l1 l2 _ IH|x y l|l1 l2 l3 _ IH1 _ IH2]; simpl; [done|destruct (f x); by rewrite IH| |by rewrite IH1].
  destruct (f x), (f y); by try constructor.
Qed.

Lemma elem_of_values {A B} (m : gmap string (A * B)) x : x ∈ (map_to_list m).*2.*1 ↔ ∃ id y, m !! id = Some (x, y).
Proof.
  rewrite list_elem_of_fmap. setoid_rewrite list_elem_of_fmap. split.
  - intros (? & -> & [id [y z]] & -> & Hm%elem_of_map_to_list). by exists id, z.
  - intros (id & y & Hm). exists (x, y). split; [done|]. exists (id, (x, y)). by rewrite elem_of_map_to_list.
Qed.

Lemma elem_of_map_values {A} (m : gmap string A) x : x ∈ (map_to_list m).*2 ↔ ∃ id, m !! id = Some x.
Proof.
  rewrite list_elem_of_fmap. split.
  - intros ([id y] & -> & Hm%elem_of_map_to_list). by exists id.
  - intros (id & Hm). exists (id, x). by rewrite elem_of_map_to_list.
Qed.

Lemma elem_of_runs_where keep T run :
  run ∈ runs_where keep T ↔ ∃ id op revision, T.(t_rows) !! id = Some (op, revision) ∧ keep op = true ∧ op.(Op_RunID) = run.
Proof.
  unfold runs_where. rewrite elem_of_list_to_set, list_elem_of_fmap. split.
  - intros (op & -> & [(id & revision & Hop)%elem_of_values Hk]%elem_of_filter_true). by exists id, op, revision.
  - intros (id & op & revision & Hop & Hk & <-). exists op. split; [done|]. apply elem_of_filter_true. split; [|done].
    apply elem_of_values. by exists id, revision.
Qed.

Lemma elem_of_claim_runs T run : run ∈ claim_runs T ↔ ∃ id, T.(t_claims) !! id = Some run.
Proof. unfold claim_runs. by rewrite elem_of_list_to_set, elem_of_map_values. Qed.

Lemma class_cases kind : OperationCapacityClass kind = CapacityWork ∨ OperationCapacityClass kind = CapacityObservation.
Proof.
  unfold OperationCapacityClass. destruct (_ !! kind) as [class|] eqn:Hc; [|by left]. apply elem_of_list_to_map_2 in Hc. simpl.
  unfold operationCapacityClasses in Hc. rewrite !elem_of_cons in Hc.
  destruct_or! Hc; try (injection Hc as -> ->; auto). by apply not_elem_of_nil in Hc.
Qed.

Lemma observation_kind kind : (observationKindList ∋? kind) = (OperationCapacityClass kind ≟ CapacityObservation).
Proof.
  assert (observationKindList = [OpGitHubObserve; OpSourceObserve]) as -> by (vm_compute; reflexivity).
  apply eq_true_iff_eq. rewrite !bool_decide_eq_true, !elem_of_cons. split.
  - intros [->|[->|Hk%not_elem_of_nil]]; [vm_compute; reflexivity..|done].
  - unfold OperationCapacityClass. destruct (_ !! kind) as [class|] eqn:Hc; [|done]. apply elem_of_list_to_map_2 in Hc. simpl. intros ->.
    unfold operationCapacityClasses in Hc. rewrite !elem_of_cons in Hc.
    destruct_or! Hc; first [discriminate Hc|by apply not_elem_of_nil in Hc|injection Hc as ->; auto].
Qed.

#[local] Opaque observationKindList.

Lemma size_union_minus (X Y : gset string) run : size ((X ∪ Y) ∖ {[run]}) ≤ size (X ∖ {[run]}) + size (Y ∖ {[run]}).
Proof.
  rewrite difference_union_distr_l_L, size_union_alt. apply Nat.add_le_mono_l, subseteq_size. set_solver.
Qed.

Lemma beside_load run T : (verification_beside run T <= verification_load T)%Z.
Proof.
  unfold verification_beside, verification_load.
  assert (size (runs_where holdsVerificationSlot T ∖ {[run]}) ≤ size (runs_where holdsVerificationSlot T)) by (apply subseteq_size; set_solver).
  lia.
Qed.

(* ------------------------------------------------------------------ *)
(** * The durable store *)

Section sqlite.
Context `{!Canonicalizer, !URLParser}.
Implicit Types (db : RuntimeDB) (op : RunOperation).

Lemma present_row db id op revision : (sqlite_present db).(t_rows) !! id = Some (op, revision) ↔
  ∃ row, db.(run_operations) !! id = Some row ∧ row.(OperationRow_Document) = op ∧ row.(OperationRow_Revision) = revision.
Proof.
  simpl. rewrite lookup_fmap. destruct (db.(run_operations) !! id) as [row|]; simpl; [|naive_solver].
  split; [intros [= <- <-]; by exists row|]. by intros (? & [= ->] & <- & <-).
Qed.

Lemma elem_of_select keep db op : op ∈ select_operations keep db ↔
  ∃ id row, db.(run_operations) !! id = Some row ∧ keep row = true ∧ row.(OperationRow_Document) = op.
Proof.
  unfold select_operations. rewrite list_elem_of_fmap. setoid_rewrite merge_sort_Permutation. setoid_rewrite elem_of_filter_true. split.
  - intros ([id row] & -> & Hm%elem_of_map_to_list & Hk). by exists id, row.
  - intros (id & row & Hm & Hk & <-). exists (id, row). by rewrite elem_of_map_to_list.
Qed.

(** The rows counted by a statement, as runs of the table. *)
Lemma count_runs_present (keep : OperationRow → bool) (held : RunOperation → bool) db (out : gset string) : sqlite_ok db →
  (∀ row, row.(OperationRow_Document).(Op_RunID) = row.(OperationRow_RunID) →
     keep row = held row.(OperationRow_Document) && negb (bool_decide (row.(OperationRow_RunID) ∈ out))) →
  count_runs keep db = Z.of_nat (size (runs_where held (sqlite_present db) ∖ out)).
Proof.
  intros Hok Hkeep. unfold count_runs. do 2 f_equal. apply set_eq. intros run.
  rewrite elem_of_list_to_set, list_elem_of_fmap, elem_of_difference, elem_of_runs_where. split.
  - intros (row & -> & [(id & Hrow)%elem_of_map_values Hk]%elem_of_filter_true).
    destruct (row_columns _ Hok _ _ Hrow) as (_ & Hrun & _). rewrite Hkeep in Hk by done. reflect_bools. destruct Hk as [Hk Hout].
    split; [|done]. exists id, row.(OperationRow_Document), row.(OperationRow_Revision). split; [|done]. apply present_row. by exists row.
  - intros ((id & op & revision & (row & Hrow & <- & <-)%present_row & Hk & <-) & Hout).
    destruct (row_columns _ Hok _ _ Hrow) as (_ & Hrun & _). exists row. split; [done|]. apply elem_of_filter_true. split; [apply elem_of_map_values; by exists id|].
    rewrite Hkeep by done. rewrite Hk. simpl. rewrite <- Hrun. by apply negb_true_iff, bool_decide_eq_false.
Qed.

Lemma classCount_present run observing db : sqlite_ok db →
  classCount run observing db = Z.of_nat (size (runs_where (class_holder (if observing then CapacityObservation else CapacityWork)) (sqlite_present db) ∖ {[run]})).
Proof.
  intros Hok. apply count_runs_present; [done|]. intros row Hrun. unfold class_holder, row_active, row_observes.
  rewrite (observation_kind row.(OperationRow_Document).(Op_Kind)).
  rewrite (bool_decide_ext (row.(OperationRow_RunID) ∈ ({[run]} : gset string)) _ (elem_of_singleton _ _)).
  destruct (is_active _); cbn [andb]; [|rewrite andb_false_r; reflexivity]. rewrite andb_true_r.
  destruct (class_cases row.(OperationRow_Document).(Op_Kind)) as [-> | ->]; destruct observing, (bool_decide _); reflexivity.
Qed.

Lemma reviewClaimRunCount_present run db :
  reviewClaimRunCount run db = Z.of_nat (size (claim_runs (sqlite_present db) ∖ {[run]})).
Proof.
  unfold reviewClaimRunCount. do 2 f_equal. apply set_eq. intros r.
  rewrite elem_of_list_to_set, elem_of_filter_true, elem_of_difference, elem_of_claim_runs, list_elem_of_fmap. simpl. setoid_rewrite lookup_fmap_Some. split.
  - intros ((claim & -> & (id & Hid)%elem_of_map_values) & Hr). reflect_bools. split; [by exists id, claim|set_solver].
  - intros ((id & claim & <- & Hid) & Hr). split; [exists claim; split; [done|]; apply elem_of_map_values; by exists id|].
    reflect_bools. set_solver.
Qed.

Lemma permits_present db : sqlite_ok db →
  length (List.filter permit_held (map_to_list db.(verification_permits)).*2.*1) = size (sqlite_present db).(t_granted).
Proof.
  intros _. simpl. generalize db.(verification_permits). clear. intros m. induction m as [|id [p revision] m Hid IH] using map_ind.
  - by rewrite map_to_list_empty, omap_empty, map_size_empty.
  - rewrite map_to_list_insert, omap_insert by done. csimpl. destruct (permit_held p); csimpl.
    + rewrite map_size_insert_None; [by rewrite IH|]. by rewrite lookup_omap, Hid.
    + rewrite IH. f_equal. rewrite delete_id; [done|]. by rewrite lookup_omap, Hid.
Qed.

Lemma verificationCount_present db : sqlite_ok db → verificationCount db = verification_load (sqlite_present db).
Proof.
  intros Hok. unfold verificationCount, verification_load. rewrite (count_runs_present _ holdsVerificationSlot _ ∅); [|done|].
  - rewrite difference_empty_L, permits_present by done. simpl. rewrite map_size_fmap. lia.
  - intros row _. unfold holdsVerificationSlot, row_active, consumesVerification.
    rewrite (bool_decide_eq_false_2 _ (not_elem_of_empty _)), andb_true_r. reflexivity.
Qed.

(** ** Writes *)

Lemma present_put row op db : let db' := set_operations (<[op.(Op_ID) := row]> db.(run_operations)) db in
  row.(OperationRow_Document) = op → sqlite_present db' = put_row op row.(OperationRow_Revision) (sqlite_present db).
Proof. intros db' <-. unfold put_row, sqlite_present. simpl. by rewrite fmap_insert. Qed.

Lemma existsb_false {A} (f : A → bool) l : existsb f l = false ↔ ∀ x, x ∈ l → f x = false.
Proof.
  rewrite <- not_true_iff_false, existsb_elem. split.
  - intros Hn x Hx. apply not_true_iff_false. intros Hf. apply Hn. by exists x.
  - intros Hall (x & Hx & Hf). rewrite (Hall _ Hx) in Hf. done.
Qed.

(** What a statement does holds of it as a call, whether or not its answer
    arrives. *)
Lemma executed_attempted {A} (outcome : result StoreError A * RuntimeDB) (done_ : A → Prop) (applies : Table → Prop) db r db' :
  sqlite_ok db → sqlite_ok outcome.2 →
  (applies (sqlite_present outcome.2) ∧ (∀ a, outcome.1 = Ok a → done_ a)) ∨ (outcome.2 = db ∧ (∀ a, outcome.1 = Ok a → ¬ done_ a)) →
  executed outcome db r db' → sqlite_ok db' ∧ attempted r done_ (sqlite_present db) (sqlite_present db') applies.
Proof.
  intros Hok Hok' Hout [[-> ->]|[-> [-> | ->]]]; (split; [done|]).
  - destruct Hout as [[Ha Hd]|[-> Hd]]; [by left|by right].
  - right. split; [done|]. intros a [=].
  - destruct Hout as [[Ha Hd]|[-> Hd]]; [left|right]; (split; [done|]); intros a [=].
Qed.

Lemma update_ok row op db : sqlite_ok db → db.(run_operations) !! op.(Op_ID) = Some row → same_identity row.(OperationRow_Document) op →
  is_ok (encodeOperation op) = true →
  sqlite_ok (set_operations (<[op.(Op_ID) := MkOperationRow row.(OperationRow_RunID) row.(OperationRow_Kind) row.(OperationRow_Key)
    row.(OperationRow_Created) (row.(OperationRow_Revision) + 1) op]> db.(run_operations)) db).
Proof.
  intros Hok Hrow (_ & Hrun & Hkey) Henc. split; [intros id row' Hl|intros id row' Hl|apply Hok|intros id row' Hl];
    simpl in Hl; (apply lookup_insert_Some in Hl as [[<- <-]|[_ Hl]]; [|by eapply Hok]); [|done|].
  - simpl. destruct (row_columns _ Hok _ _ Hrow) as (_ & <- & <-). done.
  - destruct (row_addressed _ Hok _ _ Hrow). simpl. split; [done|lia].
Qed.

Lemma put_served op expected db : sqlite_ok db → proper_call (PutOperation op expected) (sqlite_present db) →
  let outcome := sqlite_PutOperation op expected db in
  sqlite_ok outcome.2 ∧
  ((put_applies op expected (sqlite_present db) ∧ sqlite_present outcome.2 = put_row op (expected + 1) (sqlite_present db)
     ∧ (∀ a, outcome.1 = Ok a → a.2 = true))
   ∨ (outcome.2 = db ∧ (∀ a, outcome.1 = Ok a → ¬ a.2 = true))).
Proof.
  intros Hok Hproper. unfold sqlite_PutOperation. simpl.
  destruct (bool_decide (op.(Op_ID) = "")) eqn:Hid; [refused|]. apply bool_decide_eq_false in Hid. destruct (encodeOperation op) as [text|] eqn:Henc; [|refused].
  assert (is_ok (encodeOperation op) = true) as Hencoded by (by rewrite Henc).
  unfold put_applies. destruct (Z.eqb_spec expected 0) as [->|Hne].
  - destruct (existsb _ _) eqn:Hex; [refused|]. rewrite existsb_false in Hex. simpl.
    assert (∀ id row, db.(run_operations) !! id = Some row → id ≠ op.(Op_ID) ∧ ¬ (row.(OperationRow_RunID) = op.(Op_RunID) ∧ row.(OperationRow_Key) = op.(Op_IdempotencyKey))) as Hfree.
    { intros id row Hrow. specialize (Hex (id, row)). rewrite elem_of_map_to_list in Hex. specialize (Hex Hrow). simpl in Hex. reflect_bools.
      naive_solver. }
    assert (db.(run_operations) !! op.(Op_ID) = None) as Hnone.
    { destruct (_ !! _) as [row|] eqn:Hl; [|done]. by destruct (Hfree _ _ Hl). }
    split; [|left; split_and!].
    + split; [intros id row Hl|intros id row Hl|apply Hok|intros id row Hl]; simpl in Hl;
        (apply lookup_insert_Some in Hl as [[<- <-]|[_ Hl]]; [done|by eapply Hok]).
    + simpl. by rewrite lookup_fmap, Hnone.
    + intros id prior revision (row & Hrow & <- & _)%present_row [Hr Hk]. destruct (row_columns _ Hok _ _ Hrow) as (_ & Hr' & Hk').
      destruct (Hfree _ _ Hrow) as [_ Hf]. apply Hf. by rewrite <- Hr', <- Hk'.
    + apply (present_put (MkOperationRow _ _ _ _ 1 op)). done.
    + naive_solver.
  - destruct (db.(run_operations) !! op.(Op_ID)) as [row|] eqn:Hrow; [|refused].
    destruct (Z.eqb_spec row.(OperationRow_Revision) expected) as [Heq|]; [|refused]. simpl.
    assert ((sqlite_present db).(t_rows) !! op.(Op_ID) = Some (row.(OperationRow_Document), expected)) as Hp by (apply present_row; by exists row).
    assert (same_identity row.(OperationRow_Document) op) as Hsame by (destruct Hproper as [?|Hproper]; [done|by apply Hproper]).
    split; [by apply update_ok|left; split_and!].
    + by exists row.(OperationRow_Document).
    + rewrite <- Heq. apply (present_put (MkOperationRow _ _ _ _ (row.(OperationRow_Revision) + 1) op)). done.
    + naive_solver.
Qed.

Lemma present_granted db id run : (sqlite_present db).(t_granted) !! id = Some run ↔
  ∃ p revision, db.(verification_permits) !! id = Some (p, revision) ∧ permit_held p = true ∧ p.(Permit_Parent).(AttemptRef_RunID) = run.
Proof.
  simpl. rewrite lookup_omap_Some. split.
  - intros ([p revision] & Hp & Hl). simpl in Hp. destruct (permit_held p) eqn:Hh; [|done]. injection Hp as <-. by exists p, revision.
  - intros (p & revision & Hl & Hh & <-). exists (p, revision). split; [|done]. simpl. by rewrite Hh.
Qed.

Lemma class_within_present op maxRuns maxObservations db : sqlite_ok db →
  let observing := OperationCapacityClass op.(Op_Kind) ≟ CapacityObservation in
  (classCount op.(Op_RunID) observing db + (if observing then 0 else reviewClaimRunCount op.(Op_RunID) db)
     < (if observing then maxObservations else maxRuns))%Z →
  class_within op maxRuns maxObservations (sqlite_present db).
Proof.
  intros Hok observing. unfold class_within. fold observing. rewrite classCount_present by done. destruct observing.
  - unfold observation_runs. lia.
  - rewrite reviewClaimRunCount_present. unfold work_runs.
    pose proof (size_union_minus (runs_where (class_holder CapacityWork) (sqlite_present db)) (claim_runs (sqlite_present db)) op.(Op_RunID)). lia.
Qed.

Lemma acquire_admitted op expected maxRuns maxObservations maxVerifications row db : sqlite_ok db →
  db.(run_operations) !! op.(Op_ID) = Some row → op.(Op_RunID) = row.(OperationRow_RunID) →
  acquire_admits op expected maxRuns maxObservations maxVerifications db row = true →
  acquire_applies op expected maxRuns maxObservations maxVerifications (sqlite_present db) ∧ row.(OperationRow_Revision) = expected.
Proof.
  intros Hok Hrow Hrun Hadm. unfold acquire_admits in Hadm. rewrite !andb_true_iff in Hadm.
  destruct Hadm as ((((((Hrev%Z.eqb_eq & Halone%negb_true_iff) & _) & _) & Htools%negb_true_iff) & Hclass%Z.ltb_lt) & Hver).
  rewrite existsb_false in Halone. rewrite existsb_false in Htools. split; [|done]. split.
  - exists row.(OperationRow_Document). apply present_row. by exists row.
  - intros id other revision (row' & Hrow' & <- & _)%present_row Hid Hr. destruct (row_columns _ Hok _ _ Hrow') as (_ & Hr' & _).
    specialize (Halone (id, row')). rewrite elem_of_map_to_list in Halone. specialize (Halone Hrow'). simpl in Halone.
    rewrite (bool_decide_eq_true_2 (row'.(OperationRow_RunID) = op.(Op_RunID))), bool_decide_eq_false_2 in Halone by congruence. done.
  - by apply class_within_present.
  - intros id (p & revision & Hl & Hheld & Hp)%present_granted.
    assert (p ∈ (map_to_list db.(verification_permits)).*2.*1) as Hin by (apply elem_of_values; by exists id, revision).
    specialize (Htools _ Hin). rewrite Hheld, bool_decide_eq_true_2 in Htools by congruence. done.
  - intros Hc. rewrite Hc in Hver. simpl in Hver. apply Z.ltb_lt in Hver. rewrite verificationCount_present in Hver by done.
    pose proof (beside_load op.(Op_RunID) (sqlite_present db)). lia.
Qed.

Lemma acquire_served op expected maxRuns maxObservations maxVerifications db : sqlite_ok db →
  proper_call (AcquireOperation op expected maxRuns maxObservations maxVerifications) (sqlite_present db) →
  let outcome := sqlite_AcquireOperation op expected maxRuns maxObservations maxVerifications db in
  sqlite_ok outcome.2 ∧
  ((acquire_applies op expected maxRuns maxObservations maxVerifications (sqlite_present db)
     ∧ sqlite_present outcome.2 = put_row op (expected + 1) (sqlite_present db) ∧ (∀ a, outcome.1 = Ok a → a.2 = true))
   ∨ (outcome.2 = db ∧ (∀ a, outcome.1 = Ok a → ¬ a.2 = true))).
Proof.
  intros Hok Hproper. unfold sqlite_AcquireOperation. simpl.
  destruct (_ || _); [refused|]. destruct (encodeOperation op) as [text|] eqn:Henc; [|refused].
  assert (is_ok (encodeOperation op) = true) as Hencoded by (by rewrite Henc).
  destruct (db.(run_operations) !! op.(Op_ID)) as [row|] eqn:Hrow; [|refused].
  destruct (acquire_admits _ _ _ _ _ _ _) eqn:Hadm; [|refused]. simpl.
  destruct (row_columns _ Hok _ _ Hrow) as (_ & Hr & _).
  assert (∀ rev, row.(OperationRow_Revision) = rev → (sqlite_present db).(t_rows) !! op.(Op_ID) = Some (row.(OperationRow_Document), rev)) as Hp
    by (intros rev <-; apply present_row; by exists row).
  assert (row.(OperationRow_Revision) = expected) as Hrev by (unfold acquire_admits in Hadm; rewrite !andb_true_iff in Hadm; lia).
  assert (same_identity row.(OperationRow_Document) op) as Hsame by (by apply Hproper, Hp).
  destruct (acquire_admitted _ _ _ _ _ _ _ Hok Hrow ltac:(by rewrite <- Hr; destruct Hsame as (_ & -> & _)) Hadm) as [Happ _].
  split; [by apply update_ok|left; split_and!; [done| |naive_solver]].
  rewrite <- Hrev. apply (present_put (MkOperationRow _ _ _ _ (row.(OperationRow_Revision) + 1) op)). done.
Qed.

Lemma claim_served claim maxRuns maxVerifications db : sqlite_ok db →
  let outcome := sqlite_ClaimReviewVerificationSlot claim maxRuns maxVerifications db in
  sqlite_ok outcome.2 ∧
  ((claim_applies claim maxRuns maxVerifications (sqlite_present db) ∧ sqlite_present outcome.2 = put_claim claim (sqlite_present db)
     ∧ (∀ a, outcome.1 = Ok a → a = true))
   ∨ (outcome.2 = db ∧ (∀ a, outcome.1 = Ok a → ¬ a = true))).
Proof.
  intros Hok. unfold sqlite_ClaimReviewVerificationSlot. destruct (claim_validate claim); [|refused].
  simpl. destruct (_ || _); [refused|]. destruct (encode_with _ _); [|refused].
  destruct (_ && _) eqn:Hadm; [|refused]. apply andb_true_iff in Hadm as [Hv%Z.ltb_lt Hw%Z.ltb_lt].
  destruct (db.(review_verification_claims) !! claim.(Claim_ID)) eqn:Hl; [refused|]. simpl.
  split; [split; apply Hok|left; split_and!; [split| |naive_solver]].
  - simpl. by rewrite lookup_fmap, Hl.
  - unfold workCount in Hw. rewrite (classCount_present _ false), reviewClaimRunCount_present in Hw by done. unfold work_runs.
    pose proof (size_union_minus (runs_where (class_holder CapacityWork) (sqlite_present db)) (claim_runs (sqlite_present db)) claim.(Claim_RunID)). lia.
  - by rewrite <- verificationCount_present.
  - unfold put_claim, sqlite_present. simpl. by rewrite fmap_insert.
Qed.

(** A transition writes a permit under its own name and parent. *)
Lemma permit_mutation_ok p expected ceiling db db' : sqlite_ok db → check_transition p expected ceiling = Ok tt →
  permit_mutation p expected ceiling db = Some db' →
  sqlite_ok db' ∧ permit_applies p ceiling (sqlite_present db) (sqlite_present db').
Proof.
  intros Hok Hcheck Hm.
  assert (∃ revision, db' = set_permits (<[p.(Permit_ID) := (p, revision)]> db.(verification_permits)) db
    ∧ (p.(Permit_State) = VerificationGranted → (verificationCount db < ceiling)%Z)
    ∧ (p.(Permit_State) = VerificationWaiting → db.(verification_permits) !! p.(Permit_ID) = None)) as (revision & -> & Hgrant & Hwait).
  { unfold check_transition in Hcheck. rewrite check_then, refuse_if_then in Hcheck. destruct Hcheck as (_ & Hexp & _).
    rewrite !orb_false_iff in Hexp. destruct Hexp as ((_ & Hexp%negb_false_iff%eqb_prop) & _).
    unfold permit_mutation in Hm. destruct (Z.eqb_spec expected 0) as [->|Hne].
    - destruct (_ && _) eqn:Ha in Hm; [|done]. injection Hm as <-. exists 1%Z. symmetry in Hexp. apply bool_decide_eq_true in Hexp. rewrite Hexp in *.
      split_and!; [done|intros Hg; discriminate Hg|]. apply andb_true_iff in Ha as [_ Ha%bool_decide_eq_true]. done.
    - destruct (db.(verification_permits) !! p.(Permit_ID)) as [row|]; [|done]. simpl in Hm. destruct (_ && _ && _) eqn:Ha in Hm; [|done].
      injection Hm as <-. exists (expected + 1)%Z. symmetry in Hexp. apply bool_decide_eq_false in Hexp. split_and!; [done| |done].
      intros Hg. apply andb_true_iff in Ha as [_ Ha]. rewrite (bool_decide_eq_true_2 _ Hg) in Ha. simpl in Ha. apply andb_true_iff in Ha as [_ Ha]. lia. }
  split.
  { split; [apply Hok|apply Hok| |apply Hok]. intros id q rev Hl. simpl in Hl. apply lookup_insert_Some in Hl as [[<- [= <- _]]|[_ Hl]]; [done|by eapply Hok]. }
  rewrite (verificationCount_present _ Hok) in Hgrant. unfold permit_applies, sqlite_present in *. simpl in *. rewrite omap_insert. unfold permit_held. simpl.
  destruct (p.(Permit_State) ≟ VerificationGranted) eqn:Hg.
  - apply bool_decide_eq_true in Hg. split; [by apply Hgrant|done].
  - destruct (p.(Permit_State) ≟ VerificationReleased) eqn:Hr; [done|]. f_equal. rewrite delete_id; [done|]. rewrite lookup_omap.
    assert (p.(Permit_State) = VerificationWaiting) as Hw; [|by rewrite Hwait].
    unfold check_transition in Hcheck. rewrite check_then, wrap_ok in Hcheck. destruct Hcheck as [Hv _]. unfold permit_validate in Hv.
    rewrite !check_then in Hv. destruct Hv as (_ & _ & _ & Hs & _). rewrite Hg, Hr in Hs.
    destruct (p.(Permit_State) ≟ VerificationWaiting) eqn:Hw in Hs; [|done]. by apply bool_decide_eq_true in Hw.
Qed.

Lemma transition_served p expected ceiling db r db' : sqlite_ok db → transitions p expected ceiling db r db' →
  sqlite_ok db' ∧ attempted r (λ b, b = true) (sqlite_present db) (sqlite_present db') (permit_applies p ceiling (sqlite_present db)).
Proof.
  intros Hok [e _|e _|_ _|db1 e r' Hc Hm _ Hr]; [split; [done|right; naive_solver]..|].
  destruct (permit_mutation_ok _ _ _ _ _ Hok Hc Hm) as [Hok1 Happ]. split; [split; apply Hok1|]. left. split; [done|]. destruct Hr as [-> | ->]; naive_solver.
Qed.

Lemma queried_then {A} (outcome : result StoreError A) db r db' (Q : A → Prop) :
  sqlite_ok db → queried outcome db r db' → (∀ a, outcome = Ok a → Q a) →
  sqlite_ok db' ∧ sqlite_present db' = sqlite_present db ∧ ∀ a, r = Ok a → Q a.
Proof. intros Hok [[-> | ->] ->] HQ; split_and!; naive_solver. Qed.

Lemma named_row db id row : sqlite_ok db → db.(run_operations) !! id = Some row →
  (sqlite_present db).(t_rows) !! row.(OperationRow_Document).(Op_ID) = Some (row.(OperationRow_Document), row.(OperationRow_Revision)).
Proof. intros Hok Hrow. apply present_row. exists row. destruct (row_columns _ Hok _ _ Hrow) as (-> & _). done. Qed.

Lemma operations_listed keep db op : sqlite_ok db →
  op ∈ select_operations keep db ↔ ∃ row, db.(run_operations) !! op.(Op_ID) = Some row ∧ keep row = true ∧ row.(OperationRow_Document) = op.
Proof.
  intros Hok. rewrite elem_of_select. split; [|by intros (row & ?); exists op.(Op_ID), row].
  intros (id & row & Hrow & Hk & <-). exists row. destruct (row_columns _ Hok _ _ Hrow) as (-> & _). done.
Qed.

#[export] Instance sqlite_laws : OperationStoreLaws RuntimeDB.
Proof.
  split.
  - intros db id op revision Hok (row & Hrow & <- & _)%present_row. by apply (row_columns _ Hok _ _ Hrow).
  - intros c db r db' Hok Hp Hs.
    destruct c; simpl in Hs |- *; try (subst db'; done).
    + eapply queried_then; [done..|]. intros l [= <-] op. unfold sqlite_Operations. rewrite operations_listed by done.
      setoid_rewrite present_row. split.
      * intros (row & Hrow & Hrun%bool_decide_eq_true & <-). destruct (row_columns _ Hok _ _ Hrow) as (_ & -> & _). split; [done|].
        by exists row.(OperationRow_Revision), row.
      * intros (Hrun & revision & row & Hrow & Hdoc & _). exists row. destruct (row_columns _ Hok _ _ Hrow) as (_ & Hr & _).
        split_and!; [done| |done]. apply bool_decide_eq_true. congruence.
    + eapply queried_then; [done..|]. intros l [= <-] op. unfold sqlite_AllOperations. rewrite operations_listed by done.
      setoid_rewrite present_row. naive_solver.
    + eapply queried_then; [done..|]. intros o [= <-]. simpl. by rewrite lookup_fmap.
    + eapply queried_then; [done..|]. intros o [= <-]. unfold sqlite_OperationByIdempotencyKey.
      destruct (List.filter _ _) as [|[id row] l] eqn:Hl; simpl.
      * intros id op revision (row & Hrow & <- & _)%present_row [Hr Hk]. destruct (row_columns _ Hok _ _ Hrow) as (_ & Hr' & Hk').
        assert ((id, row) ∈ @nil (string * OperationRow)) as Hin; [|by apply not_elem_of_nil in Hin].
        rewrite <- Hl. apply elem_of_filter_true. rewrite elem_of_map_to_list. split; [done|]. simpl. rewrite !bool_decide_eq_true_2 by congruence. done.
      * assert ((id, row) ∈ List.filter (λ row, (row.2.(OperationRow_RunID) ≟ runID) && (row.2.(OperationRow_Key) ≟ key)) (map_to_list db.(run_operations))) as Hin
          by (rewrite Hl; left).
        apply elem_of_filter_true in Hin as [Hrow%elem_of_map_to_list Hk]. simpl in Hk. reflect_bools. destruct (row_columns _ Hok _ _ Hrow) as (_ & -> & ->).
        destruct Hk as [-> ->]. split_and!; [done..|]. exists row.(OperationRow_Revision). by eapply named_row.
    + destruct (put_served _ _ _ Hok Hp) as [Hok' Hout]. eapply executed_attempted; [done..| |done]. naive_solver.
    + destruct (acquire_served _ _ _ _ _ _ Hok Hp) as [Hok' Hout]. eapply executed_attempted; [done..| |done]. naive_solver.
    + by destruct Hs as [_ ->].
    + by destruct Hs as [_ ->].
    + by eapply transition_served.
    + by destruct Hs as [_ ->].
    + by destruct Hs as [_ ->].
    + destruct (claim_served claim maxRuns maxVerifications db Hok) as [Hok' Hout]. eapply executed_attempted; [done..| |done]. naive_solver.
    + eapply executed_attempted; [done| | |done]; [split; apply Hok|]. left. split; [|done].
      unfold drop_claim, sqlite_present. simpl. by rewrite fmap_delete.
  - intros db db' Hok (runs' & more & ->). split; [split; apply Hok|done].
  - intros db id op revision Hok (row & Hrow & <- & _)%present_row. by eapply Hok.
Qed.
End sqlite.

(** ** What a document can hold *)

Lemma omitted_safe fields name z : validateIJSONValue (GStruct fields) = Ok tt →
  (∀ f, f ∈ omit_zero name z → f ∈ fields) → safe_range z.
Proof.
  intros Hv Hsub. unfold omit_zero, omit_if in Hsub. destruct (Z.eqb_spec z 0) as [->|]; [unfold safe_range; vm_compute; split; discriminate|].
  apply validate_GInt. eapply validate_member; [exact Hv|]. apply Hsub. left.
Qed.

Ltac part_of := let f := fresh in let Hf := fresh in intros f Hf; repeat (apply elem_of_app; first [left; exact Hf|right]).

Lemma encoded_safe `{!Canonicalizer} op : is_ok (encodeOperation op) = true → safe_counters op.
Proof.
  intros (text & Hv)%is_ok_true. unfold encodeOperation in Hv. rewrite check_then in Hv. destruct Hv as [Hv _]. unfold operation_value in Hv.
  split_and!; [apply validate_GInt; eapply (validate_member _ "attempt"); [exact Hv|member]
    |eapply (omitted_safe _ "attempt_identity"); [exact Hv|part_of]
    |apply validate_GInt; eapply (validate_member _ "max_attempts"); [exact Hv|member]
    |eapply (omitted_safe _ "wall_budget"); [exact Hv|part_of]
    |eapply (omitted_safe _ "consumed_execution"); [exact Hv|part_of]
    |eapply (omitted_safe _ "last_attempt_execution"); [exact Hv|part_of]].
Qed.

(** A lease that JSON can hold. *)
Definition lease_valid (lease : Lease) : Prop :=
  validateIJSONValue (lease_value lease) = Ok tt ∧ year_in_range lease.(Lease_HeartbeatAt) = true ∧ year_in_range lease.(Lease_ExpiresAt) = true.

Lemma validate_GStruct fields : validateIJSONValue (GStruct fields) = Ok tt ↔ Forall (λ f, validateIJSONValue f.2 = Ok tt) fields.
Proof. rewrite Forall_forall. apply check_all_ok. Qed.

(** An operation that can be written can be written with a lease that can. *)
Lemma leased_encoded `{!Canonicalizer} op lease : is_ok (encodeOperation op) = true → lease_valid lease → is_ok (encodeOperation (leased op lease)) = true.
Proof.
  intros (text & Hv)%is_ok_true (Hl & Hbeat & Hexpires). unfold encodeOperation in Hv. rewrite check_then, refuse_if_then in Hv. destruct Hv as (Hv & Hyears%negb_false_iff & _).
  assert (validateIJSONValue (operation_value (leased op lease)) = Ok tt) as Hv'.
  { revert Hv. unfold operation_value. rewrite !validate_GStruct. set (P := λ f : string * GoValue, validateIJSONValue f.2 = Ok tt).
    assert (P ("state", GString Leased) ∧ P ("lease", lease_value lease)) as [Hstate Hlease] by (by split). clearbody P. cbn [leased set_lease set_state omit_none Op_Lease Op_State Op_Failure Op_RetryNotBefore Op_RetryDisposition Op_SchemaVersion Op_ID Op_RunID Op_Kind Op_IdempotencyKey
      Op_Attempt Op_AttemptIdentity Op_MaxAttempts Op_DependsOn Op_InputStateSHA256 Op_Result Op_CreatedAt Op_StartedAt Op_LastProgressAt Op_WallBudget
      Op_ConsumedExecution Op_LastAttemptExecution Op_ActiveSince Op_Deadline Op_DeadlineBound Op_NoProgressBudget Op_NoProgressKey Op_ProgressRecorderOpen
      Op_InactivitySuspension Op_CancelRequested].
    intros Hv. repeat match type of Hv with Forall P (_ ++ _) => apply Forall_app in Hv as [? Hv] end.
    repeat match goal with |- Forall P (_ ++ _) => apply Forall_app; split; [try assumption|] end; [|repeat constructor; assumption|assumption].
    repeat match goal with H : Forall P (_ :: _) |- _ => apply Forall_cons in H as [? H] end. repeat constructor; assumption. }
  assert (forallb year_in_range (operation_times (leased op lease)) = true) as Hyears'.
  { revert Hyears. unfold operation_times. rewrite !forallb_app. cbn [leased set_lease set_state from_option forallb Op_Lease Op_RetryNotBefore Op_CreatedAt
      Op_StartedAt Op_LastProgressAt Op_ActiveSince Op_Deadline Op_InactivitySuspension]. rewrite Hbeat, Hexpires, !andb_true_iff. tauto. }
  unfold encodeOperation, CanonicalJSON. by rewrite Hv', Hyears'.
Qed.
#[export] Instance sqlite_safe `{!Canonicalizer, !URLParser} : SafeStore RuntimeDB.
Proof. intros op. apply encoded_safe. Qed.

(* ------------------------------------------------------------------ *)
(** * The in-process store *)

Section memory.
Implicit Types (m : MemoryOperationStore) (op : RunOperation).

Lemma memory_row m id op revision : memory_ok m →
  (memory_present m).(t_rows) !! id = Some (op, revision) ↔ m.(operations) !! id = Some op ∧ m.(revisions) !! id = Some revision.
Proof.
  intros Hok. simpl. rewrite map_lookup_imap. destruct (m.(operations) !! id) as [o|] eqn:Ho; simpl; [|naive_solver].
  assert (is_Some (m.(revisions) !! id)) as [r Hr] by (apply Hok; by rewrite Ho). rewrite Hr. simpl. naive_solver.
Qed.

Lemma memory_put_ok op revision m : memory_ok m → memory_ok (put_memory op revision m).
Proof.
  intros Hok. split; simpl.
  - intros id o [[<- <-]|[_ Ho]]%lookup_insert_Some; [done|by eapply Hok].
  - intros id. rewrite !lookup_insert_is_Some. destruct (decide (op.(Op_ID) = id)); [naive_solver|]. rewrite (memory_domain _ Hok). naive_solver.
Qed.

Lemma memory_put_present op revision m : memory_ok m → memory_present (put_memory op revision m) = put_row op revision (memory_present m).
Proof.
  intros Hok. unfold memory_present, put_row. simpl. f_equal. apply map_eq. intros id. rewrite map_lookup_imap.
  destruct (decide (op.(Op_ID) = id)) as [<-|Hne].
  - by rewrite !lookup_insert_eq.
  - rewrite !lookup_insert_ne by done. by rewrite map_lookup_imap.
Qed.

Lemma memory_lists keep m op : memory_ok m → op ∈ memory_list keep m ↔ m.(operations) !! op.(Op_ID) = Some op ∧ keep op = true.
Proof.
  intros Hok. unfold memory_list, sortOperations. rewrite merge_sort_Permutation, elem_of_filter_true, elem_of_map_values. split.
  - intros ((id & Hid) & Hk). split; [|done]. by rewrite (memory_named _ Hok _ _ Hid).
  - intros [Hid Hk]. split; [by exists op.(Op_ID)|done].
Qed.

Lemma memory_stored m op : memory_ok m → m.(operations) !! op.(Op_ID) = Some op →
  ∃ revision, (memory_present m).(t_rows) !! op.(Op_ID) = Some (op, revision).
Proof.
  intros Hok Hop. assert (is_Some (m.(revisions) !! op.(Op_ID))) as [revision Hr] by (apply Hok; by rewrite Hop).
  exists revision. by apply memory_row.
Qed.

(** The runs counted among the others. *)
Lemma memory_others m op (keep : RunOperation → bool) : memory_ok m →
  (list_to_set (Op_RunID <$> List.filter keep
     (List.filter (λ o, (o.2.(Op_RunID) ≠? op.(Op_RunID)) && is_active o.2) (map_to_list m.(operations))).*2) : gset string)
  = runs_where (λ o, is_active o && keep o) (memory_present m) ∖ {[op.(Op_RunID)]}.
Proof.
  intros Hok. apply set_eq. intros run. rewrite elem_of_list_to_set, list_elem_of_fmap, elem_of_difference, elem_of_runs_where, elem_of_singleton.
  setoid_rewrite elem_of_filter_true. setoid_rewrite list_elem_of_fmap. setoid_rewrite elem_of_filter_true. setoid_rewrite (λ id o r, memory_row m id o r Hok). split.
  - intros (o & -> & ([id o'] & -> & Hin%elem_of_map_to_list & Hf) & Hk). simpl in *. apply andb_true_iff in Hf as [Hne%negb_true_iff%bool_decide_eq_false Ha]. split; [|done].
    assert (is_Some (m.(revisions) !! id)) as [r Hr] by (apply Hok; by rewrite Hin). exists id, o', r. by rewrite Ha, Hk.
  - intros ((id & o & r & (Ho & Hr) & Hk & <-) & Hne). exists o. split; [done|]. split; [|by apply andb_true_iff in Hk as [_ ?]]. exists (id, o). split; [done|].
    rewrite elem_of_map_to_list. split; [done|]. simpl. apply andb_true_iff in Hk as [-> _]. by rewrite bool_decide_eq_false_2.
Qed.

Lemma holders_active T : runs_where (λ o, is_active o && holdsVerificationSlot o) T = runs_where holdsVerificationSlot T.
Proof.
  apply set_eq. intros run. rewrite !elem_of_runs_where. unfold holdsVerificationSlot. setoid_rewrite andb_true_iff. setoid_rewrite andb_true_iff. naive_solver.
Qed.

Lemma memory_put_served op expected m : memory_ok m →
  let outcome := memory_PutOperation op expected m in
  memory_ok outcome.2 ∧
  attempted (Ok outcome.1) (λ w, w.2 = true) (memory_present m) (memory_present outcome.2)
    (λ T', put_applies op expected (memory_present m) ∧ T' = put_row op (expected + 1) (memory_present m)).
Proof.
  intros Hok. unfold memory_PutOperation. unfold put_applies. destruct (m.(revisions) !! op.(Op_ID)) as [revision|] eqn:Hr.
  - rewrite bool_decide_eq_true_2 by done. assert (is_Some (m.(operations) !! op.(Op_ID))) as [old Ho] by (apply Hok; by rewrite Hr).
    destruct (Z.eqb_spec expected 0) as [->|Hne]; simpl; [refused|].
    destruct (Z.eqb_spec revision expected) as [->|]; simpl; [|refused].
    split; [by apply memory_put_ok|left]. split; [|by intros ? [= <-]]. split; [|by apply memory_put_present]. exists old. by apply (memory_row m).
  - rewrite bool_decide_eq_false_2 by (by intros []). assert (m.(operations) !! op.(Op_ID) = None) as Ho.
    { destruct (m.(operations) !! op.(Op_ID)) eqn:Ho; [|done]. assert (is_Some (m.(revisions) !! op.(Op_ID))) as [? Hs] by (apply Hok; by rewrite Ho). by rewrite Hr in Hs. }
    destruct (Z.eqb_spec expected 0) as [->|Hne]; simpl; [|refused].
    destruct (existsb _ _) eqn:Hex; simpl; [refused|]. rewrite existsb_false in Hex.
    split; [by apply memory_put_ok|left]. split; [|by intros ? [= <-]]. split; [|by apply memory_put_present]. split.
    + by rewrite map_lookup_imap, Ho.
    + intros id prior rev [Hid _]%memory_row [Hrun Hkey]; [|done]. specialize (Hex prior). rewrite elem_of_map_values in Hex.
      rewrite !bool_decide_eq_true_2 in Hex by done. by discriminate (Hex ltac:(by exists id)).
Qed.

Lemma memory_acquire_served op expected maxRuns maxObservations maxVerifications m : memory_ok m →
  let outcome := memory_AcquireOperation op expected maxRuns maxObservations maxVerifications m in
  memory_ok outcome.2 ∧
  attempted outcome.1 (λ w, w.2 = true) (memory_present m) (memory_present outcome.2)
    (λ T', acquire_applies op expected maxRuns maxObservations maxVerifications (memory_present m) ∧ T' = put_row op (expected + 1) (memory_present m)).
Proof.
  intros Hok. unfold memory_AcquireOperation. destruct (_ || _); [refused|].
  destruct (_ ≠? _) eqn:Hr; [refused|]. apply negb_false_iff, bool_decide_eq_true in Hr.
  rewrite !memory_others by done.
  destruct (existsb _ _) eqn:Halone; [refused|]. rewrite existsb_false in Halone.
  assert (is_Some (m.(operations) !! op.(Op_ID))) as [old Ho] by (apply Hok; by rewrite Hr).
  assert ((memory_present m).(t_rows) !! op.(Op_ID) = Some (old, expected)) as Hrow by (by apply memory_row).
  assert (∀ id other revision, (memory_present m).(t_rows) !! id = Some (other, revision) → id ≠ op.(Op_ID) →
    other.(Op_RunID) = op.(Op_RunID) → is_active other = false) as Hbeside.
  { intros id other revision [Hid _]%memory_row Hne Hrun; [|exact Hok]. specialize (Halone (id, other)). rewrite elem_of_map_to_list in Halone.
    specialize (Halone Hid). simpl in Halone. rewrite (bool_decide_eq_true_2 _ Hrun), (bool_decide_eq_false_2 _ Hne) in Halone. exact Halone. }
  pose proof (memory_put_ok op (expected + 1) m Hok) as Hok'. pose proof (memory_put_present op (expected + 1) m Hok) as Hpresent.
  destruct (_ || _) eqn:Hc; [refused|]. apply orb_false_iff in Hc as [Hclass%Z.leb_gt Hver].
  split; [exact Hok'|left]. split; [|by intros ? [= <-]]. split; [|exact Hpresent]. split; [by exists old|exact Hbeside| | |].
  - revert Hclass. unfold class_within, observation_runs, work_runs, class_holder.
    assert (claim_runs (memory_present m) = ∅) as -> by reflexivity. rewrite union_empty_r_L.
    destruct (class_cases op.(Op_Kind)) as [Hk|Hk]; rewrite Hk; [rewrite bool_decide_eq_false_2 by discriminate|rewrite bool_decide_eq_true_2 by reflexivity]; exact id.
  - intros permit. simpl. by rewrite lookup_empty.
  - intros Hc. rewrite Hc in Hver. simpl in Hver. apply Z.leb_gt in Hver. unfold verification_beside. simpl. rewrite !map_size_empty, !Nat.add_0_r.
    rewrite holders_active in Hver. exact Hver.
Qed.

#[export] Instance memory_laws : OperationStoreLaws MemoryOperationStore.
Proof.
  split.
  - intros m id op revision Hok [Hop _]%memory_row; [by eapply Hok|done].
  - intros c m r m' Hok _ Hs. destruct c; simpl in Hs |- *; try (subst m'; done); try done.
    + destruct Hs as [-> ->]. split_and!; [done..|]. intros l [= <-] op. rewrite memory_lists by done. split.
      * intros [Hop Hrun%bool_decide_eq_true]. split; [done|by apply memory_stored].
      * intros (Hrun & revision & [Hop _]%memory_row); [|done]. split; [done|]. by apply bool_decide_eq_true.
    + destruct Hs as [-> ->]. split_and!; [done..|]. intros l [= <-] op. rewrite memory_lists by done. split.
      * intros [Hop _]. by apply memory_stored.
      * intros (revision & [Hop _]%memory_row); done.
    + destruct Hs as [-> ->]. split_and!; [done..|]. intros o [= <-]. unfold memory_Operation. simpl. rewrite map_lookup_imap. by destruct (m.(operations) !! id).
    + destruct Hs as [-> ->]. split_and!; [done..|]. intros o [= <-]. unfold memory_OperationByIdempotencyKey.
      destruct (List.filter _ _) as [|op l] eqn:Hl; simpl.
      * intros id op revision [Hid _]%memory_row [Hr Hk]; [|done].
        assert (op ∈ @nil RunOperation) as Hin; [|by apply not_elem_of_nil in Hin]. rewrite <- Hl. apply elem_of_filter_true.
        rewrite elem_of_map_values, !bool_decide_eq_true_2 by done. split; [by exists id|done].
      * assert (op ∈ List.filter (λ op, (op.(Op_RunID) ≟ runID) && (op.(Op_IdempotencyKey) ≟ key)) (map_to_list m.(operations)).*2) as Hin
          by (rewrite Hl; left).
        apply elem_of_filter_true in Hin as [(id & Hid)%elem_of_map_values Hk]. reflect_bools. destruct Hk as [-> ->]. split_and!; [done..|].
        apply memory_stored; [done|]. by rewrite (memory_named _ Hok _ _ Hid).
    + destruct Hs as [-> ->]. by apply memory_put_served.
    + destruct Hs as [-> ->]. by apply memory_acquire_served.
  - intros m m' Hok ->. done.
  - done.
Qed.
End memory.
