(* ===== verification/OperationTable.v ===== *)
(** The specification of the scheduler: a table of operations whose rows are
    changed one at a time, each change made at once.  [SchedulerFacts] shows
    that drivers running the methods of [Scheduler] interleaved do what this
    table allows and nothing else; what holds of every table reached is shown
    here. *)

From S2P Require Import Prelude GoStrings Json Domain Canonical GoTime Plan Events Operation Permit Scheduler OperationStore OperationStoreFacts.
From stdpp Require Import options.

(** An operation as a planner states it: nothing of it has run. *)
Record fresh_operation (op : RunOperation) : Prop := {
  fresh_attempt : op.(Op_Attempt) = 0%Z;
  fresh_identity : op.(Op_AttemptIdentity) = 0%Z;
  fresh_consumed : op.(Op_ConsumedExecution) = 0%Z;
  fresh_last : op.(Op_LastAttemptExecution) = 0%Z;
  fresh_lease : op.(Op_Lease) = None;
  fresh_active : op.(Op_ActiveSince) = None
}.

(** What [runOperation] plans ([runtime/reconciler.go]). *)
Definition new_operation (runID kind key : string) (maxAttempts : Z) (input : string) (wallBudget : Z) : RunOperation :=
  MkOperation None 0 "" "" "" runID kind key "" 0 0 maxAttempts [] input None None 0 None None wallBudget 0 0 None None "" 0 "" false None false.
Lemma new_operation_fresh runID kind key maxAttempts input wallBudget : fresh_operation (new_operation runID kind key maxAttempts input wallBudget).
Proof. done. Qed.

(* ------------------------------------------------------------------ *)
(** * Steps *)

Record Shared := MkShared {
  s_table : Table;
  s_dead : gset string
}.

(** The ceilings every driver runs under. *)
Record Ceilings := MkCeilings {
  ceiling_work : Z;
  ceiling_observation : Z;
  ceiling_verification : Z
}.

Definition terminal_state (state : string) : Prop := state ∈ [Succeeded; OperationFailed; OperationCancelled; Unknown].
Definition held (op : RunOperation) : Prop := op.(Op_State) = Leased ∨ op.(Op_State) = Running.

(** What process [me] may make of a row.  A lease ends when the operation is
    settled, when its own process lets go of it, when it is handed back by who
    names its grant, or when its owner is dead and it has expired. *)
Inductive row_step (me : string) (dead : gset string) (op : RunOperation) : RunOperation → Prop :=
  | row_start limit now waiting : op.(Op_State) = Leased → lease_owner op = Some me → row_step me dead op (started limit op now waiting)
  | row_renew now duration : lease_owner op = Some me → row_step me dead op (renewed op now duration)
  | row_progress owner now attempt progress : row_step me dead op (progressed owner op now attempt progress)
  | row_finish state retryAt disposition ended wait : terminal_state state → held op →
      row_step me dead op (finished state retryAt disposition op ended wait)
  | row_reserve identity : row_step me dead op (reserved op identity)
  | row_restore refund : op.(Op_State) = OperationFailed → row_step me dead op (restored refund op)
  | row_cancel : row_step me dead op (cancelled op)
  | row_retire now : (∀ owner, lease_owner op = Some owner → owner ∈ dead) → CanAcquire op now false = true → OperationExpired op now = true →
      row_step me dead op (retired op)
  | row_reclaim now owner : lease_owner op = Some owner → owner ∈ dead → CanAcquire op now false = true → row_step me dead op (released op)
  | row_let_go : lease_owner op = Some me → row_step me dead op (released op)
  | row_hand_back grant : grant ≠ "" → Lease_Grant <$> op.(Op_Lease) = Some grant → row_step me dead op (released op).

(** What the taker of a lease has seen of the row. *)
Record lease_due (dead : gset string) (op : RunOperation) (now : Z) : Prop := {
  due_attempts : (op.(Op_Attempt) < op.(Op_MaxAttempts))%Z;
  due_cancel : op.(Op_CancelRequested) = false;
  due_acquire : CanAcquire op now false = true;
  due_owner owner : lease_owner op = Some owner → owner ∈ dead;
  due_budget : OperationExpired op now = false
}.

Section table.
Variables (limits : Ceilings) (storable : RunOperation → Prop).
Implicit Types (T : Table) (op : RunOperation).

Definition dependency_met T (id : string) : Prop := ∃ dep revision, T.(t_rows) !! id = Some (dep, revision) ∧ dep.(Op_State) = Succeeded.

Inductive atomic : Shared → Shared → Prop :=
  | atomic_plan T dead op id now : fresh_operation op →
      T.(t_rows) !! id = None → key_free op T → storable (planned op id now) →
      atomic (MkShared T dead) (MkShared (put_row (planned op id now) 1 T) dead)
  | atomic_row T dead me op revision op' : T.(t_rows) !! op'.(Op_ID) = Some (op, revision) → row_step me dead op op' → storable op' →
      atomic (MkShared T dead) (MkShared (put_row op' (revision + 1) T) dead)
  | atomic_lease T dead op revision now lease maxRuns maxObservations maxVerifications :
      lease_due dead op now → (∀ id, id ∈ op.(Op_DependsOn) → dependency_met T id) →
      T.(t_rows) !! op.(Op_ID) = Some (op, revision) →
      acquire_applies (leased op lease) revision maxRuns maxObservations maxVerifications T → storable (leased op lease) →
      (maxRuns <= limits.(ceiling_work))%Z → (maxObservations <= limits.(ceiling_observation))%Z → (maxVerifications <= limits.(ceiling_verification))%Z →
      atomic (MkShared T dead) (MkShared (put_row (leased op lease) (revision + 1) T) dead)
  | atomic_claim T dead claim maxRuns maxVerifications : claim_applies claim maxRuns maxVerifications T →
      (maxRuns <= limits.(ceiling_work))%Z → (maxVerifications <= limits.(ceiling_verification))%Z →
      atomic (MkShared T dead) (MkShared (put_claim claim T) dead)
  | atomic_unclaim T dead id : atomic (MkShared T dead) (MkShared (drop_claim id T) dead)
  | atomic_permit T dead p ceiling T' : permit_applies p ceiling T T' → (ceiling <= limits.(ceiling_verification))%Z →
      atomic (MkShared T dead) (MkShared T' dead)
  | atomic_death T dead owner : atomic (MkShared T dead) (MkShared T ({[owner]} ∪ dead)).

Definition empty_table : Shared := MkShared (MkTable ∅ ∅ ∅) ∅.
Definition table_reachable (s : Shared) : Prop := rtc atomic empty_table s.
End table.
(* ------------------------------------------------------------------ *)
(** * One row *)

Ltac row_cases := repeat case_match; try reflexivity; simpl; try reflexivity.

(** What no call changes. *)
Definition constants (op : RunOperation) :=
  (op.(Op_ID), op.(Op_RunID), op.(Op_Kind), op.(Op_IdempotencyKey), op.(Op_DependsOn), op.(Op_MaxAttempts), op.(Op_WallBudget)).

Section parts.
Implicit Types (op : RunOperation).

(** The parts [started] and [finished] are made of change their own fields
    only; these are the fields the others read. *)
Definition frame op := (constants op, op.(Op_State), op.(Op_Lease), op.(Op_CancelRequested), op.(Op_Attempt), op.(Op_AttemptIdentity)).

Lemma frame_inv op c state lease cancel attempt identity : frame op = (c, state, lease, cancel, attempt, identity) →
  constants op = c ∧ op.(Op_State) = state ∧ op.(Op_Lease) = lease ∧ op.(Op_CancelRequested) = cancel ∧ op.(Op_Attempt) = attempt
  ∧ op.(Op_AttemptIdentity) = identity.
Proof.
  intros Hf. exact (conj (f_equal (λ f, f.1.1.1.1.1) Hf) (conj (f_equal (λ f, f.1.1.1.1.2) Hf) (conj (f_equal (λ f, f.1.1.1.2) Hf)
    (conj (f_equal (λ f, f.1.1.2) Hf) (conj (f_equal (λ f, f.1.2) Hf) (f_equal (λ f, f.2) Hf)))))).
Qed.

Lemma charge_orphan_frame op now waiting : frame (charge_orphan op now waiting) = frame op.
Proof. unfold charge_orphan. row_cases. Qed.
Lemma begin_progress_frame abandoned op now : frame (begin_progress abandoned op now) = frame op.
Proof. unfold begin_progress. row_cases. Qed.
Lemma budget_deadline_frame op now : frame (budget_deadline op now) = frame op.
Proof. unfold budget_deadline. row_cases. Qed.
Lemma limit_deadline_frame limit op now : frame (limit_deadline limit op now) = frame op.
Proof. unfold limit_deadline. row_cases. Qed.
Lemma settle_frame op ended wait : frame (settle op ended wait) = frame op.
Proof. unfold settle. row_cases. Qed.
Lemma progressed_frame owner op now attempt progress : frame (progressed owner op now attempt progress) = frame op.
Proof. unfold progressed. row_cases. Qed.

Lemma started_frame limit op now waiting : frame (started limit op now waiting) =
  (constants op, Running, op.(Op_Lease), op.(Op_CancelRequested), wrap64 (op.(Op_Attempt) + 1), wrap64 (op.(Op_AttemptIdentity) + 1)).
Proof.
  unfold started. rewrite limit_deadline_frame, budget_deadline_frame.
  transitivity (frame (begin_progress (bool_decide (is_Some op.(Op_ActiveSince))) (charge_orphan (begin_attempt op now) now waiting) now)); [done|].
  by rewrite begin_progress_frame, charge_orphan_frame.
Qed.
Lemma finished_frame state retryAt disposition op ended wait : frame (finished state retryAt disposition op ended wait) =
  (constants op, state, None, op.(Op_CancelRequested), op.(Op_Attempt), op.(Op_AttemptIdentity)).
Proof. exact (settle_frame (set_lease None (set_retry retryAt disposition (set_state state op))) ended wait). Qed.
Lemma restored_frame refund op : frame (restored refund op) =
  (constants op, op.(Op_State), None, op.(Op_CancelRequested), if (0 <? op.(Op_Attempt))%Z then (op.(Op_Attempt) - 1)%Z else op.(Op_Attempt), op.(Op_AttemptIdentity)).
Proof. unfold restored. by destruct (0 <? op.(Op_Attempt))%Z, refund. Qed.
Lemma reserved_frame op identity : frame (reserved op identity) =
  (constants op, op.(Op_State), op.(Op_Lease), op.(Op_CancelRequested), op.(Op_Attempt), Z.max op.(Op_AttemptIdentity) identity).
Proof. unfold reserved. destruct (Z.ltb_spec op.(Op_AttemptIdentity) identity); unfold frame; simpl; f_equal; lia. Qed.

(** The owner and the grant of a lease. *)
Definition holder op : option (string * string) := (λ l, (l.(Lease_Owner), l.(Lease_Grant))) <$> op.(Op_Lease).
Lemma renewed_frame op now duration : constants (renewed op now duration) = constants op ∧ (renewed op now duration).(Op_State) = op.(Op_State)
  ∧ holder (renewed op now duration) = holder op ∧ (renewed op now duration).(Op_CancelRequested) = op.(Op_CancelRequested)
  ∧ (renewed op now duration).(Op_Attempt) = op.(Op_Attempt) ∧ (renewed op now duration).(Op_AttemptIdentity) = op.(Op_AttemptIdentity).
Proof. unfold renewed, holder. destruct op.(Op_Lease) as [l|] eqn:Hl; simpl; by rewrite ?Hl. Qed.

Lemma is_active_iff op : is_active op = true ↔ is_Some op.(Op_Lease) ∧ held op.
Proof.
  unfold is_active, held. destruct op.(Op_Lease); [|split; [done|by intros [[]]]]. rewrite orb_true_iff, !bool_decide_eq_true. naive_solver.
Qed.

Lemma CanAcquire_owner op now alive : CanAcquire op now alive = true →
  CanAcquire op now false = true ∧ (is_Some op.(Op_Lease) → alive = false).
Proof.
  unfold CanAcquire. destruct (now <? op.(Op_RetryNotBefore))%Z; [done|]. destruct (_ || _); [done|]. destruct op.(Op_Lease).
  - rewrite andb_true_iff, negb_true_iff. intros [-> ->]. done.
  - intros _. split; [done|]. by intros [].
Qed.

Lemma CanAcquire_open op now alive : CanAcquire op now alive = true → op.(Op_State) ≠ Succeeded ∧ op.(Op_State) ≠ OperationCancelled.
Proof.
  unfold CanAcquire. destruct (now <? op.(Op_RetryNotBefore))%Z; [done|]. destruct (_ || _) eqn:Hs; [done|]. intros _.
  apply orb_false_iff in Hs as [?%bool_decide_eq_false ?%bool_decide_eq_false]. done.
Qed.
End parts.

(** The steps of a row as far as its state, lease, cancellation and attempts go. *)
Inductive row_effect (me : string) (op op' : RunOperation) : Prop :=
  | effect_start : op.(Op_State) = Leased → lease_owner op = Some me → op'.(Op_State) = Running → op'.(Op_Lease) = op.(Op_Lease) →
      op'.(Op_CancelRequested) = op.(Op_CancelRequested) → op'.(Op_Attempt) = wrap64 (op.(Op_Attempt) + 1) →
      op'.(Op_AttemptIdentity) = wrap64 (op.(Op_AttemptIdentity) + 1) → row_effect me op op'
  | effect_keep : op'.(Op_State) = op.(Op_State) → holder op' = holder op → (op.(Op_CancelRequested) = true → op'.(Op_CancelRequested) = true) →
      op'.(Op_Attempt) = op.(Op_Attempt) → (op.(Op_AttemptIdentity) <= op'.(Op_AttemptIdentity))%Z → row_effect me op op'
  | effect_settle : held op → terminal_state op'.(Op_State) → op'.(Op_Lease) = None → op'.(Op_CancelRequested) = op.(Op_CancelRequested) →
      op'.(Op_Attempt) = op.(Op_Attempt) → op'.(Op_AttemptIdentity) = op.(Op_AttemptIdentity) → row_effect me op op'
  | effect_restore : op.(Op_State) = OperationFailed → op'.(Op_State) = OperationFailed → op'.(Op_Lease) = None →
      op'.(Op_CancelRequested) = op.(Op_CancelRequested) →
      op'.(Op_Attempt) = (if (0 <? op.(Op_Attempt))%Z then (op.(Op_Attempt) - 1)%Z else op.(Op_Attempt)) →
      op'.(Op_AttemptIdentity) = op.(Op_AttemptIdentity) → row_effect me op op'
  | effect_retire : op.(Op_State) ≠ Succeeded → op.(Op_State) ≠ OperationCancelled → op'.(Op_State) = OperationFailed → op'.(Op_Lease) = None →
      op'.(Op_CancelRequested) = op.(Op_CancelRequested) → op'.(Op_Attempt) = op.(Op_Attempt) →
      op'.(Op_AttemptIdentity) = op.(Op_AttemptIdentity) → row_effect me op op'
  | effect_release : op'.(Op_State) = op.(Op_State) → op'.(Op_Lease) = None → op'.(Op_CancelRequested) = op.(Op_CancelRequested) →
      op'.(Op_Attempt) = op.(Op_Attempt) → op'.(Op_AttemptIdentity) = op.(Op_AttemptIdentity) → row_effect me op op'.

Lemma row_step_effect me dead op op' : row_step me dead op op' → row_effect me op op' ∧ constants op' = constants op.
Proof.
  intros [limit now waiting Hs Ho|now d _|owner now attempt p|state r d ended w Ht Hh|i|refund Hf| |now _ Hc _|now owner _ _ _|_|grant _ _].
  - pose proof (started_frame limit op now waiting) as (Hc & H1 & H2 & H3 & H4 & H5)%frame_inv. split; [by apply effect_start|done].
  - destruct (renewed_frame op now d) as (Hc & H1 & H2 & H3 & H4 & H5). split; [|done]. apply effect_keep; [done..|by rewrite H3|done|lia].
  - pose proof (progressed_frame owner op now attempt p) as (Hc & H1 & H2 & H3 & H4 & H5)%frame_inv. split; [|done].
    apply effect_keep; [done|unfold holder; by rewrite H2|by rewrite H3|done|lia].
  - pose proof (finished_frame state r d op ended w) as (Hc & H1 & H2 & H3 & H4 & H5)%frame_inv. split; [|done].
    apply effect_settle; try done. by rewrite H1.
  - pose proof (reserved_frame op i) as (Hc & H1 & H2 & H3 & H4 & H5)%frame_inv. split; [|done].
    apply effect_keep; [done|unfold holder; by rewrite H2|by rewrite H3|done|lia].
  - pose proof (restored_frame refund op) as (Hc & H1 & H2 & H3 & H4 & H5)%frame_inv. split; [|done]. apply effect_restore; try done. by rewrite H1.
  - split; [|done]. by apply effect_keep; simpl; try lia.
  - split; [|done]. destruct (CanAcquire_open _ _ _ Hc). by apply effect_retire.
  - split; [|done]. by apply effect_release.
  - split; [|done]. by apply effect_release.
  - split; [|done]. by apply effect_release.
Qed.

Section effects.
Context {me : string} {op op' : RunOperation}.

(** Nothing but the taking of a lease makes a row active. *)
Lemma effect_active : row_effect me op op' → is_active op' = true → is_active op = true ∧ holder op' = holder op.
Proof.
  intros He [Hl Hh]%is_active_iff. rewrite is_active_iff. unfold held, holder in *.
  destruct He as [Hs Ho Hs' Hl' _ _ _|Hs Hl' _ _ _|_ _ Hl' _ _ _|_ _ Hl' _ _ _|_ _ _ Hl' _ _ _|_ Hl' _ _ _]; try (rewrite Hl' in Hl; by destruct Hl).
  - rewrite Hl' in *. auto.
  - rewrite Hs in Hh. unfold holder in Hl'. split; [|done]. split; [|done]. destruct op.(Op_Lease), op'.(Op_Lease); try done; by destruct Hl.
Qed.

(** A settled operation stays settled. *)
Lemma effect_settled : row_effect me op op' → op.(Op_State) = Succeeded ∨ op.(Op_State) = OperationCancelled → op'.(Op_State) = op.(Op_State).
Proof.
  intros He Hset. destruct He as [Hs _ _ _ _ _ _|Hs _ _ _ _|[Hh|Hh] _ _ _ _ _|Hs _ _ _ _ _|H1 H2 _ _ _ _ _|Hs _ _ _ _]; try done.
  - rewrite Hs in Hset. by destruct Hset.
  - rewrite Hh in Hset. by destruct Hset.
  - rewrite Hh in Hset. by destruct Hset.
  - rewrite Hs in Hset. by destruct Hset.
  - by destruct Hset.
Qed.

Lemma effect_cancel : row_effect me op op' → op.(Op_CancelRequested) = true → op'.(Op_CancelRequested) = true.
Proof. intros [ ] Hc; congruence || auto. Qed.

(** What is held was held, and what succeeded was held or had succeeded. *)
Lemma effect_held : row_effect me op op' → held op' ∨ op'.(Op_State) = Succeeded → held op ∨ op.(Op_State) = Succeeded.
Proof.
  unfold held. intros He Hh. destruct He as [Hs _ _ _ _ _ _|Hs _ _ _ _|Hx _ _ _ _ _|_ Hs _ _ _ _|_ _ Hs _ _ _ _|Hs _ _ _ _]; try (rewrite Hs in Hh);
    first [by auto|by destruct_or! Hh].
Qed.
End effects.

(* ------------------------------------------------------------------ *)
(** * Tables *)

Implicit Types (T : Table) (op : RunOperation).

(** A row once written keeps its identity, its kind, its dependencies and its
    limits, and what it has decided. *)
Record persists op op' : Prop := {
  persists_constants : constants op' = constants op;
  persists_settled : op.(Op_State) = Succeeded ∨ op.(Op_State) = OperationCancelled → op'.(Op_State) = op.(Op_State);
  persists_cancel : op.(Op_CancelRequested) = true → op'.(Op_CancelRequested) = true
}.

Lemma row_step_persists me dead op op' : row_step me dead op op' → persists op op'.
Proof. intros [He Hc]%row_step_effect. split; [done|by apply (effect_settled He)|by apply (effect_cancel He)]. Qed.

Lemma leased_persists dead op now lease : lease_due dead op now → persists op (leased op lease).
Proof.
  intros [_ Hc Ha _ _]. destruct (CanAcquire_open _ _ _ Ha). split; [done|naive_solver|done].
Qed.

Lemma planned_id op id now : (planned op id now).(Op_ID) = id.
Proof. unfold planned. simpl. by destruct (op.(Op_MaxAttempts) <=? 0)%Z. Qed.

Lemma put_row_here op revision T : (put_row op revision T).(t_rows) !! op.(Op_ID) = Some (op, revision).
Proof. apply lookup_insert_eq. Qed.
Lemma put_row_beside op revision T id : op.(Op_ID) ≠ id → (put_row op revision T).(t_rows) !! id = T.(t_rows) !! id.
Proof. apply lookup_insert_ne. Qed.

Lemma constants_run op op' : constants op' = constants op → op'.(Op_RunID) = op.(Op_RunID) ∧ op'.(Op_Kind) = op.(Op_Kind)
  ∧ op'.(Op_IdempotencyKey) = op.(Op_IdempotencyKey) ∧ op'.(Op_DependsOn) = op.(Op_DependsOn) ∧ op'.(Op_MaxAttempts) = op.(Op_MaxAttempts)
  ∧ op'.(Op_WallBudget) = op.(Op_WallBudget).
Proof. unfold constants. intros [= ? ? ? ? ? ? ?]. by split_and!. Qed.

Lemma planned_constants op id now : (planned op id now).(Op_RunID) = op.(Op_RunID) ∧ (planned op id now).(Op_IdempotencyKey) = op.(Op_IdempotencyKey)
  ∧ (planned op id now).(Op_Kind) = op.(Op_Kind) ∧ (planned op id now).(Op_State) = Pending ∧ (planned op id now).(Op_Lease) = op.(Op_Lease)
  ∧ (planned op id now).(Op_Attempt) = op.(Op_Attempt) ∧ (planned op id now).(Op_AttemptIdentity) = op.(Op_AttemptIdentity)
  ∧ (planned op id now).(Op_ActiveSince) = op.(Op_ActiveSince) ∧ (planned op id now).(Op_ConsumedExecution) = op.(Op_ConsumedExecution)
  ∧ (planned op id now).(Op_LastAttemptExecution) = op.(Op_LastAttemptExecution) ∧ (1 <= (planned op id now).(Op_MaxAttempts))%Z.
Proof. unfold planned. simpl. destruct (Z.leb_spec op.(Op_MaxAttempts) 0); simpl; split_and!; done || lia. Qed.

Lemma put_row_lookup op revision T id op' r : (put_row op revision T).(t_rows) !! id = Some (op', r) →
  (id = op.(Op_ID) ∧ op' = op ∧ r = revision) ∨ (id ≠ op.(Op_ID) ∧ T.(t_rows) !! id = Some (op', r)).
Proof. simpl. intros [[<- [= <- <-]]|[Hne Hl]]%lookup_insert_Some; auto. Qed.

(** ** Capacity *)

Lemma runs_where_put keep op revision T : runs_where keep (put_row op revision T) ⊆ runs_where keep T ∪ {[op.(Op_RunID)]}.
Proof.
  intros run (id & o & r & Hl & Hk & <-)%elem_of_runs_where. apply put_row_lookup in Hl as [(-> & -> & _)|[_ Hl]]; [set_solver|].
  apply elem_of_union_l, elem_of_runs_where. by exists id, o, r.
Qed.

Lemma runs_where_kept keep op revision T :
  (keep op = true → ∃ old r, T.(t_rows) !! op.(Op_ID) = Some (old, r) ∧ keep old = true ∧ old.(Op_RunID) = op.(Op_RunID)) →
  runs_where keep (put_row op revision T) ⊆ runs_where keep T.
Proof.
  intros Hold run (id & o & r & Hl & Hk & <-)%elem_of_runs_where. apply elem_of_runs_where.
  apply put_row_lookup in Hl as [(-> & -> & _)|[_ Hl]]; [|by exists id, o, r]. destruct (Hold Hk) as (old & r' & Ho & Hko & Hr). by exists op.(Op_ID), old, r'.
Qed.

Lemma class_elsewhere class op revision T : OperationCapacityClass op.(Op_Kind) ≠ class →
  runs_where (class_holder class) (put_row op revision T) ⊆ runs_where (class_holder class) T.
Proof.
  intros Hne. apply runs_where_kept. unfold class_holder. rewrite bool_decide_eq_false_2 by done. by rewrite andb_false_r.
Qed.

Lemma slot_elsewhere op revision T : consumesVerification op.(Op_Kind) = false →
  runs_where holdsVerificationSlot (put_row op revision T) ⊆ runs_where holdsVerificationSlot T.
Proof. intros Hc. apply runs_where_kept. unfold holdsVerificationSlot. by rewrite Hc, andb_false_r. Qed.

Lemma work_runs_put op revision T : work_runs (put_row op revision T) ⊆ work_runs T ∪ {[op.(Op_RunID)]}.
Proof. unfold work_runs. pose proof (runs_where_put (class_holder CapacityWork) op revision T). set_solver. Qed.

Lemma work_runs_claim claim T : work_runs (put_claim claim T) ⊆ work_runs T ∪ {[claim.(Claim_RunID)]}.
Proof.
  unfold work_runs. intros run [Hr|(id & Hl)%elem_of_claim_runs]%elem_of_union; [set_solver|]. simpl in Hl.
  apply lookup_insert_Some in Hl as [[_ <-]|[_ Hl]]; [set_solver|]. apply elem_of_union_l, elem_of_union_r, elem_of_claim_runs. by exists id.
Qed.

Lemma work_runs_unclaim id T : work_runs (drop_claim id T) ⊆ work_runs T.
Proof.
  unfold work_runs. intros run [Hr|(i & Hl)%elem_of_claim_runs]%elem_of_union; [by apply elem_of_union_l|]. simpl in Hl.
  apply lookup_delete_Some in Hl as [_ Hl]. apply elem_of_union_r, elem_of_claim_runs. by exists i.
Qed.

Lemma size_delete_le {A} (m : gmap string A) i : size (delete i m) ≤ size m.
Proof. rewrite map_size_delete. destruct (m !! i); simpl; lia. Qed.
Lemma size_insert_le {A} (m : gmap string A) i x : size (<[i := x]> m) ≤ size m + 1.
Proof. rewrite map_size_insert. destruct (m !! i); simpl; lia. Qed.

Lemma size_add_run (X Y : gset string) run : X ⊆ Y ∪ {[run]} → size X ≤ size (Y ∖ {[run]}) + 1.
Proof.
  intros Hsub. assert (X ⊆ (Y ∖ {[run]}) ∪ {[run]}) as Hle.
  { intros x Hx%Hsub. rewrite elem_of_union, elem_of_difference, elem_of_singleton in *. destruct (decide (x = run)); naive_solver. }
  apply subseteq_size in Hle. rewrite size_union_alt in Hle.
  pose proof (subseteq_size ({[run]} ∖ (Y ∖ {[run]})) ({[run]} : gset string) ltac:(apply subseteq_difference_l; done)) as Hone.
  rewrite size_singleton in Hone. lia.
Qed.

Lemma work_runs_sub T T' : claim_runs T' = claim_runs T → runs_where (class_holder CapacityWork) T' ⊆ runs_where (class_holder CapacityWork) T →
  work_runs T' ⊆ work_runs T.
Proof. unfold work_runs. intros ->. set_solver. Qed.

Section capacity.
Context {limits : Ceilings}.

Record within_ceilings T : Prop := {
  within_work : (Z.of_nat (size (work_runs T)) <= limits.(ceiling_work))%Z;
  within_observation : (Z.of_nat (size (observation_runs T)) <= limits.(ceiling_observation))%Z;
  within_verification : (verification_load T <= limits.(ceiling_verification))%Z
}.

Lemma within_smaller T T' : within_ceilings T → claim_runs T' = claim_runs T → size T'.(t_claims) = size T.(t_claims) →
  size T'.(t_granted) = size T.(t_granted) →
  (∀ class, runs_where (class_holder class) T' ⊆ runs_where (class_holder class) T) → runs_where holdsVerificationSlot T' ⊆ runs_where holdsVerificationSlot T →
  within_ceilings T'.
Proof.
  intros [Hw Ho Hv] Hruns Hclaims Hgranted Hclass Hslots. split.
  - pose proof (subseteq_size _ _ (work_runs_sub _ _ Hruns (Hclass _))). lia.
  - pose proof (subseteq_size _ _ (Hclass CapacityObservation)). unfold observation_runs in *. lia.
  - unfold verification_load in *. pose proof (subseteq_size _ _ Hslots). lia.
Qed.

Lemma acquire_within op expected maxRuns maxObservations maxVerifications revision T :
  acquire_applies op expected maxRuns maxObservations maxVerifications T → within_ceilings T →
  (maxRuns <= limits.(ceiling_work))%Z → (maxObservations <= limits.(ceiling_observation))%Z → (maxVerifications <= limits.(ceiling_verification))%Z →
  within_ceilings (put_row op revision T).
Proof.
  intros [_ _ Hclass _ Hver] [Hw Ho Hv] Lw Lo Lv. unfold class_within in Hclass.
  assert (∀ class, OperationCapacityClass op.(Op_Kind) ≠ class → size (runs_where (class_holder class) (put_row op revision T)) ≤ size (runs_where (class_holder class) T)) as Hother
    by (intros class Hne; apply subseteq_size; by apply class_elsewhere).
  split.
  - destruct (class_cases op.(Op_Kind)) as [Hk|Hk]; rewrite Hk in Hclass, Hother.
    + rewrite bool_decide_eq_false_2 in Hclass by discriminate.
      pose proof (size_add_run _ _ _ (work_runs_put op revision T)). lia.
    + assert (work_runs (put_row op revision T) ⊆ work_runs T) as Hsub
        by (apply work_runs_sub; [done|apply class_elsewhere; by rewrite Hk]).
      pose proof (subseteq_size _ _ Hsub). lia.
  - unfold observation_runs in *. destruct (class_cases op.(Op_Kind)) as [Hk|Hk]; rewrite Hk in Hclass, Hother.
    + assert (CapacityWork ≠ CapacityObservation) as Hne by discriminate. pose proof (Hother _ Hne). lia.
    + rewrite bool_decide_eq_true_2 in Hclass by done. pose proof (size_add_run _ _ _ (runs_where_put (class_holder CapacityObservation) op revision T)). lia.
  - unfold verification_load, verification_beside in *. simpl. destruct (consumesVerification op.(Op_Kind)) eqn:Hc.
    + specialize (Hver eq_refl). pose proof (size_add_run _ _ _ (runs_where_put holdsVerificationSlot op revision T)). lia.
    + pose proof (subseteq_size _ _ (slot_elsewhere op revision T Hc)). lia.
Qed.

Lemma claim_within claim maxRuns maxVerifications T : claim_applies claim maxRuns maxVerifications T → within_ceilings T →
  (maxRuns <= limits.(ceiling_work))%Z → (maxVerifications <= limits.(ceiling_verification))%Z → within_ceilings (put_claim claim T).
Proof.
  intros [Hnew Hwork Hver] [Hw Ho Hv] Lw Lv. split.
  - pose proof (size_add_run _ _ _ (work_runs_claim claim T)). lia.
  - exact Ho.
  - unfold verification_load in *. simpl. rewrite map_size_insert_None by done. change (runs_where holdsVerificationSlot (put_claim claim T)) with (runs_where holdsVerificationSlot T). lia.
Qed.

(** Dropping claims and grants only makes room. *)
Lemma unclaim_within id T : within_ceilings T → within_ceilings (drop_claim id T).
Proof.
  intros [Hw Ho Hv]. split.
  - pose proof (subseteq_size _ _ (work_runs_unclaim id T)). lia.
  - exact Ho.
  - unfold verification_load in *. simpl. pose proof (size_delete_le T.(t_claims) id).
    change (runs_where holdsVerificationSlot (drop_claim id T)) with (runs_where holdsVerificationSlot T). lia.
Qed.

Lemma permit_within p ceiling T T' : permit_applies p ceiling T T' → within_ceilings T → (ceiling <= limits.(ceiling_verification))%Z → within_ceilings T'.
Proof.
  unfold permit_applies. intros Hp [Hw Ho Hv] Lv. repeat case_match.
  - destruct Hp as [Hload ->]. split; [exact Hw|exact Ho|]. unfold verification_load in *. simpl.
    pose proof (size_insert_le T.(t_granted) p.(Permit_ID) p.(Permit_Parent).(AttemptRef_RunID)).
    change (runs_where holdsVerificationSlot _) with (runs_where holdsVerificationSlot T). lia.
  - subst T'. split; [exact Hw|exact Ho|]. unfold verification_load in *. simpl. pose proof (size_delete_le T.(t_granted) p.(Permit_ID)).
    change (runs_where holdsVerificationSlot _) with (runs_where holdsVerificationSlot T). lia.
  - by subst.
Qed.

Lemma row_within dead me op revision op' T : T.(t_rows) !! op'.(Op_ID) = Some (op, revision) → row_step me dead op op' →
  within_ceilings T → within_ceilings (put_row op' (revision + 1) T).
Proof.
  intros Hl [He Hc]%row_step_effect Hwithin. apply constants_run in Hc as (Hrun & Hkind & _). eapply within_smaller; try done.
  - intros class. apply runs_where_kept. unfold class_holder. rewrite Hkind. intros [Ha Hk]%andb_true_iff. exists op, revision.
    destruct (effect_active He Ha) as [-> _]. by rewrite Hk.
  - apply runs_where_kept. unfold holdsVerificationSlot. rewrite Hkind. intros [Ha Hk]%andb_true_iff. exists op, revision.
    destruct (effect_active He Ha) as [-> _]. by rewrite Hk.
Qed.

End capacity.
Arguments within_ceilings : clear implicits.

Section invariants.
Context {limits : Ceilings} {storable : RunOperation → Prop}.
Implicit Types (s : Shared).
Local Notation step := (atomic limits storable).

(** Where a row of the table after a step comes from. *)
Inductive origin (dead : gset string) T op' : Prop :=
  | origin_same revision : T.(t_rows) !! op'.(Op_ID) = Some (op', revision) → origin dead T op'
  | origin_planned op id now : fresh_operation op → op' = planned op id now → T.(t_rows) !! id = None → key_free op T → storable op' → origin dead T op'
  | origin_row me op revision : T.(t_rows) !! op'.(Op_ID) = Some (op, revision) → row_step me dead op op' → storable op' → origin dead T op'
  | origin_leased op revision now lease : T.(t_rows) !! op'.(Op_ID) = Some (op, revision) → op' = leased op lease → lease_due dead op now →
      (∀ id, id ∈ op.(Op_DependsOn) → dependency_met T id) →
      (∀ id other r, T.(t_rows) !! id = Some (other, r) → id ≠ op'.(Op_ID) → other.(Op_RunID) = op'.(Op_RunID) → is_active other = false) →
      storable op' → origin dead T op'.

Definition named T : Prop := ∀ id op revision, T.(t_rows) !! id = Some (op, revision) → op.(Op_ID) = id.

(** The rows change by the steps of rows only. *)
Inductive rows_step (dead : gset string) T T' : Prop :=
  | rows_same : T'.(t_rows) = T.(t_rows) → rows_step dead T T'
  | rows_put op revision : T' = put_row op revision T → origin dead T op → rows_step dead T T'.

Lemma atomic_rows s s' : step s s' → rows_step s.(s_dead) s.(s_table) s'.(s_table) ∧ s.(s_dead) ⊆ s'.(s_dead).
Proof.
  intros [T dead op id now ? ? ? ?|T dead me op revision op' ? ? ?|T dead op revision now lease mR mO mV ? ? ? [] ? ? ? ?|T dead claim mR mV ? ? ?
    |T dead id|T dead p ceiling T' Hp ?|T dead owner]; simpl; (split; [|set_solver]).
  - eapply rows_put; [done|]. by eapply origin_planned.
  - eapply rows_put; [done|]. by eapply origin_row.
  - eapply rows_put; [done|]. by eapply origin_leased.
  - by apply rows_same.
  - by apply rows_same.
  - apply rows_same. unfold permit_applies in Hp. repeat case_match; [by destruct Hp as [_ ->]|by subst..].
  - by apply rows_same.
Qed.

Lemma origin_step s s' id op' revision : step s s' → named s.(s_table) → s'.(s_table).(t_rows) !! id = Some (op', revision) →
  op'.(Op_ID) = id ∧ origin s.(s_dead) s.(s_table) op'.
Proof.
  intros [[Heq|op r -> Ho] _]%atomic_rows Hn Hl.
  - rewrite Heq in Hl. pose proof (Hn _ _ _ Hl) as <-. split; [done|]. by eapply origin_same.
  - apply put_row_lookup in Hl as [(-> & -> & ->)|[_ Hl]]; [done|]. pose proof (Hn _ _ _ Hl) as <-. split; [done|]. by eapply origin_same.
Qed.

Lemma named_step s s' : step s s' → named s.(s_table) → named s'.(s_table).
Proof. intros Hs Hn id op r Hl. by eapply origin_step. Qed.

Lemma reachable_named s : table_reachable limits storable s → named s.(s_table).
Proof.
  intros Hr. apply (rtc_ind_r (λ s, named s.(s_table)) empty_table) in Hr; [done|..].
  - intros id op r Hl. simpl in Hl. by rewrite lookup_empty in Hl.
  - intros s1 s2 _ Hs Hn. by eapply named_step.
Qed.

Lemma atomic_persists s s' id op revision : step s s' → named s.(s_table) → s.(s_table).(t_rows) !! id = Some (op, revision) →
  ∃ op' revision', s'.(s_table).(t_rows) !! id = Some (op', revision') ∧ persists op op' ∧ (revision <= revision')%Z.
Proof.
  intros Hstep Hn Hl. destruct Hstep as [T dead o i now ? Hfree ? ?|T dead me o r o' Ho Hr ?|T dead o r now lease mR mO mV Hd ? Ho ? ? ? ? ?|T dead claim mR mV ? ? ?
    |T dead i|T dead p ceiling T' Hp ?|T dead owner]; cbn [s_table s_dead] in *.
  - exists op, revision. split_and!; [|done|lia]. rewrite put_row_beside; [done|]. rewrite planned_id. intros ->. by rewrite Hl in Hfree.
  - destruct (decide (o'.(Op_ID) = id)) as [<-|Hne].
    + rewrite Ho in Hl. injection Hl as -> ->. exists o', (revision + 1)%Z. rewrite put_row_here. split_and!; [done|by eapply row_step_persists|lia].
    + exists op, revision. by rewrite put_row_beside.
  - destruct (decide (o.(Op_ID) = id)) as [<-|Hne].
    + rewrite Ho in Hl. injection Hl as -> ->. exists (leased op lease), (revision + 1)%Z.
      rewrite (put_row_here (leased op lease)). split_and!; [done|by eapply leased_persists|lia].
    + exists op, revision. by rewrite put_row_beside.
  - by exists op, revision.
  - by exists op, revision.
  - exists op, revision. split; [|done]. unfold permit_applies in Hp. repeat case_match; [by destruct Hp as [_ ->]|by subst..].
  - by exists op, revision.
Qed.

Lemma dependency_kept s s' id : step s s' → named s.(s_table) → dependency_met s.(s_table) id → dependency_met s'.(s_table) id.
Proof.
  intros Hstep Hn (dep & r & Hl & Hd). destruct (atomic_persists _ _ _ _ _ Hstep Hn Hl) as (dep' & r' & Hl' & [_ Hs _] & _).
  exists dep', r'. split; [done|]. rewrite Hs; auto.
Qed.

(** ** One active operation of a run *)

Definition one_active T : Prop := ∀ id1 id2 op1 op2 r1 r2, T.(t_rows) !! id1 = Some (op1, r1) → T.(t_rows) !! id2 = Some (op2, r2) →
  is_active op1 = true → is_active op2 = true → op1.(Op_RunID) = op2.(Op_RunID) → id1 = id2.

(** Where an active row comes from. *)
Lemma active_origin dead T op' : origin dead T op' → is_active op' = true →
  (∃ op r, T.(t_rows) !! op'.(Op_ID) = Some (op, r) ∧ is_active op = true ∧ constants op' = constants op)
  ∨ (∀ id other r, T.(t_rows) !! id = Some (other, r) → id ≠ op'.(Op_ID) → other.(Op_RunID) = op'.(Op_RunID) → is_active other = false).
Proof.
  intros [r Hl|op id now [] -> _ _ _|me op r Hl Hs _|op r now lease Hl -> _ _ Halone _] Ha.
  - left. by exists op', r.
  - apply is_active_iff in Ha as [Hsome _]. unfold planned in Hsome. simpl in Hsome.
    destruct (op.(Op_MaxAttempts) <=? 0)%Z; simpl in Hsome; rewrite fresh_lease0 in Hsome; by destruct Hsome.
  - left. apply row_step_effect in Hs as [He Hc]. destruct (effect_active He Ha). by exists op, r.
  - by right.
Qed.

Lemma one_active_step s s' : step s s' → named s.(s_table) → one_active s.(s_table) → one_active s'.(s_table).
Proof.
  intros [[Heq|op rev Hput Ho] _]%atomic_rows Hn Hone; [by unfold one_active; rewrite Heq|].
  assert (∀ id other r, s.(s_table).(t_rows) !! id = Some (other, r) → id ≠ op.(Op_ID) → is_active op = true → is_active other = true →
    other.(Op_RunID) = op.(Op_RunID) → False) as Hnew.
  { intros id other r Hl Hne Ha Ha' Hrun. destruct (active_origin _ _ _ Ho Ha) as [(old & r' & Hold & Haold & Hc)|Halone].
    - apply Hne. apply constants_run in Hc as (Hr & _). eapply Hone; [exact Hl|exact Hold|done..|congruence].
    - by rewrite (Halone _ _ _ Hl Hne Hrun) in Ha'. }
  intros id1 id2 op1 op2 r1 r2 H1 H2 A1 A2 Hrun. rewrite Hput in H1, H2.
  apply put_row_lookup in H1 as [(-> & -> & _)|[Hn1 H1]], H2 as [(-> & -> & _)|[Hn2 H2]]; [done|..].
  - exfalso. by eapply (Hnew id2).
  - exfalso. by eapply (Hnew id1).
  - by eapply (Hone id1 id2 op1 op2).
Qed.

(** ** Keys *)

Definition keys_unique T : Prop := ∀ id1 id2 op1 op2 r1 r2, T.(t_rows) !! id1 = Some (op1, r1) → T.(t_rows) !! id2 = Some (op2, r2) →
  op1.(Op_RunID) = op2.(Op_RunID) → op1.(Op_IdempotencyKey) = op2.(Op_IdempotencyKey) → id1 = id2.

Lemma keys_step s s' : step s s' → named s.(s_table) → keys_unique s.(s_table) → keys_unique s'.(s_table).
Proof.
  intros [[Heq|op rev Hput Ho] _]%atomic_rows Hn Hkeys; [by unfold keys_unique; rewrite Heq|].
  assert (∀ id other r, s.(s_table).(t_rows) !! id = Some (other, r) → id ≠ op.(Op_ID) → other.(Op_RunID) = op.(Op_RunID) →
    other.(Op_IdempotencyKey) = op.(Op_IdempotencyKey) → False) as Hnew.
  { intros id other r Hl Hne Hrun Hkey. destruct Ho as [r' Hold|o i now _ Heq _ Hfree _|me old r' Hold Hs _|old r' now lease Hold Heq _ _ _ _].
    - apply Hne. by eapply Hkeys.
    - destruct (planned_constants o i now) as (Hr & Hk & _). eapply (Hfree _ _ _ Hl). rewrite Heq in Hrun, Hkey. by rewrite <- Hr, <- Hk.
    - apply Hne. apply row_step_effect in Hs as [_ (Hr & _ & Hk & _)%constants_run]. eapply Hkeys; [exact Hl|exact Hold|congruence..].
    - apply Hne. rewrite Heq in Hrun, Hkey. by eapply Hkeys; [exact Hl|exact Hold|..]. }
  intros id1 id2 op1 op2 r1 r2 H1 H2 Hrun Hkey. rewrite Hput in H1, H2.
  apply put_row_lookup in H1 as [(-> & -> & _)|[Hn1 H1]], H2 as [(-> & -> & _)|[Hn2 H2]]; [done|..].
  - exfalso. by eapply (Hnew id2).
  - exfalso. by eapply (Hnew id1).
  - by eapply (Hkeys id1 id2 op1 op2).
Qed.

(** ** Dependencies *)

Definition dependencies_first T : Prop := ∀ id op revision, T.(t_rows) !! id = Some (op, revision) →
  held op ∨ op.(Op_State) = Succeeded → ∀ d, d ∈ op.(Op_DependsOn) → dependency_met T d.

Lemma dependencies_step s s' : step s s' → named s.(s_table) → dependencies_first s.(s_table) → dependencies_first s'.(s_table).
Proof.
  intros Hstep Hn Hdeps id op' r Hl Hh d Hd. eapply dependency_kept; [done..|]. destruct (origin_step _ _ _ _ _ Hstep Hn Hl) as [<- Ho].
  destruct Ho as [r' Hold|o i now Hf -> _ _ _|me old r' Hold Hs _|old r' now lease Hold -> _ Hmet _ _].
  - by eapply Hdeps.
  - destruct (planned_constants o i now) as (_ & _ & _ & Hp & _). unfold held in Hh. rewrite Hp in Hh. by destruct_or! Hh.
  - apply row_step_effect in Hs as [He (_ & _ & _ & Hdep & _)%constants_run]. rewrite Hdep in Hd. by eapply Hdeps; [|apply (effect_held He)|].
  - by apply Hmet.
Qed.

(** ** Attempts *)

Definition attempts_within op : Prop := (0 <= op.(Op_Attempt) <= op.(Op_MaxAttempts))%Z ∧ (op.(Op_State) = Leased → (op.(Op_Attempt) < op.(Op_MaxAttempts))%Z).
Definition all_rows (P : RunOperation → Prop) T : Prop := ∀ id op revision, T.(t_rows) !! id = Some (op, revision) → P op.

(** A property of rows is an invariant when planning establishes it and the
    steps of rows and the taking of a lease preserve it. *)
Lemma rows_invariant (P : RunOperation → Prop) :
  (∀ op id now, fresh_operation op → storable (planned op id now) → P (planned op id now)) →
  (∀ me dead op op', row_step me dead op op' → storable op' → P op → P op') →
  (∀ dead op now lease, lease_due dead op now → storable (leased op lease) → P op → P (leased op lease)) →
  ∀ s, table_reachable limits storable s → all_rows P s.(s_table).
Proof.
  intros Hplan Hrow Hlease s Hr. assert (named s.(s_table) ∧ all_rows P s.(s_table)) as [_ Hall]; [|done].
  apply (rtc_ind_r (λ s, named s.(s_table) ∧ all_rows P s.(s_table)) empty_table) in Hr; [done|..].
  - split; intros id op r Hl; simpl in Hl; by rewrite lookup_empty in Hl.
  - intros s1 s2 _ Hs [Hn Hall]. split; [by eapply named_step|]. intros id op' r Hl.
    destruct (origin_step _ _ _ _ _ Hs Hn Hl) as [_ [r' Hold|o i now Hf -> _ _ Hst|me old r' Hold Hst Hok|old r' now lease Hold -> Hd _ _ Hok]].
    + by eapply Hall.
    + by apply Hplan.
    + eapply Hrow; [done..|]. by eapply Hall.
    + eapply Hlease; [done..|]. by eapply Hall.
Qed.

(** ** Capacity is kept *)

Lemma within_step s s' : step s s' → within_ceilings limits s.(s_table) → within_ceilings limits s'.(s_table).
Proof.
  intros [T dead o i now Hf ? ? ?|T dead me o r o' Ho Hr ?|T dead o r now lease mR mO mV Hd ? Ho Ha ? ? ? ?|T dead claim mR mV ? ? ?
    |T dead i|T dead p ceiling T' Hp ?|T dead owner] Hw; cbn [s_table] in *.
  - destruct (planned_constants o i now) as (_ & _ & _ & _ & Hl & _). rewrite (fresh_lease _ Hf) in Hl.
    eapply within_smaller; try done.
    + intros class. apply runs_where_kept. unfold class_holder, is_active. by rewrite Hl.
    + apply runs_where_kept. unfold holdsVerificationSlot, is_active. by rewrite Hl.
  - by eapply row_within.
  - by eapply acquire_within.
  - by eapply claim_within.
  - by apply unclaim_within.
  - by eapply permit_within.
  - done.
Qed.

Lemma reachable_within s : (0 <= limits.(ceiling_work))%Z → (0 <= limits.(ceiling_observation))%Z → (0 <= limits.(ceiling_verification))%Z →
  table_reachable limits storable s → within_ceilings limits s.(s_table).
Proof.
  intros Lw Lo Lv Hr. apply (rtc_ind_r (λ s, within_ceilings limits s.(s_table)) empty_table) in Hr; [done| |].
  - by split.
  - intros s1 s2 _ Hs. by apply within_step.
Qed.

Lemma reachable_structure s : table_reachable limits storable s → one_active s.(s_table) ∧ keys_unique s.(s_table) ∧ dependencies_first s.(s_table).
Proof.
  intros Hr. assert (named s.(s_table) ∧ one_active s.(s_table) ∧ keys_unique s.(s_table) ∧ dependencies_first s.(s_table)) as [_ Hall]; [|done].
  apply (rtc_ind_r (λ s, named s.(s_table) ∧ one_active s.(s_table) ∧ keys_unique s.(s_table) ∧ dependencies_first s.(s_table)) empty_table) in Hr; [done| |].
  - split_and!; intros ?; intros; simplify_eq/=; rewrite lookup_empty in *; done.
  - intros s1 s2 _ Hs (Hn & Ho & Hk & Hd). split_and!; [by eapply named_step|by eapply one_active_step|by eapply keys_step|by eapply dependencies_step].
Qed.
End invariants.

(* ------------------------------------------------------------------ *)
(** * Attempts and budgets *)

(** What a row has spent, and what bounds the attempt it is running. *)
Definition spending op := (op.(Op_ConsumedExecution), op.(Op_LastAttemptExecution), op.(Op_ActiveSince), op.(Op_Deadline)).

(** The deadline of an attempt leaves what was spent within the budget. *)
Definition deadline_within op : Prop := ∀ since deadline, op.(Op_ActiveSince) = Some since → op.(Op_Deadline) = Some deadline → (0 < op.(Op_WallBudget))%Z →
  (deadline <= since + Z.max 0 (op.(Op_WallBudget) - op.(Op_ConsumedExecution)))%Z.

Record counters_ok op : Prop := {
  counters_safe : safe_counters op;
  counters_attempts : attempts_within op;
  counters_identity : (0 <= op.(Op_AttemptIdentity))%Z;
  counters_last : (0 <= op.(Op_LastAttemptExecution) <= op.(Op_ConsumedExecution))%Z;
  counters_deadline : deadline_within op
}.

Lemma wrap64_difference a b : safe_range a → safe_range b → wrap64 (a - b) = (a - b)%Z.
Proof. unfold safe_range, maxSafeInteger, wrap64. intros. rewrite Z.mod_small by lia. lia. Qed.
Lemma wrap64_bounds z : (- 2 ^ 63 <= wrap64 z < 2 ^ 63)%Z.
Proof. unfold wrap64. pose proof (Z.mod_pos_bound (z + 2 ^ 63) (2 ^ 64) ltac:(lia)). lia. Qed.

(** A charge that could be stored did not wrap around. *)
Lemma charge_exact consumed spent : (0 <= consumed)%Z → safe_range consumed → (0 <= spent < 2 ^ 63)%Z → safe_range (wrap64 (consumed + spent)) →
  wrap64 (consumed + spent) = (consumed + spent)%Z.
Proof. intros H0 Hc Hs Hw. unfold safe_range in Hc. by destruct (wrap64_safe consumed spent ltac:(lia) Hs Hw). Qed.

Lemma settle_spending op ended wait since : op.(Op_ActiveSince) = Some since →
  let spent := Z.max 0 (wrap64 (Sub ended since - wait)) in
  (settle op ended wait).(Op_ConsumedExecution) = wrap64 (op.(Op_ConsumedExecution) + spent)
  ∧ (settle op ended wait).(Op_LastAttemptExecution) = spent ∧ (settle op ended wait).(Op_ActiveSince) = None.
Proof. intros Ha spent. unfold settle. by rewrite Ha. Qed.

Lemma settle_idle op ended wait : op.(Op_ActiveSince) = None → settle op ended wait = op.
Proof. unfold settle. by intros ->. Qed.

Lemma charge_orphan_spending op now waiting :
  (charge_orphan op now waiting).(Op_ConsumedExecution) = op.(Op_ConsumedExecution) ∧ (charge_orphan op now waiting).(Op_LastAttemptExecution) = op.(Op_LastAttemptExecution)
  ∨ ∃ orphaned, (0 < orphaned < 2 ^ 63)%Z ∧ (charge_orphan op now waiting).(Op_ConsumedExecution) = wrap64 (op.(Op_ConsumedExecution) + orphaned)
      ∧ (charge_orphan op now waiting).(Op_LastAttemptExecution) = orphaned.
Proof.
  unfold charge_orphan. destruct op.(Op_ActiveSince) as [since|]; [|by left]. destruct (Z.ltb_spec 0 (wrap64 (Sub now since - waiting))); [|by left].
  right. exists (wrap64 (Sub now since - waiting)). pose proof (wrap64_bounds (Sub now since - waiting)). split_and!; [lia..|done|done].
Qed.

Lemma started_spending limit op now waiting : let charged := charge_orphan (begin_attempt op now) now waiting in
  (started limit op now waiting).(Op_ConsumedExecution) = charged.(Op_ConsumedExecution)
  ∧ (started limit op now waiting).(Op_LastAttemptExecution) = charged.(Op_LastAttemptExecution)
  ∧ (started limit op now waiting).(Op_ActiveSince) = Some now
  ∧ ((0 < op.(Op_WallBudget))%Z → ∃ deadline, (started limit op now waiting).(Op_Deadline) = Some deadline
      ∧ (deadline <= now + Z.max 0 (wrap64 (op.(Op_WallBudget) - charged.(Op_ConsumedExecution))))%Z).
Proof.
  intros charged. unfold started. fold charged.
  set (active := set_active (Some now) (begin_progress (bool_decide (is_Some op.(Op_ActiveSince))) charged now)).
  assert (active.(Op_ConsumedExecution) = charged.(Op_ConsumedExecution) ∧ active.(Op_LastAttemptExecution) = charged.(Op_LastAttemptExecution)
    ∧ active.(Op_WallBudget) = op.(Op_WallBudget) ∧ active.(Op_ActiveSince) = Some now) as (Hc & Hl & Hw & Ha).
  { subst active charged. unfold begin_progress, charge_orphan. simpl. by row_cases. }
  clearbody active. unfold budget_deadline, limit_deadline. rewrite Hw, Hc.
  destruct (Z.ltb_spec 0 op.(Op_WallBudget)); destruct limit as [limit|]; simpl; repeat case_match; simpl; split_and!; try done; try lia; intros _;
    eexists; (split; [done|]); simpl in *; simplify_eq; lia.
Qed.

Section counters.
Context {limits : Ceilings} {storable : RunOperation → Prop}.
Hypothesis storable_counters : ∀ op, storable op → safe_counters op.

Lemma started_counters limit op now waiting : op.(Op_State) = Leased → storable (started limit op now waiting) → counters_ok op →
  counters_ok (started limit op now waiting) ∧ (op.(Op_AttemptIdentity) < (started limit op now waiting).(Op_AttemptIdentity))%Z.
Proof using storable_counters.
  intros Hs Hst [Hsafe [Hatt Hleased] Hid Hlast Hdead]. pose proof (storable_counters _ Hst) as Hsafe'.
  pose proof (started_frame limit op now waiting) as (Hc & Hs' & _ & _ & Ha' & Hi')%frame_inv.
  apply constants_run in Hc as (_ & _ & _ & _ & Hm' & Hw'). destruct (started_spending limit op now waiting) as (Hcon & Hla & Hac & Hdl).
  assert ((started limit op now waiting).(Op_Attempt) = op.(Op_Attempt) + 1)%Z as Hatt'.
  { rewrite Ha'. apply wrap64_small. destruct Hsafe as (_ & _ & Hm & _). unfold safe_range in Hm. specialize (Hleased Hs). lia. }
  assert ((started limit op now waiting).(Op_AttemptIdentity) = op.(Op_AttemptIdentity) + 1)%Z as Hid'.
  { rewrite Hi'. apply charge_exact; [done|apply Hsafe|lia|]. rewrite <- Hi'. apply Hsafe'. }
  split; [|lia]. specialize (Hleased Hs). split; [done|split; [lia|by rewrite Hs']|lia| |].
  - rewrite Hcon, Hla. destruct (charge_orphan_spending (begin_attempt op now) now waiting) as [[-> ->]|(orphaned & Ho & Hc1 & ->)]; [done|].
    rewrite Hc1. simpl in *. rewrite charge_exact; [lia|lia|apply Hsafe|lia|]. rewrite <- Hc1, <- Hcon. apply Hsafe'.
  - intros since deadline Hsince Hdeadline Hwall. rewrite Hac in Hsince. injection Hsince as <-. rewrite Hw' in *.
    destruct (Hdl Hwall) as (d & Hd & Hle). rewrite Hdeadline in Hd. injection Hd as <-. rewrite wrap64_difference, <- Hcon in Hle; [done|apply Hsafe|].
    rewrite <- Hcon. apply Hsafe'.
Qed.

Lemma finished_counters state retryAt disposition op ended wait : terminal_state state → storable (finished state retryAt disposition op ended wait) →
  counters_ok op → counters_ok (finished state retryAt disposition op ended wait).
Proof using storable_counters.
  intros Ht Hst [Hsafe [Hatt Hleased] Hid Hlast Hdead]. pose proof (storable_counters _ Hst) as Hsafe'.
  pose proof (finished_frame state retryAt disposition op ended wait) as (Hc & Hs' & _ & _ & Ha' & Hi')%frame_inv.
  apply constants_run in Hc as (_ & _ & _ & _ & Hm' & Hw').
  split; [done|split; [by rewrite Ha', Hm'|rewrite Hs'; intros ->; unfold terminal_state in Ht; by rewrite !elem_of_cons, elem_of_nil in Ht; destruct_or! Ht]|by rewrite Hi'| |].
  - set (op1 := set_lease None (set_retry retryAt disposition (set_state state op))).
    change ((0 <= (settle op1 ended wait).(Op_LastAttemptExecution) <= (settle op1 ended wait).(Op_ConsumedExecution))%Z).
    assert (safe_range (settle op1 ended wait).(Op_ConsumedExecution)) as Hcs by apply Hsafe'.
    destruct op.(Op_ActiveSince) as [since|] eqn:Ha; [|by rewrite settle_idle].
    destruct (settle_spending op1 ended wait since Ha) as (Hc1 & -> & _). pose proof (wrap64_bounds (Sub ended since - wait)).
    rewrite Hc1 in Hcs |- *. simpl in Hcs |- *. destruct Hsafe as (_ & _ & _ & _ & Hsc & _).
    rewrite (charge_exact op.(Op_ConsumedExecution) (Z.max 0 (wrap64 (Sub ended since - wait))) ltac:(lia) Hsc ltac:(lia) Hcs). lia.
  - intros since deadline _ Hd. done.
Qed.

Lemma restored_counters refund op : op.(Op_State) = OperationFailed → counters_ok op → storable (restored refund op) → counters_ok (restored refund op).
Proof using storable_counters.
  intros Hf [Hsafe [Hatt Hleased] Hid Hlast Hdead] Hst. pose proof (restored_frame refund op) as (Hc & Hs' & _ & _ & Ha' & Hi')%frame_inv.
  apply constants_run in Hc as (_ & _ & _ & _ & Hm' & Hw').
  split; [by apply storable_counters|split; [rewrite Ha', Hm'; destruct (Z.ltb_spec 0 op.(Op_Attempt)); lia|by rewrite Hs', Hf]|by rewrite Hi'| |].
  - unfold restored. destruct (0 <? op.(Op_Attempt))%Z, refund; simpl; lia.
  - intros since deadline _ Hd. unfold restored in Hd. by destruct (0 <? op.(Op_Attempt))%Z, refund.
Qed.

(** Every other change leaves what was spent alone. *)
Lemma kept_counters op op' : counters_ok op → safe_counters op' → constants op' = constants op → spending op' = spending op →
  op'.(Op_Attempt) = op.(Op_Attempt) → (op'.(Op_State) = Leased → op.(Op_State) = Leased) → (0 <= op'.(Op_AttemptIdentity))%Z → counters_ok op'.
Proof.
  intros [Hsafe [Hatt Hleased] Hid Hlast Hdead] Hsafe' (_ & _ & _ & _ & Hm & Hw)%constants_run [= Hc Hl Ha Hd] Hat Hst Hid'.
  split; [done|split; [by rewrite Hat, Hm|intros; rewrite Hat, Hm; auto]|done|by rewrite Hc, Hl|].
  unfold deadline_within. rewrite Ha, Hd, Hw, Hc. exact Hdead.
Qed.

Lemma row_step_counters me dead op op' : row_step me dead op op' → storable op' → counters_ok op → counters_ok op'.
Proof using storable_counters.
  intros Hstep Hst Hok. pose proof (row_step_effect _ _ _ _ Hstep) as [He Hc]. pose proof (counters_identity _ Hok) as Hid.
  destruct Hstep as [limit now waiting Hs _|now d _|owner now attempt p|state r d ended w Ht Hh|i|refund Hf| |now _ _ _|now owner _ _ _|_|grant _ _];
    [by apply started_counters| | |by apply finished_counters| |by apply restored_counters|..];
    (eapply kept_counters; [exact Hok|by apply storable_counters|exact Hc|..]).
  all: try done.
  - unfold renewed. by destruct op.(Op_Lease).
  - apply renewed_frame.
  - destruct (renewed_frame op now d) as (_ & -> & _). done.
  - destruct (renewed_frame op now d) as (_ & _ & _ & _ & _ & ->). done.
  - unfold progressed. row_cases.
  - pose proof (progressed_frame owner op now attempt p) as (_ & _ & _ & _ & Hx & _)%frame_inv; exact Hx.
  - pose proof (progressed_frame owner op now attempt p) as (_ & Hx & _)%frame_inv; by rewrite Hx.
  - pose proof (progressed_frame owner op now attempt p) as (_ & _ & _ & _ & _ & Hx)%frame_inv; by rewrite Hx.
  - unfold reserved. by destruct (_ <? _)%Z.
  - pose proof (reserved_frame op i) as (_ & _ & _ & _ & Hx & _)%frame_inv; exact Hx.
  - pose proof (reserved_frame op i) as (_ & Hx & _)%frame_inv; by rewrite Hx.
  - pose proof (reserved_frame op i) as (_ & _ & _ & _ & _ & Hx)%frame_inv. rewrite Hx. lia.
Qed.

Lemma reachable_counters s : table_reachable limits storable s → all_rows counters_ok s.(s_table).
Proof using storable_counters.
  apply rows_invariant.
  - intros op id now Hf Hst. destruct (planned_constants op id now) as (_ & _ & _ & Hs & _ & Ha & Hi & Hact & Hc & Hl & Hm). destruct Hf as [F1 F2 F3 F4 F5 F6].
    split; [by apply storable_counters|split; [lia|by rewrite Hs]|lia|rewrite Hc, Hl, F3, F4; lia|].
    intros since d Hsince. by rewrite Hact, F6 in Hsince.
  - intros me dead op op' Hr Hst Hok. by eapply row_step_counters.
  - intros dead op now lease [Hat _ _ _ _] Hst Hok. pose proof Hok as [Hsafe [Hatt _] Hid Hlast Hdead].
    split; [by apply storable_counters|split; [done|intros _; done]|done..].
Qed.
End counters.
