(* ===== verification/SchedulerFacts.v ===== *)
(** Drivers of several processes run the methods of the scheduler at once,
    each a program of atomic calls on one store.  However they are interleaved,
    the table the store presents goes through steps of [OperationTable] only.

    The argument is rely-guarantee.  What a driver has read it knows for good:
    that a row held an operation at a revision, that an owner is dead.  A
    program is [safe] when every write it makes is justified by what it knows,
    and a write that succeeds met the row at the very revision it was justified
    for. *)

From S2P Require Import Prelude GoStrings Json Domain Canonical GoTime Plan Events Operation Permit Scheduler OperationStore OperationStoreFacts OperationTable.
From stdpp Require Import options.

(* ------------------------------------------------------------------ *)
(** * What a driver knows *)

Record Knowledge := MkKnowledge {
  k_past : gmap (string * Z) RunOperation;
  k_dead : gset string
}.
Definition knows_more (K K' : Knowledge) : Prop := K.(k_past) ⊆ K'.(k_past) ∧ K.(k_dead) ⊆ K'.(k_dead).
#[export] Instance knows_more_preorder : PreOrder knows_more.
Proof.
  split; [done|]. intros K1 K2 K3 [H1 D1] [H2 D2]. split; by etrans.
Qed.

(** A row that was read: its name, its contents and a revision of its own. *)
Definition seen (K : Knowledge) (id : string) (op : RunOperation) (revision : Z) : Prop :=
  op.(Op_ID) = id ∧ (0 < revision)%Z ∧ K.(k_past) !! (id, revision) = Some op.
Definition seen_some (K : Knowledge) (op : RunOperation) : Prop := ∃ revision, seen K op.(Op_ID) op revision.

Lemma seen_mono K K' id op revision : knows_more K K' → seen K id op revision → seen K' id op revision.
Proof. intros [Hp _] (Hid & Hr & Hl). split_and!; [done..|]. by eapply lookup_weaken. Qed.
Lemma seen_some_mono K K' op : knows_more K K' → seen_some K op → seen_some K' op.
Proof. intros HK [r Hs]. exists r. by eapply seen_mono. Qed.

Lemma row_step_mono me dead dead' op op' : dead ⊆ dead' → row_step me dead op op' → row_step me dead' op op'.
Proof.
  intros Hsub [ | | | | | | |now Hd Hc He|now owner Hl Ho Hc| |grant Hg Hl]; try (by econstructor).
  - apply (row_retire _ _ _ now); auto.
  - by apply (row_reclaim _ _ _ now owner); auto.
Qed.

Section safety.
Variables (limits : Ceilings) (me : string).

(** What justifies a call. *)
Definition call_pre (K : Knowledge) (c : action) : Prop :=
  match c with
  | PutOperation op expected =>
      (expected = 0%Z ∧ ∃ o id now, fresh_operation o ∧ op = planned o id now)
      ∨ (∃ old, seen K op.(Op_ID) old expected ∧ row_step me K.(k_dead) old op)
  | AcquireOperation op expected maxRuns maxObservations maxVerifications =>
      (∃ old now lease, seen K old.(Op_ID) old expected ∧ op = leased old lease ∧ lease_due K.(k_dead) old now
         ∧ ∀ d, d ∈ old.(Op_DependsOn) → ∃ dep r, seen K d dep r ∧ dep.(Op_State) = Succeeded)
      ∧ (maxRuns <= limits.(ceiling_work))%Z ∧ (maxObservations <= limits.(ceiling_observation))%Z ∧ (maxVerifications <= limits.(ceiling_verification))%Z
  | TransitionVerificationPermit _ _ ceiling => (ceiling <= limits.(ceiling_verification))%Z
  | ClaimReviewVerificationSlot _ maxRuns maxVerifications => (maxRuns <= limits.(ceiling_work))%Z ∧ (maxVerifications <= limits.(ceiling_verification))%Z
  | _ => True
  end.

(** What an answer teaches. *)
Definition call_post (K : Knowledge) (c : action) : answer c → Prop :=
  match c with
  | Alive owner => λ alive, alive = false → owner ∈ K.(k_dead)
  | Operations _ | AllOperations => λ r, ∀ l, r = Ok l → ∀ op, op ∈ l → seen_some K op
  | ReadOperation id => λ r, ∀ op revision, r = Ok (Some (op, revision)) → seen K id op revision
  | _ => λ _, True
  end.

Fixpoint safe {A} (K : Knowledge) (p : prog A) (Q : Knowledge → A → Prop) : Prop :=
  match p with
  | Ret a => ∀ K', knows_more K K' → Q K' a
  | Act c k => ∀ K', knows_more K K' → call_pre K' c ∧ ∀ K'' r, knows_more K' K'' → call_post K'' c r → safe K'' (k r) Q
  end.

Lemma safe_mono {A} K K' (p : prog A) Q : knows_more K K' → safe K p Q → safe K' p Q.
Proof. destruct p; simpl; intros HK Hs K2 HK2; apply Hs; by etrans. Qed.

Lemma safe_bind {A B} K (p : prog A) (k : A → prog B) Q : safe K p (λ K' a, safe K' (k a) Q) → safe K (pbind p k) Q.
Proof.
  revert K. induction p as [a|c f IH]; simpl; intros K Hs.
  - apply (Hs K). done.
  - intros K' HK. destruct (Hs K' HK) as [Hpre Hk]. split; [done|]. intros K'' r HK'' Hpost. by apply IH, Hk.
Qed.

Lemma safe_imp {A} K (p : prog A) (Q Q' : Knowledge → A → Prop) : safe K p Q → (∀ K' a, knows_more K K' → Q K' a → Q' K' a) → safe K p Q'.
Proof.
  revert K. induction p as [a|c f IH]; simpl; intros K Hs HQ.
  - intros K' HK. by apply HQ, Hs.
  - intros K' HK. destruct (Hs K' HK) as [Hpre Hk]. split; [done|]. intros K'' r HK'' Hpost. apply IH; [by apply (Hk K'')|].
    intros K3 a HK3. apply HQ. by do 2 (etrans; [done|]).
Qed.

End safety.

#[global] Arguments safe : simpl never.

(* ------------------------------------------------------------------ *)
(** * The methods *)

Lemma step_id me dead op op' : row_step me dead op op' → op'.(Op_ID) = op.(Op_ID).
Proof. intros [_ Hc]%row_step_effect. exact (f_equal (λ c, c.1.1.1.1.1.1) Hc). Qed.

Section methods.
Context {limits : Ceilings} {me : string}.
Local Notation safe := (safe limits me).
Local Notation harmless K p := (safe K p (λ _ _, True)).

Lemma safe_act {A} K c (k : answer c → prog A) Q : (∀ K', knows_more K K' → call_pre limits me K' c) →
  (∀ K' r, knows_more K K' → call_post K' c r → safe K' (k r) Q) → safe K (Act c k) Q.
Proof. intros Hpre Hk K' HK. split; [by apply Hpre|]. intros K'' r HK'' Hpost. apply Hk; [by etrans|done]. Qed.

Lemma safe_ret {A} K (a : A) (Q : Knowledge → A → Prop) : (∀ K', knows_more K K' → Q K' a) → safe K (Ret a) Q.
Proof. done. Qed.
Lemma harmless_ret {A} K (a : A) : harmless K (Ret a).
Proof. done. Qed.

Lemma safe_then {A B} K (p : prog (result SchedulerError A)) (k : A → prog (result SchedulerError B)) Q :
  safe K p (λ K' r, match r with Ok a => safe K' (k a) Q | Err e => ∀ K'', knows_more K' K'' → Q K'' (Err e) end) → safe K (rpbind p k) Q.
Proof. intros Hs. apply safe_bind. eapply safe_imp; [exact Hs|]. by intros K' [a|e] _ Ha. Qed.

Lemma harmless_then {A B} K (p : prog (result SchedulerError A)) (k : A → prog (result SchedulerError B)) :
  harmless K p → (∀ K' a, knows_more K K' → harmless K' (k a)) → harmless K (rpbind p k).
Proof. intros Hp Hk. apply safe_then. eapply safe_imp; [exact Hp|]. intros K' [a|e] HK _; [by apply Hk|done]. Qed.

Lemma harmless_bind {A B} K (p : prog A) (k : A → prog B) : harmless K p → (∀ K' a, knows_more K K' → harmless K' (k a)) → harmless K (pbind p k).
Proof. intros Hp Hk. apply safe_bind. eapply safe_imp; [exact Hp|]. intros K' a HK _. by apply Hk. Qed.

Lemma harmless_each {A} (f : A → prog (result SchedulerError ())) K l : (∀ K' x, knows_more K K' → x ∈ l → harmless K' (f x)) → harmless K (each f l).
Proof.
  revert K. induction l as [|x l IH]; intros K Hf; [done|]. apply harmless_then; [apply Hf; [done|by left]|].
  intros K' [] HK. apply IH. intros K'' y HK'' Hy. apply Hf; [by etrans|by right].
Qed.

(** A refusal stops the method. *)
Lemma safe_refuse {B} K b e (k : () → prog (result SchedulerError B)) Q :
  (b = true → ∀ K', knows_more K K' → Q K' (Err e)) → (b = false → safe K (k tt) Q) → safe K (rpbind (refuse_when b e) k) Q.
Proof. intros Ht Hf. destruct b; [by apply safe_ret, Ht|by apply Hf]. Qed.
Lemma harmless_refuse {B} K b e (k : () → prog (result SchedulerError B)) : (b = false → harmless K (k tt)) → harmless K (rpbind (refuse_when b e) k).
Proof. intros Hf. by apply safe_refuse. Qed.

(** ** Rows *)

Definition justified (op : RunOperation) (K : Knowledge) (r : result SchedulerError RunOperation) : Prop :=
  ∀ op', r = Ok op' → row_step me K.(k_dead) op op'.

Lemma seen_put K id op revision op' : seen K id op revision → row_step me K.(k_dead) op op' → call_pre limits me K (PutOperation op' revision).
Proof. intros Hs Hr. right. exists op. rewrite (step_id _ _ _ _ Hr). destruct Hs as (<- & Hp & Hl). by split_and!. Qed.

Lemma safe_put K id op revision op' : seen K id op revision → row_step me K.(k_dead) op op' →
  ∀ K', knows_more K K' → call_pre limits me K' (PutOperation op' revision).
Proof. intros Hs Hr K' HK. eapply seen_put; [by eapply seen_mono|]. eapply row_step_mono; [apply HK|done]. Qed.

Lemma transition_safe K id change :
  (∀ K' op now revision, knows_more K K' → seen K' id op revision → safe K' (change op now) (justified op)) → harmless K (transition id change).
Proof.
  unfold transition. generalize transitionAttempts as n. intros n. revert K. induction n as [|n IH]; intros K Hc; [done|].
  apply safe_act; [done|]. intros K1 [[[op revision]|]|e] HK1 Hpost; simpl; [|done|done].
  apply safe_act; [done|]. intros K2 now HK2 _. simpl.
  assert (seen K2 id op revision) as Hs by (eapply seen_mono; [done|by apply Hpost]).
  apply safe_then. eapply safe_imp; [apply (Hc K2 op now revision); [by etrans|done]|]. intros K3 [op'|e] HK3 Hj; [|done]. simpl.
  specialize (Hj op' eq_refl). apply safe_act.
  - eapply safe_put; [by eapply seen_mono|done].
  - intros K4 [[r w]|e] HK4 _; simpl; [|done]. destruct w; [done|]. apply IH. intros K5 op5 now5 r5 HK5.
    apply Hc. etrans; [exact HK1|]. etrans; [exact HK2|]. etrans; [exact HK3|]. etrans; [exact HK4|done].
Qed.

Lemma wait_safe K s op until : harmless K (operationVerificationWait s op until).
Proof.
  unfold operationVerificationWait. destruct s.(Scheduler_Permits), op.(Op_ActiveSince); try done.
  apply safe_act; [done|]. by intros K1 [l|e] _ _.
Qed.

Lemma justify_wait K s op until (f : Z → RunOperation) : (∀ w K', knows_more K K' → row_step me K'.(k_dead) op (f w)) →
  safe K (let! w := operationVerificationWait s op until in done_with (f w)) (justified op).
Proof.
  intros Hf. apply safe_then. eapply safe_imp; [apply wait_safe|]. intros K' [w|e] HK _; [|done].
  intros K'' HK'' op' [= <-]. apply Hf. by etrans.
Qed.
Lemma justify_done K op op' : row_step me K.(k_dead) op op' → safe K (done_with op') (justified op).
Proof. intros Hr K' HK x [= <-]. eapply row_step_mono; [apply HK|done]. Qed.

Lemma owner_check (x : option string) y : (x ≠? Some y) = false → x = Some y.
Proof. intros H. by apply negb_false_iff, bool_decide_eq_true in H. Qed.
Lemma state_check (x y : string) : (x ≠? y) = false → x = y.
Proof. intros H. by apply negb_false_iff, bool_decide_eq_true in H. Qed.

Lemma StartWithin_safe K s id limit : s.(Scheduler_Owner) = me → harmless K (StartWithin s id limit).
Proof.
  intros Hme. apply transition_safe. intros K' op now revision HK Hs. unfold start_change. apply safe_refuse; [done|].
  intros [Hst%state_check Ho%owner_check]%orb_false_iff. rewrite Hme in Ho. apply justify_wait. intros w K'' _. by apply row_start.
Qed.

Lemma Heartbeat_safe K s id : s.(Scheduler_Owner) = me → harmless K (Heartbeat s id).
Proof.
  intros Hme. apply transition_safe. intros K' op now revision HK Hs. unfold heartbeat_change. apply safe_refuse; [done|].
  intros Ho%owner_check. rewrite Hme in Ho. apply justify_done. by apply row_renew.
Qed.

Lemma RecordProviderProgress_safe K s id attempt progress : harmless K (RecordProviderProgress s id attempt progress).
Proof. apply transition_safe. intros K' op now revision HK Hs. apply justify_done, row_progress. Qed.

Lemma held_check op : (op.(Op_State) ≠? Leased) && (op.(Op_State) ≠? Running) = false → held op.
Proof. intros [H%state_check|H%state_check]%andb_false_iff; [by left|by right]. Qed.

Lemma finishAt_safe K s id state retryAt disposition endedAt : harmless K (finishAt s id state retryAt disposition endedAt).
Proof.
  unfold finishAt. destruct (_ ∋? state) eqn:Ht; [|done]. apply transition_safe. intros K' op now revision HK Hs. unfold finish_change.
  apply safe_refuse; [done|]. intros Hh%held_check. apply justify_wait. intros w K'' _. apply row_finish; [|done].
  by apply bool_decide_eq_true in Ht.
Qed.

Lemma ReserveAttemptIdentity_safe K id identity : harmless K (ReserveAttemptIdentity id identity).
Proof. apply transition_safe. intros K' op now revision HK Hs. apply justify_done, row_reserve. Qed.
Lemma RequestCancel_safe K id : harmless K (RequestCancel id).
Proof. apply transition_safe. intros K' op now revision HK Hs. apply justify_done, row_cancel. Qed.
Lemma RestoreAttempt_safe K id refund : harmless K (RestoreAttempt id refund).
Proof.
  apply transition_safe. intros K' op now revision HK Hs. unfold restore_change. apply safe_refuse; [done|]. intros Hf%state_check.
  by apply justify_done, row_restore.
Qed.
Lemma Reconcile_safe K s op reconciler : harmless K (Reconcile s op reconciler).
Proof. unfold Reconcile. destruct reconciler as [[state|e]|]; apply finishAt_safe. Qed.

Lemma plan_safe K s op : fresh_operation op → harmless K (plan_operation s op).
Proof.
  intros Hf. unfold plan_operation. apply harmless_refuse. intros _. apply safe_act; [done|]. intros K1 [[prior|]|e] _ _; simpl; [done| |done].
  apply safe_act; [done|]. intros K2 now _ _. simpl. apply safe_act; [intros; left; split; [done|]; eauto|].
  intros K3 [[r w]|e] _ _; simpl; [|done]. destruct w; simpl; [done|]. apply safe_act; [done|]. by intros K4 [[prior|]|e] _ _.
Qed.

(** ** Leases *)

Lemma quiet_harmless {A} K c (k : answer c → prog A) : (∀ K', knows_more K K' → call_pre limits me K' c) →
  (∀ K' r, knows_more K K' → harmless K' (k r)) → harmless K (Act c k).
Proof. intros Hpre Hk. apply safe_act; [done|]. intros K' r HK _. by apply Hk. Qed.

Lemma issue_safe K s : harmless K (issue s).
Proof. unfold issue. by destruct s.(Scheduler_Drivers); apply quiet_harmless. Qed.
Lemma release_grant_safe K s grant : harmless K (release_grant s grant).
Proof. unfold release_grant. destruct s.(Scheduler_Drivers); [by apply quiet_harmless|done]. Qed.

Lemma stranded_safe K s op : s.(Scheduler_Owner) = me → safe K (stranded s op) (λ K' b, b = true → lease_owner op = Some me).
Proof.
  intros Hme. unfold stranded, lease_owner. destruct op.(Op_Lease) as [lease|]; [|done].
  destruct (_ || _) eqn:Hb; [done|]. apply orb_false_iff in Hb as [Ho%state_check _]. unfold grant_abandoned.
  destruct s.(Scheduler_Drivers); [|done]. apply safe_act; [done|]. intros K1 b _ _. apply safe_ret. intros K2 _ _. simpl. by rewrite Ho, Hme.
Qed.

Lemma alive_dead K lease alive K' : call_post K (Alive lease.(Lease_Owner)) alive → knows_more K K' → alive = false → lease.(Lease_Owner) ∈ K'.(k_dead).
Proof. intros Hpost [_ HK] Hd. apply HK. by apply Hpost. Qed.

Lemma is_abandoned_safe K s now op : s.(Scheduler_Owner) = me →
  safe K (is_abandoned s now op) (λ K' b, b = true → row_step me K'.(k_dead) op (released op)).
Proof.
  intros Hme. unfold is_abandoned. destruct op.(Op_Lease) as [lease|] eqn:Hl; [|done].
  apply safe_act; [done|]. intros K1 alive HK1 Hpost. simpl. destruct (CanAcquire op now alive) eqn:Hc.
  - apply safe_ret. intros K2 HK2 _. destruct (CanAcquire_owner _ _ _ Hc) as [Hc' Hd]. apply (row_reclaim _ _ _ now lease.(Lease_Owner)); [|by eapply alive_dead, Hd|done].
    unfold lease_owner. by rewrite Hl.
  - eapply safe_imp; [by apply stranded_safe|]. intros K2 b _ Hs Hb. by apply row_let_go, Hs.
Qed.

Lemma Relinquish_safe K s id granted : harmless K (Relinquish s id granted).
Proof.
  unfold Relinquish. apply harmless_bind.
  - apply safe_act; [done|]. intros K1 [[[op revision]|]|e] HK1 Hpost; simpl; [|done|done].
    destruct (_ || _) eqn:Hb; [done|]. apply orb_false_iff in Hb as [[Hg Hgr%owner_check]%orb_false_iff _].
    apply bool_decide_eq_false in Hg. specialize (Hpost _ _ eq_refl). apply safe_act.
    + eapply safe_put; [done|]. by eapply row_hand_back.
    + by intros K2 [w|e] _ _.
  - intros K1 r _. apply harmless_bind; [apply release_grant_safe|done].
Qed.

Lemma reclaimAbandoned_safe K s candidate now : s.(Scheduler_Owner) = me → harmless K (reclaimAbandoned s candidate now).
Proof.
  intros Hme. unfold reclaimAbandoned. apply safe_bind. eapply safe_imp; [by apply is_abandoned_safe|]. intros K1 [] HK1 _; [|done]. simpl.
  apply safe_act; [done|]. intros K2 [[[op revision]|]|e] HK2 Hpost; simpl; [|done|done]. specialize (Hpost _ _ eq_refl).
  destruct (_ && _); [done|]. apply safe_bind. eapply safe_imp; [by apply is_abandoned_safe|]. intros K3 [] HK3 Hr; simpl; [|done].
  apply safe_act.
  - eapply safe_put; [by eapply seen_mono|by apply Hr].
  - by intros K4 [w|e] _ _.
Qed.

(** ** Verification capacity *)

(** A scheduler of process [me] that keeps to the ceilings. *)
Record keeps_to (s : Scheduler) : Prop := {
  keeps_owner : s.(Scheduler_Owner) = me;
  keeps_work : ((defaults s).(Scheduler_MaxConcurrentRuns) <= limits.(ceiling_work))%Z;
  keeps_observation : ((defaults s).(Scheduler_MaxConcurrentObservations) <= limits.(ceiling_observation))%Z;
  keeps_verification : ((defaults s).(Scheduler_MaxConcurrentVerifications) <= limits.(ceiling_verification))%Z
}.

Lemma verificationOwnerAlive_safe K p : harmless K (verificationOwnerAlive p).
Proof. unfold verificationOwnerAlive. destruct (_ ≠? _); by apply quiet_harmless. Qed.

Lemma requestVerification_safe K s parent toolID toolOwner sandbox lockDir : keeps_to s →
  harmless K (requestVerification s parent toolID toolOwner sandbox lockDir).
Proof.
  intros [_ _ _ Hv]. unfold requestVerification. apply harmless_then; [done|]. intros K1 [] _. do 2 (apply harmless_refuse; intros _).
  apply quiet_harmless; [done|]. intros K2 now _. apply quiet_harmless; [done|]. intros K3 [[]|e] _; done.
Qed.

Lemma release_loop_safe K s request n : (s.(Scheduler_MaxConcurrentVerifications) <= limits.(ceiling_verification))%Z → harmless K (release_loop n s request).
Proof.
  intros Hv. revert K. induction n as [|n IH]; intros K; [done|]. apply quiet_harmless; [done|]. intros K1 [[[p revision]|]|e] _; simpl; [|done|done].
  destruct (_ || _); [done|]. destruct (_ ≟ VerificationReleased); [done|].
  apply (harmless_bind (A := bool)); [destruct (_ ≟ VerificationGranted); [apply verificationOwnerAlive_safe|done]|].
  intros K2 [] _; [done|]. apply quiet_harmless; [done|]. intros K3 now _. apply quiet_harmless; [done|]. intros K4 [[]|e] _; simpl; [done|apply IH|done].
Qed.

Lemma ReleaseVerification_safe `{!Rounds} K s request : keeps_to s → harmless K (ReleaseVerification s request).
Proof. intros [_ _ _ Hv]. unfold ReleaseVerification. apply harmless_refuse. intros _. by apply release_loop_safe. Qed.

Lemma defaults_idempotent s : defaults (defaults s) = defaults s.
Proof.
  destruct s as [st pe cl ow ld mr mo mv dr]. unfold defaults, resolveMaxConcurrentObservations, resolveMaxConcurrentVerifications. simpl. f_equal.
  - by destruct (Z.leb_spec ld 0); [|rewrite (proj2 (Z.leb_gt ld 0))].
  - by destruct (Z.leb_spec mr 0); [|rewrite (proj2 (Z.leb_gt mr 0))].
  - by destruct (Z.leb_spec mo 0); [|rewrite (proj2 (Z.leb_gt mo 0))].
  - by destruct (Z.leb_spec mv 0); [|rewrite (proj2 (Z.leb_gt mv 0))].
Qed.
Lemma keeps_defaults s : keeps_to s → keeps_to (defaults s).
Proof. intros [Ho Hw Hob Hv]. by split; rewrite ?defaults_idempotent. Qed.

Lemma reclaimVerificationPermit_safe `{!Rounds} K s p : keeps_to s → harmless K (reclaimVerificationPermit s p).
Proof.
  intros Hs. unfold reclaimVerificationPermit. destruct (_ ≟ _); [done|]. apply quiet_harmless; [done|]. intros K1 now _. simpl.
  destruct (_ <? _)%Z; [done|]. apply (harmless_bind (A := bool)); [apply verificationOwnerAlive_safe|]. intros K2 [] _; [done|].
  apply (harmless_bind (A := result StoreError ())); [destruct p.(Permit_Sandbox); [by apply quiet_harmless|done]|].
  intros K3 [x|e] _; [|done]. apply harmless_bind; [by apply ReleaseVerification_safe|done].
Qed.

Lemma reclaimVerificationPermits_safe `{!Rounds} K s : keeps_to s → harmless K (reclaimVerificationPermits s).
Proof.
  intros Hs. unfold reclaimVerificationPermits. destruct (negb _); [done|]. apply quiet_harmless; [done|]. intros K1 [l|e] _; [|done]. simpl.
  apply harmless_each. intros K2 p _ _. apply harmless_bind; [by apply reclaimVerificationPermit_safe|]. intros K3 r _. by destruct r as [x|[]].
Qed.

Lemma VerificationCleanupPending_safe K s run : harmless K (VerificationCleanupPending s run).
Proof. unfold VerificationCleanupPending. destruct (negb _); [done|]. apply quiet_harmless; [done|]. by intros K1 [l|e] _. Qed.

Lemma VerificationSaturated_safe K s run : harmless K (VerificationSaturated s run).
Proof.
  unfold VerificationSaturated. apply quiet_harmless; [done|]. intros K1 [l|e] _; [|done]. simpl.
  apply (harmless_then (A := nat)). { destruct s.(Scheduler_Permits); [|done]. apply quiet_harmless; [done|]. by intros K2 [x|e] _. }
  intros K2 n _. apply (harmless_then (A := nat)); [|done]. destruct s.(Scheduler_Claims); [|done]. apply quiet_harmless; [done|]. by intros K3 [x|e] _.
Qed.

Lemma AcquireVerification_safe `{!Rounds} K s request : keeps_to s → harmless K (AcquireVerification s request).
Proof.
  intros Hs. pose proof (keeps_defaults _ Hs) as Hd. unfold AcquireVerification. apply harmless_then; [by apply reclaimVerificationPermits_safe|]. intros K1 [] _.
  apply quiet_harmless; [done|]. intros K2 alive _. simpl. do 2 (apply harmless_refuse; intros _).
  apply quiet_harmless; [done|]. intros K3 [[[p revision]|]|e] _; simpl; [|done|done]. apply harmless_refuse. intros _.
  apply quiet_harmless; [done|]. intros K4 [parent|e] _; simpl; [|done]. apply quiet_harmless; [done|]. intros K5 now _. simpl.
  apply harmless_refuse. intros _. apply harmless_then; [apply VerificationSaturated_safe|]. intros K6 [] _; [done|].
  apply quiet_harmless; [intros K' _; exact (keeps_verification _ Hs)|]. by intros K7 [b|e] _.
Qed.

Lemma reclaimReviewVerificationClaims_safe K s : harmless K (reclaimReviewVerificationClaims s).
Proof.
  unfold reclaimReviewVerificationClaims. destruct (negb _); [done|]. apply quiet_harmless; [done|]. intros K1 [l|e] _; [|done]. simpl.
  apply quiet_harmless; [done|]. intros K2 now _. simpl. apply harmless_each. intros K3 claim _ _. destruct (_ <? _)%Z; [done|].
  apply quiet_harmless; [done|]. intros K4 [] _; [done|]. apply quiet_harmless; [done|]. by intros K5 [x|e] _.
Qed.

Lemma claimReviewVerificationSlot_safe K s owner run ttl : keeps_to s → harmless K (claimReviewVerificationSlot s owner run ttl).
Proof.
  intros [_ Hw _ Hv]. unfold claimReviewVerificationSlot. apply harmless_refuse. intros _.
  apply harmless_then; [apply reclaimReviewVerificationClaims_safe|]. intros K1 [] _. apply quiet_harmless; [done|]. intros K2 now _.
  apply quiet_harmless; [done|]. intros K3 text _. apply quiet_harmless; [done|]. by intros K4 [b|e] _.
Qed.

Lemma releaseReviewVerificationSlot_safe K s id : harmless K (releaseReviewVerificationSlot s id).
Proof. unfold releaseReviewVerificationSlot. apply harmless_refuse. intros _. apply quiet_harmless; [done|]. by intros K1 [x|e] _. Qed.

(** ** Leasing *)

Lemma elem_of_by_id (ops : list RunOperation) id op : by_id ops !! id = Some op → op ∈ ops ∧ op.(Op_ID) = id.
Proof.
  unfold by_id. assert (∀ (m : gmap string RunOperation), fold_left (λ m op, <[op.(Op_ID) := op]> m) ops m !! id = Some op →
    (op ∈ ops ∧ op.(Op_ID) = id) ∨ m !! id = Some op) as Hgen.
  { induction ops as [|o ops IH]; intros m Hl; [by right|]. simpl in Hl. destruct (IH _ Hl) as [[Hin Hid]|Hm]; [left; by split; [right|]|].
    apply lookup_insert_Some in Hm as [[Hid ->]|[_ Hm]]; [left; by split; [left|]|by right]. }
  intros Hl. destruct (Hgen ∅ Hl) as [?|Hm]; [done|]. by rewrite lookup_empty in Hm.
Qed.

Lemma leasable_due K all now alive op : leasable op all now alive = true → OperationExpired op now = false →
  (∀ o, lease_owner op = Some o → alive = false → o ∈ K.(k_dead)) → (∀ id o, all !! id = Some o → o.(Op_ID) = id ∧ seen_some K o) →
  lease_due K.(k_dead) op now ∧ ∀ d, d ∈ op.(Op_DependsOn) → ∃ dep r, seen K d dep r ∧ dep.(Op_State) = Succeeded.
Proof.
  unfold leasable. intros [[[Hdeps Hat]%andb_true_iff Hcancel]%andb_true_iff Hacq]%andb_true_iff Hexp Halive Hall.
  destruct (CanAcquire_owner _ _ _ Hacq) as [Hacq' Hdead]. split.
  - split; [by apply Z.ltb_lt|by apply negb_true_iff|done| |done]. intros o Ho. apply Halive; [done|]. apply Hdead.
    unfold lease_owner in Ho. by destruct op.(Op_Lease).
  - intros d Hd. unfold dependenciesSatisfied in Hdeps. rewrite forallb_forall in Hdeps. specialize (Hdeps d ltac:(by apply list_elem_of_In)).
    apply bool_decide_eq_true in Hdeps. destruct (all !! d) as [dep|] eqn:Hl; [|done]. destruct (Hall _ _ Hl) as [<- [r Hs]]. by exists dep, r.
Qed.

Lemma lease_first_safe K s all now candidates : s.(Scheduler_Owner) = me →
  (s.(Scheduler_MaxConcurrentRuns) <= limits.(ceiling_work))%Z → (s.(Scheduler_MaxConcurrentObservations) <= limits.(ceiling_observation))%Z →
  (s.(Scheduler_MaxConcurrentVerifications) <= limits.(ceiling_verification))%Z →
  (∀ id o, all !! id = Some o → o.(Op_ID) = id ∧ seen_some K o) → harmless K (lease_first s all now candidates).
Proof.
  intros Hme Hw Hob Hv. revert K. induction candidates as [|candidate l IH]; intros K Hall; [done|]. simpl.
  assert (∀ K', knows_more K K' → ∀ id o, all !! id = Some o → o.(Op_ID) = id ∧ seen_some K' o) as Hall'.
  { intros K' HK id o Ho. destruct (Hall _ _ Ho). split; [done|by eapply seen_some_mono]. }
  apply safe_act; [done|]. intros K1 [[[op revision]|]|e] HK1 Hseen; simpl; [|by apply IH, Hall'|done]. specialize (Hseen _ _ eq_refl).
  apply safe_bind, (safe_imp _ _ _ _ (λ K' alive, ∀ o, lease_owner op = Some o → alive = false → o ∈ K'.(k_dead))).
  { unfold lease_owner. destruct op.(Op_Lease) as [lease|]; [|done]. apply safe_act; [done|]. intros K2 alive HK2 Hpost. apply safe_ret.
    intros K3 HK3 o [= <-]. by eapply alive_dead. }
  intros K2 alive HK2 Hdead. assert (knows_more K K2) as HKK2 by by etrans.
  destruct (leasable op all now alive) eqn:Hl; simpl; [|by apply IH, Hall']. destruct (OperationExpired op now) eqn:He.
  - assert (row_step me K2.(k_dead) op (retired op)) as Hr.
    { unfold leasable in Hl. apply andb_true_iff in Hl as [_ [Hacq Hne]%CanAcquire_owner]. apply (row_retire _ _ _ now); [|done..].
      intros o Ho. apply Hdead; [done|]. apply Hne. unfold lease_owner in Ho. by destruct op.(Op_Lease). }
    apply quiet_harmless; [exact (safe_put _ _ _ _ _ (seen_mono _ _ _ _ _ HK2 Hseen) Hr)|]. intros K3 [w|e] HK3; simpl; [|done]. apply IH, Hall'. by etrans.
  - destruct (leasable_due K2 all now alive op Hl He Hdead (Hall' _ HKK2)) as [Hdue Hdeps].
    apply harmless_bind; [apply issue_safe|]. intros K3 grant HK3. apply quiet_harmless.
    + intros K4 HK4. assert (knows_more K2 K4) as HK24 by by etrans. simpl. split; [|done].
      exists op, now, (MkLease s.(Scheduler_Owner) now (now + s.(Scheduler_LeaseDuration))%Z grant). split_and!; [|done| |].
      * destruct Hseen as (<- & Hp & Hrow). split_and!; [done..|]. eapply lookup_weaken; [exact Hrow|]. etrans; [apply HK2|apply HK24].
      * destruct Hdue as [D1 D2 D3 D4 D5]. split; [done..| |done]. intros o Ho. by apply HK24, D4.
      * intros d Hd. destruct (Hdeps d Hd) as (dep & r & Hs & Hst). exists dep, r. split; [by eapply seen_mono|done].
    + intros K4 [[r []]|e] HK4; simpl; [done| |].
      * apply harmless_bind; [apply release_grant_safe|]. intros K5 _ HK5. apply IH, Hall'.
        etrans; [exact HKK2|]. etrans; [exact HK3|]. by etrans.
      * apply harmless_bind; [apply release_grant_safe|done].
Qed.

Lemma Next_safe `{!Rounds} K s run : keeps_to s → harmless K (Next s run).
Proof.
  intros Hs. pose proof (keeps_defaults _ Hs) as Hd. unfold Next. apply harmless_then; [by apply reclaimVerificationPermits_safe|]. intros K1 [] _.
  apply harmless_then; [apply reclaimReviewVerificationClaims_safe|]. intros K2 [] _.
  apply harmless_then; [apply VerificationCleanupPending_safe|]. intros K3 [] _; [done|].
  apply safe_act; [done|]. intros K4 [ops|e] _ Hops; simpl; [|done]. specialize (Hops _ eq_refl).
  apply quiet_harmless; [done|]. intros K5 [all|e] HK5; simpl; [|done]. apply quiet_harmless; [done|]. intros K6 now HK6. simpl.
  apply harmless_then.
  - apply harmless_each. intros K7 op _ _. destruct (is_active op); [|done]. apply harmless_then; [|done]. apply reclaimAbandoned_safe. exact (keeps_owner _ Hs).
  - intros K7 [] HK7. apply lease_first_safe; [exact (keeps_owner _ Hs)|exact (keeps_work _ Hs)|exact (keeps_observation _ Hs)|exact (keeps_verification _ Hs)|]. intros id o [Ho Hid]%elem_of_by_id. split; [done|]. eapply seen_some_mono; [|by apply Hops].
    etrans; [exact HK5|]. by etrans.
Qed.

Lemma CapacityBlocked_safe K s op : harmless K (CapacityBlocked s op).
Proof.
  unfold CapacityBlocked. apply (harmless_then (A := list RunOperation)).
  { apply quiet_harmless; [done|]. by intros K1 [all|e] _. }
  intros K1 all _. destruct (existsb _ all); [exact (harmless_ret _ _)|].
  apply (harmless_bind (A := Z)); [by apply quiet_harmless|]. intros K2 now _.
  destruct (by_id all !! op.(Op_ID)) as [current|]; [|exact (harmless_ret _ _)].
  destruct (_ || _); [exact (harmless_ret _ _)|]. destruct (_ <=? _)%Z; [exact (harmless_ret _ _)|].
  destruct (consumesVerification _); [|exact (harmless_ret _ _)].
  apply harmless_then; [exact (VerificationSaturated_safe _ _ _)|]. intros K3 b _. exact (harmless_ret _ _).
Qed.
End methods.
Arguments keeps_to : clear implicits.
