(* ===== verification/SchedulerWorld.v ===== *)
(** Processes, their drivers and the store they share; and the theorem that
    however they interleave the table the store presents is one that
    [OperationTable] reaches. *)

From S2P Require Import Prelude GoStrings Json Domain Canonical GoTime Plan Events Operation Permit Scheduler OperationStore OperationStoreFacts OperationTable SchedulerFacts.
From stdpp Require Import options.

(* ------------------------------------------------------------------ *)
(** * Worlds *)

(** A process: the owner its leases name and its record of the grants. *)
Record Process := MkProcess {
  Process_Owner : string;
  Process_Drivers : DriverLeases
}.
Definition NewDriverLeases (text : string) : DriverLeases := MkDrivers (text +:+ "-") 0 ∅.

(** A thread runs one method in its process. *)
Record World (St : Type) := MkWorld {
  w_store : St;
  w_dead : gset string;
  w_processes : list Process;
  w_threads : list (nat * prog ())
}.
Arguments MkWorld {St}.
Arguments w_store {St}.
Arguments w_dead {St}.
Arguments w_processes {St}.
Arguments w_threads {St}.

Definition discard {A} (p : prog A) : prog () := do _ := p in Ret tt.

(** What a driver of process [me] may run: any method, with any arguments, of a
    scheduler that keeps to the ceilings. *)
Inductive method (limits : Ceilings) (me : string) : prog () → Prop :=
  | method_Plan s op : fresh_operation op → method limits me (discard (plan_operation s op))
  | method_Next `{!Rounds} s run : keeps_to limits me s → method limits me (discard (Next s run))
  | method_Start s id limit : keeps_to limits me s → method limits me (discard (StartWithin s id limit))
  | method_Heartbeat s id : keeps_to limits me s → method limits me (discard (Heartbeat s id))
  | method_Progress s id attempt progress : method limits me (discard (RecordProviderProgress s id attempt progress))
  | method_Finish s id state retryAt disposition endedAt : method limits me (discard (finishAt s id state retryAt disposition endedAt))
  | method_Reserve id identity : method limits me (discard (ReserveAttemptIdentity id identity))
  | method_Restore id refund : method limits me (discard (RestoreAttempt id refund))
  | method_Cancel id : method limits me (discard (RequestCancel id))
  | method_Reconcile s op reconciler : method limits me (discard (Reconcile s op reconciler))
  | method_Relinquish s id granted : method limits me (discard (Relinquish s id granted))
  | method_Request s parent tool owner sandbox dir : keeps_to limits me s →
      method limits me (discard (requestVerification s parent tool owner sandbox dir))
  | method_Acquire `{!Rounds} s request : keeps_to limits me s → method limits me (discard (AcquireVerification s request))
  | method_Release `{!Rounds} s request : keeps_to limits me s → method limits me (discard (ReleaseVerification s request))
  | method_Claim s owner run ttl : keeps_to limits me s → method limits me (discard (claimReviewVerificationSlot s owner run ttl))
  | method_Unclaim s id : method limits me (discard (releaseReviewVerificationSlot s id))
  | method_Saturated s run : method limits me (discard (VerificationSaturated s run))
  | method_Blocked s op : method limits me (discard (CapacityBlocked s op)).

(** The probe may call a dead owner alive, never a live one dead. *)
Definition probed (dead : gset string) (c : action) : answer c → Prop :=
  match c with Alive owner => λ alive, alive = false → owner ∈ dead | _ => λ _, True end.

(** The calls a process answers from its own record. *)
Definition recorded (c : action) : DriverLeases → answer c → DriverLeases → Prop :=
  match c with
  | IssueGrant => λ d r d', (r, d') = drivers_issue d
  | ReleaseGrant grant => λ d _ d', d' = drivers_release d grant
  | GrantAbandoned grant => λ d r d', r = drivers_abandoned d grant ∧ d' = d
  | _ => λ d _ d', d' = d
  end.

Section worlds.
Context {St : Type} `{!OperationStore St}.
Variable (limits : Ceilings).
Implicit Types (w : World St).

Inductive world_step : World St → World St → Prop :=
  | world_call w i j process c k r st' drivers : w.(w_threads) !! i = Some (j, Act c k) → w.(w_processes) !! j = Some process →
      process.(Process_Owner) ∉ w.(w_dead) → serves c w.(w_store) r st' → probed w.(w_dead) c r →
      recorded c process.(Process_Drivers) r drivers →
      world_step w (MkWorld st' w.(w_dead) (<[j := MkProcess process.(Process_Owner) drivers]> w.(w_processes)) (<[i := (j, k r)]> w.(w_threads)))
  | world_spawn w j process p : w.(w_processes) !! j = Some process → method limits process.(Process_Owner) p →
      world_step w (MkWorld w.(w_store) w.(w_dead) w.(w_processes) (w.(w_threads) ++ [(j, p)]))
  | world_boot w owner text : owner ∉ w.(w_dead) →
      world_step w (MkWorld w.(w_store) w.(w_dead) (w.(w_processes) ++ [MkProcess owner (NewDriverLeases text)]) w.(w_threads))
  | world_death w owner : world_step w (MkWorld w.(w_store) ({[owner]} ∪ w.(w_dead)) w.(w_processes) w.(w_threads))
  | world_drift w st' : drifts w.(w_store) st' → world_step w (MkWorld st' w.(w_dead) w.(w_processes) w.(w_threads)).

(** A store without operations, and nobody there yet. *)
Definition starts w : Prop :=
  store_ok w.(w_store) ∧ present w.(w_store) = MkTable ∅ ∅ ∅ ∧ w.(w_dead) = ∅ ∧ w.(w_processes) = [] ∧ w.(w_threads) = [].
Definition world_reachable w : Prop := ∃ w0, starts w0 ∧ rtc world_step w0 w.
Definition shared w : Shared := MkShared (present w.(w_store)) w.(w_dead).
End worlds.

(** At most one step. *)
Definition stays_or {A} (R : relation A) : relation A := λ x y, x = y ∨ R x y.

(* ------------------------------------------------------------------ *)
(** * What is known stays true *)

Record remembers (K : Knowledge) (T : Table) : Prop := {
  remembers_now id op revision : T.(t_rows) !! id = Some (op, revision) → (0 < revision)%Z ∧ K.(k_past) !! (id, revision) = Some op;
  remembers_then id op revision : K.(k_past) !! (id, revision) = Some op →
    ∃ op' revision', T.(t_rows) !! id = Some (op', revision') ∧ (revision <= revision')%Z ∧ (revision = revision' → op' = op)
      ∧ (op.(Op_State) = Succeeded → op'.(Op_State) = Succeeded)
}.

Definition learn (K : Knowledge) op (revision : Z) : Knowledge := MkKnowledge (<[(op.(Op_ID), revision) := op]> K.(k_past)) K.(k_dead).

Lemma remembers_put K T op revision : remembers K T → (0 < revision)%Z →
  (∀ old r, T.(t_rows) !! op.(Op_ID) = Some (old, r) → (r < revision)%Z ∧ (old.(Op_State) = Succeeded → op.(Op_State) = Succeeded)) →
  knows_more K (learn K op revision) ∧ remembers (learn K op revision) (put_row op revision T).
Proof.
  intros [Hnow Hthen] Hpos Hold.
  assert (K.(k_past) !! (op.(Op_ID), revision) = None) as Hnew.
  { destruct (K.(k_past) !! (op.(Op_ID), revision)) as [o|] eqn:He; [|done]. destruct (Hthen _ _ _ He) as (o' & r' & Hl & Hle & _).
    destruct (Hold _ _ Hl). lia. }
  split; [split; [by apply insert_subseteq|done]|]. split.
  - intros id o r Hl. apply put_row_lookup in Hl as [(-> & -> & ->)|[Hne Hl]].
    + split; [done|]. apply lookup_insert_eq.
    + destruct (Hnow _ _ _ Hl). split; [done|]. simpl. rewrite lookup_insert_ne; [done|]. congruence.
  - intros id o r Hl. simpl in Hl. apply lookup_insert_Some in Hl as [[[= <- <-] <-]|[Hne Hl]].
    + exists op, revision. rewrite put_row_here. by split_and!.
    + destruct (Hthen _ _ _ Hl) as (o' & r' & Hl' & Hle & Heq & Hs). destruct (decide (op.(Op_ID) = id)) as [<-|Hid].
      * destruct (Hold _ _ Hl') as [Hlt Hs']. exists op, revision. rewrite put_row_here. split_and!; [done|lia| |auto]. intros ->. lia.
      * exists o', r'. rewrite put_row_beside by done. by split_and!.
Qed.

Lemma seen_row K T id op revision r old : remembers K T → seen K id op revision → T.(t_rows) !! id = Some (old, r) → r = revision → old = op.
Proof.
  intros [_ Hthen] (_ & _ & Hp) Hl ->. destruct (Hthen _ _ _ Hp) as (o & r' & Hl' & _ & Heq & _). rewrite Hl in Hl'. injection Hl' as <- <-. by apply Heq.
Qed.
Lemma present_seen K T id op revision : remembers K T → op.(Op_ID) = id → T.(t_rows) !! id = Some (op, revision) → seen K id op revision.
Proof. intros [Hnow _] Hid Hl. by destruct (Hnow _ _ _ Hl). Qed.

(** ** Calls *)

Section calls.
#[local] Set Default Proof Using "Type*".
Context {St : Type} `{!OperationStore St, !OperationStoreLaws St} {limits : Ceilings} {me : string}.
Implicit Types (st : St) (K : Knowledge).
Local Notation step := (atomic limits (storable (St := St))).

(** A call leaves the table as it is or makes one step of it, and what it
    teaches is so. *)
Record call_done K (c : action) st (r : answer c) st' (K' : Knowledge) : Prop := {
  done_more : knows_more K K';
  done_dead : K'.(k_dead) = K.(k_dead);
  done_ok : store_ok st';
  done_remembers : remembers K' (present st');
  done_post : call_post K' c r;
  done_step : stays_or step (MkShared (present st) K.(k_dead)) (MkShared (present st') K.(k_dead))
}.

Lemma proper_pre K c st : store_ok st → remembers K (present st) → call_pre limits me K c → proper_call c (present st).
Proof.
  intros Hok HK. destruct c; simpl; try done.
  - intros [[-> _]|(old & Hs & Hr)]; [by left|right]. intros o Hl. rewrite (seen_row _ _ _ _ _ _ _ HK Hs Hl eq_refl).
    pose proof (step_id _ _ _ _ Hr). apply row_step_effect in Hr as [_ (Hrun & _ & Hkey & _)%constants_run]. by split_and!.
  - intros [(old & now & lease & Hs & -> & _) _] o Hl. rewrite (seen_row _ _ _ _ _ _ _ HK Hs Hl eq_refl). by split_and!.
Qed.

Lemma same_done K c st (r : answer c) st' : store_ok st' → remembers K (present st) → present st' = present st → call_post K c r → call_done K c st r st' K.
Proof. intros Hok HK Heq Hpost. split; [done|done|done|by rewrite Heq|done|]. rewrite Heq. by left. Qed.

Lemma put_done K op expected st r st' : store_ok st → remembers K (present st) → call_pre limits me K (PutOperation op expected) → store_ok st' →
  table_call (PutOperation op expected) (present st) r (present st') → ∃ K', call_done K (PutOperation op expected) st r st' K'.
Proof.
  intros Hok HK Hpre Hok' [[[Hput Heq] _]|[Heq _]]; [|exists K; by apply same_done]. unfold put_applies in Hput.
  assert (storable op) as Hst by (eapply rows_storable; [exact Hok'|]; rewrite Heq; apply put_row_here).
  destruct Hpre as [(-> & o & id & now & Hf & ->)|(old & Hs & Hr)].
  - destruct Hput as [Hnone Hkey]. destruct (remembers_put K (present st) (planned o id now) 1 HK) as [Hmore HK']; [done|by intros ?? ?; congruence|].
    exists (learn K (planned o id now) 1). split; [done|done|done|by rewrite Heq|done|]. right. rewrite Heq. apply atomic_plan; [done| | |done].
    + by rewrite <- (planned_id o id now).
    + destruct (planned_constants o id now) as (Hrun & Hk & _). intros i prior rev Hl. rewrite <- Hrun, <- Hk. by eapply Hkey.
  - destruct (Z.eqb_spec expected 0) as [->|Hne]; [by destruct Hs as (_ & ? & _)|]. destruct Hput as [o Hl].
    rewrite (seen_row _ _ _ _ _ _ _ HK Hs Hl eq_refl) in Hl. destruct Hs as (_ & Hpos & _).
    destruct (remembers_put K (present st) op (expected + 1) HK) as [Hmore HK']; [lia| |].
    { intros old' r' Hl'. rewrite Hl in Hl'. injection Hl' as <- <-. split; [lia|]. intros Hsu. rewrite (persists_settled _ _ (row_step_persists _ _ _ _ Hr)); auto. }
    exists (learn K op (expected + 1)). split; [done|done|done|by rewrite Heq|done|]. right. rewrite Heq. by eapply atomic_row.
Qed.

Lemma acquire_done K op expected mR mO mV st r st' : store_ok st → remembers K (present st) → call_pre limits me K (AcquireOperation op expected mR mO mV) →
  store_ok st' → table_call (AcquireOperation op expected mR mO mV) (present st) r (present st') →
  ∃ K', call_done K (AcquireOperation op expected mR mO mV) st r st' K'.
Proof.
  intros Hok HK [(old & now & lease & Hs & -> & Hdue & Hdeps) (Lw & Lo & Lv)] Hok' [[[Hacq Heq] _]|[Heq _]]; [|exists K; by apply same_done].
  destruct (acquire_row _ _ _ _ _ _ Hacq) as [o Hl]. change (Op_ID (leased old lease)) with old.(Op_ID) in Hl.
  assert (storable (leased old lease)) as Hst by (eapply rows_storable; [exact Hok'|]; rewrite Heq; apply put_row_here).
  rewrite (seen_row _ _ _ _ _ _ _ HK Hs Hl eq_refl) in Hl. destruct Hs as (_ & Hpos & _).
  destruct (remembers_put K (present st) (leased old lease) (expected + 1) HK) as [Hmore HK']; [lia| |].
  { change (Op_ID (leased old lease)) with old.(Op_ID). intros old' r' Hl'. rewrite Hl in Hl'. injection Hl' as <- <-. split; [lia|]. intros Hsu.
    by destruct (CanAcquire_open _ _ _ (due_acquire _ _ _ Hdue)). }
  exists (learn K (leased old lease) (expected + 1)). split; [done|done|done|by rewrite Heq|done|]. right. rewrite Heq.
  eapply atomic_lease; [exact Hdue| |exact Hl|exact Hacq|done..]. intros d Hd. destruct (Hdeps d Hd) as (dep & rd & (_ & _ & Hp) & Hsu).
  destruct (remembers_then _ _ HK _ _ _ Hp) as (dep' & r' & Hl' & _ & _ & Hsu'). exists dep', r'. auto.
Qed.

Lemma call_served K c st (r : answer c) st' : store_ok st → remembers K (present st) → call_pre limits me K c → serves c st r st' →
  probed K.(k_dead) c r → ∃ K', call_done K c st r st' K'.
Proof.
  intros Hok HK Hpre Hserve Hprobe. pose proof (proper_pre _ _ _ Hok HK Hpre) as Hproper.
  destruct (serves_table _ _ _ _ Hok Hproper Hserve) as [Hok' Hcall].
  assert (∀ op revision, (present st).(t_rows) !! op.(Op_ID) = Some (op, revision) → seen_some K op) as Hseen
    by (intros op revision Hl; exists revision; by eapply present_seen).
  destruct c; try (exists K; apply same_done; [done|done|exact Hcall|done]).
  - exists K. destruct Hcall as [Heq Hl]. apply same_done; [done..|]. intros l Hr op Hop. apply (Hl l Hr) in Hop as (_ & revision & Hop). by eapply Hseen.
  - exists K. destruct Hcall as [Heq Hl]. apply same_done; [done..|]. intros l Hr op Hop. apply (Hl l Hr) in Hop as (revision & Hop). by eapply Hseen.
  - exists K. destruct Hcall as [Heq Hl]. apply same_done; [done..|]. intros op revision Hr. pose proof (Hl _ Hr) as Hrow. symmetry in Hrow.
    eapply present_seen; [exact HK|exact (rows_named _ _ _ _ Hok Hrow)|exact Hrow].
  - exists K. destruct Hcall as [Heq _]. by apply same_done.
  - by eapply put_done.
  - by eapply acquire_done.
  - destruct Hcall as [[Hp _]|[Heq _]]; [|exists K; by apply same_done]. exists K. split; [done|done|done| |done|].
    + unfold permit_applies in Hp. repeat case_match; [destruct Hp as [_ ->]|rewrite Hp..]; destruct HK; by split.
    + right. by eapply atomic_permit.
  - destruct Hcall as [[[Hp Heq] _]|[Heq _]]; [|exists K; by apply same_done]. exists K. destruct Hpre as [Lw Lv].
    split; [done|done|done|rewrite Heq; destruct HK; by split|done|]. right. rewrite Heq. by eapply atomic_claim.
  - destruct Hcall as [[Heq _]|[Heq _]]; [|exists K; by apply same_done]. exists K.
    split; [done|done|done|rewrite Heq; destruct HK; by split|done|]. right. rewrite Heq. apply atomic_unclaim.
Qed.
End calls.

(* ------------------------------------------------------------------ *)
(** * Every world *)

Lemma discard_safe {A} limits me K (p : prog A) : safe limits me K p (λ _ _, True) → safe limits me K (discard p) (λ _ _, True).
Proof. intros Hp. by apply harmless_bind. Qed.

Lemma method_safe limits me K p : method limits me p → safe limits me K p (λ _ _, True).
Proof.
  intros [ ]; apply discard_safe.
  - by apply plan_safe.
  - by apply Next_safe.
  - apply StartWithin_safe. by eapply keeps_owner.
  - apply Heartbeat_safe. by eapply keeps_owner.
  - apply RecordProviderProgress_safe.
  - apply finishAt_safe.
  - apply ReserveAttemptIdentity_safe.
  - apply RestoreAttempt_safe.
  - apply RequestCancel_safe.
  - apply Reconcile_safe.
  - apply Relinquish_safe.
  - by apply requestVerification_safe.
  - by apply AcquireVerification_safe.
  - by apply ReleaseVerification_safe.
  - by apply claimReviewVerificationSlot_safe.
  - apply releaseReviewVerificationSlot_safe.
  - apply VerificationSaturated_safe.
  - apply CapacityBlocked_safe.
Qed.

Section reached.
#[local] Set Default Proof Using "Type*".
Context {St : Type} `{!OperationStore St, !OperationStoreLaws St} {limits : Ceilings}.
Implicit Types (w : World St).
Local Notation step := (atomic limits (storable (St := St))).

(** What holds of a world, given what its drivers know. *)
Record world_ok (K : Knowledge) w : Prop := {
  world_store : store_ok w.(w_store);
  world_dead : K.(k_dead) = w.(w_dead);
  world_past : remembers K (present w.(w_store));
  world_safe i j p : w.(w_threads) !! i = Some (j, p) → ∃ process, w.(w_processes) !! j = Some process ∧
    safe limits process.(Process_Owner) K p (λ _ _, True)
}.

Lemma starts_ok w : starts w → world_ok (MkKnowledge ∅ ∅) w.
Proof.
  intros (Hok & Hp & Hd & Hps & Ht). split; [done|by rewrite Hd| |by rewrite Ht].
  rewrite Hp. split; intros id op r Hl; simpl in Hl; by rewrite lookup_empty in Hl.
Qed.

Lemma threads_safe_mono K K' (w : World St) i j p : knows_more K K' → world_ok K w → w.(w_threads) !! i = Some (j, p) →
  ∃ process, w.(w_processes) !! j = Some process ∧ safe limits process.(Process_Owner) K' p (λ _ _, True).
Proof.
  intros HK Hw Hl. destruct (world_safe _ _ Hw _ _ _ Hl) as (process & Hp & Hs). exists process. split; [done|]. by eapply safe_mono.
Qed.

(** A process keeps its owner. *)
Lemma processes_kept w j0 j process drivers process0 : w.(w_processes) !! j = Some process → w.(w_processes) !! j0 = Some process0 →
  ∃ process', <[j := MkProcess process.(Process_Owner) drivers]> w.(w_processes) !! j0 = Some process' ∧ process'.(Process_Owner) = process0.(Process_Owner).
Proof.
  intros Hj Hj0. destruct (decide (j = j0)) as [<-|Hne].
  - rewrite Hj in Hj0. injection Hj0 as <-. eexists. rewrite list_lookup_insert_eq; [done|]. by eapply lookup_lt_Some.
  - exists process0. by rewrite list_lookup_insert_ne.
Qed.

(** One step of the world is one step of its table, or none. *)
Lemma world_step_refines K w w' : world_ok K w → world_step limits w w' →
  ∃ K', world_ok K' w' ∧ knows_more K K' ∧ stays_or step (shared w) (shared w').
Proof.
  intros Hw Hstep. destruct Hstep as [w i j process c k r st' drivers Hl Hj Halive Hserve Hprobe Hrec|w j process p Hj Hm|w owner text Hnew|w owner|w st' Hdrift].
  - destruct (world_safe _ _ Hw _ _ _ Hl) as (process' & Hj' & Hsafe). rewrite Hj in Hj'. injection Hj' as <-.
    destruct (Hsafe K ltac:(done)) as [Hpre Hk]. rewrite <- (world_dead _ _ Hw) in Hprobe.
    destruct (call_served K c _ r st' (world_store _ _ Hw) (world_past _ _ Hw) Hpre Hserve Hprobe) as (K' & [Hmore Hdead Hok' HK' Hpost Hst]).
    exists K'. split; [|split; [done|]].
    + split; simpl; [done|by rewrite Hdead, (world_dead _ _ Hw)|done|]. intros i' j' p' Hl'.
      destruct (decide (i = i')) as [<-|Hne].
      * rewrite list_lookup_insert_eq in Hl' by (by eapply lookup_lt_Some). injection Hl' as <- <-.
        destruct (processes_kept w j j process drivers process Hj Hj) as (q & Hq & Ho). exists q. rewrite Ho. split; [done|]. by apply Hk.
      * rewrite list_lookup_insert_ne in Hl' by done. destruct (threads_safe_mono _ _ _ _ _ _ Hmore Hw Hl') as (q0 & Hq0 & Hs).
        destruct (processes_kept w j' j process drivers q0 Hj Hq0) as (q & Hq & Ho). exists q. by rewrite Ho.
    + unfold shared. simpl. by rewrite <- (world_dead _ _ Hw).
  - exists K. split; [|split; [done|by left]]. destruct Hw as [Hok Hd HK Hs]. split; [done..|]. simpl. intros i' j' p' Hl'.
    apply lookup_app_Some in Hl' as [Hl'|[_ Hl']]; [by eapply Hs|]. apply list_lookup_singleton_Some in Hl' as [_ [= <- <-]].
    exists process. split; [done|]. by apply method_safe.
  - exists K. split; [|split; [done|by left]]. destruct Hw as [Hok Hd HK Hs]. split; [done..|]. simpl. intros i' j' p' Hl'.
    destruct (Hs _ _ _ Hl') as (q & Hq & Hsafe). exists q. split; [|done]. by apply lookup_app_l_Some.
  - assert (knows_more K (MkKnowledge K.(k_past) ({[owner]} ∪ K.(k_dead)))) as Hmore by (split; [done|set_solver]).
    eexists. split; [|split; [exact Hmore|right; apply atomic_death]]. split; simpl; [apply Hw|by rewrite (world_dead _ _ Hw)| |].
    + destruct (world_past _ _ Hw). by split.
    + intros i' j' p' Hl'. by eapply threads_safe_mono.
  - destruct (drifts_table _ _ (world_store _ _ Hw) Hdrift) as [Hok Heq]. exists K. split; [|split; [done|left; unfold shared; simpl; by rewrite Heq]].
    destruct Hw as [_ Hd HK Hs]. split; [done|done|simpl; by rewrite Heq|done].
Qed.

Lemma world_steps_refine K w w' : world_ok K w → rtc (world_step limits) w w' →
  ∃ K', world_ok K' w' ∧ knows_more K K' ∧ rtc step (shared w) (shared w').
Proof.
  intros Hw Hr. revert K Hw. induction Hr as [w|w1 w2 w3 Hs _ IH]; intros K Hw; [by exists K|].
  destruct (world_step_refines _ _ _ Hw Hs) as (K1 & Hw1 & HK1 & Hs1). destruct (IH _ Hw1) as (K2 & Hw2 & HK2 & Hs2).
  exists K2. split; [done|split; [by etrans|]]. destruct Hs1 as [Heq|Hs1]; [by rewrite Heq|by eapply rtc_l].
Qed.

Lemma world_reached_ok w : world_reachable limits w → (∃ K, world_ok K w) ∧ table_reachable limits (storable (St := St)) (shared w).
Proof.
  intros (w0 & Hstart & Hr). destruct (world_steps_refine _ _ _ (starts_ok _ Hstart) Hr) as (K & Hw & _ & Hs). split; [by exists K|].
  destruct Hstart as (_ & Hp & Hd & _). unfold table_reachable, empty_table. by rewrite <- Hp, <- Hd.
Qed.
End reached.
