(* ===== verification/SchedulerLaws.v ===== *)
(** What holds of every world the drivers of the scheduler reach on a store
    that keeps its laws, and what the durable store adds. *)

From S2P Require Import Prelude GoStrings Json Domain Canonical GoTime Plan Events Operation Permit Scheduler OperationStore OperationStoreFacts OperationTable SchedulerFacts SchedulerWorld.
From stdpp Require Import options.

(* ------------------------------------------------------------------ *)
(** * Steps of one row *)

Section rows.
Context {limits : Ceilings} {storable : RunOperation → Prop}.
Local Notation step := (atomic limits storable).

(** A lease that names a live owner is not handed to another. *)
Lemma lease_origin dead T op op' revision owner : origin (storable := storable) dead T op' → T.(t_rows) !! op'.(Op_ID) = Some (op, revision) → lease_owner op = Some owner →
  owner ∉ dead → holder op' = holder op ∨ op'.(Op_Lease) = None ∧ (op'.(Op_State) = op.(Op_State) ∨ terminal_state op'.(Op_State)).
Proof.
  intros Ho Hl Hown Hlive. destruct Ho as [r' Hold|o i now Hf -> Hnone _ _|me old r' Hold Hs _|old r' now lease Hold -> Hd _ _ _].
  - rewrite Hl in Hold. injection Hold as -> _. by left.
  - rewrite planned_id in Hl. congruence.
  - rewrite Hl in Hold. injection Hold as <- _. apply row_step_effect in Hs as [He _].
    destruct He as [_ _ _ Hle _ _ _|_ Hh _ _ _|_ Ht Hle _ _ _|Hs Hs' Hle _ _ _|_ _ Hs' Hle _ _ _|Hs' Hle _ _ _].
    + left. unfold holder. by rewrite Hle.
    + by left.
    + right. auto.
    + right. split; [done|left; congruence].
    + right. split; [done|right]. rewrite Hs'. unfold terminal_state. set_solver.
    + right. auto.
  - rewrite Hl in Hold. injection Hold as <- _. by destruct (Hlive (due_owner _ _ _ Hd _ Hown)).
Qed.

Lemma lease_step s s' id op op' revision revision' owner : step s s' → named s.(s_table) →
  s.(s_table).(t_rows) !! id = Some (op, revision) → s'.(s_table).(t_rows) !! id = Some (op', revision') → lease_owner op = Some owner → owner ∉ s.(s_dead) →
  holder op' = holder op ∨ op'.(Op_Lease) = None ∧ (op'.(Op_State) = op.(Op_State) ∨ terminal_state op'.(Op_State)).
Proof.
  intros Hstep Hn Hl Hl' Hown Hlive. destruct (origin_step _ _ _ _ _ Hstep Hn Hl') as [<- Ho]. by eapply lease_origin.
Qed.

Lemma steps_persist s s' id op revision : rtc step s s' → named s.(s_table) → s.(s_table).(t_rows) !! id = Some (op, revision) →
  ∃ op' revision', s'.(s_table).(t_rows) !! id = Some (op', revision') ∧ persists op op' ∧ (revision <= revision')%Z.
Proof.
  intros Hr. revert op revision. induction Hr as [s|s1 s2 s3 Hs _ IH]; intros op revision Hn Hl.
  - exists op, revision. split_and!; [done|by split|done].
  - destruct (atomic_persists _ _ _ _ _ Hs Hn Hl) as (op2 & r2 & Hl2 & [C1 S1 X1] & Hle). destruct (IH op2 r2 (named_step _ _ Hs Hn) Hl2) as (op3 & r3 & Hl3 & [C2 S2 X2] & Hle').
    exists op3, r3. split_and!; [done| |lia]. split; [congruence| |auto]. intros Hs1. rewrite S2; [by apply S1|]. by rewrite S1.
Qed.

Lemma effect_identity me op op' : row_effect me op op' →
  (op.(Op_State) = Leased ∧ op'.(Op_AttemptIdentity) = wrap64 (op.(Op_AttemptIdentity) + 1))
  ∨ ((op.(Op_AttemptIdentity) <= op'.(Op_AttemptIdentity))%Z ∧ (op'.(Op_State) = Running → op.(Op_State) = Running)).
Proof.
  intros [E1 _ E2 _ _ _ Ei|E _ _ _ Ei|_ Ht _ _ _ Ei|_ Hf _ _ _ Ei|_ _ Hf _ _ _ Ei|E _ _ _ Ei]; [by left|right..]; (split; [lia|]); try congruence.
  - intros Hr. rewrite Hr in Ht. unfold terminal_state in Ht. by rewrite !elem_of_cons, elem_of_nil in Ht; destruct_or! Ht.
  - intros Hr. by rewrite Hr in Hf.
  - intros Hr. by rewrite Hr in Hf.
Qed.

(** The identity of an attempt is new. *)
Lemma identity_step s s' id op op' revision revision' : (∀ op, storable op → safe_counters op) → step s s' → named s.(s_table) → all_rows counters_ok s.(s_table) →
  s.(s_table).(t_rows) !! id = Some (op, revision) → s'.(s_table).(t_rows) !! id = Some (op', revision') →
  (op.(Op_AttemptIdentity) <= op'.(Op_AttemptIdentity))%Z ∧
  (op'.(Op_State) = Running → op.(Op_State) = Running ∨ op.(Op_State) = Leased ∧ (op.(Op_AttemptIdentity) < op'.(Op_AttemptIdentity))%Z).
Proof.
  intros Hsafe Hstep Hn Hall Hl Hl'. destruct (origin_step _ _ _ _ _ Hstep Hn Hl') as [<- Ho].
  destruct Ho as [r' Hold|o i now Hf Heq Hnone _ _|me old r' Hold Hs Hst|old r' now lease Hold -> Hd _ _ _].
  - rewrite Hl in Hold. injection Hold as -> _. split; [done|by left].
  - rewrite Heq, planned_id in Hl. congruence.
  - rewrite Hl in Hold. injection Hold as <- _. destruct (row_step_effect _ _ _ _ Hs) as [[[Hlea Hid]|[Hle Hrun]]%effect_identity _]; [|by auto].
    pose proof (Hall _ _ _ Hl) as [(_ & Hr & _) _ Hpos _ _]. pose proof (Hsafe _ Hst) as (_ & Hr' & _).
    rewrite Hid in Hr' |- *. rewrite charge_exact by (done || lia). split; [lia|]. right. split; [done|lia].
  - rewrite Hl in Hold. injection Hold as <- _. by split.
Qed.
End rows.

(* ------------------------------------------------------------------ *)
(** * Worlds *)

Section worlds.
#[local] Set Default Proof Using "Type*".
Context {St : Type} `{!OperationStore St, !OperationStoreLaws St}.
Variable (limits : Ceilings).
Implicit Types (w : World St).

(** C1: Refinement. Whatever the processes are and however their calls
    interleave, crash and fail, the table the store presents is reached by
    atomic steps of the specification, and every step of the world is at most
    one of them. *)
Theorem drivers_refine_table w w' : world_reachable limits w → world_step limits w w' →
  table_reachable limits (storable (St := St)) (shared w) ∧ stays_or (atomic limits (storable (St := St))) (shared w) (shared w').
Proof.
  intros Hr Hs. destruct (world_reached_ok _ Hr) as [[K Hw] Ht]. split; [done|]. by destruct (world_step_refines _ _ _ Hw Hs) as (_ & _ & _ & Hstep).
Qed.

(** C2: Capacity. No interleaving puts more runs to work, to observe or to
    verify than the ceilings allow, and a run never has two active operations. *)
Theorem capacity_kept w : (0 <= limits.(ceiling_work))%Z → (0 <= limits.(ceiling_observation))%Z → (0 <= limits.(ceiling_verification))%Z →
  world_reachable limits w → within_ceilings limits (present w.(w_store)) ∧ one_active (present w.(w_store)).
Proof.
  intros Lw Lo Lv [_ Ht]%world_reached_ok. split.
  - exact (reachable_within _ Lw Lo Lv Ht).
  - exact (proj1 (reachable_structure _ Ht)).
Qed.

(** C9: Order. An operation that is leased, running or succeeded has every
    dependency succeeded, and a key of a run names one operation. *)
Theorem dependencies_succeed_first w : world_reachable limits w →
  dependencies_first (present w.(w_store)) ∧ keys_unique (present w.(w_store)).
Proof. intros [_ (_ & Hk & Hd)%reachable_structure]%world_reached_ok. by split. Qed.

(** C3: Leases. While its owner lives a lease is not handed to anybody else:
    a step leaves the holder as it is, or leaves no lease at all, on a row that
    was settled by it or keeps its state. *)
Theorem live_lease_kept w w' id op op' revision revision' owner : world_reachable limits w → world_step limits w w' →
  (present w.(w_store)).(t_rows) !! id = Some (op, revision) → (present w'.(w_store)).(t_rows) !! id = Some (op', revision') →
  lease_owner op = Some owner → owner ∉ w.(w_dead) →
  holder op' = holder op ∨ op'.(Op_Lease) = None ∧ (op'.(Op_State) = op.(Op_State) ∨ terminal_state op'.(Op_State)).
Proof.
  intros Hr Hs Hl Hl' Hown Hlive. destruct (world_reached_ok _ Hr) as [[K Hw] Ht].
  destruct (world_step_refines _ _ _ Hw Hs) as (_ & _ & _ & [Heq|Hstep]).
  - assert (present w'.(w_store) = present w.(w_store)) as Hp by (by injection Heq). left. rewrite Hp in Hl'. congruence.
  - exact (lease_step _ _ _ _ _ _ _ _ Hstep (reachable_named _ Ht) Hl Hl' Hown Hlive).
Qed.

(** C10: Persistence. A row that was ever written stays, under the same run,
    kind, key, dependencies and limits; what succeeded or was cancelled stays
    so, and a request to cancel is never taken back. *)
Theorem rows_persist w w' id op revision : world_reachable limits w → rtc (world_step limits) w w' →
  (present w.(w_store)).(t_rows) !! id = Some (op, revision) →
  ∃ op' revision', (present w'.(w_store)).(t_rows) !! id = Some (op', revision') ∧ persists op op' ∧ (revision <= revision')%Z.
Proof.
  intros Hr Hs Hl. destruct (world_reached_ok _ Hr) as [[K Hw] Ht]. destruct (world_steps_refine _ _ _ Hw Hs) as (_ & _ & _ & Hsteps).
  exact (steps_persist _ _ _ _ _ Hsteps (reachable_named _ Ht) Hl).
Qed.

(** C5: Attempts and budgets. In a store of safe integers an operation never
    runs more attempts than it is allowed, its counters never wrap, and the
    deadline of a running attempt leaves what was spent within the budget. *)
Theorem attempts_and_budgets_bounded `{!SafeStore St} w id op revision : world_reachable limits w →
  (present w.(w_store)).(t_rows) !! id = Some (op, revision) → counters_ok op.
Proof.
  intros [_ Ht]%world_reached_ok Hl. exact (reachable_counters storable_safe _ Ht _ _ _ Hl).
Qed.

(** C6: Identities. An attempt starts from a lease only, under an identity
    greater than every one the operation had before. *)
Theorem attempt_identity_is_new `{!SafeStore St} w w' id op op' revision revision' : world_reachable limits w → world_step limits w w' →
  (present w.(w_store)).(t_rows) !! id = Some (op, revision) → (present w'.(w_store)).(t_rows) !! id = Some (op', revision') →
  (op.(Op_AttemptIdentity) <= op'.(Op_AttemptIdentity))%Z ∧
  (op'.(Op_State) = Running → op.(Op_State) = Running ∨ op.(Op_State) = Leased ∧ (op.(Op_AttemptIdentity) < op'.(Op_AttemptIdentity))%Z).
Proof.
  intros Hr Hs Hl Hl'. destruct (world_reached_ok _ Hr) as [[K Hw] Ht]. destruct (world_step_refines _ _ _ Hw Hs) as (_ & _ & _ & [Heq|Hstep]).
  - assert (present w'.(w_store) = present w.(w_store)) as Hp by (by injection Heq). rewrite Hp, Hl in Hl'. injection Hl' as <- <-. split; [done|by left].
  - exact (identity_step _ _ _ _ _ _ _ storable_safe Hstep (reachable_named _ Ht) (reachable_counters storable_safe _ Ht) Hl Hl').
Qed.
End worlds.

(* ------------------------------------------------------------------ *)
(** * The durable store *)

Section durable.
#[local] Set Default Proof Using "Type*".
Context `{!Canonicalizer, !URLParser}.
Implicit Types (w : World RuntimeDB) (db : RuntimeDB).

Definition newly_active T id op : Prop := is_active op = true ∧ ∀ old revision, T.(t_rows) !! id = Some (old, revision) → is_active old = true → holder op ≠ holder old.

Lemma not_new T id op revision : T.(t_rows) !! id = Some (op, revision) → ¬ newly_active T id op.
Proof. intros Hl [Ha Hnew]. by apply (Hnew _ _ Hl Ha). Qed.

Lemma put_not_new {limits me} K op expected db T' id op' revision : remembers K (present db) → call_pre limits me K (PutOperation op expected) →
  put_applies op expected (present db) ∧ T' = put_row op (expected + 1) (present db) → T'.(t_rows) !! id = Some (op', revision) → ¬ newly_active (present db) id op'.
Proof.
  intros HK Hpre [Happ ->] Hl. apply put_row_lookup in Hl as [(-> & -> & ->)|[_ Hl]]; [|by eapply not_new]. intros [Ha Hnew].
  unfold put_applies in Happ. destruct Hpre as [(-> & o & i & now & Hf & ->)|(old & Hs & Hr)].
  - apply is_active_iff in Ha as [Hsome _]. destruct (planned_constants o i now) as (_ & _ & _ & _ & Hl & _). rewrite Hl, (fresh_lease _ Hf) in Hsome. by destruct Hsome.
  - destruct (Z.eqb_spec expected 0) as [->|Hne]; [by destruct Hs as (_ & ? & _)|]. destruct Happ as [o Hl].
    rewrite (seen_row _ _ _ _ _ _ _ HK Hs Hl eq_refl) in Hl. apply row_step_effect in Hr as [He _]. destruct (effect_active He Ha). by apply (Hnew _ _ Hl).
Qed.

Lemma acquire_open op expected mR mO mV db : (sqlite_AcquireOperation op expected mR mO mV db).2 ≠ db →
  ∃ row, db.(run_operations) !! op.(Op_ID) = Some row ∧ row.(OperationRow_Revision) = expected ∧
    terminal_run db op.(Op_RunID) = false ∧ run_paused db row.(OperationRow_RunID) = false.
Proof.
  unfold sqlite_AcquireOperation. destruct (_ || _); [done|]. destruct (encodeOperation op); [|done].
  destruct (db.(run_operations) !! op.(Op_ID)) as [row|]; [|done]. destruct (acquire_admits _ _ _ _ _ _ _) eqn:Ha; [|done]. intros _.
  unfold acquire_admits in Ha. rewrite !andb_true_iff, !negb_true_iff in Ha. exists row. split_and!; [done|lia|apply Ha|apply Ha].
Qed.

(** Only the two writes of a row touch the rows. *)
Lemma rows_untouched c T (r : answer c) T' : table_call c T r T' →
  match c with PutOperation _ _ | AcquireOperation _ _ _ _ _ => True | _ => T'.(t_rows) = T.(t_rows) end.
Proof.
  destruct c; simpl; try done; try (intros ->; done); try (intros [-> _]; done).
  - intros [[Hp _]|[-> _]]; [|done]. unfold permit_applies in Hp. repeat case_match; [by destruct Hp as [_ ->]|by subst..].
  - by intros [[[_ ->] _]|[-> _]].
  - by intros [[-> _]|[-> _]].
Qed.

(** C4: Runs. On the durable store no driver takes a lease on an operation of a
    run that is terminal or paused, whatever it read before. *)
Theorem leased_run_is_open (limits : Ceilings) w w' id op revision : world_reachable limits w → world_step limits w w' →
  (present w'.(w_store)).(t_rows) !! id = Some (op, revision) → newly_active (present w.(w_store)) id op →
  terminal_run w.(w_store) op.(Op_RunID) = false ∧ run_paused w.(w_store) op.(Op_RunID) = false.
Proof.
  intros [[K Hw] _]%world_reached_ok Hstep Hl Hnew.
  destruct Hstep as [w i j process c k r st' drivers Hi Hj _ Hserve Hprobe _|w j process p Hj Hm|w owner text Hno|w owner|w st' Hdrift]; cbn [w_store] in *;
    try (by destruct (not_new _ _ _ _ Hl)).
  2: { destruct (drifts_table _ _ (world_store _ _ Hw) Hdrift) as [_ Heq]. rewrite Heq in Hl. by destruct (not_new _ _ _ _ Hl). }
  destruct (world_safe _ _ Hw _ _ _ Hi) as (process' & Hj' & Hsafe). rewrite Hj in Hj'. injection Hj' as <-.
  destruct (Hsafe K ltac:(done)) as [Hpre _]. pose proof (proper_pre _ _ _ (world_store _ _ Hw) (world_past _ _ Hw) Hpre) as Hproper.
  pose proof (serves_table _ _ _ _ (world_store _ _ Hw) Hproper Hserve) as [Hok' Hcall].
  pose proof (rows_untouched _ _ _ _ Hcall) as Hrows.
  destruct c; try (rewrite Hrows in Hl; by destruct (not_new _ _ _ _ Hl)).
  - destruct Hcall as [[Happ _]|[Heq _]]; [|rewrite Heq in Hl; by destruct (not_new _ _ _ _ Hl)].
    by destruct (put_not_new _ _ _ _ _ _ _ _ (world_past _ _ Hw) Hpre Happ Hl).
  - assert (st' ≠ w.(w_store)) as Hchanged by (intros ->; by destruct (not_new _ _ _ _ Hl)).
    assert (st' = (sqlite_AcquireOperation op0 expected maxRuns maxObservations maxVerifications w.(w_store)).2) as ->
      by (destruct Hserve as [[_ Hs]|[_ [Hs|Hs]]]; [done|by destruct Hchanged|done]).
    destruct (acquire_open _ _ _ _ _ _ Hchanged) as (row & Hrow & Hrev & Hopen & Hpaused).
    destruct Hcall as [[[_ Heq] _]|[Heq _]]; [|rewrite Heq in Hl; by destruct (not_new _ _ _ _ Hl)].
    rewrite Heq in Hl. apply put_row_lookup in Hl as [(-> & -> & ->)|[_ Hl]]; [|by destruct (not_new _ _ _ _ Hl)].
    assert ((present w.(w_store)).(t_rows) !! op0.(Op_ID) = Some (row.(OperationRow_Document), expected)) as Hp by (apply present_row; by exists row).
    destruct (Hproper _ Hp) as (_ & Hrun & _). destruct (row_columns _ (world_store _ _ Hw) _ _ Hrow) as (_ & Hcol & _).
    by rewrite <- Hcol, <- Hrun in Hpaused.
Qed.
End durable.
