(* ===== verification/SchedulerBudget.v ===== *)
(** What an attempt is charged: the time it ran, less the time it waited for
    capacity to verify. *)

From S2P Require Import Prelude GoStrings Json Domain Canonical GoTime Plan Events Operation Permit Scheduler OperationStore OperationStoreFacts OperationTable.
From stdpp Require Import options.

Lemma wrap64_width z : (- 2 ^ 63 <= z < 2 ^ 63)%Z → wrap64 z = z.
Proof. unfold wrap64. intros. rewrite Z.mod_small by lia. lia. Qed.

(** ** What a wait is *)

(** A journal tells of a permit by the last event that states it, unless the
    permit was released by it or something that ends it came since: its
    operation settled, was started again in another attempt, or the run is over. *)
Definition told (operationID : string) (e : EngineeringEvent) (p : VerificationPermit) : Prop :=
  e.(Event_Type) = EventVerificationPermitChanged ∧ decodeJSON (struct permit_fields) no_permit e.(Event_Payload) = Some p
  ∧ (operationID = "" ∨ p.(Permit_Parent).(AttemptRef_OperationID) = operationID).
Definition ends (e : EngineeringEvent) (p : VerificationPermit) : Prop :=
  (e.(Event_Type) = EventOperationAfter ∧ p.(Permit_Parent).(AttemptRef_OperationID) = e.(Event_OperationID))
  ∨ (∃ op, e.(Event_Type) = EventOperationBefore ∧ decodeJSON (struct operation_fields) no_operation e.(Event_Payload) = Some op
       ∧ p.(Permit_Parent).(AttemptRef_OperationID) = e.(Event_OperationID) ∧ p.(Permit_Parent).(AttemptRef_Attempt) ≠ op.(Op_AttemptIdentity))
  ∨ e.(Event_Type) ∈ [EventRunCompleted; EventRunFailed; EventRunCancelled].
Definition untouched (operationID : string) (p : VerificationPermit) (e : EngineeringEvent) : Prop :=
  (∀ q, told operationID e q → q.(Permit_ID) ≠ p.(Permit_ID)) ∧ ¬ ends e p.
Definition stands (operationID : string) (events : list EngineeringEvent) (p : VerificationPermit) : Prop :=
  ∃ before e after, events = before ++ e :: after ∧ told operationID e p ∧ p.(Permit_State) ≠ VerificationReleased
    ∧ Forall (untouched operationID p) after.
(** The operation waits when a tool of it asks for capacity and none holds it. *)
Definition waits operationID events : Prop :=
  (∃ p, stands operationID events p ∧ p.(Permit_State) = VerificationWaiting)
  ∧ ¬ ∃ p, stands operationID events p ∧ p.(Permit_State) = VerificationGranted.

Lemma stands_snoc operationID events e p : stands operationID (events ++ [e]) p ↔
  (told operationID e p ∧ p.(Permit_State) ≠ VerificationReleased) ∨ (stands operationID events p ∧ untouched operationID p e).
Proof.
  split.
  - intros (before & f & after & Heq & Ht & Hr & Hu). destruct after as [|g after _] using rev_ind.
    + apply app_inj_tail in Heq as [_ ->]. left. exact (conj Ht Hr).
    + rewrite app_comm_cons, app_assoc in Heq. apply app_inj_tail in Heq as [-> ->]. apply Forall_app in Hu as [Hu Hg%Forall_inv].
      right. split; [by exists before, f, after|exact Hg].
  - intros [[Ht Hr]|[(before & f & after & -> & Ht & Hr & Hu) He]]; [exists events, e, []; split_and!; [done..|constructor]|].
    exists before, f, (after ++ [e]). split_and!; [by rewrite <- app_assoc|done..|]. apply Forall_app. split; [exact Hu|exact (Forall_cons_2 _ _ _ He (Forall_nil_2 _))].
Qed.

(** The same as functions of the events: the tools they tell of, whether some
    ask and none holds, and whether the operation waits at an instant. *)
Definition tools_after (operationID : string) (events : list EngineeringEvent) : gmap string VerificationPermit :=
  foldl (λ tools event, default tools (wait_tools_after operationID tools event)) ∅ events.
Definition is_waiting (tools : gmap string VerificationPermit) : bool := some_tool VerificationWaiting tools && negb (some_tool VerificationGranted tools).
Definition waits_at (events : list EngineeringEvent) (operationID : string) (t : Z) : bool :=
  is_waiting (tools_after operationID (filter (λ e, e.(Event_OccurredAt) <= t)%Z events)).
(** How many instants of [a, b) satisfy [f]. *)
Definition nanoseconds (f : Z → bool) (a b : Z) : Z := Z.of_nat (length (filter f (seqZ a (b - a)))).

Lemma ends_not_permit e p : e.(Event_Type) = EventVerificationPermitChanged → ¬ ends e p.
Proof. unfold ends. intros -> [[? _]|[(op & ? & _)|Hin]]; [done..|]. by rewrite !elem_of_cons, elem_of_nil in Hin; destruct Hin as [?|[?|[?|?]]]. Qed.
Lemma untouched_other operationID e p : e.(Event_Type) ≠ EventVerificationPermitChanged → untouched operationID p e ↔ ¬ ends e p.
Proof. intros Hne. split; [by intros [_ He]|]. intros He. split; [by intros q [? _]|done]. Qed.

(** Each event does to the tools what it says. *)
Lemma tools_step_permit operationID e tools p : e.(Event_Type) = EventVerificationPermitChanged →
  default tools (wait_tools_after operationID tools e) !! p.(Permit_ID) = Some p ↔
  (told operationID e p ∧ p.(Permit_State) ≠ VerificationReleased) ∨ (tools !! p.(Permit_ID) = Some p ∧ untouched operationID p e).
Proof.
  intros He. pose proof (ends_not_permit e p He) as Hends. unfold wait_tools_after, untouched, told. rewrite bool_decide_true by done.
  destruct (decodeJSON _ _ _) as [q|]; cbn; [|naive_solver].
  destruct (decide (operationID = "" ∨ q.(Permit_Parent).(AttemptRef_OperationID) = operationID)) as [Hc|Hc].
  - assert ((operationID ≠? "") && (q.(Permit_Parent).(AttemptRef_OperationID) ≠? operationID) = false) as -> by (repeat case_bool_decide; naive_solver).
    destruct (decide (q.(Permit_ID) = p.(Permit_ID))) as [Hid|Hid]; case_bool_decide as Hs; cbn.
    + rewrite Hid, lookup_delete_eq. naive_solver.
    + rewrite Hid, lookup_insert_eq. naive_solver.
    + rewrite lookup_delete_ne by done. naive_solver.
    + rewrite lookup_insert_ne by done. naive_solver.
  - assert ((operationID ≠? "") && (q.(Permit_Parent).(AttemptRef_OperationID) ≠? operationID) = true) as -> by (repeat case_bool_decide; naive_solver).
    cbn. naive_solver.
Qed.
Lemma run_over_types e : e.(Event_Type) ∈ [EventRunCompleted; EventRunFailed; EventRunCancelled] →
  e.(Event_Type) ≠ EventOperationAfter ∧ e.(Event_Type) ≠ EventOperationBefore.
Proof. rewrite !elem_of_cons, elem_of_nil. by intros [->|[->|[->|?]]]. Qed.
Lemma tools_step operationID e tools p :
  default tools (wait_tools_after operationID tools e) !! p.(Permit_ID) = Some p ↔
  (told operationID e p ∧ p.(Permit_State) ≠ VerificationReleased) ∨ (tools !! p.(Permit_ID) = Some p ∧ untouched operationID p e).
Proof.
  destruct (decide (e.(Event_Type) = EventVerificationPermitChanged)) as [He|He]; [by apply tools_step_permit|].
  rewrite untouched_other by done. assert (¬ told operationID e p) as Ht by (by intros [? _]). pose proof (run_over_types e) as Hover.
  unfold wait_tools_after. rewrite bool_decide_false by done. unfold ends, drop_tools.
  case_bool_decide as Ha; cbn.
  { rewrite map_lookup_filter_Some. cbn. rewrite bool_decide_eq_false. rewrite Ha in Hover |- *. naive_solver. }
  case_bool_decide as Hb; cbn.
  { destruct (decodeJSON _ _ _) as [op|]; cbn; [|naive_solver]. rewrite map_lookup_filter_Some. cbn. rewrite andb_false_iff, negb_false_iff, bool_decide_eq_false, Z.eqb_eq.
    destruct (decide (p.(Permit_Parent).(AttemptRef_Attempt) = op.(Op_AttemptIdentity))); naive_solver. }
  case_bool_decide as Hr; cbn; [rewrite lookup_empty; naive_solver|]. split; [|naive_solver]. intros Hp. right. split; [done|]. naive_solver.
Qed.

Lemma tools_after_stands operationID events p : tools_after operationID events !! p.(Permit_ID) = Some p ↔ stands operationID events p.
Proof.
  induction events as [|e events IH] using rev_ind.
  - unfold tools_after. cbn. rewrite lookup_empty. split; [done|]. by intros ([|? ?] & ? & ? & ? & _).
  - unfold tools_after in *. rewrite foldl_app, stands_snoc. cbn [foldl]. by rewrite tools_step, IH.
Qed.
Lemma wait_tools_keyed operationID e tools id p : (tools !! id = Some p → p.(Permit_ID) = id) →
  default tools (wait_tools_after operationID tools e) !! id = Some p → p.(Permit_ID) = id.
Proof.
  intros Hk. unfold wait_tools_after, drop_tools. repeat case_bool_decide; cbn; [..|done]; try (destruct (decodeJSON _ _ _); cbn; [|done]).
  all: repeat case_match; cbn; rewrite ?lookup_delete_Some, ?lookup_insert_Some, ?map_lookup_filter_Some, ?lookup_empty; naive_solver.
Qed.
Lemma tools_keyed operationID events id p : tools_after operationID events !! id = Some p → p.(Permit_ID) = id.
Proof.
  induction events as [|e events IH] using rev_ind; [by unfold tools_after; cbn; rewrite lookup_empty|].
  unfold tools_after in *. rewrite foldl_app. cbn [foldl]. by apply wait_tools_keyed.
Qed.
Lemma some_tool_stands operationID events state :
  some_tool state (tools_after operationID events) = true ↔ ∃ p, stands operationID events p ∧ p.(Permit_State) = state.
Proof.
  unfold some_tool. rewrite existsb_exists. split.
  - intros (p & Hin & Hs%bool_decide_eq_true). apply list_elem_of_In, list_elem_of_fmap in Hin as ([id q] & -> & Hin%elem_of_map_to_list).
    exists q. split; [|done]. apply tools_after_stands. by rewrite (tools_keyed _ _ _ _ Hin).
  - intros (p & Hp%tools_after_stands & Hs). exists p. split; [|by apply bool_decide_eq_true].
    apply list_elem_of_In, list_elem_of_fmap. exists (p.(Permit_ID), p). split; [done|]. by apply elem_of_map_to_list.
Qed.
Lemma waits_at_spec operationID events t :
  waits_at events operationID t = true ↔ waits operationID (filter (λ e, e.(Event_OccurredAt) <= t)%Z events).
Proof.
  unfold waits_at, is_waiting, waits. rewrite andb_true_iff, negb_true_iff, <- not_true_iff_false, !some_tool_stands. done.
Qed.

Lemma nanoseconds_split f a b c : (a <= b <= c)%Z → nanoseconds f a c = (nanoseconds f a b + nanoseconds f b c)%Z.
Proof.
  intros H. unfold nanoseconds. replace (c - a)%Z with ((b - a) + (c - b))%Z by lia. rewrite seqZ_app by lia.
  replace (a + (b - a))%Z with b by lia. rewrite filter_app, length_app. lia.
Qed.

Lemma filter_constant {A} (f : A → bool) (v : bool) (l : list A) : (∀ x, x ∈ l → f x = v) → length (filter f l) = if v then length l else 0.
Proof.
  induction l as [|x l IH]; intros Hf; [by destruct v|]. rewrite filter_cons. specialize (IH (λ y Hy, Hf y (proj2 (elem_of_cons l y x) (or_intror Hy)))).
  pose proof (Hf x (proj2 (elem_of_cons l x x) (or_introl eq_refl))) as Hx. destruct v; case_decide as Hd; rewrite Hx in Hd; simpl in *; [by rewrite IH|by destruct Hd|done|done].
Qed.

Lemma nanoseconds_constant f v a b : (a <= b)%Z → (∀ t, (a <= t < b)%Z → f t = v) → nanoseconds f a b = if v then (b - a)%Z else 0%Z.
Proof.
  intros Hab Hf. unfold nanoseconds. rewrite (filter_constant f v); [|intros t Ht%elem_of_seqZ; apply Hf; lia].
  destruct v; [|done]. rewrite length_seqZ. lia.
Qed.

Lemma nanoseconds_negated f a b : (nanoseconds f a b + nanoseconds (λ t, negb (f t)) a b)%Z = Z.max 0 (b - a).
Proof.
  unfold nanoseconds. transitivity (Z.of_nat (length (seqZ a (b - a)))); [|rewrite length_seqZ; lia].
  induction (seqZ a (b - a)) as [|t l IH]; [done|]. rewrite !filter_cons. repeat case_decide; destruct (f t); simpl in *; try done; lia.
Qed.

Definition in_order (events : list EngineeringEvent) : Prop := Sorted (λ e e', (e.(Event_OccurredAt) <= e'.(Event_OccurredAt))%Z) events.
(** No event carries the zero instant, which [opened.IsZero()] reads as no wait. *)
Definition dated (events : list EngineeringEvent) : Prop := Forall (λ e, (0 < e.(Event_OccurredAt))%Z) events.

Lemma in_order_first event events : in_order (event :: events) → Forall (λ e, (event.(Event_OccurredAt) <= e.(Event_OccurredAt))%Z) events.
Proof.
  intros Hord. apply (Sorted_extends (R := λ e e', (e.(Event_OccurredAt) <= e'.(Event_OccurredAt))%Z)); [|exact Hord].
  intros x y z. cbv beta. lia.
Qed.

Lemma filter_all {A} (P : A → Prop) `{!∀ x, Decision (P x)} (l : list A) : Forall P l → filter P l = l.
Proof. induction 1 as [|x l Hx _ IH]; [done|]. by rewrite filter_cons_True, IH. Qed.
Lemma filter_none {A} (P : A → Prop) `{!∀ x, Decision (P x)} (l : list A) : Forall (λ x, ¬ P x) l → filter P l = [].
Proof. induction 1 as [|x l Hx _ IH]; [done|]. by rewrite filter_cons_False. Qed.

(** ** What the loop measures *)
Section wait.
Variables (operationID : string) (since until : Z) (all : list EngineeringEvent).
Hypothesis span : (until <= since + maxDuration)%Z.
Implicit Types (s : WaitState) (events : list EngineeringEvent).

Definition within (t : Z) : Z := Z.max since (Z.min t until).
Definition pending s (t : Z) : Z := if (s.(wait_opened) =? 0)%Z then 0%Z else (within t - within s.(wait_opened))%Z.

(** The state after the events [past], at an instant [now] that is no earlier
    than they and no later than those to come. *)
Record measured (past rest : list EngineeringEvent) (now : Z) s : Prop := {
  measured_all : all = past ++ rest;
  measured_past : Forall (λ e, (e.(Event_OccurredAt) <= now)%Z) past;
  measured_rest : Forall (λ e, (now <= e.(Event_OccurredAt))%Z) rest;
  measured_tools : s.(wait_tools) = tools_after operationID past;
  measured_open : is_waiting s.(wait_tools) = negb (s.(wait_opened) =? 0)%Z;
  measured_since : (s.(wait_opened) <= now ∨ s.(wait_opened) = 0)%Z;
  measured_least : (0 <= s.(wait_excluded))%Z;
  measured_wait : (s.(wait_excluded) + pending s now)%Z = nanoseconds (waits_at all operationID) since (within now)
}.

Lemma waits_between past rest t : all = past ++ rest → Forall (λ e, (e.(Event_OccurredAt) <= t)%Z) past → Forall (λ e, (t < e.(Event_OccurredAt))%Z) rest →
  waits_at all operationID t = is_waiting (tools_after operationID past).
Proof using Type*.
  intros -> Hp Hr. unfold waits_at. rewrite filter_app, (filter_all _ past Hp), (filter_none _ rest), app_nil_r; [done|].
  eapply Forall_impl; [exact Hr|]. intros e He. cbv beta in *. lia.
Qed.

Lemma measured_later past rest now now' s : (now <= now')%Z → Forall (λ e, (now' <= e.(Event_OccurredAt))%Z) rest →
  measured past rest now s → measured past rest now' s.
Proof using Type*.
  intros Hle Hrest [Hall Hp Hr Ht Ho Hs H0 Hw]. split; [done| |done|done|done|lia|done|].
  { eapply Forall_impl; [exact Hp|]. intros e He. cbv beta in *. lia. }
  rewrite (nanoseconds_split _ since (within now) (within now')) by (unfold within; lia). rewrite <- Hw.
  rewrite (nanoseconds_constant _ (is_waiting (tools_after operationID past))); [|unfold within; lia|].
  - rewrite <- Ht, Ho. unfold pending. destruct (_ =? 0)%Z; cbn [negb]; lia.
  - intros t Ht'. apply (waits_between _ rest); [done| |].
    + eapply Forall_impl; [exact Hp|]. intros e He. unfold within in Ht'. cbv beta in *. lia.
    + eapply Forall_impl; [exact Hrest|]. intros e He. unfold within in Ht'. cbv beta in *. lia.
Qed.

Lemma Sub_span start stop : (since <= start)%Z → (start < stop)%Z → (stop <= until)%Z → Sub stop start = (stop - start)%Z.
Proof using span. unfold Sub, maxDuration, minDuration in *. intros. lia. Qed.

Lemma nanoseconds_within f t : (0 <= nanoseconds f since (within t) <= maxDuration)%Z.
Proof using span. pose proof (nanoseconds_negated f since (within t)) as H. unfold nanoseconds, within, maxDuration in *. lia. Qed.

(** Closing a wait books what is pending. *)
Lemma closeWait_books now s f : (s.(wait_opened) <= now ∨ s.(wait_opened) = 0)%Z → (0 <= s.(wait_excluded))%Z →
  (s.(wait_excluded) + pending s now)%Z = nanoseconds f since (within now) →
  closeWait since until s now = MkWait s.(wait_tools) 0 (nanoseconds f since (within now)).
Proof using span.
  intros Hs H0 Hw. pose proof (nanoseconds_within f now) as Hb. rewrite <- Hw in Hb |- *. unfold closeWait, pending in *.
  destruct s as [tools opened excluded]; cbn [wait_tools wait_opened wait_excluded] in *. destruct (Z.eqb_spec opened 0) as [->|Hz]; [by rewrite Z.add_0_r|].
  f_equal. set (start := if (_ <? since)%Z then since else _). set (stop := if (until <? now)%Z then until else now).
  assert (start = Z.max opened since)%Z as Hstart by (subst start; destruct (Z.ltb_spec opened since); lia).
  assert (stop = Z.min until now)%Z as Hstop by (subst stop; destruct (Z.ltb_spec until now); lia). clearbody start stop.
  unfold within in *. destruct (Z.ltb_spec start stop) as [Hlt|Hge]; [|lia].
  rewrite Sub_span by lia. rewrite wrap64_width by (unfold maxDuration in *; lia). lia.
Qed.

Lemma measured_step past event rest s : (0 < event.(Event_OccurredAt))%Z → Forall (λ e, (event.(Event_OccurredAt) <= e.(Event_OccurredAt))%Z) rest →
  measured past (event :: rest) event.(Event_OccurredAt) s →
  measured (past ++ [event]) rest event.(Event_OccurredAt) (wait_step operationID since until s event).
Proof using span.
  intros Hpos Hrest [Hall Hp _ Ht Ho Hs H0 Hw]. unfold wait_step.
  assert (tools_after operationID (past ++ [event]) = default s.(wait_tools) (wait_tools_after operationID s.(wait_tools) event)) as Hafter
    by (unfold tools_after; rewrite foldl_app, Ht; done).
  assert (all = (past ++ [event]) ++ rest) as Hall' by (by rewrite <- app_assoc).
  assert (Forall (λ e, (e.(Event_OccurredAt) <= event.(Event_OccurredAt))%Z) (past ++ [event])) as Hpast by (apply Forall_app; split; [done|by repeat constructor; lia]).
  destruct (wait_tools_after operationID _ event) as [tools|]; cbn [default] in Hafter; [|by split].
  assert (negb (some_tool VerificationWaiting tools) || some_tool VerificationGranted tools = negb (is_waiting tools)) as -> by (unfold is_waiting; by rewrite negb_andb, negb_involutive).
  destruct (is_waiting tools) eqn:Hwaiting; cbn [negb].
  - cbn [wait_opened wait_excluded]. destruct (Z.eqb_spec s.(wait_opened) 0) as [Hz|Hz].
    + split; cbn [wait_tools wait_opened wait_excluded]; [done..| |by left|done|].
      * destruct (Z.eqb_spec event.(Event_OccurredAt) 0); [lia|done].
      * rewrite <- Hw. unfold pending; cbn [wait_opened]. rewrite Hz. destruct (_ =? 0)%Z; cbn; lia.
    + split; cbn [wait_tools wait_opened wait_excluded]; [done..| |done|done|done]. by destruct (Z.eqb_spec s.(wait_opened) 0).
  - rewrite (closeWait_books _ (MkWait tools s.(wait_opened) s.(wait_excluded)) (waits_at all operationID)) by done.
    pose proof (nanoseconds_within (waits_at all operationID) event.(Event_OccurredAt)).
    split; cbn [wait_tools wait_opened wait_excluded]; [done..| |by right|lia|]; [done|]. unfold pending; cbn. lia.
Qed.

Lemma measured_loop rest past now s : in_order rest → dated rest → (now <= until)%Z → measured past rest now s →
  ∃ past' rest', measured past' rest' until (wait_loop operationID since until rest s).
Proof using span.
  revert past now s. induction rest as [|e rest IH]; intros past now s Hord Hpos Hnow Hm; simpl.
  { exists past, []. by apply (measured_later _ _ now). }
  pose proof (in_order_first e rest Hord) as Hle.
  pose proof (Forall_inv (measured_rest _ _ _ _ Hm)) as He. cbv beta in He.
  destruct (Z.ltb_spec until e.(Event_OccurredAt)) as [Hlt|Hge].
  - exists past, (e :: rest). apply (measured_later _ _ now); [done| |done]. constructor; [cbv beta; lia|].
    eapply Forall_impl; [exact Hle|]. intros e' He'. cbv beta in *. lia.
  - apply (IH (past ++ [e]) e.(Event_OccurredAt)); [by apply Sorted_inv in Hord as [? _]|by apply Forall_inv_tail in Hpos|done|].
    apply measured_step; [exact (Forall_inv Hpos)|done|]. apply (measured_later _ _ now); [done| |done].
    by constructor; [cbv beta; lia|].
Qed.
End wait.

(** [verificationWait] is the time the operation waited between the two instants. *)
Lemma verificationWait_counts events operationID since until : in_order events → dated events → (until <= since + maxDuration)%Z →
  verificationWait events operationID since until = nanoseconds (waits_at events operationID) since until.
Proof.
  intros Hord Hpos Hspan. unfold verificationWait.
  set (first := Z.min until (Z.min since (match events with [] => until | e :: _ => e.(Event_OccurredAt) end))).
  assert (within since until first = since) as Hfirst by (unfold within; lia).
  assert (measured operationID since until events [] events first (MkWait ∅ 0 0)) as Hm.
  { split; cbn [wait_tools wait_opened wait_excluded]; [done|by constructor| |done|done|by right|done|].
    - destruct events as [|e events]; [by constructor|]. constructor; [cbv beta; lia|].
      eapply Forall_impl; [exact (in_order_first e events Hord)|]. intros e' He'. cbv beta in *. lia.
    - unfold pending. cbn. rewrite Hfirst. unfold nanoseconds. by rewrite Z.sub_diag. }
  destruct (measured_loop operationID since until events Hspan events [] first (MkWait ∅ 0 0) Hord Hpos ltac:(lia) Hm) as (past & rest & [_ _ _ _ _ Hs H0 Hw]).
  rewrite (closeWait_books since until Hspan until _ _ Hs H0 Hw). cbn [wait_excluded].
  unfold within. destruct (Z.le_ge_cases since until); [by rewrite Z.min_id, Z.max_r by lia|]. rewrite Z.max_l by lia.
  unfold nanoseconds. by rewrite !seqZ_nil by lia.
Qed.

Lemma restored_refund op : (restored true op).(Op_ConsumedExecution) = Z.max 0 (wrap64 (op.(Op_ConsumedExecution) - op.(Op_LastAttemptExecution))).
Proof. unfold restored. by destruct (0 <? _)%Z. Qed.

(** C7: Charges. For an operation with the counters of a reachable row, whose
    attempt ends less than 292 years after it began and whose settled row has
    counters a store of safe integers can hold, over a journal whose events are
    dated and in the order of time: what the attempt is charged is the number of
    nanoseconds it ran in which no tool of it was waiting for verification
    capacity that none of them held, an attempt that ends before it began being
    charged nothing.  A tool waits or holds by the last event that states its
    permit, unless it released the permit or its operation settled, began another
    attempt or lost its run since.  The charge is added once to what the operation
    consumed, nothing is left running, and restoring the attempt gives back
    exactly that charge. *)
Theorem finished_charges_exactly op events since ended state retryAt disposition :
  op.(Op_ActiveSince) = Some since → in_order events → dated events → (ended <= since + maxDuration)%Z → counters_ok op →
  let wait := verificationWait events op.(Op_ID) since ended in
  let op' := finished state retryAt disposition op ended wait in
  safe_counters op' →
  ∃ waiting, (∀ t, waiting t = true ↔ waits op.(Op_ID) (filter (λ e, e.(Event_OccurredAt) <= t)%Z events)) ∧
  let charge := nanoseconds (λ t, negb (waiting t)) since ended in
  wait = nanoseconds waiting since ended ∧ (wait + charge = Z.max 0 (ended - since))%Z
  ∧ op'.(Op_LastAttemptExecution) = charge ∧ op'.(Op_ConsumedExecution) = (op.(Op_ConsumedExecution) + charge)%Z
  ∧ op'.(Op_ActiveSince) = None ∧ op'.(Op_Lease) = None ∧ op'.(Op_Deadline) = None
  ∧ (restored true op').(Op_ConsumedExecution) = op.(Op_ConsumedExecution).
Proof.
  intros Hact Hord Hpos Hspan Hok wait op' Hsafe. set (waiting := waits_at events op.(Op_ID)).
  exists waiting. split; [intros t; apply waits_at_spec|]. intros charge. pose proof (verificationWait_counts events op.(Op_ID) since ended Hord Hpos Hspan) as Hwait. fold wait waiting in Hwait.
  pose proof (nanoseconds_negated waiting since ended) as Hsum. fold charge in Hsum. rewrite <- Hwait in Hsum.
  assert (0 <= wait ∧ 0 <= charge)%Z as [Hw0 Hc0] by (rewrite Hwait; unfold charge, nanoseconds; lia).
  destruct (settle_spending (set_lease None (set_retry retryAt disposition (set_state state op))) ended wait since Hact) as (Hc & Hl & Ha).
  assert (Z.max 0 (wrap64 (Sub ended since - wait)) = charge)%Z as Hspent.
  { unfold Sub, maxDuration, minDuration in *. destruct (Z.le_gt_cases since ended); rewrite wrap64_width by lia; lia. }
  rewrite Hspent in Hc, Hl. cbn [Op_ConsumedExecution set_lease set_retry set_state] in Hc. destruct Hok as [Hop _ _ Hlast _].
  assert (wrap64 (op.(Op_ConsumedExecution) + charge) = op.(Op_ConsumedExecution) + charge)%Z as Hexact.
  { apply charge_exact; [lia|by destruct Hop as (_ & _ & _ & _ & ? & _)|unfold maxDuration in *; lia|].
    destruct Hsafe as (_ & _ & _ & _ & Hcs & _). change (safe_range (settle (set_lease None (set_retry retryAt disposition (set_state state op))) ended wait).(Op_ConsumedExecution)) in Hcs.
    by rewrite Hc in Hcs. }
  rewrite Hexact in Hc. assert (op'.(Op_LastAttemptExecution) = charge ∧ op'.(Op_ConsumedExecution) = op.(Op_ConsumedExecution) + charge)%Z as [HL HC] by (by split).
  split_and!; [done|lia|done|done|exact Ha| | |].
  - pose proof (finished_frame state retryAt disposition op ended wait) as (_ & _ & Hlease & _)%frame_inv. exact Hlease.
  - done.
  - rewrite restored_refund, HL, HC. replace (op.(Op_ConsumedExecution) + charge - charge)%Z with op.(Op_ConsumedExecution) by lia.
    destruct Hop as (_ & _ & _ & _ & Hcs & _). unfold safe_range, maxSafeInteger in Hcs. rewrite wrap64_width by lia. lia.
Qed.
