(* ===== verification/SchedulerRun.v ===== *)
(** One process at work on the durable store ([SQLiteOperationStore] of
    [runtime/sqlite_store.go]) where no statement fails: its methods
    evaluate, what is evaluated is an execution of the world, and [Next] leases
    the first operation of the queue that is due and has room. *)

From S2P Require Import Prelude GoStrings Json Domain Canonical GoTime Plan Events Operation Permit Scheduler OperationStore OperationStoreFacts OperationTable SchedulerFacts SchedulerWorld.
From stdpp Require Import options.

(** The clock, the random source, who is dead and which locks of tools are
    held, while a method runs. *)
Record Surroundings := MkSurroundings {
  at_now : Z;
  at_text : string;
  at_dead : gset string;
  at_locked : string → string → bool
}.

Record Node (St : Type) := MkNode {
  node_drivers : DriverLeases;
  node_store : St
}.
Arguments MkNode {St}.
Arguments node_drivers {St}.
Arguments node_store {St}.

(** The answer to a call, of the process, its surroundings or the store. *)
Definition perform {St} (serve : ∀ c, St → option (answer c * St)) (e : Surroundings) (c : action) (n : Node St) : option (answer c * Node St) :=
  let d := n.(node_drivers) in
  let st := n.(node_store) in
  match c return option (answer c * Node St) with
  | Now => Some (e.(at_now), n)
  | Alive owner => Some (bool_decide (owner ∉ e.(at_dead)), n)
  | LockAlive dir owner => Some (e.(at_locked) dir owner, n)
  | RandText => Some (e.(at_text), n)
  | IssueGrant => Some ((drivers_issue d).1, MkNode (drivers_issue d).2 st)
  | ReleaseGrant grant => Some (tt, MkNode (drivers_release d grant) st)
  | GrantAbandoned grant => Some (drivers_abandoned d grant, n)
  | ReconcileSandbox _ => None
  | c => option_map (λ r : answer c * St, (r.1, MkNode d r.2)) (serve c st)
  end.

Fixpoint run {St A} (serve : ∀ c, St → option (answer c * St)) (e : Surroundings) (p : prog A) (n : Node St) : option (A * Node St) :=
  match p with
  | Ret a => Some (a, n)
  | Act c k => r ← perform serve e c n; run serve e (k r.1) r.2
  end.

Lemma run_bind {St A B} (serve : ∀ c, St → option (answer c * St)) e (p : prog A) (k : A → prog B) n :
  run serve e (pbind p k) n = r ← run serve e p n; run serve e (k r.1) r.2.
Proof.
  revert n. induction p as [a|c f IH]; intros n; simpl; [done|]. destruct (perform serve e c n) as [[r n']|]; simpl; [apply IH|done].
Qed.

(** The durable store where no statement fails. *)
Definition sqlite_serve `{!Canonicalizer, !URLParser} (c : action) (db : RuntimeDB) : option (answer c * RuntimeDB) :=
  match c return option (answer c * RuntimeDB) with
  | Operations runID => Some (Ok (sqlite_Operations runID db), db)
  | AllOperations => Some (Ok (sqlite_AllOperations db), db)
  | ReadOperation id => Some (Ok (sqlite_Operation id db), db)
  | OperationByIdempotencyKey runID key => Some (Ok (sqlite_OperationByIdempotencyKey runID key db), db)
  | PutOperation op expected => Some (sqlite_PutOperation op expected db)
  | AcquireOperation op expected maxRuns maxObservations maxVerifications => Some (sqlite_AcquireOperation op expected maxRuns maxObservations maxVerifications db)
  | VerificationPermits => Some (sqlite_VerificationPermits db, db)
  | ReadPermit id => Some (sqlite_VerificationPermit id db, db)
  | ReadEvents runID => Some (Ok (run_stream runID db), db)
  | ReviewVerificationClaims => Some (Ok (map_to_list db.(review_verification_claims)).*2, db)
  | ClaimReviewVerificationSlot claim maxRuns maxVerifications => Some (sqlite_ClaimReviewVerificationSlot claim maxRuns maxVerifications db)
  | ReleaseReviewVerificationClaim id => Some (sqlite_ReleaseReviewVerificationClaim id db)
  | _ => None
  end.

Lemma sqlite_served `{!Canonicalizer, !URLParser} c st r st' : sqlite_serve c st = Some (r, st') → serves c st r st'.
Proof.
  destruct c; simpl; try done; intros Hs;
    first [injection Hs as <- <-; by split; [left|]|injection Hs as <- <-; by left|injection Hs as Hs; left; by rewrite Hs].
Qed.
Lemma sqlite_quiet `{!Canonicalizer, !URLParser} c st :
  match c with Now | Alive _ | LockAlive _ _ | RandText | IssueGrant | ReleaseGrant _ | GrantAbandoned _ => ∀ r, serves c (st : RuntimeDB) r st | _ => True end.
Proof. by destruct c. Qed.

Section execution.
#[local] Set Default Proof Using "Type*".
Context {St : Type} `{!OperationStore St}.
Variables (limits : Ceilings) (serve : ∀ c, St → option (answer c * St)).
Hypothesis served : ∀ c st r st', serve c st = Some (r, st') → serves c st r st'.
Implicit Types (w : World St) (n : Node St).

(** The calls a process answers itself leave the store alone. *)
Hypothesis quiet : ∀ c st, match c with Now | Alive _ | LockAlive _ _ | RandText | IssueGrant | ReleaseGrant _ | GrantAbandoned _ => ∀ r, serves c st r st | _ => True end.

Lemma perform_serves e c n r n' : perform serve e c n = Some (r, n') →
  serves c n.(node_store) r n'.(node_store) ∧ probed e.(at_dead) c r ∧ recorded c n.(node_drivers) r n'.(node_drivers).
Proof.
  pose proof (quiet c n.(node_store)) as Hq. destruct c; simpl; try done;
    try (match goal with |- option_map _ ?o = _ → _ => destruct o as [[r1 st']|] eqn:Hs; [|done] end; simpl; intros [= <- <-]; apply served in Hs; by split_and!); intros [= <- <-]; simpl in *; try (by split_and!).
  split_and!; [done| |done]. intros Hd%bool_decide_eq_false. by apply dec_stable.
Qed.

(** One call of a thread, and several; a thread that cannot go on stays. *)
Definition act (now : Z) (text : string) (i : nat) w : option (World St) :=
  '(j, p) ← w.(w_threads) !! i;
  process ← w.(w_processes) !! j;
  match p with
  | Ret _ => None
  | Act c k =>
      if bool_decide (process.(Process_Owner) ∈ w.(w_dead)) then None
      else
        r ← perform serve (MkSurroundings now text w.(w_dead) (λ _ _, true)) c (MkNode process.(Process_Drivers) w.(w_store));
        Some (MkWorld r.2.(node_store) w.(w_dead) (<[j := MkProcess process.(Process_Owner) r.2.(node_drivers)]> w.(w_processes)) (<[i := (j, k r.1)]> w.(w_threads)))
  end.
Fixpoint acts (fuel : nat) (now : Z) (text : string) (i : nat) w : World St :=
  match fuel with
  | O => w
  | S fuel => match act now text i w with Some w' => acts fuel now text i w' | None => w end
  end.

Lemma act_step now text i w w' : act now text i w = Some w' → world_step limits w w'.
Proof.
  unfold act. destruct (w.(w_threads) !! i) as [[j p]|] eqn:Hi; [|done]. simpl. destruct (w.(w_processes) !! j) as [process|] eqn:Hj; [|done]. simpl.
  destruct p as [|c k]; [done|]. destruct (bool_decide _) eqn:Hlive; [done|]. apply bool_decide_eq_false in Hlive.
  destruct (perform _ _ _ _) as [[r n]|] eqn:Hp; [|done]. simpl. intros [= <-]. destruct (perform_serves _ _ _ _ _ Hp) as (Hs & Hpr & Hrec). by eapply world_call.
Qed.
Lemma acts_steps fuel now text i w : rtc (world_step limits) w (acts fuel now text i w).
Proof.
  revert w. induction fuel as [|fuel IH]; intros w; simpl; [done|]. destruct (act now text i w) as [w'|] eqn:Ha; [|done].
  eapply rtc_l; [by eapply act_step|apply IH].
Qed.
End execution.

(* ------------------------------------------------------------------ *)
(** * The next operation *)

Section next.
Context `{!Canonicalizer, !URLParser}.
Variables (s : Scheduler) (e : Surroundings).
#[local] Set Default Proof Using "Type*".
Implicit Types (op : RunOperation) (db : RuntimeDB) (d : DriverLeases) (n : Node RuntimeDB).
Local Notation run := (run sqlite_serve).

(** ** A store nothing is to be taken back from *)

(** An active operation is being driven: its owner lives, and its grant is one
    the process still holds or cannot vouch for. *)
Definition driven d op : Prop := ∀ lease, op.(Op_Lease) = Some lease →
  lease.(Lease_Owner) ∉ e.(at_dead) ∧ (s.(Scheduler_Drivers) = true → drivers_abandoned d lease.(Lease_Grant) = false).
(** A permit stands: it is released, or has not expired, or its tool is alive. *)
Definition tool_alive (p : VerificationPermit) : bool :=
  if p.(Permit_ToolLockDir) ≠? "" then e.(at_locked) p.(Permit_ToolLockDir) p.(Permit_ToolOwner)
  else bool_decide (p.(Permit_ToolOwner) ∉ e.(at_dead)).
Definition permit_stands (p : VerificationPermit) : Prop :=
  p.(Permit_State) = VerificationReleased ∨ (e.(at_now) < p.(Permit_ExpiresAt))%Z ∨ tool_alive p = true.
Definition claim_stands (c : ReviewVerificationClaim) : Prop := (e.(at_now) < c.(Claim_ExpiresAt))%Z ∨ c.(Claim_ControllerOwner) ∉ e.(at_dead).

Record calm d db : Prop := {
  calm_rows id row : db.(run_operations) !! id = Some row → is_active row.(OperationRow_Document) = true → driven d row.(OperationRow_Document);
  calm_permits id p revision : db.(verification_permits) !! id = Some (p, revision) → permit_validate p = Ok tt ∧ permit_stands p;
  calm_claims id c : db.(review_verification_claims) !! id = Some c → claim_stands c
}.

Lemma is_abandoned_driven d db op : driven d op → run e (is_abandoned (defaults s) e.(at_now) op) (MkNode d db) = Some (false, MkNode d db).
Proof.
  intros Hd. unfold is_abandoned, stranded, grant_abandoned. destruct op.(Op_Lease) as [lease|] eqn:Hl; [|done].
  destruct (Hd _ Hl) as [Hlive Hg]. simpl. rewrite bool_decide_eq_true_2 by done.
  assert (CanAcquire op e.(at_now) true = false) as ->.
  { unfold CanAcquire. rewrite Hl. repeat case_match; done. }
  destruct (_ || _); [done|]. destruct s.(Scheduler_Drivers); [|done]. simpl. by rewrite Hg.
Qed.

Lemma run_each {A} (f : A → prog (result SchedulerError ())) l n : (∀ x, x ∈ l → run e (f x) n = Some (Ok tt, n)) → run e (each f l) n = Some (Ok tt, n).
Proof.
  induction l as [|x l IH]; intros Hf; [done|]. cbn [each]. unfold rpbind. rewrite run_bind, Hf by (by left). simpl. apply IH. intros y Hy. apply Hf. by right.
Qed.

Lemma scan_driven d db op : (is_active op = true → driven d op) →
  run e (if is_active op then let! _ := reclaimAbandoned (defaults s) op e.(at_now) in done_with () else done_with ()) (MkNode d db) = Some (Ok tt, MkNode d db).
Proof.
  intros Hd. destruct (is_active op); [|done]. unfold rpbind, reclaimAbandoned. rewrite !run_bind, is_abandoned_driven by auto. done.
Qed.

Lemma reclaim_permit_stands `{!Rounds} d db p : permit_stands p → run e (reclaimVerificationPermit (defaults s) p) (MkNode d db) = Some (Ok tt, MkNode d db).
Proof.
  intros Hp. unfold reclaimVerificationPermit. destruct (bool_decide_reflect (p.(Permit_State) = VerificationReleased)) as [|Hr]; [done|].
  cbn. destruct (Z.ltb_spec e.(at_now) p.(Permit_ExpiresAt)); [done|]. rewrite run_bind. unfold verificationOwnerAlive.
  assert (tool_alive p = true) as Ha by (destruct Hp as [?|[?|?]]; [done|lia|done]). unfold tool_alive in Ha.
  destruct (_ ≠? _); cbn; by rewrite Ha.
Qed.

Lemma permits_listed d db : sqlite_ok db → calm d db →
  ∃ l, sqlite_VerificationPermits db = Ok l ∧ ∀ p, p ∈ l → ∃ id revision, db.(verification_permits) !! id = Some (p, revision).
Proof.
  intros Hok Hcalm. unfold sqlite_VerificationPermits. set (rows := sort_by _ _).
  assert (∀ row, row ∈ rows → db.(verification_permits) !! row.1 = Some row.2) as Hrows.
  { intros [id row] Hin. unfold rows, sort_by in Hin. rewrite merge_sort_Permutation in Hin. apply elem_of_filter_true in Hin as [Hin _]. by apply elem_of_map_to_list in Hin. }
  exists ((λ row, row.2.1) <$> rows). split.
  - assert (check_all (λ row, read_permit row.1 row.2.1) rows = Ok tt) as ->; [|done]. apply check_all_ok. intros [id [p revision]] Hin. specialize (Hrows _ Hin). simpl in *.
    unfold read_permit. destruct (calm_permits _ _ Hcalm _ _ _ Hrows) as [-> _]. rewrite (permit_named _ Hok _ _ _ Hrows). simpl. by rewrite bool_decide_eq_true_2.
  - intros p ((id & [p' revision]) & -> & Hin)%list_elem_of_fmap. exists id, revision. by apply Hrows in Hin.
Qed.

Lemma reclaim_permits_calm `{!Rounds} d db : sqlite_ok db → calm d db →
  run e (reclaimVerificationPermits (defaults s)) (MkNode d db) = Some (Ok tt, MkNode d db).
Proof.
  intros Hok Hcalm. unfold reclaimVerificationPermits. destruct (negb _); [done|]. destruct (permits_listed d db Hok Hcalm) as (l & Hl & Hin).
  unfold rpbind, pwrap. rewrite !run_bind. cbn. rewrite Hl. cbn. apply run_each. intros p (id & revision & Hp)%Hin. rewrite run_bind.
  destruct (calm_permits _ _ Hcalm _ _ _ Hp) as [_ Hs]. by rewrite reclaim_permit_stands.
Qed.

Lemma reclaim_claims_calm d db : calm d db → run e (reclaimReviewVerificationClaims (defaults s)) (MkNode d db) = Some (Ok tt, MkNode d db).
Proof.
  intros Hcalm. unfold reclaimReviewVerificationClaims. destruct (negb _); [done|]. unfold rpbind, pwrap. rewrite !run_bind. cbn. apply run_each.
  intros c (id & Hc)%elem_of_map_values. destruct (calm_claims _ _ Hcalm _ _ Hc) as [Hlt|Halive].
  - by rewrite (proj2 (Z.ltb_lt _ _) Hlt).
  - destruct (_ <? _)%Z; [done|]. cbn. by rewrite bool_decide_eq_true_2.
Qed.

(** ** Room for an operation *)

(** The store has room for an operation: its run is free, open and not paused,
    no tool of the run holds verification capacity, and the ceilings of its
    class and, where it verifies, of verification leave room. *)
Record room db op : Prop := {
  room_alone id row : db.(run_operations) !! id = Some row → id ≠ op.(Op_ID) → row.(OperationRow_RunID) = op.(Op_RunID) → row_active row = false;
  room_open : terminal_run db op.(Op_RunID) = false;
  room_unpaused : run_paused db op.(Op_RunID) = false;
  room_tools id p revision : db.(verification_permits) !! id = Some (p, revision) → permit_held p = true → p.(Permit_Parent).(AttemptRef_RunID) ≠ op.(Op_RunID);
  room_class : if OperationCapacityClass op.(Op_Kind) ≟ CapacityObservation
    then (classCount op.(Op_RunID) true db < (defaults s).(Scheduler_MaxConcurrentObservations))%Z
    else (workCount op.(Op_RunID) db < (defaults s).(Scheduler_MaxConcurrentRuns))%Z;
  room_verification : consumesVerification op.(Op_Kind) = true → (verificationCount db < (defaults s).(Scheduler_MaxConcurrentVerifications))%Z
}.
Local Notation admits op revision db row := (acquire_admits op revision (defaults s).(Scheduler_MaxConcurrentRuns)
  (defaults s).(Scheduler_MaxConcurrentObservations) (defaults s).(Scheduler_MaxConcurrentVerifications) db row).

Lemma room_admits db op row : sqlite_ok db → db.(run_operations) !! op.(Op_ID) = Some row → row.(OperationRow_RunID) = op.(Op_RunID) →
  admits op row.(OperationRow_Revision) db row = true ↔ room db op.
Proof.
  intros Hok Hrow Hrun. unfold acquire_admits. rewrite Hrun, Z.eqb_refl. cbn [andb]. rewrite !andb_true_iff, !negb_true_iff, !existsb_false, orb_true_iff, negb_true_iff, Z.ltb_lt, Z.ltb_lt.
  split.
  - intros (((((Halone & Hopen) & Hpaused) & Htools) & Hclass) & Hver). split; [|done|done| | |].
    + intros id other Hl Hne Hr. specialize (Halone (id, other) ltac:(by apply elem_of_map_to_list)). simpl in Halone.
      rewrite bool_decide_eq_true_2, bool_decide_eq_false_2 in Halone by done. exact Halone.
    + intros id p revision Hl Hh Hr. specialize (Htools p ltac:(apply elem_of_values; by exists id, revision)). rewrite Hh, bool_decide_eq_true_2 in Htools by done. discriminate Htools.
    + unfold workCount. destruct (_ ≟ CapacityObservation); lia.
    + intros Hc. destruct Hver as [Hver|?]; [by rewrite Hver in Hc|done].
  - intros [Halone Hopen Hpaused Htools Hclass Hver]. split_and!; [|done|done| | |].
    + intros [id other] Hl%elem_of_map_to_list. simpl. destruct (bool_decide_reflect (other.(OperationRow_RunID) = op.(Op_RunID))); [|done].
      destruct (bool_decide_reflect (id = op.(Op_ID))); [done|]. cbn. by eapply Halone.
    + intros p (id & revision & Hl)%elem_of_values. destruct (permit_held p) eqn:Hh; [|done]. cbn. apply bool_decide_eq_false. by eapply Htools.
    + unfold workCount in Hclass. destruct (_ ≟ CapacityObservation); lia.
    + destruct (consumesVerification _); [right; by apply Hver|by left].
Qed.

(** ** Leases *)

(** What the liveness probe says of the owner of a row. *)
Definition owner_alive op : bool :=
  match op.(Op_Lease) with Some lease => bool_decide (lease.(Lease_Owner) ∉ e.(at_dead)) | None => false end.
Definition lease_now (grant : string) : Lease :=
  MkLease s.(Scheduler_Owner) e.(at_now) (e.(at_now) + (defaults s).(Scheduler_LeaseDuration))%Z grant.
(** A grant of this process; its leases can be written. *)
Definition own_grant d (grant : string) : Prop :=
  if s.(Scheduler_Drivers) then ∃ next, (0 <= next)%Z ∧ grant = d.(Drivers_prefix) +:+ itoa next else grant = e.(at_text).
Definition lease_writable d : Prop := ∀ grant, own_grant d grant → lease_valid (lease_now grant).

Lemma issue_run {B} d db (k : string → prog B) : ∃ grant d', own_grant d grant ∧ d'.(Drivers_prefix) = d.(Drivers_prefix)
  ∧ (s.(Scheduler_Drivers) = true → grant ∈ d'.(Drivers_held))
  ∧ run e (do grant := issue (defaults s) in k grant) (MkNode d db) = run e (k grant) (MkNode d' db).
Proof.
  unfold issue, own_grant. cbn [Scheduler_Drivers defaults]. destruct s.(Scheduler_Drivers).
  - exists (drivers_issue d).1, (drivers_issue d).2. split_and!; [|done|intros _; cbn; set_solver|done].
    exists ((d.(Drivers_next) + 1) mod 2 ^ 64)%Z. split; [apply Z.mod_pos_bound; lia|done].
  - exists e.(at_text), d. by split_and!.
Qed.

Lemma release_run {B} d db grant (k : prog B) : ∃ d', d'.(Drivers_prefix) = d.(Drivers_prefix) ∧
  run e (do _ := release_grant (defaults s) grant in k) (MkNode d db) = run e k (MkNode d' db).
Proof. unfold release_grant. cbn [Scheduler_Drivers defaults]. destruct s.(Scheduler_Drivers); [by exists (drivers_release d grant)|by exists d]. Qed.

Lemma probe_owner {B} n op (k : bool → prog B) :
  run e (do alive := match op.(Op_Lease) with Some lease => ask (Alive lease.(Lease_Owner)) | None => Ret false end in k alive) n = run e (k (owner_alive op)) n.
Proof. unfold owner_alive. by destruct op.(Op_Lease). Qed.

(** ** The queue *)

Section queue.
Variables (runID : string) (db : RuntimeDB).
Hypothesis db_ok : sqlite_ok db.
Let queue := sqlite_Operations runID db.
(** An operation is due: what it depends on succeeded, attempts are left, nobody
    cancelled it, it is not settled, its retry time has come, and a lease it has
    expired under an owner that is dead. *)
Record due op : Prop := {
  due_dependencies id : id ∈ op.(Op_DependsOn) → ∃ o, o ∈ queue ∧ o.(Op_ID) = id ∧ o.(Op_State) = Succeeded;
  due_attempts : (op.(Op_Attempt) < op.(Op_MaxAttempts))%Z;
  due_wanted : op.(Op_CancelRequested) = false;
  due_open : op.(Op_State) ≠ Succeeded ∧ op.(Op_State) ≠ OperationCancelled;
  due_retry : (op.(Op_RetryNotBefore) <= e.(at_now))%Z;
  due_lease lease : op.(Op_Lease) = Some lease → lease.(Lease_Owner) ∈ e.(at_dead) ∧ (lease.(Lease_ExpiresAt) <= e.(at_now))%Z
}.
(** An operation that is passed over: it is not due, or it has not expired and
    there is no room for it. *)
Definition passed op : Prop := due op → OperationExpired op e.(at_now) = false ∧ ¬ room db op.

Lemma queue_row op : op ∈ queue → ∃ row, db.(run_operations) !! op.(Op_ID) = Some row ∧ row.(OperationRow_Document) = op
  ∧ row.(OperationRow_RunID) = op.(Op_RunID) ∧ op.(Op_RunID) = runID ∧ op.(Op_ID) ≠ "" ∧ (0 < row.(OperationRow_Revision))%Z
  ∧ is_ok (encodeOperation op) = true.
Proof.
  intros (row & Hrow & Hk%bool_decide_eq_true & Hd)%operations_listed; [|done]. exists row. destruct (row_columns _ db_ok _ _ Hrow) as (_ & Hr & _).
  destruct (row_addressed _ db_ok _ _ Hrow). rewrite Hd in Hr. pose proof (row_encoded _ db_ok _ _ Hrow) as Henc. rewrite Hd in Henc. split_and!; [done..| |done|done|done]. congruence.
Qed.

(** The queue lists the rows of the run, in the order they were created in. *)
Definition created_before o o' : Prop := ∃ row row', db.(run_operations) !! o.(Op_ID) = Some row ∧ db.(run_operations) !! o'.(Op_ID) = Some row'
  ∧ (row.(OperationRow_Created) < row'.(OperationRow_Created) ∨ row.(OperationRow_Created) = row'.(OperationRow_Created) ∧ String.le o.(Op_ID) o'.(Op_ID))%Z.
Lemma queue_rows op : op ∈ queue ↔ ∃ row, db.(run_operations) !! op.(Op_ID) = Some row ∧ row.(OperationRow_Document) = op ∧ op.(Op_RunID) = runID.
Proof using All.
  split; [intros (row & ? & ? & _ & ? & _)%queue_row; by exists row|]. intros (row & Hrow & Hd & Hr). apply operations_listed; [done|]. exists row.
  destruct (row_columns _ db_ok _ _ Hrow) as (_ & Hr' & _). rewrite Hd in Hr'. split_and!; [done| |done]. apply bool_decide_eq_true. congruence.
Qed.
#[local] Instance row_before_total : Total row_before.
Proof. intros x y. unfold row_before. destruct (Z.lt_trichotomy x.2.(OperationRow_Created) y.2.(OperationRow_Created)) as [?|[->|?]]; [by left; left| |by right; left].
  destruct (total String.le x.1 y.1); [left|right]; by right. Qed.
#[local] Instance row_before_trans : Transitive row_before.
Proof. intros x y z [?|[Ha Hx]] [?|[Hb Hy]]; [left; lia..|]. right. split; [congruence|]. by etrans. Qed.
Lemma queue_sorted : StronglySorted created_before queue.
Proof using All.
  unfold queue, sqlite_Operations, select_operations. set (rows := List.filter _ _).
  assert (∀ row, row ∈ merge_sort row_before rows → db.(run_operations) !! row.1 = Some row.2) as Hrows.
  { intros [id row]. rewrite merge_sort_Permutation. intros [Hin _]%elem_of_filter_true. by apply elem_of_map_to_list in Hin. }
  pose proof (StronglySorted_merge_sort row_before rows) as Hs. revert Hrows Hs. generalize (merge_sort row_before rows) as l.
  induction l as [|x l IH]; intros Hrows Hs; [constructor|]. apply StronglySorted_inv in Hs as [Hs Hx]. cbn. constructor; [apply IH; [|done]; intros; apply Hrows; by right|].
  apply Forall_forall. intros o (y & -> & Hy)%list_elem_of_fmap. rewrite Forall_forall in Hx. pose proof (Hx y Hy) as Hxy.
  pose proof (Hrows x ltac:(by left)) as Rx. pose proof (Hrows y ltac:(by right)) as Ry. exists x.2, y.2.
  destruct (row_columns _ db_ok _ _ Rx) as (-> & _), (row_columns _ db_ok _ _ Ry) as (-> & _). done.
Qed.

Lemma by_id_present (ops : list RunOperation) op : op ∈ ops → is_Some (by_id ops !! op.(Op_ID)).
Proof.
  unfold by_id. assert (∀ (m : gmap string RunOperation) id, (is_Some (m !! id) ∨ ∃ o, o ∈ ops ∧ o.(Op_ID) = id) →
    is_Some (fold_left (λ m op, <[op.(Op_ID) := op]> m) ops m !! id)) as Hgen.
  { induction ops as [|x ops IH]; intros m id [Hm|(o & Ho & Hid)]; [done|by apply not_elem_of_nil in Ho|..]; cbn; apply IH.
    - left. apply lookup_insert_is_Some'. by right.
    - apply elem_of_cons in Ho as [->|Ho]; [left; apply lookup_insert_is_Some'; by left|right; by exists o]. }
  intros Hin. apply Hgen. right. by exists op.
Qed.
Lemma by_id_queue id o : by_id queue !! id = Some o ↔ o ∈ queue ∧ o.(Op_ID) = id.
Proof using All.
  split; [apply elem_of_by_id|]. intros [Ho <-]. destruct (by_id_present _ _ Ho) as [o' Hl]. rewrite Hl. f_equal.
  apply elem_of_by_id in Hl as [Ho' Hid]. apply queue_rows in Ho as (row & Hrow & <- & _), Ho' as (row' & Hrow' & <- & _). congruence.
Qed.
(** [leasable] decides what is due. *)
Lemma due_leasable op : leasable op (by_id queue) e.(at_now) (owner_alive op) = true ↔ due op.
Proof using All.
  unfold leasable, dependenciesSatisfied, CanAcquire, owner_alive. rewrite !andb_true_iff, forallb_elem, negb_true_iff, Z.ltb_lt. split.
  - intros [[[Hdeps Hat] Hwanted] Hacq]. destruct (Z.ltb_spec e.(at_now) op.(Op_RetryNotBefore)); [done|].
    destruct (bool_decide_reflect (op.(Op_State) = Succeeded)); [done|]. destruct (bool_decide_reflect (op.(Op_State) = OperationCancelled)); [done|]. cbn in Hacq.
    split; [|done..|]; [|].
    + intros id Hid. specialize (Hdeps id Hid). destruct (by_id queue !! id) as [o|] eqn:Hl; [|done]. apply by_id_queue in Hl as [Ho Ho']. exists o. by apply bool_decide_eq_true in Hdeps.
    + intros lease Hl. rewrite Hl in Hacq. apply andb_true_iff in Hacq as [Hdead Hexp]. apply negb_true_iff in Hdead, Hexp.
      apply bool_decide_eq_false in Hdead. apply Z.ltb_ge in Hexp. split; [by apply dec_stable|done].
  - intros [Hdeps Hat Hwanted [Hs Hc] Hretry Hlease]. split_and!; [|done..|].
    + intros id (o & Ho & Hid & Hst)%Hdeps. rewrite (proj2 (by_id_queue id o)) by done. by apply bool_decide_eq_true.
    + destruct (Z.ltb_spec e.(at_now) op.(Op_RetryNotBefore)); [lia|]. rewrite !bool_decide_eq_false_2 by done. cbn.
      destruct op.(Op_Lease) as [lease|]; [|done]. destruct (Hlease _ eq_refl) as [Hd He]. rewrite bool_decide_eq_false_2 by (by intros ?). by rewrite (proj2 (Z.ltb_ge _ _) He).
Qed.

(** The row of an operation that is leased. *)
Definition leased_db op (row : OperationRow) (lease : Lease) : RuntimeDB :=
  set_operations (<[op.(Op_ID) := MkOperationRow row.(OperationRow_RunID) row.(OperationRow_Kind) row.(OperationRow_Key)
    row.(OperationRow_Created) (row.(OperationRow_Revision) + 1) (leased op lease)]> db.(run_operations)) db.

Lemma acquire_served_now op row lease : db.(run_operations) !! op.(Op_ID) = Some row → op.(Op_ID) ≠ "" → (0 < row.(OperationRow_Revision))%Z →
  is_ok (encodeOperation (leased op lease)) = true →
  sqlite_AcquireOperation (leased op lease) row.(OperationRow_Revision) (defaults s).(Scheduler_MaxConcurrentRuns)
    (defaults s).(Scheduler_MaxConcurrentObservations) (defaults s).(Scheduler_MaxConcurrentVerifications) db
  = if admits op row.(OperationRow_Revision) db row then (Ok ((row.(OperationRow_Revision) + 1)%Z, true), leased_db op row lease) else (Ok (0%Z, false), db).
Proof.
  intros Hrow Hid Hpos Henc. unfold sqlite_AcquireOperation. change (leased op lease).(Op_ID) with op.(Op_ID).
  rewrite bool_decide_eq_false_2, (proj2 (Z.leb_gt _ _) Hpos) by done. cbn [orb]. destruct (encodeOperation _); [|discriminate Henc]. by rewrite Hrow.
Qed.

Lemma run_read {B} d id (k : result SchedulerError (option (RunOperation * Z)) → prog B) :
  run e (do row := pwrap (ask (ReadOperation id)) in k row) (MkNode d db) = run e (k (Ok (sqlite_Operation id db))) (MkNode d db).
Proof. done. Qed.

(** One turn of the loop, for an operation of the queue that has not expired. *)
Lemma lease_first_turn d all op row rest : db.(run_operations) !! op.(Op_ID) = Some row → row.(OperationRow_Document) = op →
  run e (lease_first (defaults s) all e.(at_now) (op :: rest)) (MkNode d db)
  = run e (if negb (leasable op all e.(at_now) (owner_alive op)) then lease_first (defaults s) all e.(at_now) rest
      else if OperationExpired op e.(at_now) then
        let! _ := pwrap (ask (PutOperation (retired op) row.(OperationRow_Revision))) in lease_first (defaults s) all e.(at_now) rest
      else
        do grant := issue (defaults s) in
        do acquired := ask (AcquireOperation (leased op (lease_now grant)) row.(OperationRow_Revision) (defaults s).(Scheduler_MaxConcurrentRuns)
          (defaults s).(Scheduler_MaxConcurrentObservations) (defaults s).(Scheduler_MaxConcurrentVerifications)) in
        match acquired with
        | Err e => do _ := release_grant (defaults s) grant in Ret (Err (StoreFailed e))
        | Ok (_, false) => do _ := release_grant (defaults s) grant in lease_first (defaults s) all e.(at_now) rest
        | Ok (_, true) => done_with (Some (leased op (lease_now grant)))
        end) (MkNode d db).
Proof.
  intros Hrow Hdoc. cbn [lease_first]. unfold rpbind at 1. rewrite run_read. unfold sqlite_Operation. rewrite Hrow. cbn [option_fmap fmap option_map].
  rewrite Hdoc, probe_owner. done.
Qed.

Lemma lease_first_skip d skipped rest : lease_writable d → (∀ o, o ∈ skipped → o ∈ queue ∧ passed o) →
  ∃ d', d'.(Drivers_prefix) = d.(Drivers_prefix) ∧
  run e (lease_first (defaults s) (by_id queue) e.(at_now) (skipped ++ rest)) (MkNode d db) = run e (lease_first (defaults s) (by_id queue) e.(at_now) rest) (MkNode d' db).
Proof.
  revert d. induction skipped as [|o skipped IH]; intros d Hwrite Hs; [by exists d|]. destruct (Hs o ltac:(by left)) as (Hin & Hp).
  destruct (queue_row o Hin) as (row & Hrow & Hdoc & Hrun & _ & Hid & Hpos & Henc). cbn [app]. rewrite (lease_first_turn _ _ _ row) by done.
  assert (∀ o', o' ∈ skipped → o' ∈ queue ∧ passed o') as Hs' by (intros o' Ho'; apply Hs; by right).
  destruct (leasable _ _ _ _) eqn:Hle; [|by apply IH]. destruct (Hp (proj1 (due_leasable o) Hle)) as [-> Hroom]. cbn [negb].
  match goal with |- context [run e (pbind (issue _) ?k) _] => destruct (issue_run d db k) as (grant & d1 & Hg & Hd1 & _ & ->) end.
  rewrite run_bind. cbn [ask SchedulerRun.run perform sqlite_serve option_map node_drivers node_store option_bind mbind]. rewrite acquire_served_now by (done || by apply leased_encoded; [|by apply Hwrite]).
  destruct (admits o _ db row) eqn:Ha; [by apply room_admits in Ha|]. cbn [fst snd].
  destruct (release_run d1 db grant (lease_first (defaults s) (by_id queue) e.(at_now) (skipped ++ rest))) as (d2 & Hd2 & ->).
  destruct (IH d2) as (d3 & Hd3 & Heq); [unfold lease_writable, own_grant in *; by rewrite Hd2, Hd1|done|]. exists d3. split; [congruence|exact Heq].
Qed.

Lemma lease_first_take d op row rest : op ∈ queue → due op → OperationExpired op e.(at_now) = false → room db op → lease_writable d →
  db.(run_operations) !! op.(Op_ID) = Some row →
  ∃ grant d', own_grant d grant ∧ (s.(Scheduler_Drivers) = true → grant ∈ d'.(Drivers_held)) ∧
  run e (lease_first (defaults s) (by_id queue) e.(at_now) (op :: rest)) (MkNode d db)
  = Some (Ok (Some (leased op (lease_now grant))), MkNode d' (leased_db op row (lease_now grant))).
Proof.
  intros Hin Hdue Hexp Hroom Hwrite Hl. destruct (queue_row op Hin) as (row' & Hrow & Hdoc & Hrun & _ & Hid & Hpos & Henc).
  assert (row' = row) as -> by congruence. rewrite (lease_first_turn _ _ _ row) by done. rewrite (proj2 (due_leasable op) Hdue), Hexp. cbn [negb].
  match goal with |- context [run e (pbind (issue _) ?k) _] => destruct (issue_run d db k) as (grant & d1 & Hg & Hd1 & Hheld & ->) end.
  exists grant, d1. split_and!; [done..|]. rewrite run_bind. cbn [ask SchedulerRun.run perform sqlite_serve option_map node_drivers node_store option_bind mbind].
  rewrite acquire_served_now by (done || by apply leased_encoded; [|by apply Hwrite]). by rewrite (proj2 (room_admits _ _ _ db_ok Hrow Hrun) Hroom).
Qed.

(** What [Next] comes down to on a calm store: the loop, unless a tool of the
    run still holds capacity. *)
Lemma Next_calm `{!Rounds} d : calm d db →
  run e (Next s runID) (MkNode d db) = run e (lease_first (defaults s) (by_id queue) e.(at_now) queue) (MkNode d db)
  ∨ run e (Next s runID) (MkNode d db) = Some (Ok None, MkNode d db)
    ∧ ∃ id p revision, db.(verification_permits) !! id = Some (p, revision) ∧ permit_held p = true ∧ p.(Permit_Parent).(AttemptRef_RunID) = runID.
Proof.
  intros Hcalm. unfold Next, rpbind. rewrite run_bind, reclaim_permits_calm by done. cbn [option_bind mbind fst snd]. rewrite run_bind, reclaim_claims_calm by done.
  cbn [option_bind mbind fst snd]. rewrite run_bind.
  assert (run e (VerificationCleanupPending (defaults s) runID) (MkNode d db) = Some (Ok false, MkNode d db)
    ∨ run e (VerificationCleanupPending (defaults s) runID) (MkNode d db) = Some (Ok true, MkNode d db)
      ∧ ∃ id p revision, db.(verification_permits) !! id = Some (p, revision) ∧ permit_held p = true ∧ p.(Permit_Parent).(AttemptRef_RunID) = runID) as [-> | [-> Hheld]].
  { unfold VerificationCleanupPending. destruct (negb _); [by left|]. destruct (permits_listed d db db_ok Hcalm) as (l & Hl & Hin).
    unfold rpbind, pwrap. rewrite !run_bind. cbn. rewrite Hl. cbn. destruct (existsb _ l) eqn:Hex; [right|by left]. split; [done|].
    apply existsb_elem in Hex as (p & (id & revision & Hp)%Hin & [Hr%bool_decide_eq_true Hh]%andb_true_iff). by exists id, p, revision. }
  - left. transitivity (run e (let! _ := each (λ op, if is_active op then let! _ := reclaimAbandoned (defaults s) op e.(at_now) in done_with () else done_with ())
        (sqlite_AllOperations db) in lease_first (defaults s) (by_id queue) e.(at_now) queue) (MkNode d db)); [reflexivity|]. unfold rpbind at 1.
    rewrite run_bind, run_each; [done|]. intros o (row & Hrow & _ & <-)%operations_listed; [|done]. apply scan_driven. by apply (calm_rows _ _ Hcalm _ _ Hrow).
  - by right.
Qed.
End queue.

End next.
