(* ===== verification/SchedulerExample.v ===== *)
(** The scheduler's theorems on concrete drivers of two processes: an operation
    that is planned, leased, started and finished, one that waits for another,
    and a queue whose first operations are passed over. *)

From S2P Require Import Prelude GoStrings Json Domain Canonical GoTime Plan Events Operation Permit Scheduler OperationStore OperationStoreFacts OperationTable SchedulerFacts SchedulerWorld SchedulerLaws SchedulerBudget SchedulerRun InvocationFacts.
From stdpp Require Import options.

#[local] Existing Instance plain_canonicalizer.
#[local] Instance two_rounds : Rounds := 2.
(** A parser that takes no address. *)
#[local] Instance no_urls : URLParser := {| url_parse _ := None |}.

(** Two runs: one may work at a time. *)
Definition example_limits : Ceilings := MkCeilings 1 2 2.
Definition example_scheduler (owner : string) : Scheduler := MkScheduler true true true owner 0 0 0 0 true.
Lemma example_keeps owner : keeps_to example_limits owner (example_scheduler owner).
Proof. by split. Qed.

Definition example_operation (run key : string) : RunOperation := new_operation run OpCandidateCreate key 2 "" (3600 * second).
Definition example_id (run key : string) : string := StableOperationKey run OpCandidateCreate [key].
Definition example_db : RuntimeDB := MkRuntimeDB ∅ {["r1" := "active"]} [] ∅ ∅.

(** A thread of process [j] that has made [fuel] calls. *)
Definition spawned (j : nat) (p : prog ()) (w : World RuntimeDB) : World RuntimeDB :=
  MkWorld w.(w_store) w.(w_dead) w.(w_processes) (w.(w_threads) ++ [(j, p)]).
Definition driving (fuel : nat) (now : Z) (j : nat) (p : prog ()) (w : World RuntimeDB) : World RuntimeDB :=
  acts sqlite_serve fuel now "text" (length w.(w_threads)) (spawned j p w).
Definition booted (owner text : string) (w : World RuntimeDB) : World RuntimeDB :=
  MkWorld w.(w_store) w.(w_dead) (w.(w_processes) ++ [MkProcess owner (NewDriverLeases text)]) w.(w_threads).

Lemma driving_steps fuel now j p owner w : (Process_Owner <$> w.(w_processes) !! j) = Some owner → method example_limits owner p →
  rtc (world_step example_limits) w (driving fuel now j p w).
Proof.
  intros Ho Hm. destruct (w.(w_processes) !! j) as [process|] eqn:Hj; [|done]. injection Ho as Ho. eapply rtc_l.
  - apply (world_spawn _ _ j process p); [done|by rewrite Ho].
  - apply acts_steps; [apply sqlite_served|apply sqlite_quiet].
Qed.

Definition world0 : World RuntimeDB := MkWorld example_db ∅ [] [].
Definition world1 : World RuntimeDB := booted "two" "b" (booted "one" "a" world0).
Definition now_at (n : Z) : Z := (1000 + n) * second.
(** An operation of each run is planned. *)
Definition world2 : World RuntimeDB :=
  driving 9 (now_at 1) 1 (discard (plan_operation (example_scheduler "two") (example_operation "r2" "k")))
    (driving 9 (now_at 0) 0 (discard (plan_operation (example_scheduler "one") (example_operation "r1" "k"))) world1).
(** The first process leases the one of [r1], the second finds no room. *)
Definition world3 : World RuntimeDB :=
  driving 40 (now_at 3) 1 (discard (Next (example_scheduler "two") "r2"))
    (driving 40 (now_at 2) 0 (discard (Next (example_scheduler "one") "r1")) world2).

Definition state_of (run : string) (w : World RuntimeDB) : option (string * option string * Z * Z) :=
  (λ row, (row.1.(Op_State), lease_owner row.1, row.1.(Op_AttemptIdentity), row.2)) <$> (present w.(w_store)).(t_rows) !! example_id run "k".

(** [r1] is started: before and after the call that writes it. *)
Definition world4 : World RuntimeDB :=
  driving 2 (now_at 4) 0 (discard (StartWithin (example_scheduler "one") (example_id "r1" "k") None)) world3.
Definition one_call (now : Z) (w : World RuntimeDB) : option (World RuntimeDB) :=
  act sqlite_serve now "text" (length w.(w_threads) - 1) w.
Definition after_call (now : Z) (w : World RuntimeDB) : World RuntimeDB := default w (one_call now w).
Definition world5 : World RuntimeDB := after_call (now_at 4) world4.
(** It succeeds. *)
Definition world6 : World RuntimeDB :=
  driving 40 (now_at 9) 0 (discard (Finish (example_scheduler "one") (example_id "r1" "k") Succeeded)) world5.
(** Then the second process is about to lease the other operation, and does. *)
Definition world7 : World RuntimeDB := driving 9 (now_at 10) 1 (discard (Next (example_scheduler "two") "r2")) world6.
Definition world8 : World RuntimeDB := after_call (now_at 10) world7.

Definition row_of (run : string) (w : World RuntimeDB) : RunOperation * Z :=
  default (no_operation, 0%Z) ((present w.(w_store)).(t_rows) !! example_id run "k").
Lemma row_here run w : match (present w.(w_store)).(t_rows) !! example_id run "k" with Some _ => true | None => false end = true →
  (present w.(w_store)).(t_rows) !! example_id run "k" = Some ((row_of run w).1, (row_of run w).2).
Proof. unfold row_of. by destruct (_ !! _) as [[]|]. Qed.

Lemma after_step now w : match one_call now w with Some _ => true | None => false end = true → world_step example_limits w (after_call now w).
Proof.
  unfold after_call. destruct (one_call now w) as [w'|] eqn:Hc; [|done]. intros _. eapply act_step; [apply sqlite_served|apply sqlite_quiet|exact Hc].
Qed.

Lemma world0_starts : starts world0.
Proof.
  by split_and!.
Qed.
Lemma driving_reached fuel now j p owner w : (Process_Owner <$> w.(w_processes) !! j) = Some owner → method example_limits owner p →
  world_reachable example_limits w → world_reachable example_limits (driving fuel now j p w).
Proof. intros Ho Hm (w0 & H0 & Hr). exists w0. split; [done|]. etrans; [exact Hr|]. by eapply driving_steps. Qed.
Lemma step_reached (w w' : World RuntimeDB) : world_step example_limits w w' → world_reachable example_limits w → world_reachable example_limits w'.
Proof. intros Hs (w0 & H0 & Hr). exists w0. split; [done|]. by eapply rtc_r. Qed.

Ltac drive owner := eapply (driving_reached _ _ _ _ owner); [vm_compute; reflexivity| |].

Lemma world2_reached : world_reachable example_limits world2.
Proof.
  unfold world2. drive "two"; [by apply method_Plan, new_operation_fresh|]. drive "one"; [by apply method_Plan, new_operation_fresh|].
  apply (step_reached (booted "one" "a" world0)); [by apply world_boot|]. apply (step_reached world0); [by apply world_boot|].
  exists world0. split; [apply world0_starts|done].
Qed.
Lemma world3_reached : world_reachable example_limits world3.
Proof.
  unfold world3. drive "two"; [by apply method_Next, example_keeps|]. drive "one"; [by apply method_Next, example_keeps|]. apply world2_reached.
Qed.
Lemma world4_reached : world_reachable example_limits world4.
Proof. unfold world4. drive "one"; [by apply method_Start, example_keeps|]. apply world3_reached. Qed.
Lemma world45 : world_step example_limits world4 world5.
Proof. apply after_step. vm_compute. reflexivity. Qed.
Lemma world7_reached : world_reachable example_limits world7.
Proof.
  unfold world7. drive "two"; [by apply method_Next, example_keeps|]. unfold world6. drive "one"; [apply method_Finish|].
  eapply step_reached; [apply world45|apply world4_reached].
Qed.
Lemma world78 : world_step example_limits world7 world8.
Proof. apply after_step. vm_compute. reflexivity. Qed.

(* ------------------------------------------------------------------ *)
(** * The theorems on them *)

Lemma drivers_refine_table_witness :
  table_reachable example_limits (storable (St := RuntimeDB)) (shared world4)
  ∧ stays_or (atomic example_limits (storable (St := RuntimeDB))) (shared world4) (shared world5)
  ∧ state_of "r1" world4 = Some (Leased, Some "one", 0%Z, 2%Z) ∧ state_of "r1" world5 = Some (Running, Some "one", 1%Z, 3%Z).
Proof.
  destruct (drivers_refine_table example_limits world4 world5 world4_reached world45) as [Ht Hs].
  split; [exact Ht|]. split; [exact Hs|]. split; vm_compute; reflexivity.
Defined.

Lemma capacity_kept_witness : within_ceilings example_limits (present world3.(w_store)) ∧ one_active (present world3.(w_store))
  ∧ state_of "r1" world3 = Some (Leased, Some "one", 0%Z, 2%Z) ∧ state_of "r2" world3 = Some (Pending, None, 0%Z, 1%Z).
Proof.
  destruct (capacity_kept example_limits world3) as [Hw Ho]; [vm_compute; discriminate|vm_compute; discriminate|vm_compute; discriminate|exact world3_reached|].
  split; [exact Hw|]. split; [exact Ho|]. split; vm_compute; reflexivity.
Defined.

(** While the operation of [r1] runs another of the run is planned behind it,
    twice, under one key and two identifiers; it is leased once the first has
    succeeded, and not before. *)
Definition example_behind (id : string) : RunOperation :=
  set_id id (MkOperation None 0 "" "" "" "r1" OpCandidateCreate "m" "" 0 0 2 [example_id "r1" "k"] "" None None 0 None None (3600 * second) 0 0 None None "" 0 "" false None false).
Definition chain1 : World RuntimeDB :=
  driving 9 (now_at 6) 0 (discard (plan_operation (example_scheduler "one") (example_behind "twin")))
    (driving 9 (now_at 5) 1 (discard (plan_operation (example_scheduler "two") (example_behind ""))) world5).
Definition chain2 : World RuntimeDB := driving 40 (now_at 7) 0 (discard (Next (example_scheduler "one") "r1")) chain1.
Definition chain3 : World RuntimeDB :=
  driving 40 (now_at 8) 0 (discard (Finish (example_scheduler "one") (example_id "r1" "k") Succeeded)) chain2.
Definition chain4 : World RuntimeDB := driving 40 (now_at 9) 0 (discard (Next (example_scheduler "one") "r1")) chain3.

Lemma chain4_reached : world_reachable example_limits chain4.
Proof.
  unfold chain4. drive "one"; [by apply method_Next, example_keeps|]. unfold chain3. drive "one"; [by apply method_Finish|].
  unfold chain2. drive "one"; [by apply method_Next, example_keeps|]. unfold chain1. drive "one"; [by apply method_Plan|]. drive "two"; [by apply method_Plan|].
  eapply step_reached; [apply world45|apply world4_reached].
Qed.

Definition chain_state (key : string) (w : World RuntimeDB) : option (string * list string) :=
  (λ row, (row.1.(Op_State), row.1.(Op_DependsOn))) <$> (present w.(w_store)).(t_rows) !! example_id "r1" key.

Lemma dependencies_succeed_first_witness :
  chain_state "m" chain2 = Some (Pending, [example_id "r1" "k"]) ∧ chain_state "m" chain4 = Some (Leased, [example_id "r1" "k"])
  ∧ dependency_met (present chain4.(w_store)) (example_id "r1" "k")
  ∧ (∀ id op revision, (present chain4.(w_store)).(t_rows) !! id = Some (op, revision) → op.(Op_RunID) = "r1" → op.(Op_IdempotencyKey) = "m" → id = example_id "r1" "m").
Proof.
  destruct (dependencies_succeed_first example_limits chain4 chain4_reached) as [Hdeps Hkeys].
  split; [vm_compute; reflexivity|]. split; [vm_compute; reflexivity|].
  set (row := default (no_operation, 0%Z) ((present chain4.(w_store)).(t_rows) !! example_id "r1" "m")).
  assert ((present chain4.(w_store)).(t_rows) !! example_id "r1" "m" = Some (row.1, row.2)) as Hrow by (vm_compute; reflexivity). split.
  - apply (Hdeps _ _ _ Hrow); [left; vm_compute; by left|]. vm_compute. left.
  - intros id op revision Hl Hrun Hkey. apply (Hkeys _ _ _ _ _ _ Hl Hrow); [rewrite Hrun|rewrite Hkey]; vm_compute; reflexivity.
Defined.

Lemma live_lease_kept_witness : holder (row_of "r1" world5).1 = holder (row_of "r1" world4).1
  ∨ (row_of "r1" world5).1.(Op_Lease) = None ∧ ((row_of "r1" world5).1.(Op_State) = (row_of "r1" world4).1.(Op_State) ∨ terminal_state (row_of "r1" world5).1.(Op_State)).
Proof.
  apply (live_lease_kept example_limits world4 world5 (example_id "r1" "k") _ _ (row_of "r1" world4).2 (row_of "r1" world5).2 "one" world4_reached world45).
  - apply row_here. vm_compute. reflexivity.
  - apply row_here. vm_compute. reflexivity.
  - vm_compute. reflexivity.
  - intros Hin. apply (bool_decide_eq_true_2 _) in Hin. vm_compute in Hin. discriminate Hin.
Defined.

Lemma rows_persist_witness : ∃ op' revision', (present world5.(w_store)).(t_rows) !! example_id "r1" "k" = Some (op', revision')
  ∧ persists (row_of "r1" world4).1 op' ∧ ((row_of "r1" world4).2 <= revision')%Z.
Proof.
  apply (rows_persist example_limits world4 world5 (example_id "r1" "k") _ _ world4_reached (rtc_once _ _ world45)).
  apply row_here. vm_compute. reflexivity.
Defined.

Lemma attempts_and_budgets_bounded_witness : counters_ok (row_of "r1" world7).1 ∧ (row_of "r1" world7).1.(Op_ConsumedExecution) = (5 * second)%Z.
Proof.
  split; [|vm_compute; reflexivity]. apply (attempts_and_budgets_bounded example_limits world7 (example_id "r1" "k") _ (row_of "r1" world7).2 world7_reached).
  apply row_here. vm_compute. reflexivity.
Defined.

Lemma attempt_identity_is_new_witness :
  ((row_of "r1" world4).1.(Op_AttemptIdentity) <= (row_of "r1" world5).1.(Op_AttemptIdentity))%Z ∧
  ((row_of "r1" world5).1.(Op_State) = Running → (row_of "r1" world4).1.(Op_State) = Running
    ∨ (row_of "r1" world4).1.(Op_State) = Leased ∧ ((row_of "r1" world4).1.(Op_AttemptIdentity) < (row_of "r1" world5).1.(Op_AttemptIdentity))%Z).
Proof.
  apply (attempt_identity_is_new example_limits world4 world5 (example_id "r1" "k") _ _ (row_of "r1" world4).2 (row_of "r1" world5).2 world4_reached world45).
  - apply row_here. vm_compute. reflexivity.
  - apply row_here. vm_compute. reflexivity.
Defined.

Lemma leased_run_is_open_witness : terminal_run world7.(w_store) "r2" = false ∧ run_paused world7.(w_store) "r2" = false.
Proof.
  apply (leased_run_is_open example_limits world7 world8 (example_id "r2" "k") (row_of "r2" world8).1 (row_of "r2" world8).2 world7_reached world78).
  - apply row_here. vm_compute. reflexivity.
  - split; [vm_compute; reflexivity|]. intros old revision Hl Ha.
    assert (is_active (row_of "r2" world7).1 = false) as Hold by (vm_compute; reflexivity).
    assert (old = (row_of "r2" world7).1) as ->; [|rewrite Ha in Hold; discriminate Hold].
    unfold row_of. rewrite Hl. reflexivity.
Defined.

(** An attempt of ten seconds that waited four of them. *)
Definition example_waiting : VerificationPermit :=
  MkPermit "v" (MkAttemptRef "r1" "o" 1) "one" "tool" VerificationWaiting (102 * second) None None (200 * second) None "".
Definition example_events : list EngineeringEvent :=
  [permit_event example_waiting; permit_event (permit_granted example_waiting (106 * second) minute)].
Definition example_running : RunOperation :=
  set_active (Some (100 * second)%Z) (set_state Running (set_id "o" (new_operation "r1" OpExecutionInvoke "k" 2 "" 0))).

Lemma example_running_counters : counters_ok example_running.
Proof.
  split.
  - unfold safe_counters, safe_range. vm_compute. intuition discriminate.
  - unfold attempts_within. vm_compute. intuition discriminate.
  - vm_compute. discriminate.
  - vm_compute. intuition discriminate.
  - intros since deadline _ Hd. vm_compute in Hd. discriminate Hd.
Qed.

Lemma finished_charges_exactly_witness :
  ∃ waiting, (∀ t, waiting t = true ↔ waits "o" (filter (λ e, e.(Event_OccurredAt) <= t)%Z example_events))
  ∧ nanoseconds waiting (100 * second) (110 * second) = (4 * second)%Z
  ∧ nanoseconds (λ t, negb (waiting t)) (100 * second) (110 * second) = (6 * second)%Z
  ∧ (finished Succeeded 0 "" example_running (110 * second) (4 * second)).(Op_ConsumedExecution) = (6 * second)%Z.
Proof.
  assert (verificationWait example_events "o" (100 * second) (110 * second) = (4 * second)%Z) as Hw by (vm_compute; reflexivity).
  destruct (finished_charges_exactly example_running example_events (100 * second) (110 * second) Succeeded 0 "") as (waiting & Hwaits & Hwait & Hsum & _).
  - reflexivity.
  - unfold in_order. repeat constructor. vm_compute. discriminate.
  - unfold dated. repeat constructor.
  - vm_compute. discriminate.
  - exact example_running_counters.
  - cbv zeta. change (Op_ID example_running) with "o". rewrite Hw. unfold safe_counters, safe_range. vm_compute. intuition discriminate.
  - change (Op_ID example_running) with "o" in *. rewrite Hw in Hwait, Hsum. exists waiting. split; [exact Hwaits|]. split; [by rewrite <- Hwait|].
    split; [|vm_compute; reflexivity]. revert Hsum. generalize (nanoseconds (λ t, negb (waiting t)) (100 * second) (110 * second)).
    intros n Hn. change (Z.max 0 (110 * second - 100 * second))%Z with (4 * second + 6 * second)%Z in Hn. lia.
Defined.

(** A busy store: [r2] is at work under the second process, whose tool holds
    verification capacity beyond its hour and lives, and a review is claimed.  The
    queue of [r1] is an operation without attempts left, one that works, for
    which there is no room, and one that observes. *)
Definition example_spent : RunOperation := set_attempt 2 (planned (example_operation "r1" "a") "spent" (now_at 0)).
Definition example_work : RunOperation := planned (example_operation "r1" "b") "work" (now_at 1).
Definition example_look : RunOperation := planned (new_operation "r1" OpSourceObserve "c" 2 "" (3600 * second)) "look" (now_at 2).
Definition example_busy : RunOperation :=
  leased (planned (example_operation "r2" "d") "busy" (now_at 0)) (MkLease "two" (now_at 0) (now_at 60) "b-1").
Definition example_tool : VerificationPermit :=
  MkPermit "v" (MkAttemptRef "r2" "busy" 1) "two" "tool" VerificationGranted (now_at 0) (Some (now_at 0)) None (now_at 1) None "".
Definition example_row (op : RunOperation) : OperationRow :=
  MkOperationRow op.(Op_RunID) op.(Op_Kind) op.(Op_IdempotencyKey) (UnixNano op.(Op_CreatedAt)) 1 op.
Definition example_rows : list RunOperation := [example_spent; example_work; example_look; example_busy].
Definition busy_db : RuntimeDB :=
  MkRuntimeDB (list_to_map ((λ op, (op.(Op_ID), example_row op)) <$> example_rows)) {["r1" := "active"; "r2" := "active"]} []
    {["v" := (example_tool, 1%Z)]} {["c" := MkClaim "c" "two" "r2" (now_at 0) (now_at 900)]}.
Definition example_free : Scheduler := MkScheduler true true true "one" 0 1 2 4 true.
Definition example_around : Surroundings := MkSurroundings (now_at 3) "text" ∅ (λ _ _, false).
Definition example_drivers : DriverLeases := NewDriverLeases "a".

Lemma busy_rows id row : busy_db.(run_operations) !! id = Some row → ∃ op, op ∈ example_rows ∧ id = op.(Op_ID) ∧ row = example_row op.
Proof. intros (op & [= -> ->] & Hin)%elem_of_list_to_map_2%list_elem_of_fmap. by exists op. Qed.
Ltac each_row := match goal with H : _ ∈ example_rows |- _ => unfold example_rows in H; rewrite !elem_of_cons, elem_of_nil in H; destruct H as [-> |[-> |[-> |[-> |[]]]]] end.
Lemma busy_permits id p revision : busy_db.(verification_permits) !! id = Some (p, revision) → id = "v" ∧ p = example_tool.
Proof. cbn. intros [<- [= <- <-]]%lookup_singleton_Some. done. Qed.

Lemma busy_ok : sqlite_ok busy_db.
Proof.
  split.
  - intros id row (op & Hin & -> & ->)%busy_rows. done.
  - intros id row (op & Hin & -> & ->)%busy_rows. each_row; vm_compute; reflexivity.
  - intros id p revision [-> ->]%busy_permits. done.
  - intros id row (op & Hin & -> & ->)%busy_rows. split; [|done]. each_row; discriminate.
Qed.

Lemma busy_calm : calm example_free example_around example_drivers busy_db.
Proof.
  split.
  - intros id row (op & Hin & -> & ->)%busy_rows Ha. each_row; try discriminate Ha. intros lease [= <-]. split; [by apply not_elem_of_empty|done].
  - intros id p revision [-> ->]%busy_permits. split; [vm_compute; reflexivity|right; right; by vm_compute].
  - intros id c Hl. cbn in Hl. apply lookup_singleton_Some in Hl as [<- <-]. left. vm_compute. reflexivity.
Qed.

Lemma grant_text next : (0 <= next)%Z → ValidString ("a-" +:+ itoa next) = true.
Proof. intros Hn. apply ascii_valid, ascii_app; [by apply ascii_by|by apply ascii_itoa]. Qed.

Lemma busy_writable : lease_writable example_free example_around example_drivers.
Proof.
  intros grant (next & Hn & ->). pose proof (grant_text next Hn) as Hg. change (Drivers_prefix example_drivers) with "a-".
  split; [|split; vm_compute; reflexivity]. unfold lease_value, omit_empty, omit_if. apply validate_GStruct, Forall_app. split; [repeat constructor; vm_compute; reflexivity|].
  destruct (_ ≟ ""); [by constructor|]. constructor; [|by constructor]. cbn [snd validateIJSONValue lease_now Lease_Grant]. by rewrite Hg.
Qed.


(** An attempt that starts after a crash, of an operation without a budget of
    its own, keeps the deadline of the attempt that died. *)
Example crashed_deadline_kept :
  (started (Some (MkLimit 600 "attempt_wall")) (set_active (Some 100%Z) (set_deadline (Some 700%Z) "attempt_wall" no_operation)) 650 0).(Op_Deadline) = Some 700%Z
  ∧ (started (Some (MkLimit 600 "attempt_wall")) no_operation 650 0).(Op_Deadline) = Some 1250%Z.
Proof. vm_compute. done. Qed.
